(* ===== verification/_CoqProject ===== *)
-Q . S2P
Prelude.v
OrdSet.v
OrdMap.v
Endian.v
ByteArray.v
ByteArraySpec.v
ByteArrayThms.v
ByteArrayCodec.v
ByteArrayIO.v
Timer.v
TimerThms.v
Ragel.v
Http.v
HttpThms.v
Http11Machine.v
Http11.v
HttpClientMachine.v
HttpClient.v
HttpParser.v
Http11Safe.v
HttpRoundtrip.v
HttpClientSafe.v
HttpLimits.v
Fiber.v
Scheduler.v
SchedulerInv.v
SchedulerSafe.v
SchedulerThms.v
SchedulerTasks.v
SchedulerRaces.v
IOManager.v
IOSafe.v
IOThms.v
Address.v
AddressThms.v
Servlet.v
ServletThms.v
Socket.v
SocketThms.v
Stream.v
StreamThms.v
HttpSession.v
HttpSessionThms.v
HttpServer.v
HttpServerThms.v
UriMachine.v
Uri.v
UriThms.v
UriRoundtrip.v
HttpConnection.v
HttpReceive.v
HttpPool.v
FdManager.v
FdThms.v
Hook.v
HookThms.v
HookFlags.v
Config.v
ConfigCasts.v
ConfigThms.v
Log.v
LogFormat.v
LogThms.v
LogConfig.v
LogConfigThms.v
LogConfigApply.v
Locks.v
LocksThms.v
FdThreads.v
Thread.v
ThreadThms.v
