(* ===== verification/Prelude.v ===== *)
(** Verification of linko, a C++ server library: coroutines scheduled over threads and
    epoll, timers, hooked system calls, sockets, HTTP, URIs, configuration and logging
    (src/linko).

    * How the program fits together

    A Scheduler runs tasks, which are Fibers or functions, on a number of Threads.
    IOManager is a Scheduler whose idle fiber waits in epoll, and a TimerManager; it
    resumes the tasks that wait for events of descriptors and for timers. hook.cc
    replaces the blocking system calls by ones that register an event and a timer with
    the IOManager and give up the fiber; FdManager keeps what the hooks must know
    about each descriptor.  Socket calls the replaced functions, SocketStream is a
    Stream over a Socket.  HttpSession (server) and HttpConnection (client) read and
    write messages on such a stream with HttpRequestParser and HttpResponseParser,
    which fill the messages of http.cc from character machines that ragel generates.
    TcpServer accepts connections, HttpServer answers the requests on them with the
    Servlet its dispatcher finds.  Uri and Address name what is connected to.
    ByteArray is the buffer of binary protocols.  Config holds typed variables that
    are loaded from YAML, Log the loggers, which are configured by such a variable.
    The locks of mutex.h guard the shared state of all of these.

    * Conventions

    A C++ operation on a state [S] is a computation of the monad [M S] below: it
    returns, throws one of the exceptions [exn], or leaves defined behaviour ([crash]:
    null or dangling pointer, index outside an array, failed assertion, ...).
    Integers are in [Z], wrapped at their width where C++ wraps ([u64], [i32], ...).
    Strings and buffers are lists of bytes ([ascii]).  Pointers into a container are
    indices, pointers to shared objects are addresses of a heap of objects.  A
    definition has the name of the function or member it models, as far as names are
    free.  What is not under src/ is a class of operations: [Kernel] (epoll),
    [FdKernel] (fstat, fcntl), [SocketApi], [HookApi] (the original system calls and
    the timers of the IOManager), [ClientApi], [Workers], [HttpEnv], [Yaml] and
    [YamlAccess], [LexicalCast], [ConfigTypes], [LogEnv], [Pthread], [System], the
    resolver and fnmatch; [Host] is the byte order.  What is documented of it is a
    class of laws beside it, with an instance to evaluate the development on
    ([KernelLaws], [SocketLaws], [HookLaws], [FlagLaws] over the [Descriptions] of a
    kernel, [YamlLaws], [LogConfigLaws], [LockLaws], and the Demo... and Wire...
    instances).

    * Files

    Prelude: outcomes, the monad and its tactics, machine integers, slices of lists, C
    strings.  OrdSet, OrdMap: std::set and std::map over a comparator, as ordered
    sequences, with the laws of strict total and strict weak orders.

    ByteArray of bytearray.cc over Endian of endian.h; ByteArraySpec: its operations
    refine one flat byte string with a cursor; ByteArrayThms: write and read;
    ByteArrayCodec: typed items written and read back; ByteArrayIO: files and
    scatter/gather views.

    Timer of timer.cc; TimerThms: no iterator is misused, exactly the due callbacks
    are handed out, a sleeper is woken for an earlier timer.

    Fiber of fiber.cc: what a ucontext is decides which resumptions are valid.
    Scheduler of scheduler.cc: every thread a program counter in [Scheduler::run], a
    step being what lies between two accesses to shared state.  SchedulerInv: the
    invariant, SchedulerSafe: each step keeps it, SchedulerThms: no crash;
    SchedulerTasks: no task lost or started twice, as a watcher of the states sees it;
    SchedulerRaces: what breaks it outside its conditions.

    IOManager of iomanager.cc, with the states and operations of Scheduler and Timer
    as its parts and [Kernel] below it; IOSafe: its invariant; IOThms: registered
    events, stored tasks, what epoll waits for and m_pendingEventCount agree, up to
    the reports that were overtaken in part, which fail an assertion.

    FdManager of fd_manager.cc, FdThms: it refines a finite map.  Hook of hook.cc, one
    definition per replaced function; HookThms: a hooked call returns exactly when a
    blocking one with a time-out would; HookFlags: who sees which non-blocking flag,
    with the open file descriptions that copies of a descriptor share.

    Address of address.cc, AddressThms.  Socket of socket.cc, SocketThms: descriptors
    are owned by one socket of a program that makes, accepts and deletes many.  Stream
    of stream.cc and socket_stream.cc, StreamThms.

    Ragel: the interpreter of goto machines; Http11Machine, HttpClientMachine,
    UriMachine: the tables of http11_parser.rl.cc, httpclient_parser.rl.cc and
    uri.rl.cc, label by label.  Http11, HttpClient: the parsers around the first two;
    HttpParser of http_parser.cc; Http of http.cc.  HttpThms; Http11Safe: no input
    that is not cut inside a query makes the request parser leave its buffer;
    HttpClientSafe: nor the response parser, unless a header value is empty;
    HttpRoundtrip: requests written and read back; HttpLimits: where it goes wrong.
    Uri of uri.h and uri.rl, UriThms, UriRoundtrip.

    Servlet of servlet.cc, ServletThms.  HttpSession of http_session.cc,
    HttpSessionThms.  HttpServer of tcp_server.cc and http_server.cc, HttpServerThms:
    a connection is answered request by request.  HttpConnection of
    http_connection.cc; HttpReceive: what is made of responses; HttpPool: the pool of
    connections under interleaved calls.

    Config of config.h and config.cc, ConfigCasts: the conversions, ConfigThms:
    loading and listeners.  Log of log.cc, LogFormat: patterns, LogThms: who writes a
    line, and what makes a statement fail; LogConfig: the definitions of loggers,
    LogConfigThms and LogConfigApply: what text keeps of them and what a change does.

    Locks of mutex.h, LocksThms: what is done under a guard is atomic; this is what
    makes one step of a body under a mutex in the other files; FdThreads: threads that
    use an FdManager under its lock.  Thread of thread.cc with the Semaphore and
    util.cc, ThreadThms: the constructor returns when the thread is ready.

    * What the theorems show

    Safety under interleaving: [timer_ops_safe], [scheduler_safe], [iomanager_safe],
    [pool_counts], [sections_atomic], [fd_threads], [thread_starts].  Sequential
    safety, on every input that meets the stated conditions: [request_parser_safe],
    [response_parser_safe], [create_total], [socket_owns_descriptor].  Flags seen and
    flags held: [sockets_stay_nonblocking].  Refinement of a specification:
    [write_refines], [fd_manager_refines], [read_ba_writes], [do_io_blocks],
    [sections_atomic]; equivalence with one: [dispatch_by_history],
    [LoadFromYaml_by_path].  Round trips: [items_roundtrip], [request_roundtrip],
    [uri_roundtrip], [ipv6_text_roundtrip], [pattern_roundtrip],
    [sequence_conversions].  Results, failures included: [listExpiredCb_exact],
    [report_exact], [recvRequest_receives], [chunks_decoded], [log_lines],
    [conf_changed].  Liveness: [no_lost_wakeup], [tasks_conserved],
    [handleClient_answers].  The theorems that name a failure ([yield_race],
    [subnet_masks], [define_reload], ...) delimit the conditions of the others, as do
    [report_exact] for [iomanager_safe] and the examples at the ends of the files.

    * Bounds and fuel

    Loops that end by themselves carry the bound they end by: the blocks left in a
    ByteArray, 6 and 11 rounds of a varint, the bits of a mask, the length of the text
    in the machines, of which each round takes a character; their theorems show the
    result, so that the bound is enough.  Loops that wait for somebody else (the reads
    of a stream, the requests of a connection, the rounds of a hooked call) take a
    [fuel] argument; the theorems say how much is enough for which input: a round more
    than there are pieces or requests.  [log] needs 2: no chain of roots is longer.
    Threads are sequences of turns of any length.

    * What is not modelled

    Allocation failure; the contents of log messages about the library itself; names
    of threads in Scheduler; vasprintf (LogEvent::format) and strftime; dlsym and the
    configured time-out in hook.cc; virtual destructors, typedefs and include guards.
    The locks are left out of Config and Log, whose operations are taken one at a time
    (setValue apart, whose two halves are separate steps).  Weak memory: shared
    accesses interleave, and accesses that are not under a lock where the code has
    none are findings. singleton.h, noncopyable.h, macro.h and links.h have no state.
    tests/, examples/ and samples/ use the library and are not part of it. *)
From Stdlib Require Export ZArith Lia Ascii String List.
From stdpp Require Export base tactics list list_numbers gmap strings numbers.

#[export] Set Default Goal Selector "!".

Declare Scope linko_scope.
Delimit Scope linko_scope with linko.
Open Scope Z_scope.

(** ** What a C++ operation can do besides returning *)

(** Exceptions the code throws, with the message it gives them. *)
Inductive exn :=
| out_of_range (what : string)
| logic_error (what : string)
| invalid_argument (what : string)
| length_error (what : string)
| bad_alloc.

(** Ways of leaving the defined behaviour of the program: each is a point where
    the C++ text would dereference a null pointer, use an object that is destroyed,
    leave an array, read what was not written, divide by zero, shift by the width of
    the type or more, violate a library precondition, resume a context that is not saved, or fail an [assert].  [OutOfFuel] is
    the model's own: a theorem that an operation returns excludes it. *)
Inductive crash :=
| NullDeref
| UseAfterFree
| OutOfBounds
| Uninitialised
| DivByZero
| BadShift
| BadErase
| StaleContext
| AssertFail (what : string)
| OutOfFuel.

Inductive outcome (S A : Type) :=
| Ret (a : A) (s : S)
| Throw (e : exn) (s : S)
| Crash (c : crash).
Arguments Ret {S A} a s.
Arguments Throw {S A} e s.
Arguments Crash {S A} c.

(** A computation over the object state [S]. *)
Definition M (S A : Type) : Type := S -> outcome S A.

#[export] Instance M_ret S : MRet (M S) := fun A a s => Ret a s.
#[export] Instance M_bind S : MBind (M S) := fun A B f m s =>
  match m s with
  | Ret a s' => f a s'
  | Throw e s' => Throw e s'
  | Crash c => Crash c
  end.

Definition get {S} : M S S := fun s => Ret s s.
Definition put {S} (s : S) : M S unit := fun _ => Ret tt s.
Definition modify {S} (f : S -> S) : M S unit := fun s => Ret tt (f s).
Definition throw {S A} (e : exn) : M S A := fun s => Throw e s.
Definition crash_with {S A} (c : crash) : M S A := fun _ => Crash c.
Definition when {S} (b : bool) (m : M S unit) : M S unit :=
  if b then m else mret tt.
(** [assert(b)]. *)
Definition assert {S} (b : bool) (what : string) : M S unit :=
  if b then mret tt else crash_with (AssertFail what).

(** A method of a local object [d]: the object stays with the caller. *)
Definition on_local {S D A} (m : M D A) (d : D) : M S (A * D) := fun s =>
  match m d with
  | Ret a d' => Ret (a, d') s
  | Throw e _ => Throw e s
  | Crash c => Crash c
  end.

Lemma on_local_run {S D A} (m : M D A) d a d' (s : S) : m d = Ret a d' -> on_local m d s = Ret (a, d') s.
Proof. intros H. unfold on_local. by rewrite H. Qed.

Lemma bind_Ret {S A B} (m : M S A) (f : A -> M S B) s a s' :
  m s = Ret a s' -> (m ≫= f) s = f a s'.
Proof. intros H. unfold mbind, M_bind. by rewrite H. Qed.

Lemma bind_Throw {S A B} (m : M S A) (f : A -> M S B) s e s' :
  m s = Throw e s' -> (m ≫= f) s = Throw e s'.
Proof. intros H. unfold mbind, M_bind. by rewrite H. Qed.

Lemma bind_Crash {S A B} (m : M S A) (f : A -> M S B) s c :
  m s = Crash c -> (m ≫= f) s = Crash c.
Proof. intros H. unfold mbind, M_bind. by rewrite H. Qed.

Lemma bind_Ret_inv {S A B} (m : M S A) (f : A -> M S B) s c s'' :
  (m ≫= f) s = Ret c s'' -> exists a s', m s = Ret a s' /\ f a s' = Ret c s''.
Proof. unfold mbind, M_bind. destruct (m s) as [a s'| |]; [|done..]. by exists a, s'. Qed.

Lemma assert_run {S} (b : bool) what (s : S) : b = true -> assert b what s = Ret tt s.
Proof. by intros ->. Qed.

(** Left-to-right symbolic execution of one bind, with an equation for its
    first computation or by computing it. *)
Tactic Notation "step_with" uconstr(E) := rewrite (bind_Ret _ _ _ _ _ E).
Tactic Notation "step_with" uconstr(E) "in" hyp(H) := rewrite (bind_Ret _ _ _ _ _ E) in H.
Ltac mstep := erewrite bind_Ret by (first [reflexivity | eassumption]); cbv beta.

(** ** Machine integers: values are kept in [Z], wrapped where C++ wraps. *)

Definition wrap (w z : Z) : Z := z mod 2 ^ w.
Definition swrap (w z : Z) : Z := (z + 2 ^ (w - 1)) mod 2 ^ w - 2 ^ (w - 1).
Abbreviation u8 := (wrap 8).
Abbreviation u16 := (wrap 16).
Abbreviation u32 := (wrap 32).
Abbreviation u64 := (wrap 64).
Abbreviation i8 := (swrap 8).
Abbreviation i16 := (swrap 16).
Abbreviation i32 := (swrap 32).
Abbreviation i64 := (swrap 64).

Definition in_u (w z : Z) : Prop := 0 <= z < 2 ^ w.
Definition in_s (w z : Z) : Prop := - 2 ^ (w - 1) <= z < 2 ^ (w - 1).

Lemma wrap_range w z : 0 <= w -> in_u w (wrap w z).
Proof. intros. apply Z.mod_pos_bound. apply Z.pow_pos_nonneg; lia. Qed.

Lemma wrap_small w z : in_u w z -> wrap w z = z.
Proof. intros H. by apply Z.mod_small. Qed.

Lemma pow2_split w : 0 < w -> 2 ^ w = 2 * 2 ^ (w - 1).
Proof. intros. rewrite <- Z.pow_succ_r by lia. f_equal; lia. Qed.

Lemma swrap_range w z : 0 < w -> in_s w (swrap w z).
Proof.
  intros. unfold in_s, swrap. rewrite (pow2_split w) by lia.
  assert (0 < 2 ^ (w - 1)) by (apply Z.pow_pos_nonneg; lia).
  pose proof (Z.mod_pos_bound (z + 2 ^ (w - 1)) (2 * 2 ^ (w - 1))). lia.
Qed.

Lemma swrap_small w z : 0 < w -> in_s w z -> swrap w z = z.
Proof.
  intros Hw H. unfold in_s, swrap in *. rewrite Z.mod_small; [lia|].
  rewrite (pow2_split w) by lia. lia.
Qed.

(** Reinterpreting the w-bit pattern of a signed value recovers the value. *)
Lemma swrap_wrap w z : 0 < w -> swrap w (wrap w z) = swrap w z.
Proof. intros. unfold swrap, wrap. by rewrite Zplus_mod_idemp_l. Qed.

Lemma wrap_swrap w z : 0 < w -> wrap w (swrap w z) = wrap w z.
Proof.
  intros. unfold swrap, wrap. rewrite Zminus_mod_idemp_l. f_equal; lia.
Qed.

Lemma wrap_wrap w z : 0 <= w -> wrap w (wrap w z) = wrap w z.
Proof. intros. unfold wrap. apply Z.mod_mod. apply Z.pow_nonzero; lia. Qed.

(** ** Bytes *)

Abbreviation byte := ascii.
Abbreviation bytes := (list ascii).

Definition ub (b : byte) : Z := Z.of_N (N_of_ascii b).
Definition bz (z : Z) : byte := ascii_of_N (Z.to_N (z mod 256)).

Lemma ub_range b : 0 <= ub b < 256.
Proof. unfold ub. pose proof (N_ascii_bounded b). lia. Qed.

Lemma bz_ub b : bz (ub b) = b.
Proof.
  unfold bz, ub. rewrite Z.mod_small by apply ub_range.
  rewrite N2Z.id. apply ascii_N_embedding.
Qed.

Lemma ub_bz z : ub (bz z) = z mod 256.
Proof.
  unfold bz, ub. pose proof (Z.mod_pos_bound z 256).
  rewrite N_ascii_embedding; lia.
Qed.

Lemma ub_inj a b : ub a = ub b -> a = b.
Proof. intros H. by rewrite <- (bz_ub a), <- (bz_ub b), H. Qed.

(** ** Lists indexed by machine integers *)

Definition zlen {A} (l : list A) : Z := Z.of_nat (length l).
Definition ztake {A} (n : Z) (l : list A) : list A := take (Z.to_nat n) l.
Definition zdrop {A} (n : Z) (l : list A) : list A := drop (Z.to_nat n) l.

(** [memcpy(base + p, xs, |xs|)] on the bytes [l] of an object. *)
Definition overwrite {A} (p : Z) (xs l : list A) : list A :=
  ztake p l ++ xs ++ zdrop (p + zlen xs) l.
(** The [n] elements from offset [p]. *)
Definition slice {A} (p n : Z) (l : list A) : list A := ztake n (zdrop p l).

Section zlists.
Context {A : Type}.
Implicit Types l xs ys : list A.

Lemma zlen_nonneg l : 0 <= zlen l.
Proof. unfold zlen. lia. Qed.

Lemma zlen_nil : zlen (@nil A) = 0.
Proof. done. Qed.

Lemma zlen_cons x l : zlen (x :: l) = 1 + zlen l.
Proof. unfold zlen; cbn [length]; lia. Qed.

Lemma zlen_app l1 l2 : zlen (l1 ++ l2) = zlen l1 + zlen l2.
Proof. unfold zlen. rewrite length_app. lia. Qed.

Lemma zlen_0 l : zlen l = 0 -> l = [].
Proof. destruct l; [done|]. rewrite zlen_cons. pose proof (zlen_nonneg l). lia. Qed.

Lemma zlen_ztake n l : 0 <= n <= zlen l -> zlen (ztake n l) = n.
Proof. unfold zlen, ztake. intros. rewrite length_take. lia. Qed.

Lemma zlen_zdrop n l : 0 <= n <= zlen l -> zlen (zdrop n l) = zlen l - n.
Proof. unfold zlen, zdrop. intros. rewrite length_drop. lia. Qed.

Lemma ztake_zdrop n l : ztake n l ++ zdrop n l = l.
Proof. apply take_drop. Qed.

Lemma ztake_0 l : ztake 0 l = [].
Proof. done. Qed.

Lemma zdrop_0 l : zdrop 0 l = l.
Proof. done. Qed.

Lemma ztake_all n l : zlen l <= n -> ztake n l = l.
Proof. unfold zlen, ztake. intros. apply take_ge. lia. Qed.

Lemma zdrop_all n l : zlen l <= n -> zdrop n l = [].
Proof. unfold zlen, zdrop. intros. apply drop_ge. lia. Qed.

Lemma zdrop_zdrop n m l : 0 <= n -> 0 <= m -> zdrop n (zdrop m l) = zdrop (m + n) l.
Proof. unfold zdrop. intros. rewrite drop_drop. f_equal. lia. Qed.

Lemma ztake_ztake n m l : 0 <= n <= m -> ztake n (ztake m l) = ztake n l.
Proof. unfold ztake. intros. rewrite take_take. f_equal. lia. Qed.

Lemma ztake_app_le n l1 l2 : n <= zlen l1 -> ztake n (l1 ++ l2) = ztake n l1.
Proof. unfold zlen, ztake. intros. apply take_app_le. lia. Qed.

Lemma zdrop_app_le n l1 l2 : n <= zlen l1 -> zdrop n (l1 ++ l2) = zdrop n l1 ++ l2.
Proof. unfold zlen, zdrop. intros. apply drop_app_le. lia. Qed.

Lemma ztake_app_ge n l1 l2 :
  zlen l1 <= n -> ztake n (l1 ++ l2) = l1 ++ ztake (n - zlen l1) l2.
Proof. unfold zlen, ztake. intros. rewrite take_app_ge by lia. do 2 f_equal. lia. Qed.

Lemma zdrop_app_ge n l1 l2 :
  zlen l1 <= n -> zdrop n (l1 ++ l2) = zdrop (n - zlen l1) l2.
Proof. unfold zlen, zdrop. intros. rewrite drop_app_ge by lia. f_equal. lia. Qed.

Lemma slice_zlen p n l : 0 <= p -> 0 <= n -> p + n <= zlen l -> zlen (slice p n l) = n.
Proof.
  intros. unfold slice. rewrite zlen_ztake; [done|]. rewrite zlen_zdrop; lia.
Qed.

Lemma slice_split p n m l :
  0 <= p -> 0 <= n <= m -> slice p n l ++ slice (p + n) (m - n) l = slice p m l.
Proof.
  intros. unfold slice. rewrite <- zdrop_zdrop by lia.
  set (k := zdrop p l). unfold ztake, zdrop.
  rewrite take_drop_commute, <- Z2Nat.inj_add by lia.
  replace (n + (m - n)) with m by lia.
  rewrite <- (take_drop (Z.to_nat n) (take (Z.to_nat m) k)) at 2.
  f_equal. rewrite take_take. f_equal. lia.
Qed.

Lemma overwrite_nil p l : overwrite p [] l = l.
Proof.
  unfold overwrite. rewrite zlen_nil, Z.add_0_r. apply ztake_zdrop.
Qed.

Lemma overwrite_zlen p xs l :
  0 <= p -> p + zlen xs <= zlen l -> zlen (overwrite p xs l) = zlen l.
Proof.
  intros. pose proof (zlen_nonneg xs). unfold overwrite.
  rewrite !zlen_app, zlen_ztake, zlen_zdrop; lia.
Qed.

Lemma overwrite_app p xs ys l :
  0 <= p -> p + zlen xs + zlen ys <= zlen l ->
  overwrite (p + zlen xs) ys (overwrite p xs l) = overwrite p (xs ++ ys) l.
Proof.
  intros. pose proof (zlen_nonneg xs). pose proof (zlen_nonneg ys).
  unfold overwrite at 1.
  assert (Hp : zlen (ztake p l) = p) by (apply zlen_ztake; lia).
  unfold overwrite. rewrite !app_assoc.
  rewrite ztake_app_le by (rewrite zlen_app; lia).
  rewrite ztake_all by (rewrite zlen_app; lia).
  rewrite zdrop_app_ge by (rewrite zlen_app; lia).
  rewrite zlen_app, Hp, zdrop_zdrop by lia.
  f_equal. f_equal. rewrite zlen_app. lia.
Qed.

Lemma slice_overwrite p xs l :
  0 <= p -> p + zlen xs <= zlen l -> slice p (zlen xs) (overwrite p xs l) = xs.
Proof.
  intros. pose proof (zlen_nonneg xs). unfold slice, overwrite.
  assert (Hp : zlen (ztake p l) = p) by (apply zlen_ztake; lia).
  rewrite zdrop_app_ge, Hp, Z.sub_diag, zdrop_0 by lia.
  rewrite ztake_app_ge, Z.sub_diag, ztake_0, app_nil_r by lia. done.
Qed.

(** Updating inside the middle part of a concatenation. *)
Lemma overwrite_middle p xs l1 l2 l3 :
  0 <= p -> p + zlen xs <= zlen l2 ->
  overwrite (zlen l1 + p) xs (l1 ++ l2 ++ l3) = l1 ++ overwrite p xs l2 ++ l3.
Proof.
  intros. pose proof (zlen_nonneg xs). pose proof (zlen_nonneg l1).
  unfold overwrite.
  rewrite ztake_app_ge, zdrop_app_ge by lia.
  replace (zlen l1 + p - zlen l1) with p by lia.
  replace (zlen l1 + p + zlen xs - zlen l1) with (p + zlen xs) by lia.
  rewrite ztake_app_le, zdrop_app_le by lia. by rewrite <- !app_assoc.
Qed.

Lemma slice_middle p n l1 l2 l3 :
  0 <= p -> 0 <= n -> p + n <= zlen l2 ->
  slice (zlen l1 + p) n (l1 ++ l2 ++ l3) = slice p n l2.
Proof.
  intros. pose proof (zlen_nonneg l1). unfold slice.
  rewrite zdrop_app_ge by lia.
  replace (zlen l1 + p - zlen l1) with p by lia.
  rewrite zdrop_app_le by lia.
  apply ztake_app_le. rewrite zlen_zdrop; lia.
Qed.
End zlists.

(** ** Strings: a std::string is a list of bytes; [c_str()] ends at its first NUL. *)

(** The bytes of a literal. *)
Definition bs (s : string) : bytes := list_ascii_of_string s.

(** [s.c_str()] as a C string. *)
Fixpoint c_str (s : bytes) : bytes :=
  match s with [] => [] | c :: s => if ub c =? 0 then [] else c :: c_str s end.

(** tolower of the "C" locale. *)
Definition tolower (c : byte) : byte :=
  if (65 <=? ub c) && (ub c <=? 90) then bz (ub c + 32) else c.

(** Comparison of C strings as unsigned characters. *)
Fixpoint strcmp (a b : bytes) : Z :=
  match a, b with
  | [], [] => 0
  | [], _ :: _ => -1
  | _ :: _, [] => 1
  | x :: a, y :: b => if ub x <? ub y then -1 else if ub y <? ub x then 1 else strcmp a b
  end.

Definition strcasecmp (a b : bytes) : Z := strcmp (map tolower a) (map tolower b).

(** [strncmp(lit, m, n) == 0] for a literal without NUL and [n] at most its
    length, on the bytes [m] that can be read; [None]: the answer depends on
    bytes beyond them. *)
Fixpoint strncmp_eq (lit : bytes) (n : nat) (m : bytes) : option bool :=
  match n, lit, m with
  | O, _, _ => Some true
  | _, [], c :: _ => Some (ub c =? 0)
  | S n, x :: lit, c :: m => if ub x =? ub c then strncmp_eq lit n m else Some false
  | S _, _, [] => None
  end.

(** [os << n] for an unsigned integer. *)
Fixpoint show_dec_fuel (fuel : nat) (n : Z) (acc : bytes) : bytes :=
  match fuel with
  | O => acc
  | S fuel =>
    let acc := bz (48 + n mod 10) :: acc in
    if n <? 10 then acc else show_dec_fuel fuel (n / 10) acc
  end.
Definition show_dec (n : Z) : bytes := show_dec_fuel (Z.to_nat (Z.log2 n + 1)) n [].
Definition show_int (n : Z) : bytes := if n <? 0 then bs "-" ++ show_dec (- n) else show_dec n.

Create HintDb linko discriminated.
#[export] Hint Constants Opaque : linko.
#[export] Hint Resolve zlen_nonneg ub_range wrap_range swrap_range : linko.

Create Rewrite HintDb zl.
#[export] Hint Rewrite @zlen_nil @zlen_cons @zlen_app @ztake_0 @zdrop_0 @app_nil_r : zl.

(** Split the comparison a branch tests. *)
Ltac case_cmp :=
  match goal with
  | |- context [?a =? ?b] => destruct (Z.eqb_spec a b)
  | |- context [?a <? ?b] => destruct (Z.ltb_spec a b)
  | |- context [?a <=? ?b] => destruct (Z.leb_spec a b)
  end.
