(* ===== verification/OrdSet.v ===== *)
(** std::set over a comparator, as the ordered sequence an iteration visits:
    an iterator is an index, [end()] the length, and the operations find their
    position with the comparator as the tree search does. *)
From S2P Require Import Prelude.
From Stdlib Require Import Sorted.
From stdpp Require Import sorting.

Section ordset.
Context {A : Type} (less : A -> A -> bool).

(** The first element that is not less than [k]. *)
Fixpoint lower_bound (k : A) (l : list A) : nat :=
  match l with
  | [] => 0%nat
  | y :: l => if less y k then S (lower_bound k l) else 0%nat
  end.

(** [find]: the lower bound, if [k] is not less than it. *)
Definition set_find (k : A) (l : list A) : option nat :=
  let i := lower_bound k l in
  match l !! i with
  | Some y => if less k y then None else Some i
  | None => None
  end.

(** [insert]: the sequence, the iterator, and whether [k] was added. *)
Definition set_insert (k : A) (l : list A) : list A * nat * bool :=
  match set_find k l with
  | Some i => (l, i, false)
  | None => let i := lower_bound k l in (take i l ++ k :: drop i l, i, true)
  end.

Definition set_sorted (l : list A) : Prop := StronglySorted (fun a b => less a b = true) l.
End ordset.

(** The comparator is a strict total order. *)
Class StrictTotal {A} (less : A -> A -> bool) : Prop := {
  less_irrefl a : less a a = false;
  less_trans a b c : less a b = true -> less b c = true -> less a c = true;
  less_total a b : less a b = false -> less b a = false -> a = b
}.

Section laws.
Context {A : Type} (less : A -> A -> bool) `{!StrictTotal less}.
Implicit Types l : list A.

Lemma less_asym a b : less a b = true -> less b a = false.
Proof.
  intros H. destruct (less b a) eqn:E; [|done].
  pose proof (less_trans _ _ _ H E) as F. by rewrite less_irrefl in F.
Qed.

Lemma set_sorted_cons a l :
  set_sorted less (a :: l) <-> (Forall (fun b => less a b = true) l) /\ set_sorted less l.
Proof. apply StronglySorted_cons. Qed.

Lemma set_sorted_app l1 l2 :
  set_sorted less (l1 ++ l2) <->
  set_sorted less l1 /\ set_sorted less l2 /\
  (forall a b, a ∈ l1 -> b ∈ l2 -> less a b = true).
Proof.
  unfold set_sorted. rewrite StronglySorted_app.
  split; intros (H1 & H2 & H3); split_and!; assumption.
Qed.

Lemma set_sorted_NoDup l : set_sorted less l -> NoDup l.
Proof.
  induction l as [|a l IH]; [constructor|]. rewrite set_sorted_cons, Forall_forall.
  intros [Ha Hl]. constructor; [|by apply IH].
  intros Hin. specialize (Ha _ Hin). cbn in Ha. by rewrite less_irrefl in Ha.
Qed.

Lemma lower_bound_le k l : (lower_bound less k l <= length l)%nat.
Proof. induction l as [|y l IH]; cbn; [lia|]. destruct (less y k); lia. Qed.

Lemma lower_bound_before k l a : a ∈ take (lower_bound less k l) l -> less a k = true.
Proof.
  induction l as [|y l IH]; cbn [lower_bound].
  - by intros ?%elem_of_nil.
  - destruct (less y k) eqn:E; cbn [take]; [|by intros ?%elem_of_nil].
    intros [->|?]%elem_of_cons; auto.
Qed.

Lemma lower_bound_from k l a :
  set_sorted less l -> a ∈ drop (lower_bound less k l) l -> less a k = false.
Proof.
  induction l as [|y l IH]; cbn [lower_bound]; [set_solver|].
  rewrite set_sorted_cons, Forall_forall. intros [Hy Hl].
  destruct (less y k) eqn:E; cbn [drop]; [by apply IH|].
  rewrite list_elem_of_In. cbn [In]. rewrite <- list_elem_of_In. intros [<-|Hin]; [done|].
  destruct (less a k) eqn:F; [|done]. by rewrite (less_trans _ _ _ (Hy _ Hin) F) in E.
Qed.

Lemma lower_bound_head k l y :
  l !! lower_bound less k l = Some y -> less y k = false.
Proof.
  induction l as [|z l IH]; [done|]. cbn [lower_bound].
  destruct (less z k) eqn:E; cbn; [done|]. by intros [= ->].
Qed.

Lemma set_find_lookup k l i : set_find less k l = Some i -> l !! i = Some k.
Proof.
  unfold set_find. destruct (l !! lower_bound less k l) as [y|] eqn:E; [|done].
  destruct (less k y) eqn:F; [done|]. intros [= <-]. rewrite E. f_equal.
  apply less_total; [by eapply lower_bound_head|done].
Qed.

Lemma set_find_elem k l : set_sorted less l -> k ∈ l -> exists i, set_find less k l = Some i.
Proof.
  intros Hs Hk. unfold set_find.
  destruct (l !! lower_bound less k l) as [y|] eqn:E.
  - destruct (less k y) eqn:F; [|by eexists].
    exfalso. rewrite <- (take_drop (lower_bound less k l) l) in Hk.
    apply elem_of_app in Hk as [Hk|Hk].
    + apply lower_bound_before in Hk. by rewrite less_irrefl in Hk.
    + rewrite (drop_S _ _ _ E) in Hk. apply elem_of_cons in Hk as [->|Hk].
      * by rewrite less_irrefl in F.
      * rewrite <- (take_drop_middle _ _ _ E) in Hs.
        apply set_sorted_app in Hs as (_ & Hs & _). apply set_sorted_cons in Hs as [Hs _].
        rewrite Forall_forall in Hs. apply Hs, less_asym in Hk. congruence.
  - exfalso. apply lookup_ge_None in E.
    rewrite <- (take_ge l (lower_bound less k l)) in Hk by done.
    apply lower_bound_before in Hk. by rewrite less_irrefl in Hk.
Qed.

Lemma set_find_None k l : k ∉ l -> set_find less k l = None.
Proof.
  intros Hk. destruct (set_find less k l) as [i|] eqn:E; [|done].
  apply set_find_lookup in E. by apply list_elem_of_lookup_2 in E.
Qed.

Lemma set_insert_new k l :
  set_sorted less l -> k ∉ l ->
  exists i, set_insert less k l = (take i l ++ k :: drop i l, i, true) /\
    (i <= length l)%nat /\ set_sorted less (take i l ++ k :: drop i l).
Proof.
  intros Hs Hk. unfold set_insert. rewrite set_find_None by done.
  eexists. split; [done|]. split; [apply lower_bound_le|].
  pose proof Hs as Hs'. rewrite <- (take_drop (lower_bound less k l) l) in Hs'.
  apply set_sorted_app in Hs' as (H1 & H2 & H3).
  assert (Hfrom : forall a, a ∈ drop (lower_bound less k l) l -> less k a = true).
  { intros a Ha. pose proof (lower_bound_from _ _ _ Hs Ha).
    destruct (less k a) eqn:E; [done|]. exfalso. apply Hk.
    rewrite <- (take_drop (lower_bound less k l) l). apply elem_of_app. right.
    assert (k = a) by (by apply less_total). by subst. }
  apply set_sorted_app. split; [done|]. split.
  - apply set_sorted_cons. rewrite Forall_forall. split; [by intros; apply Hfrom|done].
  - intros a b Ha [->|Hb]%elem_of_cons; [by eapply lower_bound_before|by apply H3].
Qed.

Lemma set_insert_old k l :
  set_sorted less l -> k ∈ l -> exists i, set_insert less k l = (l, i, false) /\ l !! i = Some k.
Proof.
  intros Hs Hk. destruct (set_find_elem _ _ Hs Hk) as [i E].
  exists i. unfold set_insert. rewrite E. split; [done|]. by apply set_find_lookup.
Qed.

Lemma set_sorted_delete i l : set_sorted less l -> set_sorted less (delete i l).
Proof.
  intros Hs. rewrite delete_take_drop.
  destruct (l !! i) as [x|] eqn:E.
  - rewrite <- (take_drop_middle _ _ _ E) in Hs.
    apply set_sorted_app in Hs as (H1 & H2 & H3). apply set_sorted_cons in H2 as [_ H2].
    apply set_sorted_app. split; [done|]. split; [done|]. set_solver.
  - apply lookup_ge_None in E. rewrite drop_ge, app_nil_r, take_ge by lia. done.
Qed.

Lemma elem_of_delete_sorted i k l a :
  set_sorted less l -> l !! i = Some k -> a ∈ delete i l <-> a ∈ l /\ a <> k.
Proof.
  intros Hs E. pose proof (set_sorted_NoDup _ Hs) as Hd.
  rewrite delete_take_drop. rewrite <- (take_drop_middle _ _ _ E) in Hd.
  rewrite <- (take_drop_middle _ _ _ E) at 3.
  apply NoDup_app in Hd as (_ & Hd & Hd2). apply NoDup_cons in Hd2 as [Hd2 _].
  rewrite !elem_of_app, elem_of_cons. set_solver.
Qed.

Lemma set_sorted_drop i l : set_sorted less l -> set_sorted less (drop i l).
Proof. intros H. rewrite <- (take_drop i l) in H. by apply set_sorted_app in H as (_ & ? & _). Qed.

Lemma set_sorted_head x l a : set_sorted less (x :: l) -> a ∈ x :: l -> a = x \/ less x a = true.
Proof.
  rewrite set_sorted_cons, Forall_forall. intros [H _] [->|Ha]%elem_of_cons; auto.
Qed.

End laws.

(** Only the order of the elements matters. *)
Lemma set_sorted_ext {A} (less less' : A -> A -> bool) l :
  (forall a b, a ∈ l -> b ∈ l -> less a b = less' a b) ->
  set_sorted less l -> set_sorted less' l.
Proof.
  induction l as [|x l IH]; [constructor|]. intros E H. inversion H as [|? ? Hl Hx]; subst.
  constructor; [apply IH; [set_solver|done]|].
  rewrite Forall_forall in *. intros b Hb. rewrite <- E by set_solver. by apply Hx.
Qed.
