(* ===== verification/OrdMap.v ===== *)
(** std::map over a comparator, as the sequence of its entries in order.  The
    comparator need not be antisymmetric: keys neither of which is less are the
    same key, and [operator[]] keeps the key that was inserted first. *)
From S2P Require Import Prelude.
From Stdlib Require Import Sorted.
From stdpp Require Import sorting.

Section ordmap.
Context {K V : Type} (less : K -> K -> bool).

Definition eqv (a b : K) : bool := negb (less a b) && negb (less b a).

(** [find(k)->second]; [None] is end(). *)
Fixpoint map_find (k : K) (m : list (K * V)) : option V :=
  match m with
  | [] => None
  | (k', v) :: m => if less k' k then map_find k m else if less k k' then None else Some v
  end.

(** [m[k] = v]. *)
Fixpoint map_set (k : K) (v : V) (m : list (K * V)) : list (K * V) :=
  match m with
  | [] => [(k, v)]
  | (k', v') :: m' =>
    if less k' k then (k', v') :: map_set k v m'
    else if less k k' then (k, v) :: m else (k', v) :: m'
  end.

(** [erase(k)]. *)
Fixpoint map_erase (k : K) (m : list (K * V)) : list (K * V) :=
  match m with
  | [] => []
  | (k', v') :: m' =>
    if less k' k then (k', v') :: map_erase k m' else if less k k' then m else m'
  end.

Definition map_sorted (m : list (K * V)) : Prop :=
  StronglySorted (fun a b => less a.1 b.1 = true) m.
End ordmap.

(** The comparator orders keys by a normal form, on which it is total. *)
Class WeakOrder {K N} (less : K -> K -> bool) (norm : K -> N) : Prop := {
  weak_irrefl a b : norm a = norm b -> less a b = false;
  weak_trans a b c : less a b = true -> less b c = true -> less a c = true;
  weak_total a b : less a b = false -> less b a = false -> norm a = norm b;
  weak_norm a a' b b' : norm a = norm a' -> norm b = norm b' -> less a b = less a' b'
}.

Section laws.
Context {K N V : Type} (less : K -> K -> bool) (norm : K -> N) `{!WeakOrder less norm}.
Context `{!EqDecision N}.
Implicit Types m : list (K * V).

Lemma weak_asym a b : less a b = true -> less b a = false.
Proof.
  intros H. destruct (less b a) eqn:E; [|done].
  pose proof (weak_trans _ _ _ H E) as F. by rewrite (weak_irrefl a a) in F.
Qed.

Lemma eqv_norm a b : eqv less a b = true <-> norm a = norm b.
Proof.
  unfold eqv. rewrite andb_true_iff, !negb_true_iff. split.
  - intros [? ?]. by apply weak_total.
  - intros H. split; by apply weak_irrefl.
Qed.

Lemma map_sorted_cons kv m :
  map_sorted less (kv :: m) <-> Forall (fun b => less kv.1 b.1 = true) m /\ map_sorted less m.
Proof. apply StronglySorted_cons. Qed.

Lemma map_set_bound a k v m :
  Forall (fun b => less a b.1 = true) m -> less a k = true ->
  Forall (fun b => less a b.1 = true) (map_set less k v m).
Proof.
  intros H Hk. induction H as [|[k' v'] m Hk' H IH]; cbn [map_set]; [by repeat constructor|].
  destruct (less k' k); [by constructor|]. destruct (less k k'); repeat (constructor || done).
Qed.

Lemma map_set_sorted k v m : map_sorted less m -> map_sorted less (map_set less k v m).
Proof.
  induction m as [|[k' v'] m IH]; cbn [map_set]; [intros _; repeat constructor|].
  rewrite map_sorted_cons. intros [Hf Hs].
  destruct (less k' k) eqn:E1; [|destruct (less k k') eqn:E2].
  - apply map_sorted_cons. split; [|by apply IH]. by apply map_set_bound.
  - apply map_sorted_cons. split; [|by apply map_sorted_cons]. constructor; [done|].
    eapply Forall_impl; [exact Hf|]. cbn. intros b Hb. by eapply weak_trans.
  - by apply map_sorted_cons.
Qed.

Lemma map_erase_bound a k m :
  Forall (fun b => less a b.1 = true) m -> Forall (fun b => less a b.1 = true) (map_erase less k m).
Proof.
  intros H. induction H as [|[k' v'] m Hk' H IH]; cbn [map_erase]; [done|].
  destruct (less k' k); [by constructor|]. by destruct (less k k'); [constructor|].
Qed.

Lemma map_erase_sorted k m : map_sorted less m -> map_sorted less (map_erase less k m).
Proof.
  induction m as [|[k' v'] m IH]; cbn [map_erase]; [done|].
  rewrite map_sorted_cons. intros [Hf Hs].
  destruct (less k' k); [|by destruct (less k k'); [apply map_sorted_cons|]].
  apply map_sorted_cons. split; [by apply map_erase_bound|by apply IH].
Qed.

(** Nothing is found below the first key. *)
Lemma map_find_below k m : Forall (fun b => less k b.1 = true) m -> map_find less k m = None.
Proof.
  intros H. destruct H as [|[k' v'] m Hk H]; [done|]. cbn in *. by rewrite (weak_asym k k'), Hk.
Qed.

Lemma map_find_norm k k' m : norm k = norm k' -> map_find less k m = map_find less k' m.
Proof.
  intros H. induction m as [|[a v] m IH]; [done|]. cbn [map_find].
  by rewrite (weak_norm a a k k'), (weak_norm k k' a a), IH.
Qed.

Lemma less_of_norm a b c : norm a = norm b -> less a c = less b c.
Proof. intros H. by apply weak_norm. Qed.

Theorem map_find_set k k' v m :
  map_sorted less m ->
  map_find less k (map_set less k' v m) =
  if decide (norm k = norm k') then Some v else map_find less k m.
Proof.
  induction m as [|[a w] m IH]; intros Hs; cbn [map_set map_find].
  - case_decide as Hn; [by rewrite !weak_irrefl by done|].
    destruct (less k' k) eqn:E1; [done|]. destruct (less k k') eqn:E2; [done|].
    by destruct Hn; apply weak_total.
  - apply map_sorted_cons in Hs as [Hf Hs]. cbn in Hf.
    destruct (less a k') eqn:E1; [|destruct (less k' a) eqn:E2]; cbn [map_find].
    + rewrite IH by done. case_decide as Hn; [|done]. by rewrite (weak_norm a a k k'), E1.
    + case_decide as Hn; [by rewrite !weak_irrefl by done|].
      destruct (less k' k) eqn:F1; [done|]. destruct (less k k') eqn:F2.
      * rewrite (weak_asym k a), (weak_trans k k' a) by (done || by eapply weak_trans). done.
      * by destruct Hn; apply weak_total.
    + assert (Ha : norm a = norm k') by by apply weak_total.
      case_decide as Hn; [by rewrite !weak_irrefl by congruence|].
      destruct (less a k) eqn:F1; [done|]. destruct (less k a) eqn:F2; [done|].
      destruct Hn. rewrite <- Ha. by apply weak_total.
Qed.

Theorem map_find_erase k k' m :
  map_sorted less m ->
  map_find less k (map_erase less k' m) =
  if decide (norm k = norm k') then None else map_find less k m.
Proof.
  induction m as [|[a w] m IH]; intros Hs; cbn [map_erase map_find].
  - by case_decide.
  - apply map_sorted_cons in Hs as [Hf Hs]. cbn in Hf.
    destruct (less a k') eqn:E1; [|destruct (less k' a) eqn:E2]; cbn [map_find].
    + rewrite IH by done. case_decide as Hn; [|done]. by rewrite (weak_norm a a k k'), E1.
    + case_decide as Hn; [|done].
      by rewrite (weak_norm k k' a a), (weak_norm a a k k'), E1, E2.
    + assert (Ha : norm a = norm k') by by apply weak_total.
      case_decide as Hn.
      * apply map_find_below. eapply Forall_impl; [exact Hf|]. cbn. intros b Hb.
        rewrite (less_of_norm k a); [done|congruence].
      * destruct (less a k) eqn:F1; [done|]. destruct (less k a) eqn:F2; [|].
        -- apply map_find_below. eapply Forall_impl; [exact Hf|]. cbn. intros b Hb.
           by eapply weak_trans.
        -- destruct Hn. rewrite <- Ha. by apply weak_total.
Qed.
End laws.
