(* ===== verification/Endian.v ===== *)
(** linko/endian.h and the integer types it is instantiated at: the C integer
    types with their conversions, the object representation of an integer on
    the host, and the byte-swapping templates. *)
From S2P Require Import Prelude.

(** ** Integer types *)

Inductive ity := int8_t | uint8_t | int16_t | uint16_t
               | int32_t | uint32_t | int64_t | uint64_t.

#[export] Instance ity_eq_dec : EqDecision ity.
Proof. solve_decision. Defined.

Definition sizeof (t : ity) : nat :=
  match t with
  | int8_t | uint8_t => 1
  | int16_t | uint16_t => 2
  | int32_t | uint32_t => 4
  | int64_t | uint64_t => 8
  end.

Definition is_signed (t : ity) : bool :=
  match t with int8_t | int16_t | int32_t | int64_t => true | _ => false end.

Definition bits (t : ity) : Z := 8 * Z.of_nat (sizeof t).

(** [(T)z]: conversion to the type, modulo 2^bits. *)
Definition cast (t : ity) (z : Z) : Z :=
  if is_signed t then swrap (bits t) z else wrap (bits t) z.

Definition in_range (t : ity) (z : Z) : Prop :=
  if is_signed t then in_s (bits t) z else in_u (bits t) z.

Lemma bits_pos t : 0 < bits t.
Proof. by destruct t. Qed.

Lemma cast_id t z : in_range t z -> cast t z = z.
Proof.
  unfold in_range, cast. pose proof (bits_pos t).
  destruct (is_signed t); [by apply swrap_small|by apply wrap_small].
Qed.

Lemma cast_range t z : in_range t (cast t z).
Proof.
  unfold in_range, cast. pose proof (bits_pos t).
  destruct (is_signed t); [apply swrap_range|apply wrap_range]; lia.
Qed.

(** Going through the unsigned type of the same width loses nothing. *)
Lemma cast_wrap t z : cast t (wrap (bits t) z) = cast t z.
Proof.
  unfold cast. pose proof (bits_pos t).
  destruct (is_signed t); [by apply swrap_wrap|apply wrap_wrap; lia].
Qed.

(** ** Object representation *)

Fixpoint le_bytes (n : nat) (z : Z) : bytes :=
  match n with
  | O => []
  | S n => bz z :: le_bytes n (z / 256)
  end.

Fixpoint le_value (l : bytes) : Z :=
  match l with
  | [] => 0
  | b :: l => ub b + 256 * le_value l
  end.

Lemma le_bytes_length n z : length (le_bytes n z) = n.
Proof. revert z; induction n; intros z; cbn; [done|by rewrite IHn]. Qed.

Lemma pow256 n : 2 ^ (8 * Z.of_nat (S n)) = 256 * 2 ^ (8 * Z.of_nat n).
Proof.
  replace (8 * Z.of_nat (S n)) with (8 + 8 * Z.of_nat n) by lia.
  by rewrite Z.pow_add_r by lia.
Qed.

Lemma le_value_bytes n z : le_value (le_bytes n z) = z mod 2 ^ (8 * Z.of_nat n).
Proof.
  revert z; induction n as [|n IH]; intros z.
  { cbn. by rewrite Z.mod_1_r. }
  cbn [le_bytes le_value]. rewrite IH, ub_bz, pow256.
  symmetry. apply Z.rem_mul_r; [lia|]. apply Z.pow_pos_nonneg; lia.
Qed.

Lemma le_value_bound l : 0 <= le_value l < 2 ^ (8 * zlen l).
Proof.
  unfold zlen. induction l as [|b l IH]; [cbn; lia|].
  cbn [length le_value]. rewrite pow256. pose proof (ub_range b). lia.
Qed.

Lemma le_bytes_value l : le_bytes (length l) (le_value l) = l.
Proof.
  induction l as [|b l IH]; [done|]. cbn [length le_bytes le_value].
  pose proof (ub_range b).
  assert (Hd : (ub b + 256 * le_value l) / 256 = le_value l).
  { rewrite Z.mul_comm, Z_div_plus by lia. rewrite Z.div_small; lia. }
  rewrite Hd, IH. f_equal. apply ub_inj. rewrite ub_bz.
  rewrite Z.mul_comm, Z_mod_plus_full. apply Z.mod_small; lia.
Qed.

(** <byteswap.h>: [bswap_16], [bswap_32], [bswap_64] reverse the bytes. *)
Definition bswap (n : nat) (z : Z) : Z := le_value (rev (le_bytes n z)).

Lemma le_bytes_bswap n z : le_bytes n (bswap n z) = rev (le_bytes n z).
Proof.
  unfold bswap. rewrite <- (le_bytes_value (rev (le_bytes n z))) at 2.
  by rewrite length_rev, le_bytes_length.
Qed.

Lemma bswap_bswap n z : bswap n (bswap n z) = z mod 2 ^ (8 * Z.of_nat n).
Proof.
  unfold bswap at 1. by rewrite le_bytes_bswap, rev_involutive, le_value_bytes.
Qed.

(** Only the low bytes matter. *)
Lemma le_bytes_mod n z : le_bytes n (z mod 2 ^ (8 * Z.of_nat n)) = le_bytes n z.
Proof.
  rewrite <- le_value_bytes. rewrite <- (le_bytes_length n z) at 1.
  apply le_bytes_value.
Qed.

Lemma le_bytes_cast t z : le_bytes (sizeof t) (cast t z) = le_bytes (sizeof t) z.
Proof.
  rewrite <- le_bytes_mod, <- (le_bytes_mod _ z). f_equal.
  change (2 ^ (8 * Z.of_nat (sizeof t))) with (2 ^ bits t).
  change (wrap (bits t) (cast t z) = wrap (bits t) z).
  pose proof (bits_pos t). unfold cast.
  destruct (is_signed t); [by apply wrap_swrap|apply wrap_wrap; lia].
Qed.

(** ** The host and the templates *)

(** [BYTE_ORDER == BIG_ENDIAN] of the compilation target. *)
Class Host := host_big : bool.

Section endian.
Context {host : Host}.

Definition LINKO_LITTLE_ENDIAN : Z := 1.
Definition LINKO_BIG_ENDIAN : Z := 2.
Definition LINKO_BYTE_ORDER : Z :=
  if host_big then LINKO_BIG_ENDIAN else LINKO_LITTLE_ENDIAN.

(** The three templates, one per [sizeof(T)]; [T] of one byte matches none. *)
Definition byteswap (t : ity) (value : Z) : Z :=
  cast t (bswap (sizeof t) (wrap (bits t) value)).

Definition byteswapOnLittleEndian (t : ity) (v : Z) : Z :=
  if LINKO_BYTE_ORDER =? LINKO_BIG_ENDIAN then v else byteswap t v.
Definition byteswapOnBigEndian (t : ity) (v : Z) : Z :=
  if LINKO_BYTE_ORDER =? LINKO_BIG_ENDIAN then byteswap t v else v.

(** The bytes of an object of type [t] in the host's memory, and back. *)
Definition repr (t : ity) (v : Z) : bytes :=
  if host_big then rev (le_bytes (sizeof t) v) else le_bytes (sizeof t) v.
Definition unrepr (t : ity) (l : bytes) : Z :=
  cast t (le_value (if host_big then rev l else l)).

Lemma repr_length t v : length (repr t v) = sizeof t.
Proof. unfold repr. destruct host_big; rewrite ?length_rev; apply le_bytes_length. Qed.

Lemma unrepr_repr t v : in_range t v -> unrepr t (repr t v) = v.
Proof.
  intros H. unfold unrepr, repr.
  assert (E : cast t (le_value (le_bytes (sizeof t) v)) = v).
  { rewrite le_value_bytes. change (v mod _) with (wrap (bits t) v).
    rewrite cast_wrap. by apply cast_id. }
  destruct host_big; [by rewrite rev_involutive|done].
Qed.

Lemma byteswap_range t v : in_range t (byteswap t v).
Proof. apply cast_range. Qed.

Lemma repr_byteswap t v : repr t (byteswap t v) = rev (repr t v).
Proof.
  assert (E : le_bytes (sizeof t) (byteswap t v) = rev (le_bytes (sizeof t) v)).
  { unfold byteswap. rewrite le_bytes_cast, le_bytes_bswap.
    f_equal. unfold wrap, bits. apply le_bytes_mod. }
  unfold repr. rewrite E. by destruct host_big.
Qed.

(** Swapping twice is the identity on the type's values. *)
Lemma byteswap_byteswap t v : in_range t v -> byteswap t (byteswap t v) = v.
Proof.
  intros H. rewrite <- (unrepr_repr t (byteswap t (byteswap t v))) by apply byteswap_range.
  by rewrite !repr_byteswap, rev_involutive, unrepr_repr.
Qed.

(** Network order: the macro's converted value lies in memory most
    significant byte first, whatever the host. *)
Lemma repr_byteswapOnLittleEndian t v :
  repr t (byteswapOnLittleEndian t v) = rev (le_bytes (sizeof t) v).
Proof.
  unfold byteswapOnLittleEndian, LINKO_BYTE_ORDER.
  destruct (host_big) eqn:E; cbn.
  - unfold repr. by rewrite E.
  - rewrite repr_byteswap. unfold repr. by rewrite E.
Qed.
End endian.
