(* ===== verification/ByteArray.v ===== *)
(** linko/bytearray.cc: the byte buffer kept in a chain of equal blocks, with a
    cursor, fixed-width and variable-length integers, strings, files and the
    scatter/gather views.

    The chain [m_root -> ... -> nullptr] is the list [m_nodes] of its blocks in
    order; a [Node*] into it is the block's index and [nullptr] is [None].
    Blocks are only ever appended at the end or cut after the root, so indices
    stay valid as the pointers do. *)
From S2P Require Import Prelude Endian.

(** Contents of freshly allocated memory: any byte at each offset. *)
Class Uninit := uninit : Z -> byte.

Record Node := mkNode { n_ptr : bytes; n_size : Z }.

Record ByteArray := mkByteArray {
  m_baseSize : Z;
  m_position : Z;
  m_capacity : Z;
  m_size : Z;
  m_endian : Z;
  m_nodes : list Node;
  m_cur : option nat
}.

Definition set_position (v : Z) (s : ByteArray) : ByteArray :=
  mkByteArray (m_baseSize s) v (m_capacity s) (m_size s) (m_endian s) (m_nodes s) (m_cur s).
Definition set_capacity (v : Z) (s : ByteArray) : ByteArray :=
  mkByteArray (m_baseSize s) (m_position s) v (m_size s) (m_endian s) (m_nodes s) (m_cur s).
Definition set_size (v : Z) (s : ByteArray) : ByteArray :=
  mkByteArray (m_baseSize s) (m_position s) (m_capacity s) v (m_endian s) (m_nodes s) (m_cur s).
Definition set_endian (v : Z) (s : ByteArray) : ByteArray :=
  mkByteArray (m_baseSize s) (m_position s) (m_capacity s) (m_size s) v (m_nodes s) (m_cur s).
Definition set_nodes (v : list Node) (s : ByteArray) : ByteArray :=
  mkByteArray (m_baseSize s) (m_position s) (m_capacity s) (m_size s) (m_endian s) v (m_cur s).
Definition set_cur (v : option nat) (s : ByteArray) : ByteArray :=
  mkByteArray (m_baseSize s) (m_position s) (m_capacity s) (m_size s) (m_endian s) (m_nodes s) v.

(** struct iovec: the block, the offset of [iov_base] in it, and [iov_len]. *)
Record iovec := mkIovec { iov_node : nat; iov_off : Z; iov_len : Z }.

Section bytearray.
Context {host : Host} {un : Uninit}.

Definition Node_new (s : Z) : Node :=
  mkNode (map (fun i => uninit (Z.of_nat i)) (seq 0 (Z.to_nat s))) s.

Definition ByteArray_new (base_size : Z) : ByteArray :=
  mkByteArray base_size 0 base_size 0 LINKO_BIG_ENDIAN [Node_new base_size] (Some 0%nat).

Definition isLittleEndian (s : ByteArray) : bool := m_endian s =? LINKO_LITTLE_ENDIAN.
Definition setIsLittleEndian (val : bool) : M ByteArray unit :=
  modify (set_endian (if val then LINKO_LITTLE_ENDIAN else LINKO_BIG_ENDIAN)).

(** ** Pointers *)

(** [n->next]. *)
Definition next_of (s : ByteArray) (i : nat) : option nat :=
  if decide (S i < length (m_nodes s))%nat then Some (S i) else None.

(** [*n]. *)
Definition deref (n : option nat) : M ByteArray (nat * Node) := fun s =>
  match n with
  | None => Crash NullDeref
  | Some i => match m_nodes s !! i with
              | None => Crash NullDeref
              | Some nd => Ret (i, nd) s
              end
  end.

(** [memcpy(n->ptr + npos, xs, |xs|)]. *)
Definition memcpy_to (i : nat) (nd : Node) (npos : Z) (xs : bytes) : M ByteArray unit :=
  if npos + zlen xs <=? zlen (n_ptr nd)
  then modify (fun s => set_nodes (<[i := mkNode (overwrite npos xs (n_ptr nd)) (n_size nd)]> (m_nodes s)) s)
  else crash_with OutOfBounds.

(** [memcpy(_, n->ptr + npos, len)]. *)
Definition memcpy_from (nd : Node) (npos len : Z) : M ByteArray bytes :=
  if npos + len <=? zlen (n_ptr nd) then mret (slice npos len (n_ptr nd))
  else crash_with OutOfBounds.

(** [x % m_baseSize]. *)
Definition mod_base (x : Z) : M ByteArray Z := fun s =>
  if m_baseSize s =? 0 then Crash DivByZero else Ret (x mod m_baseSize s) s.

(** ** Capacity *)

Definition getReadSize (s : ByteArray) : Z := u64 (m_size s - m_position s).
Definition getCapacity (s : ByteArray) : Z := u64 (m_capacity s - m_position s).
Definition getPosition (s : ByteArray) : Z := m_position s.
Definition getBaseSize (s : ByteArray) : Z := m_baseSize s.
Definition getSize (s : ByteArray) : Z := m_size s.

Fixpoint add_nodes (count : nat) (s : ByteArray) : ByteArray :=
  match count with
  | O => s
  | S count =>
    add_nodes count
      (set_capacity (u64 (m_capacity s + m_baseSize s))
        (set_nodes (m_nodes s ++ [Node_new (m_baseSize s)]) s))
  end.

Definition addCapacity (size : Z) : M ByteArray unit :=
  if size =? 0 then mret tt else
  s ← get;
  let old_cap := getCapacity s in
  if size <=? old_cap then mret tt else
  let size := u64 (size - old_cap) in
  rem ← mod_base size;
  let count := size / m_baseSize s + (if 0 <? rem then 1 else 0) in
  let first := if 0 <? count then Some (length (m_nodes s)) else None in
  modify (add_nodes (Z.to_nat count));;
  when (old_cap =? 0) (modify (set_cur first)).

(** ** write, read, setPosition *)

(** The loop of [write]; [rest] is the unread part [buf + bpos] of the
    source, whose length is the loop's [size].  Every turn but the last moves
    to the next block, so [length m_nodes + 2] turns are enough. *)
Fixpoint write_loop (fuel : nat) (npos ncap : Z) (rest : bytes) : M ByteArray unit :=
  match fuel with
  | O => crash_with OutOfFuel
  | S fuel =>
    let size := zlen rest in
    if 0 <? size then
      s ← get;
      '(i, nd) ← deref (m_cur s);
      if size <=? ncap then
        memcpy_to i nd npos rest;;
        when (n_size nd =? u64 (npos + size)) (modify (set_cur (next_of s i)));;
        modify (fun s => set_position (u64 (m_position s + size)) s);;
        write_loop fuel npos ncap []
      else
        memcpy_to i nd npos (ztake ncap rest);;
        modify (fun s => set_position (u64 (m_position s + ncap)) s);;
        modify (set_cur (next_of s i));;
        '(_, nd') ← deref (next_of s i);
        write_loop fuel 0 (n_size nd') (zdrop ncap rest)
    else mret tt
  end.

Definition write (buf : bytes) : M ByteArray unit :=
  let size := zlen buf in
  if size =? 0 then mret tt else
  addCapacity size;;
  s ← get;
  npos ← mod_base (m_position s);
  '(_, nd) ← deref (m_cur s);
  let ncap := u64 (n_size nd - npos) in
  write_loop (length (m_nodes s) + 2) npos ncap buf;;
  modify (fun s => if m_size s <? m_position s then set_size (m_position s) s else s).

(** The loop of [read(buf, size)]: the result is what it copies to [buf]. *)
Fixpoint read_loop (fuel : nat) (npos ncap size : Z) : M ByteArray bytes :=
  match fuel with
  | O => crash_with OutOfFuel
  | S fuel =>
    if 0 <? size then
      s ← get;
      '(i, nd) ← deref (m_cur s);
      if size <=? ncap then
        xs ← memcpy_from nd npos size;
        when (n_size nd =? u64 (npos + size)) (modify (set_cur (next_of s i)));;
        modify (fun s => set_position (u64 (m_position s + ncap)) s);;
        ys ← read_loop fuel npos ncap 0;
        mret (xs ++ ys)
      else
        xs ← memcpy_from nd npos ncap;
        modify (fun s => set_position (u64 (m_position s + ncap)) s);;
        modify (set_cur (next_of s i));;
        '(_, nd') ← deref (next_of s i);
        ys ← read_loop fuel 0 (n_size nd') (size - ncap);
        mret (xs ++ ys)
    else mret []
  end.

Definition read (size : Z) : M ByteArray bytes :=
  s ← get;
  if getReadSize s <? size then throw (out_of_range "not enough len") else
  npos ← mod_base (m_position s);
  '(_, nd) ← deref (m_cur s);
  let ncap := u64 (n_size nd - npos) in
  read_loop (length (m_nodes s) + 2) npos ncap size.

(** [read(buf, size, position) const]: the cursor is the local [cur]. *)
Fixpoint read_at_loop (fuel : nat) (cur : option nat) (npos ncap size : Z) : M ByteArray bytes :=
  match fuel with
  | O => crash_with OutOfFuel
  | S fuel =>
    if 0 <? size then
      s ← get;
      '(i, nd) ← deref cur;
      if size <=? ncap then
        xs ← memcpy_from nd npos size;
        let cur := if n_size nd =? u64 (npos + size) then next_of s i else cur in
        ys ← read_at_loop fuel cur npos ncap 0;
        mret (xs ++ ys)
      else
        xs ← memcpy_from nd npos ncap;
        '(_, nd') ← deref (next_of s i);
        ys ← read_at_loop fuel (next_of s i) 0 (n_size nd') (size - ncap);
        mret (xs ++ ys)
    else mret []
  end.

Definition read_at (size position : Z) : M ByteArray bytes :=
  s ← get;
  if getReadSize s <? size then throw (out_of_range "not enough len") else
  npos ← mod_base position;
  '(_, nd) ← deref (m_cur s);
  let ncap := u64 (n_size nd - npos) in
  read_at_loop (length (m_nodes s) + 2) (m_cur s) npos ncap size.

Fixpoint setPosition_loop (fuel : nat) (v : Z) : M ByteArray Z :=
  match fuel with
  | O => crash_with OutOfFuel
  | S fuel =>
    s ← get;
    '(i, nd) ← deref (m_cur s);
    if n_size nd <? v then
      modify (set_cur (next_of s i));;
      setPosition_loop fuel (u64 (v - n_size nd))
    else mret v
  end.

Definition setPosition (v : Z) : M ByteArray unit :=
  s ← get;
  if m_capacity s <? v then throw (out_of_range "set_position out of range") else
  modify (set_position v);;
  modify (fun s => if m_size s <? m_position s then set_size (m_position s) s else s);;
  modify (set_cur (Some 0%nat));;
  v ← setPosition_loop (length (m_nodes s) + 1) v;
  s ← get;
  '(i, nd) ← deref (m_cur s);
  when (v =? n_size nd) (modify (set_cur (next_of s i))).

(** Every block after the root is deleted. *)
Definition clear : M ByteArray unit :=
  modify (fun s => set_size 0 (set_position 0 s));;
  modify (fun s => set_capacity (m_baseSize s) s);;
  s ← get;
  '(i, nd) ← deref (Some 0%nat);
  modify (set_cur (Some 0%nat));;
  modify (set_nodes [nd]).

(** ** Fixed-width integers *)

(** The body shared by the writers of two bytes and more. *)
Definition writeF (t : ity) (value : Z) : M ByteArray unit :=
  s ← get;
  let value := if negb (m_endian s =? LINKO_BYTE_ORDER) then byteswap t value else value in
  write (repr t value).

Definition writeFint8 (value : Z) : M ByteArray unit := write (repr int8_t value).
Definition writeFuint8 (value : Z) : M ByteArray unit := write (repr uint8_t value).
Definition writeFint16 : Z -> M ByteArray unit := writeF int16_t.
Definition writeFuint16 : Z -> M ByteArray unit := writeF uint16_t.
Definition writeFint32 : Z -> M ByteArray unit := writeF int32_t.
Definition writeFuint32 : Z -> M ByteArray unit := writeF uint32_t.
Definition writeFint64 : Z -> M ByteArray unit := writeF int64_t.
Definition writeFuint64 : Z -> M ByteArray unit := writeF uint64_t.

Definition readFint8 : M ByteArray Z := l ← read 1; mret (unrepr int8_t l).
Definition readFuint8 : M ByteArray Z := l ← read 1; mret (unrepr uint8_t l).

(** The macro [XX(type)]. *)
Definition readF (t : ity) : M ByteArray Z :=
  l ← read (Z.of_nat (sizeof t));
  s ← get;
  let v := unrepr t l in
  mret (if m_endian s =? LINKO_BYTE_ORDER then v else byteswap t v).

Definition readFint16 : M ByteArray Z := readF int16_t.
Definition readFuint16 : M ByteArray Z := readF uint16_t.
Definition readFint32 : M ByteArray Z := readF int32_t.
Definition readFuint32 : M ByteArray Z := readF uint32_t.
Definition readFint64 : M ByteArray Z := readF int64_t.
Definition readFuint64 : M ByteArray Z := readF uint64_t.

(** ** Variable-length integers *)

(** The loop filling [tmp]: [room] is what is left of the array, and the
    final store [tmp[i++] = value] needs a slot of its own. *)
Fixpoint varint_bytes (room : nat) (value : Z) : option bytes :=
  match room with
  | O => None
  | S room =>
    if 0x80 <=? value
    then cons (bz (Z.lor (Z.land value 0x7F) 0x80)) <$> varint_bytes room (Z.shiftr value 7)
    else Some [bz value]
  end.

Definition write_varint (room : nat) (value : Z) : M ByteArray unit :=
  match varint_bytes room value with
  | Some tmp => write tmp
  | None => crash_with OutOfBounds
  end.

(** [uint8_t tmp[5]] and [uint8_t tmp[10]]. *)
Definition writeUint32 (value : Z) : M ByteArray unit := write_varint 5 value.
Definition writeUint64 (value : Z) : M ByteArray unit := write_varint 10 value.

(** gcc's shifts of signed values: [<<] wraps and [>>] is arithmetic. *)
Definition EncodeZigzag32 (v : Z) : Z := u32 (Z.lxor (i32 (Z.shiftl v 1)) (Z.shiftr v 31)).
Definition EncodeZigzag64 (v : Z) : Z := u64 (Z.lxor (i64 (Z.shiftl v 1)) (Z.shiftr v 31)).
Definition DecodeZigzag32 (v : Z) : Z := i32 (Z.lxor (Z.shiftr v 1) (u32 (- Z.land v 1))).
Definition DecodeZigzag64 (v : Z) : Z := i64 (Z.lxor (Z.shiftr v 1) (u64 (- Z.land v 1))).

Definition writeInt32 (value : Z) : M ByteArray unit := writeUint32 (EncodeZigzag32 value).
Definition writeInt64 (value : Z) : M ByteArray unit := writeUint64 (EncodeZigzag64 value).

(** [for (int i = 0; i < w; i += 7)], at [w] = 32 and 64; the fuel is the
    number of turns the bound [w] allows, and one more test. *)
Fixpoint read_varint (w : Z) (fuel : nat) (i result : Z) : M ByteArray Z :=
  match fuel with
  | O => crash_with OutOfFuel
  | S fuel =>
    if i <? w then
      b ← readFuint8;
      if b <? 0x80 then mret (Z.lor result (wrap w (Z.shiftl b i)))
      else read_varint w fuel (i + 7) (Z.lor result (wrap w (Z.shiftl (Z.land b 0x7F) i)))
    else mret result
  end.

Definition readUint32 : M ByteArray Z := read_varint 32 6 0 0.
Definition readUint64 : M ByteArray Z := read_varint 64 11 0 0.
Definition readInt32 : M ByteArray Z := v ← readUint32; mret (DecodeZigzag32 v).
Definition readInt64 : M ByteArray Z := v ← readUint64; mret (DecodeZigzag64 v).

(** A [float] or [double] is its object representation, as the code copies
    it to and from an unsigned integer of the same size. *)
Definition writeFloat (value : Z) : M ByteArray unit := writeFuint32 value.
Definition writeDouble (value : Z) : M ByteArray unit := writeFuint64 value.
Definition readFloat : M ByteArray Z := readUint32.
Definition readDouble : M ByteArray Z := readUint64.

(** ** Strings *)

Definition writeStringF16 (value : bytes) : M ByteArray unit :=
  writeFint16 (cast int16_t (zlen value));; write value.
Definition writeStringF32 (value : bytes) : M ByteArray unit :=
  writeFint32 (cast int32_t (zlen value));; write value.
Definition writeStringF64 (value : bytes) : M ByteArray unit :=
  writeFint64 (cast int64_t (zlen value));; write value.
Definition writeStringVint (value : bytes) : M ByteArray unit :=
  writeFint64 (cast int64_t (zlen value));; write value.
Definition writeStringWithoutLength (value : bytes) : M ByteArray unit := write value.

Definition readStringF16 : M ByteArray bytes := len ← readFuint16; read len.
Definition readStringF32 : M ByteArray bytes := len ← readFuint32; read len.
Definition readStringF64 : M ByteArray bytes := len ← readFuint64; read len.
Definition readStringFVint : M ByteArray bytes := len ← readUint64; read len.

(** ** Files and text *)

(** The loop of [writeToFile]: the result is what goes to the stream. *)
Fixpoint writeToFile_loop (fuel : nat) (cur : option nat) (pos read_size : Z) : M ByteArray bytes :=
  match fuel with
  | O => crash_with OutOfFuel
  | S fuel =>
    if 0 <? read_size then
      s ← get;
      diff ← mod_base (u64 pos);
      let diff := i32 diff in
      let len := if i64 (m_baseSize s) <? read_size + diff
                 then i64 (m_baseSize s - diff) else read_size in
      '(i, nd) ← deref cur;
      xs ← memcpy_from nd diff len;
      let cur := if len + diff =? i64 (m_baseSize s) then next_of s i else cur in
      ys ← writeToFile_loop fuel cur (pos + len) (read_size - len);
      mret (xs ++ ys)
    else mret []
  end.

(** [opened]: whether the output stream opened; the result is its contents. *)
Definition writeToFile (opened : bool) : M ByteArray (option bytes) :=
  if opened then
    s ← get;
    xs ← writeToFile_loop (length (m_nodes s) + 2) (m_cur s)
           (i64 (m_position s)) (i64 (getReadSize s));
    mret (Some xs)
  else mret None.

(** [while (!ifs.eof())]: a read shorter than the buffer sets end-of-file. *)
Fixpoint readFromFile_loop (fuel : nat) (file : bytes) : M ByteArray unit :=
  match fuel with
  | O => crash_with OutOfFuel
  | S fuel =>
    s ← get;
    let buff := ztake (m_baseSize s) file in
    write buff;;
    if zlen buff <? m_baseSize s then mret tt
    else readFromFile_loop fuel (zdrop (m_baseSize s) file)
  end.

(** [file]: the contents of the named file, [None] when it does not open. *)
Definition readFromFile (file : option bytes) : M ByteArray bool :=
  match file with
  | None => mret false
  | Some file => readFromFile_loop (length file + 1) file;; mret true
  end.

Definition toString : M ByteArray bytes :=
  s ← get;
  if getReadSize s =? 0 then mret [] else read_at (getReadSize s) (m_position s).

Definition hex_digit (z : Z) : byte := bz (if z <? 10 then 48 + z else 87 + z).

(** One character of [toHexString]: a line break every 32, two hex digits
    and a space. *)
Fixpoint hex_dump (i : Z) (str : bytes) : bytes :=
  match str with
  | [] => []
  | c :: str =>
    (if (0 <? i) && (i mod 32 =? 0) then [bz 10] else [])
      ++ [hex_digit (ub c / 16); hex_digit (ub c mod 16); bz 32] ++ hex_dump (i + 1) str
  end.

Definition toHexString : M ByteArray bytes := str ← toString; mret (hex_dump 0 str).

(** ** Scatter/gather views *)

(** The loop of both [getReadBuffers]: [cur] is not advanced in it. *)
Fixpoint getReadBuffers_loop (fuel : nat) (cur : option nat) (npos ncap len : Z)
    (buffers : list iovec) : M ByteArray (list iovec) :=
  match fuel with
  | O => crash_with OutOfFuel
  | S fuel =>
    if 0 <? len then
      '(i, nd) ← deref cur;
      if len <=? ncap
      then getReadBuffers_loop fuel cur npos ncap 0 (buffers ++ [mkIovec i npos len])
      else getReadBuffers_loop fuel cur 0 (n_size nd) (len - ncap)
             (buffers ++ [mkIovec i npos ncap])
    else mret buffers
  end.

Definition getReadBuffers (buffers : list iovec) (len : Z) : M ByteArray (Z * list iovec) :=
  s ← get;
  let len := if getReadSize s <? len then getReadSize s else len in
  if len =? 0 then mret (0, buffers) else
  npos ← mod_base (m_position s);
  '(_, nd) ← deref (m_cur s);
  let ncap := u64 (n_size nd - npos) in
  buffers ← getReadBuffers_loop (Z.to_nat len + 1) (m_cur s) npos ncap len buffers;
  mret (len, buffers).

Fixpoint advance (count : nat) (cur : option nat) : M ByteArray (option nat) :=
  match count with
  | O => mret cur
  | S count => s ← get; '(i, _) ← deref cur; advance count (next_of s i)
  end.

Definition getReadBuffers_at (buffers : list iovec) (len position : Z)
    : M ByteArray (Z * list iovec) :=
  s ← get;
  let len := if getReadSize s <? len then getReadSize s else len in
  if len =? 0 then mret (0, buffers) else
  npos ← mod_base position;
  cur ← advance (Z.to_nat (position / m_baseSize s)) (Some 0%nat);
  '(_, nd) ← deref cur;
  let ncap := u64 (n_size nd - npos) in
  buffers ← getReadBuffers_loop (Z.to_nat len + 1) cur npos ncap len buffers;
  mret (len, buffers).

Fixpoint getWriteBuffers_loop (fuel : nat) (cur : option nat) (npos ncap len : Z)
    (buffers : list iovec) : M ByteArray (list iovec) :=
  match fuel with
  | O => crash_with OutOfFuel
  | S fuel =>
    if 0 <? len then
      s ← get;
      '(i, nd) ← deref cur;
      if len <=? ncap
      then getWriteBuffers_loop fuel cur npos ncap 0 (buffers ++ [mkIovec i npos len])
      else
        '(_, nd') ← deref (next_of s i);
        getWriteBuffers_loop fuel (next_of s i) 0 (n_size nd') (len - ncap)
          (buffers ++ [mkIovec i npos ncap])
    else mret buffers
  end.

Definition getWriteBuffers (buffers : list iovec) (len : Z) : M ByteArray (Z * list iovec) :=
  if len =? 0 then mret (0, buffers) else
  addCapacity len;;
  s ← get;
  npos ← mod_base (m_position s);
  '(_, nd) ← deref (m_cur s);
  let ncap := u64 (n_size nd - npos) in
  buffers ← getWriteBuffers_loop (length (m_nodes s) + 2) (m_cur s) npos ncap len buffers;
  mret (len, buffers).
End bytearray.

(** A little-endian host, as the library is built for, and zeroed memory:
    the instances the concrete examples run on. *)
Definition x86 : Host := false.
Definition zeroed : Uninit := fun _ => bz 0.
