(* ===== verification/ByteArraySpec.v ===== *)
(** Well-formedness and functional correctness of the operations of
    ByteArray.v: the block chain refines one flat byte string with a cursor. *)
From S2P Require Import Prelude Endian ByteArray.

(** The bytes of all blocks in order: [m_capacity] of them. *)
Definition contents (s : ByteArray) : bytes := concat (map n_ptr (m_nodes s)).

(** Where [m_cur] has to point for a position. *)
Definition cursor (s : ByteArray) (p : Z) : option nat :=
  let i := Z.to_nat (p / m_baseSize s) in
  if decide (i < length (m_nodes s))%nat then Some i else None.

Definition node_ok (b : Z) (n : Node) : Prop := n_size n = b /\ zlen (n_ptr n) = b.

(** The block chain: non-empty, of blocks of [m_baseSize] bytes. *)
Record shape (s : ByteArray) : Prop := {
  shape_base : 0 < m_baseSize s;
  shape_nodes : Forall (node_ok (m_baseSize s)) (m_nodes s);
  shape_ne : m_nodes s <> [];
  shape_cap : m_capacity s = m_baseSize s * zlen (m_nodes s);
  shape_fit : m_capacity s < 2 ^ 64
}.

Record wf (s : ByteArray) : Prop := {
  wf_shape :> shape s;
  wf_pos : 0 <= m_position s <= m_size s;
  wf_size : m_size s <= m_capacity s;
  wf_endian : m_endian s = LINKO_LITTLE_ENDIAN \/ m_endian s = LINKO_BIG_ENDIAN;
  wf_cur : m_cur s = cursor s (m_position s)
}.

(** [s'] has the same blocks, sizes and order as [s], with the position,
    cursor and contents given. *)
Record moved (s s' : ByteArray) (p : Z) (c : bytes) : Prop := {
  mv_shape : shape s';
  mv_base : m_baseSize s' = m_baseSize s;
  mv_cap : m_capacity s' = m_capacity s;
  mv_size : m_size s' = m_size s;
  mv_endian : m_endian s' = m_endian s;
  mv_len : length (m_nodes s') = length (m_nodes s);
  mv_pos : m_position s' = p;
  mv_cur : m_cur s' = cursor s' p;
  mv_contents : contents s' = c
}.

(** ** Arithmetic of blocks *)

Lemma div_block b i r : 0 < b -> 0 <= r < b -> (b * i + r) / b = i.
Proof. intros. rewrite Z.mul_comm, Z.div_add_l, Z.div_small; lia. Qed.

Lemma block_eq b p : 0 < b -> p = b * (p / b) + p mod b.
Proof. intros. apply Z.div_mod. lia. Qed.

Lemma block_lt b n p : 0 < b -> 0 <= p -> p < b * n <-> p / b < n.
Proof.
  intros. split; intros.
  - apply Z.div_lt_upper_bound; lia.
  - pose proof (block_eq b p). pose proof (Z.mod_pos_bound p b). nia.
Qed.

Lemma cursor_some s p : 0 < m_baseSize s -> 0 <= p -> p < m_baseSize s * zlen (m_nodes s) ->
  cursor s p = Some (Z.to_nat (p / m_baseSize s)).
Proof.
  intros Hb Hp Hlt. unfold cursor. rewrite decide_True; [done|].
  apply block_lt in Hlt; [|lia..]. unfold zlen in *.
  pose proof (Z.div_pos p (m_baseSize s)). lia.
Qed.

Lemma cursor_end s p : 0 < m_baseSize s -> m_baseSize s * zlen (m_nodes s) <= p ->
  cursor s p = None.
Proof.
  intros Hb Hp. unfold cursor. rewrite decide_False; [done|].
  unfold zlen in *. assert (Z.of_nat (length (m_nodes s)) <= p / m_baseSize s).
  { apply Z.div_le_lower_bound; lia. }
  lia.
Qed.

Lemma cursor_ext s s' p : m_baseSize s' = m_baseSize s ->
  length (m_nodes s') = length (m_nodes s) -> cursor s' p = cursor s p.
Proof. intros E1 E2. unfold cursor. by rewrite E1, E2. Qed.

(** The block after block [i] is where the cursor goes for its first byte. *)
Lemma next_of_cursor s i : 0 < m_baseSize s ->
  next_of s i = cursor s (m_baseSize s * Z.of_nat (S i)).
Proof.
  intros Hb. unfold next_of, cursor. rewrite Z.mul_comm, Z.div_mul by lia.
  by rewrite Nat2Z.id.
Qed.

Lemma cursor_in s i r : (i < length (m_nodes s))%nat -> 0 <= r < m_baseSize s ->
  cursor s (m_baseSize s * Z.of_nat i + r) = Some i.
Proof.
  intros Hi Hr. rewrite cursor_some.
  - rewrite div_block, Nat2Z.id by lia. done.
  - lia.
  - nia.
  - assert (Z.of_nat i + 1 <= zlen (m_nodes s)) by (unfold zlen; lia). nia.
Qed.

Lemma next_of_some s i : (S i < length (m_nodes s))%nat -> next_of s i = Some (S i).
Proof. intros. unfold next_of. by rewrite decide_True. Qed.

(** After moving [k] bytes inside block [i]: stay, or step past its end. *)
Lemma cursor_step s i r : (i < length (m_nodes s))%nat -> 0 <= r <= m_baseSize s ->
  0 < m_baseSize s ->
  cursor s (m_baseSize s * Z.of_nat i + r)
    = if m_baseSize s =? r then next_of s i else Some i.
Proof.
  intros Hi Hr Hb. case_cmp.
  - rewrite next_of_cursor by done. f_equal. rewrite Nat2Z.inj_succ. nia.
  - apply cursor_in; [done|lia].
Qed.

(** ** Contents block by block *)

Lemma concat_zlen b (l : list Node) :
  Forall (node_ok b) l -> zlen (concat (map n_ptr l)) = b * zlen l.
Proof.
  induction 1 as [|n l [_ Hn] _ IH]; [cbn [map concat]; unfold zlen; cbn [length]; lia|].
  cbn [map concat]. rewrite zlen_app, zlen_cons, IH, Hn. lia.
Qed.

Lemma contents_zlen s : shape s -> zlen (contents s) = m_capacity s.
Proof. intros []. unfold contents. erewrite concat_zlen; eauto. Qed.

Lemma contents_split s i nd :
  shape s -> m_nodes s !! i = Some nd ->
  exists l1 l3, contents s = l1 ++ n_ptr nd ++ l3
    /\ zlen l1 = m_baseSize s * Z.of_nat i
    /\ forall nd', contents (set_nodes (<[i := nd']> (m_nodes s)) s) = l1 ++ n_ptr nd' ++ l3.
Proof.
  intros H Hi. set (l := m_nodes s) in *.
  exists (concat (map n_ptr (take i l))), (concat (map n_ptr (drop (S i) l))).
  assert (Hlen : (i < length l)%nat) by (by eapply lookup_lt_Some).
  split; [|split].
  - unfold contents. fold l. rewrite <- (take_drop_middle l i nd) at 1 by done.
    by rewrite map_app, concat_app.
  - rewrite (concat_zlen (m_baseSize s)) by (apply Forall_take, H).
    unfold zlen. rewrite length_take, Nat.min_l by lia. done.
  - intros nd'. unfold contents. cbn [m_nodes set_nodes].
    rewrite insert_take_drop by done. by rewrite map_app, concat_app.
Qed.

Lemma shape_set_node s i nd :
  shape s -> node_ok (m_baseSize s) nd -> shape (set_nodes (<[i := nd]> (m_nodes s)) s).
Proof.
  intros [] Hnd. split; cbn; try done.
  - by apply Forall_insert.
  - intros E. apply (f_equal length) in E. rewrite length_insert in E.
    by destruct (m_nodes s).
  - unfold zlen. by rewrite length_insert.
Qed.

(** ** Running the primitive steps *)

Section specs.
Context {host : Host} {un : Uninit}.

Lemma deref_at s i nd : m_nodes s !! i = Some nd -> deref (Some i) s = Ret (i, nd) s.
Proof. intros H. cbn. by rewrite H. Qed.

(** The block under a position inside the chain. *)
Lemma node_at s p : shape s -> 0 <= p < m_capacity s ->
  exists nd, m_nodes s !! Z.to_nat (p / m_baseSize s) = Some nd /\ node_ok (m_baseSize s) nd.
Proof.
  intros H Hp. pose proof (shape_base s H). rewrite (shape_cap s H) in Hp.
  destruct (lookup_lt_is_Some_2 (m_nodes s) (Z.to_nat (p / m_baseSize s))) as [nd E].
  { destruct Hp as [? Hp]. apply block_lt in Hp; [|lia..]. unfold zlen in Hp.
    pose proof (Z.div_pos p (m_baseSize s)). lia. }
  exists nd. split; [done|]. eapply Forall_lookup_1; [apply H|done].
Qed.

Lemma deref_cur s : wf s -> m_position s < m_capacity s ->
  exists nd, m_nodes s !! Z.to_nat (m_position s / m_baseSize s) = Some nd
    /\ node_ok (m_baseSize s) nd
    /\ deref (m_cur s) s = Ret (Z.to_nat (m_position s / m_baseSize s), nd) s.
Proof.
  intros H Hlt. destruct (node_at s (m_position s)) as (nd & E & Hok); [apply H| |].
  { pose proof (wf_pos s H). pose proof (wf_size s H). lia. }
  exists nd. split_and!; [done..|]. rewrite (wf_cur s H), cursor_some.
  - by apply deref_at.
  - apply H.
  - apply (wf_pos s H).
  - rewrite <- (shape_cap s H). done.
Qed.

Lemma mod_base_run s x : 0 < m_baseSize s -> mod_base x s = Ret (x mod m_baseSize s) s.
Proof. intros. unfold mod_base. case_cmp; [lia|done]. Qed.

(** ** addCapacity *)

Lemma Node_new_ok b : 0 <= b -> node_ok b (Node_new b).
Proof.
  intros. split; [done|]. unfold zlen, Node_new; cbn.
  rewrite length_map, length_seq. lia.
Qed.

Lemma add_nodes_spec n s : shape s ->
  m_capacity s + Z.of_nat n * m_baseSize s < 2 ^ 64 ->
  exists junk, let s' := add_nodes n s in
    shape s' /\ m_baseSize s' = m_baseSize s /\ m_position s' = m_position s
    /\ m_size s' = m_size s /\ m_endian s' = m_endian s /\ m_cur s' = m_cur s
    /\ m_capacity s' = m_capacity s + Z.of_nat n * m_baseSize s
    /\ length (m_nodes s') = (length (m_nodes s) + n)%nat
    /\ contents s' = contents s ++ junk.
Proof.
  revert s. induction n as [|n IH]; intros s H Hfit.
  { exists []. cbn. rewrite app_nil_r. split_and!; done || lia. }
  cbn [add_nodes]. pose proof (shape_base s H).
  rewrite Nat2Z.inj_succ, Z.mul_succ_l in *.
  set (s1 := set_capacity _ _).
  assert (Hcap : m_capacity s1 = m_capacity s + m_baseSize s).
  { cbn. apply wrap_small. pose proof (shape_cap s H).
    pose proof (zlen_nonneg (m_nodes s)).
    assert (0 <= m_capacity s) by nia.
    assert (0 <= Z.of_nat n * m_baseSize s) by nia. unfold in_u. lia. }
  assert (Hs1 : shape s1).
  { destruct H as [? ? ? Hc ?]. split; try done.
    - cbn. apply Forall_app. split; [done|]. constructor; [|done]. apply Node_new_ok. lia.
    - cbn. by destruct (m_nodes s).
    - rewrite Hcap, Hc. cbn. rewrite zlen_app, zlen_cons, zlen_nil. lia.
    - lia. }
  destruct (IH s1 Hs1) as (junk & ? & ? & ? & ? & ? & ? & Hc & Hl & Hx).
  { rewrite Hcap. cbn [s1 m_baseSize set_capacity set_nodes]. lia. }
  exists (n_ptr (Node_new (m_baseSize s)) ++ junk). cbn zeta.
  split_and!; try done.
  - rewrite Hc, Hcap. cbn [s1 m_baseSize set_capacity set_nodes]. lia.
  - rewrite Hl. cbn. rewrite length_app. cbn. lia.
  - rewrite Hx. unfold contents, s1. cbn [m_nodes set_capacity set_nodes].
    rewrite map_app, concat_app. cbn [map concat]. by rewrite app_nil_r, <- app_assoc.
Qed.

Lemma getCapacity_val s : wf s -> getCapacity s = m_capacity s - m_position s.
Proof.
  intros H. apply wrap_small. pose proof (wf_pos s H). pose proof (wf_size s H). pose proof (shape_fit s H).
  unfold in_u. lia.
Qed.

Lemma ceil_blocks b x : 0 < b -> 0 < x ->
  let n := x / b + (if 0 <? x mod b then 1 else 0) in 0 < n /\ x <= n * b < x + b.
Proof.
  intros Hb Hx n. pose proof (block_eq b x Hb). pose proof (Z.mod_pos_bound x b Hb).
  pose proof (Z.div_pos x b). subst n. case_cmp; nia.
Qed.

(** What [addCapacity] leaves behind: room for [size] more bytes. *)
Lemma addCapacity_spec s size :
  wf s -> 0 < size -> m_position s + size + m_baseSize s < 2 ^ 64 ->
  exists s' junk, addCapacity size s = Ret tt s' /\ wf s'
    /\ m_baseSize s' = m_baseSize s /\ m_position s' = m_position s
    /\ m_size s' = m_size s /\ m_endian s' = m_endian s
    /\ contents s' = contents s ++ junk
    /\ m_position s + size <= m_capacity s'.
Proof.
  intros H Hsz Hfit. pose proof (wf_pos s H) as Hpos. pose proof (wf_size s H) as Hsize.
  pose proof (shape_base s H) as Hb. unfold addCapacity. case_cmp; [lia|]. mstep.
  rewrite getCapacity_val by done.
  destruct (Z.leb_spec size (m_capacity s - m_position s)).
  { exists s, []. rewrite app_nil_r. split_and!; done || lia. }
  set (x := size - (m_capacity s - m_position s)).
  assert (Hx : u64 x = x) by (apply wrap_small; unfold in_u, x; lia).
  rewrite Hx. step_with (mod_base_run s x Hb).
  destruct (ceil_blocks (m_baseSize s) x) as [Hn Hbd]; [lia..|].
  set (k := x / m_baseSize s + _) in *.
  assert (Ek : (0 <? k) = true) by (apply Z.ltb_lt; lia).
  rewrite Ek. mstep.
  destruct (add_nodes_spec (Z.to_nat k) s) as (junk & A).
  { apply H. } { unfold x in *. lia. }
  cbn zeta in A. set (s1 := add_nodes (Z.to_nat k) s) in *.
  destruct A as (A1 & A2 & A3 & A4 & A5 & A6 & A7 & A8 & A9).
  rewrite Z2Nat.id in A7 by lia.
  case_cmp.
  - exists (set_cur (Some (length (m_nodes s))) s1), junk.
    split_and!; [done| |done..|].
    + split; cbn.
      * destruct A1; by split.
      * rewrite A3, A4. lia.
      * rewrite A4, A7. nia.
      * rewrite A5. apply H.
      * rewrite A3. unfold cursor; cbn. rewrite A2.
        replace (m_position s) with (m_baseSize s * zlen (m_nodes s))
          by (pose proof (shape_cap s H); lia).
        rewrite Z.mul_comm, Z.div_mul by lia. unfold zlen. rewrite Nat2Z.id, A8.
        rewrite decide_True by lia. done.
    + cbn. rewrite A7. unfold x in *. lia.
  - exists s1, junk. split_and!; try done.
    + split; [done|rewrite A3, A4; lia|rewrite A4, A7; nia|rewrite A5; apply H|].
      rewrite A6, A3, (wf_cur s H), !cursor_some; try done || lia; try by rewrite A2.
      * rewrite A2. unfold zlen. rewrite A8.
        pose proof (shape_cap s H) as Hc. unfold zlen in Hc. nia.
      * pose proof (shape_cap s H). lia.
    + rewrite A7. unfold x in *. lia.
Qed.

(** ** memcpy and the loop of [write] *)

Lemma memcpy_to_spec s i nd npos xs :
  shape s -> m_nodes s !! i = Some nd -> node_ok (m_baseSize s) nd ->
  0 <= npos -> npos + zlen xs <= m_baseSize s ->
  let s1 := set_nodes (<[i := mkNode (overwrite npos xs (n_ptr nd)) (n_size nd)]> (m_nodes s)) s in
  memcpy_to i nd npos xs s = Ret tt s1 /\ shape s1
  /\ contents s1 = overwrite (m_baseSize s * Z.of_nat i + npos) xs (contents s).
Proof.
  intros H Hi [Hsz Hlen] Hn Hfit s1. split_and!.
  - unfold memcpy_to. rewrite Hlen. case_cmp; [done|lia].
  - apply shape_set_node; [done|]. split; [done|]. cbn.
    rewrite overwrite_zlen; lia.
  - destruct (contents_split s i nd H Hi) as (l1 & l3 & E1 & E2 & E3).
    unfold s1. rewrite E3, E1, <- E2. cbn. symmetry. apply overwrite_middle; lia.
Qed.

(** A position of the chain: block [i], offset [npos]. *)
Record at_block (s : ByteArray) (i : nat) (npos : Z) : Prop := {
  ab_shape : shape s;
  ab_cur : m_cur s = Some i;
  ab_lt : (i < length (m_nodes s))%nat;
  ab_npos : 0 <= npos < m_baseSize s;
  ab_pos : m_position s = m_baseSize s * Z.of_nat i + npos
}.

Lemma at_block_node s i npos : at_block s i npos ->
  exists nd, m_nodes s !! i = Some nd /\ node_ok (m_baseSize s) nd
    /\ deref (m_cur s) s = Ret (i, nd) s.
Proof.
  intros [H Hc Hi _ _]. destruct (lookup_lt_is_Some_2 _ _ Hi) as [nd Hnd].
  exists nd. split_and!; [done| |by rewrite Hc; apply deref_at].
  eapply Forall_lookup_1; [apply H|done].
Qed.

(** Room after the block's end means there is a next block. *)
Lemma at_block_next s i npos n : at_block s i npos ->
  m_baseSize s - npos < n -> m_position s + n <= m_capacity s ->
  next_of s i = Some (S i) /\ (S i < length (m_nodes s))%nat.
Proof.
  intros [H Hc Hi Hn Hp] Hgt Hcap. pose proof (shape_cap s H) as Hcp.
  assert ((S i < length (m_nodes s))%nat) by (unfold zlen in *; nia).
  split; [by apply next_of_some|done].
Qed.

(** The last turn: everything left fits in the block. *)
Lemma write_loop_last fuel s i npos rest :
  at_block s i npos -> 0 < zlen rest -> npos + zlen rest <= m_baseSize s ->
  exists s', write_loop (S (S fuel)) npos (m_baseSize s - npos) rest s = Ret tt s'
    /\ moved s s' (m_position s + zlen rest) (overwrite (m_position s) rest (contents s)).
Proof.
  intros Ha Hr Hle. destruct (at_block_node s i npos Ha) as (nd & Hnd & Hok & Hd).
  destruct Ha as [H Hc Hi Hn Hp]. pose proof (shape_fit s H) as Hfit.
  assert (Hi' : Z.of_nat i + 1 <= zlen (m_nodes s)) by (unfold zlen; lia).
  pose proof (shape_cap s H) as Hcp.
  destruct (memcpy_to_spec s i nd npos rest) as (E & Hs1 & Hx); [done..|lia|lia|].
  set (s1 := set_nodes _ s) in *.
  set (c := if m_baseSize s =? npos + zlen rest then next_of s i else Some i).
  exists (set_position (u64 (m_position s + zlen rest)) (set_cur c s1)). split.
  - cbn [write_loop]. rewrite (proj2 (Z.ltb_lt _ _) Hr). mstep. step_with Hd. cbv beta iota.
    rewrite (proj2 (Z.leb_le _ _)) by lia. step_with E.
    rewrite (wrap_small 64 (npos + zlen rest)) by (unfold in_u; nia).
    destruct Hok as [-> _]. unfold c. case_cmp; [done|].
    assert (set_cur (Some i) s1 = s1) as -> by (unfold s1, set_cur; cbn; by rewrite <- Hc).
    done.
  - assert (Hp' : u64 (m_position s + zlen rest) = m_position s + zlen rest)
      by (apply wrap_small; unfold in_u; nia).
    rewrite Hp'. split; try done.
    + destruct Hs1. by split.
    + cbn. by rewrite length_insert.
    + cbn. unfold c. rewrite <- cursor_step by (done || lia || apply H).
      symmetry. etransitivity; [apply (cursor_ext s); cbn; by rewrite ?length_insert|].
      f_equal. lia.
    + rewrite Hp. exact Hx.
Qed.

(** A full turn: the rest of the block is filled, the cursor is at the start
    of the next one. *)
Lemma write_loop_more fuel s i npos rest :
  at_block s i npos -> m_baseSize s < npos + zlen rest ->
  m_position s + zlen rest <= m_capacity s ->
  let k := m_baseSize s - npos in
  exists s1, write_loop (S fuel) npos k rest s
      = write_loop fuel 0 (m_baseSize s1 - 0) (zdrop k rest) s1
    /\ at_block s1 (S i) 0
    /\ moved s s1 (m_position s + k) (overwrite (m_position s) (ztake k rest) (contents s)).
Proof.
  intros Ha Hgt Hcap k. destruct (at_block_node s i npos Ha) as (nd & Hnd & Hok & Hd).
  destruct (at_block_next s i npos (zlen rest) Ha) as [Hnx Hi']; [lia..|].
  destruct Ha as [H Hc Hi Hn Hp]. pose proof (shape_fit s H) as Hfit.
  assert (Hk : zlen (ztake k rest) = k) by (apply zlen_ztake; lia).
  destruct (memcpy_to_spec s i nd npos (ztake k rest)) as (E & Hs1 & Hx); [done..|lia|lia|].
  set (s1 := set_nodes _ s) in *.
  assert (Hp' : u64 (m_position s + k) = m_position s + k)
    by (apply wrap_small; unfold in_u; nia).
  set (s2 := set_cur (Some (S i)) (set_position (m_position s + k) s1)).
  assert (Hs2 : shape s2) by (destruct Hs1; by split).
  assert (Hl2 : length (m_nodes s2) = length (m_nodes s)) by (cbn; by rewrite length_insert).
  assert (Ha2 : at_block s2 (S i) 0).
  { split; [done..|by rewrite Hl2|cbn; lia|]. cbn. rewrite Nat2Z.inj_succ. nia. }
  destruct (at_block_node s2 (S i) 0 Ha2) as (nd' & _ & [Hsz' _] & Hd').
  exists s2. split_and!; [|done|].
  - cbn [write_loop]. rewrite (proj2 (Z.ltb_lt 0 _)) by lia. mstep. step_with Hd. cbv beta iota.
    rewrite (proj2 (Z.leb_gt _ _)) by lia. step_with E. do 2 mstep.
    change (m_position s1) with (m_position s). rewrite Hp', Hnx.
    change (set_cur (Some (S i)) _) with s2. step_with Hd'. cbv beta iota.
    by rewrite Hsz', Z.sub_0_r.
  - split; try done.
    + cbn [m_cur s2 set_cur]. destruct Ha2 as [_ _ Hl _ Hpos].
      rewrite <- (cursor_in s2 (S i) 0 Hl) by (cbn; lia). f_equal. rewrite <- Hpos. done.
    + rewrite Hp. exact Hx.
Qed.

Lemma write_loop_spec fuel s i npos rest :
  at_block s i npos -> m_position s + zlen rest <= m_capacity s ->
  (length (m_nodes s) - i + 1 <= fuel)%nat ->
  exists s', write_loop fuel npos (m_baseSize s - npos) rest s = Ret tt s'
    /\ moved s s' (m_position s + zlen rest) (overwrite (m_position s) rest (contents s)).
Proof.
  revert s i npos rest. induction fuel as [|fuel IH]; intros s i npos rest Ha Hcap Hf;
    pose proof (ab_lt _ _ _ Ha) as Hi; [lia|].
  pose proof (zlen_nonneg rest) as Hr0.
  destruct (Z.eq_dec (zlen rest) 0) as [E0|E0].
  { apply zlen_0 in E0 as ->. exists s. rewrite overwrite_nil, zlen_nil, Z.add_0_r.
    split; [done|]. destruct Ha as [H Hc _ Hn Hp]. split; try done.
    rewrite Hc, Hp. symmetry. by apply cursor_in. }
  destruct (Z.le_gt_cases (npos + zlen rest) (m_baseSize s)) as [Hle|Hgt].
  { destruct fuel; [lia|]. apply (write_loop_last _ s i); [done|lia|done]. }
  destruct (write_loop_more fuel s i npos rest) as (s1 & E & Ha1 & Hm1); [done..|].
  rewrite E. set (k := m_baseSize s - npos) in *.
  destruct Hm1 as [a1 a2 a3 a4 a5 a6 a7 a8 a9].
  pose proof (ab_npos _ _ _ Ha) as Hn.
  assert (Hd : zlen (zdrop k rest) = zlen rest - k) by (apply zlen_zdrop; lia).
  destruct (IH s1 (S i) 0 (zdrop k rest)) as (s' & E' & [b1 b2 b3 b4 b5 b6 b7 b8 b9]); [done|lia|lia|].
  exists s'. split; [done|]. rewrite a7, Hd in *.
  replace (m_position s + k + (zlen rest - k)) with (m_position s + zlen rest) in * by lia.
  split; try congruence. rewrite b9, a9.
  assert (Hk : zlen (ztake k rest) = k) by (apply zlen_ztake; lia).
  rewrite <- Hk at 1. rewrite overwrite_app, ztake_zdrop; [done| |].
  - pose proof (ab_pos _ _ _ Ha). nia.
  - rewrite Hk, Hd, contents_zlen by apply Ha. lia.
Qed.

(** ** The loops of [read] *)

Lemma memcpy_from_spec s i nd npos n :
  shape s -> m_nodes s !! i = Some nd -> node_ok (m_baseSize s) nd ->
  0 <= npos -> 0 <= n -> npos + n <= m_baseSize s ->
  memcpy_from nd npos n s
  = Ret (slice (m_baseSize s * Z.of_nat i + npos) n (contents s)) s.
Proof.
  intros H Hi [Hsz Hlen] Hn Hn' Hfit. unfold memcpy_from. rewrite Hlen.
  rewrite (proj2 (Z.leb_le _ _)) by lia.
  destruct (contents_split s i nd H Hi) as (l1 & l3 & E1 & E2 & _).
  rewrite E1, <- E2, slice_middle by lia. done.
Qed.

(** Where [read] leaves [m_position]: the end of the block it finished in. *)
Definition read_end (b p n : Z) : Z := if n =? 0 then p else b * ((p + n - 1) / b + 1).

(** The object after reading [n] bytes. *)
Definition after_read (s : ByteArray) (n : Z) : ByteArray :=
  set_cur (cursor s (m_position s + n))
    (set_position (read_end (m_baseSize s) (m_position s) n) s).

Lemma read_end_block b i r n : 0 < n -> 0 <= r -> r + n <= b ->
  read_end b (b * i + r) n = b * i + b.
Proof.
  intros. unfold read_end. case_cmp; [lia|].
  replace (b * i + r + n - 1) with (b * i + (r + n - 1)) by lia.
  rewrite div_block by lia. lia.
Qed.

Lemma read_end_next b p k n : 0 <= k < n ->
  read_end b p n = read_end b (p + k) (n - k).
Proof.
  intros. unfold read_end. do 2 (case_cmp; [lia|]). do 3 f_equal. lia.
Qed.

Lemma read_loop_last fuel s i npos n :
  at_block s i npos -> 0 < n -> npos + n <= m_baseSize s ->
  read_loop (S (S fuel)) npos (m_baseSize s - npos) n s
  = Ret (slice (m_position s) n (contents s)) (after_read s n).
Proof.
  intros Ha Hn0 Hle. destruct (at_block_node s i npos Ha) as (nd & Hnd & Hok & Hd).
  destruct Ha as [H Hc Hi Hn Hp]. pose proof (shape_fit s H) as Hfit.
  assert (Hi' : Z.of_nat i + 1 <= zlen (m_nodes s)) by (unfold zlen; lia).
  pose proof (shape_cap s H) as Hcp.
  cbn [read_loop]. rewrite (proj2 (Z.ltb_lt 0 n)) by done. mstep. step_with Hd. cbv beta iota.
  rewrite (proj2 (Z.leb_le _ _)) by lia.
  step_with (memcpy_from_spec s i nd npos n H Hnd Hok ltac:(lia) ltac:(lia) Hle).
  rewrite (wrap_small 64 (npos + n)) by (unfold in_u; nia). destruct Hok as [-> _].
  assert (Hs : after_read s n = set_position (u64 (m_position s + (m_baseSize s - npos)))
             (set_cur (if m_baseSize s =? npos + n then next_of s i else Some i) s)).
  { unfold after_read. rewrite (wrap_small 64 (_ + _)) by (unfold in_u; nia).
    rewrite Hp. rewrite read_end_block by lia.
    rewrite <- Z.add_assoc, cursor_step by (done || lia). unfold set_cur, set_position; cbn.
    f_equal. lia. }
  assert (Hcur : set_cur (Some i) s = s) by (unfold set_cur; rewrite <- Hc; by destruct s).
  rewrite Hs. case_cmp; do 3 mstep; unfold mret, M_ret; rewrite app_nil_r, <- Hp; [done|].
  by rewrite Hcur.
Qed.

Lemma read_loop_more fuel s i npos n :
  at_block s i npos -> m_baseSize s < npos + n -> m_position s + n <= m_capacity s ->
  let k := m_baseSize s - npos in
  let s1 := set_cur (Some (S i)) (set_position (m_position s + k) s) in
  at_block s1 (S i) 0
  /\ read_loop (S fuel) npos k n s
     = (ys ← read_loop fuel 0 (m_baseSize s - 0) (n - k);
        mret (slice (m_position s) k (contents s) ++ ys)) s1.
Proof.
  intros Ha Hgt Hcap k s1. destruct (at_block_node s i npos Ha) as (nd & Hnd & Hok & Hd).
  destruct (at_block_next s i npos n Ha) as [Hnx Hi']; [lia..|].
  destruct Ha as [H Hc Hi Hn Hp]. pose proof (shape_fit s H) as Hfit.
  assert (Hp' : u64 (m_position s + k) = m_position s + k)
    by (apply wrap_small; unfold in_u; nia).
  assert (Ha1 : at_block s1 (S i) 0).
  { split; try done.
    - destruct H. by split.
    - cbn. lia.
    - cbn. rewrite Nat2Z.inj_succ. nia. }
  split; [done|]. destruct (at_block_node s1 (S i) 0 Ha1) as (nd' & _ & [Hsz' _] & Hd').
  cbn [read_loop]. rewrite (proj2 (Z.ltb_lt 0 n)) by lia. mstep. step_with Hd. cbv beta iota.
  rewrite (proj2 (Z.leb_gt _ _)) by lia.
  step_with (memcpy_from_spec s i nd npos k H Hnd Hok ltac:(lia) ltac:(lia) ltac:(lia)).
  do 2 mstep. rewrite Hp', Hnx. fold s1. step_with Hd'. cbv beta iota.
  by rewrite Hsz', Hp, Z.sub_0_r.
Qed.

Lemma read_loop_spec fuel s i npos n :
  at_block s i npos -> 0 <= n -> m_position s + n <= m_capacity s ->
  (length (m_nodes s) - i + 1 <= fuel)%nat ->
  read_loop fuel npos (m_baseSize s - npos) n s
  = Ret (slice (m_position s) n (contents s)) (after_read s n).
Proof.
  revert s i npos n. induction fuel as [|fuel IH]; intros s i npos n Ha Hn0 Hcap Hf;
    pose proof (ab_lt _ _ _ Ha) as Hi; [lia|].
  destruct (Z.eq_dec n 0) as [->|E0].
  { destruct Ha as [H Hc _ Hn Hp]. unfold after_read. rewrite Z.add_0_r, Hp, cursor_in by done.
    cbn. rewrite <- Hp, <- Hc. by destruct s. }
  destruct (Z.le_gt_cases (npos + n) (m_baseSize s)) as [Hle|Hgt].
  { destruct fuel; [lia|]. apply (read_loop_last _ s i); [done|lia|done]. }
  destruct (read_loop_more fuel s i npos n) as [Ha1 E]; [done..|]. rewrite E.
  set (k := m_baseSize s - npos) in *. assert (Hk : k = m_baseSize s - npos) by done.
  pose proof (ab_npos _ _ _ Ha) as Hn.
  pose proof (ab_pos _ _ _ Ha) as Hp.
  set (s1 := set_cur _ _) in *.
  assert (E1 : read_loop fuel 0 (m_baseSize s1 - 0) (n - k) s1 = _)
    by (apply (IH s1 (S i)); [done|lia|cbn; lia|cbn; lia]).
  step_with E1. unfold mret, M_ret.
  change (m_position s1) with (m_position s + k). change (contents s1) with (contents s).
  rewrite slice_split by (nia || lia). f_equal.
  unfold after_read, s1; cbn. rewrite <- read_end_next by lia.
  unfold set_cur, set_position; cbn. f_equal.
  unfold cursor; cbn. replace (m_position s + k + (n - k)) with (m_position s + n) by lia. done.
Qed.

(** The loop of the [const] read, from block [i] at [npos]. *)
Lemma read_at_loop_spec fuel s i npos n :
  shape s -> (i < length (m_nodes s))%nat -> 0 <= npos < m_baseSize s -> 0 <= n ->
  m_baseSize s * Z.of_nat i + npos + n <= m_capacity s ->
  (length (m_nodes s) - i + 1 <= fuel)%nat ->
  read_at_loop fuel (Some i) npos (m_baseSize s - npos) n s
  = Ret (slice (m_baseSize s * Z.of_nat i + npos) n (contents s)) s.
Proof.
  revert i npos n. induction fuel as [|fuel IH]; intros i npos n H Hi Hn Hn0 Hcap Hf; [lia|].
  cbn [read_at_loop]. destruct (Z.ltb_spec 0 n) as [Hpos|Hpos].
  2: { by replace n with 0 by lia. }
  destruct (lookup_lt_is_Some_2 _ _ Hi) as [nd Hnd].
  assert (Hok : node_ok (m_baseSize s) nd) by (eapply Forall_lookup_1; [apply H|done]).
  mstep. step_with (deref_at s i nd Hnd). cbv beta iota.
  destruct (Z.leb_spec n (m_baseSize s - npos)) as [Hle|Hgt].
  - step_with (memcpy_from_spec s i nd npos n H Hnd Hok ltac:(lia) ltac:(lia) ltac:(lia)).
    destruct fuel; [lia|]. mstep. unfold mret, M_ret. by rewrite app_nil_r.
  - set (k := m_baseSize s - npos) in *. assert (Hk : k = m_baseSize s - npos) by done.
    step_with (memcpy_from_spec s i nd npos k H Hnd Hok ltac:(lia) ltac:(lia) ltac:(lia)).
    assert (Hi' : (S i < length (m_nodes s))%nat).
    { pose proof (shape_cap s H). unfold zlen in *. nia. }
    rewrite next_of_some by done. destruct (lookup_lt_is_Some_2 _ _ Hi') as [nd' Hnd'].
    assert (Hok' : node_ok (m_baseSize s) nd') by (eapply Forall_lookup_1; [apply H|done]).
    step_with (deref_at s (S i) nd' Hnd'). cbv beta iota. destruct Hok' as [-> _].
    assert (E : read_at_loop fuel (Some (S i)) 0 (m_baseSize s - 0) (n - k) s = _)
      by (apply IH; [done|done|lia|lia|nia|lia]).
    rewrite Z.sub_0_r in E. step_with E. unfold mret, M_ret. f_equal.
    rewrite Nat2Z.inj_succ. replace (m_baseSize s * Z.succ (Z.of_nat i) + 0)
      with (m_baseSize s * Z.of_nat i + npos + k) by lia.
    apply slice_split; nia || lia.
Qed.

(** ** The operations on well-formed arrays *)

Lemma wf_at_block s : wf s -> m_position s < m_capacity s ->
  at_block s (Z.to_nat (m_position s / m_baseSize s)) (m_position s mod m_baseSize s).
Proof.
  intros H Hlt. pose proof (shape_base s H) as Hb. pose proof (wf_pos s H) as Hp.
  pose proof (Z.div_pos (m_position s) (m_baseSize s)). pose proof (block_eq _ (m_position s) Hb).
  rewrite (shape_cap s H) in Hlt.
  split; [apply H| | |by apply Z.mod_pos_bound|rewrite Z2Nat.id; lia].
  - rewrite (wf_cur s H). apply cursor_some; lia.
  - apply block_lt in Hlt; unfold zlen in *; lia.
Qed.

(** [write]: total, and it overwrites the flat contents at the position. *)
Lemma write_spec s buf :
  wf s -> m_position s + zlen buf + m_baseSize s < 2 ^ 64 ->
  exists s' junk, write buf s = Ret tt s' /\ wf s'
    /\ m_baseSize s' = m_baseSize s /\ m_endian s' = m_endian s
    /\ m_position s' = m_position s + zlen buf
    /\ m_size s' = Z.max (m_size s) (m_position s + zlen buf)
    /\ contents s' = overwrite (m_position s) buf (contents s ++ junk)
    /\ m_position s + zlen buf <= zlen (contents s ++ junk).
Proof.
  intros H Hfit. pose proof (zlen_nonneg buf) as H0. pose proof (wf_pos s H) as Hpos.
  pose proof (wf_size s H) as Hsize. unfold write. case_cmp.
  { exists s, []. rewrite (zlen_0 buf), overwrite_nil, app_nil_r, contents_zlen by (done || apply H).
    rewrite zlen_nil. split_and!; done || lia. }
  destruct (addCapacity_spec s (zlen buf)) as (s1 & junk & E1 & H1 & A2 & A3 & A4 & A5 & A6 & A7);
    [done|lia|lia|].
  step_with E1. mstep. pose proof (shape_base s1 H1) as Hb1. step_with (mod_base_run s1 (m_position s1) Hb1).
  pose proof (wf_at_block s1 H1 ltac:(lia)) as Ha.
  destruct (at_block_node _ _ _ Ha) as (nd & _ & [Hsz _] & Hd). step_with Hd. cbv beta iota.
  pose proof (shape_fit s1 H1). pose proof (Z.mod_pos_bound (m_position s1) _ Hb1).
  assert (m_baseSize s1 <= m_capacity s1).
  { pose proof (shape_cap s1 H1). pose proof (shape_ne s1 H1). destruct (m_nodes s1); [done|].
    rewrite zlen_cons in *. pose proof (zlen_nonneg l). nia. }
  rewrite Hsz, wrap_small by (unfold in_u; lia).
  destruct (write_loop_spec (length (m_nodes s1) + 2) s1 _ _ buf Ha) as (s2 & E2 & M2); [lia|lia|].
  step_with E2. unfold modify. destruct M2 as [m1 m2 m3 m4 m5 m6 m7 m8 m9].
  set (s3 := if m_size s2 <? m_position s2 then set_size (m_position s2) s2 else s2).
  assert (A : shape s3 /\ m_baseSize s3 = m_baseSize s2 /\ m_position s3 = m_position s2
    /\ m_endian s3 = m_endian s2 /\ contents s3 = contents s2 /\ m_cur s3 = cursor s3 (m_position s2)
    /\ m_capacity s3 = m_capacity s2 /\ m_size s3 = Z.max (m_size s2) (m_position s2)).
  { unfold s3. destruct (Z.ltb_spec (m_size s2) (m_position s2)).
    - split_and!; try done.
      + destruct m1. by split.
      + rewrite m7. exact m8.
      + cbn. lia.
    - split_and!; try done || lia. by rewrite m7. }
  destruct A as (S1 & S2 & S3 & S4 & S5 & S6 & S7 & S8).
  exists s3, junk. split_and!; [done| |congruence..| | |].
  - pose proof (wf_size s1 H1).
    split; [done|lia|lia| |by rewrite S3]. rewrite S4, m5, A5. apply H.
  - rewrite S8, m4, m7, A4, A3. done.
  - rewrite S5, m9, A3, A6. done.
  - rewrite <- A6, contents_zlen by apply H1. lia.
Qed.

Lemma getReadSize_val s : wf s -> getReadSize s = m_size s - m_position s.
Proof.
  intros H. apply wrap_small. pose proof (wf_pos s H). pose proof (wf_size s H).
  pose proof (shape_fit s H). unfold in_u. lia.
Qed.

Lemma base_le_cap s : shape s -> m_baseSize s <= m_capacity s.
Proof.
  intros []. destruct (m_nodes s); [done|]. rewrite zlen_cons in *.
  pose proof (zlen_nonneg l). nia.
Qed.

(** The common prefix of the two [read]s: the first block and its room. *)
Lemma read_setup s : wf s -> m_position s < m_capacity s ->
  exists nd, deref (m_cur s) s = Ret (Z.to_nat (m_position s / m_baseSize s), nd) s
    /\ mod_base (m_position s) s = Ret (m_position s mod m_baseSize s) s
    /\ u64 (n_size nd - m_position s mod m_baseSize s)
       = m_baseSize s - m_position s mod m_baseSize s.
Proof.
  intros H Hlt. pose proof (wf_at_block s H Hlt) as Ha.
  destruct (at_block_node _ _ _ Ha) as (nd & _ & [Hsz _] & Hd). exists nd.
  split_and!; [done|apply mod_base_run, H|].
  pose proof (shape_fit s H). pose proof (base_le_cap s H).
  pose proof (Z.mod_pos_bound (m_position s) (m_baseSize s) (shape_base s H)).
  rewrite Hsz. apply wrap_small. unfold in_u. lia.
Qed.

Lemma read_too_long s n : wf s -> m_size s - m_position s < n ->
  read n s = Throw (out_of_range "not enough len") s.
Proof.
  intros H Hn. unfold read. mstep. rewrite getReadSize_val by done.
  by rewrite (proj2 (Z.ltb_lt _ _)) by lia.
Qed.

Lemma read_spec s n : wf s -> m_position s < m_capacity s ->
  0 <= n <= m_size s - m_position s ->
  read n s = Ret (slice (m_position s) n (contents s)) (after_read s n).
Proof.
  intros H Hlt Hn. pose proof (wf_size s H). unfold read. mstep.
  rewrite getReadSize_val by done. rewrite (proj2 (Z.ltb_ge _ _)) by lia.
  destruct (read_setup s H Hlt) as (nd & E1 & E2 & E3).
  step_with E2. step_with E1. cbv beta iota. rewrite E3.
  eapply read_loop_spec; [by apply wf_at_block|lia|lia|lia].
Qed.

(** Reading at the very end of the last block follows the null cursor. *)
Lemma read_at_end s : wf s -> m_position s = m_capacity s -> read 0 s = Crash NullDeref.
Proof.
  intros H He. pose proof (wf_size s H). pose proof (wf_pos s H). unfold read. mstep.
  rewrite getReadSize_val by done. rewrite (proj2 (Z.ltb_ge _ _)) by lia.
  step_with (mod_base_run s (m_position s) (shape_base s H)).
  rewrite (wf_cur s H), cursor_end; [done|apply H|].
  rewrite <- (shape_cap s H). lia.
Qed.

Lemma read_at_spec s n : wf s -> m_position s < m_capacity s ->
  0 <= n <= m_size s - m_position s ->
  read_at n (m_position s) s = Ret (slice (m_position s) n (contents s)) s.
Proof.
  intros H Hlt Hn. pose proof (wf_size s H). pose proof (wf_at_block s H Hlt) as Ha.
  unfold read_at. mstep.
  rewrite getReadSize_val by done. rewrite (proj2 (Z.ltb_ge _ _)) by lia.
  destruct (read_setup s H Hlt) as (nd & E1 & E2 & E3).
  step_with E2. step_with E1. cbv beta iota. rewrite E3, (ab_cur _ _ _ Ha).
  pose proof (ab_pos _ _ _ Ha) as Hp.
  pose proof (read_at_loop_spec (length (m_nodes s) + 2) s
    (Z.to_nat (m_position s / m_baseSize s)) (m_position s mod m_baseSize s) n) as E.
  rewrite <- Hp in E. apply E; try apply Ha; lia.
Qed.

(** ** setPosition *)

Lemma setPosition_loop_spec fuel s i v :
  shape s -> m_cur s = Some i -> 0 <= v ->
  m_baseSize s * Z.of_nat i + v <= m_capacity s -> (i < length (m_nodes s))%nat ->
  (length (m_nodes s) - i <= fuel)%nat ->
  exists j r, setPosition_loop fuel v s = Ret r (set_cur (Some j) s)
    /\ (j < length (m_nodes s))%nat /\ 0 <= r <= m_baseSize s
    /\ m_baseSize s * Z.of_nat j + r = m_baseSize s * Z.of_nat i + v.
Proof.
  revert s i v. induction fuel as [|fuel IH]; intros s i v H Hc Hv Hcap Hi Hf; [lia|].
  pose proof (shape_base s H) as Hb. pose proof (shape_fit s H) as Hfit.
  destruct (lookup_lt_is_Some_2 _ _ Hi) as [nd Hnd].
  assert (Hok : node_ok (m_baseSize s) nd) by (eapply Forall_lookup_1; [apply H|done]).
  destruct Hok as [Hsz _]. cbn [setPosition_loop]. mstep. rewrite Hc.
  step_with (deref_at s i nd Hnd). cbv beta iota. rewrite Hsz.
  destruct (Z.ltb_spec (m_baseSize s) v) as [Hlt|Hge].
  - mstep. rewrite wrap_small by (unfold in_u; nia).
    assert (Hi' : (S i < length (m_nodes s))%nat).
    { pose proof (shape_cap s H). unfold zlen in *. nia. }
    rewrite next_of_some by done.
    destruct (IH (set_cur (Some (S i)) s) (S i) (v - m_baseSize s)) as (j & r & E & Hj & Hr & Eq).
    + destruct H. by split.
    + done.
    + lia.
    + cbn [m_baseSize m_capacity set_cur]. nia.
    + done.
    + cbn [m_nodes set_cur]. lia.
    + exists j, r. cbn [m_baseSize m_nodes set_cur] in *. split_and!; try done || lia.
  - exists i, v. split_and!; try done || lia. unfold mret, M_ret, set_cur.
    rewrite <- Hc. by destruct s.
Qed.

(** [setPosition] restores a well-formed cursor from any cursor. *)
Lemma setPosition_spec s v :
  shape s -> 0 <= m_size s <= m_capacity s ->
  m_endian s = LINKO_LITTLE_ENDIAN \/ m_endian s = LINKO_BIG_ENDIAN ->
  0 <= v <= m_capacity s ->
  let s' := set_cur (cursor s v) (set_size (Z.max (m_size s) v) (set_position v s)) in
  setPosition v s = Ret tt s' /\ wf s'.
Proof.
  intros H Hsize He Hv s'. pose proof (shape_base s H) as Hb. split.
  2: { split; cbn; [destruct H; by split|lia|lia|done|done]. }
  unfold setPosition. mstep. rewrite (proj2 (Z.ltb_ge _ _)) by lia. do 3 mstep.
  set (s1 := set_cur (Some 0%nat) _).
  assert (E1 : s1 = set_cur (Some 0%nat) (set_size (Z.max (m_size s) v) (set_position v s))).
  { unfold s1. cbn [m_size m_position set_position].
    destruct (Z.ltb_spec (m_size s) v); [rewrite Z.max_r by lia; done|].
    rewrite Z.max_l by lia. by destruct s. }
  assert (Hne : (0 < length (m_nodes s))%nat).
  { destruct (m_nodes s) eqn:E; [by destruct (shape_ne s H)|cbn; lia]. }
  destruct (setPosition_loop_spec (length (m_nodes s) + 1) s1 0 v) as (j & r & E & Hj & Hr & Eq).
  - rewrite E1. destruct H. by split.
  - by rewrite E1.
  - lia.
  - rewrite E1. cbn [m_baseSize m_capacity set_cur set_size set_position]. lia.
  - by rewrite E1.
  - rewrite E1. cbn [m_nodes set_cur set_size set_position]. lia.
  - step_with E. mstep. rewrite E1 in *. cbn [m_baseSize m_nodes set_cur set_size set_position] in *.
    destruct (lookup_lt_is_Some_2 _ _ Hj) as [nd Hnd].
    assert (Hok : node_ok (m_baseSize s) nd) by (eapply Forall_lookup_1; [apply H|done]).
    erewrite bind_Ret by (apply deref_at; exact Hnd). cbv beta iota.
    destruct Hok as [-> _].
    assert (Ec : cursor s v = if m_baseSize s =? r then next_of s j else Some j).
    { rewrite <- cursor_step by done. f_equal. lia. }
    unfold s'. rewrite Ec, (Z.eqb_sym r). case_cmp; done.
Qed.

Lemma setPosition_out s v : m_capacity s < v ->
  setPosition v s = Throw (out_of_range "set_position out of range") s.
Proof. intros. unfold setPosition. mstep. by rewrite (proj2 (Z.ltb_lt _ _)). Qed.

(** A new array is well-formed and empty. *)
Lemma wf_new b : 0 < b < 2 ^ 64 -> wf (ByteArray_new b).
Proof.
  intros Hb. pose proof (Node_new_ok b ltac:(lia)) as Hn.
  split; cbn; try lia.
  - split; cbn; [lia|by constructor|done|unfold zlen; cbn; lia|lia].
  - rewrite (cursor_some (ByteArray_new b)); cbn; unfold zlen; cbn; [|lia..].
    by rewrite Z.div_0_l by lia.
Qed.
End specs.

(** A small array for the worked instances: two blocks of four bytes, six
    bytes of data, the cursor at the start. *)
Definition demo : ByteArray :=
  mkByteArray 4 0 8 6 LINKO_BIG_ENDIAN
    [mkNode (list_ascii_of_string "abcd") 4; mkNode (list_ascii_of_string "efgh") 4] (Some 0%nat).

Lemma demo_wf : wf demo.
Proof.
  split; cbn; try lia; [|done].
  split; cbn; [lia|repeat constructor|done|done|lia].
Qed.
