(* ===== verification/ByteArrayThms.v ===== *)
(** What ByteArray promises its clients: refinement of a flat buffer, the wire
    format of integers, round trips, and where the cursor goes wrong. *)
From S2P Require Import Prelude Endian ByteArray ByteArraySpec.

(** ** The abstract buffer *)

(** A byte string and a position in it. *)
Record Buf := mkBuf { b_data : bytes; b_pos : Z }.

Definition spec_write (buf : bytes) (b : Buf) : Buf :=
  mkBuf (overwrite (b_pos b) buf (b_data b)) (b_pos b + zlen buf).
Definition spec_seek (v : Z) (b : Buf) : Buf := mkBuf (b_data b) v.
Definition spec_read (n : Z) (b : Buf) : bytes * Buf :=
  (slice (b_pos b) n (b_data b), mkBuf (b_data b) (b_pos b + n)).

(** The data of an array: the first [m_size] bytes of its blocks. *)
Definition data (s : ByteArray) : bytes := ztake (m_size s) (contents s).
Definition abs (s : ByteArray) : Buf := mkBuf (data s) (m_position s).

(** Bytes of the wire for an integer, by the array's byte order. *)
Definition wire (t : ity) (endian v : Z) : bytes :=
  if endian =? LINKO_LITTLE_ENDIAN then le_bytes (sizeof t) v else rev (le_bytes (sizeof t) v).

Lemma wire_zlen t e v : zlen (wire t e v) = Z.of_nat (sizeof t).
Proof.
  unfold wire, zlen. case_cmp; rewrite ?length_rev; by rewrite le_bytes_length.
Qed.

Lemma overwrite_view {A} (p n : Z) (xs l j : list A) :
  0 <= p <= n -> n <= zlen l -> p + zlen xs <= zlen (l ++ j) ->
  ztake (Z.max n (p + zlen xs)) (overwrite p xs (l ++ j)) = overwrite p xs (ztake n l).
Proof.
  intros Hp Hn Hfit. pose proof (zlen_nonneg xs) as H0. unfold overwrite.
  rewrite (ztake_app_le p) by lia. rewrite (ztake_ztake p n) by lia.
  assert (Hl : zlen (ztake p l) = p) by (apply zlen_ztake; lia).
  rewrite ztake_app_ge, Hl by lia. f_equal. rewrite ztake_app_ge by lia. f_equal.
  destruct (Z.le_gt_cases n (p + zlen xs)) as [Hle|Hgt].
  - rewrite Z.max_r by lia. replace (p + zlen xs - p - zlen xs) with 0 by lia.
    rewrite ztake_0. symmetry. apply zdrop_all. rewrite zlen_ztake; lia.
  - rewrite Z.max_l by lia. rewrite zdrop_app_le by lia. unfold ztake, zdrop.
    rewrite take_app_le by (rewrite length_drop; unfold zlen in *; lia).
    rewrite take_drop_commute. do 2 f_equal. lia.
Qed.

Lemma data_zlen s : wf s -> zlen (data s) = m_size s.
Proof.
  intros H. pose proof (wf_pos s H). pose proof (wf_size s H).
  apply zlen_ztake. rewrite contents_zlen by apply H. lia.
Qed.

Lemma slice_data s p n : wf s -> 0 <= p -> 0 <= n -> p + n <= m_size s ->
  slice p n (data s) = slice p n (contents s).
Proof.
  intros H Hp Hn Hle. pose proof (wf_size s H). unfold slice, data, ztake, zdrop.
  rewrite skipn_firstn_comm, take_take. f_equal. lia.
Qed.

Section thms.
Context {host : Host} {un : Uninit}.

(** [repr] after the conditional swap is the wire format on every host. *)
Lemma repr_wire t e v : e = LINKO_LITTLE_ENDIAN \/ e = LINKO_BIG_ENDIAN ->
  repr t (if negb (e =? LINKO_BYTE_ORDER) then byteswap t v else v) = wire t e v.
Proof.
  unfold wire, LINKO_BYTE_ORDER. destruct host_big eqn:E; intros [-> | ->]; cbn;
    rewrite ?repr_byteswap; unfold repr; rewrite E, ?rev_involutive; done.
Qed.

Lemma unrepr_wire t e v : e = LINKO_LITTLE_ENDIAN \/ e = LINKO_BIG_ENDIAN -> in_range t v ->
  (if e =? LINKO_BYTE_ORDER then unrepr t (wire t e v)
   else byteswap t (unrepr t (wire t e v))) = v.
Proof.
  intros He Hv. rewrite <- repr_wire by done. destruct (e =? LINKO_BYTE_ORDER); cbn.
  - by apply unrepr_repr.
  - rewrite unrepr_repr by apply byteswap_range. by apply byteswap_byteswap.
Qed.

(** [write] on the abstract buffer, with the position and size it leaves. *)
Lemma write_abs s buf :
  wf s -> m_position s + zlen buf + m_baseSize s < 2 ^ 64 ->
  exists s', write buf s = Ret tt s' /\ wf s' /\ abs s' = spec_write buf (abs s)
    /\ m_baseSize s' = m_baseSize s /\ m_endian s' = m_endian s
    /\ m_position s' = m_position s + zlen buf
    /\ m_size s' = Z.max (m_size s) (m_position s + zlen buf).
Proof.
  intros H Hfit. destruct (write_spec s buf H Hfit) as (s' & junk & E & H' & A1 & A2 & A3 & A4 & A5 & A6).
  exists s'. split_and!; try done. unfold abs, spec_write, data; cbn.
  rewrite A3, A4, A5. f_equal. pose proof (wf_pos s H). pose proof (wf_size s H).
  apply overwrite_view; [lia| |done]. rewrite contents_zlen by apply H. lia.
Qed.
(** C1: [write] refines the abstract buffer: on every well-formed array it
    returns, keeps it well-formed with the same block size and byte order,
    and its data and position are those of [spec_write]. *)
Theorem write_refines s buf :
  wf s -> m_position s + zlen buf + m_baseSize s < 2 ^ 64 ->
  exists s', write buf s = Ret tt s' /\ wf s' /\ abs s' = spec_write buf (abs s)
    /\ m_baseSize s' = m_baseSize s /\ m_endian s' = m_endian s.
Proof.
  intros H Hfit. destruct (write_abs s buf H Hfit) as (s' & ? & ? & ? & ? & ? & _). by exists s'.
Qed.


(** ** Reads that end on a block boundary *)

Definition remaining (s : ByteArray) : bytes := zdrop (m_position s) (data s).

Lemma remaining_zlen s : wf s -> zlen (remaining s) = m_size s - m_position s.
Proof.
  intros H. unfold remaining. rewrite zlen_zdrop; rewrite data_zlen by done; [done|].
  apply (wf_pos s H).
Qed.

Lemma read_end_aligned b p n : 0 < b -> 0 < n -> 0 <= p -> (p + n) mod b = 0 ->
  read_end b p n = p + n.
Proof.
  intros Hb Hn Hp Hm. unfold read_end. case_cmp; [lia|].
  pose proof (block_eq b (p + n) Hb) as E. rewrite Hm in E.
  assert ((p + n - 1) / b = (p + n) / b - 1) as ->; [|lia].
  symmetry. apply (Z.div_unique_pos _ _ _ (b - 1)); lia.
Qed.

Lemma after_read_wf s n : wf s -> 0 < n <= m_size s - m_position s ->
  (m_position s + n) mod m_baseSize s = 0 ->
  wf (after_read s n) /\ m_position (after_read s n) = m_position s + n.
Proof.
  intros H Hn Hm. pose proof (wf_pos s H). pose proof (wf_size s H).
  assert (E : read_end (m_baseSize s) (m_position s) n = m_position s + n)
    by (apply read_end_aligned; try apply H; lia || done).
  unfold after_read. rewrite E. split; [|done].
  split; cbn; [destruct (wf_shape s H); by split|lia|lia|apply H|done].
Qed.

Lemma read_abs s n : wf s -> 0 < n <= m_size s - m_position s ->
  read n s = Ret (slice (m_position s) n (data s)) (after_read s n).
Proof.
  intros H Hn. pose proof (wf_pos s H). pose proof (wf_size s H).
  rewrite read_spec by (done || lia). rewrite slice_data by (done || lia). done.
Qed.

(** C3: a [read] that ends at the end of a block refines the abstract
    buffer: it returns the bytes at the position and advances by their number. *)
Theorem read_refines_aligned s n :
  wf s -> 0 < n <= m_size s - m_position s -> (m_position s + n) mod m_baseSize s = 0 ->
  exists s', read n s = Ret (spec_read n (abs s)).1 s' /\ wf s'
    /\ abs s' = (spec_read n (abs s)).2.
Proof.
  intros H Hn Hm. destruct (after_read_wf s n H Hn Hm) as [H' Hp].
  exists (after_read s n). rewrite read_abs by done. split_and!; [done|done|].
  unfold abs, spec_read. by rewrite Hp.
Qed.

(** Every other [read] returns the right bytes but leaves the object
    broken: the position jumps to the end of the block while the cursor stays
    in it, so that the array is no longer well-formed. *)
Theorem read_misaligned s n :
  wf s -> 0 < n <= m_size s - m_position s -> (m_position s + n) mod m_baseSize s <> 0 ->
  exists s', read n s = Ret (spec_read n (abs s)).1 s' /\ ~ wf s'
    /\ m_position s + n < m_position s' /\ m_position s' mod m_baseSize s = 0.
Proof.
  intros H Hn Hm. exists (after_read s n). rewrite read_abs by done.
  pose proof (shape_base s H) as Hb. pose proof (wf_pos s H). pose proof (wf_size s H).
  set (p := m_position s) in *. set (b := m_baseSize s) in *.
  pose proof (block_eq b (p + n) Hb) as E. pose proof (Z.mod_pos_bound (p + n) b Hb).
  assert (Ed : (p + n - 1) / b = (p + n) / b).
  { symmetry. apply (Z.div_unique_pos _ _ _ ((p + n) mod b - 1)); lia. }
  assert (Er : m_position (after_read s n) = b * ((p + n) / b + 1)).
  { cbn. unfold read_end. fold p b. case_cmp; [lia|]. by rewrite Ed. }
  split_and!; [done| |rewrite Er; lia|].
  - intros W. pose proof (wf_cur _ W) as Hc. rewrite Er in Hc. cbn in Hc. fold p in Hc.
    assert (Hlt : p + n < b * zlen (m_nodes s)) by (pose proof (shape_cap s H) as Hcp; fold b in Hcp;
      destruct (Z.eq_dec (p + n) (b * zlen (m_nodes s))) as [e|];
      [rewrite e, Z.mul_comm, Z.mod_mul in Hm by lia; done|lia]).
    rewrite cursor_some in Hc by (fold b; lia). unfold cursor in Hc; cbn in Hc. fold b in Hc.
    rewrite (Z.mul_comm b), Z.div_mul in Hc by lia. case_decide; [|done].
    injection Hc as Hc. pose proof (Z.div_pos (p + n) b). lia.
  - rewrite Er, Z.mul_comm. apply Z.mod_mul. lia.
Qed.

(** A read strictly inside the cursor's block, whatever [m_position] says:
    the cursor stays and the position moves to the end of the block. *)
Lemma read_in_block s i n :
  shape s -> m_cur s = Some i -> (i < length (m_nodes s))%nat ->
  0 < n <= getReadSize s -> m_position s mod m_baseSize s + n < m_baseSize s ->
  read n s
  = Ret (slice (m_baseSize s * Z.of_nat i + m_position s mod m_baseSize s) n (contents s))
        (set_position (u64 (m_position s + (m_baseSize s - m_position s mod m_baseSize s))) s).
Proof.
  intros H Hc Hi Hn Hin. pose proof (shape_base s H) as Hb. pose proof (shape_fit s H).
  pose proof (base_le_cap s H). set (r := m_position s mod m_baseSize s) in *.
  assert (0 <= r) by (apply Z.mod_pos_bound; lia).
  destruct (lookup_lt_is_Some_2 _ _ Hi) as [nd Hnd].
  assert (Hok : node_ok (m_baseSize s) nd) by (eapply Forall_lookup_1; [apply H|done]).
  unfold read. mstep. rewrite (proj2 (Z.ltb_ge _ _)) by lia.
  step_with (mod_base_run s (m_position s) Hb). rewrite Hc.
  step_with (deref_at s i nd Hnd). cbv beta iota. fold r.
  rewrite (proj1 Hok), wrap_small by (unfold in_u; lia).
  rewrite Nat.add_comm. cbn [Nat.add read_loop]. rewrite (proj2 (Z.ltb_lt 0 n)) by lia.
  mstep. rewrite Hc. step_with (deref_at s i nd Hnd). cbv beta iota.
  rewrite (proj2 (Z.leb_le _ _)) by lia.
  step_with (memcpy_from_spec s i nd r n H Hnd Hok ltac:(lia) ltac:(lia) ltac:(lia)).
  rewrite (proj1 Hok), (wrap_small 64 (r + n)) by (unfold in_u; lia).
  rewrite (proj2 (Z.eqb_neq _ _)) by lia. do 3 mstep. unfold mret, M_ret. by rewrite app_nil_r.
Qed.

(** With blocks of three bytes or more, two successive one-byte reads
    from the start of a short buffer return the first byte twice. *)
Theorem read_rereads_first_byte s :
  wf s -> m_position s = 0 -> 3 <= m_baseSize s -> 1 <= m_size s < m_baseSize s ->
  exists s1 s2, read 1 s = Ret (slice 0 1 (data s)) s1
    /\ read 1 s1 = Ret (slice 0 1 (data s)) s2.
Proof.
  intros H Hp Hb Hs. pose proof (base_le_cap s H) as Hcap. pose proof (shape_fit s H).
  destruct (wf_at_block s H ltac:(lia)) as [Hsh Hc Hl _ _]. rewrite Hp, Z.div_0_l in Hc, Hl by lia.
  assert (E1 := read_in_block s 0 1 Hsh Hc Hl).
  rewrite getReadSize_val, Hp, Z.mod_0_l in E1 by (done || lia).
  set (s1 := set_position _ s) in E1.
  assert (Hp1 : m_position s1 = m_baseSize s).
  { cbn. rewrite wrap_small; unfold in_u; lia. }
  assert (Hsh1 : shape s1) by (destruct Hsh; by split).
  assert (E2 := read_in_block s1 0 1 Hsh1 Hc Hl).
  unfold getReadSize in E2. rewrite Hp1 in E2.
  change (m_size s1) with (m_size s) in E2. change (m_baseSize s1) with (m_baseSize s) in E2.
  replace (u64 (m_size s - m_baseSize s)) with (m_size s - m_baseSize s + 2 ^ 64) in E2
    by (unfold wrap; rewrite <- (Z_mod_plus_full _ 1), Z.mod_small; lia).
  rewrite Z.mod_same in E2 by lia. rewrite slice_data by (done || lia).
  change (Z.of_nat 0) with 0 in *. rewrite Z.mul_0_r, Z.add_0_r in E1, E2.
  eexists s1, _. split; [apply E1; lia|]. apply E2; lia.
Qed.
End thms.

(** ** Instances of the theorems *)

Example write_refines_witness :
  exists s', write (un := zeroed) (list_ascii_of_string "0123456789") demo = Ret tt s' /\ wf s'
    /\ abs s' = spec_write (list_ascii_of_string "0123456789") (abs demo)
    /\ m_baseSize s' = 4 /\ m_endian s' = LINKO_BIG_ENDIAN.
Proof. apply (write_refines (un := zeroed) demo (list_ascii_of_string "0123456789") demo_wf); cbv; done. Defined.

Example read_refines_aligned_witness :
  exists s', read 4 demo = Ret (spec_read 4 (abs demo)).1 s' /\ wf s'
    /\ abs s' = (spec_read 4 (abs demo)).2.
Proof. apply (read_refines_aligned demo 4 demo_wf); cbv; done. Defined.

Example read_misaligned_witness :
  exists s', read 3 demo = Ret (spec_read 3 (abs demo)).1 s' /\ ~ wf s'
    /\ 0 + 3 < m_position s' /\ m_position s' mod 4 = 0.
Proof. apply (read_misaligned demo 3 demo_wf); cbv; done. Defined.

Example read_rereads_first_byte_witness :
  exists s1 s2, read 1 (set_size 2 demo) = Ret (slice 0 1 (data (set_size 2 demo))) s1
    /\ read 1 s1 = Ret (slice 0 1 (data (set_size 2 demo))) s2.
Proof.
  apply (read_rereads_first_byte (set_size 2 demo)); try (cbv; done).
  destruct demo_wf as [[] ? ? ? ?]. split; cbn in *; try (done || lia); by split.
Defined.
