(* ===== verification/ByteArrayCodec.v ===== *)
(** Round trips of the typed writers and readers of ByteArray: the interface
    [Format] that a writer and its reader satisfy, its instances, zigzag and
    varint encodings, and the pairs that do not match. *)
From S2P Require Import Prelude Endian ByteArray ByteArraySpec ByteArrayThms.

Section codec.
Context {host : Host} {un : Uninit}.

(** ** Byte-wise arrays: blocks of one byte, where every read is aligned *)

(** [s'] is [s] with the cursor moved to where [rest] remains. *)
Record stepped (s s' : ByteArray) (rest : bytes) : Prop := {
  st_wf : wf s';
  st_base : m_baseSize s' = m_baseSize s;
  st_endian : m_endian s' = m_endian s;
  st_data : data s' = data s;
  st_rest : remaining s' = rest
}.

Lemma stepped_refl s : wf s -> stepped s s (remaining s).
Proof. by split. Qed.

Lemma stepped_trans s1 s2 s3 r r' : stepped s1 s2 r -> stepped s2 s3 r' -> stepped s1 s3 r'.
Proof. intros [] []. split; congruence. Qed.

Lemma read_bytewise s xs rest :
  wf s -> m_baseSize s = 1 -> xs <> [] -> remaining s = xs ++ rest ->
  exists s', read (zlen xs) s = Ret xs s' /\ stepped s s' rest.
Proof.
  intros H Hb Hne Hr. pose proof (zlen_nonneg xs). pose proof (zlen_nonneg rest).
  assert (Hx : 0 < zlen xs) by (destruct xs; [done|rewrite zlen_cons; pose proof (zlen_nonneg xs); lia]).
  pose proof (remaining_zlen s H) as Hl. rewrite Hr, zlen_app in Hl.
  assert (Hn : 0 < zlen xs <= m_size s - m_position s) by lia.
  destruct (after_read_wf s (zlen xs) H Hn) as [H' Hp].
  { rewrite Hb. apply Z.mod_1_r. }
  exists (after_read s (zlen xs)). rewrite read_abs by done. split.
  - f_equal. unfold slice. fold (remaining s). rewrite Hr.
    rewrite ztake_app_le, ztake_all by lia. done.
  - split; try done. unfold remaining. rewrite Hp.
    change (data (after_read s (zlen xs))) with (data s).
    rewrite <- zdrop_zdrop by (pose proof (wf_pos s H); lia).
    fold (remaining s). rewrite Hr, zdrop_app_ge, Z.sub_diag by lia. done.
Qed.

(** ** The interface between a writer and its reader *)

(** [fmt e a] is the wire image of [a] in byte order [e]; the writer appends
    it at the position of any array, the reader consumes it from a byte-wise
    one. *)
Class Format {A : Type} (ok : A -> Prop) (wr : A -> M ByteArray unit) (rd : M ByteArray A) := {
  fmt : Z -> A -> bytes;
  fmt_writes s a : wf s -> ok a ->
    m_position s + zlen (fmt (m_endian s) a) + m_baseSize s < 2 ^ 64 ->
    exists s', wr a s = Ret tt s' /\ wf s'
      /\ abs s' = spec_write (fmt (m_endian s) a) (abs s)
      /\ m_baseSize s' = m_baseSize s /\ m_endian s' = m_endian s;
  fmt_reads s a rest : wf s -> m_baseSize s = 1 -> ok a ->
    remaining s = fmt (m_endian s) a ++ rest ->
    exists s', rd s = Ret a s' /\ stepped s s' rest
}.

(** A writer that writes the wire image, and a reader that reads it back. *)
Lemma writes_of {A} (wr : A -> M ByteArray unit) (f : Z -> A -> bytes) s a :
  wr a s = write (f (m_endian s) a) s -> wf s ->
  m_position s + zlen (f (m_endian s) a) + m_baseSize s < 2 ^ 64 ->
  exists s', wr a s = Ret tt s' /\ wf s' /\ abs s' = spec_write (f (m_endian s) a) (abs s)
    /\ m_baseSize s' = m_baseSize s /\ m_endian s' = m_endian s.
Proof.
  intros -> H Hf. destruct (write_abs s _ H Hf) as (s' & ? & ? & ? & ? & ? & _). by exists s'.
Qed.

Lemma writeF_wire t v s : wf s -> writeF t v s = write (wire t (m_endian s) v) s.
Proof. intros H. unfold writeF. mstep. rewrite repr_wire by apply H. done. Qed.

Lemma wire_ne t e v : wire t e v <> [].
Proof. intros E. pose proof (wire_zlen t e v) as Hl. rewrite E in Hl. by destruct t. Qed.

Lemma readF_wire t v s rest :
  wf s -> m_baseSize s = 1 -> in_range t v -> remaining s = wire t (m_endian s) v ++ rest ->
  exists s', readF t s = Ret v s' /\ stepped s s' rest.
Proof.
  intros H Hb Hv Hr. destruct (read_bytewise s _ rest H Hb (wire_ne t (m_endian s) v) Hr) as (s' & E & St).
  exists s'. split; [|done]. unfold readF. rewrite wire_zlen in E. step_with E. mstep.
  unfold mret, M_ret. rewrite (st_endian _ _ _ St), unrepr_wire by (done || apply H). done.
Qed.

#[export, program] Instance Format_fixed (t : ity) :
  Format (in_range t) (writeF t) (readF t) := {| fmt := wire t |}.
Next Obligation. intros. apply writes_of; [by apply writeF_wire|done..]. Qed.
Next Obligation. intros. by apply readF_wire. Qed.

(** The one-byte integers have writers and readers of their own. *)
Lemma repr_one t v : sizeof t = 1%nat -> repr t v = le_bytes 1 v.
Proof. intros E. unfold repr. rewrite E. by destruct host_big. Qed.

Definition byte_image (_ v : Z) : bytes := [bz v].

Lemma byte_reads t s v rest : sizeof t = 1%nat -> wf s -> m_baseSize s = 1 -> in_range t v ->
  remaining s = byte_image (m_endian s) v ++ rest ->
  exists s', (l ← read 1; mret (unrepr t l)) s = Ret v s' /\ stepped s s' rest.
Proof.
  intros Ht H Hb Hv Hr. destruct (read_bytewise s [bz v] rest) as (s' & E & St); [done..|].
  exists s'. split; [|done]. step_with E. unfold mret, M_ret. f_equal.
  change [bz v] with (le_bytes 1 v). rewrite <- (repr_one t) by done. by apply unrepr_repr.
Qed.

#[export, program] Instance Format_int8 : Format (in_range int8_t) writeFint8 readFint8 :=
  {| fmt := byte_image |}.
Next Obligation.
  intros. apply writes_of; [|done..]. unfold writeFint8. by rewrite repr_one.
Qed.
Next Obligation. intros. by apply byte_reads. Qed.

#[export, program] Instance Format_uint8 : Format (in_range uint8_t) writeFuint8 readFuint8 :=
  {| fmt := byte_image |}.
Next Obligation.
  intros. apply writes_of; [|done..]. unfold writeFuint8. by rewrite repr_one.
Qed.
Next Obligation. intros. by apply byte_reads. Qed.

Lemma readFuint8_run s b rest : wf s -> m_baseSize s = 1 -> remaining s = b :: rest ->
  exists s', readFuint8 s = Ret (ub b) s' /\ stepped s s' rest.
Proof.
  intros H Hb Hr. pose proof (ub_range b).
  destruct (fmt_reads (rd := readFuint8) s (ub b) rest H Hb) as (s' & E & St).
  - done.
  - cbn. unfold byte_image. by rewrite bz_ub.
  - by exists s'.
Qed.

(** ** Variable-length integers *)

(** Seven bits per byte: [room] bytes hold every value below 2^(7 room). *)
Lemma varint_bytes_total room v : 0 <= v < 2 ^ (7 * Z.of_nat room) -> (0 < room)%nat ->
  exists bs, varint_bytes room v = Some bs /\ bs <> [] /\ zlen bs <= Z.of_nat room.
Proof.
  revert v. induction room as [|room IH]; intros v Hv Hroom; [lia|]. cbn [varint_bytes].
  destruct (Z.leb_spec 0x80 v) as [Hge|Hlt].
  2: { exists [bz v]. split_and!; [done|done|]. rewrite zlen_cons, zlen_nil. lia. }
  destruct room as [|room]; [cbn in Hv; lia|].
  rewrite Z.shiftr_div_pow2 by lia.
  destruct (IH (v / 2 ^ 7)) as (bs & E & _ & Hl); [|lia|].
  - split; [apply Z.div_pos; lia|]. apply Z.div_lt_upper_bound; [lia|].
    rewrite <- Z.pow_add_r by lia. replace (7 + _) with (7 * Z.of_nat (S (S room))) by lia. lia.
  - rewrite E. cbn. eexists. split_and!; [done|done|]. rewrite zlen_cons. lia.
Qed.

Lemma ub_low7 v : ub (bz (Z.lor (Z.land v 0x7F) 0x80)) = Z.land v 0x7F + 128
  /\ Z.land (Z.land v 0x7F + 128) 0x7F = Z.land v 0x7F.
Proof.
  assert (Hr : 0 <= Z.land v 0x7F < 128).
  { change 0x7F with (Z.ones 7). rewrite Z.land_ones by lia. apply Z.mod_pos_bound. lia. }
  assert (E : Z.lor (Z.land v 0x7F) 0x80 = Z.land v 0x7F + 128).
  { assert (Hd : Z.land (Z.land v 0x7F) 0x80 = 0) by (rewrite <- Z.land_assoc; apply Z.land_0_r).
    rewrite <- Z.lxor_lor by done. symmetry. by apply Z.add_nocarry_lxor. }
  rewrite ub_bz, E, Z.mod_small by lia. split; [done|].
  set (x := Z.land v 0x7F) in *. change 0x7F with (Z.ones 7). rewrite Z.land_ones by lia.
  rewrite <- (Z_mod_plus_full _ (-1)), Z.mod_small; lia.
Qed.

(** Putting the low seven bits and the rest back together, at shift [i]. *)
Lemma varint_join w v i : 0 <= w -> 0 <= i ->
  Z.lor (wrap w (Z.shiftl (Z.land v 0x7F) i)) (wrap w (Z.shiftl (Z.shiftr v 7) (i + 7)))
  = wrap w (Z.shiftl v i).
Proof.
  intros Hw Hi. unfold wrap. rewrite <- !Z.land_ones, <- Z.land_lor_distr_l by lia. f_equal.
  apply Z.bits_inj'. intros n Hn. change 0x7F with (Z.ones 7).
  rewrite Z.lor_spec, !Z.shiftl_spec, Z.land_spec by lia.
  destruct (Z.lt_ge_cases (n - i) 0).
  { by rewrite !Z.testbit_neg_r by lia. }
  destruct (Z.lt_ge_cases (n - i) 7).
  - rewrite (Z.testbit_neg_r (Z.shiftr v 7)), Z.ones_spec_low, orb_false_r, andb_true_r by lia. done.
  - rewrite Z.ones_spec_high, andb_false_r, Z.shiftr_spec by lia. cbn. f_equal. lia.
Qed.

Lemma read_varint_spec room w fuel i result v bs s rest :
  varint_bytes room v = Some bs -> 0 <= v -> 0 <= i ->
  i + 7 * (Z.of_nat room - 1) < w -> (room <= fuel)%nat ->
  wf s -> m_baseSize s = 1 -> remaining s = bs ++ rest ->
  exists s', read_varint w fuel i result s
      = Ret (Z.lor result (wrap w (Z.shiftl v i))) s' /\ stepped s s' rest.
Proof.
  revert fuel i result v bs s. induction room as [|room IH];
    intros fuel i result v bs s Hbs Hv Hi Hw Hf H Hb Hr; [done|].
  destruct fuel as [|fuel]; [lia|]. cbn [varint_bytes] in Hbs. cbn [read_varint].
  rewrite (proj2 (Z.ltb_lt i w)) by lia.
  destruct (Z.leb_spec 0x80 v) as [Hge|Hlt].
  - destruct (varint_bytes room (Z.shiftr v 7)) as [bs'|] eqn:E; [|done]. cbn in Hbs.
    injection Hbs as <-. destruct (readFuint8_run s _ (bs' ++ rest) H Hb Hr) as (s1 & E1 & St1).
    step_with E1. destruct (ub_low7 v) as [E2 E3]. rewrite E2.
    assert (0 <= Z.land v 0x7F) by (apply Z.land_nonneg; lia).
    rewrite (proj2 (Z.ltb_ge _ _)), E3 by lia.
    destruct room as [|room]; [done|].
    destruct (IH fuel (i + 7) (Z.lor result (wrap w (Z.shiftl (Z.land v 0x7F) i)))
      (Z.shiftr v 7) bs' s1) as (s' & E' & St'); try done; try lia.
    + apply Z.shiftr_nonneg. lia.
    + apply St1.
    + by rewrite (st_base _ _ _ St1).
    + apply St1.
    + exists s'. split; [|by eapply stepped_trans].
      rewrite E', <- Z.lor_assoc, varint_join by lia. done.
  - injection Hbs as <-. destruct (readFuint8_run s _ rest H Hb Hr) as (s1 & E1 & St1).
    exists s1. split; [|done]. step_with E1. rewrite ub_bz, Z.mod_small by lia.
    by rewrite (proj2 (Z.ltb_lt v 0x80)) by lia.
Qed.

Definition varint_image (room : nat) (_ v : Z) : bytes := default [] (varint_bytes room v).

Lemma varint_writes room v s :
  0 <= v < 2 ^ (7 * Z.of_nat room) -> (0 < room)%nat ->
  write_varint room v s = write (varint_image room (m_endian s) v) s.
Proof.
  intros Hv Hr. destruct (varint_bytes_total room v Hv Hr) as (bs & E & _).
  unfold write_varint, varint_image. by rewrite E.
Qed.

Lemma varint_reads room w v s rest :
  in_u w v -> 0 <= w -> w <= 7 * Z.of_nat room < w + 7 -> (0 < room)%nat ->
  wf s -> m_baseSize s = 1 -> remaining s = varint_image room (m_endian s) v ++ rest ->
  exists s', read_varint w (room + 1) 0 0 s = Ret v s' /\ stepped s s' rest.
Proof.
  intros Hv Hw Hr H0 H Hb Hrem. unfold in_u in Hv.
  assert (Hv' : 0 <= v < 2 ^ (7 * Z.of_nat room)).
  { split; [lia|]. eapply Z.lt_le_trans; [apply Hv|]. apply Z.pow_le_mono_r; lia. }
  destruct (varint_bytes_total room v Hv' H0) as (bs & E & _).
  unfold varint_image in Hrem. rewrite E in Hrem. cbn in Hrem.
  destruct (read_varint_spec room w (room + 1) 0 0 v bs s rest) as (s' & E' & St); try done || lia.
  exists s'. split; [|done]. by rewrite E', Z.lor_0_l, Z.shiftl_0_r, wrap_small.
Qed.

#[export, program] Instance Format_uint32 : Format (in_u 32) writeUint32 readUint32 :=
  {| fmt := varint_image 5 |}.
Next Obligation.
  intros s a H Ha Hf. apply writes_of; [|done..]. apply varint_writes; [|lia].
  unfold in_u in Ha. lia.
Qed.
Next Obligation. intros. apply (varint_reads 5); done || lia. Qed.

#[export, program] Instance Format_uint64 : Format (in_u 64) writeUint64 readUint64 :=
  {| fmt := varint_image 10 |}.
Next Obligation.
  intros s a H Ha Hf. apply writes_of; [|done..]. apply varint_writes; [|lia].
  unfold in_u in Ha. lia.
Qed.
Next Obligation. intros. apply (varint_reads 10); done || lia. Qed.
End codec.

(** ** Zigzag *)

(** Both encoders shift by 31: on 32-bit values that is the sign. *)
Lemma shiftr_sign v : in_s 32 v -> Z.shiftr v 31 = if v <? 0 then -1 else 0.
Proof.
  unfold in_s. intros H. rewrite Z.shiftr_div_pow2 by lia. symmetry.
  case_cmp; [apply (Z.div_unique _ _ _ (v + 2 ^ 31))|apply (Z.div_unique _ _ _ v)]; lia.
Qed.

Definition zigzag (v : Z) : Z := if v <? 0 then -2 * v - 1 else 2 * v.

Lemma zigzag_enc w v : 32 <= w -> in_s 32 v ->
  wrap w (Z.lxor (swrap w (Z.shiftl v 1)) (Z.shiftr v 31)) = zigzag v.
Proof.
  intros Hw H. rewrite shiftr_sign by done. rewrite Z.shiftl_mul_pow2 by lia.
  assert (Hp : 2 ^ 32 <= 2 ^ w) by (apply Z.pow_le_mono_r; lia).
  unfold zigzag, in_s in *. destruct (Z.ltb_spec v 0).
  - rewrite Z.lxor_m1_r. unfold Z.lnot, Z.pred.
    replace (- swrap w (v * 2 ^ 1) + -1) with (-1 - swrap w (v * 2 ^ 1)) by lia.
    unfold wrap at 1. rewrite Zminus_mod. change (swrap _ _ mod _) with (wrap w (swrap w (v * 2 ^ 1))).
    rewrite wrap_swrap by lia. unfold wrap. rewrite <- Zminus_mod. rewrite Z.mod_small; lia.
  - rewrite Z.lxor_0_r, wrap_swrap by lia. rewrite wrap_small; unfold in_u; lia.
Qed.

Lemma zigzag_dec w v : 32 <= w -> in_s 32 v ->
  swrap w (Z.lxor (Z.shiftr (zigzag v) 1) (wrap w (- Z.land (zigzag v) 1))) = v.
Proof.
  intros Hw H. assert (Hp : 2 ^ 32 <= 2 ^ w) by (apply Z.pow_le_mono_r; lia).
  assert (Hp' : 2 ^ 31 <= 2 ^ (w - 1)) by (apply Z.pow_le_mono_r; lia).
  rewrite (Z.land_ones _ 1), Z.shiftr_div_pow2 by lia.
  unfold zigzag, in_s in *. destruct (Z.ltb_spec v 0).
  - replace ((-2 * v - 1) mod 2 ^ 1) with 1 by (apply (Z.mod_unique _ _ (- v - 1)); lia).
    replace ((-2 * v - 1) / 2 ^ 1) with (- v - 1) by (apply (Z.div_unique _ _ _ 1); lia).
    replace (wrap w (- (1))) with (Z.ones w)
      by (rewrite Z.ones_equiv; unfold wrap, Z.pred; rewrite <- (Z_mod_plus_full _ 1), Z.mod_small; lia).
    assert (E : Z.lxor (- v - 1) (Z.ones w) = wrap w v).
    { apply Z.bits_inj'. intros n Hn. unfold wrap.
      rewrite <- Z.land_ones, Z.lxor_spec, Z.land_spec by lia.
      replace (- v - 1) with (Z.lnot v) by (unfold Z.lnot; lia). rewrite Z.lnot_spec by lia.
      destruct (Z.lt_ge_cases n w).
      - rewrite Z.ones_spec_low by lia. by destruct (Z.testbit v n).
      - rewrite Z.ones_spec_high by lia.
        rewrite <- Z.lnot_spec, andb_false_r, xorb_false_r by lia.
        apply (Z.testbit_false (Z.lnot v)); [lia|]. rewrite Z.div_small; [done|].
        unfold Z.lnot. assert (2 ^ w <= 2 ^ n) by (apply Z.pow_le_mono_r; lia). lia. }
    rewrite E, swrap_wrap by lia. apply swrap_small; unfold in_s; lia.
  - replace ((2 * v) mod 2 ^ 1) with 0 by (apply (Z.mod_unique _ _ v); lia).
    replace (2 * v / 2 ^ 1) with v by (apply (Z.div_unique _ _ _ 0); lia).
    change (wrap w (- 0)) with (0 mod 2 ^ w). rewrite Z.mod_0_l, Z.lxor_0_r by lia.
    apply swrap_small; unfold in_s; lia.
Qed.

Lemma zigzag_range v : in_s 32 v -> in_u 32 (zigzag v).
Proof. unfold in_s, in_u, zigzag. intros. case_cmp; lia. Qed.

(** The 32-bit zigzag code is a bijection onto [uint32_t]'s values that
    decodes to what was encoded, for every [int32_t]. *)
Theorem zigzag32_roundtrip v :
  in_s 32 v -> in_u 32 (EncodeZigzag32 v) /\ DecodeZigzag32 (EncodeZigzag32 v) = v.
Proof.
  intros H. unfold EncodeZigzag32, DecodeZigzag32. rewrite zigzag_enc by (done || lia).
  split; [by apply zigzag_range|by apply zigzag_dec].
Qed.

(** The bits an encoding with the wrong shift decodes to. *)
Lemma zigzag64_bits v i : in_s 64 v -> 0 <= i < 64 ->
  Z.testbit (DecodeZigzag64 (EncodeZigzag64 v)) i
  = xorb (if i <? 63 then xorb (Z.testbit v i) (Z.testbit v (i + 32)) else false)
         (Z.testbit v 31).
Proof.
  intros Hv Hi. unfold DecodeZigzag64.
  set (n := EncodeZigzag64 v).
  assert (Hb : forall j, 0 <= j < 64 -> Z.testbit n j
     = xorb (if j <? 1 then false else Z.testbit v (j - 1)) (Z.testbit v (j + 31))).
  { intros j Hj. unfold n, EncodeZigzag64, wrap, swrap.
    rewrite Z.mod_pow2_bits_low, Z.lxor_spec, Z.shiftr_spec by lia. f_equal.
    rewrite <- (Z.mod_pow2_bits_low _ 64 j) by lia.
    rewrite Zminus_mod_idemp_l, Z.add_simpl_r, Z.mod_pow2_bits_low, Z.shiftl_spec by lia.
    case_cmp; [apply Z.testbit_neg_r; lia|done]. }
  assert (H0 : Z.testbit n 0 = Z.testbit v 31) by (rewrite Hb by lia; done).
  assert (Hn : 0 <= n < 2 ^ 64) by (apply wrap_range; lia).
  assert (Hm : wrap 64 (- Z.land n 1) = if Z.testbit v 31 then Z.ones 64 else 0).
  { rewrite <- H0. change (Z.land n 1) with (Z.land n (Z.ones 1)).
    rewrite Z.land_ones, <- Z.bit0_mod by lia. by destruct (Z.testbit n 0). }
  rewrite Hm. unfold swrap. rewrite <- (Z.mod_pow2_bits_low _ 64 i) by lia.
  rewrite Zminus_mod_idemp_l, Z.add_simpl_r, Z.mod_pow2_bits_low, Z.lxor_spec, Z.shiftr_spec by lia.
  f_equal.
  - destruct (Z.ltb_spec i 63).
    + rewrite Hb by lia. rewrite (proj2 (Z.ltb_ge _ _)) by lia. f_equal; f_equal; lia.
    + replace (i + 1) with 64 by lia. rewrite <- (Z.mod_small n (2 ^ 64)) by lia.
      apply Z.mod_pow2_bits_high. lia.
  - destruct (Z.testbit v 31); [apply Z.ones_spec_low; lia|apply Z.testbit_0_l].
Qed.

Lemma testbit_sign k v i : - 2 ^ k <= v < 2 ^ k -> 0 <= k <= i -> Z.testbit v i = (v <? 0).
Proof.
  intros Hv Hi. assert (2 ^ k <= 2 ^ i) by (apply Z.pow_le_mono_r; lia).
  rewrite Z.testbit_odd, Z.shiftr_div_pow2 by lia. case_cmp.
  - replace (v / 2 ^ i) with (-1); [done|]. apply (Z.div_unique _ _ _ (v + 2 ^ i)); lia.
  - by rewrite Z.div_small by lia.
Qed.

(** C4: the 64-bit zigzag code shifts by 31 instead of 63: it decodes to what
    was encoded exactly on the [int32_t] values. *)
Theorem zigzag64_roundtrip_iff v :
  in_s 64 v -> DecodeZigzag64 (EncodeZigzag64 v) = v <-> in_s 32 v.
Proof.
  intros Hv. split.
  - intros E.
    assert (Hk : forall i, 0 <= i -> Z.testbit (Z.shiftr v 31) i = Z.testbit v 31).
    { assert (Hlow : forall i, 0 <= i < 63 -> Z.testbit v (i + 32) = Z.testbit v 31).
      { intros i Hi. pose proof (zigzag64_bits v i Hv ltac:(lia)) as B. rewrite E in B.
        rewrite (proj2 (Z.ltb_lt i 63)) in B by lia.
        destruct (Z.testbit v i), (Z.testbit v (i + 32)), (Z.testbit v 31); done. }
      intros i Hi. rewrite Z.shiftr_spec by lia.
      destruct (Z.eq_dec i 0) as [->|]; [done|].
      destruct (Z.lt_ge_cases i 64).
      - replace (i + 31) with (i - 1 + 32) by lia. apply Hlow. lia.
      - rewrite (testbit_sign 63 v (i + 31)), <- (testbit_sign 63 v (62 + 32)) by (done || lia).
        apply Hlow. lia. }
    assert (Hs : Z.shiftr v 31 = if Z.testbit v 31 then -1 else 0).
    { apply Z.bits_inj'. intros n Hn. rewrite Hk by lia.
      destruct (Z.testbit v 31); [by rewrite Z.bits_m1 by lia|by rewrite Z.bits_0]. }
    rewrite Z.shiftr_div_pow2 in Hs by lia. unfold in_s.
    pose proof (Z.div_mod v (2 ^ 31) ltac:(lia)). pose proof (Z.mod_pos_bound v (2 ^ 31) ltac:(lia)).
    destruct (Z.testbit v 31); lia.
  - intros H. unfold EncodeZigzag64, DecodeZigzag64. rewrite zigzag_enc by (done || lia).
    apply zigzag_dec; [lia|done].
Qed.

Section roundtrip.
Context {host : Host} {un : Uninit}.

(** ** Signed varints: the domain of the 64-bit one is that of its zigzag *)

#[export, program] Instance Format_sint32 : Format (in_s 32) writeInt32 readInt32 :=
  {| fmt e v := fmt (rd := readUint32) e (zigzag v) |}.
Next Obligation.
  intros s a H Ha Hf. unfold writeInt32, EncodeZigzag32. rewrite zigzag_enc by (done || lia).
  apply (fmt_writes (rd := readUint32)); [done|by apply zigzag_range|done].
Qed.
Next Obligation.
  intros s a rest H Hb Ha Hr.
  destruct (fmt_reads (rd := readUint32) s (zigzag a) rest) as (s' & E & St);
    [done..|by apply zigzag_range|done|].
  exists s'. split; [|done]. unfold readInt32. step_with E. unfold mret, M_ret, DecodeZigzag32.
  by rewrite zigzag_dec by (done || lia).
Qed.

Lemma zigzag_range64 v : in_s 32 v -> in_u 64 (zigzag v).
Proof. intros H. apply zigzag_range in H. unfold in_u in *. lia. Qed.

#[export, program] Instance Format_sint64 : Format (in_s 32) writeInt64 readInt64 :=
  {| fmt e v := fmt (rd := readUint64) e (zigzag v) |}.
Next Obligation.
  intros s a H Ha Hf. unfold writeInt64, EncodeZigzag64. rewrite zigzag_enc by (done || lia).
  apply (fmt_writes (rd := readUint64)); [done|by apply zigzag_range64|done].
Qed.
Next Obligation.
  intros s a rest H Hb Ha Hr.
  destruct (fmt_reads (rd := readUint64) s (zigzag a) rest) as (s' & E & St);
    [done..|by apply zigzag_range64|done|].
  exists s'. split; [|done]. unfold readInt64. step_with E. unfold mret, M_ret, DecodeZigzag64.
  by rewrite zigzag_dec by (done || lia).
Qed.

(** ** Length-prefixed strings *)

(** Written through the signed type and read through the unsigned one. *)
Lemma wire_cast t e v : wire t e (cast t v) = wire t e v.
Proof. unfold wire. by rewrite le_bytes_cast. Qed.

Lemma wire_sizeof t t' e v : sizeof t = sizeof t' -> wire t e v = wire t' e v.
Proof. unfold wire. by intros ->. Qed.

(** Non-empty strings whose length the prefix of type [t] can hold. *)
Definition string_ok (t : ity) (a : bytes) : Prop := a <> [] /\ in_range t (zlen a).
Definition string_image (t : ity) (e : Z) (a : bytes) : bytes := wire t e (zlen a) ++ a.

Lemma overwrite_twice {A} p (xs ys l : list A) : 0 <= p <= zlen l ->
  overwrite (p + zlen xs) ys (overwrite p xs l) = overwrite p (xs ++ ys) l.
Proof.
  intros Hp. pose proof (zlen_nonneg xs). pose proof (zlen_nonneg ys).
  assert (Hl : zlen (ztake p l) = p) by (apply zlen_ztake; lia).
  unfold overwrite. rewrite !app_assoc.
  rewrite (ztake_app_le _ (ztake p l ++ xs)) by (rewrite zlen_app; lia).
  rewrite ztake_all by (rewrite zlen_app; lia).
  rewrite zdrop_app_ge by (rewrite zlen_app; lia).
  rewrite !zlen_app, Hl, zdrop_zdrop by lia. do 2 f_equal. lia.
Qed.

Lemma spec_write_app b xs ys : 0 <= b_pos b <= zlen (b_data b) ->
  spec_write ys (spec_write xs b) = spec_write (xs ++ ys) b.
Proof.
  intros H. unfold spec_write; cbn. rewrite overwrite_twice by done. f_equal.
  rewrite zlen_app. lia.
Qed.

Lemma abs_bounds s : wf s -> 0 <= b_pos (abs s) <= zlen (b_data (abs s)).
Proof. intros H. cbn. rewrite data_zlen by done. apply (wf_pos s H). Qed.

Lemma string_writes t t' a s :
  sizeof t' = sizeof t -> wf s ->
  m_position s + zlen (string_image t (m_endian s) a) + m_baseSize s < 2 ^ 64 ->
  exists s', (writeF t' (cast t' (zlen a));; write a) s = Ret tt s' /\ wf s'
    /\ abs s' = spec_write (string_image t (m_endian s) a) (abs s)
    /\ m_baseSize s' = m_baseSize s /\ m_endian s' = m_endian s.
Proof.
  intros Ht H Hf. unfold string_image in *. rewrite zlen_app in Hf.
  pose proof (zlen_nonneg a). set (w := wire t (m_endian s) (zlen a)) in *.
  destruct (write_abs s w) as (s1 & E1 & H1 & A1 & B1 & C1 & D1 & _); [done|lia|].
  destruct (write_abs s1 a) as (s2 & E2 & H2 & A2 & B2 & C2 & _); [done|lia|].
  exists s2. split_and!; [|done| |congruence..].
  - assert (Ew : writeF t' (cast t' (zlen a)) s = Ret tt s1).
    { rewrite writeF_wire, wire_cast, (wire_sizeof t' t) by done. exact E1. }
    by step_with Ew.
  - rewrite A2, A1. apply spec_write_app, abs_bounds, H.
Qed.

Lemma string_reads t s a rest :
  wf s -> m_baseSize s = 1 -> string_ok t a ->
  remaining s = string_image t (m_endian s) a ++ rest ->
  exists s', (len ← readF t; read len) s = Ret a s' /\ stepped s s' rest.
Proof.
  intros H Hb [Hne Hr] Hrem. unfold string_image in Hrem. rewrite <- app_assoc in Hrem.
  destruct (readF_wire t (zlen a) s (a ++ rest) H Hb Hr Hrem) as (s1 & E1 & St1).
  destruct (read_bytewise s1 a rest) as (s2 & E2 & St2);
    [apply St1|rewrite (st_base _ _ _ St1); done|done|apply St1|].
  exists s2. split; [by step_with E1|by eapply stepped_trans].
Qed.

#[export, program] Instance Format_string16 :
  Format (string_ok uint16_t) writeStringF16 readStringF16 := {| fmt := string_image uint16_t |}.
Next Obligation. intros. by apply string_writes. Qed.
Next Obligation. intros. by apply string_reads. Qed.

#[export, program] Instance Format_string32 :
  Format (string_ok uint32_t) writeStringF32 readStringF32 := {| fmt := string_image uint32_t |}.
Next Obligation. intros. by apply string_writes. Qed.
Next Obligation. intros. by apply string_reads. Qed.

#[export, program] Instance Format_string64 :
  Format (string_ok uint64_t) writeStringF64 readStringF64 := {| fmt := string_image uint64_t |}.
Next Obligation. intros. by apply string_writes. Qed.
Next Obligation. intros. by apply string_reads. Qed.

(** ** Sequences of values of any formats *)

Inductive item :=
| Int8 (v : Z) | Uint8 (v : Z) | Fixed (t : ity) (v : Z)
| VarU32 (v : Z) | VarU64 (v : Z) | VarS32 (v : Z) | VarS64 (v : Z)
| Str16 (a : bytes) | Str32 (a : bytes) | Str64 (a : bytes).

Definition item_ok (x : item) : Prop :=
  match x with
  | Int8 v => in_range int8_t v | Uint8 v => in_range uint8_t v
  | Fixed t v => in_range t v
  | VarU32 v => in_u 32 v | VarU64 v => in_u 64 v
  | VarS32 v | VarS64 v => in_s 32 v
  | Str16 a => string_ok uint16_t a | Str32 a => string_ok uint32_t a
  | Str64 a => string_ok uint64_t a
  end.

Definition write_item (x : item) : M ByteArray unit :=
  match x with
  | Int8 v => writeFint8 v | Uint8 v => writeFuint8 v | Fixed t v => writeF t v
  | VarU32 v => writeUint32 v | VarU64 v => writeUint64 v
  | VarS32 v => writeInt32 v | VarS64 v => writeInt64 v
  | Str16 a => writeStringF16 a | Str32 a => writeStringF32 a | Str64 a => writeStringF64 a
  end.

(** Reads a value of the same format as [x]. *)
Definition read_item (x : item) : M ByteArray item :=
  match x with
  | Int8 _ => v ← readFint8; mret (Int8 v) | Uint8 _ => v ← readFuint8; mret (Uint8 v)
  | Fixed t _ => v ← readF t; mret (Fixed t v)
  | VarU32 _ => v ← readUint32; mret (VarU32 v) | VarU64 _ => v ← readUint64; mret (VarU64 v)
  | VarS32 _ => v ← readInt32; mret (VarS32 v) | VarS64 _ => v ← readInt64; mret (VarS64 v)
  | Str16 _ => a ← readStringF16; mret (Str16 a)
  | Str32 _ => a ← readStringF32; mret (Str32 a)
  | Str64 _ => a ← readStringF64; mret (Str64 a)
  end.

Definition item_image (e : Z) (x : item) : bytes :=
  match x with
  | Int8 v => fmt (rd := readFint8) e v | Uint8 v => fmt (rd := readFuint8) e v
  | Fixed t v => fmt (rd := readF t) e v
  | VarU32 v => fmt (rd := readUint32) e v | VarU64 v => fmt (rd := readUint64) e v
  | VarS32 v => fmt (rd := readInt32) e v | VarS64 v => fmt (rd := readInt64) e v
  | Str16 a => fmt (rd := readStringF16) e a | Str32 a => fmt (rd := readStringF32) e a
  | Str64 a => fmt (rd := readStringF64) e a
  end.

Lemma map_reads {A B} (rd : M ByteArray A) (f : A -> B) s a rest :
  (exists s', rd s = Ret a s' /\ stepped s s' rest) ->
  exists s', (v ← rd; mret (f v)) s = Ret (f a) s' /\ stepped s s' rest.
Proof. intros (s' & E & St). exists s'. split; [by step_with E|done]. Qed.

#[export, program] Instance Format_item (x0 : item) :
  Format (fun x => x = x0 /\ item_ok x) write_item (read_item x0) := {| fmt := item_image |}.
Next Obligation.
  intros x0 s a H [_ Ha] Hf. destruct a; cbn [write_item item_image item_ok] in *;
    match goal with |- exists s', ?wr _ _ = _ /\ _ => by apply (fmt_writes (wr := wr)) end.
Qed.
Next Obligation.
  intros x0 s a rest H Hb [-> Ha] Hr. destruct x0; cbn [read_item item_image item_ok] in *;
    apply map_reads;
    match goal with |- exists s', ?rd _ = _ /\ _ => by apply (fmt_reads (rd := rd)) end.
Qed.

Fixpoint write_items (l : list item) : M ByteArray unit :=
  match l with [] => mret tt | x :: l => write_item x;; write_items l end.
Fixpoint read_items (l : list item) : M ByteArray (list item) :=
  match l with [] => mret [] | x :: l => y ← read_item x; ys ← read_items l; mret (y :: ys) end.
Definition items_image (e : Z) (l : list item) : bytes := l ≫= item_image e.

Lemma write_items_spec l s : wf s -> Forall item_ok l ->
  m_position s + zlen (items_image (m_endian s) l) + m_baseSize s < 2 ^ 64 ->
  exists s', write_items l s = Ret tt s' /\ wf s'
    /\ abs s' = spec_write (items_image (m_endian s) l) (abs s)
    /\ m_baseSize s' = m_baseSize s /\ m_endian s' = m_endian s.
Proof.
  intros H Hl. revert s H. induction Hl as [|x l Hx Hl IH]; intros s H Hf.
  { exists s. split_and!; try done. unfold spec_write; cbn [items_image mbind list_bind].
    rewrite overwrite_nil, zlen_nil, Z.add_0_r. by destruct (abs s). }
  cbn [items_image mbind list_bind] in *. rewrite zlen_app in Hf.
  change (l ≫= item_image (m_endian s)) with (items_image (m_endian s) l) in *.
  pose proof (zlen_nonneg (items_image (m_endian s) l)).
  destruct (fmt_writes (rd := read_item x) s x) as (s1 & E1 & H1 & A1 & B1 & C1); [done..| |].
  { change (m_position s + zlen (item_image (m_endian s) x) + m_baseSize s < 2 ^ 64). lia. }
  assert (Hp : m_position s1 = m_position s + zlen (item_image (m_endian s) x))
    by exact (f_equal b_pos A1).
  destruct (IH s1 H1) as (s2 & E2 & H2 & A2 & B2 & C2).
  { rewrite C1, B1, Hp. lia. }
  exists s2. split_and!; [|done| |congruence..].
  - cbn [write_items]. by step_with E1.
  - rewrite A2, A1, C1. apply spec_write_app, abs_bounds, H.
Qed.

Lemma read_items_spec l s rest : wf s -> m_baseSize s = 1 -> Forall item_ok l ->
  remaining s = items_image (m_endian s) l ++ rest ->
  exists s', read_items l s = Ret l s' /\ stepped s s' rest.
Proof.
  intros H Hb Hl. revert s H Hb. induction Hl as [|x l Hx Hl IH]; intros s H Hb Hr.
  { exists s. split; [done|]. cbn in Hr. rewrite <- Hr. by apply stepped_refl. }
  cbn [items_image mbind list_bind] in Hr. rewrite <- app_assoc in Hr.
  destruct (fmt_reads (rd := read_item x) s x (items_image (m_endian s) l ++ rest)) as (s1 & E1 & St1);
    [done..|].
  destruct (IH s1) as (s2 & E2 & St2); [apply St1|by rewrite (st_base _ _ _ St1)| |].
  { rewrite (st_endian _ _ _ St1). apply St1. }
  exists s2. split; [|by eapply stepped_trans].
  cbn [read_items]. step_with E1. by step_with E2.
Qed.

(** C2: on arrays of one-byte blocks, writing any sequence of integers of all
    formats (those of writeInt64 within 32 bits, see [zigzag64_roundtrip_iff]) and of
    non-empty strings with a fixed-width length that holds theirs (writeStringF16, F32
    and F64, not writeStringVint) at the end, seeking back and reading values of the
    same formats gives the same sequence and leaves nothing to read. *)
Theorem items_roundtrip s l :
  wf s -> m_baseSize s = 1 -> m_position s = m_size s -> Forall item_ok l ->
  m_size s + zlen (items_image (m_endian s) l) + 1 < 2 ^ 64 ->
  exists s1 s2 s3, write_items l s = Ret tt s1
    /\ setPosition (m_position s) s1 = Ret tt s2
    /\ read_items l s2 = Ret l s3 /\ wf s3 /\ getReadSize s3 = 0.
Proof.
  intros H Hb Hp Hl Hf.
  destruct (write_items_spec l s H Hl) as (s1 & E1 & H1 & A1 & B1 & C1); [lia|].
  set (im := items_image (m_endian s) l) in *. pose proof (zlen_nonneg im).
  assert (Hp1 : m_position s1 = m_size s + zlen im) by (rewrite <- Hp; exact (f_equal b_pos A1)).
  assert (Hd1 : data s1 = data s ++ im).
  { assert (E : data s1 = overwrite (m_position s) im (data s)) by exact (f_equal b_data A1).
    rewrite E, Hp. unfold overwrite. rewrite ztake_all, zdrop_all, app_nil_r;
      [done|rewrite data_zlen by done; lia..]. }
  assert (Hz1 : m_size s1 = m_size s + zlen im)
    by (rewrite <- (data_zlen s1), Hd1, zlen_app, data_zlen by done; done).
  pose proof (wf_size s1 H1). pose proof (wf_pos s H).
  destruct (setPosition_spec s1 (m_position s)) as [E2 Hw2]; [apply H1|lia|apply H1|lia|].
  set (s2 := set_cur _ _) in *.
  assert (Hd2 : remaining s2 = im ++ []).
  { unfold remaining, data. cbn [m_position m_size s2 set_cur set_size set_position].
    rewrite Z.max_l by lia. change (contents s2) with (contents s1). fold (data s1).
    rewrite Hd1, zdrop_app_ge by (rewrite data_zlen by done; lia).
    rewrite data_zlen, Hp, Z.sub_diag by done. by rewrite app_nil_r. }
  destruct (read_items_spec l s2 [] Hw2) as (s3 & E3 & St3); try done.
  { cbn. congruence. }
  { change (m_endian s2) with (m_endian s1). by rewrite C1. }
  exists s1, s2, s3. split_and!; [done..|apply St3|].
  rewrite getReadSize_val, <- remaining_zlen by apply St3.
  by rewrite (st_rest _ _ _ St3).
Qed.
End roundtrip.

(** ** Instances of the theorems *)

Example zigzag32_roundtrip_witness :
  in_u 32 (EncodeZigzag32 (-2147483648)) /\ DecodeZigzag32 (EncodeZigzag32 (-2147483648)) = -2147483648.
Proof. apply (zigzag32_roundtrip (-2147483648)). cbv; done. Defined.

Example zigzag64_roundtrip_iff_witness :
  DecodeZigzag64 (EncodeZigzag64 2147483648) = 2147483648 <-> in_s 32 2147483648.
Proof. apply (zigzag64_roundtrip_iff 2147483648). cbv; done. Defined.

Definition demo_items : list item :=
  [Int8 (-1); Fixed uint64_t 5; VarU32 300; VarS32 (-7); VarU64 (2 ^ 63); VarS64 (-300);
   Str16 (list_ascii_of_string "hi"); Str64 (list_ascii_of_string "x")].

Example items_roundtrip_witness :
  exists s1 s2 s3, write_items (host := x86) (un := zeroed) demo_items (ByteArray_new (un := zeroed) 1) = Ret tt s1
    /\ setPosition 0 s1 = Ret tt s2
    /\ read_items (host := x86) demo_items s2 = Ret demo_items s3 /\ wf s3 /\ getReadSize s3 = 0.
Proof.
  apply (items_roundtrip (host := x86) (un := zeroed) (ByteArray_new (un := zeroed) 1) demo_items).
  - apply wf_new; lia.
  - reflexivity.
  - reflexivity.
  - repeat constructor; cbv; done.
  - vm_compute. reflexivity.
Defined.
