(* ===== verification/ByteArrayIO.v ===== *)
(** ByteArray against files and sockets: toString, writeToFile, readFromFile,
    the scatter/gather views, and the writer/reader pairs that disagree. *)
From S2P Require Import Prelude Endian ByteArray ByteArraySpec ByteArrayThms ByteArrayCodec.

Section io.
Context {host : Host} {un : Uninit}.

(** Any fixed-width integer written at a position is read back from it,
    whatever the block size, the array's byte order and the host's. *)
Theorem fixed_roundtrip t v s :
  wf s -> in_range t v -> m_position s + 8 + m_baseSize s < 2 ^ 64 ->
  exists s1 s2 s3, writeF t v s = Ret tt s1
    /\ setPosition (m_position s) s1 = Ret tt s2 /\ readF t s2 = Ret v s3.
Proof.
  intros H Hv Hf. pose proof (wire_zlen t (m_endian s) v) as Hl.
  assert (Hn : 1 <= Z.of_nat (sizeof t) <= 8) by (destruct t; cbn; lia).
  pose proof (wf_pos s H) as Hps. pose proof (wf_size s H) as Hsz.
  destruct (write_abs s (wire t (m_endian s) v)) as (s1 & E1 & H1 & A1 & B1 & C1 & D1 & F1);
    [done|lia|]. rewrite <- writeF_wire in E1 by done.
  pose proof (wf_size s1 H1) as Hsz1.
  destruct (setPosition_spec s1 (m_position s)) as [E2 Hw2]; [apply H1|lia|apply H1|lia|].
  set (s2 := set_cur _ _) in *. rewrite Hl in *.
  assert (P2 : m_position s2 = m_position s) by done.
  assert (Z2 : m_size s2 = m_size s1) by (cbn; lia).
  assert (D2 : data s2 = data s1) by (unfold data; by rewrite Z2).
  exists s1, s2. eexists. split_and!; [done..|]. unfold readF.
  erewrite bind_Ret by (apply read_abs; [done|lia]). mstep. unfold mret, M_ret.
  assert (Es : slice (m_position s2) (Z.of_nat (sizeof t)) (data s2) = wire t (m_endian s) v).
  { rewrite P2, D2. change (data s1) with (b_data (abs s1)). rewrite A1, <- Hl. cbn.
    unfold slice, overwrite. assert (zlen (data s) = m_size s) by by apply data_zlen.
    rewrite zdrop_app_ge, zlen_ztake, Z.sub_diag by (rewrite ?zlen_ztake; lia).
    rewrite zdrop_0, ztake_app_le, ztake_all by lia. done. }
  rewrite Es. change (m_endian (after_read s2 _)) with (m_endian s1).
  rewrite C1, unrepr_wire by (done || apply H). done.
Qed.

(** The bytes a fixed-width writer stores depend only on the array's
    declared byte order, never on the host's. *)
Theorem wire_host_independent (h1 h2 : Host) t v s :
  wf s -> writeF (host := h1) t v s = writeF (host := h2) t v s.
Proof. intros H. by rewrite !writeF_wire. Qed.

(** ** toString and files *)

Lemma toString_run s : wf s -> toString s = Ret (remaining s) s.
Proof.
  intros H. pose proof (wf_pos s H) as Hps. pose proof (wf_size s H) as Hsz.
  unfold toString. mstep. rewrite getReadSize_val by done. case_cmp.
  - rewrite (zlen_0 (remaining s)); [done|]. rewrite remaining_zlen; done.
  - rewrite read_at_spec by (done || lia). rewrite <- slice_data by (done || lia).
    unfold slice. fold (remaining s). rewrite ztake_all; [done|].
    rewrite remaining_zlen by done. lia.
Qed.

(** [toString] returns exactly the bytes from the position to the end of
    the data and leaves the object as it was. *)
Theorem toString_spec s :
  wf s -> toString s = Ret (zdrop (m_position s) (data s)) s.
Proof. apply toString_run. Qed.

Lemma writeToFile_loop_spec fuel s i npos n :
  shape s -> m_capacity s < 2 ^ 63 -> m_baseSize s < 2 ^ 31 ->
  (i < length (m_nodes s))%nat -> 0 <= npos < m_baseSize s -> 0 <= n ->
  m_baseSize s * Z.of_nat i + npos + n <= m_capacity s ->
  (length (m_nodes s) - i + 1 <= fuel)%nat ->
  writeToFile_loop fuel (Some i) (m_baseSize s * Z.of_nat i + npos) n s
  = Ret (slice (m_baseSize s * Z.of_nat i + npos) n (contents s)) s.
Proof.
  intros H Hc Hb. revert i npos n. induction fuel as [|fuel IH]; intros i npos n Hi Hn Hn0 Hcap Hf; [lia|].
  cbn [writeToFile_loop]. destruct (Z.ltb_spec 0 n) as [Hpos|Hpos]; [|by replace n with 0 by lia].
  pose proof (shape_base s H) as Hb0. mstep.
  assert (0 <= m_baseSize s * Z.of_nat i) by nia.
  rewrite (wrap_small 64) by (unfold in_u; lia). step_with (mod_base_run s (m_baseSize s * Z.of_nat i + npos) Hb0).
  assert (Hm : (m_baseSize s * Z.of_nat i + npos) mod m_baseSize s = npos)
    by (rewrite Z.add_comm, Z.mul_comm, Z_mod_plus_full; by apply Z.mod_small).
  rewrite Hm, (swrap_small 32 npos), (swrap_small 64 (m_baseSize s)), (swrap_small 64 (_ - npos)) by (unfold in_s; lia).
  destruct (lookup_lt_is_Some_2 _ _ Hi) as [nd Hnd].
  assert (Hok : node_ok (m_baseSize s) nd) by (eapply Forall_lookup_1; [apply H|done]).
  step_with (deref_at s i nd Hnd). cbv beta iota.
  destruct (Z.ltb_spec (m_baseSize s) (n + npos)) as [Hgt|Hle].
  - set (k := m_baseSize s - npos) in *. assert (Hk : k = m_baseSize s - npos) by done.
    step_with (memcpy_from_spec s i nd npos k H Hnd Hok ltac:(lia) ltac:(lia) ltac:(lia)).
    rewrite (proj2 (Z.eqb_eq _ _)) by lia.
    assert (Hi' : (S i < length (m_nodes s))%nat).
    { pose proof (shape_cap s H). unfold zlen in *. nia. }
    rewrite next_of_some by done.
    assert (E := IH (S i) 0 (n - k) Hi' ltac:(lia) ltac:(lia) ltac:(nia) ltac:(lia)).
    rewrite Nat2Z.inj_succ in E.
    replace (m_baseSize s * Z.succ (Z.of_nat i) + 0) with (m_baseSize s * Z.of_nat i + npos + k) in E by lia.
    step_with E. unfold mret, M_ret. f_equal. apply slice_split; lia.
  - step_with (memcpy_from_spec s i nd npos n H Hnd Hok ltac:(lia) ltac:(lia) ltac:(lia)).
    destruct fuel; [lia|]. rewrite Z.sub_diag. mstep. unfold mret, M_ret. by rewrite app_nil_r.
Qed.

Lemma writeToFile_spec s : wf s -> m_capacity s < 2 ^ 63 -> m_baseSize s < 2 ^ 31 ->
  writeToFile true s = Ret (Some (remaining s)) s.
Proof.
  intros H Hc Hb. pose proof (wf_pos s H) as Hps. pose proof (wf_size s H) as Hsz.
  unfold writeToFile. mstep. rewrite getReadSize_val by done.
  rewrite !swrap_small by (unfold in_s; lia).
  assert (E : writeToFile_loop (length (m_nodes s) + 2) (m_cur s) (m_position s)
                (m_size s - m_position s) s = Ret (remaining s) s); [|by step_with E].
  destruct (Z.eq_dec (m_size s - m_position s) 0) as [E|E].
  - rewrite E, Nat.add_comm. cbn. rewrite (zlen_0 (remaining s)); [done|].
    rewrite remaining_zlen; done.
  - pose proof (wf_at_block s H ltac:(lia)) as Ha. rewrite (ab_cur _ _ _ Ha).
    pose proof (ab_pos _ _ _ Ha) as Hp.
    pose proof (writeToFile_loop_spec (length (m_nodes s) + 2) s _ _ (m_size s - m_position s)
      (wf_shape s H) Hc Hb (ab_lt _ _ _ Ha) (ab_npos _ _ _ Ha)) as E1.
    rewrite <- Hp in E1. rewrite E1 by lia. rewrite <- slice_data by (done || lia).
    unfold slice. fold (remaining s). rewrite ztake_all; [done|].
    rewrite remaining_zlen by done. lia.
Qed.

Lemma readFromFile_loop_spec fuel s file :
  wf s -> m_position s + zlen file + m_baseSize s < 2 ^ 64 ->
  (length file < fuel)%nat ->
  exists s', readFromFile_loop fuel file s = Ret tt s' /\ wf s'
    /\ abs s' = spec_write file (abs s) /\ m_baseSize s' = m_baseSize s
    /\ m_endian s' = m_endian s.
Proof.
  revert s file. induction fuel as [|fuel IH]; intros s file H Hf Hfuel; [lia|].
  cbn [readFromFile_loop]. mstep. pose proof (shape_base s H) as Hb.
  set (buff := ztake (m_baseSize s) file).
  assert (Hlen : zlen buff <= zlen file) by (unfold buff, zlen, ztake; rewrite length_take; lia).
  destruct (write_abs s buff) as (s1 & E1 & H1 & A1 & B1 & C1 & D1 & _); [done|lia|].
  step_with E1. destruct (Z.ltb_spec (zlen buff) (m_baseSize s)) as [Hlt|Hge].
  - exists s1. split_and!; try done. rewrite A1. f_equal.
    unfold buff in *. apply ztake_all. unfold zlen, ztake in *. rewrite length_take in Hlt. lia.
  - assert (Hbl : zlen buff = m_baseSize s).
    { unfold buff, zlen, ztake in *. rewrite length_take in *. lia. }
    assert (Hdrop : zlen (zdrop (m_baseSize s) file) = zlen file - m_baseSize s) by (apply zlen_zdrop; lia).
    destruct (IH s1 (zdrop (m_baseSize s) file)) as (s2 & E2 & H2 & A2 & B2 & C2);
      [done|lia|unfold zlen in *; lia|].
    exists s2. split_and!; try done || congruence.
    rewrite A2, A1, spec_write_app by by apply abs_bounds.
    unfold buff. by rewrite ztake_zdrop.
Qed.

(** What [writeToFile] puts in a file, [readFromFile] puts in any fresh
    array so that both arrays' [toString] agree, for all block sizes. *)
Theorem file_roundtrip s b :
  wf s -> m_capacity s < 2 ^ 63 -> m_baseSize s < 2 ^ 31 -> 0 < b < 2 ^ 63 ->
  exists file s1 s2, writeToFile true s = Ret (Some file) s
    /\ readFromFile (Some file) (ByteArray_new b) = Ret true s1
    /\ setPosition 0 s1 = Ret tt s2 /\ toString s = Ret file s /\ toString s2 = Ret file s2.
Proof.
  intros H Hc Hb Hb'. pose proof (wf_pos s H) as Hps. pose proof (wf_size s H) as Hsz.
  set (n := ByteArray_new b). assert (Hn : wf n) by (apply wf_new; lia).
  pose proof (remaining_zlen s H) as Hr. pose proof (zlen_nonneg (remaining s)) as Hz0.
  destruct (readFromFile_loop_spec (length (remaining s) + 1) n (remaining s)) as (s1 & E1 & H1 & A1 & _);
    [done|cbn; lia|lia|].
  pose proof (wf_size s1 H1) as Hsz1. pose proof (wf_pos s1 H1) as Hps1.
  destruct (setPosition_spec s1 0) as [E2 Hw2]; [apply H1|lia|apply H1|lia|].
  set (s2 := set_cur _ _) in *. exists (remaining s), s1, s2.
  rewrite writeToFile_spec, !toString_run by done. split_and!; try done.
  - unfold readFromFile. by step_with E1.
  - f_equal. unfold remaining at 1. change (m_position s2) with 0. rewrite zdrop_0.
    unfold data at 1. cbn [m_size s2 set_cur set_size set_position]. rewrite Z.max_l by lia.
    change (contents s2) with (contents s1). change (b_data (abs s1) = remaining s).
    rewrite A1. cbn. unfold data; cbn. unfold overwrite. rewrite !ztake_0.
    unfold zdrop. rewrite drop_nil. by rewrite app_nil_r.
Qed.

(** ** Scatter/gather views *)

(** The memory an iovec designates. *)
Definition iov_bytes (s : ByteArray) (v : iovec) : bytes :=
  slice (m_baseSize s * Z.of_nat (iov_node v) + iov_off v) (iov_len v) (contents s).
Definition iov_ok (s : ByteArray) (v : iovec) : Prop :=
  (iov_node v < length (m_nodes s))%nat /\ 0 <= iov_off v /\ 0 < iov_len v
  /\ iov_off v + iov_len v <= m_baseSize s.

(** Regions that follow each other from offset [p] of the contents to [p + n]. *)
Fixpoint chained (s : ByteArray) (p n : Z) (bufs : list iovec) : Prop :=
  match bufs with
  | [] => n = 0
  | v :: bufs => iov_ok s v /\ m_baseSize s * Z.of_nat (iov_node v) + iov_off v = p /\ chained s (p + iov_len v) (n - iov_len v) bufs
  end.

Lemma getWriteBuffers_loop_spec fuel s i npos n acc :
  shape s -> (i < length (m_nodes s))%nat -> 0 <= npos < m_baseSize s -> 0 <= n ->
  m_baseSize s * Z.of_nat i + npos + n <= m_capacity s ->
  (length (m_nodes s) - i + 1 <= fuel)%nat ->
  exists bufs, getWriteBuffers_loop fuel (Some i) npos (m_baseSize s - npos) n acc s
      = Ret (acc ++ bufs) s /\ Forall (iov_ok s) bufs
    /\ concat (map (iov_bytes s) bufs) = slice (m_baseSize s * Z.of_nat i + npos) n (contents s)
    /\ chained s (m_baseSize s * Z.of_nat i + npos) n bufs.
Proof.
  intros H. revert i npos n acc. induction fuel as [|fuel IH]; intros i npos n acc Hi Hn Hn0 Hcap Hf; [lia|].
  cbn [getWriteBuffers_loop]. destruct (Z.ltb_spec 0 n) as [Hpos|Hpos].
  2: { exists []. rewrite app_nil_r. replace n with 0 by lia. by split_and!. }
  destruct (lookup_lt_is_Some_2 _ _ Hi) as [nd Hnd].
  mstep. step_with (deref_at s i nd Hnd). cbv beta iota.
  destruct (Z.leb_spec n (m_baseSize s - npos)) as [Hle|Hgt].
  - destruct fuel; [lia|]. exists [mkIovec i npos n]. assert (iov_ok s (mkIovec i npos n)) by (split_and!; cbn; lia || done).
    split_and!; [done|by constructor|cbn; by rewrite app_nil_r|]. cbn. split_and!; [done|done|lia].
  - set (k := m_baseSize s - npos) in *. assert (Hk : k = m_baseSize s - npos) by done.
    assert (Hi' : (S i < length (m_nodes s))%nat).
    { pose proof (shape_cap s H). unfold zlen in *. nia. }
    rewrite next_of_some by done. destruct (lookup_lt_is_Some_2 _ _ Hi') as [nd' Hnd'].
    assert (Hok' : node_ok (m_baseSize s) nd') by (eapply Forall_lookup_1; [apply H|done]).
    step_with (deref_at s (S i) nd' Hnd'). cbv beta iota. destruct Hok' as [-> _].
    destruct (IH (S i) 0 (n - k) (acc ++ [mkIovec i npos k])) as (bufs & E & Hall & Hb & Hc);
      [done|lia|lia|nia|lia|].
    assert (iov_ok s (mkIovec i npos k)) by (split_and!; cbn; lia || done).
    rewrite Z.sub_0_r in E. exists (mkIovec i npos k :: bufs). split_and!; [|by constructor| |].
    + rewrite E, <- app_assoc. done.
    + cbn [map concat]. rewrite Hb. unfold iov_bytes; cbn [iov_node iov_off iov_len].
      rewrite Nat2Z.inj_succ. replace (m_baseSize s * Z.succ (Z.of_nat i) + 0)
        with (m_baseSize s * Z.of_nat i + npos + k) by lia.
      apply slice_split; nia || lia.
    + cbn [chained iov_node iov_off iov_len]. split_and!; [done|done|].
      replace (m_baseSize s * Z.of_nat i + npos + k) with (m_baseSize s * Z.of_nat (S i) + 0) by nia. exact Hc.
Qed.

(** [getWriteBuffers] makes room behind the contents and returns a chain of
    regions from the position on. *)
Lemma getWriteBuffers_run s len :
  wf s -> 0 < len -> m_position s + len + m_baseSize s < 2 ^ 64 ->
  exists s' junk bufs, getWriteBuffers [] len s = Ret (len, bufs) s' /\ wf s'
    /\ m_baseSize s' = m_baseSize s /\ m_position s' = m_position s /\ m_size s' = m_size s /\ m_endian s' = m_endian s
    /\ contents s' = contents s ++ junk /\ m_position s + len <= m_capacity s' /\ Forall (iov_ok s') bufs
    /\ concat (map (iov_bytes s') bufs) = slice (m_position s) len (contents s')
    /\ chained s' (m_position s) len bufs.
Proof.
  intros H Hlen Hf.
  destruct (addCapacity_spec s len) as (s1 & junk & E1 & H1 & A2 & A3 & A4 & A5 & A6 & A7); [done..|].
  pose proof (wf_pos s H) as Hps. pose proof (wf_size s H) as Hsz.
  destruct (read_setup s1 H1 ltac:(lia)) as (nd & Ed & Em & Ew).
  pose proof (wf_at_block s1 H1 ltac:(lia)) as Ha.
  destruct (getWriteBuffers_loop_spec (length (m_nodes s1) + 2) s1 _ _ len [] (wf_shape s1 H1)
    (ab_lt _ _ _ Ha) (ab_npos _ _ _ Ha)) as (bufs & E & Hall & Hb & Hc);
    [lia|rewrite <- (ab_pos _ _ _ Ha); lia|lia|].
  rewrite <- (ab_pos _ _ _ Ha), A3 in Hb, Hc.
  exists s1, junk, bufs. split_and!; try done.
  unfold getWriteBuffers. rewrite (proj2 (Z.eqb_neq _ _)) by lia.
  step_with E1. mstep. step_with Em. step_with Ed. cbv beta iota. rewrite Ew.
  rewrite (ab_cur _ _ _ Ha). by step_with E.
Qed.

(** [getWriteBuffers] makes room and returns in-bounds regions which,
    one after the other, are exactly the [len] bytes from the position. *)
Theorem getWriteBuffers_spec s len :
  wf s -> 0 < len -> m_position s + len + m_baseSize s < 2 ^ 64 ->
  exists s' bufs, getWriteBuffers [] len s = Ret (len, bufs) s' /\ wf s'
    /\ abs s' = abs s /\ Forall (iov_ok s') bufs
    /\ concat (map (iov_bytes s') bufs) = slice (m_position s) len (contents s')
    /\ m_position s + len <= m_capacity s'.
Proof.
  intros H Hlen Hf.
  destruct (getWriteBuffers_run s len H Hlen Hf) as (s' & junk & bufs & E & H' & A2 & A3 & A4 & _ & A6 & A7 & Hall & Hb & _).
  pose proof (wf_size s H) as Hsz. exists s', bufs. split_and!; try done.
  unfold abs, data. rewrite A3, A4, A6. f_equal. apply ztake_app_le. rewrite contents_zlen by apply H. lia.
Qed.

(** [getReadBuffers] returns the readable bytes only while they lie in
    the cursor's block. *)
Theorem getReadBuffers_one_block s len :
  wf s -> 0 < len -> let n := Z.min len (m_size s - m_position s) in
  0 < n -> m_position s mod m_baseSize s + n <= m_baseSize s ->
  exists v, getReadBuffers [] len s = Ret (n, [v]) s /\ iov_ok s v
    /\ iov_bytes s v = slice (m_position s) n (data s).
Proof.
  intros H Hlen n Hn Hfit. pose proof (wf_pos s H) as Hps. pose proof (wf_size s H) as Hsz.
  destruct (read_setup s H ltac:(lia)) as (nd & Ed & Em & Ew).
  pose proof (wf_at_block s H ltac:(lia)) as Ha. pose proof (ab_npos _ _ _ Ha).
  exists (mkIovec (Z.to_nat (m_position s / m_baseSize s)) (m_position s mod m_baseSize s) n).
  split_and!.
  - unfold getReadBuffers. mstep. rewrite getReadSize_val by done.
    assert (En : (if m_size s - m_position s <? len then m_size s - m_position s else len) = n)
      by (case_cmp; lia).
    rewrite En, (proj2 (Z.eqb_neq _ _)) by lia. step_with Em. step_with Ed. cbv beta iota.
    rewrite Ew. replace (Z.to_nat n + 1)%nat with (S (S (Z.to_nat n - 1))) by lia.
    cbn [getReadBuffers_loop]. rewrite (proj2 (Z.ltb_lt 0 n)) by done.
    rewrite (bind_Ret (deref (m_cur s) ≫= _) _ s ([mkIovec (Z.to_nat (m_position s / m_baseSize s))
      (m_position s mod m_baseSize s) n]) s); [done|].
    step_with Ed. cbv beta iota. by rewrite (proj2 (Z.leb_le _ _)) by lia.
  - split_and!; cbn; try lia. apply Ha.
  - unfold iov_bytes; cbn. rewrite <- (ab_pos _ _ _ Ha). symmetry. apply slice_data; done || lia.
Qed.
End io.

(** ** Pairs that disagree, on a little-endian host *)

Section disagree.
#[local] Existing Instance x86.
#[local] Existing Instance zeroed.

(** What a computation returns from a fresh array of one-byte blocks. *)
Definition returns {A} (m : M ByteArray A) : option A :=
  match m (ByteArray_new 1) with Ret a _ => Some a | _ => None end.

(** [writeFloat] stores four bytes, [readFloat] reads a varint: 1.0f (bit
    pattern 3f800000) comes back as the denormal with pattern 3f. *)
Lemma float_pair_disagrees :
  returns (writeFloat 0x3f800000;; setPosition 0;; readFloat) = Some 0x3f.
Proof. vm_compute. reflexivity. Qed.

Lemma double_pair_disagrees :
  returns (writeDouble 0x3ff0000000000000;; setPosition 0;; readDouble) = Some 0x3f.
Proof. vm_compute. reflexivity. Qed.

(** [writeStringVint] stores an eight-byte length, [readStringFVint] reads a
    varint: every string shorter than 2^56 comes back empty. *)
Lemma vint_string_pair_disagrees :
  returns (writeStringVint (list_ascii_of_string "abc");; setPosition 0;; readStringFVint)
  = Some [].
Proof. vm_compute. reflexivity. Qed.

(** The empty string at the end of the last block follows a null cursor. *)
Lemma empty_string_crashes :
  (writeStringF16 [];; setPosition 0;; readStringF16) (ByteArray_new 1) = Crash NullDeref.
Proof. vm_compute. reflexivity. Qed.

(** Two blocks of data: both iovecs point into the first one. *)
Lemma getReadBuffers_repeats_block :
  match getReadBuffers [] 6 demo with
  | Ret (n, bufs) s => n = 6 /\ concat (map (iov_bytes s) bufs) = list_ascii_of_string "abcdab"
  | _ => False
  end.
Proof. vm_compute. split; reflexivity. Qed.
End disagree.

(** ** Instances of the theorems *)

Example fixed_roundtrip_witness :
  exists s1 s2 s3, writeF (host := x86) (un := zeroed) int32_t (-2) demo = Ret tt s1
    /\ setPosition 0 s1 = Ret tt s2 /\ readF (host := x86) int32_t s2 = Ret (-2) s3.
Proof. apply (fixed_roundtrip (host := x86) (un := zeroed) int32_t (-2) demo demo_wf); cbv; split; done. Defined.

Example wire_host_independent_witness :
  writeF (host := true) (un := zeroed) uint16_t 258 demo
  = writeF (host := false) (un := zeroed) uint16_t 258 demo.
Proof. exact (wire_host_independent (un := zeroed) true false uint16_t 258 demo demo_wf). Defined.

Example toString_spec_witness : toString demo = Ret (zdrop 0 (data demo)) demo.
Proof. exact (toString_spec demo demo_wf). Defined.

Example file_roundtrip_witness :
  exists file s1 s2, writeToFile true demo = Ret (Some file) demo
    /\ readFromFile (un := zeroed) (Some file) (ByteArray_new (un := zeroed) 3) = Ret true s1
    /\ setPosition 0 s1 = Ret tt s2 /\ toString demo = Ret file demo /\ toString s2 = Ret file s2.
Proof. apply (file_roundtrip (un := zeroed) demo 3 demo_wf); cbn; lia. Defined.

Example getWriteBuffers_spec_witness :
  exists s' bufs, getWriteBuffers (un := zeroed) [] 11 demo = Ret (11, bufs) s' /\ wf s'
    /\ abs s' = abs demo /\ Forall (iov_ok s') bufs
    /\ concat (map (iov_bytes s') bufs) = slice 0 11 (contents s') /\ 0 + 11 <= m_capacity s'.
Proof. apply (getWriteBuffers_spec (un := zeroed) demo 11 demo_wf); cbn; lia. Defined.

Example getReadBuffers_one_block_witness :
  exists v, getReadBuffers [] 3 demo = Ret (3, [v]) demo /\ iov_ok demo v
    /\ iov_bytes demo v = slice 0 3 (data demo).
Proof. apply (getReadBuffers_one_block demo 3 demo_wf); cbv; done. Defined.
