(* ===== verification/Timer.v ===== *)
(** linko/timer.{h,cc}: the timers of a TimerManager.

    Timer objects live in a heap indexed by their address; the manager's
    [std::set<Timer::ptr, Comparator>] is the sequence of addresses its
    comparator orders (OrdSet).  Every operation takes the clock value its call
    of GetCurrentMS returns; a [uint64_t] sum or difference wraps.  The bodies
    run under m_mutex, so an operation is one step of the manager. *)
From S2P Require Import Prelude OrdSet.

(** A [std::function<void()>]: a user function, or the bind of OnTimer. *)
Inductive callback :=
| Plain (f : Z)
| Bind_OnTimer (weak_cond : Z) (cb : option Z).

Record Timer := mkTimer {
  m_recurring : bool;
  m_ms : Z;
  m_next : Z;
  m_cb : option callback
}.

(** [m_front] counts the calls of the virtual onTimerInsertedAtFront. *)
Record TimerManager := mkTM {
  m_heap : gmap Z Timer;
  m_timers : list Z;
  m_tickled : bool;
  m_previousTime : Z;
  m_front : Z
}.

Definition set_heap (h : gmap Z Timer) (s : TimerManager) : TimerManager :=
  mkTM h (m_timers s) (m_tickled s) (m_previousTime s) (m_front s).
Definition set_timers (l : list Z) (s : TimerManager) : TimerManager :=
  mkTM (m_heap s) l (m_tickled s) (m_previousTime s) (m_front s).
Definition set_tickled (b : bool) (s : TimerManager) : TimerManager :=
  mkTM (m_heap s) (m_timers s) b (m_previousTime s) (m_front s).
Definition set_previousTime (v : Z) (s : TimerManager) : TimerManager :=
  mkTM (m_heap s) (m_timers s) (m_tickled s) v (m_front s).

(** [p->m_next]. *)
Definition next_at (h : gmap Z Timer) (p : Z) : Z :=
  match h !! p with Some t => m_next t | None => 0 end.

(** Timer::Comparator; the null pointer is address 0. *)
Definition Comparator (h : gmap Z Timer) (lhs rhs : Z) : bool :=
  if (lhs =? 0) && (rhs =? 0) then false
  else if lhs =? 0 then true
  else if rhs =? 0 then false
  else if next_at h lhs <? next_at h rhs then true
  else if next_at h rhs <? next_at h lhs then false
  else lhs <? rhs.

(** The two constructors. *)
Definition Timer_new (ms : Z) (cb : option callback) (recurring : bool) (now : Z) : Timer :=
  mkTimer recurring ms (u64 (now + ms)) cb.
Definition Timer_at (next : Z) : Timer := mkTimer false 0 next None.

(** [*this] and its update. *)
Definition this_timer (this : Z) : M TimerManager Timer := fun s =>
  match m_heap s !! this with Some t => Ret t s | None => Crash NullDeref end.
Definition store_timer (this : Z) (t : Timer) : M TimerManager unit :=
  modify (fun s => set_heap (<[this := t]> (m_heap s)) s).

(** [m_timers.find(p)]; [None] is end(). *)
Definition timers_find (p : Z) : M TimerManager (option nat) := fun s =>
  Ret (set_find (Comparator (m_heap s)) p (m_timers s)) s.
(** [m_timers.erase(it)]. *)
Definition timers_erase (it : option nat) : M TimerManager unit :=
  match it with
  | Some i => modify (fun s => set_timers (delete i (m_timers s)) s)
  | None => crash_with BadErase
  end.
(** [m_timers.insert(p).first]. *)
Definition timers_insert (p : Z) : M TimerManager nat := fun s =>
  let '(l, i, _) := set_insert (Comparator (m_heap s)) p (m_timers s) in
  Ret i (set_timers l s).

(** The implementations of onTimerInsertedAtFront are outside this file. *)
Definition onTimerInsertedAtFront : M TimerManager unit :=
  modify (fun s => mkTM (m_heap s) (m_timers s) (m_tickled s) (m_previousTime s) (m_front s + 1)).

Definition addTimer_lock (val : Z) : M TimerManager unit :=
  it ← timers_insert val;
  s ← get;
  let at_front := (it =? 0)%nat && negb (m_tickled s) in
  when at_front (modify (set_tickled true));;
  when at_front onTimerInsertedAtFront.

Definition cancel (this : Z) : M TimerManager bool :=
  t ← this_timer this;
  match m_cb t with
  | Some _ =>
    store_timer this (mkTimer (m_recurring t) (m_ms t) (m_next t) None);;
    it ← timers_find this;
    timers_erase it;;
    mret true
  | None => mret false
  end.

Definition refresh (this now : Z) : M TimerManager bool :=
  t ← this_timer this;
  match m_cb t with
  | None => mret false
  | Some _ =>
    it ← timers_find this;
    match it with
    | None => mret false
    | Some _ =>
      timers_erase it;;
      store_timer this (mkTimer (m_recurring t) (m_ms t) (u64 (now + m_ms t)) (m_cb t));;
      timers_insert this;;
      mret true
    end
  end.

Definition reset (this ms : Z) (from_now : bool) (now : Z) : M TimerManager bool :=
  t ← this_timer this;
  if (ms =? m_ms t) && negb from_now then mret true else
  match m_cb t with
  | None => mret false
  | Some _ =>
    it ← timers_find this;
    match it with
    | None => mret false
    | Some _ =>
      timers_erase it;;
      let start := if from_now then now else u64 (m_next t - m_ms t) in
      store_timer this (mkTimer (m_recurring t) ms (u64 (start + ms)) (m_cb t));;
      addTimer_lock this;;
      mret true
    end
  end.

Definition TimerManager_new (now : Z) : TimerManager := mkTM ∅ [] false now 0.

(** [p]: the address [new Timer] returns. *)
Definition addTimer (p ms : Z) (cb : option callback) (recurring : bool) (now : Z)
    : M TimerManager Z :=
  store_timer p (Timer_new ms cb recurring now);;
  addTimer_lock p;;
  mret p.

Definition addConditionTimer (p ms : Z) (cb : option Z) (weak_cond : Z) (recurring : bool) (now : Z)
    : M TimerManager Z :=
  addTimer p ms (Some (Bind_OnTimer weak_cond cb)) recurring now.

(** Calling a callback: the user function that runs, if one does.  [lock] is
    whether the object of a weak pointer is still alive. *)
Definition OnTimer (lock : Z -> bool) (weak_cond : Z) (cb : option Z) : M TimerManager (option Z) :=
  if lock weak_cond then
    match cb with Some f => mret (Some f) | None => throw (logic_error "bad_function_call") end
  else mret None.
Definition run_cb (lock : Z -> bool) (cb : option callback) : M TimerManager (option Z) :=
  match cb with
  | None => throw (logic_error "bad_function_call")
  | Some (Plain f) => mret (Some f)
  | Some (Bind_OnTimer w f) => OnTimer lock w f
  end.

(** [~0ull]. *)
Definition no_timer : Z := 2 ^ 64 - 1.

Definition getNextTimer (now_ms : Z) : M TimerManager Z :=
  modify (set_tickled false);;
  s ← get;
  match m_timers s with
  | [] => mret no_timer
  | next :: _ =>
    t ← this_timer next;
    if m_next t <=? now_ms then mret 0 else mret (u64 (m_next t - now_ms))
  end.

Definition detectClockRollover (now_ms : Z) : M TimerManager bool :=
  s ← get;
  let rollover := (now_ms <? m_previousTime s) &&
                  (now_ms <? u64 (m_previousTime s - 60 * 60 * 1000)) in
  modify (set_previousTime now_ms);;
  mret rollover.

(** [while (it != end && ( *it)->m_next == now_ms) ++it] over what follows [it]. *)
Fixpoint skip_equal (h : gmap Z Timer) (now_ms : Z) (rest : list Z) : nat :=
  match rest with
  | p :: rest => if next_at h p =? now_ms then S (skip_equal h now_ms rest) else 0%nat
  | [] => 0%nat
  end.

(** The loop over [expired]; the result is what is pushed to [cbs]. *)
Fixpoint expire (now_ms : Z) (expired : list Z) : M TimerManager (list (option callback)) :=
  match expired with
  | [] => mret []
  | p :: expired =>
    t ← this_timer p;
    (if m_recurring t then
       store_timer p (mkTimer true (m_ms t) (u64 (now_ms + m_ms t)) (m_cb t));;
       timers_insert p;;
       mret tt
     else store_timer p (mkTimer false (m_ms t) (m_next t) None));;
    cbs ← expire now_ms expired;
    mret (m_cb t :: cbs)
  end.

(** [now_timer]: the address of the temporary Timer that lower_bound compares
    with; it is freed on return. *)
Definition listExpiredCb (now_timer now_ms : Z) : M TimerManager (list (option callback)) :=
  s ← get;
  match m_timers s with
  | [] => mret []
  | first :: _ =>
    rollover ← detectClockRollover now_ms;
    t ← this_timer first;
    if negb rollover && (now_ms <? m_next t) then mret [] else
    let h := <[now_timer := Timer_at now_ms]> (m_heap s) in
    let it := if rollover then length (m_timers s)
              else lower_bound (Comparator h) now_timer (m_timers s) in
    let it := (it + skip_equal (m_heap s) now_ms (drop it (m_timers s)))%nat in
    let expired := take it (m_timers s) in
    modify (set_timers (drop it (m_timers s)));;
    expire now_ms expired
  end.

Definition hasTimer (s : TimerManager) : bool :=
  match m_timers s with [] => false | _ => true end.
