(* ===== verification/TimerThms.v ===== *)
(** Theorems on Timer: the set stays ordered and no iterator is misused, the
    expired callbacks are exactly those due, and a waiter is always notified
    of an earlier timer. *)
From S2P Require Import Prelude.
From stdpp Require Import sorting.
From S2P Require Import OrdSet Timer.
Open Scope Z_scope.

#[export] Instance Comparator_total h : StrictTotal (Comparator h).
Proof.
  split; unfold Comparator.
  - intros a. repeat case_cmp; cbn; lia || done.
  - intros a b c. repeat case_cmp; cbn; lia || done.
  - intros a b. repeat case_cmp; cbn; lia || done.
Qed.

(** The comparator reads nothing but [m_next]. *)
Lemma Comparator_next h h' a b :
  next_at h a = next_at h' a -> next_at h b = next_at h' b -> Comparator h a b = Comparator h' a b.
Proof. unfold Comparator. by intros -> ->. Qed.

Lemma Comparator_le h a b : Comparator h a b = true -> a <> 0 -> next_at h a <= next_at h b.
Proof. unfold Comparator. repeat case_cmp; cbn; done || lia. Qed.

Lemma next_at_insert h p t q :
  next_at (<[p := t]> h) q = if decide (p = q) then m_next t else next_at h q.
Proof. unfold next_at. case_decide; simplify_map_eq; done. Qed.

(** ** The invariant *)

Record tm_wf (s : TimerManager) : Prop := mkTmWf {
  wf_sorted : set_sorted (Comparator (m_heap s)) (m_timers s);
  wf_alloc p : p ∈ m_timers s -> p <> 0 /\ is_Some (m_heap s !! p);
  wf_live p t : m_heap s !! p = Some t -> m_cb t <> None -> p ∈ m_timers s;
  wf_range p t : m_heap s !! p = Some t -> in_u 64 (m_next t) /\ in_u 64 (m_ms t)
}.

Lemma set_sorted_store h p t l :
  p ∉ l -> set_sorted (Comparator h) l -> set_sorted (Comparator (<[p := t]> h)) l.
Proof.
  intros Hp. apply set_sorted_ext. intros a b Ha Hb. apply Comparator_next;
    rewrite next_at_insert; by rewrite decide_False by (intros ->; done).
Qed.

Lemma set_sorted_store_same h p t l :
  next_at h p = m_next t -> set_sorted (Comparator h) l -> set_sorted (Comparator (<[p := t]> h)) l.
Proof.
  intros Hp. apply set_sorted_ext. intros a b _ _.
  apply Comparator_next; rewrite next_at_insert; case_decide; congruence.
Qed.

(** The steps of the set operations on an ordered set. *)
Lemma timers_find_in s p :
  set_sorted (Comparator (m_heap s)) (m_timers s) -> p ∈ m_timers s ->
  exists i, timers_find p s = Ret (Some i) s /\ m_timers s !! i = Some p.
Proof.
  intros Hs Hp. destruct (set_find_elem _ _ _ Hs Hp) as [i E]. exists i.
  unfold timers_find. rewrite E. split; [done|]. exact (set_find_lookup _ _ _ _ E).
Qed.

Lemma timers_insert_new s p :
  set_sorted (Comparator (m_heap s)) (m_timers s) -> p ∉ m_timers s ->
  exists i l, timers_insert p s = Ret i (set_timers l s) /\
    l = take i (m_timers s) ++ p :: drop i (m_timers s) /\
    (i <= length (m_timers s))%nat /\
    set_sorted (Comparator (m_heap s)) l /\ (forall q, q ∈ l <-> q = p \/ q ∈ m_timers s).
Proof.
  intros Hs Hp. destruct (set_insert_new _ _ _ Hs Hp) as (i & E & Hi & Hl).
  exists i. eexists. unfold timers_insert. rewrite E. split; [done|].
  split; [done|]. split; [done|]. split; [done|].
  intros q. rewrite elem_of_app, elem_of_cons.
  assert (q ∈ m_timers s <-> q ∈ take i (m_timers s) ++ drop i (m_timers s)) as ->
    by by rewrite take_drop.
  rewrite elem_of_app. tauto.
Qed.

(** What inserting [p] into the set does, notification included. *)
Record inserted (s : TimerManager) (p : Z) (s' : TimerManager) : Prop := mkInserted {
  ins_heap : m_heap s' = m_heap s;
  ins_sorted : set_sorted (Comparator (m_heap s')) (m_timers s');
  ins_elem q : q ∈ m_timers s' <-> q = p \/ q ∈ m_timers s;
  ins_prev : m_previousTime s' = m_previousTime s;
  ins_front :
    (m_tickled s' = m_tickled s /\ m_front s' = m_front s /\
     (m_tickled s = true \/ exists q, q ∈ m_timers s /\ Comparator (m_heap s) q p = true)) \/
    (m_tickled s = false /\ m_tickled s' = true /\ m_front s' = m_front s + 1)
}.

Lemma addTimer_lock_spec s p :
  set_sorted (Comparator (m_heap s)) (m_timers s) -> p ∉ m_timers s ->
  exists s', addTimer_lock p s = Ret tt s' /\ inserted s p s'.
Proof.
  intros Hs Hp. destruct (timers_insert_new s p Hs Hp) as (i & l & E & El & Hi & Hl & Hin).
  unfold addTimer_lock. step_with E. step_with (eq_refl : get (set_timers l s) = Ret _ _).
  destruct (decide (i = 0%nat)) as [->|Hi0]; [destruct (m_tickled s) eqn:T|].
  - cbn [m_tickled set_timers]. rewrite T. eexists. split; [reflexivity|].
    constructor; cbn; auto.
  - cbn [m_tickled set_timers]. rewrite T. eexists. split; [reflexivity|].
    constructor; cbn; auto.
  - replace (i =? 0)%nat with false by (symmetry; apply Nat.eqb_neq; done).
    eexists. split; [reflexivity|]. constructor; cbn; auto.
    left. split; [done|]. split; [done|]. right.
    destruct (m_timers s) as [|q r] eqn:Et; [cbn in Hi; lia|].
    exists q. split; [by left|].
    destruct i as [|i]; [done|]. cbn [take app] in El. subst l.
    apply set_sorted_cons in Hl as [Hl _]. rewrite Forall_forall in Hl.
    apply Hl, elem_of_app. right. by left.
Qed.

(** Putting a timer object with address [p] into the set keeps the invariant. *)
Lemma wf_queue s s' p t :
  tm_wf s -> p <> 0 -> in_u 64 (m_next t) -> in_u 64 (m_ms t) ->
  m_heap s' = <[p := t]> (m_heap s) ->
  set_sorted (Comparator (m_heap s')) (m_timers s') ->
  (forall q, q ∈ m_timers s' <-> q = p \/ q ∈ m_timers s) ->
  tm_wf s'.
Proof.
  intros W Hp Hn Hm Hh Hs Hel. constructor; [done|..].
  - intros q [->|Hq]%Hel; rewrite Hh.
    + split; [done|]. by simplify_map_eq.
    + destruct (wf_alloc s W q Hq) as [? ?]. split; [done|]. by apply lookup_insert_is_Some'; right.
  - intros q u. rewrite Hh, lookup_insert_Some, Hel. intros [[? _]|[_ Hq]] Hcb; [by left|].
    right. by eapply wf_live.
  - intros q u. rewrite Hh, lookup_insert_Some. intros [[_ <-]|[_ Hq]]; [done|].
    by eapply wf_range.
Qed.

(** Taking the object out of the set, at the iterator [find] returns. *)
Lemma timers_take s p :
  tm_wf s -> p ∈ m_timers s ->
  exists i s1, timers_find p s = Ret (Some i) s /\ timers_erase (Some i) s = Ret tt s1 /\
    s1 = set_timers (m_timers s1) s /\
    set_sorted (Comparator (m_heap s)) (m_timers s1) /\
    (forall q, q ∈ m_timers s1 <-> q ∈ m_timers s /\ q <> p).
Proof.
  intros W Hp. destruct (timers_find_in s p (wf_sorted s W) Hp) as (i & E & Ei).
  exists i. eexists. split; [done|]. split; [reflexivity|]. cbn. split; [done|].
  split; [exact (set_sorted_delete _ _ _ (wf_sorted s W))|].
  intros q. by apply (elem_of_delete_sorted _ _ _ _ _ (wf_sorted s W) Ei).
Qed.

Lemma this_timer_run s p t : m_heap s !! p = Some t -> this_timer p s = Ret t s.
Proof. unfold this_timer. by intros ->. Qed.

Lemma store_timer_run s p t :
  store_timer p t s = Ret tt (set_heap (<[p := t]> (m_heap s)) s).
Proof. done. Qed.

(** ** The operations *)

Lemma addTimer_spec s p ms cb recurring now :
  tm_wf s -> p <> 0 -> p ∉ m_timers s -> in_u 64 ms ->
  exists s', addTimer p ms cb recurring now s = Ret p s' /\ tm_wf s' /\
    inserted (set_heap (<[p := Timer_new ms cb recurring now]> (m_heap s)) s) p s'.
Proof.
  intros W Hp Hin Hms. unfold addTimer.
  set (t := Timer_new ms cb recurring now).
  step_with (store_timer_run s p t).
  destruct (addTimer_lock_spec (set_heap (<[p := t]> (m_heap s)) s) p) as (s' & E & I);
    [by apply set_sorted_store, (wf_sorted s W)|done|].
  step_with E. exists s'. split; [reflexivity|]. split; [|done].
  destruct I as [Ih Is Ie _ _].
  eapply (wf_queue s s' p t); auto; apply wrap_range; lia.
Qed.

Lemma cancel_live s p t :
  tm_wf s -> m_heap s !! p = Some t -> m_cb t <> None ->
  exists s', cancel p s = Ret true s' /\ tm_wf s' /\
    m_heap s' = <[p := mkTimer (m_recurring t) (m_ms t) (m_next t) None]> (m_heap s) /\
    (forall q, q ∈ m_timers s' <-> q ∈ m_timers s /\ q <> p) /\
    m_tickled s' = m_tickled s /\ m_front s' = m_front s /\ m_previousTime s' = m_previousTime s.
Proof.
  intros W Ht Hcb. pose proof (wf_live s W _ _ Ht Hcb) as Hp.
  unfold cancel. step_with (this_timer_run _ _ _ Ht).
  destruct (m_cb t) as [cb|] eqn:Ecb; [|done].
  set (t' := mkTimer _ _ _ None). set (s0 := set_heap (<[p := t']> (m_heap s)) s).
  step_with (store_timer_run s p t').
  assert (Hnext : next_at (m_heap s) p = m_next t') by (unfold next_at; by rewrite Ht).
  assert (Hs0 : set_sorted (Comparator (m_heap s0)) (m_timers s0))
    by (by apply set_sorted_store_same, (wf_sorted s W)).
  destruct (timers_find_in s0 p Hs0 Hp) as (i & E & Ei).
  step_with E. cbn [timers_erase].
  eexists. split; [reflexivity|]. cbn.
  assert (Hel : forall q, q ∈ delete i (m_timers s) <-> q ∈ m_timers s /\ q <> p)
    by (intros q; by apply (elem_of_delete_sorted _ _ _ _ _ Hs0 Ei)).
  split; [|done]. constructor; cbn.
  - exact (set_sorted_delete _ _ _ Hs0).
  - intros q [Hq Hne]%Hel. rewrite lookup_insert_ne by done. by apply (wf_alloc s W).
  - intros q u [[<- <-]|[Hne Hq]]%lookup_insert_Some Hu; [done|].
    rewrite Hel. split; [by eapply wf_live|done].
  - intros q u [[<- <-]|[Hne Hq]]%lookup_insert_Some;
      [exact (wf_range s W _ _ Ht)|exact (wf_range s W _ _ Hq)].
Qed.

Lemma cancel_dead s p t :
  m_heap s !! p = Some t -> m_cb t = None -> cancel p s = Ret false s.
Proof.
  intros Ht Hcb. unfold cancel. step_with (this_timer_run _ _ _ Ht).
  by rewrite Hcb.
Qed.

(** The common core of refresh and reset: the timer leaves the set and gets a
    new period and expiry time. *)
Lemma retime s p t next ms :
  tm_wf s -> m_heap s !! p = Some t -> m_cb t <> None -> in_u 64 next -> in_u 64 ms ->
  exists i s1 s2, timers_find p s = Ret (Some i) s /\ timers_erase (Some i) s = Ret tt s1 /\
    store_timer p (mkTimer (m_recurring t) ms next (m_cb t)) s1 = Ret tt s2 /\
    m_heap s2 = <[p := mkTimer (m_recurring t) ms next (m_cb t)]> (m_heap s) /\
    set_sorted (Comparator (m_heap s2)) (m_timers s2) /\
    (forall q, q ∈ m_timers s2 <-> q ∈ m_timers s /\ q <> p) /\
    m_tickled s2 = m_tickled s /\ m_front s2 = m_front s /\ m_previousTime s2 = m_previousTime s /\
    (forall s', m_heap s' = m_heap s2 -> set_sorted (Comparator (m_heap s')) (m_timers s') ->
       (forall q, q ∈ m_timers s' <-> q = p \/ q ∈ m_timers s2) -> tm_wf s').
Proof.
  intros W Ht Hcb Hn Hm. pose proof (wf_live s W _ _ Ht Hcb) as Hp.
  destruct (timers_take s p W Hp) as (i & s1 & Ef & Ee & E1 & Hs1 & Hel).
  exists i, s1. eexists. split; [done|]. split; [done|]. split; [reflexivity|].
  assert (Hh : m_heap s1 = m_heap s) by (rewrite E1; done).
  cbn. rewrite Hh. split; [done|].
  split; [apply set_sorted_store; [|done]; rewrite Hel; tauto|]. split; [done|].
  split; [rewrite E1; done|]. split; [rewrite E1; done|]. split; [rewrite E1; done|].
  intros s' Hh' Hs' Hel'. eapply (wf_queue s s' p); eauto.
  - apply (wf_alloc s W p Hp).
  - done.
  - done.
  - intros q. rewrite Hel', Hel. destruct (decide (q = p)); naive_solver.
Qed.

Lemma refresh_live s p t now :
  tm_wf s -> m_heap s !! p = Some t -> m_cb t <> None ->
  exists s', refresh p now s = Ret true s' /\ tm_wf s' /\
    m_heap s' = <[p := mkTimer (m_recurring t) (m_ms t) (u64 (now + m_ms t)) (m_cb t)]> (m_heap s) /\
    (forall q, q ∈ m_timers s' <-> q ∈ m_timers s) /\
    m_tickled s' = m_tickled s /\ m_front s' = m_front s /\ m_previousTime s' = m_previousTime s.
Proof.
  intros W Ht Hcb. pose proof (wf_live s W _ _ Ht Hcb) as Hp.
  destruct (retime s p t (u64 (now + m_ms t)) (m_ms t)) as
    (i & s1 & s2 & Ef & Ee & Est & Hh & Hs & Hel & Ht2 & Hf2 & Hp2 & Hwf); auto.
  { by apply wrap_range. }
  { by eapply wf_range. }
  destruct (timers_insert_new s2 p Hs) as (j & l & Ei & _ & _ & Hl & Hin).
  { rewrite Hel. tauto. }
  exists (set_timers l s2). split.
  - unfold refresh. step_with (this_timer_run _ _ _ Ht). destruct (m_cb t) eqn:Ecb; [|done].
    step_with Ef. step_with Ee. step_with Est. by step_with Ei.
  - split; [apply Hwf; cbn; auto|]. cbn. split; [done|]. split; [|done].
    intros q. rewrite Hin, Hel. destruct (decide (q = p)); naive_solver.
Qed.

Lemma reset_live s p t ms from_now now :
  tm_wf s -> m_heap s !! p = Some t -> m_cb t <> None -> in_u 64 ms ->
  (ms =? m_ms t) && negb from_now = false ->
  let start := if from_now then now else u64 (m_next t - m_ms t) in
  let t' := mkTimer (m_recurring t) ms (u64 (start + ms)) (m_cb t) in
  exists s' s2, reset p ms from_now now s = Ret true s' /\ tm_wf s' /\
    inserted s2 p s' /\ m_heap s2 = <[p := t']> (m_heap s) /\
    (forall q, q ∈ m_timers s2 <-> q ∈ m_timers s /\ q <> p) /\
    m_tickled s2 = m_tickled s /\ m_front s2 = m_front s /\ m_previousTime s2 = m_previousTime s.
Proof.
  intros W Ht Hcb Hms Hb start t'. pose proof (wf_live s W _ _ Ht Hcb) as Hp.
  destruct (retime s p t (u64 (start + ms)) ms) as
    (i & s1 & s2 & Ef & Ee & Est & Hh & Hs & Hel & Ht2 & Hf2 & Hp2 & Hwf); auto.
  { by apply wrap_range. }
  destruct (addTimer_lock_spec s2 p Hs) as (s' & Ei & I).
  { rewrite Hel. tauto. }
  exists s', s2. split.
  - unfold reset. step_with (this_timer_run _ _ _ Ht). rewrite Hb.
    destruct (m_cb t) eqn:Ecb; [|done].
    step_with Ef. step_with Ee. unfold t', start in *. step_with Est. by step_with Ei.
  - split; [|done]. apply Hwf; [apply (ins_heap _ _ _ I)|apply (ins_sorted _ _ _ I)|
      apply (ins_elem _ _ _ I)].
Qed.

(** ** Expiry *)

(** What expiry does to one timer. *)
Definition fired (now_ms : Z) (t : Timer) : Timer :=
  if m_recurring t then mkTimer true (m_ms t) (u64 (now_ms + m_ms t)) (m_cb t)
  else mkTimer false (m_ms t) (m_next t) None.

Definition cb_at (h : gmap Z Timer) (p : Z) : option callback := h !! p ≫= m_cb.
Definition recurs (h : gmap Z Timer) (p : Z) : bool :=
  match h !! p with Some t => m_recurring t | None => false end.

(** One turn of the loop over [expired]. *)
Lemma expire_step now s p t l :
  m_heap s !! p = Some t -> p ∉ m_timers s ->
  set_sorted (Comparator (m_heap s)) (m_timers s) ->
  exists s1, m_heap s1 = <[p := fired now t]> (m_heap s) /\
    set_sorted (Comparator (m_heap s1)) (m_timers s1) /\
    (forall q, q ∈ m_timers s1 <-> q ∈ m_timers s \/ (q = p /\ m_recurring t = true)) /\
    m_tickled s1 = m_tickled s /\ m_front s1 = m_front s /\ m_previousTime s1 = m_previousTime s /\
    expire now (p :: l) s = ((cbs ← expire now l; mret (m_cb t :: cbs)) s1).
Proof.
  intros Ht Hp Hs. cbn [expire]. unfold fired. destruct (m_recurring t) eqn:R.
  - set (t' := mkTimer true _ _ _). set (s0 := set_heap (<[p := t']> (m_heap s)) s).
    destruct (timers_insert_new s0 p) as (i & l1 & E & _ & _ & Hl & Hel).
    { by apply set_sorted_store. }
    { done. }
    exists (set_timers l1 s0). cbn. split; [done|]. split; [done|]. split.
    + intros q. rewrite Hel. cbn. tauto.
    + do 3 (split; [done|]). step_with (this_timer_run _ _ _ Ht). rewrite R.
      erewrite bind_Ret; [reflexivity|].
      step_with (store_timer_run s p t'). by step_with E.
  - set (t' := mkTimer false _ _ _). exists (set_heap (<[p := t']> (m_heap s)) s).
    cbn. split; [done|]. split; [by apply set_sorted_store|]. split; [|].
    + intros q. split; [auto|intros [?|[_ ?]]; done].
    + do 3 (split; [done|]). step_with (this_timer_run _ _ _ Ht). rewrite R.
      erewrite bind_Ret; [reflexivity|]. apply store_timer_run.
Qed.

Lemma expire_spec now l s :
  NoDup l -> (forall p, p ∈ l -> (p ∉ m_timers s) /\ is_Some (m_heap s !! p)) ->
  set_sorted (Comparator (m_heap s)) (m_timers s) ->
  exists s', expire now l s = Ret (map (cb_at (m_heap s)) l) s' /\
    set_sorted (Comparator (m_heap s')) (m_timers s') /\
    (forall q, q ∈ m_timers s' <-> q ∈ m_timers s \/ (q ∈ l /\ recurs (m_heap s) q = true)) /\
    (forall q, m_heap s' !! q = if decide (q ∈ l) then fired now <$> m_heap s !! q
                               else m_heap s !! q) /\
    m_tickled s' = m_tickled s /\ m_front s' = m_front s /\ m_previousTime s' = m_previousTime s.
Proof.
  revert s. induction l as [|p l IH]; intros s Hd Hl Hs.
  { exists s. cbn. split; [done|]. split; [done|]. split; [set_solver|]. split; [|done].
    intros q. by rewrite decide_False by (apply not_elem_of_nil). }
  apply NoDup_cons in Hd as [Hpl Hd].
  destruct (Hl p) as [Hp [t Ht]]; [by left|].
  destruct (expire_step now s p t l Ht Hp Hs) as (s1 & Hh & Hs1 & Hel & E1 & E2 & E3 & E).
  assert (Hsame : forall q, q ∈ l -> m_heap s1 !! q = m_heap s !! q).
  { intros q Hq. rewrite Hh, lookup_insert_ne; [done|]. by intros ->. }
  destruct (IH s1 Hd) as (s' & Er & Hs' & Hel' & Hh' & F1 & F2 & F3); [|done|].
  { intros q Hq. rewrite Hsame by done. destruct (Hl q) as [? ?]; [by right|].
    split; [|done]. rewrite Hel. intros [?|[-> _]]; done. }
  exists s'. rewrite E. split.
  { step_with Er. unfold mret, M_ret. f_equal. cbn [map]. f_equal.
    - unfold cb_at. by rewrite Ht.
    - apply map_ext_in. intros q Hq%list_elem_of_In. unfold cb_at. by rewrite Hsame. }
  split; [done|]. split; [|split; [|by rewrite F1, F2, F3]].
  - intros q. rewrite Hel', Hel, elem_of_cons.
    destruct (decide (q = p)) as [->|Hne].
    + assert (recurs (m_heap s) p = m_recurring t) as -> by (unfold recurs; by rewrite Ht).
      tauto.
    + destruct (decide (q ∈ l)) as [Hq|]; [|tauto].
      assert (recurs (m_heap s1) q = recurs (m_heap s) q) as ->
        by (unfold recurs; by rewrite Hsame).
      tauto.
  - intros q. rewrite Hh', Hh.
    destruct (decide (q = p)) as [->|Hne].
    + rewrite decide_False, decide_True by (done || by left).
      rewrite lookup_insert_eq, Ht. done.
    + rewrite lookup_insert_ne by done.
      destruct (decide (q ∈ l)); [rewrite decide_True by (by right)|rewrite decide_False by (rewrite elem_of_cons; tauto)]; done.
Qed.

(** The timers whose expiry time has come. *)
Definition due (now_ms : Z) (s : TimerManager) : list Z :=
  filter (fun p => next_at (m_heap s) p <= now_ms) (m_timers s).

Definition rolled_over (now_ms : Z) (s : TimerManager) : bool :=
  (now_ms <? m_previousTime s) && (now_ms <? u64 (m_previousTime s - 3600000)).

(** The prefix listExpiredCb takes, and what it does to it. *)
Record expires (now_ms : Z) (l : list Z) (s : TimerManager) (s' : TimerManager) : Prop := mkExpires {
  exp_heap q : m_heap s' !! q = if decide (q ∈ l) then fired now_ms <$> m_heap s !! q
                                else m_heap s !! q;
  exp_elem q : q ∈ m_timers s' <->
    q ∈ m_timers s /\ (q ∉ l \/ recurs (m_heap s) q = true);
  exp_flags : m_tickled s' = m_tickled s /\ m_front s' = m_front s
}.

Lemma fired_range now t :
  in_u 64 (m_next t) /\ in_u 64 (m_ms t) ->
  in_u 64 (m_next (fired now t)) /\ in_u 64 (m_ms (fired now t)).
Proof. unfold fired. destruct (m_recurring t); cbn; [|done]. split; [by apply wrap_range|tauto]. Qed.

Lemma fired_live now t : m_cb (fired now t) <> None -> m_recurring t = true /\ m_cb t <> None.
Proof. unfold fired. destruct (m_recurring t); cbn; done. Qed.

Lemma expires_wf now l s s' :
  tm_wf s -> expires now l s s' -> (forall q, q ∈ l -> q ∈ m_timers s) ->
  set_sorted (Comparator (m_heap s')) (m_timers s') -> tm_wf s'.
Proof.
  intros W [Hh Hel _] Hl Hs. constructor; [done|..].
  - intros q [Hq _]%Hel. destruct (wf_alloc s W q Hq) as [? [t Ht]]. split; [done|].
    rewrite Hh, Ht. case_decide; by eexists.
  - intros q t. rewrite Hh. case_decide as Hq.
    + intros (u & Hu & ->)%fmap_Some [Hr Hc]%fired_live. apply Hel.
      split; [by apply Hl|]. right. unfold recurs. by rewrite Hu.
    + intros Hu Hc. apply Hel. split; [by eapply wf_live|by left].
  - intros q t. rewrite Hh. case_decide as Hq; [|apply (wf_range s W)].
    intros (u & Hu & ->)%fmap_Some. by apply fired_range, (wf_range s W q).
Qed.

Lemma filter_prefix {A} (P : A -> Prop) `{!forall x, Decision (P x)} n (l : list A) :
  (forall a, a ∈ take n l -> P a) -> (forall a, a ∈ drop n l -> ~ P a) -> filter P l = take n l.
Proof.
  revert n. induction l as [|x l IH]; intros [|n] H1 H2; cbn [take drop] in *; try done.
  - rewrite filter_cons_False by (apply H2; by left). rewrite (IH 0%nat); [done..|].
    intros a Ha. apply H2. by right.
  - rewrite filter_cons_True by (apply H1; by left). f_equal.
    apply IH; [|done]. intros a Ha. apply H1. by right.
Qed.

Lemma next_le_sorted h x l a :
  set_sorted (Comparator h) (x :: l) -> x <> 0 -> a ∈ x :: l -> next_at h x <= next_at h a.
Proof.
  intros Hs Hx Ha. destruct (set_sorted_head _ _ _ _ Hs Ha) as [->|H]; [lia|].
  by apply Comparator_le.
Qed.

Lemma skip_equal_spec h now l :
  set_sorted (Comparator h) l -> (forall a, a ∈ l -> a <> 0 /\ now <= next_at h a) ->
  (forall a, a ∈ take (skip_equal h now l) l -> next_at h a = now) /\
  (forall a, a ∈ drop (skip_equal h now l) l -> now < next_at h a).
Proof.
  induction l as [|x l IH]; intros Hs Hl; cbn [skip_equal].
  { split; intros a Ha; by apply not_elem_of_nil in Ha. }
  destruct (Hl x) as [Hx Hx']; [by left|]. case_cmp; cbn [take drop].
  - apply set_sorted_cons in Hs as [_ Hs].
    destruct IH as [IH1 IH2]; [done|by intros; apply Hl; right|].
    split; [|done]. intros a [->|Ha]%elem_of_cons; auto.
  - split; [intros a Ha; by apply not_elem_of_nil in Ha|].
    intros a Ha. pose proof (next_le_sorted _ _ _ _ Hs Hx Ha). lia.
Qed.

(** The iterator listExpiredCb computes when the clock has not rolled over. *)
Lemma expired_prefix s tmp now :
  tm_wf s -> tmp <> 0 -> tmp ∉ m_timers s ->
  let it := lower_bound (Comparator (<[tmp := Timer_at now]> (m_heap s))) tmp (m_timers s) in
  due now s = take (it + skip_equal (m_heap s) now (drop it (m_timers s))) (m_timers s).
Proof.
  intros W Ht0 Htmp it. set (h := <[tmp := Timer_at now]> (m_heap s)) in *.
  assert (Hn : forall a, a ∈ m_timers s -> next_at h a = next_at (m_heap s) a).
  { intros a Ha. unfold h. rewrite next_at_insert, decide_False; [done|]. by intros ->. }
  assert (Hnt : next_at h tmp = now) by (unfold h; by rewrite next_at_insert, decide_True).
  assert (Hsh : set_sorted (Comparator h) (m_timers s)) by (by apply set_sorted_store, (wf_sorted s W)).
  assert (Hin : forall a n, a ∈ take n (m_timers s) \/ a ∈ drop n (m_timers s) -> a ∈ m_timers s).
  { intros a n Ha. rewrite <- (take_drop n (m_timers s)). by apply elem_of_app. }
  assert (Hbefore : forall a, a ∈ take it (m_timers s) -> next_at (m_heap s) a <= now).
  { intros a Ha. pose proof (Hin a it (or_introl Ha)) as Hm. rewrite <- Hn, <- Hnt by done.
    apply Comparator_le; [by apply (lower_bound_before _ _ _ _ Ha)|by apply (wf_alloc s W)]. }
  assert (Hfrom : forall a, a ∈ drop it (m_timers s) -> a <> 0 /\ now <= next_at (m_heap s) a).
  { intros a Ha. pose proof (Hin a it (or_intror Ha)) as Hm.
    split; [by apply (wf_alloc s W)|]. rewrite <- Hn, <- Hnt by done.
    pose proof (lower_bound_from _ _ _ _ Hsh Ha) as Hf.
    unfold Comparator in Hf. revert Hf. pose proof (wf_alloc s W a Hm) as [Ha0 _].
    repeat case_cmp; cbn; done || lia. }
  destruct (skip_equal_spec (m_heap s) now (drop it (m_timers s))) as [Hk1 Hk2]; [|done|].
  { exact (set_sorted_drop _ _ _ (wf_sorted s W)). }
  apply filter_prefix.
  - intros a. rewrite <- take_take_drop, elem_of_app. intros [Ha|Ha]; [by apply Hbefore|].
    rewrite (Hk1 a Ha). lia.
  - intros a. rewrite <- drop_drop. intros Ha. specialize (Hk2 a Ha). lia.
Qed.

(** The callbacks taken: the due ones, or all when the clock has gone back. *)
Definition taken (now_ms : Z) (s : TimerManager) : list Z :=
  if rolled_over now_ms s then m_timers s else due now_ms s.

Lemma taken_in now s q : q ∈ taken now s -> q ∈ m_timers s.
Proof. unfold taken, due. destruct (rolled_over now s); [done|]. by intros [_ ?]%list_elem_of_filter. Qed.

Lemma due_early now s first rest :
  tm_wf s -> m_timers s = first :: rest -> now < next_at (m_heap s) first -> due now s = [].
Proof.
  intros W E Hlt. unfold due. rewrite (filter_prefix _ 0); [done| |].
  - intros a Ha. by apply not_elem_of_nil in Ha.
  - rewrite drop_0, E. intros a Ha. pose proof (wf_sorted s W) as Hs. rewrite E in Hs.
    assert (first <> 0) by (apply (wf_alloc s W); rewrite E; by left).
    pose proof (next_le_sorted _ _ _ _ Hs H Ha). lia.
Qed.

(** Expiring a prefix of the set. *)
Lemma expire_prefix now n s :
  tm_wf s ->
  exists s', expire now (take n (m_timers s)) (set_timers (drop n (m_timers s)) s) =
      Ret (map (cb_at (m_heap s)) (take n (m_timers s))) s' /\
    tm_wf s' /\ expires now (take n (m_timers s)) s s' /\ m_previousTime s' = m_previousTime s.
Proof.
  intros W. set (l := take n (m_timers s)). set (r := drop n (m_timers s)).
  pose proof (set_sorted_NoDup _ _ (wf_sorted s W)) as Hd.
  assert (Hlr : m_timers s = l ++ r) by (symmetry; apply take_drop).
  rewrite Hlr in Hd. apply NoDup_app in Hd as (Hdl & Hdis & _).
  assert (Hl : forall q, q ∈ l -> q ∈ m_timers s) by (intros q ?; rewrite Hlr; apply elem_of_app; auto).
  destruct (expire_spec now l (set_timers r s)) as (s' & E & Hs & Hel & Hh & F1 & F2 & F3).
  - done.
  - intros q Hq. split; [by apply Hdis|]. by apply (wf_alloc s W q), Hl.
  - exact (set_sorted_drop _ _ _ (wf_sorted s W)).
  - exists s'. split; [done|]. assert (Hexp : expires now l s s').
    { constructor; [done| |done]. intros q. rewrite Hel, Hlr, elem_of_app. cbn.
      pose proof (Hdis q). destruct (decide (q ∈ l)); tauto. }
    split; [|split; [exact Hexp|done]]. by apply (expires_wf now l s s').
Qed.

Lemma listExpiredCb_spec s tmp now :
  tm_wf s -> tmp <> 0 -> tmp ∉ m_timers s ->
  exists s', listExpiredCb tmp now s = Ret (map (cb_at (m_heap s)) (taken now s)) s' /\
    tm_wf s' /\ expires now (taken now s) s s' /\
    m_previousTime s' = (if hasTimer s then now else m_previousTime s).
Proof.
  intros W Ht0 Htmp. unfold listExpiredCb, hasTimer.
  step_with (eq_refl : get s = Ret s s). destruct (m_timers s) as [|first rest] eqn:Et.
  { exists s. unfold taken, due. rewrite Et. destruct (rolled_over now s); cbn.
    all: split; [done|]; split; [done|]; split; [|done]; constructor; [|set_solver|done];
      intros q; by rewrite decide_False by apply not_elem_of_nil. }
  rewrite <- Et in *.
  step_with (eq_refl : detectClockRollover now s = Ret (rolled_over now s) (set_previousTime now s)).
  assert (Hf : first ∈ m_timers s) by (rewrite Et; by left).
  destruct (wf_alloc s W first Hf) as [Hf0 [t Ht]].
  step_with (this_timer_run (set_previousTime now s) _ _ Ht).
  assert (Wp : tm_wf (set_previousTime now s)) by (by destruct W).
  assert (Hn : next_at (m_heap s) first = m_next t) by (unfold next_at; by rewrite Ht).
  set (r := rolled_over now s). destruct (negb r && (now <? m_next t)) eqn:Hearly.
  - apply andb_prop in Hearly as [Hr Hlt%Z.ltb_lt]. apply negb_true_iff in Hr.
    assert (Htk : taken now s = []).
    { unfold taken. fold r. rewrite Hr. apply (due_early now s first rest W Et). lia. }
    rewrite Htk. exists (set_previousTime now s). split; [done|]. split; [done|]. split; [|done].
    constructor; [|cbn; set_solver|done].
    intros q. by rewrite decide_False by apply not_elem_of_nil.
  - set (it := ((if r then _ else _) + _)%nat).
    assert (Htk : taken now s = take it (m_timers s)).
    { unfold taken. fold r. unfold it. destruct r.
      - by rewrite take_ge by lia.
      - by apply expired_prefix. }
    rewrite Htk. destruct (expire_prefix now it _ Wp) as (s' & E & W' & Hexp & Hp).
    exists s'. split; [|split; [done|split; [by destruct Hexp|done]]].
    step_with (eq_refl : modify (set_timers (drop it (m_timers s))) (set_previousTime now s) =
      Ret tt (set_timers (drop it (m_timers s)) (set_previousTime now s))). exact E.
Qed.

(** ** Traces *)

(** The calls a program makes, with the addresses [new] returns and the clock
    values they read. *)
Inductive op :=
| OpAdd (p ms : Z) (cb : option callback) (recurring : bool) (now : Z)
| OpAddCondition (p ms : Z) (cb : option Z) (weak_cond : Z) (recurring : bool) (now : Z)
| OpCancel (this : Z)
| OpRefresh (this now : Z)
| OpReset (this ms : Z) (from_now : bool) (now : Z)
| OpNext (now : Z)
| OpExpired (tmp now : Z).

Definition run_op (o : op) : M TimerManager unit :=
  match o with
  | OpAdd p ms cb recurring now => addTimer p ms cb recurring now;; mret tt
  | OpAddCondition p ms cb w recurring now => addConditionTimer p ms cb w recurring now;; mret tt
  | OpCancel this => cancel this;; mret tt
  | OpRefresh this now => refresh this now;; mret tt
  | OpReset this ms from_now now => reset this ms from_now now;; mret tt
  | OpNext now => getNextTimer now;; mret tt
  | OpExpired tmp now => listExpiredCb tmp now;; mret tt
  end.

(** [new] returns no address in use, a method is called on an object, and a
    [uint64_t] is in range. *)
Definition op_ok (s : TimerManager) (o : op) : Prop :=
  match o with
  | OpAdd p ms _ _ _ | OpAddCondition p ms _ _ _ _ => p <> 0 /\ (p ∉ m_timers s) /\ in_u 64 ms
  | OpCancel this | OpRefresh this _ => is_Some (m_heap s !! this)
  | OpReset this ms _ _ => is_Some (m_heap s !! this) /\ in_u 64 ms
  | OpNext _ => True
  | OpExpired tmp _ => tmp <> 0 /\ tmp ∉ m_timers s
  end.

Lemma getNextTimer_run now s :
  tm_wf s ->
  getNextTimer now s = Ret (match m_timers s with
    | [] => no_timer
    | p :: _ => if next_at (m_heap s) p <=? now then 0 else u64 (next_at (m_heap s) p - now)
    end) (set_tickled false s).
Proof.
  intros W. unfold getNextTimer. step_with (eq_refl : modify (set_tickled false) s = Ret tt _).
  step_with (eq_refl : get (set_tickled false s) = Ret _ _). cbn [m_timers set_tickled].
  destruct (m_timers s) as [|p l] eqn:E; [done|].
  destruct (wf_alloc s W p) as [_ [t Ht]]; [rewrite E; by left|].
  step_with (this_timer_run (set_tickled false s) p t Ht).
  assert (next_at (m_heap s) p = m_next t) as -> by (unfold next_at; by rewrite Ht).
  by destruct (m_next t <=? now).
Qed.

Lemma cb_dec (t : Timer) : {m_cb t = None} + {m_cb t <> None}.
Proof. destruct (m_cb t); [right|left]; done. Defined.

Lemma refresh_dead s p t now : m_heap s !! p = Some t -> m_cb t = None -> refresh p now s = Ret false s.
Proof.
  intros Ht Hcb. unfold refresh. step_with (this_timer_run _ _ _ Ht). by rewrite Hcb.
Qed.

Lemma reset_noop s p t ms from_now now :
  m_heap s !! p = Some t -> (ms =? m_ms t) && negb from_now = true \/ m_cb t = None ->
  exists b, reset p ms from_now now s = Ret b s.
Proof.
  intros Ht H. unfold reset. step_with (this_timer_run _ _ _ Ht).
  destruct ((ms =? m_ms t) && negb from_now); [by eexists|].
  destruct H as [|Hcb]; [done|]. rewrite Hcb. by eexists.
Qed.

Lemma run_op_wf s o : tm_wf s -> op_ok s o -> exists s', run_op o s = Ret tt s' /\ tm_wf s'.
Proof.
  intros W Hok. destruct o; cbn in Hok; cbn [run_op].
  - destruct Hok as (Hp & Hin & Hms).
    destruct (addTimer_spec s p ms cb recurring now W Hp Hin Hms) as (s' & E & W' & _).
    exists s'. by step_with E.
  - destruct Hok as (Hp & Hin & Hms). unfold addConditionTimer.
    destruct (addTimer_spec s p ms (Some (Bind_OnTimer weak_cond cb)) recurring now W Hp Hin Hms)
      as (s' & E & W' & _).
    exists s'. by step_with E.
  - destruct Hok as [t Ht]. destruct (cb_dec t) as [Hcb|Hcb].
    + exists s. by step_with (cancel_dead s this t Ht Hcb).
    + destruct (cancel_live s this t W Ht Hcb) as (s' & E & W' & _). exists s'. by step_with E.
  - destruct Hok as [t Ht]. destruct (cb_dec t) as [Hcb|Hcb].
    + exists s. by step_with (refresh_dead s this t now Ht Hcb).
    + destruct (refresh_live s this t now W Ht Hcb) as (s' & E & W' & _). exists s'. by step_with E.
  - destruct Hok as [[t Ht] Hms]. destruct (cb_dec t) as [Hcb|Hcb];
      [|destruct ((ms =? m_ms t) && negb from_now) eqn:Hb].
    + destruct (reset_noop s this t ms from_now now Ht (or_intror Hcb)) as [b E].
      exists s. by step_with E.
    + destruct (reset_noop s this t ms from_now now Ht (or_introl Hb)) as [b E].
      exists s. by step_with E.
    + destruct (reset_live s this t ms from_now now W Ht Hcb Hms Hb) as (s' & s2 & E & W' & _).
      exists s'. by step_with E.
  - exists (set_tickled false s). step_with (getNextTimer_run now s W). split; [done|]. by destruct W.
  - destruct Hok as [Ht0 Htmp].
    destruct (listExpiredCb_spec s tmp now W Ht0 Htmp) as (s' & E & W' & _). exists s'. by step_with E.
Qed.

Fixpoint run_ops (ops : list op) : M TimerManager unit :=
  match ops with [] => mret tt | o :: ops => run_op o;; run_ops ops end.

(** Each call is legal in the state its predecessors leave. *)
Fixpoint trace_ok (s : TimerManager) (ops : list op) : Prop :=
  match ops with
  | [] => True
  | o :: ops => op_ok s o /\ forall s', run_op o s = Ret tt s' -> trace_ok s' ops
  end.

Lemma tm_wf_new now : tm_wf (TimerManager_new now).
Proof.
  constructor; cbn; try done; [constructor|by intros p ?%not_elem_of_nil].
Qed.

Lemma run_ops_wf ops s : tm_wf s -> trace_ok s ops -> exists s', run_ops ops s = Ret tt s' /\ tm_wf s'.
Proof.
  revert s. induction ops as [|o ops IH]; intros s W Ht; [by exists s|].
  destruct Ht as [Hok Ht]. destruct (run_op_wf s o W Hok) as (s1 & E & W1).
  destruct (IH s1 W1 (Ht s1 E)) as (s' & E' & W'). exists s'. cbn [run_ops].
  by step_with E.
Qed.

(** ** The waiter's deadline *)

Section waiter.
(** All periods are at most [P] and all clock values at most [T]: no sum of a
    clock value and a period wraps. *)
Context (P T : Z) (HPT : T + P < 2 ^ 64).

(** A queued timer was started at a clock value that has been reached. *)
Definition clocked (clk : Z) (s : TimerManager) : Prop :=
  (forall p t, m_heap s !! p = Some t -> p ∈ m_timers s ->
     m_ms t <= m_next t <= clk + m_ms t /\ m_ms t <= P) /\
  m_previousTime s <= clk.

(** Either the waiter was notified since, or every timer is due at [D] or later. *)
Definition waiting (D F : Z) (s : TimerManager) : Prop :=
  F < m_front s \/
  (m_front s = F /\ m_tickled s = false /\ forall p, p ∈ m_timers s -> D <= next_at (m_heap s) p).

(** The clock an operation reads; one that reads none happens at [clk]. *)
Definition op_clock (clk : Z) (o : op) : Z :=
  match o with
  | OpAdd _ _ _ _ now | OpAddCondition _ _ _ _ _ now | OpRefresh _ now | OpReset _ _ _ now
  | OpNext now | OpExpired _ now => now
  | OpCancel _ => clk
  end.
Definition op_calm (clk : Z) (o : op) : Prop :=
  clk <= op_clock clk o <= T /\
  match o with
  | OpAdd _ ms _ _ _ | OpAddCondition _ ms _ _ _ _ | OpReset _ ms _ _ => ms <= P
  | OpNext _ => False
  | _ => True
  end.

Lemma next_at_some h p t : h !! p = Some t -> next_at h p = m_next t.
Proof. unfold next_at. by intros ->. Qed.

(** Changing the object of a timer outside the set. *)
Lemma off_clocked clk s p t s2 :
  clocked clk s -> m_heap s2 = <[p := t]> (m_heap s) ->
  (forall q, q ∈ m_timers s2 -> q ∈ m_timers s /\ q <> p) ->
  m_previousTime s2 = m_previousTime s -> clocked clk s2.
Proof.
  intros [Hc Hp] Hh Hel Hpr. split; [|lia]. intros q u. rewrite Hh.
  intros Hq [Hin Hne]%Hel. rewrite lookup_insert_ne in Hq by done. by apply (Hc q).
Qed.

Lemma off_waiting D F s p t s2 :
  waiting D F s -> m_heap s2 = <[p := t]> (m_heap s) ->
  (forall q, q ∈ m_timers s2 -> q ∈ m_timers s /\ q <> p) ->
  m_tickled s2 = m_tickled s -> m_front s2 = m_front s -> waiting D F s2.
Proof.
  intros Hw Hh Hel Ht Hf. unfold waiting. rewrite Hf, Ht, Hh.
  destruct Hw as [?|(? & ? & Hw)]; [by left|]. right. split; [done|]. split; [done|].
  intros q [Hin Hne]%Hel. rewrite next_at_insert, decide_False by done. by apply Hw.
Qed.

Lemma inserted_clocked clk s p s' :
  clocked clk s -> inserted s p s' ->
  (forall t, m_heap s !! p = Some t -> m_ms t <= m_next t <= clk + m_ms t /\ m_ms t <= P) ->
  clocked clk s'.
Proof.
  intros [Hc Hp] [Hh _ Hel Hpr _] Ht. split; [|lia]. rewrite Hh.
  intros q u Hq [->|Hin]%Hel; [by apply Ht|by apply (Hc q)].
Qed.

Lemma inserted_waiting D F s p s' :
  waiting D F s -> inserted s p s' -> (forall q, q ∈ m_timers s -> q <> 0) -> waiting D F s'.
Proof.
  intros Hw [Hh _ Hel _ Hfr] Hnz. unfold waiting in *. rewrite Hh.
  destruct Hfr as [(-> & -> & Hq)|(? & ? & ?)]; [|left; lia].
  destruct Hw as [?|(? & Ht & Hw)]; [by left|]. right. split; [done|]. split; [done|].
  destruct Hq as [?|(q & Hq & Hcmp)]; [congruence|].
  intros a [->|Ha]%Hel; [|by apply Hw].
  pose proof (Comparator_le _ _ _ Hcmp (Hnz q Hq)). specialize (Hw q Hq). lia.
Qed.

Lemma clocked_mono clk clk' s : clk <= clk' -> clocked clk s -> clocked clk' s.
Proof. intros Hle [Hc Hp]. split; [|lia]. intros p t H1 H2. specialize (Hc p t H1 H2). lia. Qed.

Definition good (D F clk : Z) (s : TimerManager) : Prop :=
  tm_wf s /\ clocked clk s /\ waiting D F s.

Lemma u64_sum clk t now :
  m_ms t <= P -> clk <= now <= T -> in_u 64 (m_ms t) -> 0 <= now -> u64 (now + m_ms t) = now + m_ms t.
Proof. intros. apply wrap_small. unfold in_u in *. lia. Qed.

Lemma add_good D F clk s p ms cb recurring now :
  good D F clk s -> p <> 0 -> p ∉ m_timers s -> in_u 64 ms -> clk <= now <= T -> 0 <= now -> ms <= P ->
  exists s', addTimer p ms cb recurring now s = Ret p s' /\ good D F now s'.
Proof.
  intros (W & C & V) Hp Hin Hms Hnow H0 HP.
  destruct (addTimer_spec s p ms cb recurring now W Hp Hin Hms) as (s' & E & W' & I).
  set (t := Timer_new ms cb recurring now) in *. set (s2 := set_heap _ s) in I.
  assert (Hel : forall q, q ∈ m_timers s2 -> q ∈ m_timers s /\ q <> p) by (cbn; set_solver).
  exists s'. split; [done|]. split; [done|]. split.
  - apply (inserted_clocked now s2 p s'); [|done|].
    + eapply off_clocked; [by eapply clocked_mono; [|exact C]; lia|done|exact Hel|done].
    + intros u [= <-]%(fun H => eq_trans (eq_sym (lookup_insert_eq _ p t)) H). cbn.
      unfold in_u in *. rewrite wrap_small by (unfold in_u; lia). lia.
  - apply (inserted_waiting D F s2 p s'); [|done|].
    + by eapply off_waiting.
    + intros q [Hq _]%Hel. by apply (wf_alloc s W).
Qed.

Lemma cancel_good D F clk s p :
  good D F clk s -> is_Some (m_heap s !! p) ->
  exists b s', cancel p s = Ret b s' /\ good D F clk s'.
Proof.
  intros (W & C & V) [t Ht]. destruct (cb_dec t) as [Hcb|Hcb].
  { exists false, s. split; [|done]. by apply (cancel_dead s p t). }
  destruct (cancel_live s p t W Ht Hcb) as (s' & E & W' & Hh & Hel & Ht' & Hf & Hpr).
  exists true, s'. split; [done|]. split; [done|]. split.
  - eapply off_clocked; [exact C|exact Hh| |done]. intros q Hq. by apply Hel.
  - eapply off_waiting; [exact V|exact Hh| |done|done]. intros q Hq. by apply Hel.
Qed.

Lemma refresh_good D F clk s p now :
  good D F clk s -> is_Some (m_heap s !! p) -> clk <= now <= T -> 0 <= now ->
  exists b s', refresh p now s = Ret b s' /\ good D F now s'.
Proof.
  intros (W & C & V) [t Ht] Hnow H0. pose proof (clocked_mono clk now s ltac:(lia) C) as C'.
  destruct (cb_dec t) as [Hcb|Hcb].
  { exists false, s. split; [|done]. by apply (refresh_dead s p t). }
  destruct (refresh_live s p t now W Ht Hcb) as (s' & E & W' & Hh & Hel & Ht' & Hf & Hpr).
  pose proof (wf_live s W p t Ht Hcb) as Hin. destruct C as [Hc _].
  destruct (Hc p t Ht Hin) as [Hb HP]. pose proof (wf_range s W p t Ht) as [_ Hms].
  rewrite (u64_sum clk) in Hh by done. unfold in_u in Hms.
  exists true, s'. split; [done|]. split; [done|]. split.
  - destruct C' as [Hc' Hpr']. split; [|lia]. intros q u. rewrite Hh, Hel.
    intros [[<- <-]|[Hne Hq]]%lookup_insert_Some Hin'; [cbn; lia|by apply (Hc' q)].
  - unfold waiting. rewrite Hf, Ht', Hh. destruct V as [?|(? & ? & V)]; [by left|].
    right. split; [done|]. split; [done|]. intros q Hq%Hel. specialize (V q Hq).
    rewrite next_at_insert. case_decide; [subst; cbn|done].
    rewrite (next_at_some _ _ _ Ht) in V. lia.
Qed.

Lemma reset_good D F clk s p ms from_now now :
  good D F clk s -> is_Some (m_heap s !! p) -> in_u 64 ms -> clk <= now <= T -> 0 <= now -> ms <= P ->
  exists b s', reset p ms from_now now s = Ret b s' /\ good D F now s'.
Proof.
  intros (W & C & V) [t Ht] Hms Hnow H0 HP. pose proof (clocked_mono clk now s ltac:(lia) C) as C'.
  destruct (cb_dec t) as [Hcb|Hcb].
  { destruct (reset_noop s p t ms from_now now Ht (or_intror Hcb)) as [b E]. by exists b, s. }
  destruct ((ms =? m_ms t) && negb from_now) eqn:Hb.
  { destruct (reset_noop s p t ms from_now now Ht (or_introl Hb)) as [b E]. by exists b, s. }
  destruct (reset_live s p t ms from_now now W Ht Hcb Hms Hb)
    as (s' & s2 & E & W' & I & Hh & Hel & Ht' & Hf & Hpr).
  pose proof (wf_live s W p t Ht Hcb) as Hin. destruct C as [Hc _].
  destruct (Hc p t Ht Hin) as [Hbd _]. pose proof (wf_range s W p t Ht) as [_ Hmt].
  exists true, s'. split; [done|]. split; [done|]. split.
  - apply (inserted_clocked now s2 p s'); [|done|].
    + eapply off_clocked; [exact C'|exact Hh|intros q Hq; by apply Hel|done].
    + intros u. rewrite Hh, lookup_insert_eq. intros [= <-]. cbn. unfold in_u in *.
      destruct from_now; rewrite ?(wrap_small 64 (m_next t - m_ms t)) by (unfold in_u; lia);
        rewrite wrap_small by (unfold in_u; lia); lia.
  - apply (inserted_waiting D F s2 p s'); [|done|].
    + eapply off_waiting; [exact V|exact Hh|intros q Hq; by apply Hel|done|done].
    + intros q [Hq _]%Hel. by apply (wf_alloc s W).
Qed.

Lemma expired_good D F clk s tmp now :
  good D F clk s -> tmp <> 0 -> tmp ∉ m_timers s -> clk <= now <= T -> 0 <= now ->
  exists cbs s', listExpiredCb tmp now s = Ret cbs s' /\ good D F now s'.
Proof.
  intros (W & C & V) Ht0 Htmp Hnow H0.
  destruct (listExpiredCb_spec s tmp now W Ht0 Htmp) as (s' & E & W' & [Hh Hel [Ht Hf]] & Hpr).
  destruct C as [Hc Hp].
  assert (Hr : rolled_over now s = false).
  { unfold rolled_over. by rewrite (proj2 (Z.ltb_ge _ _)) by lia. }
  assert (Hdue : forall q t, q ∈ taken now s -> m_heap s !! q = Some t -> m_next t <= now).
  { intros q t Hq Hs. unfold taken in Hq. rewrite Hr in Hq.
    apply list_elem_of_filter in Hq as [Hq _]. by rewrite (next_at_some _ _ _ Hs) in Hq. }
  assert (Hnew : forall q t, q ∈ taken now s -> q ∈ m_timers s' -> m_heap s !! q = Some t ->
    fired now t = mkTimer true (m_ms t) (now + m_ms t) (m_cb t) /\ m_ms t <= P /\ 0 <= m_ms t).
  { intros q t Hq Hin Hs. pose proof (taken_in _ _ _ Hq) as Hin0.
    destruct (Hc q t Hs Hin0) as [_ HP]. pose proof (wf_range s W q t Hs) as [_ Hms].
    apply Hel in Hin as [_ [?|Hrec]]; [done|]. unfold recurs in Hrec. rewrite Hs in Hrec.
    unfold fired. rewrite Hrec, (u64_sum clk) by done. unfold in_u in Hms. split; [done|lia]. }
  exists (map (cb_at (m_heap s)) (taken now s)), s'. split; [done|]. split; [done|]. split.
  - split; [|rewrite Hpr; destruct (hasTimer s); lia]. intros q u Hq Hin.
    rewrite Hh in Hq. case_decide as Htk.
    + apply fmap_Some in Hq as (t & Hs & ->).
      destruct (Hnew q t Htk Hin Hs) as (-> & ? & ?). cbn. lia.
    + apply Hel in Hin as [Hin _]. specialize (Hc q u Hq Hin). lia.
  - unfold waiting. rewrite Ht, Hf. destruct V as [?|(? & ? & V)]; [by left|].
    right. split; [done|]. split; [done|]. intros q Hin. pose proof Hin as [Hin0 _]%Hel.
    specialize (V q Hin0). destruct (wf_alloc s W q Hin0) as [_ [t Hs]].
    rewrite (next_at_some _ _ _ Hs) in V. unfold next_at. rewrite Hh, Hs. case_decide as Htk.
    + cbn [fmap option_fmap option_map]. destruct (Hnew q t Htk Hin Hs) as (-> & ? & ?). cbn.
      pose proof (Hdue q t Htk Hs). lia.
    + lia.
Qed.

Lemma run_op_good D F clk s o :
  good D F clk s -> 0 <= clk -> op_ok s o -> op_calm clk o ->
  exists s', run_op o s = Ret tt s' /\ good D F (op_clock clk o) s'.
Proof.
  intros G H0 Hok [Hc Hp]. destruct o; cbn in Hok, Hc, Hp; cbn [run_op op_clock].
  - destruct (add_good D F clk s p ms cb recurring now) as (s' & E & G'); try tauto; try lia.
    exists s'. by step_with E.
  - destruct (add_good D F clk s p ms (Some (Bind_OnTimer weak_cond cb)) recurring now)
      as (s' & E & G'); try tauto; try lia. exists s'. unfold addConditionTimer. by step_with E.
  - destruct (cancel_good D F clk s this G Hok) as (b & s' & E & G'). exists s'. by step_with E.
  - destruct (refresh_good D F clk s this now G Hok) as (b & s' & E & G'); [lia..|].
    exists s'. by step_with E.
  - destruct (reset_good D F clk s this ms from_now now) as (b & s' & E & G'); try tauto; try lia.
    exists s'. by step_with E.
  - done.
  - destruct (expired_good D F clk s tmp now) as (b & s' & E & G'); try tauto; try lia.
    exists s'. by step_with E.
Qed.

(** The operations of other threads between two calls of getNextTimer. *)
Fixpoint calm (clk : Z) (s : TimerManager) (ops : list op) : Prop :=
  match ops with
  | [] => True
  | o :: ops => op_ok s o /\ op_calm clk o /\
      forall s', run_op o s = Ret tt s' -> calm (op_clock clk o) s' ops
  end.

Lemma run_ops_good D F clk ops s :
  good D F clk s -> 0 <= clk -> calm clk s ops ->
  exists clk' s', run_ops ops s = Ret tt s' /\ good D F clk' s'.
Proof.
  revert clk s. induction ops as [|o ops IH]; intros clk s G H0 Hc; [by exists clk, s|].
  destruct Hc as (Hok & Hcalm & Hrest). destruct (run_op_good D F clk s o G H0 Hok Hcalm) as (s1 & E & G1).
  destruct (IH (op_clock clk o) s1 G1) as (clk' & s' & E' & G').
  - destruct Hcalm. lia.
  - by apply Hrest.
  - exists clk', s'. cbn [run_ops]. by step_with E.
Qed.

End waiter.

(** ** Properties *)

(** C5: whatever sequence of calls is made, on live timers and with fresh
    addresses, no operation of the timer manager fails: no iterator past the
    end is erased and no missing object is read; and the set stays ordered
    without duplicates, holding every timer whose callback is still set. *)
Theorem timer_ops_safe now ops :
  trace_ok (TimerManager_new now) ops ->
  exists s', run_ops ops (TimerManager_new now) = Ret tt s' /\
    set_sorted (Comparator (m_heap s')) (m_timers s') /\ NoDup (m_timers s') /\
    (forall p t, m_heap s' !! p = Some t -> m_cb t <> None -> p ∈ m_timers s').
Proof.
  intros Ht. destruct (run_ops_wf ops _ (tm_wf_new now) Ht) as (s' & E & W).
  exists s'. split; [done|]. split; [apply (wf_sorted s' W)|].
  split; [exact (set_sorted_NoDup _ _ (wf_sorted s' W))|apply (wf_live s' W)].
Qed.

(** C6: listExpiredCb hands out exactly the callbacks of the timers whose time
    has come, in order of expiry (all of them when the clock went back by more
    than an hour); a recurring one stays queued for [now + m_ms], a single-shot
    one leaves the set and loses its callback, the others are untouched. *)
Theorem listExpiredCb_exact s tmp now :
  tm_wf s -> tmp <> 0 -> tmp ∉ m_timers s ->
  exists s', listExpiredCb tmp now s =
      Ret (map (cb_at (m_heap s)) (if rolled_over now s then m_timers s else due now s)) s' /\
    tm_wf s' /\
    forall p t, p ∈ m_timers s -> m_heap s !! p = Some t ->
      if rolled_over now s || (m_next t <=? now) then
        if m_recurring t
        then p ∈ m_timers s' /\
          m_heap s' !! p = Some (mkTimer true (m_ms t) (u64 (now + m_ms t)) (m_cb t))
        else (p ∉ m_timers s') /\ m_heap s' !! p = Some (mkTimer false (m_ms t) (m_next t) None)
      else p ∈ m_timers s' /\ m_heap s' !! p = Some t.
Proof.
  intros W Ht0 Htmp. destruct (listExpiredCb_spec s tmp now W Ht0 Htmp) as (s' & E & W' & X & _).
  exists s'. split; [exact E|]. split; [done|]. intros p t Hp Ht.
  destruct X as [Hh Hel _]. pose proof (Hel p) as Hel. specialize (Hh p).
  unfold recurs in Hel. rewrite Ht in Hh, Hel.
  assert (Htk : p ∈ taken now s <-> rolled_over now s || (m_next t <=? now) = true).
  { unfold taken. destruct (rolled_over now s); [done|]. unfold due.
    cbn [orb]. rewrite list_elem_of_filter, (next_at_some _ _ _ Ht), Z.leb_le. tauto. }
  destruct (rolled_over now s || (m_next t <=? now)).
  - rewrite decide_True in Hh by (by apply Htk). cbn in Hh. unfold fired in Hh.
    destruct (m_recurring t); [tauto|]. split; [|done]. intros [_ [Hno|?]]%Hel; [|done].
    exact (Hno (proj2 Htk eq_refl)).
  - assert (p ∉ taken now s) by (rewrite Htk; done). rewrite decide_False in Hh by done. tauto.
Qed.

(** The delay getNextTimer computes is exact: until it has passed
    listExpiredCb hands out nothing and leaves the queue alone, and once it has
    passed the first timer's callback is handed out. *)
Theorem getNextTimer_exact s now d s0 tmp later :
  tm_wf s -> hasTimer s = true -> in_u 64 now -> getNextTimer now s = Ret d s0 ->
  tmp <> 0 -> tmp ∉ m_timers s -> rolled_over later s0 = false ->
  exists cbs s', listExpiredCb tmp later s0 = Ret cbs s' /\
    (now <= later < now + d -> cbs = [] /\ m_timers s' = m_timers s) /\
    (now + d <= later -> exists p rest, m_timers s = p :: rest /\ head cbs = Some (cb_at (m_heap s) p)).
Proof.
  intros W Hne Hnow Hget Ht0 Htmp Hr. rewrite (getNextTimer_run now s W) in Hget.
  unfold hasTimer in Hne. destruct (m_timers s) as [|p rest] eqn:Et; [done|].
  assert (Hp : p ∈ m_timers s) by (rewrite Et; by left).
  destruct (wf_alloc s W p Hp) as [Hp0 [t Ht]]. pose proof (wf_range s W p t Ht) as [Hnx _].
  injection Hget as Hd Hs0. rewrite (next_at_some _ _ _ Ht) in Hd.
  assert (W0 : tm_wf s0) by (subst s0; by destruct W).
  assert (Hh0 : m_heap s0 = m_heap s) by by subst s0.
  assert (Et0 : m_timers s0 = p :: rest) by by subst s0.
  assert (Hdd : now + d = Z.max now (m_next t)).
  { subst d. case_cmp; [lia|]. rewrite wrap_small; unfold in_u in *; lia. }
  destruct (listExpiredCb_spec s0 tmp later W0 Ht0) as (s' & E & W' & [_ Hel _] & _).
  { by rewrite Et0. }
  eexists _, s'. split; [exact E|]. rewrite Hh0. unfold taken in *. rewrite Hr in *. split.
  - intros Hl. assert (due later s0 = []) as Hdue.
    { apply (due_early later s0 p rest W0 Et0). rewrite Hh0, (next_at_some _ _ _ Ht). lia. }
    rewrite Hdue in *. split; [done|]. unfold listExpiredCb in E.
    step_with (eq_refl : get s0 = Ret s0 s0) in E. rewrite Et0 in E.
    step_with (eq_refl : detectClockRollover later s0 = Ret (rolled_over later s0) (set_previousTime later s0)) in E.
    rewrite <- Hh0 in Ht.
    step_with (this_timer_run (set_previousTime later s0) _ _ Ht) in E. rewrite Hr in E.
    rewrite (proj2 (Z.ltb_lt later (m_next t))) in E by lia. injection E as <-. done.
  - intros Hl. exists p, rest. split; [done|]. unfold due. rewrite Et0, filter_cons_True; [done|].
    rewrite Hh0, (next_at_some _ _ _ Ht). lia.
Qed.

(** C7: no lost wakeup.  A thread calls getNextTimer and sleeps until the time
    it was told (for ever if there was no timer).  Whatever the other threads
    do meanwhile, with a clock that does not go back and periods that do not
    overflow it, either onTimerInsertedAtFront is called, or no queued timer is
    due before that time. *)
Theorem no_lost_wakeup P T s now d s0 ops :
  T + P < 2 ^ 64 -> tm_wf s -> clocked P now s -> 0 <= now <= T ->
  getNextTimer now s = Ret d s0 -> calm P T now s0 ops ->
  exists s', run_ops ops s0 = Ret tt s' /\
    (m_front s0 < m_front s' \/
     forall p t, p ∈ m_timers s' -> m_heap s' !! p = Some t ->
       if hasTimer s then d = 0 \/ now + d <= m_next t else False).
Proof.
  intros HPT W C Hnow Hget Hcalm. rewrite (getNextTimer_run now s W) in Hget.
  injection Hget as Hd Hs0.
  assert (W0 : tm_wf s0) by (subst s0; by destruct W).
  assert (C0 : clocked P now s0) by (subst s0; by destruct C).
  set (D := if hasTimer s then now + d else 2 ^ 64).
  destruct (decide (hasTimer s = true /\ d = 0)) as [[Hh Hz]|Hd0].
  - destruct (run_ops_good P T HPT 0 (m_front s0 - 1) now ops s0) as (clk' & s' & E & _);
      [|lia|done|]. { split; [done|]. split; [done|]. left. lia. }
    exists s'. split; [done|]. right. rewrite Hh. auto.
  - destruct (run_ops_good P T HPT D (m_front s0) now ops s0) as (clk' & s' & E & W' & _ & V);
      [|lia|done|].
    + split; [done|]. split; [done|]. right. split; [done|]. split; [by subst s0|].
      intros p Hp. subst s0. cbn [m_timers m_heap set_tickled] in *. unfold D, hasTimer in *.
      destruct (m_timers s) as [|q l] eqn:Et; [by apply not_elem_of_nil in Hp|].
      pose proof (wf_sorted s W) as Hs. rewrite Et in Hs.
      assert (Hq : q ∈ m_timers s) by (rewrite Et; by left).
      destruct (wf_alloc s W q Hq) as [Hq0 [t Ht]].
      pose proof (next_le_sorted _ _ _ _ Hs Hq0 Hp). pose proof (wf_range s W q t Ht) as [Hnx _].
      rewrite (next_at_some _ _ _ Ht) in *. revert Hd Hd0. case_cmp; intros Hd Hd0;
        [exfalso; apply Hd0; by split; [|lia]|].
      rewrite wrap_small in Hd by (unfold in_u in *; lia). lia.
    + exists s'. split; [done|]. destruct V as [?|(_ & _ & V)]; [by left|]. right.
      intros p t Hp Ht. specialize (V p Hp). rewrite (next_at_some _ _ _ Ht) in V. unfold D in V.
      destruct (hasTimer s); [by right|]. pose proof (wf_range s' W' p t Ht) as [Hnx _].
      unfold in_u in Hnx. lia.
Qed.

(** ** Concrete runs *)

(** Two timers at 1000: one due at 1100, one recurring every 50. *)
Definition demo_ops : list op :=
  [ OpAdd 16 100 (Some (Plain 1)) false 1000; OpAdd 32 50 (Some (Plain 2)) true 1000;
    OpReset 16 200 true 1010; OpRefresh 32 1020; OpExpired 48 1080; OpCancel 16 ].
Definition after {A} (o : outcome TimerManager A) : TimerManager :=
  match o with Ret _ s | Throw _ s => s | Crash _ => TimerManager_new 0 end.
Definition demo : TimerManager :=
  after (run_ops [ OpAdd 16 100 (Some (Plain 1)) false 1000; OpAdd 32 50 (Some (Plain 2)) true 1000 ]
    (TimerManager_new 1000)).

Ltac run_result H := injection H as <-.

Lemma demo_tm_wf : tm_wf demo.
Proof.
  destruct (run_ops_wf [ OpAdd 16 100 (Some (Plain 1)) false 1000;
    OpAdd 32 50 (Some (Plain 2)) true 1000 ] (TimerManager_new 1000)) as (s' & E & W).
  - apply tm_wf_new.
  - cbn [trace_ok op_ok]. split; [split; [done|split; [by apply not_elem_of_nil|unfold in_u; lia]]|].
    intros s1 H1. vm_compute in H1. injection H1 as <-. split; [|done].
    split; [done|]. split; [|unfold in_u; lia]. by apply (bool_decide_unpack _).
  - unfold demo. rewrite E. done.
Qed.

Example timer_ops_safe_witness :
  exists s', run_ops demo_ops (TimerManager_new 1000) = Ret tt s' /\ m_timers s' = [32].
Proof.
  assert (H : trace_ok (TimerManager_new 1000) demo_ops).
  { unfold demo_ops; cbn [trace_ok op_ok].
    split; [split; [done|split; [by apply not_elem_of_nil|unfold in_u; lia]]|].
    intros s1 H1; vm_compute in H1; injection H1 as <-.
    split; [split; [done|split; [by apply (bool_decide_unpack _)|unfold in_u; lia]]|].
    intros s1 H1; vm_compute in H1; injection H1 as <-.
    split; [split; [by eexists|unfold in_u; lia]|].
    intros s1 H1; vm_compute in H1; injection H1 as <-.
    split; [by eexists|].
    intros s1 H1; vm_compute in H1; injection H1 as <-.
    split; [split; [done|by apply (bool_decide_unpack _)]|].
    intros s1 H1; vm_compute in H1; injection H1 as <-.
    split; [by eexists|done]. }
  destruct (timer_ops_safe 1000 demo_ops H) as (s' & E & _ & _ & _).
  exists s'. split; [exact E|]. vm_compute in E. injection E as <-. reflexivity.
Defined.

Example listExpiredCb_exact_witness :
  exists s', listExpiredCb 48 1060 demo = Ret [Some (Plain 2)] s' /\ tm_wf s'.
Proof.
  destruct (listExpiredCb_exact demo 48 1060 demo_tm_wf) as (s' & E & W & _).
  - done.
  - by apply (bool_decide_unpack _).
  - exists s'. split; [|exact W]. rewrite E. f_equal.
Defined.

Lemma demo_timers : m_timers demo = [32; 16].
Proof. vm_compute. reflexivity. Qed.

Lemma demo_fresh p : p <> 32 -> p <> 16 -> p ∉ m_timers demo.
Proof.
  intros. rewrite demo_timers, !elem_of_cons, elem_of_nil. tauto.
Qed.

Example getNextTimer_exact_witness :
  exists cbs s', listExpiredCb 48 1050 (set_tickled false demo) = Ret cbs s' /\
    head cbs = Some (Some (Plain 2)).
Proof.
  destruct (getNextTimer_exact demo 1000 50 (set_tickled false demo) 48 1050 demo_tm_wf)
    as (cbs & s' & E & _ & H).
  - reflexivity.
  - unfold in_u; lia.
  - reflexivity.
  - lia.
  - by apply demo_fresh.
  - reflexivity.
  - exists cbs, s'. split; [exact E|]. destruct H as (p & rest & Hp & Hc); [lia|].
    rewrite Hc. f_equal. rewrite demo_timers in Hp. injection Hp as <- _. reflexivity.
Defined.

Example no_lost_wakeup_witness :
  exists s', run_ops [OpAdd 48 20 (Some (Plain 3)) false 1005; OpCancel 16] (set_tickled false demo)
    = Ret tt s' /\ m_front s' = m_front demo + 1.
Proof.
  destruct (no_lost_wakeup 100000 5000 demo 1000 50 (set_tickled false demo)
    [OpAdd 48 20 (Some (Plain 3)) false 1005; OpCancel 16]) as (s' & E & _).
  - lia.
  - exact demo_tm_wf.
  - split; [|vm_compute; done]. intros p t Ht _.
    assert (m_heap demo = {[16 := mkTimer false 100 1100 (Some (Plain 1));
       32 := mkTimer true 50 1050 (Some (Plain 2))]}) as Hh by reflexivity.
    rewrite Hh in Ht. apply lookup_insert_Some in Ht as [[_ <-]|[_ Ht]]; [cbn; lia|].
    apply lookup_singleton_Some in Ht as [_ <-]. cbn; lia.
  - lia.
  - reflexivity.
  - cbn [calm op_ok op_clock]. split; [|split].
    + split; [done|]. split; [by apply (bool_decide_unpack _)|unfold in_u; lia].
    + unfold op_calm; cbn [op_clock]; lia.
    + intros s1 H1. vm_compute in H1. injection H1 as <-. split; [by eexists|].
      split; [unfold op_calm; cbn [op_clock]; lia|done].
  - exists s'. split; [exact E|]. vm_compute in E. injection E as <-. reflexivity.
Defined.
