(* ===== verification/Ragel.v ===== *)
(** The goto machines ragel writes into the .rl.cc files: states are [case n]
    blocks that choose a label by the current character, [tr n] labels run
    actions and go on to a state, [st n] labels move to the next character. *)
From S2P Require Import Prelude.

(** A label: [st0] stops the machine in its error state. *)
Inductive target := st (n : Z) | tr (n : Z).

#[export] Instance target_eq_dec : EqDecision target.
Proof. solve_decision. Defined.

(** [*p]: a char is signed. *)
Definition char (b : byte) : Z := i8 (ub b).

(** [switch (c) { case k: goto t; ... } rest]. *)
Fixpoint switch (c : Z) (table : list (Z * target)) (rest : target) : target :=
  match table with
  | [] => rest
  | (k, t) :: table => if c =? k then t else switch c table rest
  end.

(** [lo <= c && c <= hi]. *)
Definition between (lo hi c : Z) : bool := (lo <=? c) && (c <=? hi).

(** A jump table split over several definitions. *)
Fixpoint first_some {A B : Type} (fs : list (A -> option B)) (a : A) : option B :=
  match fs with
  | [] => None
  | f :: fs => match f a with Some b => Some b | None => first_some fs a end
  end.

Section machine.
(** [A]: the actions; [S]: the state they work on. *)
Context {A S : Type}.
(** The target [case cs] jumps to on character [c]; [None] when there is no
    such case, so that the switch is left at its end: there stand the labels
    [_test_eof2: cs = 2; goto _test_eof; ...], and control goes into the first. *)
Context (goto_case : Z -> Z -> option target).
(** The actions of a [tr] label and the state that follows it. *)
Context (trans : Z -> option (list A * Z)).
(** An action at offset [p]; [Some cs] when it leaves the machine by
    [{p++; cs = ...; goto _out;}]. *)
Context (run_action : A -> Z -> M S (option Z)).
(** The state of the first [_test_eof] label behind the switch. *)
Context (first_eof : Z).

Fixpoint run_actions (acts : list A) (p : Z) : M S (option Z) :=
  match acts with
  | [] => mret None
  | a :: acts =>
    out ← run_action a p;
    match out with Some cs => mret (Some cs) | None => run_actions acts p end
  end.

(** [rest]: the characters from [p] to [pe].  The result is [p] and [cs] at
    [_out]; [_test_eof n] sets [cs = n]. *)
Fixpoint exec_loop (p : Z) (rest : bytes) (cs : Z) : M S (Z * Z) :=
  match rest with
  | [] => mret (p, cs)
  | b :: rest =>
    let enter n := if n =? 0 then mret (p, 0) else exec_loop (p + 1) rest n in
    match goto_case cs (char b) with
    | None => mret (p, first_eof)
    | Some (st n) => enter n
    | Some (tr k) =>
      match trans k with
      | None => crash_with (AssertFail "label")
      | Some (acts, n) =>
        out ← run_actions acts p;
        match out with Some cs' => mret (p + 1, cs') | None => enter n end
      end
    end
  end.

Lemma exec_nil p cs s : exec_loop p [] cs s = Ret (p, cs) s.
Proof. done. Qed.

Lemma exec_st p b rest cs n s :
  goto_case cs (char b) = Some (st n) -> n <> 0 ->
  exec_loop p (b :: rest) cs s = exec_loop (p + 1) rest n s.
Proof. cbn [exec_loop]. intros -> ?. by rewrite (proj2 (Z.eqb_neq n 0)). Qed.

Lemma exec_tr p b rest cs k acts n s s' :
  goto_case cs (char b) = Some (tr k) -> trans k = Some (acts, n) -> n <> 0 ->
  run_actions acts p s = Ret None s' ->
  exec_loop p (b :: rest) cs s = exec_loop (p + 1) rest n s'.
Proof.
  cbn [exec_loop]. intros -> -> ? H. step_with H. by rewrite (proj2 (Z.eqb_neq n 0)).
Qed.

Lemma exec_out p b rest cs k acts n cs' s s' :
  goto_case cs (char b) = Some (tr k) -> trans k = Some (acts, n) ->
  run_actions acts p s = Ret (Some cs') s' ->
  exec_loop p (b :: rest) cs s = Ret (p + 1, cs') s'.
Proof. cbn [exec_loop]. intros -> -> H. by step_with H. Qed.

Lemma exec_throw p b rest cs k acts n s e s' :
  goto_case cs (char b) = Some (tr k) -> trans k = Some (acts, n) ->
  run_actions acts p s = Throw e s' -> exec_loop p (b :: rest) cs s = Throw e s'.
Proof. cbn [exec_loop]. intros -> -> H. by rewrite (bind_Throw _ _ _ _ _ H). Qed.

(** The state after characters that fire no action. *)
Fixpoint quiet (cs : Z) (xs : bytes) : option Z :=
  match xs with
  | [] => Some cs
  | b :: xs =>
    match goto_case cs (char b) with
    | Some (st n) => if n =? 0 then None else quiet n xs
    | _ => None
    end
  end.

Lemma exec_quiet xs p rest cs cs' s :
  quiet cs xs = Some cs' -> exec_loop p (xs ++ rest) cs s = exec_loop (p + zlen xs) rest cs' s.
Proof.
  revert p cs. induction xs as [|b xs IH]; intros p cs.
  - intros [= <-]. cbn [app]. by rewrite zlen_nil, Z.add_0_r.
  - cbn [quiet app]. destruct (goto_case cs (char b)) as [[n|k]|] eqn:E; try done.
    destruct (n =? 0) eqn:Hn; [done|]. intros H. apply Z.eqb_neq in Hn.
    rewrite (exec_st _ _ _ _ n) by done. rewrite (IH _ _ H), zlen_cons. f_equal; lia.
Qed.

Lemma quiet_app xs ys cs cs' : quiet cs xs = Some cs' -> quiet cs (xs ++ ys) = quiet cs' ys.
Proof.
  revert cs. induction xs as [|b xs IH]; intros cs; [by intros [= <-]|]. cbn [quiet app].
  destruct (goto_case cs (char b)) as [[n|k]|]; try done. destruct (n =? 0); [done|]. apply IH.
Qed.

Lemma quiet_loop xs cs :
  cs <> 0 -> (forall b, b ∈ xs -> goto_case cs (char b) = Some (st cs)) -> quiet cs xs = Some cs.
Proof.
  intros H0 H. induction xs as [|b xs IH]; [done|]. cbn [quiet].
  rewrite H by by left. rewrite (proj2 (Z.eqb_neq cs 0)) by done. apply IH.
  intros c Hc. apply H. by right.
Qed.

Lemma run_actions_cons a acts p s s' :
  run_action a p s = Ret None s' -> run_actions (a :: acts) p s = run_actions acts p s'.
Proof. intros H. cbn [run_actions]. by step_with H. Qed.
End machine.

(** ** Checking a property of the table on every byte *)

Definition all_bytes : list byte := map (fun n => ascii_of_nat n) (seq 0 256).

Lemma all_bytes_in b : b ∈ all_bytes.
Proof.
  unfold all_bytes. apply list_elem_of_In, in_map_iff. exists (nat_of_ascii b).
  split; [apply ascii_nat_embedding|]. apply in_seq. pose proof (nat_ascii_bounded b). lia.
Qed.

Lemma forall_bytes (f : byte -> bool) : forallb f all_bytes = true -> forall b, f b = true.
Proof. intros H b. rewrite forallb_forall in H. apply H, list_elem_of_In, all_bytes_in. Qed.

(** Every byte of a class has the same target in a state. *)
Definition class_target (goto_case : Z -> Z -> option target) (f : byte -> bool) (cs : Z) (t : target) : bool :=
  forallb (fun b => implb (f b) (bool_decide (goto_case cs (char b) = Some t))) all_bytes.

Lemma class_target_at goto_case f cs t b :
  class_target goto_case f cs t = true -> f b = true -> goto_case cs (char b) = Some t.
Proof.
  intros H Hb. pose proof (forall_bytes _ H b) as E. cbv beta in E. rewrite Hb in E.
  by apply bool_decide_eq_true in E.
Qed.
