(* ===== verification/Http.v ===== *)
(** linko/http/http.{h,cc}: methods, status codes, requests, responses and their
    text. *)
From S2P Require Import Prelude OrdMap.

(** ** Methods and status codes *)

Inductive HttpMethod :=
| DELETE | GET | HEAD | POST | PUT | CONNECT | OPTIONS | TRACE | COPY | LOCK | MKCOL |
  MOVE | PROPFIND | PROPPATCH | SEARCH | UNLOCK | BIND | REBIND | UNBIND | ACL |
  REPORT | MKACTIVITY | CHECKOUT | MERGE | MSEARCH | NOTIFY | SUBSCRIBE | UNSUBSCRIBE |
  PATCH | PURGE | MKCALENDAR | LINK | UNLINK | SOURCE
| INVALID_METHOD.

#[export] Instance HttpMethod_eq_dec : EqDecision HttpMethod.
Proof. solve_decision. Defined.

(** HTTP_METHOD_MAP. *)
Definition HTTP_METHOD_MAP : list (Z * HttpMethod * bytes) :=
  [ (0, DELETE, bs "DELETE"); (1, GET, bs "GET"); (2, HEAD, bs "HEAD");
    (3, POST, bs "POST"); (4, PUT, bs "PUT"); (5, CONNECT, bs "CONNECT");
    (6, OPTIONS, bs "OPTIONS"); (7, TRACE, bs "TRACE"); (8, COPY, bs "COPY");
    (9, LOCK, bs "LOCK"); (10, MKCOL, bs "MKCOL"); (11, MOVE, bs "MOVE");
    (12, PROPFIND, bs "PROPFIND"); (13, PROPPATCH, bs "PROPPATCH");
    (14, SEARCH, bs "SEARCH"); (15, UNLOCK, bs "UNLOCK"); (16, BIND, bs "BIND");
    (17, REBIND, bs "REBIND"); (18, UNBIND, bs "UNBIND"); (19, ACL, bs "ACL");
    (20, REPORT, bs "REPORT"); (21, MKACTIVITY, bs "MKACTIVITY");
    (22, CHECKOUT, bs "CHECKOUT"); (23, MERGE, bs "MERGE");
    (24, MSEARCH, bs "M-SEARCH"); (25, NOTIFY, bs "NOTIFY");
    (26, SUBSCRIBE, bs "SUBSCRIBE"); (27, UNSUBSCRIBE, bs "UNSUBSCRIBE");
    (28, PATCH, bs "PATCH"); (29, PURGE, bs "PURGE");
    (30, MKCALENDAR, bs "MKCALENDAR"); (31, LINK, bs "LINK");
    (32, UNLINK, bs "UNLINK"); (33, SOURCE, bs "SOURCE") ].

(** The value of an enumerator. *)
Definition method_num (m : HttpMethod) : Z :=
  match m with
  | DELETE => 0 | GET => 1 | HEAD => 2 | POST => 3 | PUT => 4 | CONNECT => 5
  | OPTIONS => 6 | TRACE => 7 | COPY => 8 | LOCK => 9 | MKCOL => 10 | MOVE => 11
  | PROPFIND => 12 | PROPPATCH => 13 | SEARCH => 14 | UNLOCK => 15 | BIND => 16
  | REBIND => 17 | UNBIND => 18 | ACL => 19 | REPORT => 20 | MKACTIVITY => 21
  | CHECKOUT => 22 | MERGE => 23 | MSEARCH => 24 | NOTIFY => 25 | SUBSCRIBE => 26
  | UNSUBSCRIBE => 27 | PATCH => 28 | PURGE => 29 | MKCALENDAR => 30 | LINK => 31
  | UNLINK => 32 | SOURCE => 33 | INVALID_METHOD => 34
  end.

(** An HttpStatus holds any code that was cast to it. *)
Definition HttpStatus : Type := Z.
Definition OK : HttpStatus := 200.

Definition HTTP_STATUS_MAP : list (Z * bytes) :=
  [ (100, bs "Continue"); (101, bs "Switching Protocols"); (102, bs "Processing");
    (200, bs "OK"); (201, bs "Created"); (202, bs "Accepted");
    (203, bs "Non-Authoritative Information"); (204, bs "No Content");
    (205, bs "Reset Content"); (206, bs "Partial Content"); (207, bs "Multi-Status");
    (208, bs "Already Reported"); (226, bs "IM Used"); (300, bs "Multiple Choices");
    (301, bs "Moved Permanently"); (302, bs "Found"); (303, bs "See Other");
    (304, bs "Not Modified"); (305, bs "Use Proxy"); (307, bs "Temporary Redirect");
    (308, bs "Permanent Redirect"); (400, bs "Bad Request"); (401, bs "Unauthorized");
    (402, bs "Payment Required"); (403, bs "Forbidden"); (404, bs "Not Found");
    (405, bs "Method Not Allowed"); (406, bs "Not Acceptable");
    (407, bs "Proxy Authentication Required"); (408, bs "Request Timeout");
    (409, bs "Conflict"); (410, bs "Gone"); (411, bs "Length Required");
    (412, bs "Precondition Failed"); (413, bs "Payload Too Large");
    (414, bs "URI Too Long"); (415, bs "Unsupported Media Type");
    (416, bs "Range Not Satisfiable"); (417, bs "Expectation Failed");
    (421, bs "Misdirected Request"); (422, bs "Unprocessable Entity");
    (423, bs "Locked"); (424, bs "Failed Dependency"); (426, bs "Upgrade Required");
    (428, bs "Precondition Required"); (429, bs "Too Many Requests");
    (431, bs "Request Header Fields Too Large");
    (451, bs "Unavailable For Legal Reasons"); (500, bs "Internal Server Error");
    (501, bs "Not Implemented"); (502, bs "Bad Gateway");
    (503, bs "Service Unavailable"); (504, bs "Gateway Timeout");
    (505, bs "HTTP Version Not Supported"); (506, bs "Variant Also Negotiates");
    (507, bs "Insufficient Storage"); (508, bs "Loop Detected");
    (510, bs "Not Extended"); (511, bs "Network Authentication Required") ].

Definition StringToHttpMethod (m : bytes) : HttpMethod :=
  match list_find (fun e => strcmp e.2 (c_str m) = 0) HTTP_METHOD_MAP with
  | Some (_, (_, name, _)) => name
  | None => INVALID_METHOD
  end.

(** [m]: the bytes that can be read from the pointer. *)
Fixpoint chars_to_method (table : list (Z * HttpMethod * bytes)) (m : bytes) : option HttpMethod :=
  match table with
  | [] => Some INVALID_METHOD
  | (_, name, str) :: table =>
    match strncmp_eq str (length str) m with
    | Some true => Some name
    | Some false => chars_to_method table m
    | None => None
    end
  end.
Definition CharsToHttpMethod (m : bytes) : option HttpMethod := chars_to_method HTTP_METHOD_MAP m.

Definition s_method_string : list bytes := map snd HTTP_METHOD_MAP.

Definition HttpMethodToString (m : HttpMethod) : bytes :=
  let idx := u32 (method_num m) in
  match s_method_string !! Z.to_nat idx with Some s => s | None => bs "<unknown>" end.

Definition HttpStatusToString (s : HttpStatus) : bytes :=
  match list_find (fun e => e.1 = s) HTTP_STATUS_MAP with
  | Some (_, (_, msg)) => msg
  | None => bs "<unknown>"
  end.

(** ** Case-insensitive maps *)

Definition CaseInsensitiveLess (lhs rhs : bytes) : bool := strcasecmp (c_str lhs) (c_str rhs) <? 0.

Definition MapType : Type := list (bytes * bytes).
Definition find (key : bytes) (m : MapType) : option bytes := map_find CaseInsensitiveLess key m.

(** [boost::lexical_cast<T>] is a parameter: [None] when it throws.  The result
    is the returned flag and what is stored in [val]. *)
Definition checkGetAs {T} (lexical_cast : bytes -> option T) (m : MapType) (key : bytes) (def : T)
    : bool * T :=
  match find key m with
  | None => (false, def)
  | Some s => match lexical_cast s with Some v => (true, v) | None => (false, def) end
  end.
Definition getAs {T} (lexical_cast : bytes -> option T) (m : MapType) (key : bytes) (def : T) : T :=
  match find key m with
  | None => def
  | Some s => match lexical_cast s with Some v => v | None => def end
  end.

(** ** Requests *)

Record HttpRequest := mkRequest {
  m_method : HttpMethod;
  m_status : HttpStatus;
  m_version : Z;
  m_close : bool;
  m_path : bytes;
  m_query : bytes;
  m_fragment : bytes;
  m_body : bytes;
  m_headers : MapType;
  m_params : MapType;
  m_cookies : MapType
}.

(** [status]: the indeterminate value of the member the constructor leaves out. *)
Definition HttpRequest_new (status version : Z) (close : bool) : HttpRequest :=
  mkRequest GET status version close (bs "/") [] [] [] [] [] [].

Definition setMethod (v : HttpMethod) (r : HttpRequest) : HttpRequest :=
  mkRequest v (m_status r) (m_version r) (m_close r) (m_path r) (m_query r) (m_fragment r)
    (m_body r) (m_headers r) (m_params r) (m_cookies r).
Definition setStatus (v : HttpStatus) (r : HttpRequest) : HttpRequest :=
  mkRequest (m_method r) v (m_version r) (m_close r) (m_path r) (m_query r) (m_fragment r)
    (m_body r) (m_headers r) (m_params r) (m_cookies r).
Definition setVersion (v : Z) (r : HttpRequest) : HttpRequest :=
  mkRequest (m_method r) (m_status r) v (m_close r) (m_path r) (m_query r) (m_fragment r)
    (m_body r) (m_headers r) (m_params r) (m_cookies r).
Definition setClose (v : bool) (r : HttpRequest) : HttpRequest :=
  mkRequest (m_method r) (m_status r) (m_version r) v (m_path r) (m_query r) (m_fragment r)
    (m_body r) (m_headers r) (m_params r) (m_cookies r).
Definition setPath (v : bytes) (r : HttpRequest) : HttpRequest :=
  mkRequest (m_method r) (m_status r) (m_version r) (m_close r) v (m_query r) (m_fragment r)
    (m_body r) (m_headers r) (m_params r) (m_cookies r).
Definition setQuery (v : bytes) (r : HttpRequest) : HttpRequest :=
  mkRequest (m_method r) (m_status r) (m_version r) (m_close r) (m_path r) v (m_fragment r)
    (m_body r) (m_headers r) (m_params r) (m_cookies r).
Definition setFragment (v : bytes) (r : HttpRequest) : HttpRequest :=
  mkRequest (m_method r) (m_status r) (m_version r) (m_close r) (m_path r) (m_query r) v
    (m_body r) (m_headers r) (m_params r) (m_cookies r).
Definition setBody (v : bytes) (r : HttpRequest) : HttpRequest :=
  mkRequest (m_method r) (m_status r) (m_version r) (m_close r) (m_path r) (m_query r)
    (m_fragment r) v (m_headers r) (m_params r) (m_cookies r).
Definition setHeaders (v : MapType) (r : HttpRequest) : HttpRequest :=
  mkRequest (m_method r) (m_status r) (m_version r) (m_close r) (m_path r) (m_query r)
    (m_fragment r) (m_body r) v (m_params r) (m_cookies r).
Definition setParams (v : MapType) (r : HttpRequest) : HttpRequest :=
  mkRequest (m_method r) (m_status r) (m_version r) (m_close r) (m_path r) (m_query r)
    (m_fragment r) (m_body r) (m_headers r) v (m_cookies r).
Definition setCookies (v : MapType) (r : HttpRequest) : HttpRequest :=
  mkRequest (m_method r) (m_status r) (m_version r) (m_close r) (m_path r) (m_query r)
    (m_fragment r) (m_body r) (m_headers r) (m_params r) v.

Definition getHeader (r : HttpRequest) (key def : bytes) : bytes :=
  match find key (m_headers r) with Some v => v | None => def end.
Definition setHeader (key val : bytes) (r : HttpRequest) : HttpRequest :=
  setHeaders (map_set CaseInsensitiveLess key val (m_headers r)) r.
Definition delHeader (key : bytes) (r : HttpRequest) : HttpRequest :=
  setHeaders (map_erase CaseInsensitiveLess key (m_headers r)) r.
(** [val]: the pointed object, [None] for a null pointer; the result is the flag
    and the object. *)
Definition hasHeader (r : HttpRequest) (key : bytes) (val : option bytes) : bool * option bytes :=
  match find key (m_headers r) with
  | None => (false, val)
  | Some v => (true, match val with Some _ => Some v | None => None end)
  end.
Definition getParam (r : HttpRequest) (key def : bytes) : bytes :=
  match find key (m_params r) with Some v => v | None => def end.
Definition setParam (key val : bytes) (r : HttpRequest) : HttpRequest :=
  setParams (map_set CaseInsensitiveLess key val (m_params r)) r.
Definition delParam (key : bytes) (r : HttpRequest) : HttpRequest :=
  setParams (map_erase CaseInsensitiveLess key (m_params r)) r.
Definition hasParam (r : HttpRequest) (key : bytes) (val : option bytes) : bool * option bytes :=
  match find key (m_params r) with
  | None => (false, val)
  | Some v => (true, match val with Some _ => Some v | None => None end)
  end.
Definition getCookie (r : HttpRequest) (key def : bytes) : bytes :=
  match find key (m_cookies r) with Some v => v | None => def end.
Definition setCookie (key val : bytes) (r : HttpRequest) : HttpRequest :=
  setCookies (map_set CaseInsensitiveLess key val (m_cookies r)) r.
Definition delCookie (key : bytes) (r : HttpRequest) : HttpRequest :=
  setCookies (map_erase CaseInsensitiveLess key (m_cookies r)) r.
Definition hasCookie (r : HttpRequest) (key : bytes) (val : option bytes) : bool * option bytes :=
  match find key (m_cookies r) with
  | None => (false, val)
  | Some v => (true, match val with Some _ => Some v | None => None end)
  end.

Definition crlf : bytes := [bz 13; bz 10].

(** The version as [dump] prints it. *)
Definition show_version (v : Z) : bytes :=
  bs "HTTP/" ++ show_dec (Z.shiftr v 4) ++ bs "." ++ show_dec (Z.land v 0x0F).

Definition is_connection (key : bytes) : bool := strcasecmp (c_str key) (bs "connection") =? 0.

(** The loops over [m_headers]; [sep] is what is printed after the name. *)
Fixpoint dump_headers (sep : bytes) (m : MapType) : bytes :=
  match m with
  | [] => []
  | (k, v) :: m =>
    if is_connection k then dump_headers sep m else k ++ sep ++ v ++ crlf ++ dump_headers sep m
  end.

(** The [else] of both [dump]s is the empty line. *)
Definition dump_body (body : bytes) : bytes :=
  match body with
  | [] => crlf
  | _ => bs "content-length:" ++ show_dec (zlen body) ++ crlf ++ crlf ++ body
  end.

Definition dump_connection (close : bool) : bytes :=
  bs "connection:" ++ (if close then bs "close" else bs "keep-alive") ++ crlf.

(** What [dump] writes. *)
Definition dump (r : HttpRequest) : bytes :=
  HttpMethodToString (m_method r) ++ bs " " ++ m_path r
  ++ (match m_query r with [] => [] | _ => bs "?" end) ++ m_query r
  ++ (match m_fragment r with [] => [] | _ => bs "#" end) ++ m_fragment r
  ++ bs " " ++ show_version (m_version r) ++ crlf
  ++ dump_connection (m_close r) ++ dump_headers (bs ":") (m_headers r) ++ dump_body (m_body r).
Definition toString (r : HttpRequest) : bytes := dump r.

(** ** Responses *)

Module Response.

Record HttpResponse := mkResponse {
  m_status : HttpStatus;
  m_version : Z;
  m_close : bool;
  m_body : bytes;
  m_reason : bytes;
  m_headers : MapType
}.

Definition HttpResponse_new (version : Z) (close : bool) : HttpResponse :=
  mkResponse OK version close [] [] [].

Definition setStatus (v : HttpStatus) (r : HttpResponse) : HttpResponse :=
  mkResponse v (m_version r) (m_close r) (m_body r) (m_reason r) (m_headers r).
Definition setVersion (v : Z) (r : HttpResponse) : HttpResponse :=
  mkResponse (m_status r) v (m_close r) (m_body r) (m_reason r) (m_headers r).
Definition setClose (v : bool) (r : HttpResponse) : HttpResponse :=
  mkResponse (m_status r) (m_version r) v (m_body r) (m_reason r) (m_headers r).
Definition setBody (v : bytes) (r : HttpResponse) : HttpResponse :=
  mkResponse (m_status r) (m_version r) (m_close r) v (m_reason r) (m_headers r).
Definition setReason (v : bytes) (r : HttpResponse) : HttpResponse :=
  mkResponse (m_status r) (m_version r) (m_close r) (m_body r) v (m_headers r).
Definition setHeaders (v : MapType) (r : HttpResponse) : HttpResponse :=
  mkResponse (m_status r) (m_version r) (m_close r) (m_body r) (m_reason r) v.

Definition getHeader (r : HttpResponse) (key def : bytes) : bytes :=
  match find key (m_headers r) with Some v => v | None => def end.
Definition setHeader (key val : bytes) (r : HttpResponse) : HttpResponse :=
  setHeaders (map_set CaseInsensitiveLess key val (m_headers r)) r.
Definition delHeader (key : bytes) (r : HttpResponse) : HttpResponse :=
  setHeaders (map_erase CaseInsensitiveLess key (m_headers r)) r.

Definition dump (r : HttpResponse) : bytes :=
  bs " " ++ show_version (m_version r) ++ bs " "
  ++ (match m_reason r with [] => HttpStatusToString (m_status r) | _ => m_reason r end) ++ crlf
  ++ dump_headers (bs ": ") (m_headers r) ++ dump_connection (m_close r) ++ dump_body (m_body r).
Definition toString (r : HttpResponse) : bytes := dump r.

End Response.
