(* ===== verification/HttpThms.v ===== *)
(** Theorems on Http: method names, and header maps that ignore case. *)
From S2P Require Import Prelude OrdMap Http.

(** ** Decimal numbers *)

Definition is_digit (c : byte) : bool := (48 <=? ub c) && (ub c <=? 57).
(** The value of a text of digits behind [a]. *)
Definition dec_value (a : Z) (s : bytes) : Z := foldl (fun a c => a * 10 + (ub c - 48)) a s.

Lemma show_dec_fuel_spec fuel n acc :
  0 <= n < 2 ^ Z.of_nat fuel ->
  exists ds, show_dec_fuel fuel n acc = ds ++ acc /\ forallb is_digit ds = true /\
    (fuel <> O -> ds <> []) /\ exists k, forall a, dec_value a ds = a * k + n.
Proof.
  revert n acc. induction fuel as [|fuel IH]; intros n acc Hn.
  - exists []. repeat split; [done|]. exists 1. intros a. cbn in *. lia.
  - cbn [show_dec_fuel]. pose proof (Z.mod_pos_bound n 10 ltac:(lia)) as Hm.
    assert (Hc : ub (bz (48 + n mod 10)) = 48 + n mod 10) by (rewrite ub_bz; apply Z.mod_small; lia).
    assert (Hd : is_digit (bz (48 + n mod 10)) = true) by (unfold is_digit; rewrite Hc; lia).
    destruct (Z.ltb_spec n 10) as [Hlt|Hge].
    + exists [bz (48 + n mod 10)]. cbn [forallb]. rewrite Hd. repeat split; [done|]. exists 10. intros a.
      cbn [dec_value foldl]. rewrite Hc. pose proof (Z.mod_small n 10 ltac:(lia)). lia.
    + destruct (IH (n / 10) (bz (48 + n mod 10) :: acc)) as (ds & -> & Hds & _ & k & Hk).
      { rewrite Nat2Z.inj_succ, Z.pow_succ_r in Hn by lia. split; [by apply Z.div_pos; lia|]. apply Z.div_lt_upper_bound; lia. }
      exists (ds ++ [bz (48 + n mod 10)]). rewrite <- app_assoc, forallb_app, Hds. cbn [forallb]. rewrite Hd.
      repeat split; [by destruct ds|]. exists (k * 10). intros a. unfold dec_value in *. rewrite foldl_app, Hk. cbn [foldl].
      rewrite Hc. pose proof (Z_div_mod_eq_full n 10). lia.
Qed.

(** The text of a number is digits, at least one, and has the number as value. *)
Lemma show_dec_spec n : 0 <= n -> show_dec n <> [] /\ forallb is_digit (show_dec n) = true /\ dec_value 0 (show_dec n) = n.
Proof.
  intros Hn. unfold show_dec. pose proof (Z.log2_nonneg n).
  destruct (show_dec_fuel_spec (Z.to_nat (Z.log2 n + 1)) n []) as (ds & -> & Hds & Hne & k & Hk).
  { rewrite Z2Nat.id by lia. split; [done|]. destruct (decide (n = 0)) as [-> |]; [done|]. rewrite Z.add_1_r. apply Z.log2_spec. lia. }
  rewrite app_nil_r. split; [apply Hne; lia|]. split; [done|]. rewrite Hk. lia.
Qed.

(** ** strcmp *)

Lemma strcmp_antisym a b : strcmp b a = - strcmp a b.
Proof.
  revert b. induction a as [|x a IH]; intros [|y b]; cbn [strcmp]; try done.
  repeat case_cmp; try lia. apply IH.
Qed.

Lemma strcmp_refl a : strcmp a a = 0.
Proof. induction a as [|x a IH]; cbn [strcmp]; [done|]. by rewrite Z.ltb_irrefl. Qed.

Lemma strcmp_eq a b : strcmp a b = 0 -> a = b.
Proof.
  revert b. induction a as [|x a IH]; intros [|y b]; cbn [strcmp]; try done.
  repeat case_cmp; try done. intros E. f_equal; [apply ub_inj; lia|by apply IH].
Qed.

Lemma strcmp_trans a b c : strcmp a b < 0 -> strcmp b c < 0 -> strcmp a c < 0.
Proof.
  revert b c. induction a as [|x a IH]; intros [|y b] [|z c]; cbn [strcmp]; try lia.
  repeat case_cmp; try lia. apply IH.
Qed.

(** What a header name is compared by. *)
Definition norm (k : bytes) : bytes := map tolower (c_str k).

#[export] Instance CaseInsensitive_weak : WeakOrder CaseInsensitiveLess norm.
Proof.
  split; unfold CaseInsensitiveLess, strcasecmp; fold norm.
  - intros a b H. change ((strcmp (norm a) (norm b) <? 0) = false). by rewrite H, strcmp_refl.
  - intros a b c. rewrite !Z.ltb_lt. apply strcmp_trans.
  - intros a b. rewrite !Z.ltb_ge. rewrite (strcmp_antisym (map tolower (c_str a))). intros.
    apply strcmp_eq. unfold norm. lia.
  - intros a a' b b' Ha Hb. unfold norm in *. by rewrite Ha, Hb.
Qed.

(** ** Methods *)

Definition method_string (m : HttpMethod) : bytes := HttpMethodToString m.

(** The names that are not read past their end. *)
Lemma strncmp_eq_prefix lit rest : strncmp_eq lit (length lit) (lit ++ rest) = Some true.
Proof. induction lit as [|x lit IH]; [done|]. cbn. by rewrite Z.eqb_refl. Qed.

(** No name is a proper beginning of another: a name followed by anything is
    recognised as itself. *)
Lemma CharsToHttpMethod_name m rest :
  CharsToHttpMethod (HttpMethodToString m ++ rest) = Some m.
Proof. by destruct m. Qed.

(** Parsing the name of a method gives the method back, from a whole string
    and from a pointer into a longer text; and only the names are accepted as
    strings. *)
Theorem method_names_roundtrip :
  (forall m rest, StringToHttpMethod (HttpMethodToString m) = m /\
     CharsToHttpMethod (HttpMethodToString m ++ rest) = Some m) /\
  (forall s m, StringToHttpMethod s = m -> m <> INVALID_METHOD -> c_str s = HttpMethodToString m).
Proof.
  split.
  - intros m rest. split; [by destruct m|]. by apply CharsToHttpMethod_name.
  - intros s m H Hm. unfold StringToHttpMethod in H.
    destruct (list_find _ _) as [[i [[n name] str]]|] eqn:E; [|congruence].
    apply list_find_Some in E as (Hi & Hs%strcmp_eq & _). cbn in Hs, H. subst name.
    rewrite <- Hs. clear Hs.
    do 34 (destruct i as [|i]; [cbn in Hi; injection Hi as <- <- <-; reflexivity|]).
    done.
Qed.

(** ** Header maps *)

(** Headers are found whatever the case of their name: a lookup after a set
    or an erase gives the new value, or none, exactly on the names equal to the
    key up to case, and the old answer on the others; the map stays ordered. *)
Theorem headers_case_insensitive r k k' v def :
  map_sorted CaseInsensitiveLess (m_headers r) ->
  map_sorted CaseInsensitiveLess (m_headers (setHeader k' v r)) /\
  map_sorted CaseInsensitiveLess (m_headers (delHeader k' r)) /\
  getHeader (setHeader k' v r) k def =
    (if decide (norm k = norm k') then v else getHeader r k def) /\
  getHeader (delHeader k' r) k def =
    (if decide (norm k = norm k') then def else getHeader r k def).
Proof.
  intros Hs. cbn. split; [by apply (map_set_sorted _ norm)|].
  split; [by apply (map_erase_sorted _)|].
  unfold getHeader, find, setHeader, delHeader. cbn.
  rewrite (map_find_set _ norm), (map_find_erase _ norm) by done. by case_decide.
Qed.

Example headers_case_insensitive_witness :
  let r := setHeader (bs "Host") (bs "a") (HttpRequest_new 0 0x11 true) in
  getHeader (setHeader (bs "HOST") (bs "b") r) (bs "host") [] = bs "b".
Proof.
  intros r.
  assert (Hs : map_sorted CaseInsensitiveLess (m_headers r)) by (repeat constructor).
  destruct (headers_case_insensitive r (bs "host") (bs "HOST") (bs "b") [] Hs) as (_ & _ & H & _).
  rewrite H. reflexivity.
Defined.

Example method_names_roundtrip_witness :
  CharsToHttpMethod (bs "GET / HTTP/1.1") = Some GET /\
  (StringToHttpMethod (bs "PUT") = PUT -> c_str (bs "PUT") = bs "PUT").
Proof.
  destruct method_names_roundtrip as [H1 H2]. split.
  - exact (proj2 (H1 GET (bs " / HTTP/1.1"))).
  - intros H. exact (H2 (bs "PUT") PUT H ltac:(done)).
Defined.
