(* ===== verification/Http11Machine.v ===== *)
(** The table of the goto machine of linko/http/http11_parser.rl.cc: one case
    per state and one action list per transition label, in the order of the
    file. *)
From S2P Require Import Prelude Ragel.

(** The actions, by the names the grammar gives them; [A_done cs] leaves the
    machine in state [cs]. *)
Inductive action :=
| A_mark | A_start_field | A_write_field | A_start_value | A_write_value
| A_request_method | A_request_uri | A_fragment | A_start_query | A_query_string
| A_http_version | A_request_path | A_xml | A_json | A_done (cs : Z).

#[export] Instance action_eq_dec : EqDecision action.
Proof. solve_decision. Defined.

(** [_widec]: the three characters that need [uri_relaxed] are widened. *)
Definition widec (relaxed : bool) (c : Z) : Z :=
  let wide := 128 + (c - -128) + (if relaxed then 256 else 0) in
  if c <? 123 then
    if between 94 94 c then wide else c
  else if 123 <? c then
    if between 125 125 c then wide else c
  else wide.

Definition states_1 (relaxed : bool) (cs c : Z) : option target :=
  match cs with
  | 1 => Some (
      switch c [(60, tr 2); (64, tr 3)]
        (if 57 <? c then if between 65 90 c then tr 0 else st 0
         else if 48 <=? c then tr 0 else st 0))
  | 2 => Some (
      if c =? 32 then tr 4
      else
        if 57 <? c then
          if between 65 90 c then st 175 else st 0
        else if 48 <=? c then st 175 else st 0)
  | 3 => let w := widec relaxed c in Some (
      switch w [(32, tr 6); (33, tr 7); (35, tr 8); (37, tr 9); (47, tr 10);
         (59, tr 7); (61, tr 7); (63, tr 11); (64, tr 7); (95, tr 7);
         (126, tr 7); (606, tr 7); (635, tr 7); (637, tr 7)]
        (if w <? 65 then if between 36 57 w then tr 7 else st 0
         else if 90 <? w then if between 97 122 w then tr 12 else st 0 else tr 12))
  | _ => None
  end.

Definition trans_1 (n : Z) : option (list action * Z) :=
  match n with
  | 0 => Some ([A_mark], 2)
  | 4 => Some ([A_request_method], 3)
  | 6 => Some ([A_mark; A_request_path; A_request_uri], 4)
  | 37 => Some ([A_request_path; A_request_uri], 4)
  | 43 => Some ([A_mark; A_fragment], 4)
  | 46 => Some ([A_fragment], 4)
  | 53 => Some ([A_start_query; A_query_string; A_request_uri], 4)
  | _ => None
  end.

Definition states_2 (relaxed : bool) (cs c : Z) : option target :=
  match cs with
  | 4 => Some (
      if c =? 72 then tr 13 else st 0)
  | 5 => Some (
      if c =? 84 then st 6 else st 0)
  | 6 => Some (
      if c =? 84 then st 7 else st 0)
  | 7 => Some (
      if c =? 80 then st 8 else st 0)
  | 8 => Some (
      if c =? 47 then st 9 else st 0)
  | 9 => Some (
      if c =? 49 then st 10 else st 0)
  | 10 => Some (
      if c =? 46 then st 11 else st 0)
  | 11 => Some (
      if between 48 49 c then st 12 else st 0)
  | 12 => Some (
      switch c [(10, tr 21); (13, tr 22)]
        (st 0))
  | 13 => Some (
      switch c [(10, tr 24); (13, tr 25); (33, tr 23); (124, tr 23); (126, tr 23)]
        (if c <? 42 then
           if c <? 11 then if between 1 8 c then tr 23 else st 0
           else if 31 <? c then if between 35 39 c then tr 23 else st 0 else tr 23
         else if 43 <? c then
           if c <? 48 then if between 45 46 c then tr 23 else st 0
           else if 57 <? c then
             if 90 <? c then
               if between 94 122 c then tr 23 else st 0
             else if 65 <=? c then tr 23 else st 0
           else tr 23
         else tr 23))
  | _ => None
  end.

Definition trans_2 (n : Z) : option (list action * Z) :=
  match n with
  | 57 => Some ([A_query_string; A_request_uri], 4)
  | 13 => Some ([A_mark], 5)
  | 21 => Some ([A_http_version], 13)
  | 30 => Some ([A_start_value; A_write_value], 13)
  | 33 => Some ([A_write_value], 13)
  | 23 => Some ([A_start_field], 14)
  | _ => None
  end.

Definition states_3 (relaxed : bool) (cs c : Z) : option target :=
  match cs with
  | 14 => Some (
      switch c [(33, st 14); (58, tr 27); (124, st 14); (126, st 14)]
        (if c <? 42 then
           if c <? 10 then if between 1 8 c then st 14 else st 0
           else if 31 <? c then if between 35 39 c then st 14 else st 0 else st 14
         else if 43 <? c then
           if c <? 48 then if between 45 46 c then st 14 else st 0
           else if 57 <? c then
             if 90 <? c then
               if between 94 122 c then st 14 else st 0
             else if 65 <=? c then st 14 else st 0
           else st 14
         else st 14))
  | 15 => Some (
      switch c [(0, st 0); (9, tr 29); (10, tr 30); (13, tr 31); (32, tr 29);
         (127, st 0)]
        (tr 28))
  | 16 => Some (
      switch c [(0, st 0); (10, tr 33); (13, tr 34); (127, st 0)]
        (st 16))
  | 17 => Some (
      if c =? 10 then st 13 else st 0)
  | _ => None
  end.

Definition trans_3 (n : Z) : option (list action * Z) :=
  match n with
  | 27 => Some ([A_write_field], 15)
  | 29 => Some ([A_start_value], 15)
  | 28 => Some ([A_start_value], 16)
  | 22 => Some ([A_http_version], 17)
  | 31 => Some ([A_start_value; A_write_value], 17)
  | 34 => Some ([A_write_value], 17)
  | 24 => Some ([A_start_field; A_done 348], 348)
  | 36 => Some ([A_done 348], 348)
  | _ => None
  end.

Definition states_4 (relaxed : bool) (cs c : Z) : option target :=
  match cs with
  | 348 => Some (
      switch c [(33, st 14); (58, tr 27); (124, st 14); (126, st 14)]
        (if c <? 42 then
           if c <? 10 then if between 1 8 c then st 14 else st 0
           else if 31 <? c then if between 35 39 c then st 14 else st 0 else st 14
         else if 43 <? c then
           if c <? 48 then if between 45 46 c then st 14 else st 0
           else if 57 <? c then
             if 90 <? c then
               if between 94 122 c then st 14 else st 0
             else if 65 <=? c then st 14 else st 0
           else st 14
         else st 14))
  | 18 => Some (
      switch c [(10, tr 36); (33, st 14); (58, tr 27); (124, st 14); (126, st 14)]
        (if c <? 42 then
           if c <? 11 then if between 1 8 c then st 14 else st 0
           else if 31 <? c then if between 35 39 c then st 14 else st 0 else st 14
         else if 43 <? c then
           if c <? 48 then if between 45 46 c then st 14 else st 0
           else if 57 <? c then
             if 90 <? c then
               if between 94 122 c then st 14 else st 0
             else if 65 <=? c then st 14 else st 0
           else st 14
         else st 14))
  | 19 => let w := widec relaxed c in Some (
      switch w [(32, tr 37); (33, st 19); (35, tr 39); (37, st 24); (47, st 26);
         (59, st 19); (61, st 19); (63, tr 42); (95, st 19); (126, st 19);
         (606, st 19); (635, st 19); (637, st 19)]
        (if w <? 64 then if between 36 57 w then st 19 else st 0
         else if 90 <? w then if between 97 122 w then st 19 else st 0 else st 19))
  | _ => None
  end.

Definition trans_4 (n : Z) : option (list action * Z) :=
  match n with
  | 25 => Some ([A_start_field], 18)
  | 7 => Some ([A_mark], 19)
  | 8 => Some ([A_mark; A_request_path; A_request_uri], 20)
  | _ => None
  end.

Definition states_5 (relaxed : bool) (cs c : Z) : option target :=
  match cs with
  | 20 => let w := widec relaxed c in Some (
      switch w [(32, tr 43); (33, tr 44); (37, tr 45); (61, tr 44); (95, tr 44);
         (126, tr 44); (606, tr 44); (635, tr 44); (637, tr 44)]
        (if w <? 63 then if between 36 59 w then tr 44 else st 0
         else if 90 <? w then if between 97 122 w then tr 44 else st 0 else tr 44))
  | 21 => let w := widec relaxed c in Some (
      switch w [(32, tr 46); (33, st 21); (37, st 22); (61, st 21); (95, st 21);
         (126, st 21); (606, st 21); (635, st 21); (637, st 21)]
        (if w <? 63 then if between 36 59 w then st 21 else st 0
         else if 90 <? w then if between 97 122 w then st 21 else st 0 else st 21))
  | _ => None
  end.

Definition trans_5 (n : Z) : option (list action * Z) :=
  match n with
  | 39 => Some ([A_request_path; A_request_uri], 20)
  | 55 => Some ([A_start_query; A_query_string; A_request_uri], 20)
  | 59 => Some ([A_query_string; A_request_uri], 20)
  | 44 => Some ([A_mark], 21)
  | 45 => Some ([A_mark], 22)
  | _ => None
  end.

Definition states_6 (relaxed : bool) (cs c : Z) : option target :=
  match cs with
  | 22 => Some (
      if c <? 65 then if between 48 57 c then st 23 else st 0
      else if 70 <? c then if between 97 102 c then st 23 else st 0 else st 23)
  | 23 => Some (
      if c <? 65 then if between 48 57 c then st 21 else st 0
      else if 70 <? c then if between 97 102 c then st 21 else st 0 else st 21)
  | 24 => Some (
      if c <? 65 then if between 48 57 c then st 25 else st 0
      else if 70 <? c then if between 97 102 c then st 25 else st 0 else st 25)
  | 25 => Some (
      if c <? 65 then if between 48 57 c then st 19 else st 0
      else if 70 <? c then if between 97 102 c then st 19 else st 0 else st 19)
  | 26 => let w := widec relaxed c in Some (
      switch w [(32, tr 37); (33, st 26); (35, tr 39); (37, st 27); (61, st 26);
         (63, tr 42); (95, st 26); (126, st 26); (606, st 26); (635, st 26);
         (637, st 26)]
        (if w <? 64 then if between 36 59 w then st 26 else st 0
         else if 90 <? w then if between 97 122 w then st 26 else st 0 else st 26))
  | 27 => Some (
      if c <? 65 then if between 48 57 c then st 28 else st 0
      else if 70 <? c then if between 97 102 c then st 28 else st 0 else st 28)
  | 28 => Some (
      if c <? 65 then if between 48 57 c then st 26 else st 0
      else if 70 <? c then if between 97 102 c then st 26 else st 0 else st 26)
  | _ => None
  end.

Definition trans_6 (n : Z) : option (list action * Z) :=
  match n with
  | 9 => Some ([A_mark], 24)
  | 203 => Some ([A_mark], 26)
  | 204 => Some ([A_mark], 27)
  | 11 => Some ([A_mark; A_request_path], 29)
  | _ => None
  end.

Definition states_7 (relaxed : bool) (cs c : Z) : option target :=
  match cs with
  | 29 => let w := widec relaxed c in Some (
      switch w [(32, tr 53); (33, tr 54); (35, tr 55); (37, tr 56); (61, tr 54);
         (95, tr 54); (126, tr 54); (606, tr 54); (635, tr 54); (637, tr 54)]
        (if w <? 63 then if between 36 59 w then tr 54 else st 0
         else if 90 <? w then if between 97 122 w then tr 54 else st 0 else tr 54))
  | 30 => let w := widec relaxed c in Some (
      switch w [(32, tr 57); (33, st 30); (35, tr 59); (37, st 31); (61, st 30);
         (95, st 30); (126, st 30); (606, st 30); (635, st 30); (637, st 30)]
        (if w <? 63 then if between 36 59 w then st 30 else st 0
         else if 90 <? w then if between 97 122 w then st 30 else st 0 else st 30))
  | 31 => Some (
      if c <? 65 then if between 48 57 c then st 32 else st 0
      else if 70 <? c then if between 97 102 c then st 32 else st 0 else st 32)
  | 32 => Some (
      if c <? 65 then if between 48 57 c then st 30 else st 0
      else if 70 <? c then if between 97 102 c then st 30 else st 0 else st 30)
  | _ => None
  end.

Definition trans_7 (n : Z) : option (list action * Z) :=
  match n with
  | 42 => Some ([A_request_path], 29)
  | 54 => Some ([A_start_query], 30)
  | 56 => Some ([A_start_query], 31)
  | 10 => Some ([A_mark], 33)
  | _ => None
  end.

Definition states_8 (relaxed : bool) (cs c : Z) : option target :=
  match cs with
  | 33 => let w := widec relaxed c in Some (
      switch w [(32, tr 37); (33, st 26); (35, tr 39); (37, st 27); (47, st 34);
         (61, st 26); (63, tr 42); (95, st 26); (126, st 26); (606, st 26);
         (635, st 26); (637, st 26)]
        (if w <? 64 then if between 36 59 w then st 26 else st 0
         else if 90 <? w then if between 97 122 w then st 26 else st 0 else st 26))
  | 34 => let w := widec relaxed c in Some (
      switch w [(32, tr 37); (33, st 35); (35, tr 39); (37, st 36); (47, st 26);
         (58, st 38); (61, st 35); (63, tr 42); (64, st 42); (91, st 47);
         (95, st 35); (126, st 35); (606, st 35); (635, st 35); (637, st 35)]
        (if w <? 65 then if between 36 59 w then st 35 else st 0
         else if 90 <? w then if between 97 122 w then st 35 else st 0 else st 35))
  | 35 => let w := widec relaxed c in Some (
      switch w [(32, tr 37); (33, st 35); (35, tr 39); (37, st 36); (47, st 26);
         (58, st 38); (61, st 35); (63, tr 42); (64, st 42); (95, st 35);
         (126, st 35); (606, st 35); (635, st 35); (637, st 35)]
        (if w <? 65 then if between 36 59 w then st 35 else st 0
         else if 90 <? w then if between 97 122 w then st 35 else st 0 else st 35))
  | _ => None
  end.

Definition states_9 (relaxed : bool) (cs c : Z) : option target :=
  match cs with
  | 36 => Some (
      if c <? 65 then if between 48 57 c then st 37 else st 0
      else if 70 <? c then if between 97 102 c then st 37 else st 0 else st 37)
  | 37 => Some (
      if c <? 65 then if between 48 57 c then st 35 else st 0
      else if 70 <? c then if between 97 102 c then st 35 else st 0 else st 35)
  | 38 => let w := widec relaxed c in Some (
      switch w [(32, tr 37); (33, st 39); (35, tr 39); (37, st 40); (47, st 26);
         (61, st 39); (63, tr 42); (64, st 42); (95, st 39); (126, st 39);
         (606, st 39); (635, st 39); (637, st 39)]
        (if w <? 58 then
           if 46 <? w then if between 48 57 w then st 38 else st 0
           else if 36 <=? w then st 39 else st 0
         else if 59 <? w then
           if 90 <? w then
             if between 97 122 w then st 39 else st 0
           else if 65 <=? w then st 39 else st 0
         else st 39))
  | 39 => let w := widec relaxed c in Some (
      switch w [(33, st 39); (37, st 40); (61, st 39); (64, st 42); (95, st 39);
         (126, st 39); (606, st 39); (635, st 39); (637, st 39)]
        (if w <? 48 then if between 36 46 w then st 39 else st 0
         else if 59 <? w then
           if 90 <? w then
             if between 97 122 w then st 39 else st 0
           else if 65 <=? w then st 39 else st 0
         else st 39))
  | 40 => Some (
      if c <? 65 then if between 48 57 c then st 41 else st 0
      else if 70 <? c then if between 97 102 c then st 41 else st 0 else st 41)
  | _ => None
  end.

Definition states_10 (relaxed : bool) (cs c : Z) : option target :=
  match cs with
  | 41 => Some (
      if c <? 65 then if between 48 57 c then st 39 else st 0
      else if 70 <? c then if between 97 102 c then st 39 else st 0 else st 39)
  | 42 => let w := widec relaxed c in Some (
      switch w [(32, tr 37); (33, st 43); (35, tr 39); (37, st 44); (47, st 26);
         (58, st 46); (61, st 43); (63, tr 42); (91, st 47); (95, st 43);
         (126, st 43); (606, st 43); (635, st 43); (637, st 43)]
        (if w <? 65 then if between 36 59 w then st 43 else st 0
         else if 90 <? w then if between 97 122 w then st 43 else st 0 else st 43))
  | 43 => let w := widec relaxed c in Some (
      switch w [(32, tr 37); (33, st 43); (35, tr 39); (37, st 44); (47, st 26);
         (58, st 46); (61, st 43); (63, tr 42); (95, st 43); (126, st 43);
         (606, st 43); (635, st 43); (637, st 43)]
        (if w <? 65 then if between 36 59 w then st 43 else st 0
         else if 90 <? w then if between 97 122 w then st 43 else st 0 else st 43))
  | 44 => Some (
      if c <? 65 then if between 48 57 c then st 45 else st 0
      else if 70 <? c then if between 97 102 c then st 45 else st 0 else st 45)
  | 45 => Some (
      if c <? 65 then if between 48 57 c then st 43 else st 0
      else if 70 <? c then if between 97 102 c then st 43 else st 0 else st 43)
  | 46 => Some (
      switch c [(32, tr 37); (35, tr 39); (47, st 26); (63, tr 42)]
        (if between 48 57 c then st 46 else st 0))
  | _ => None
  end.

Definition states_11 (relaxed : bool) (cs c : Z) : option target :=
  match cs with
  | 47 => Some (
      switch c [(6, st 48); (58, st 167); (118, st 169)]
        (if c <? 65 then if between 48 57 c then st 91 else st 0
         else if 70 <? c then if between 97 102 c then st 91 else st 0 else st 91))
  | 48 => Some (
      if c <? 65 then if between 48 57 c then st 49 else st 0
      else if 70 <? c then if between 97 102 c then st 49 else st 0 else st 49)
  | 49 => Some (
      if c =? 58 then st 53
      else
        if c <? 65 then if between 48 57 c then st 50 else st 0
        else if 70 <? c then if between 97 102 c then st 50 else st 0 else st 50)
  | 50 => Some (
      if c =? 58 then st 53
      else
        if c <? 65 then if between 48 57 c then st 51 else st 0
        else if 70 <? c then if between 97 102 c then st 51 else st 0 else st 51)
  | 51 => Some (
      if c =? 58 then st 53
      else
        if c <? 65 then if between 48 57 c then st 52 else st 0
        else if 70 <? c then if between 97 102 c then st 52 else st 0 else st 52)
  | 52 => Some (
      if c =? 58 then st 53 else st 0)
  | 53 => Some (
      switch c [(49, st 84); (50, st 87)]
        (if c <? 65 then if between 48 57 c then st 54 else st 0
         else if 70 <? c then if between 97 102 c then st 90 else st 0 else st 90))
  | 54 => Some (
      switch c [(46, st 55); (58, st 80)]
        (if c <? 65 then if between 48 57 c then st 77 else st 0
         else if 70 <? c then if between 97 102 c then st 77 else st 0 else st 77))
  | 55 => Some (
      switch c [(49, st 72); (50, st 74)]
        (if between 48 57 c then st 56 else st 0))
  | 56 => Some (
      if c =? 46 then st 57 else st 0)
  | 57 => Some (
      switch c [(49, st 67); (50, st 69)]
        (if between 48 57 c then st 58 else st 0))
  | _ => None
  end.

Definition states_12 (relaxed : bool) (cs c : Z) : option target :=
  match cs with
  | 58 => Some (
      if c =? 46 then st 59 else st 0)
  | 59 => Some (
      switch c [(49, st 62); (50, st 64)]
        (if between 48 57 c then st 60 else st 0))
  | 60 => Some (
      if c =? 93 then st 61 else st 0)
  | 61 => Some (
      switch c [(32, tr 37); (35, tr 39); (47, st 26); (58, st 46); (63, tr 42)]
        (st 0))
  | 62 => Some (
      if c =? 93 then st 61 else if between 48 57 c then st 63 else st 0)
  | 63 => Some (
      if c =? 93 then st 61 else if between 48 57 c then st 60 else st 0)
  | 64 => Some (
      switch c [(48, st 65); (53, st 66); (93, st 61)]
        (st 0))
  | 65 => Some (
      if between 48 57 c then st 60 else st 0)
  | 66 => Some (
      if c =? 48 then st 60 else st 0)
  | 67 => Some (
      if c =? 46 then st 59 else if between 48 57 c then st 68 else st 0)
  | 68 => Some (
      if c =? 46 then st 59 else if between 48 57 c then st 58 else st 0)
  | 69 => Some (
      switch c [(46, st 59); (48, st 70); (53, st 71)]
        (st 0))
  | 70 => Some (
      if between 48 57 c then st 58 else st 0)
  | 71 => Some (
      if c =? 48 then st 58 else st 0)
  | 72 => Some (
      if c =? 46 then st 57 else if between 48 57 c then st 73 else st 0)
  | 73 => Some (
      if c =? 46 then st 57 else if between 48 57 c then st 56 else st 0)
  | _ => None
  end.

Definition states_13 (relaxed : bool) (cs c : Z) : option target :=
  match cs with
  | 74 => Some (
      switch c [(46, st 57); (48, st 75); (53, st 76)]
        (st 0))
  | 75 => Some (
      if between 48 57 c then st 56 else st 0)
  | 76 => Some (
      if c =? 48 then st 56 else st 0)
  | 77 => Some (
      if c =? 58 then st 80
      else
        if c <? 65 then if between 48 57 c then st 78 else st 0
        else if 70 <? c then if between 97 102 c then st 78 else st 0 else st 78)
  | 78 => Some (
      if c =? 58 then st 80
      else
        if c <? 65 then if between 48 57 c then st 79 else st 0
        else if 70 <? c then if between 97 102 c then st 79 else st 0 else st 79)
  | 79 => Some (
      if c =? 58 then st 80 else st 0)
  | 80 => Some (
      if c <? 65 then if between 48 57 c then st 81 else st 0
      else if 70 <? c then if between 97 102 c then st 81 else st 0 else st 81)
  | 81 => Some (
      if c =? 93 then st 61
      else
        if c <? 65 then if between 48 57 c then st 82 else st 0
        else if 70 <? c then if between 97 102 c then st 82 else st 0 else st 82)
  | 82 => Some (
      if c =? 93 then st 61
      else
        if c <? 65 then if between 48 57 c then st 83 else st 0
        else if 70 <? c then if between 97 102 c then st 83 else st 0 else st 83)
  | 83 => Some (
      if c =? 93 then st 61
      else
        if c <? 65 then if between 48 57 c then st 60 else st 0
        else if 70 <? c then if between 97 102 c then st 60 else st 0 else st 60)
  | 84 => Some (
      switch c [(46, st 55); (58, st 80)]
        (if c <? 65 then if between 48 57 c then st 85 else st 0
         else if 70 <? c then if between 97 102 c then st 77 else st 0 else st 77))
  | _ => None
  end.

Definition states_14 (relaxed : bool) (cs c : Z) : option target :=
  match cs with
  | 85 => Some (
      switch c [(46, st 55); (58, st 80)]
        (if c <? 65 then if between 48 57 c then st 86 else st 0
         else if 70 <? c then if between 97 102 c then st 78 else st 0 else st 78))
  | 86 => Some (
      switch c [(46, st 55); (58, st 80)]
        (if c <? 65 then if between 48 57 c then st 79 else st 0
         else if 70 <? c then if between 97 102 c then st 79 else st 0 else st 79))
  | 87 => Some (
      switch c [(46, st 55); (48, st 88); (53, st 89); (58, st 80)]
        (if c <? 65 then if between 49 57 c then st 77 else st 0
         else if 70 <? c then if between 97 102 c then st 77 else st 0 else st 77))
  | 88 => Some (
      if c =? 58 then st 80
      else
        if c <? 65 then if between 48 57 c then st 86 else st 0
        else if 70 <? c then if between 97 102 c then st 78 else st 0 else st 78)
  | 89 => Some (
      switch c [(48, st 86); (58, st 80)]
        (if c <? 65 then if between 49 57 c then st 78 else st 0
         else if 70 <? c then if between 97 102 c then st 78 else st 0 else st 78))
  | 90 => Some (
      if c =? 58 then st 80
      else
        if c <? 65 then if between 48 57 c then st 77 else st 0
        else if 70 <? c then if between 97 102 c then st 77 else st 0 else st 77)
  | 91 => Some (
      if c =? 58 then st 95
      else
        if c <? 65 then if between 48 57 c then st 92 else st 0
        else if 70 <? c then if between 97 102 c then st 92 else st 0 else st 92)
  | 92 => Some (
      if c =? 58 then st 95
      else
        if c <? 65 then if between 48 57 c then st 93 else st 0
        else if 70 <? c then if between 97 102 c then st 93 else st 0 else st 93)
  | 93 => Some (
      if c =? 58 then st 95
      else
        if c <? 65 then if between 48 57 c then st 94 else st 0
        else if 70 <? c then if between 97 102 c then st 94 else st 0 else st 94)
  | _ => None
  end.

Definition states_15 (relaxed : bool) (cs c : Z) : option target :=
  match cs with
  | 94 => Some (
      if c =? 58 then st 95 else st 0)
  | 95 => Some (
      if c =? 58 then st 166
      else
        if c <? 65 then if between 48 57 c then st 96 else st 0
        else if 70 <? c then if between 97 102 c then st 96 else st 0 else st 96)
  | 96 => Some (
      if c =? 58 then st 100
      else
        if c <? 65 then if between 48 57 c then st 97 else st 0
        else if 70 <? c then if between 97 102 c then st 97 else st 0 else st 97)
  | 97 => Some (
      if c =? 58 then st 100
      else
        if c <? 65 then if between 48 57 c then st 98 else st 0
        else if 70 <? c then if between 97 102 c then st 98 else st 0 else st 98)
  | 98 => Some (
      if c =? 58 then st 100
      else
        if c <? 65 then if between 48 57 c then st 99 else st 0
        else if 70 <? c then if between 97 102 c then st 99 else st 0 else st 99)
  | 99 => Some (
      if c =? 58 then st 100 else st 0)
  | 100 => Some (
      if c =? 58 then st 165
      else
        if c <? 65 then
          if between 48 57 c then st 101 else st 0
        else if 70 <? c then if between 97 102 c then st 101 else st 0 else st 101)
  | 101 => Some (
      if c =? 58 then st 105
      else
        if c <? 65 then
          if between 48 57 c then st 102 else st 0
        else if 70 <? c then if between 97 102 c then st 102 else st 0 else st 102)
  | 102 => Some (
      if c =? 58 then st 105
      else
        if c <? 65 then
          if between 48 57 c then st 103 else st 0
        else if 70 <? c then if between 97 102 c then st 103 else st 0 else st 103)
  | 103 => Some (
      if c =? 58 then st 105
      else
        if c <? 65 then
          if between 48 57 c then st 104 else st 0
        else if 70 <? c then if between 97 102 c then st 104 else st 0 else st 104)
  | 104 => Some (
      if c =? 58 then st 105 else st 0)
  | _ => None
  end.

Definition states_16 (relaxed : bool) (cs c : Z) : option target :=
  match cs with
  | 105 => Some (
      if c =? 58 then st 164
      else
        if c <? 65 then
          if between 48 57 c then st 106 else st 0
        else if 70 <? c then if between 97 102 c then st 106 else st 0 else st 106)
  | 106 => Some (
      if c =? 58 then st 110
      else
        if c <? 65 then
          if between 48 57 c then st 107 else st 0
        else if 70 <? c then if between 97 102 c then st 107 else st 0 else st 107)
  | 107 => Some (
      if c =? 58 then st 110
      else
        if c <? 65 then
          if between 48 57 c then st 108 else st 0
        else if 70 <? c then if between 97 102 c then st 108 else st 0 else st 108)
  | 108 => Some (
      if c =? 58 then st 110
      else
        if c <? 65 then
          if between 48 57 c then st 109 else st 0
        else if 70 <? c then if between 97 102 c then st 109 else st 0 else st 109)
  | 109 => Some (
      if c =? 58 then st 110 else st 0)
  | 110 => Some (
      if c =? 58 then st 163
      else
        if c <? 65 then
          if between 48 57 c then st 111 else st 0
        else if 70 <? c then if between 97 102 c then st 111 else st 0 else st 111)
  | 111 => Some (
      if c =? 58 then st 115
      else
        if c <? 65 then
          if between 48 57 c then st 112 else st 0
        else if 70 <? c then if between 97 102 c then st 112 else st 0 else st 112)
  | 112 => Some (
      if c =? 58 then st 115
      else
        if c <? 65 then
          if between 48 57 c then st 113 else st 0
        else if 70 <? c then if between 97 102 c then st 113 else st 0 else st 113)
  | 113 => Some (
      if c =? 58 then st 115
      else
        if c <? 65 then
          if between 48 57 c then st 114 else st 0
        else if 70 <? c then if between 97 102 c then st 114 else st 0 else st 114)
  | 114 => Some (
      if c =? 58 then st 115 else st 0)
  | 115 => Some (
      if c =? 58 then st 151
      else
        if c <? 65 then
          if between 48 57 c then st 116 else st 0
        else if 70 <? c then if between 97 102 c then st 116 else st 0 else st 116)
  | _ => None
  end.

Definition states_17 (relaxed : bool) (cs c : Z) : option target :=
  match cs with
  | 116 => Some (
      if c =? 58 then st 120
      else
        if c <? 65 then
          if between 48 57 c then st 117 else st 0
        else if 70 <? c then if between 97 102 c then st 117 else st 0 else st 117)
  | 117 => Some (
      if c =? 58 then st 120
      else
        if c <? 65 then
          if between 48 57 c then st 118 else st 0
        else if 70 <? c then if between 97 102 c then st 118 else st 0 else st 118)
  | 118 => Some (
      if c =? 58 then st 120
      else
        if c <? 65 then
          if between 48 57 c then st 119 else st 0
        else if 70 <? c then if between 97 102 c then st 119 else st 0 else st 119)
  | 119 => Some (
      if c =? 58 then st 120 else st 0)
  | 120 => Some (
      if c =? 58 then st 150
      else
        if c <? 65 then
          if between 48 57 c then st 121 else st 0
        else if 70 <? c then if between 97 102 c then st 121 else st 0 else st 121)
  | 121 => Some (
      if c =? 58 then st 125
      else
        if c <? 65 then
          if between 48 57 c then st 122 else st 0
        else if 70 <? c then if between 97 102 c then st 122 else st 0 else st 122)
  | 122 => Some (
      if c =? 58 then st 125
      else
        if c <? 65 then
          if between 48 57 c then st 123 else st 0
        else if 70 <? c then if between 97 102 c then st 123 else st 0 else st 123)
  | 123 => Some (
      if c =? 58 then st 125
      else
        if c <? 65 then
          if between 48 57 c then st 124 else st 0
        else if 70 <? c then if between 97 102 c then st 124 else st 0 else st 124)
  | 124 => Some (
      if c =? 58 then st 125 else st 0)
  | 125 => Some (
      if c =? 58 then st 126
      else
        if c <? 65 then
          if between 48 57 c then st 121 else st 0
        else if 70 <? c then if between 97 102 c then st 121 else st 0 else st 121)
  | _ => None
  end.

Definition states_18 (relaxed : bool) (cs c : Z) : option target :=
  match cs with
  | 126 => Some (
      switch c [(49, st 143); (50, st 146); (93, st 61)]
        (if c <? 48 then if between 2 3 c then st 48 else st 0
         else if 57 <? c then
           if 70 <? c then
             if between 97 102 c then st 149 else st 0
           else if 65 <=? c then st 149 else st 0
         else st 127))
  | 127 => Some (
      switch c [(46, st 55); (58, st 131); (93, st 61)]
        (if c <? 65 then
           if between 48 57 c then st 128 else st 0
         else if 70 <? c then if between 97 102 c then st 128 else st 0 else st 128))
  | 128 => Some (
      switch c [(58, st 131); (93, st 61)]
        (if c <? 65 then
           if between 48 57 c then st 129 else st 0
         else if 70 <? c then if between 97 102 c then st 129 else st 0 else st 129))
  | 129 => Some (
      switch c [(58, st 131); (93, st 61)]
        (if c <? 65 then
           if between 48 57 c then st 130 else st 0
         else if 70 <? c then if between 97 102 c then st 130 else st 0 else st 130))
  | 130 => Some (
      switch c [(58, st 131); (93, st 61)]
        (st 0))
  | 131 => Some (
      switch c [(49, st 136); (50, st 139)]
        (if c <? 65 then
           if between 48 57 c then st 132 else st 0
         else if 70 <? c then if between 97 102 c then st 142 else st 0 else st 142))
  | 132 => Some (
      switch c [(46, st 55); (58, st 80); (93, st 61)]
        (if c <? 65 then
           if between 48 57 c then st 133 else st 0
         else if 70 <? c then if between 97 102 c then st 133 else st 0 else st 133))
  | 133 => Some (
      switch c [(58, st 80); (93, st 61)]
        (if c <? 65 then
           if between 48 57 c then st 134 else st 0
         else if 70 <? c then if between 97 102 c then st 134 else st 0 else st 134))
  | 134 => Some (
      switch c [(58, st 80); (93, st 61)]
        (if c <? 65 then
           if between 48 57 c then st 135 else st 0
         else if 70 <? c then if between 97 102 c then st 135 else st 0 else st 135))
  | _ => None
  end.

Definition states_19 (relaxed : bool) (cs c : Z) : option target :=
  match cs with
  | 135 => Some (
      switch c [(58, st 80); (93, st 61)]
        (st 0))
  | 136 => Some (
      switch c [(46, st 55); (58, st 80); (93, st 61)]
        (if c <? 65 then
           if between 48 57 c then st 137 else st 0
         else if 70 <? c then if between 97 102 c then st 133 else st 0 else st 133))
  | 137 => Some (
      switch c [(46, st 55); (58, st 80); (93, st 61)]
        (if c <? 65 then
           if between 48 57 c then st 138 else st 0
         else if 70 <? c then if between 97 102 c then st 134 else st 0 else st 134))
  | 138 => Some (
      switch c [(46, st 55); (58, st 80); (93, st 61)]
        (if c <? 65 then
           if between 48 57 c then st 135 else st 0
         else if 70 <? c then if between 97 102 c then st 135 else st 0 else st 135))
  | 139 => Some (
      switch c [(46, st 55); (48, st 140); (53, st 141); (58, st 80); (93, st 61)]
        (if c <? 65 then
           if between 49 57 c then st 133 else st 0
         else if 70 <? c then if between 97 102 c then st 133 else st 0 else st 133))
  | 140 => Some (
      switch c [(58, st 80); (93, st 61)]
        (if c <? 65 then
           if between 48 57 c then st 138 else st 0
         else if 70 <? c then if between 97 102 c then st 134 else st 0 else st 134))
  | 141 => Some (
      switch c [(48, st 138); (58, st 80); (93, st 61)]
        (if c <? 65 then
           if between 49 57 c then st 134 else st 0
         else if 70 <? c then if between 97 102 c then st 134 else st 0 else st 134))
  | 142 => Some (
      switch c [(58, st 80); (93, st 61)]
        (if c <? 65 then
           if between 48 57 c then st 133 else st 0
         else if 70 <? c then if between 97 102 c then st 133 else st 0 else st 133))
  | _ => None
  end.

Definition states_20 (relaxed : bool) (cs c : Z) : option target :=
  match cs with
  | 143 => Some (
      switch c [(46, st 55); (58, st 131); (93, st 61)]
        (if c <? 65 then
           if between 48 57 c then st 144 else st 0
         else if 70 <? c then if between 97 102 c then st 128 else st 0 else st 128))
  | 144 => Some (
      switch c [(46, st 55); (58, st 131); (93, st 61)]
        (if c <? 65 then
           if between 48 57 c then st 145 else st 0
         else if 70 <? c then if between 97 102 c then st 129 else st 0 else st 129))
  | 145 => Some (
      switch c [(46, st 55); (58, st 131); (93, st 61)]
        (if c <? 65 then
           if between 48 57 c then st 130 else st 0
         else if 70 <? c then if between 97 102 c then st 130 else st 0 else st 130))
  | 146 => Some (
      switch c [(46, st 55); (48, st 147); (53, st 148); (58, st 131); (93, st 61)]
        (if c <? 65 then
           if between 49 57 c then st 128 else st 0
         else if 70 <? c then if between 97 102 c then st 128 else st 0 else st 128))
  | 147 => Some (
      switch c [(58, st 131); (93, st 61)]
        (if c <? 65 then
           if between 48 57 c then st 145 else st 0
         else if 70 <? c then if between 97 102 c then st 129 else st 0 else st 129))
  | 148 => Some (
      switch c [(48, st 145); (58, st 131); (93, st 61)]
        (if c <? 65 then
           if between 49 57 c then st 129 else st 0
         else if 70 <? c then if between 97 102 c then st 129 else st 0 else st 129))
  | 149 => Some (
      switch c [(58, st 131); (93, st 61)]
        (if c <? 65 then
           if between 48 57 c then st 128 else st 0
         else if 70 <? c then if between 97 102 c then st 128 else st 0 else st 128))
  | 150 => Some (
      switch c [(49, st 143); (50, st 146)]
        (if c <? 48 then if between 2 3 c then st 48 else st 0
         else if 57 <? c then
           if 70 <? c then
             if between 97 102 c then st 149 else st 0
           else if 65 <=? c then st 149 else st 0
         else st 127))
  | _ => None
  end.

Definition states_21 (relaxed : bool) (cs c : Z) : option target :=
  match cs with
  | 151 => Some (
      switch c [(49, st 156); (50, st 159)]
        (if c <? 48 then if between 2 3 c then st 48 else st 0
         else if 57 <? c then
           if 70 <? c then
             if between 97 102 c then st 162 else st 0
           else if 65 <=? c then st 162 else st 0
         else st 152))
  | 152 => Some (
      switch c [(46, st 55); (58, st 131)]
        (if c <? 65 then
           if between 48 57 c then st 153 else st 0
         else if 70 <? c then if between 97 102 c then st 153 else st 0 else st 153))
  | 153 => Some (
      if c =? 58 then st 131
      else
        if c <? 65 then
          if between 48 57 c then st 154 else st 0
        else if 70 <? c then if between 97 102 c then st 154 else st 0 else st 154)
  | 154 => Some (
      if c =? 58 then st 131
      else
        if c <? 65 then
          if between 48 57 c then st 155 else st 0
        else if 70 <? c then if between 97 102 c then st 155 else st 0 else st 155)
  | 155 => Some (
      if c =? 58 then st 131 else st 0)
  | 156 => Some (
      switch c [(46, st 55); (58, st 131)]
        (if c <? 65 then
           if between 48 57 c then st 157 else st 0
         else if 70 <? c then if between 97 102 c then st 153 else st 0 else st 153))
  | 157 => Some (
      switch c [(46, st 55); (58, st 131)]
        (if c <? 65 then
           if between 48 57 c then st 158 else st 0
         else if 70 <? c then if between 97 102 c then st 154 else st 0 else st 154))
  | 158 => Some (
      switch c [(46, st 55); (58, st 131)]
        (if c <? 65 then
           if between 48 57 c then st 155 else st 0
         else if 70 <? c then if between 97 102 c then st 155 else st 0 else st 155))
  | 159 => Some (
      switch c [(46, st 55); (48, st 160); (53, st 161); (58, st 131)]
        (if c <? 65 then
           if between 49 57 c then st 153 else st 0
         else if 70 <? c then if between 97 102 c then st 153 else st 0 else st 153))
  | _ => None
  end.

Definition states_22 (relaxed : bool) (cs c : Z) : option target :=
  match cs with
  | 160 => Some (
      if c =? 58 then st 131
      else
        if c <? 65 then
          if between 48 57 c then st 158 else st 0
        else if 70 <? c then if between 97 102 c then st 154 else st 0 else st 154)
  | 161 => Some (
      switch c [(48, st 158); (58, st 131)]
        (if c <? 65 then
           if between 49 57 c then st 154 else st 0
         else if 70 <? c then if between 97 102 c then st 154 else st 0 else st 154))
  | 162 => Some (
      if c =? 58 then st 131
      else
        if c <? 65 then
          if between 48 57 c then st 153 else st 0
        else if 70 <? c then if between 97 102 c then st 153 else st 0 else st 153)
  | 163 => Some (
      if c <? 48 then if between 2 3 c then st 48 else st 0
      else if 57 <? c then
        if 70 <? c then
          if between 97 102 c then st 49 else st 0
        else if 65 <=? c then st 49 else st 0
      else st 49)
  | 164 => Some (
      if between 2 3 c then st 48 else st 0)
  | 165 => Some (
      if c =? 3 then st 48 else st 0)
  | 166 => Some (
      if c =? 4 then st 48 else st 0)
  | 167 => Some (
      if c =? 58 then st 168 else st 0)
  | 168 => Some (
      switch c [(49, st 143); (50, st 146); (93, st 61)]
        (if c <? 48 then if between 2 5 c then st 48 else st 0
         else if 57 <? c then
           if 70 <? c then
             if between 97 102 c then st 149 else st 0
           else if 65 <=? c then st 149 else st 0
         else st 127))
  | 169 => Some (
      if c <? 65 then
        if between 48 57 c then st 170 else st 0
      else if 70 <? c then if between 97 102 c then st 170 else st 0 else st 170)
  | 170 => Some (
      if c =? 46 then st 171
      else
        if c <? 65 then
          if between 48 57 c then st 170 else st 0
        else if 70 <? c then if between 97 102 c then st 170 else st 0 else st 170)
  | _ => None
  end.

Definition states_23 (relaxed : bool) (cs c : Z) : option target :=
  match cs with
  | 171 => let w := widec relaxed c in Some (
      switch w [(33, st 172); (36, st 172); (61, st 172); (95, st 172);
         (126, st 172); (606, st 172); (635, st 172); (637, st 172)]
        (if w <? 48 then
           if between 38 46 w then st 172 else st 0
         else if 59 <? w then
           if 90 <? w then
             if between 97 122 w then st 172 else st 0
           else if 65 <=? w then st 172 else st 0
         else st 172))
  | 172 => let w := widec relaxed c in Some (
      switch w [(33, st 172); (36, st 172); (61, st 172); (93, st 61); (95, st 172);
         (126, st 172); (606, st 172); (635, st 172); (637, st 172)]
        (if w <? 48 then
           if between 38 46 w then st 172 else st 0
         else if 59 <? w then
           if 90 <? w then
             if between 97 122 w then st 172 else st 0
           else if 65 <=? w then st 172 else st 0
         else st 172))
  | _ => None
  end.

Definition trans_23 (n : Z) : option (list action * Z) :=
  match n with
  | 12 => Some ([A_mark], 173)
  | _ => None
  end.

Definition states_24 (relaxed : bool) (cs c : Z) : option target :=
  match cs with
  | 173 => let w := widec relaxed c in Some (
      switch w [(32, tr 37); (33, st 19); (35, tr 39); (37, st 24); (43, st 173);
         (47, st 26); (58, st 174); (59, st 19); (61, st 19); (63, tr 42);
         (64, st 19); (95, st 19); (126, st 19); (606, st 19); (635, st 19);
         (637, st 19)]
        (if w <? 45 then if between 36 44 w then st 19 else st 0
         else if 57 <? w then
           if 90 <? w then
             if between 97 122 w then st 173 else st 0
           else if 65 <=? w then st 173 else st 0
         else st 173))
  | 174 => let w := widec relaxed c in Some (
      switch w [(32, tr 6); (33, tr 203); (35, tr 8); (37, tr 204); (47, tr 10);
         (61, tr 203); (63, tr 11); (95, tr 203); (126, tr 203);
         (606, tr 203); (635, tr 203); (637, tr 203)]
        (if w <? 64 then
           if between 36 59 w then tr 203 else st 0
         else if 90 <? w then if between 97 122 w then tr 203 else st 0 else tr 203))
  | 175 => Some (
      if c =? 32 then tr 4
      else
        if 57 <? c then
          if between 65 90 c then st 176 else st 0
        else if 48 <=? c then st 176 else st 0)
  | 176 => Some (
      if c =? 32 then tr 4
      else
        if 57 <? c then
          if between 65 90 c then st 177 else st 0
        else if 48 <=? c then st 177 else st 0)
  | 177 => Some (
      if c =? 32 then tr 4
      else
        if 57 <? c then
          if between 65 90 c then st 178 else st 0
        else if 48 <=? c then st 178 else st 0)
  | _ => None
  end.

Definition states_25 (relaxed : bool) (cs c : Z) : option target :=
  match cs with
  | 178 => Some (
      if c =? 32 then tr 4
      else
        if 57 <? c then
          if between 65 90 c then st 179 else st 0
        else if 48 <=? c then st 179 else st 0)
  | 179 => Some (
      if c =? 32 then tr 4
      else
        if 57 <? c then
          if between 65 90 c then st 180 else st 0
        else if 48 <=? c then st 180 else st 0)
  | 180 => Some (
      if c =? 32 then tr 4
      else
        if 57 <? c then
          if between 65 90 c then st 181 else st 0
        else if 48 <=? c then st 181 else st 0)
  | 181 => Some (
      if c =? 32 then tr 4
      else
        if 57 <? c then
          if between 65 90 c then st 182 else st 0
        else if 48 <=? c then st 182 else st 0)
  | 182 => Some (
      if c =? 32 then tr 4
      else
        if 57 <? c then
          if between 65 90 c then st 183 else st 0
        else if 48 <=? c then st 183 else st 0)
  | 183 => Some (
      if c =? 32 then tr 4
      else
        if 57 <? c then
          if between 65 90 c then st 184 else st 0
        else if 48 <=? c then st 184 else st 0)
  | 184 => Some (
      if c =? 32 then tr 4
      else
        if 57 <? c then
          if between 65 90 c then st 185 else st 0
        else if 48 <=? c then st 185 else st 0)
  | 185 => Some (
      if c =? 32 then tr 4
      else
        if 57 <? c then
          if between 65 90 c then st 186 else st 0
        else if 48 <=? c then st 186 else st 0)
  | 186 => Some (
      if c =? 32 then tr 4
      else
        if 57 <? c then
          if between 65 90 c then st 187 else st 0
        else if 48 <=? c then st 187 else st 0)
  | 187 => Some (
      if c =? 32 then tr 4
      else
        if 57 <? c then
          if between 65 90 c then st 188 else st 0
        else if 48 <=? c then st 188 else st 0)
  | 188 => Some (
      if c =? 32 then tr 4
      else
        if 57 <? c then
          if between 65 90 c then st 189 else st 0
        else if 48 <=? c then st 189 else st 0)
  | 189 => Some (
      if c =? 32 then tr 4
      else
        if 57 <? c then
          if between 65 90 c then st 190 else st 0
        else if 48 <=? c then st 190 else st 0)
  | _ => None
  end.

Definition states_26 (relaxed : bool) (cs c : Z) : option target :=
  match cs with
  | 190 => Some (
      if c =? 32 then tr 4
      else
        if 57 <? c then
          if between 65 90 c then st 191 else st 0
        else if 48 <=? c then st 191 else st 0)
  | 191 => Some (
      if c =? 32 then tr 4
      else
        if 57 <? c then
          if between 65 90 c then st 192 else st 0
        else if 48 <=? c then st 192 else st 0)
  | 192 => Some (
      if c =? 32 then tr 4
      else
        if 57 <? c then
          if between 65 90 c then st 193 else st 0
        else if 48 <=? c then st 193 else st 0)
  | 193 => Some (
      if c =? 32 then tr 4 else st 0)
  | 194 => Some (
      if c <? 48 then
        if between 45 46 c then st 195 else st 0
      else if 57 <? c then
        if 90 <? c then
          if between 97 122 c then st 195 else st 0
        else if 65 <=? c then st 195 else st 0
      else st 195)
  | 195 => Some (
      switch c [(32, tr 224); (47, tr 224); (62, tr 224)]
        (if c <? 45 then if between 9 13 c then tr 224 else st 0
         else if 57 <? c then
           if 90 <? c then
             if between 97 122 c then st 195 else st 0
           else if 65 <=? c then st 195 else st 0
         else st 195))
  | 196 => Some (
      if c =? 62 then st 197 else st 196)
  | 197 => Some (
      switch c [(0, tr 227); (62, st 197)]
        (st 196))
  | _ => None
  end.

Definition trans_26 (n : Z) : option (list action * Z) :=
  match n with
  | 2 => Some ([A_mark], 194)
  | 224 => Some ([A_request_path], 196)
  | 227 => Some ([A_xml; A_done 349], 349)
  | 235 => Some ([A_json; A_done 349], 349)
  | _ => None
  end.

Definition states_27 (relaxed : bool) (cs c : Z) : option target :=
  match cs with
  | 349 => Some (
      st 0)
  | 198 => let w := widec relaxed c in Some (
      switch w [(32, tr 228); (33, st 202); (37, st 203); (47, st 208); (59, st 202);
         (61, st 202); (95, st 202); (126, st 202); (606, st 202);
         (635, st 202); (637, st 202)]
        (if w <? 64 then
           if between 36 57 w then st 202 else st 0
         else if 90 <? w then if between 97 122 w then st 202 else st 0 else st 202))
  | 199 => Some (
      if c =? 123 then tr 232 else st 0)
  | 200 => Some (
      if c =? 125 then st 201 else st 200)
  | 201 => Some (
      switch c [(0, tr 235); (125, st 201)]
        (st 200))
  | 202 => let w := widec relaxed c in Some (
      switch w [(32, tr 228); (33, st 202); (37, st 203); (47, st 205); (59, st 202);
         (61, st 202); (95, st 202); (126, st 202); (606, st 202);
         (635, st 202); (637, st 202)]
        (if w <? 64 then
           if between 36 57 w then st 202 else st 0
         else if 90 <? w then if between 97 122 w then st 202 else st 0 else st 202))
  | _ => None
  end.

Definition trans_27 (n : Z) : option (list action * Z) :=
  match n with
  | 3 => Some ([A_mark], 198)
  | 228 => Some ([A_request_path], 199)
  | 232 => Some ([A_mark], 200)
  | _ => None
  end.

Definition states_28 (relaxed : bool) (cs c : Z) : option target :=
  match cs with
  | 203 => Some (
      if c <? 65 then
        if between 48 57 c then st 204 else st 0
      else if 70 <? c then if between 97 102 c then st 204 else st 0 else st 204)
  | 204 => Some (
      if c <? 65 then
        if between 48 57 c then st 202 else st 0
      else if 70 <? c then if between 97 102 c then st 202 else st 0 else st 202)
  | 205 => let w := widec relaxed c in Some (
      switch w [(32, tr 228); (33, st 205); (37, st 206); (61, st 205); (95, st 205);
         (126, st 205); (606, st 205); (635, st 205); (637, st 205)]
        (if w <? 64 then
           if between 36 59 w then st 205 else st 0
         else if 90 <? w then if between 97 122 w then st 205 else st 0 else st 205))
  | 206 => Some (
      if c <? 65 then
        if between 48 57 c then st 207 else st 0
      else if 70 <? c then if between 97 102 c then st 207 else st 0 else st 207)
  | 207 => Some (
      if c <? 65 then
        if between 48 57 c then st 205 else st 0
      else if 70 <? c then if between 97 102 c then st 205 else st 0 else st 205)
  | 208 => let w := widec relaxed c in Some (
      switch w [(32, tr 228); (33, st 205); (37, st 206); (47, st 209); (61, st 205);
         (95, st 205); (126, st 205); (606, st 205); (635, st 205);
         (637, st 205)]
        (if w <? 64 then
           if between 36 59 w then st 205 else st 0
         else if 90 <? w then if between 97 122 w then st 205 else st 0 else st 205))
  | _ => None
  end.

Definition states_29 (relaxed : bool) (cs c : Z) : option target :=
  match cs with
  | 209 => let w := widec relaxed c in Some (
      switch w [(32, tr 228); (33, st 210); (37, st 211); (47, st 205); (58, st 213);
         (61, st 210); (64, st 217); (91, st 222); (95, st 210);
         (126, st 210); (606, st 210); (635, st 210); (637, st 210)]
        (if w <? 65 then
           if between 36 59 w then st 210 else st 0
         else if 90 <? w then if between 97 122 w then st 210 else st 0 else st 210))
  | 210 => let w := widec relaxed c in Some (
      switch w [(32, tr 228); (33, st 210); (37, st 211); (47, st 205); (58, st 213);
         (61, st 210); (64, st 217); (95, st 210); (126, st 210);
         (606, st 210); (635, st 210); (637, st 210)]
        (if w <? 65 then
           if between 36 59 w then st 210 else st 0
         else if 90 <? w then if between 97 122 w then st 210 else st 0 else st 210))
  | 211 => Some (
      if c <? 65 then
        if between 48 57 c then st 212 else st 0
      else if 70 <? c then if between 97 102 c then st 212 else st 0 else st 212)
  | 212 => Some (
      if c <? 65 then
        if between 48 57 c then st 210 else st 0
      else if 70 <? c then if between 97 102 c then st 210 else st 0 else st 210)
  | _ => None
  end.

Definition states_30 (relaxed : bool) (cs c : Z) : option target :=
  match cs with
  | 213 => let w := widec relaxed c in Some (
      switch w [(32, tr 228); (33, st 214); (37, st 215); (47, st 205); (61, st 214);
         (64, st 217); (95, st 214); (126, st 214); (606, st 214);
         (635, st 214); (637, st 214)]
        (if w <? 58 then
           if 46 <? w then
             if between 48 57 w then st 213 else st 0
           else if 36 <=? w then st 214 else st 0
         else if 59 <? w then
           if 90 <? w then
             if between 97 122 w then st 214 else st 0
           else if 65 <=? w then st 214 else st 0
         else st 214))
  | 214 => let w := widec relaxed c in Some (
      switch w [(33, st 214); (37, st 215); (61, st 214); (64, st 217); (95, st 214);
         (126, st 214); (606, st 214); (635, st 214); (637, st 214)]
        (if w <? 48 then
           if between 36 46 w then st 214 else st 0
         else if 59 <? w then
           if 90 <? w then
             if between 97 122 w then st 214 else st 0
           else if 65 <=? w then st 214 else st 0
         else st 214))
  | 215 => Some (
      if c <? 65 then
        if between 48 57 c then st 216 else st 0
      else if 70 <? c then if between 97 102 c then st 216 else st 0 else st 216)
  | 216 => Some (
      if c <? 65 then
        if between 48 57 c then st 214 else st 0
      else if 70 <? c then if between 97 102 c then st 214 else st 0 else st 214)
  | _ => None
  end.

Definition states_31 (relaxed : bool) (cs c : Z) : option target :=
  match cs with
  | 217 => let w := widec relaxed c in Some (
      switch w [(32, tr 228); (33, st 218); (37, st 219); (47, st 205); (58, st 221);
         (61, st 218); (91, st 222); (95, st 218); (126, st 218);
         (606, st 218); (635, st 218); (637, st 218)]
        (if w <? 65 then
           if between 36 59 w then st 218 else st 0
         else if 90 <? w then if between 97 122 w then st 218 else st 0 else st 218))
  | 218 => let w := widec relaxed c in Some (
      switch w [(32, tr 228); (33, st 218); (37, st 219); (47, st 205); (58, st 221);
         (61, st 218); (95, st 218); (126, st 218); (606, st 218);
         (635, st 218); (637, st 218)]
        (if w <? 65 then
           if between 36 59 w then st 218 else st 0
         else if 90 <? w then if between 97 122 w then st 218 else st 0 else st 218))
  | 219 => Some (
      if c <? 65 then
        if between 48 57 c then st 220 else st 0
      else if 70 <? c then if between 97 102 c then st 220 else st 0 else st 220)
  | 220 => Some (
      if c <? 65 then
        if between 48 57 c then st 218 else st 0
      else if 70 <? c then if between 97 102 c then st 218 else st 0 else st 218)
  | 221 => Some (
      switch c [(32, tr 228); (47, st 205)]
        (if between 48 57 c then st 221 else st 0))
  | 222 => Some (
      switch c [(6, st 223); (58, st 342); (118, st 344)]
        (if c <? 65 then
           if between 48 57 c then st 266 else st 0
         else if 70 <? c then if between 97 102 c then st 266 else st 0 else st 266))
  | _ => None
  end.

Definition states_32 (relaxed : bool) (cs c : Z) : option target :=
  match cs with
  | 223 => Some (
      if c <? 65 then
        if between 48 57 c then st 224 else st 0
      else if 70 <? c then if between 97 102 c then st 224 else st 0 else st 224)
  | 224 => Some (
      if c =? 58 then st 228
      else
        if c <? 65 then
          if between 48 57 c then st 225 else st 0
        else if 70 <? c then if between 97 102 c then st 225 else st 0 else st 225)
  | 225 => Some (
      if c =? 58 then st 228
      else
        if c <? 65 then
          if between 48 57 c then st 226 else st 0
        else if 70 <? c then if between 97 102 c then st 226 else st 0 else st 226)
  | 226 => Some (
      if c =? 58 then st 228
      else
        if c <? 65 then
          if between 48 57 c then st 227 else st 0
        else if 70 <? c then if between 97 102 c then st 227 else st 0 else st 227)
  | 227 => Some (
      if c =? 58 then st 228 else st 0)
  | 228 => Some (
      switch c [(49, st 259); (50, st 262)]
        (if c <? 65 then
           if between 48 57 c then st 229 else st 0
         else if 70 <? c then if between 97 102 c then st 265 else st 0 else st 265))
  | 229 => Some (
      switch c [(46, st 230); (58, st 255)]
        (if c <? 65 then
           if between 48 57 c then st 252 else st 0
         else if 70 <? c then if between 97 102 c then st 252 else st 0 else st 252))
  | 230 => Some (
      switch c [(49, st 247); (50, st 249)]
        (if between 48 57 c then st 231 else st 0))
  | 231 => Some (
      if c =? 46 then st 232 else st 0)
  | 232 => Some (
      switch c [(49, st 242); (50, st 244)]
        (if between 48 57 c then st 233 else st 0))
  | 233 => Some (
      if c =? 46 then st 234 else st 0)
  | 234 => Some (
      switch c [(49, st 237); (50, st 239)]
        (if between 48 57 c then st 235 else st 0))
  | _ => None
  end.

Definition states_33 (relaxed : bool) (cs c : Z) : option target :=
  match cs with
  | 235 => Some (
      if c =? 93 then st 236 else st 0)
  | 236 => Some (
      switch c [(32, tr 228); (47, st 205); (58, st 221)]
        (st 0))
  | 237 => Some (
      if c =? 93 then st 236 else if between 48 57 c then st 238 else st 0)
  | 238 => Some (
      if c =? 93 then st 236 else if between 48 57 c then st 235 else st 0)
  | 239 => Some (
      switch c [(48, st 240); (53, st 241); (93, st 236)]
        (st 0))
  | 240 => Some (
      if between 48 57 c then st 235 else st 0)
  | 241 => Some (
      if c =? 48 then st 235 else st 0)
  | 242 => Some (
      if c =? 46 then st 234 else if between 48 57 c then st 243 else st 0)
  | 243 => Some (
      if c =? 46 then st 234 else if between 48 57 c then st 233 else st 0)
  | 244 => Some (
      switch c [(46, st 234); (48, st 245); (53, st 246)]
        (st 0))
  | 245 => Some (
      if between 48 57 c then st 233 else st 0)
  | 246 => Some (
      if c =? 48 then st 233 else st 0)
  | 247 => Some (
      if c =? 46 then st 232 else if between 48 57 c then st 248 else st 0)
  | 248 => Some (
      if c =? 46 then st 232 else if between 48 57 c then st 231 else st 0)
  | 249 => Some (
      switch c [(46, st 232); (48, st 250); (53, st 251)]
        (st 0))
  | 250 => Some (
      if between 48 57 c then st 231 else st 0)
  | 251 => Some (
      if c =? 48 then st 231 else st 0)
  | _ => None
  end.

Definition states_34 (relaxed : bool) (cs c : Z) : option target :=
  match cs with
  | 252 => Some (
      if c =? 58 then st 255
      else
        if c <? 65 then
          if between 48 57 c then st 253 else st 0
        else if 70 <? c then if between 97 102 c then st 253 else st 0 else st 253)
  | 253 => Some (
      if c =? 58 then st 255
      else
        if c <? 65 then
          if between 48 57 c then st 254 else st 0
        else if 70 <? c then if between 97 102 c then st 254 else st 0 else st 254)
  | 254 => Some (
      if c =? 58 then st 255 else st 0)
  | 255 => Some (
      if c <? 65 then
        if between 48 57 c then st 256 else st 0
      else if 70 <? c then if between 97 102 c then st 256 else st 0 else st 256)
  | 256 => Some (
      if c =? 93 then st 236
      else
        if c <? 65 then
          if between 48 57 c then st 257 else st 0
        else if 70 <? c then if between 97 102 c then st 257 else st 0 else st 257)
  | 257 => Some (
      if c =? 93 then st 236
      else
        if c <? 65 then
          if between 48 57 c then st 258 else st 0
        else if 70 <? c then if between 97 102 c then st 258 else st 0 else st 258)
  | 258 => Some (
      if c =? 93 then st 236
      else
        if c <? 65 then
          if between 48 57 c then st 235 else st 0
        else if 70 <? c then if between 97 102 c then st 235 else st 0 else st 235)
  | 259 => Some (
      switch c [(46, st 230); (58, st 255)]
        (if c <? 65 then
           if between 48 57 c then st 260 else st 0
         else if 70 <? c then if between 97 102 c then st 252 else st 0 else st 252))
  | 260 => Some (
      switch c [(46, st 230); (58, st 255)]
        (if c <? 65 then
           if between 48 57 c then st 261 else st 0
         else if 70 <? c then if between 97 102 c then st 253 else st 0 else st 253))
  | 261 => Some (
      switch c [(46, st 230); (58, st 255)]
        (if c <? 65 then
           if between 48 57 c then st 254 else st 0
         else if 70 <? c then if between 97 102 c then st 254 else st 0 else st 254))
  | _ => None
  end.

Definition states_35 (relaxed : bool) (cs c : Z) : option target :=
  match cs with
  | 262 => Some (
      switch c [(46, st 230); (48, st 263); (53, st 264); (58, st 255)]
        (if c <? 65 then
           if between 49 57 c then st 252 else st 0
         else if 70 <? c then if between 97 102 c then st 252 else st 0 else st 252))
  | 263 => Some (
      if c =? 58 then st 255
      else
        if c <? 65 then
          if between 48 57 c then st 261 else st 0
        else if 70 <? c then if between 97 102 c then st 253 else st 0 else st 253)
  | 264 => Some (
      switch c [(48, st 261); (58, st 255)]
        (if c <? 65 then
           if between 49 57 c then st 253 else st 0
         else if 70 <? c then if between 97 102 c then st 253 else st 0 else st 253))
  | 265 => Some (
      if c =? 58 then st 255
      else
        if c <? 65 then
          if between 48 57 c then st 252 else st 0
        else if 70 <? c then if between 97 102 c then st 252 else st 0 else st 252)
  | 266 => Some (
      if c =? 58 then st 270
      else
        if c <? 65 then
          if between 48 57 c then st 267 else st 0
        else if 70 <? c then if between 97 102 c then st 267 else st 0 else st 267)
  | 267 => Some (
      if c =? 58 then st 270
      else
        if c <? 65 then
          if between 48 57 c then st 268 else st 0
        else if 70 <? c then if between 97 102 c then st 268 else st 0 else st 268)
  | 268 => Some (
      if c =? 58 then st 270
      else
        if c <? 65 then
          if between 48 57 c then st 269 else st 0
        else if 70 <? c then if between 97 102 c then st 269 else st 0 else st 269)
  | 269 => Some (
      if c =? 58 then st 270 else st 0)
  | 270 => Some (
      if c =? 58 then st 341
      else
        if c <? 65 then
          if between 48 57 c then st 271 else st 0
        else if 70 <? c then if between 97 102 c then st 271 else st 0 else st 271)
  | 271 => Some (
      if c =? 58 then st 275
      else
        if c <? 65 then
          if between 48 57 c then st 272 else st 0
        else if 70 <? c then if between 97 102 c then st 272 else st 0 else st 272)
  | _ => None
  end.

Definition states_36 (relaxed : bool) (cs c : Z) : option target :=
  match cs with
  | 272 => Some (
      if c =? 58 then st 275
      else
        if c <? 65 then
          if between 48 57 c then st 273 else st 0
        else if 70 <? c then if between 97 102 c then st 273 else st 0 else st 273)
  | 273 => Some (
      if c =? 58 then st 275
      else
        if c <? 65 then
          if between 48 57 c then st 274 else st 0
        else if 70 <? c then if between 97 102 c then st 274 else st 0 else st 274)
  | 274 => Some (
      if c =? 58 then st 275 else st 0)
  | 275 => Some (
      if c =? 58 then st 340
      else
        if c <? 65 then
          if between 48 57 c then st 276 else st 0
        else if 70 <? c then if between 97 102 c then st 276 else st 0 else st 276)
  | 276 => Some (
      if c =? 58 then st 280
      else
        if c <? 65 then
          if between 48 57 c then st 277 else st 0
        else if 70 <? c then if between 97 102 c then st 277 else st 0 else st 277)
  | 277 => Some (
      if c =? 58 then st 280
      else
        if c <? 65 then
          if between 48 57 c then st 278 else st 0
        else if 70 <? c then if between 97 102 c then st 278 else st 0 else st 278)
  | 278 => Some (
      if c =? 58 then st 280
      else
        if c <? 65 then
          if between 48 57 c then st 279 else st 0
        else if 70 <? c then if between 97 102 c then st 279 else st 0 else st 279)
  | 279 => Some (
      if c =? 58 then st 280 else st 0)
  | 280 => Some (
      if c =? 58 then st 339
      else
        if c <? 65 then
          if between 48 57 c then st 281 else st 0
        else if 70 <? c then if between 97 102 c then st 281 else st 0 else st 281)
  | 281 => Some (
      if c =? 58 then st 285
      else
        if c <? 65 then
          if between 48 57 c then st 282 else st 0
        else if 70 <? c then if between 97 102 c then st 282 else st 0 else st 282)
  | 282 => Some (
      if c =? 58 then st 285
      else
        if c <? 65 then
          if between 48 57 c then st 283 else st 0
        else if 70 <? c then if between 97 102 c then st 283 else st 0 else st 283)
  | _ => None
  end.

Definition states_37 (relaxed : bool) (cs c : Z) : option target :=
  match cs with
  | 283 => Some (
      if c =? 58 then st 285
      else
        if c <? 65 then
          if between 48 57 c then st 284 else st 0
        else if 70 <? c then if between 97 102 c then st 284 else st 0 else st 284)
  | 284 => Some (
      if c =? 58 then st 285 else st 0)
  | 285 => Some (
      if c =? 58 then st 338
      else
        if c <? 65 then
          if between 48 57 c then st 286 else st 0
        else if 70 <? c then if between 97 102 c then st 286 else st 0 else st 286)
  | 286 => Some (
      if c =? 58 then st 290
      else
        if c <? 65 then
          if between 48 57 c then st 287 else st 0
        else if 70 <? c then if between 97 102 c then st 287 else st 0 else st 287)
  | 287 => Some (
      if c =? 58 then st 290
      else
        if c <? 65 then
          if between 48 57 c then st 288 else st 0
        else if 70 <? c then if between 97 102 c then st 288 else st 0 else st 288)
  | 288 => Some (
      if c =? 58 then st 290
      else
        if c <? 65 then
          if between 48 57 c then st 289 else st 0
        else if 70 <? c then if between 97 102 c then st 289 else st 0 else st 289)
  | 289 => Some (
      if c =? 58 then st 290 else st 0)
  | 290 => Some (
      if c =? 58 then st 326
      else
        if c <? 65 then
          if between 48 57 c then st 291 else st 0
        else if 70 <? c then if between 97 102 c then st 291 else st 0 else st 291)
  | 291 => Some (
      if c =? 58 then st 295
      else
        if c <? 65 then
          if between 48 57 c then st 292 else st 0
        else if 70 <? c then if between 97 102 c then st 292 else st 0 else st 292)
  | 292 => Some (
      if c =? 58 then st 295
      else
        if c <? 65 then
          if between 48 57 c then st 293 else st 0
        else if 70 <? c then if between 97 102 c then st 293 else st 0 else st 293)
  | _ => None
  end.

Definition states_38 (relaxed : bool) (cs c : Z) : option target :=
  match cs with
  | 293 => Some (
      if c =? 58 then st 295
      else
        if c <? 65 then
          if between 48 57 c then st 294 else st 0
        else if 70 <? c then if between 97 102 c then st 294 else st 0 else st 294)
  | 294 => Some (
      if c =? 58 then st 295 else st 0)
  | 295 => Some (
      if c =? 58 then st 325
      else
        if c <? 65 then
          if between 48 57 c then st 296 else st 0
        else if 70 <? c then if between 97 102 c then st 296 else st 0 else st 296)
  | 296 => Some (
      if c =? 58 then st 300
      else
        if c <? 65 then
          if between 48 57 c then st 297 else st 0
        else if 70 <? c then if between 97 102 c then st 297 else st 0 else st 297)
  | 297 => Some (
      if c =? 58 then st 300
      else
        if c <? 65 then
          if between 48 57 c then st 298 else st 0
        else if 70 <? c then if between 97 102 c then st 298 else st 0 else st 298)
  | 298 => Some (
      if c =? 58 then st 300
      else
        if c <? 65 then
          if between 48 57 c then st 299 else st 0
        else if 70 <? c then if between 97 102 c then st 299 else st 0 else st 299)
  | 299 => Some (
      if c =? 58 then st 300 else st 0)
  | 300 => Some (
      if c =? 58 then st 301
      else
        if c <? 65 then
          if between 48 57 c then st 296 else st 0
        else if 70 <? c then if between 97 102 c then st 296 else st 0 else st 296)
  | 301 => Some (
      switch c [(49, st 318); (50, st 321); (93, st 236)]
        (if c <? 48 then if between 2 3 c then st 223 else st 0
         else if 57 <? c then
           if 70 <? c then
             if between 97 102 c then st 324 else st 0
           else if 65 <=? c then st 324 else st 0
         else st 302))
  | 302 => Some (
      switch c [(46, st 230); (58, st 306); (93, st 236)]
        (if c <? 65 then
           if between 48 57 c then st 303 else st 0
         else if 70 <? c then if between 97 102 c then st 303 else st 0 else st 303))
  | _ => None
  end.

Definition states_39 (relaxed : bool) (cs c : Z) : option target :=
  match cs with
  | 303 => Some (
      switch c [(58, st 306); (93, st 236)]
        (if c <? 65 then
           if between 48 57 c then st 304 else st 0
         else if 70 <? c then if between 97 102 c then st 304 else st 0 else st 304))
  | 304 => Some (
      switch c [(58, st 306); (93, st 236)]
        (if c <? 65 then
           if between 48 57 c then st 305 else st 0
         else if 70 <? c then if between 97 102 c then st 305 else st 0 else st 305))
  | 305 => Some (
      switch c [(58, st 306); (93, st 236)]
        (st 0))
  | 306 => Some (
      switch c [(49, st 311); (50, st 314)]
        (if c <? 65 then
           if between 48 57 c then st 307 else st 0
         else if 70 <? c then if between 97 102 c then st 317 else st 0 else st 317))
  | 307 => Some (
      switch c [(46, st 230); (58, st 255); (93, st 236)]
        (if c <? 65 then
           if between 48 57 c then st 308 else st 0
         else if 70 <? c then if between 97 102 c then st 308 else st 0 else st 308))
  | 308 => Some (
      switch c [(58, st 255); (93, st 236)]
        (if c <? 65 then
           if between 48 57 c then st 309 else st 0
         else if 70 <? c then if between 97 102 c then st 309 else st 0 else st 309))
  | 309 => Some (
      switch c [(58, st 255); (93, st 236)]
        (if c <? 65 then
           if between 48 57 c then st 310 else st 0
         else if 70 <? c then if between 97 102 c then st 310 else st 0 else st 310))
  | 310 => Some (
      switch c [(58, st 255); (93, st 236)]
        (st 0))
  | 311 => Some (
      switch c [(46, st 230); (58, st 255); (93, st 236)]
        (if c <? 65 then
           if between 48 57 c then st 312 else st 0
         else if 70 <? c then if between 97 102 c then st 308 else st 0 else st 308))
  | _ => None
  end.

Definition states_40 (relaxed : bool) (cs c : Z) : option target :=
  match cs with
  | 312 => Some (
      switch c [(46, st 230); (58, st 255); (93, st 236)]
        (if c <? 65 then
           if between 48 57 c then st 313 else st 0
         else if 70 <? c then if between 97 102 c then st 309 else st 0 else st 309))
  | 313 => Some (
      switch c [(46, st 230); (58, st 255); (93, st 236)]
        (if c <? 65 then
           if between 48 57 c then st 310 else st 0
         else if 70 <? c then if between 97 102 c then st 310 else st 0 else st 310))
  | 314 => Some (
      switch c [(46, st 230); (48, st 315); (53, st 316); (58, st 255); (93, st 236)]
        (if c <? 65 then
           if between 49 57 c then st 308 else st 0
         else if 70 <? c then if between 97 102 c then st 308 else st 0 else st 308))
  | 315 => Some (
      switch c [(58, st 255); (93, st 236)]
        (if c <? 65 then
           if between 48 57 c then st 313 else st 0
         else if 70 <? c then if between 97 102 c then st 309 else st 0 else st 309))
  | 316 => Some (
      switch c [(48, st 313); (58, st 255); (93, st 236)]
        (if c <? 65 then
           if between 49 57 c then st 309 else st 0
         else if 70 <? c then if between 97 102 c then st 309 else st 0 else st 309))
  | 317 => Some (
      switch c [(58, st 255); (93, st 236)]
        (if c <? 65 then
           if between 48 57 c then st 308 else st 0
         else if 70 <? c then if between 97 102 c then st 308 else st 0 else st 308))
  | 318 => Some (
      switch c [(46, st 230); (58, st 306); (93, st 236)]
        (if c <? 65 then
           if between 48 57 c then st 319 else st 0
         else if 70 <? c then if between 97 102 c then st 303 else st 0 else st 303))
  | 319 => Some (
      switch c [(46, st 230); (58, st 306); (93, st 236)]
        (if c <? 65 then
           if between 48 57 c then st 320 else st 0
         else if 70 <? c then if between 97 102 c then st 304 else st 0 else st 304))
  | _ => None
  end.

Definition states_41 (relaxed : bool) (cs c : Z) : option target :=
  match cs with
  | 320 => Some (
      switch c [(46, st 230); (58, st 306); (93, st 236)]
        (if c <? 65 then
           if between 48 57 c then st 305 else st 0
         else if 70 <? c then if between 97 102 c then st 305 else st 0 else st 305))
  | 321 => Some (
      switch c [(46, st 230); (48, st 322); (53, st 323); (58, st 306); (93, st 236)]
        (if c <? 65 then
           if between 49 57 c then st 303 else st 0
         else if 70 <? c then if between 97 102 c then st 303 else st 0 else st 303))
  | 322 => Some (
      switch c [(58, st 306); (93, st 236)]
        (if c <? 65 then
           if between 48 57 c then st 320 else st 0
         else if 70 <? c then if between 97 102 c then st 304 else st 0 else st 304))
  | 323 => Some (
      switch c [(48, st 320); (58, st 306); (93, st 236)]
        (if c <? 65 then
           if between 49 57 c then st 304 else st 0
         else if 70 <? c then if between 97 102 c then st 304 else st 0 else st 304))
  | 324 => Some (
      switch c [(58, st 306); (93, st 236)]
        (if c <? 65 then
           if between 48 57 c then st 303 else st 0
         else if 70 <? c then if between 97 102 c then st 303 else st 0 else st 303))
  | 325 => Some (
      switch c [(49, st 318); (50, st 321)]
        (if c <? 48 then if between 2 3 c then st 223 else st 0
         else if 57 <? c then
           if 70 <? c then
             if between 97 102 c then st 324 else st 0
           else if 65 <=? c then st 324 else st 0
         else st 302))
  | 326 => Some (
      switch c [(49, st 331); (50, st 334)]
        (if c <? 48 then if between 2 3 c then st 223 else st 0
         else if 57 <? c then
           if 70 <? c then
             if between 97 102 c then st 337 else st 0
           else if 65 <=? c then st 337 else st 0
         else st 327))
  | 327 => Some (
      switch c [(46, st 230); (58, st 306)]
        (if c <? 65 then
           if between 48 57 c then st 328 else st 0
         else if 70 <? c then if between 97 102 c then st 328 else st 0 else st 328))
  | _ => None
  end.

Definition states_42 (relaxed : bool) (cs c : Z) : option target :=
  match cs with
  | 328 => Some (
      if c =? 58 then st 306
      else
        if c <? 65 then
          if between 48 57 c then st 329 else st 0
        else if 70 <? c then if between 97 102 c then st 329 else st 0 else st 329)
  | 329 => Some (
      if c =? 58 then st 306
      else
        if c <? 65 then
          if between 48 57 c then st 330 else st 0
        else if 70 <? c then if between 97 102 c then st 330 else st 0 else st 330)
  | 330 => Some (
      if c =? 58 then st 306 else st 0)
  | 331 => Some (
      switch c [(46, st 230); (58, st 306)]
        (if c <? 65 then
           if between 48 57 c then st 332 else st 0
         else if 70 <? c then if between 97 102 c then st 328 else st 0 else st 328))
  | 332 => Some (
      switch c [(46, st 230); (58, st 306)]
        (if c <? 65 then
           if between 48 57 c then st 333 else st 0
         else if 70 <? c then if between 97 102 c then st 329 else st 0 else st 329))
  | 333 => Some (
      switch c [(46, st 230); (58, st 306)]
        (if c <? 65 then
           if between 48 57 c then st 330 else st 0
         else if 70 <? c then if between 97 102 c then st 330 else st 0 else st 330))
  | 334 => Some (
      switch c [(46, st 230); (48, st 335); (53, st 336); (58, st 306)]
        (if c <? 65 then
           if between 49 57 c then st 328 else st 0
         else if 70 <? c then if between 97 102 c then st 328 else st 0 else st 328))
  | 335 => Some (
      if c =? 58 then st 306
      else
        if c <? 65 then
          if between 48 57 c then st 333 else st 0
        else if 70 <? c then if between 97 102 c then st 329 else st 0 else st 329)
  | 336 => Some (
      switch c [(48, st 333); (58, st 306)]
        (if c <? 65 then
           if between 49 57 c then st 329 else st 0
         else if 70 <? c then if between 97 102 c then st 329 else st 0 else st 329))
  | _ => None
  end.

Definition states_43 (relaxed : bool) (cs c : Z) : option target :=
  match cs with
  | 337 => Some (
      if c =? 58 then st 306
      else
        if c <? 65 then
          if between 48 57 c then st 328 else st 0
        else if 70 <? c then if between 97 102 c then st 328 else st 0 else st 328)
  | 338 => Some (
      if c <? 48 then if between 2 3 c then st 223 else st 0
      else if 57 <? c then
        if 70 <? c then
          if between 97 102 c then st 224 else st 0
        else if 65 <=? c then st 224 else st 0
      else st 224)
  | 339 => Some (
      if between 2 3 c then st 223 else st 0)
  | 340 => Some (
      if c =? 3 then st 223 else st 0)
  | 341 => Some (
      if c =? 4 then st 223 else st 0)
  | 342 => Some (
      if c =? 58 then st 343 else st 0)
  | 343 => Some (
      switch c [(49, st 318); (50, st 321); (93, st 236)]
        (if c <? 48 then if between 2 5 c then st 223 else st 0
         else if 57 <? c then
           if 70 <? c then
             if between 97 102 c then st 324 else st 0
           else if 65 <=? c then st 324 else st 0
         else st 302))
  | 344 => Some (
      if c <? 65 then
        if between 48 57 c then st 345 else st 0
      else if 70 <? c then if between 97 102 c then st 345 else st 0 else st 345)
  | 345 => Some (
      if c =? 46 then st 346
      else
        if c <? 65 then
          if between 48 57 c then st 345 else st 0
        else if 70 <? c then if between 97 102 c then st 345 else st 0 else st 345)
  | _ => None
  end.

Definition states_44 (relaxed : bool) (cs c : Z) : option target :=
  match cs with
  | 346 => let w := widec relaxed c in Some (
      switch w [(33, st 347); (36, st 347); (61, st 347); (95, st 347);
         (126, st 347); (606, st 347); (635, st 347); (637, st 347)]
        (if w <? 48 then
           if between 38 46 w then st 347 else st 0
         else if 59 <? w then
           if 90 <? w then
             if between 97 122 w then st 347 else st 0
           else if 65 <=? w then st 347 else st 0
         else st 347))
  | 347 => let w := widec relaxed c in Some (
      switch w [(33, st 347); (36, st 347); (61, st 347); (93, st 236); (95, st 347);
         (126, st 347); (606, st 347); (635, st 347); (637, st 347)]
        (if w <? 48 then
           if between 38 46 w then st 347 else st 0
         else if 59 <? w then
           if 90 <? w then
             if between 97 122 w then st 347 else st 0
           else if 65 <=? w then st 347 else st 0
         else st 347))
  | _ => None
  end.

Definition goto_case (relaxed : bool) (cs c : Z) : option target :=
  first_some [(fun cs => states_1 relaxed cs c); (fun cs => states_2 relaxed cs c);
    (fun cs => states_3 relaxed cs c); (fun cs => states_4 relaxed cs c);
    (fun cs => states_5 relaxed cs c); (fun cs => states_6 relaxed cs c);
    (fun cs => states_7 relaxed cs c); (fun cs => states_8 relaxed cs c);
    (fun cs => states_9 relaxed cs c); (fun cs => states_10 relaxed cs c);
    (fun cs => states_11 relaxed cs c); (fun cs => states_12 relaxed cs c);
    (fun cs => states_13 relaxed cs c); (fun cs => states_14 relaxed cs c);
    (fun cs => states_15 relaxed cs c); (fun cs => states_16 relaxed cs c);
    (fun cs => states_17 relaxed cs c); (fun cs => states_18 relaxed cs c);
    (fun cs => states_19 relaxed cs c); (fun cs => states_20 relaxed cs c);
    (fun cs => states_21 relaxed cs c); (fun cs => states_22 relaxed cs c);
    (fun cs => states_23 relaxed cs c); (fun cs => states_24 relaxed cs c);
    (fun cs => states_25 relaxed cs c); (fun cs => states_26 relaxed cs c);
    (fun cs => states_27 relaxed cs c); (fun cs => states_28 relaxed cs c);
    (fun cs => states_29 relaxed cs c); (fun cs => states_30 relaxed cs c);
    (fun cs => states_31 relaxed cs c); (fun cs => states_32 relaxed cs c);
    (fun cs => states_33 relaxed cs c); (fun cs => states_34 relaxed cs c);
    (fun cs => states_35 relaxed cs c); (fun cs => states_36 relaxed cs c);
    (fun cs => states_37 relaxed cs c); (fun cs => states_38 relaxed cs c);
    (fun cs => states_39 relaxed cs c); (fun cs => states_40 relaxed cs c);
    (fun cs => states_41 relaxed cs c); (fun cs => states_42 relaxed cs c);
    (fun cs => states_43 relaxed cs c); (fun cs => states_44 relaxed cs c)] cs.

Definition trans : Z -> option (list action * Z) :=
  first_some [trans_1; trans_2; trans_3; trans_4; trans_5; trans_6;
    trans_7; trans_23; trans_26; trans_27].

Definition http_parser_start : Z := 1.
Definition http_parser_first_final : Z := 348.
Definition http_parser_error : Z := 0.
