(* ===== verification/Http11.v ===== *)
(** linko/http/http11_parser.{h,rl}: the request parser around the goto machine
    of Http11Machine.  Pointers into [buffer] are offsets; [buffer] is the [len]
    bytes the caller passes.  The callbacks work on the caller's data [D]. *)
From S2P Require Import Prelude Ragel Http11Machine.

Record http_parser := mkHttpParser {
  cs : Z;
  body_start : Z;
  content_len : Z;
  nread : Z;
  mark : Z;
  field_start : Z;
  field_len : Z;
  query_start : Z;
  xml_sent : Z;
  json_sent : Z;
  uri_relaxed : Z
}.

Definition set_cs (v : Z) (q : http_parser) : http_parser :=
  mkHttpParser v (body_start q) (content_len q) (nread q) (mark q) (field_start q)
    (field_len q) (query_start q) (xml_sent q) (json_sent q) (uri_relaxed q).
Definition set_body_start (v : Z) (q : http_parser) : http_parser :=
  mkHttpParser (cs q) v (content_len q) (nread q) (mark q) (field_start q)
    (field_len q) (query_start q) (xml_sent q) (json_sent q) (uri_relaxed q).
Definition set_content_len (v : Z) (q : http_parser) : http_parser :=
  mkHttpParser (cs q) (body_start q) v (nread q) (mark q) (field_start q)
    (field_len q) (query_start q) (xml_sent q) (json_sent q) (uri_relaxed q).
Definition set_nread (v : Z) (q : http_parser) : http_parser :=
  mkHttpParser (cs q) (body_start q) (content_len q) v (mark q) (field_start q)
    (field_len q) (query_start q) (xml_sent q) (json_sent q) (uri_relaxed q).
Definition set_mark (v : Z) (q : http_parser) : http_parser :=
  mkHttpParser (cs q) (body_start q) (content_len q) (nread q) v (field_start q)
    (field_len q) (query_start q) (xml_sent q) (json_sent q) (uri_relaxed q).
Definition set_field_start (v : Z) (q : http_parser) : http_parser :=
  mkHttpParser (cs q) (body_start q) (content_len q) (nread q) (mark q) v
    (field_len q) (query_start q) (xml_sent q) (json_sent q) (uri_relaxed q).
Definition set_field_len (v : Z) (q : http_parser) : http_parser :=
  mkHttpParser (cs q) (body_start q) (content_len q) (nread q) (mark q) (field_start q)
    v (query_start q) (xml_sent q) (json_sent q) (uri_relaxed q).
Definition set_query_start (v : Z) (q : http_parser) : http_parser :=
  mkHttpParser (cs q) (body_start q) (content_len q) (nread q) (mark q) (field_start q)
    (field_len q) v (xml_sent q) (json_sent q) (uri_relaxed q).
Definition set_xml_sent (v : Z) (q : http_parser) : http_parser :=
  mkHttpParser (cs q) (body_start q) (content_len q) (nread q) (mark q) (field_start q)
    (field_len q) (query_start q) v (json_sent q) (uri_relaxed q).
Definition set_json_sent (v : Z) (q : http_parser) : http_parser :=
  mkHttpParser (cs q) (body_start q) (content_len q) (nread q) (mark q) (field_start q)
    (field_len q) (query_start q) (xml_sent q) v (uri_relaxed q).

Definition http_parser_init (q : http_parser) : http_parser :=
  mkHttpParser http_parser_start 0 0 0 0 0 0 (query_start q) 0 0 (uri_relaxed q).

Definition http_parser_has_error (q : http_parser) : bool := cs q =? http_parser_error.
Definition http_parser_is_finished (q : http_parser) : bool := http_parser_first_final <=? cs q.
Definition http_parser_finish (q : http_parser) : Z :=
  if http_parser_has_error q then -1 else if http_parser_is_finished q then 1 else 0.

Section callbacks.
Context {D : Type}.

(** [element_cb] and [field_cb]; the buffer is what [at] and the like point to. *)
Definition element_cb : Type := bytes -> Z -> Z -> M D unit.
Definition field_cb : Type := bytes -> Z -> Z -> Z -> Z -> M D unit.

(** The callback members; [None] is NULL. *)
Record callbacks := mkCallbacks {
  http_field : option field_cb;
  request_method : option element_cb;
  request_uri : option element_cb;
  fragment : option element_cb;
  request_path : option element_cb;
  query_string : option element_cb;
  http_version : option element_cb;
  header_done : option element_cb
}.

Context (cb : callbacks).
Definition PS : Type := http_parser * D.

Definition on_parser (f : http_parser -> http_parser) : M PS unit :=
  modify (fun s => (f s.1, s.2)).
Definition on_data (m : M D unit) : M PS unit := fun s =>
  match m s.2 with
  | Ret a d => Ret a (s.1, d)
  | Throw e d => Throw e (s.1, d)
  | Crash c => Crash c
  end.
Definition call_element (f : option element_cb) (buffer : bytes) (at_ length : Z) : M PS unit :=
  match f with Some f => on_data (f buffer at_ length) | None => mret tt end.

(** [LEN(AT, FPC)] as the [size_t] the callbacks take. *)
Definition LEN (at_ p : Z) : Z := u64 (p - at_).

Definition run_action (buffer : bytes) (a : action) (p : Z) : M PS (option Z) :=
  s ← get;
  let q := s.1 in
  match a with
  | A_mark => on_parser (set_mark p);; mret None
  | A_start_field => on_parser (set_field_start p);; mret None
  | A_write_field => on_parser (set_field_len (LEN (field_start q) p));; mret None
  | A_start_value => on_parser (set_mark p);; mret None
  | A_write_value =>
    match http_field cb with
    | Some f => on_data (f buffer (field_start q) (field_len q) (mark q) (LEN (mark q) p))
    | None => mret tt
    end;; mret None
  | A_request_method =>
    call_element (request_method cb) buffer (mark q) (LEN (mark q) p);; mret None
  | A_request_uri =>
    call_element (request_uri cb) buffer (mark q) (LEN (mark q) p);; mret None
  | A_fragment => call_element (fragment cb) buffer (mark q) (LEN (mark q) p);; mret None
  | A_start_query => on_parser (set_query_start p);; mret None
  | A_query_string =>
    call_element (query_string cb) buffer (query_start q) (LEN (query_start q) p);; mret None
  | A_http_version =>
    call_element (http_version cb) buffer (mark q) (LEN (mark q) p);; mret None
  | A_request_path =>
    call_element (request_path cb) buffer (mark q) (LEN (mark q) p);; mret None
  | A_xml => on_parser (set_xml_sent 1);; mret None
  | A_json => on_parser (set_json_sent 1);; mret None
  | A_done c =>
    (if negb (xml_sent q =? 0) || negb (json_sent q =? 0) then
       on_parser (fun q => set_content_len (i32 (p - mark q + 1)) (set_body_start (mark q) q))
     else
       on_parser (set_body_start (u64 (p + 1)));;
       call_element (header_done cb) buffer (p + 1) (zlen buffer - p - 1));;
    mret (Some c)
  end.

Definition exec (buffer : bytes) (relaxed : bool) : Z -> bytes -> Z -> M PS (Z * Z) :=
  exec_loop (goto_case relaxed) trans (run_action buffer) 2.

Definition http_parser_execute (buffer : bytes) (off : Z) : M PS Z :=
  let len := zlen buffer in
  if len =? 0 then mret 0 else
  on_parser (fun q => set_field_start 0 (set_field_len len (set_mark 0 (set_nread 0 q))));;
  s ← get;
  assert (off <=? len) "offset past end of buffer";;
  assert (len - off =? i32 len - i32 off) "pointers aren't same distance";;
  '(p, c) ← exec buffer (negb (uri_relaxed s.1 =? 0)) off (zdrop off buffer) (cs s.1);
  assert (p <=? len) "Buffer overflow after parsing.";;
  on_parser (fun q => if http_parser_has_error q then q else set_cs c q);;
  on_parser (fun q => set_nread (u64 (nread q + (p - off))) q);;
  s ← get;
  let q := s.1 in
  assert (nread q <=? len) "nread longer than length";;
  assert (body_start q <=? len) "body starts after buffer end";;
  assert (mark q <? len) "mark is after buffer end";;
  assert (field_len q <=? len) "field has length longer than whole buffer";;
  assert (field_start q <? len) "field starts after buffer end";;
  mret (nread q).
End callbacks.
Arguments callbacks : clear implicits.
Arguments PS : clear implicits.
Arguments element_cb : clear implicits.
Arguments field_cb : clear implicits.
