(* ===== verification/HttpClientMachine.v ===== *)
(** The table of the goto machine of linko/http/httpclient_parser.rl.cc, as
    Http11Machine has that of the request parser. *)
From S2P Require Import Prelude Ragel.

(** The actions, by the names the grammar gives them. *)
Inductive action :=
| A_mark | A_start_field | A_write_field | A_start_value | A_write_content_len
| A_write_connection_close | A_write_value | A_reason_phrase | A_status_code
| A_http_version | A_chunk_size | A_trans_chunked | A_done (cs : Z).

Definition states_1 (cs c : Z) : option target :=
  match cs with
  | 1 => Some (
      if c =? 72 then tr 2
      else
        if c <? 65 then if between 48 57 c then tr 0 else st 0
        else if 70 <? c then if between 97 102 c then tr 0 else st 0 else tr 0)
  | 2 => Some (
      switch c [(10, tr 3); (13, tr 4); (59, tr 6)]
        (if c <? 65 then if between 48 57 c then st 2 else st 0
         else if 70 <? c then if between 97 102 c then st 2 else st 0 else st 2))
  | 120 => Some (
      st 0)
  | _ => None
  end.

Definition trans_1 (n : Z) : option (list action * Z) :=
  match n with
  | 0 => Some ([A_mark], 2)
  | 3 => Some ([A_chunk_size; A_done 120], 120)
  | 7 => Some ([A_done 120], 120)
  | 9 => Some ([A_write_field; A_start_value; A_write_value; A_done 120], 120)
  | 15 => Some ([A_write_value; A_done 120], 120)
  | 74 => Some ([A_write_connection_close; A_done 120], 120)
  | 4 => Some ([A_chunk_size], 3)
  | _ => None
  end.

Definition states_2 (cs c : Z) : option target :=
  match cs with
  | 3 => Some (
      if c =? 10 then tr 7 else st 0)
  | 4 => Some (
      switch c [(33, tr 8); (124, tr 8); (126, tr 8)]
        (if c <? 45 then
           if 39 <? c then if between 42 43 c then tr 8 else st 0
           else if 35 <=? c then tr 8 else st 0
         else if 46 <? c then
           if c <? 65 then if between 48 57 c then tr 8 else st 0
           else if 90 <? c then if between 94 122 c then tr 8 else st 0 else tr 8
         else tr 8))
  | 5 => Some (
      switch c [(10, tr 9); (13, tr 10); (33, st 5); (59, tr 12); (61, tr 13);
         (124, st 5); (126, st 5)]
        (if c <? 45 then
           if 39 <? c then if between 42 43 c then st 5 else st 0
           else if 35 <=? c then st 5 else st 0
         else if 46 <? c then
           if c <? 65 then if between 48 57 c then st 5 else st 0
           else if 90 <? c then if between 94 122 c then st 5 else st 0 else st 5
         else st 5))
  | _ => None
  end.

Definition trans_2 (n : Z) : option (list action * Z) :=
  match n with
  | 10 => Some ([A_write_field; A_start_value; A_write_value], 3)
  | 16 => Some ([A_write_value], 3)
  | 75 => Some ([A_write_connection_close], 3)
  | 6 => Some ([A_chunk_size], 4)
  | 12 => Some ([A_write_field; A_start_value; A_write_value], 4)
  | 18 => Some ([A_write_value], 4)
  | 8 => Some ([A_start_field], 5)
  | 13 => Some ([A_write_field; A_start_value], 6)
  | _ => None
  end.

Definition states_3 (cs c : Z) : option target :=
  match cs with
  | 6 => Some (
      switch c [(33, tr 14); (124, tr 14); (126, tr 14)]
        (if c <? 45 then
           if 39 <? c then if between 42 43 c then tr 14 else st 0
           else if 35 <=? c then tr 14 else st 0
         else if 46 <? c then
           if c <? 65 then if between 48 57 c then tr 14 else st 0
           else if 90 <? c then if between 94 122 c then tr 14 else st 0 else tr 14
         else tr 14))
  | 7 => Some (
      switch c [(10, tr 15); (13, tr 16); (33, st 7); (59, tr 18); (124, st 7);
         (126, st 7)]
        (if c <? 45 then
           if 39 <? c then if between 42 43 c then st 7 else st 0
           else if 35 <=? c then st 7 else st 0
         else if 46 <? c then
           if c <? 65 then if between 48 57 c then st 7 else st 0
           else if 90 <? c then if between 94 122 c then st 7 else st 0 else st 7
         else st 7))
  | 8 => Some (
      if c =? 84 then st 9 else st 0)
  | 9 => Some (
      if c =? 84 then st 10 else st 0)
  | 10 => Some (
      if c =? 80 then st 11 else st 0)
  | 11 => Some (
      if c =? 47 then st 12 else st 0)
  | 12 => Some (
      if between 48 57 c then st 13 else st 0)
  | 13 => Some (
      if c =? 46 then st 14 else if between 48 57 c then st 13 else st 0)
  | 14 => Some (
      if between 48 57 c then st 15 else st 0)
  | 15 => Some (
      if c =? 32 then tr 26 else if between 48 57 c then st 15 else st 0)
  | 16 => Some (
      if between 48 57 c then tr 27 else st 0)
  | _ => None
  end.

Definition trans_3 (n : Z) : option (list action * Z) :=
  match n with
  | 14 => Some ([A_start_value], 7)
  | 2 => Some ([A_mark], 8)
  | 26 => Some ([A_http_version], 16)
  | 27 => Some ([A_mark], 17)
  | _ => None
  end.

Definition states_4 (cs c : Z) : option target :=
  match cs with
  | 17 => Some (
      if c =? 32 then tr 28 else if between 48 57 c then st 17 else st 0)
  | 18 => Some (
      if c =? 10 then st 0 else tr 30)
  | 19 => Some (
      switch c [(10, tr 32); (13, tr 33)]
        (st 19))
  | 20 => Some (
      switch c [(10, tr 7); (13, st 3); (33, tr 35); (67, tr 36); (84, tr 37);
         (99, tr 36); (116, tr 37); (124, tr 35); (126, tr 35)]
        (if c <? 45 then
           if 39 <? c then if between 42 43 c then tr 35 else st 0
           else if 35 <=? c then tr 35 else st 0
         else if 46 <? c then
           if c <? 65 then if between 48 57 c then tr 35 else st 0
           else if 90 <? c then if between 94 122 c then tr 35 else st 0 else tr 35
         else tr 35))
  | _ => None
  end.

Definition trans_4 (n : Z) : option (list action * Z) :=
  match n with
  | 28 => Some ([A_status_code], 18)
  | 30 => Some ([A_mark], 19)
  | 45 => Some ([A_write_value], 20)
  | 32 => Some ([A_reason_phrase], 20)
  | 42 => Some ([A_start_value; A_write_value], 20)
  | 111 => Some ([A_write_value; A_trans_chunked], 20)
  | 113 => Some ([A_trans_chunked], 20)
  | 158 => Some ([A_write_content_len; A_write_value], 20)
  | 35 => Some ([A_start_field], 21)
  | 76 => Some ([A_write_connection_close; A_start_field], 21)
  | _ => None
  end.

Definition states_5 (cs c : Z) : option target :=
  match cs with
  | 21 => Some (
      switch c [(33, st 21); (58, tr 39); (124, st 21); (126, st 21)]
        (if c <? 45 then
           if 39 <? c then if between 42 43 c then st 21 else st 0
           else if 35 <=? c then st 21 else st 0
         else if 46 <? c then
           if c <? 65 then if between 48 57 c then st 21 else st 0
           else if 90 <? c then if between 94 122 c then st 21 else st 0 else st 21
         else st 21))
  | 22 => Some (
      switch c [(10, tr 42); (13, tr 43); (32, tr 41)]
        (if between 9 12 c then tr 41 else tr 40))
  | 23 => Some (
      switch c [(10, tr 45); (13, tr 46)]
        (st 23))
  | 24 => Some (
      if c =? 10 then st 20 else st 0)
  | _ => None
  end.

Definition trans_5 (n : Z) : option (list action * Z) :=
  match n with
  | 41 => Some ([A_start_value], 22)
  | 39 => Some ([A_write_field], 22)
  | 40 => Some ([A_start_value], 23)
  | 46 => Some ([A_write_value], 24)
  | 33 => Some ([A_reason_phrase], 24)
  | 43 => Some ([A_start_value; A_write_value], 24)
  | 159 => Some ([A_write_content_len; A_write_value], 24)
  | 36 => Some ([A_start_field], 25)
  | 77 => Some ([A_write_connection_close; A_start_field], 25)
  | _ => None
  end.

Definition states_6 (cs c : Z) : option target :=
  match cs with
  | 25 => Some (
      switch c [(33, st 21); (58, tr 39); (79, st 26); (111, st 26); (124, st 21);
         (126, st 21)]
        (if c <? 45 then
           if 39 <? c then if between 42 43 c then st 21 else st 0
           else if 35 <=? c then st 21 else st 0
         else if 46 <? c then
           if c <? 65 then if between 48 57 c then st 21 else st 0
           else if 90 <? c then if between 94 122 c then st 21 else st 0 else st 21
         else st 21))
  | 26 => Some (
      switch c [(33, st 21); (58, tr 39); (78, st 27); (110, st 27); (124, st 21);
         (126, st 21)]
        (if c <? 45 then
           if 39 <? c then if between 42 43 c then st 21 else st 0
           else if 35 <=? c then st 21 else st 0
         else if 46 <? c then
           if c <? 65 then if between 48 57 c then st 21 else st 0
           else if 90 <? c then if between 94 122 c then st 21 else st 0 else st 21
         else st 21))
  | 27 => Some (
      switch c [(33, st 21); (58, tr 39); (78, st 28); (84, st 101); (110, st 28);
         (116, st 101); (124, st 21); (126, st 21)]
        (if c <? 45 then
           if 39 <? c then if between 42 43 c then st 21 else st 0
           else if 35 <=? c then st 21 else st 0
         else if 46 <? c then
           if c <? 65 then if between 48 57 c then st 21 else st 0
           else if 90 <? c then if between 94 122 c then st 21 else st 0 else st 21
         else st 21))
  | 28 => Some (
      switch c [(33, st 21); (58, tr 39); (69, st 29); (101, st 29); (124, st 21);
         (126, st 21)]
        (if c <? 45 then
           if 39 <? c then if between 42 43 c then st 21 else st 0
           else if 35 <=? c then st 21 else st 0
         else if 46 <? c then
           if c <? 65 then if between 48 57 c then st 21 else st 0
           else if 90 <? c then if between 94 122 c then st 21 else st 0 else st 21
         else st 21))
  | _ => None
  end.

Definition states_7 (cs c : Z) : option target :=
  match cs with
  | 29 => Some (
      switch c [(33, st 21); (58, tr 39); (67, st 30); (99, st 30); (124, st 21);
         (126, st 21)]
        (if c <? 45 then
           if 39 <? c then if between 42 43 c then st 21 else st 0
           else if 35 <=? c then st 21 else st 0
         else if 46 <? c then
           if c <? 65 then if between 48 57 c then st 21 else st 0
           else if 90 <? c then if between 94 122 c then st 21 else st 0 else st 21
         else st 21))
  | 30 => Some (
      switch c [(33, st 21); (58, tr 39); (84, st 31); (116, st 31); (124, st 21);
         (126, st 21)]
        (if c <? 45 then
           if 39 <? c then if between 42 43 c then st 21 else st 0
           else if 35 <=? c then st 21 else st 0
         else if 46 <? c then
           if c <? 65 then if between 48 57 c then st 21 else st 0
           else if 90 <? c then if between 94 122 c then st 21 else st 0 else st 21
         else st 21))
  | 31 => Some (
      switch c [(33, st 21); (58, tr 39); (73, st 32); (105, st 32); (124, st 21);
         (126, st 21)]
        (if c <? 45 then
           if 39 <? c then if between 42 43 c then st 21 else st 0
           else if 35 <=? c then st 21 else st 0
         else if 46 <? c then
           if c <? 65 then if between 48 57 c then st 21 else st 0
           else if 90 <? c then if between 94 122 c then st 21 else st 0 else st 21
         else st 21))
  | 32 => Some (
      switch c [(33, st 21); (58, tr 39); (79, st 33); (111, st 33); (124, st 21);
         (126, st 21)]
        (if c <? 45 then
           if 39 <? c then if between 42 43 c then st 21 else st 0
           else if 35 <=? c then st 21 else st 0
         else if 46 <? c then
           if c <? 65 then if between 48 57 c then st 21 else st 0
           else if 90 <? c then if between 94 122 c then st 21 else st 0 else st 21
         else st 21))
  | 33 => Some (
      switch c [(33, st 21); (58, tr 39); (78, st 34); (110, st 34); (124, st 21);
         (126, st 21)]
        (if c <? 45 then
           if 39 <? c then if between 42 43 c then st 21 else st 0
           else if 35 <=? c then st 21 else st 0
         else if 46 <? c then
           if c <? 65 then if between 48 57 c then st 21 else st 0
           else if 90 <? c then if between 94 122 c then st 21 else st 0 else st 21
         else st 21))
  | _ => None
  end.

Definition states_8 (cs c : Z) : option target :=
  match cs with
  | 34 => Some (
      switch c [(33, st 21); (58, tr 58); (124, st 21); (126, st 21)]
        (if c <? 45 then
           if 39 <? c then if between 42 43 c then st 21 else st 0
           else if 35 <=? c then st 21 else st 0
         else if 46 <? c then
           if c <? 65 then if between 48 57 c then st 21 else st 0
           else if 90 <? c then if between 94 122 c then st 21 else st 0 else st 21
         else st 21))
  | 35 => Some (
      switch c [(10, tr 60); (13, tr 61); (32, tr 59); (67, tr 62); (99, tr 62)]
        (if between 9 12 c then tr 59 else tr 40))
  | 36 => Some (
      switch c [(10, tr 64); (13, st 89); (32, st 37); (33, tr 35); (67, tr 66);
         (84, tr 37); (99, tr 66); (116, tr 37); (124, tr 35); (126, tr 35)]
        (if c <? 45 then
           if c <? 35 then if between 9 12 c then st 37 else st 0
           else if 39 <? c then if between 42 43 c then tr 35 else st 0 else tr 35
         else if 46 <? c then
           if c <? 65 then if between 48 57 c then tr 35 else st 0
           else if 90 <? c then if between 94 122 c then tr 35 else st 0 else tr 35
         else tr 35))
  | 37 => Some (
      switch c [(32, st 37); (67, st 38); (99, st 38)]
        (if between 9 13 c then st 37 else st 0))
  | 38 => Some (
      switch c [(76, st 39); (108, st 39)]
        (st 0))
  | 39 => Some (
      switch c [(79, st 40); (111, st 40)]
        (st 0))
  | 40 => Some (
      switch c [(83, st 41); (115, st 41)]
        (st 0))
  | _ => None
  end.

Definition trans_8 (n : Z) : option (list action * Z) :=
  match n with
  | 59 => Some ([A_start_value], 35)
  | 58 => Some ([A_write_field], 35)
  | 60 => Some ([A_start_value; A_write_value], 36)
  | _ => None
  end.

Definition states_9 (cs c : Z) : option target :=
  match cs with
  | 41 => Some (
      switch c [(69, st 42); (101, st 42)]
        (st 0))
  | 42 => Some (
      switch c [(10, st 43); (13, st 88)]
        (st 0))
  | 43 => Some (
      switch c [(10, tr 74); (13, tr 75); (33, tr 76); (67, tr 77); (84, tr 78);
         (99, tr 77); (116, tr 78); (124, tr 76); (126, tr 76)]
        (if c <? 45 then
           if 39 <? c then if between 42 43 c then tr 76 else st 0
           else if 35 <=? c then tr 76 else st 0
         else if 46 <? c then
           if c <? 65 then if between 48 57 c then tr 76 else st 0
           else if 90 <? c then if between 94 122 c then tr 76 else st 0 else tr 76
         else tr 76))
  | 44 => Some (
      switch c [(33, st 21); (58, tr 39); (82, st 45); (114, st 45); (124, st 21);
         (126, st 21)]
        (if c <? 45 then
           if 39 <? c then if between 42 43 c then st 21 else st 0
           else if 35 <=? c then st 21 else st 0
         else if 46 <? c then
           if c <? 65 then if between 48 57 c then st 21 else st 0
           else if 90 <? c then if between 94 122 c then st 21 else st 0 else st 21
         else st 21))
  | 45 => Some (
      switch c [(33, st 21); (58, tr 39); (65, st 46); (97, st 46); (124, st 21);
         (126, st 21)]
        (if c <? 45 then
           if 39 <? c then if between 42 43 c then st 21 else st 0
           else if 35 <=? c then st 21 else st 0
         else if 46 <? c then
           if c <? 66 then if between 48 57 c then st 21 else st 0
           else if 90 <? c then if between 94 122 c then st 21 else st 0 else st 21
         else st 21))
  | _ => None
  end.

Definition trans_9 (n : Z) : option (list action * Z) :=
  match n with
  | 136 => Some ([A_write_value], 43)
  | 37 => Some ([A_start_field], 44)
  | 78 => Some ([A_write_connection_close; A_start_field], 44)
  | _ => None
  end.

Definition states_10 (cs c : Z) : option target :=
  match cs with
  | 46 => Some (
      switch c [(33, st 21); (58, tr 39); (78, st 47); (110, st 47); (124, st 21);
         (126, st 21)]
        (if c <? 45 then
           if 39 <? c then if between 42 43 c then st 21 else st 0
           else if 35 <=? c then st 21 else st 0
         else if 46 <? c then
           if c <? 65 then if between 48 57 c then st 21 else st 0
           else if 90 <? c then if between 94 122 c then st 21 else st 0 else st 21
         else st 21))
  | 47 => Some (
      switch c [(33, st 21); (58, tr 39); (83, st 48); (115, st 48); (124, st 21);
         (126, st 21)]
        (if c <? 45 then
           if 39 <? c then if between 42 43 c then st 21 else st 0
           else if 35 <=? c then st 21 else st 0
         else if 46 <? c then
           if c <? 65 then if between 48 57 c then st 21 else st 0
           else if 90 <? c then if between 94 122 c then st 21 else st 0 else st 21
         else st 21))
  | 48 => Some (
      switch c [(33, st 21); (58, tr 39); (70, st 49); (102, st 49); (124, st 21);
         (126, st 21)]
        (if c <? 45 then
           if 39 <? c then if between 42 43 c then st 21 else st 0
           else if 35 <=? c then st 21 else st 0
         else if 46 <? c then
           if c <? 65 then if between 48 57 c then st 21 else st 0
           else if 90 <? c then if between 94 122 c then st 21 else st 0 else st 21
         else st 21))
  | 49 => Some (
      switch c [(33, st 21); (58, tr 39); (69, st 50); (101, st 50); (124, st 21);
         (126, st 21)]
        (if c <? 45 then
           if 39 <? c then if between 42 43 c then st 21 else st 0
           else if 35 <=? c then st 21 else st 0
         else if 46 <? c then
           if c <? 65 then if between 48 57 c then st 21 else st 0
           else if 90 <? c then if between 94 122 c then st 21 else st 0 else st 21
         else st 21))
  | 50 => Some (
      switch c [(33, st 21); (58, tr 39); (82, st 51); (114, st 51); (124, st 21);
         (126, st 21)]
        (if c <? 45 then
           if 39 <? c then if between 42 43 c then st 21 else st 0
           else if 35 <=? c then st 21 else st 0
         else if 46 <? c then
           if c <? 65 then if between 48 57 c then st 21 else st 0
           else if 90 <? c then if between 94 122 c then st 21 else st 0 else st 21
         else st 21))
  | _ => None
  end.

Definition states_11 (cs c : Z) : option target :=
  match cs with
  | 51 => Some (
      switch c [(33, st 21); (45, st 52); (46, st 21); (58, tr 39); (124, st 21);
         (126, st 21)]
        (if c <? 48 then
           if 39 <? c then if between 42 43 c then st 21 else st 0
           else if 35 <=? c then st 21 else st 0
         else if 57 <? c then
           if 90 <? c then
             if between 94 122 c then st 21 else st 0
           else if 65 <=? c then st 21 else st 0
         else st 21))
  | 52 => Some (
      switch c [(33, st 21); (58, tr 39); (69, st 53); (101, st 53); (124, st 21);
         (126, st 21)]
        (if c <? 45 then
           if 39 <? c then if between 42 43 c then st 21 else st 0
           else if 35 <=? c then st 21 else st 0
         else if 46 <? c then
           if c <? 65 then if between 48 57 c then st 21 else st 0
           else if 90 <? c then if between 94 122 c then st 21 else st 0 else st 21
         else st 21))
  | 53 => Some (
      switch c [(33, st 21); (58, tr 39); (78, st 54); (110, st 54); (124, st 21);
         (126, st 21)]
        (if c <? 45 then
           if 39 <? c then if between 42 43 c then st 21 else st 0
           else if 35 <=? c then st 21 else st 0
         else if 46 <? c then
           if c <? 65 then if between 48 57 c then st 21 else st 0
           else if 90 <? c then if between 94 122 c then st 21 else st 0 else st 21
         else st 21))
  | 54 => Some (
      switch c [(33, st 21); (58, tr 39); (67, st 55); (99, st 55); (124, st 21);
         (126, st 21)]
        (if c <? 45 then
           if 39 <? c then if between 42 43 c then st 21 else st 0
           else if 35 <=? c then st 21 else st 0
         else if 46 <? c then
           if c <? 65 then if between 48 57 c then st 21 else st 0
           else if 90 <? c then if between 94 122 c then st 21 else st 0 else st 21
         else st 21))
  | 55 => Some (
      switch c [(33, st 21); (58, tr 39); (79, st 56); (111, st 56); (124, st 21);
         (126, st 21)]
        (if c <? 45 then
           if 39 <? c then if between 42 43 c then st 21 else st 0
           else if 35 <=? c then st 21 else st 0
         else if 46 <? c then
           if c <? 65 then if between 48 57 c then st 21 else st 0
           else if 90 <? c then if between 94 122 c then st 21 else st 0 else st 21
         else st 21))
  | _ => None
  end.

Definition states_12 (cs c : Z) : option target :=
  match cs with
  | 56 => Some (
      switch c [(33, st 21); (58, tr 39); (68, st 57); (100, st 57); (124, st 21);
         (126, st 21)]
        (if c <? 45 then
           if 39 <? c then if between 42 43 c then st 21 else st 0
           else if 35 <=? c then st 21 else st 0
         else if 46 <? c then
           if c <? 65 then if between 48 57 c then st 21 else st 0
           else if 90 <? c then if between 94 122 c then st 21 else st 0 else st 21
         else st 21))
  | 57 => Some (
      switch c [(33, st 21); (58, tr 39); (73, st 58); (105, st 58); (124, st 21);
         (126, st 21)]
        (if c <? 45 then
           if 39 <? c then if between 42 43 c then st 21 else st 0
           else if 35 <=? c then st 21 else st 0
         else if 46 <? c then
           if c <? 65 then if between 48 57 c then st 21 else st 0
           else if 90 <? c then if between 94 122 c then st 21 else st 0 else st 21
         else st 21))
  | 58 => Some (
      switch c [(33, st 21); (58, tr 39); (78, st 59); (110, st 59); (124, st 21);
         (126, st 21)]
        (if c <? 45 then
           if 39 <? c then if between 42 43 c then st 21 else st 0
           else if 35 <=? c then st 21 else st 0
         else if 46 <? c then
           if c <? 65 then if between 48 57 c then st 21 else st 0
           else if 90 <? c then if between 94 122 c then st 21 else st 0 else st 21
         else st 21))
  | 59 => Some (
      switch c [(33, st 21); (58, tr 39); (71, st 60); (103, st 60); (124, st 21);
         (126, st 21)]
        (if c <? 45 then
           if 39 <? c then if between 42 43 c then st 21 else st 0
           else if 35 <=? c then st 21 else st 0
         else if 46 <? c then
           if c <? 65 then if between 48 57 c then st 21 else st 0
           else if 90 <? c then if between 94 122 c then st 21 else st 0 else st 21
         else st 21))
  | 60 => Some (
      switch c [(33, st 21); (58, tr 95); (124, st 21); (126, st 21)]
        (if c <? 45 then
           if 39 <? c then if between 42 43 c then st 21 else st 0
           else if 35 <=? c then st 21 else st 0
         else if 46 <? c then
           if c <? 65 then if between 48 57 c then st 21 else st 0
           else if 90 <? c then if between 94 122 c then st 21 else st 0 else st 21
         else st 21))
  | _ => None
  end.

Definition states_13 (cs c : Z) : option target :=
  match cs with
  | 61 => Some (
      switch c [(10, tr 97); (13, tr 98); (32, tr 96); (67, tr 99); (99, tr 99)]
        (if between 9 12 c then tr 96 else tr 40))
  | 62 => Some (
      switch c [(10, tr 101); (13, st 72); (32, st 63); (33, tr 35); (67, tr 103);
         (84, tr 37); (99, tr 103); (116, tr 37); (124, tr 35); (126, tr 35)]
        (if c <? 45 then
           if c <? 35 then if between 9 12 c then st 63 else st 0
           else if 39 <? c then if between 42 43 c then tr 35 else st 0 else tr 35
         else if 46 <? c then
           if c <? 65 then if between 48 57 c then tr 35 else st 0
           else if 90 <? c then if between 94 122 c then tr 35 else st 0 else tr 35
         else tr 35))
  | 63 => Some (
      switch c [(32, st 63); (67, tr 104); (99, tr 104)]
        (if between 9 13 c then st 63 else st 0))
  | 64 => Some (
      switch c [(72, st 65); (104, st 65)]
        (st 0))
  | 65 => Some (
      switch c [(85, st 66); (117, st 66)]
        (st 0))
  | 66 => Some (
      switch c [(78, st 67); (110, st 67)]
        (st 0))
  | 67 => Some (
      switch c [(75, st 68); (107, st 68)]
        (st 0))
  | 68 => Some (
      switch c [(69, st 69); (101, st 69)]
        (st 0))
  | 69 => Some (
      switch c [(68, st 70); (100, st 70)]
        (st 0))
  | _ => None
  end.

Definition trans_13 (n : Z) : option (list action * Z) :=
  match n with
  | 96 => Some ([A_start_value], 61)
  | 95 => Some ([A_write_field], 61)
  | 97 => Some ([A_start_value; A_write_value], 62)
  | 104 => Some ([A_start_value], 64)
  | _ => None
  end.

Definition states_14 (cs c : Z) : option target :=
  match cs with
  | 70 => Some (
      switch c [(10, tr 111); (13, tr 112)]
        (st 0))
  | 71 => Some (
      if c =? 10 then tr 113 else st 0)
  | 121 => Some (
      switch c [(32, st 63); (67, tr 104); (99, tr 104)]
        (if between 9 13 c then st 63 else st 0))
  | 72 => Some (
      switch c [(10, tr 101); (32, st 63); (67, tr 104); (99, tr 104)]
        (if between 9 13 c then st 63 else st 0))
  | 73 => Some (
      switch c [(33, st 21); (58, tr 39); (72, st 74); (79, st 26); (104, st 74);
         (111, st 26); (124, st 21); (126, st 21)]
        (if c <? 45 then
           if 39 <? c then if between 42 43 c then st 21 else st 0
           else if 35 <=? c then st 21 else st 0
         else if 46 <? c then
           if c <? 65 then if between 48 57 c then st 21 else st 0
           else if 90 <? c then if between 94 122 c then st 21 else st 0 else st 21
         else st 21))
  | 74 => Some (
      switch c [(33, st 21); (58, tr 39); (85, st 75); (117, st 75); (124, st 21);
         (126, st 21)]
        (if c <? 45 then
           if 39 <? c then if between 42 43 c then st 21 else st 0
           else if 35 <=? c then st 21 else st 0
         else if 46 <? c then
           if c <? 65 then if between 48 57 c then st 21 else st 0
           else if 90 <? c then if between 94 122 c then st 21 else st 0 else st 21
         else st 21))
  | _ => None
  end.

Definition trans_14 (n : Z) : option (list action * Z) :=
  match n with
  | 112 => Some ([A_write_value], 71)
  | 101 => Some ([A_done 121], 121)
  | 103 => Some ([A_start_value; A_start_field], 73)
  | _ => None
  end.

Definition states_15 (cs c : Z) : option target :=
  match cs with
  | 75 => Some (
      switch c [(33, st 21); (58, tr 39); (78, st 76); (110, st 76); (124, st 21);
         (126, st 21)]
        (if c <? 45 then
           if 39 <? c then if between 42 43 c then st 21 else st 0
           else if 35 <=? c then st 21 else st 0
         else if 46 <? c then
           if c <? 65 then if between 48 57 c then st 21 else st 0
           else if 90 <? c then if between 94 122 c then st 21 else st 0 else st 21
         else st 21))
  | 76 => Some (
      switch c [(33, st 21); (58, tr 39); (75, st 77); (107, st 77); (124, st 21);
         (126, st 21)]
        (if c <? 45 then
           if 39 <? c then if between 42 43 c then st 21 else st 0
           else if 35 <=? c then st 21 else st 0
         else if 46 <? c then
           if c <? 65 then if between 48 57 c then st 21 else st 0
           else if 90 <? c then if between 94 122 c then st 21 else st 0 else st 21
         else st 21))
  | 77 => Some (
      switch c [(33, st 21); (58, tr 39); (69, st 78); (101, st 78); (124, st 21);
         (126, st 21)]
        (if c <? 45 then
           if 39 <? c then if between 42 43 c then st 21 else st 0
           else if 35 <=? c then st 21 else st 0
         else if 46 <? c then
           if c <? 65 then if between 48 57 c then st 21 else st 0
           else if 90 <? c then if between 94 122 c then st 21 else st 0 else st 21
         else st 21))
  | 78 => Some (
      switch c [(33, st 21); (58, tr 39); (68, st 79); (100, st 79); (124, st 21);
         (126, st 21)]
        (if c <? 45 then
           if 39 <? c then if between 42 43 c then st 21 else st 0
           else if 35 <=? c then st 21 else st 0
         else if 46 <? c then
           if c <? 65 then if between 48 57 c then st 21 else st 0
           else if 90 <? c then if between 94 122 c then st 21 else st 0 else st 21
         else st 21))
  | 79 => Some (
      switch c [(10, tr 111); (13, tr 112); (33, st 21); (58, tr 39); (124, st 21);
         (126, st 21)]
        (if c <? 45 then
           if 39 <? c then if between 42 43 c then st 21 else st 0
           else if 35 <=? c then st 21 else st 0
         else if 46 <? c then
           if c <? 65 then if between 48 57 c then st 21 else st 0
           else if 90 <? c then if between 94 122 c then st 21 else st 0 else st 21
         else st 21))
  | _ => None
  end.

Definition states_16 (cs c : Z) : option target :=
  match cs with
  | 80 => Some (
      switch c [(10, st 62); (32, st 63); (67, tr 104); (99, tr 104)]
        (if between 9 13 c then st 63 else st 0))
  | 81 => Some (
      switch c [(10, tr 45); (13, tr 46); (72, st 82); (104, st 82)]
        (st 23))
  | 82 => Some (
      switch c [(10, tr 45); (13, tr 46); (85, st 83); (117, st 83)]
        (st 23))
  | 83 => Some (
      switch c [(10, tr 45); (13, tr 46); (78, st 84); (110, st 84)]
        (st 23))
  | 84 => Some (
      switch c [(10, tr 45); (13, tr 46); (75, st 85); (107, st 85)]
        (st 23))
  | 85 => Some (
      switch c [(10, tr 45); (13, tr 46); (69, st 86); (101, st 86)]
        (st 23))
  | 86 => Some (
      switch c [(10, tr 45); (13, tr 46); (68, st 87); (100, st 87)]
        (st 23))
  | 87 => Some (
      switch c [(10, tr 111); (13, tr 112)]
        (st 23))
  | 88 => Some (
      if c =? 10 then st 43 else st 0)
  | 122 => Some (
      switch c [(32, st 37); (67, st 38); (99, st 38)]
        (if between 9 13 c then st 37 else st 0))
  | _ => None
  end.

Definition trans_16 (n : Z) : option (list action * Z) :=
  match n with
  | 98 => Some ([A_start_value; A_write_value], 80)
  | 99 => Some ([A_start_value], 81)
  | 137 => Some ([A_write_value], 88)
  | 64 => Some ([A_done 122], 122)
  | _ => None
  end.

Definition states_17 (cs c : Z) : option target :=
  match cs with
  | 89 => Some (
      switch c [(10, tr 64); (32, st 37); (67, st 38); (99, st 38)]
        (if between 9 13 c then st 37 else st 0))
  | 90 => Some (
      switch c [(33, st 21); (58, tr 39); (76, st 91); (79, st 26); (108, st 91);
         (111, st 26); (124, st 21); (126, st 21)]
        (if c <? 45 then
           if 39 <? c then if between 42 43 c then st 21 else st 0
           else if 35 <=? c then st 21 else st 0
         else if 46 <? c then
           if c <? 65 then if between 48 57 c then st 21 else st 0
           else if 90 <? c then if between 94 122 c then st 21 else st 0 else st 21
         else st 21))
  | 91 => Some (
      switch c [(33, st 21); (58, tr 39); (79, st 92); (111, st 92); (124, st 21);
         (126, st 21)]
        (if c <? 45 then
           if 39 <? c then if between 42 43 c then st 21 else st 0
           else if 35 <=? c then st 21 else st 0
         else if 46 <? c then
           if c <? 65 then if between 48 57 c then st 21 else st 0
           else if 90 <? c then if between 94 122 c then st 21 else st 0 else st 21
         else st 21))
  | 92 => Some (
      switch c [(33, st 21); (58, tr 39); (83, st 93); (115, st 93); (124, st 21);
         (126, st 21)]
        (if c <? 45 then
           if 39 <? c then if between 42 43 c then st 21 else st 0
           else if 35 <=? c then st 21 else st 0
         else if 46 <? c then
           if c <? 65 then if between 48 57 c then st 21 else st 0
           else if 90 <? c then if between 94 122 c then st 21 else st 0 else st 21
         else st 21))
  | 93 => Some (
      switch c [(33, st 21); (58, tr 39); (69, st 94); (101, st 94); (124, st 21);
         (126, st 21)]
        (if c <? 45 then
           if 39 <? c then if between 42 43 c then st 21 else st 0
           else if 35 <=? c then st 21 else st 0
         else if 46 <? c then
           if c <? 65 then if between 48 57 c then st 21 else st 0
           else if 90 <? c then if between 94 122 c then st 21 else st 0 else st 21
         else st 21))
  | _ => None
  end.

Definition trans_17 (n : Z) : option (list action * Z) :=
  match n with
  | 66 => Some ([A_start_field], 90)
  | _ => None
  end.

Definition states_18 (cs c : Z) : option target :=
  match cs with
  | 94 => Some (
      switch c [(10, st 43); (13, st 88); (33, st 21); (58, tr 39); (124, st 21);
         (126, st 21)]
        (if c <? 45 then
           if 39 <? c then if between 42 43 c then st 21 else st 0
           else if 35 <=? c then st 21 else st 0
         else if 46 <? c then
           if c <? 65 then if between 48 57 c then st 21 else st 0
           else if 90 <? c then if between 94 122 c then st 21 else st 0 else st 21
         else st 21))
  | 95 => Some (
      switch c [(10, st 36); (32, st 37); (67, st 38); (99, st 38)]
        (if between 9 13 c then st 37 else st 0))
  | 96 => Some (
      switch c [(10, tr 45); (13, tr 46); (76, st 97); (108, st 97)]
        (st 23))
  | 97 => Some (
      switch c [(10, tr 45); (13, tr 46); (79, st 98); (111, st 98)]
        (st 23))
  | 98 => Some (
      switch c [(10, tr 45); (13, tr 46); (83, st 99); (115, st 99)]
        (st 23))
  | 99 => Some (
      switch c [(10, tr 45); (13, tr 46); (69, st 100); (101, st 100)]
        (st 23))
  | 100 => Some (
      switch c [(10, tr 136); (13, tr 137)]
        (st 23))
  | 101 => Some (
      switch c [(33, st 21); (58, tr 39); (69, st 102); (101, st 102); (124, st 21);
         (126, st 21)]
        (if c <? 45 then
           if 39 <? c then if between 42 43 c then st 21 else st 0
           else if 35 <=? c then st 21 else st 0
         else if 46 <? c then
           if c <? 65 then if between 48 57 c then st 21 else st 0
           else if 90 <? c then if between 94 122 c then st 21 else st 0 else st 21
         else st 21))
  | _ => None
  end.

Definition trans_18 (n : Z) : option (list action * Z) :=
  match n with
  | 61 => Some ([A_start_value; A_write_value], 95)
  | 62 => Some ([A_start_value], 96)
  | _ => None
  end.

Definition states_19 (cs c : Z) : option target :=
  match cs with
  | 102 => Some (
      switch c [(33, st 21); (58, tr 39); (78, st 103); (110, st 103); (124, st 21);
         (126, st 21)]
        (if c <? 45 then
           if 39 <? c then if between 42 43 c then st 21 else st 0
           else if 35 <=? c then st 21 else st 0
         else if 46 <? c then
           if c <? 65 then if between 48 57 c then st 21 else st 0
           else if 90 <? c then if between 94 122 c then st 21 else st 0 else st 21
         else st 21))
  | 103 => Some (
      switch c [(33, st 21); (58, tr 39); (84, st 104); (116, st 104); (124, st 21);
         (126, st 21)]
        (if c <? 45 then
           if 39 <? c then if between 42 43 c then st 21 else st 0
           else if 35 <=? c then st 21 else st 0
         else if 46 <? c then
           if c <? 65 then if between 48 57 c then st 21 else st 0
           else if 90 <? c then if between 94 122 c then st 21 else st 0 else st 21
         else st 21))
  | 104 => Some (
      switch c [(33, st 21); (45, st 105); (46, st 21); (58, tr 39); (124, st 21);
         (126, st 21)]
        (if c <? 48 then
           if 39 <? c then if between 42 43 c then st 21 else st 0
           else if 35 <=? c then st 21 else st 0
         else if 57 <? c then
           if 90 <? c then
             if between 94 122 c then st 21 else st 0
           else if 65 <=? c then st 21 else st 0
         else st 21))
  | 105 => Some (
      switch c [(33, st 21); (58, tr 39); (76, st 106); (108, st 106); (124, st 21);
         (126, st 21)]
        (if c <? 45 then
           if 39 <? c then if between 42 43 c then st 21 else st 0
           else if 35 <=? c then st 21 else st 0
         else if 46 <? c then
           if c <? 65 then if between 48 57 c then st 21 else st 0
           else if 90 <? c then if between 94 122 c then st 21 else st 0 else st 21
         else st 21))
  | 106 => Some (
      switch c [(33, st 21); (58, tr 39); (69, st 107); (101, st 107); (124, st 21);
         (126, st 21)]
        (if c <? 45 then
           if 39 <? c then if between 42 43 c then st 21 else st 0
           else if 35 <=? c then st 21 else st 0
         else if 46 <? c then
           if c <? 65 then if between 48 57 c then st 21 else st 0
           else if 90 <? c then if between 94 122 c then st 21 else st 0 else st 21
         else st 21))
  | _ => None
  end.

Definition states_20 (cs c : Z) : option target :=
  match cs with
  | 107 => Some (
      switch c [(33, st 21); (58, tr 39); (78, st 108); (110, st 108); (124, st 21);
         (126, st 21)]
        (if c <? 45 then
           if 39 <? c then if between 42 43 c then st 21 else st 0
           else if 35 <=? c then st 21 else st 0
         else if 46 <? c then
           if c <? 65 then if between 48 57 c then st 21 else st 0
           else if 90 <? c then if between 94 122 c then st 21 else st 0 else st 21
         else st 21))
  | 108 => Some (
      switch c [(33, st 21); (58, tr 39); (71, st 109); (103, st 109); (124, st 21);
         (126, st 21)]
        (if c <? 45 then
           if 39 <? c then if between 42 43 c then st 21 else st 0
           else if 35 <=? c then st 21 else st 0
         else if 46 <? c then
           if c <? 65 then if between 48 57 c then st 21 else st 0
           else if 90 <? c then if between 94 122 c then st 21 else st 0 else st 21
         else st 21))
  | 109 => Some (
      switch c [(33, st 21); (58, tr 39); (84, st 110); (116, st 110); (124, st 21);
         (126, st 21)]
        (if c <? 45 then
           if 39 <? c then if between 42 43 c then st 21 else st 0
           else if 35 <=? c then st 21 else st 0
         else if 46 <? c then
           if c <? 65 then if between 48 57 c then st 21 else st 0
           else if 90 <? c then if between 94 122 c then st 21 else st 0 else st 21
         else st 21))
  | 110 => Some (
      switch c [(33, st 21); (58, tr 39); (72, st 111); (104, st 111); (124, st 21);
         (126, st 21)]
        (if c <? 45 then
           if 39 <? c then if between 42 43 c then st 21 else st 0
           else if 35 <=? c then st 21 else st 0
         else if 46 <? c then
           if c <? 65 then if between 48 57 c then st 21 else st 0
           else if 90 <? c then if between 94 122 c then st 21 else st 0 else st 21
         else st 21))
  | 111 => Some (
      switch c [(33, st 21); (58, tr 148); (124, st 21); (126, st 21)]
        (if c <? 45 then
           if 39 <? c then if between 42 43 c then st 21 else st 0
           else if 35 <=? c then st 21 else st 0
         else if 46 <? c then
           if c <? 65 then if between 48 57 c then st 21 else st 0
           else if 90 <? c then if between 94 122 c then st 21 else st 0 else st 21
         else st 21))
  | _ => None
  end.

Definition states_21 (cs c : Z) : option target :=
  match cs with
  | 112 => Some (
      switch c [(10, tr 150); (13, tr 151); (32, tr 149)]
        (if 12 <? c then
           if between 48 57 c then tr 152 else tr 40
         else if 9 <=? c then tr 149 else tr 40))
  | 113 => Some (
      switch c [(10, tr 154); (13, st 116); (32, st 114); (33, tr 35); (67, tr 36);
         (84, tr 37); (99, tr 36); (116, tr 37); (124, tr 35); (126, tr 35)]
        (if c <? 45 then
           if c <? 35 then if between 9 12 c then st 114 else st 0
           else if 39 <? c then if between 42 43 c then tr 35 else st 0 else tr 35
         else if 46 <? c then
           if c <? 65 then
             if between 48 57 c then tr 156 else st 0
           else if 90 <? c then if between 94 122 c then tr 35 else st 0 else tr 35
         else tr 35))
  | 114 => Some (
      if c =? 32 then st 114
      else
        if 13 <? c then
          if between 48 57 c then tr 157 else st 0
        else if 9 <=? c then st 114 else st 0)
  | 115 => Some (
      switch c [(10, tr 158); (13, tr 159)]
        (if between 48 57 c then st 115 else st 0))
  | 123 => Some (
      if c =? 32 then st 114
      else
        if 13 <? c then
          if between 48 57 c then tr 157 else st 0
        else if 9 <=? c then st 114 else st 0)
  | 116 => Some (
      switch c [(10, tr 154); (32, st 114)]
        (if 13 <? c then
           if between 48 57 c then tr 157 else st 0
         else if 9 <=? c then st 114 else st 0))
  | _ => None
  end.

Definition trans_21 (n : Z) : option (list action * Z) :=
  match n with
  | 149 => Some ([A_start_value], 112)
  | 148 => Some ([A_write_field], 112)
  | 150 => Some ([A_start_value; A_write_value], 113)
  | 157 => Some ([A_start_value], 115)
  | 154 => Some ([A_done 123], 123)
  | 156 => Some ([A_start_value; A_start_field], 117)
  | _ => None
  end.

Definition states_22 (cs c : Z) : option target :=
  match cs with
  | 117 => Some (
      switch c [(10, tr 158); (13, tr 159); (33, st 21); (58, tr 39); (124, st 21);
         (126, st 21)]
        (if c <? 45 then
           if 39 <? c then if between 42 43 c then st 21 else st 0
           else if 35 <=? c then st 21 else st 0
         else if 46 <? c then
           if c <? 65 then
             if between 48 57 c then st 117 else st 0
           else if 90 <? c then if between 94 122 c then st 21 else st 0 else st 21
         else st 21))
  | 118 => Some (
      switch c [(10, st 113); (32, st 114)]
        (if 13 <? c then
           if between 48 57 c then tr 157 else st 0
         else if 9 <=? c then st 114 else st 0))
  | 119 => Some (
      switch c [(10, tr 158); (13, tr 159)]
        (if between 48 57 c then st 119 else st 23))
  | _ => None
  end.

Definition trans_22 (n : Z) : option (list action * Z) :=
  match n with
  | 151 => Some ([A_start_value; A_write_value], 118)
  | 152 => Some ([A_start_value], 119)
  | _ => None
  end.

Definition goto_case (cs c : Z) : option target :=
  first_some [(fun cs => states_1 cs c); (fun cs => states_2 cs c); (fun cs => states_3 cs c);
    (fun cs => states_4 cs c); (fun cs => states_5 cs c); (fun cs => states_6 cs c);
    (fun cs => states_7 cs c); (fun cs => states_8 cs c); (fun cs => states_9 cs c);
    (fun cs => states_10 cs c); (fun cs => states_11 cs c); (fun cs => states_12 cs c);
    (fun cs => states_13 cs c); (fun cs => states_14 cs c); (fun cs => states_15 cs c);
    (fun cs => states_16 cs c); (fun cs => states_17 cs c); (fun cs => states_18 cs c);
    (fun cs => states_19 cs c); (fun cs => states_20 cs c); (fun cs => states_21 cs c);
    (fun cs => states_22 cs c)] cs.

Definition trans : Z -> option (list action * Z) :=
  first_some [trans_1; trans_2; trans_3; trans_4; trans_5; trans_8;
    trans_9; trans_13; trans_14; trans_16; trans_17; trans_18;
    trans_21; trans_22].

Definition httpclient_parser_start : Z := 1.
Definition httpclient_parser_first_final : Z := 120.
Definition httpclient_parser_error : Z := 0.
