(* ===== verification/HttpClient.v ===== *)
(** linko/http/httpclient_parser.{h,rl}: the response parser around the goto
    machine of HttpClientMachine.  Pointers into [buffer] are offsets; [pe_char]
    is the character at [pe], which the code asserts to be NUL. *)
From S2P Require Import Prelude Ragel HttpClientMachine.

(** ** strtol *)

Definition isspace (c : Z) : bool := (c =? 32) || between 9 13 c.

(** The value of a digit in [base], for bases 10 and 16. *)
Definition digit_of (base c : Z) : option Z :=
  if between 48 57 c then Some (c - 48)
  else if negb (base =? 16) then None
  else if between 65 70 c then Some (c - 55)
  else if between 97 102 c then Some (c - 87) else None.

Fixpoint skip_space (s : bytes) : bytes :=
  match s with c :: s' => if isspace (ub c) then skip_space s' else s | [] => [] end.

Fixpoint digits (base acc : Z) (s : bytes) : Z :=
  match s with
  | c :: s => match digit_of base (ub c) with Some d => digits base (acc * base + d) s | None => acc end
  | [] => acc
  end.

(** The optional 0x of base 16 counts only before a digit. *)
Definition skip_0x (base : Z) (s : bytes) : bytes :=
  match s with
  | z :: x :: d :: s' =>
    if (base =? 16) && (ub z =? 48) && ((ub x =? 120) || (ub x =? 88)) &&
       match digit_of base (ub d) with Some _ => true | None => false end
    then d :: s' else s
  | _ => s
  end.

(** [strtol(s, NULL, base)] on the bytes [s] of a C string: the value saturates
    at the limits of [long]. *)
Definition strtol (s : bytes) (base : Z) : Z :=
  let s := skip_space s in
  let '(neg, s) := match s with
    | c :: s' => if ub c =? 45 then (true, s') else if ub c =? 43 then (false, s') else (false, s)
    | [] => (false, s)
    end in
  let n := digits base 0 (skip_0x base s) in
  if neg then Z.max (- 2 ^ 63) (- n) else Z.min (2 ^ 63 - 1) n.

(** glibc's [atoi]. *)
Definition atoi (s : bytes) : Z := i32 (strtol s 10).

(** ** The parser *)

Record httpclient_parser := mkClientParser {
  cs : Z;
  body_start : Z;
  content_len : Z;
  status : Z;
  chunked : Z;
  chunks_done : Z;
  close : Z;
  nread : Z;
  mark : Z;
  field_start : Z;
  field_len : Z
}.

Definition set_cs (v : Z) (q : httpclient_parser) : httpclient_parser :=
  mkClientParser v (body_start q) (content_len q) (status q) (chunked q) (chunks_done q)
    (close q) (nread q) (mark q) (field_start q) (field_len q).
Definition set_body_start (v : Z) (q : httpclient_parser) : httpclient_parser :=
  mkClientParser (cs q) v (content_len q) (status q) (chunked q) (chunks_done q)
    (close q) (nread q) (mark q) (field_start q) (field_len q).
Definition set_content_len (v : Z) (q : httpclient_parser) : httpclient_parser :=
  mkClientParser (cs q) (body_start q) v (status q) (chunked q) (chunks_done q)
    (close q) (nread q) (mark q) (field_start q) (field_len q).
Definition set_status (v : Z) (q : httpclient_parser) : httpclient_parser :=
  mkClientParser (cs q) (body_start q) (content_len q) v (chunked q) (chunks_done q)
    (close q) (nread q) (mark q) (field_start q) (field_len q).
Definition set_chunked (v : Z) (q : httpclient_parser) : httpclient_parser :=
  mkClientParser (cs q) (body_start q) (content_len q) (status q) v (chunks_done q)
    (close q) (nread q) (mark q) (field_start q) (field_len q).
Definition set_chunks_done (v : Z) (q : httpclient_parser) : httpclient_parser :=
  mkClientParser (cs q) (body_start q) (content_len q) (status q) (chunked q) v
    (close q) (nread q) (mark q) (field_start q) (field_len q).
Definition set_close (v : Z) (q : httpclient_parser) : httpclient_parser :=
  mkClientParser (cs q) (body_start q) (content_len q) (status q) (chunked q) (chunks_done q)
    v (nread q) (mark q) (field_start q) (field_len q).
Definition set_nread (v : Z) (q : httpclient_parser) : httpclient_parser :=
  mkClientParser (cs q) (body_start q) (content_len q) (status q) (chunked q) (chunks_done q)
    (close q) v (mark q) (field_start q) (field_len q).
Definition set_mark (v : Z) (q : httpclient_parser) : httpclient_parser :=
  mkClientParser (cs q) (body_start q) (content_len q) (status q) (chunked q) (chunks_done q)
    (close q) (nread q) v (field_start q) (field_len q).
Definition set_field_start (v : Z) (q : httpclient_parser) : httpclient_parser :=
  mkClientParser (cs q) (body_start q) (content_len q) (status q) (chunked q) (chunks_done q)
    (close q) (nread q) (mark q) v (field_len q).
Definition set_field_len (v : Z) (q : httpclient_parser) : httpclient_parser :=
  mkClientParser (cs q) (body_start q) (content_len q) (status q) (chunked q) (chunks_done q)
    (close q) (nread q) (mark q) (field_start q) v.

Definition httpclient_parser_init (q : httpclient_parser) : httpclient_parser :=
  mkClientParser httpclient_parser_start 0 (-1) (status q) 0 0 0 0 0 0 0.

Definition httpclient_parser_has_error (q : httpclient_parser) : bool :=
  cs q =? httpclient_parser_error.
Definition httpclient_parser_is_finished (q : httpclient_parser) : bool :=
  cs q =? httpclient_parser_first_final.
Definition httpclient_parser_finish (q : httpclient_parser) : Z :=
  if httpclient_parser_has_error q then -1
  else if httpclient_parser_is_finished q then 1 else 0.

Section callbacks.
Context {D : Type}.

Definition element_cb : Type := bytes -> Z -> Z -> M D unit.
Definition field_cb : Type := bytes -> Z -> Z -> Z -> Z -> M D unit.

Record callbacks := mkCallbacks {
  http_field : option field_cb;
  reason_phrase : option element_cb;
  status_code : option element_cb;
  chunk_size : option element_cb;
  http_version : option element_cb;
  header_done : option element_cb;
  last_chunk : option element_cb
}.

Context (cb : callbacks).
Definition PS : Type := httpclient_parser * D.

Definition on_parser (f : httpclient_parser -> httpclient_parser) : M PS unit :=
  modify (fun s => (f s.1, s.2)).
Definition on_data (m : M D unit) : M PS unit := fun s =>
  match m s.2 with
  | Ret a d => Ret a (s.1, d)
  | Throw e d => Throw e (s.1, d)
  | Crash c => Crash c
  end.
Definition call_element (f : option element_cb) (buffer : bytes) (at_ length : Z) : M PS unit :=
  match f with Some f => on_data (f buffer at_ length) | None => mret tt end.

Definition LEN (at_ p : Z) : Z := u64 (p - at_).

Definition run_action (buffer : bytes) (a : action) (p : Z) : M PS (option Z) :=
  s ← get;
  let q := s.1 in
  let number base := strtol (zdrop (mark q) buffer) base in
  match a with
  | A_mark => on_parser (set_mark p);; mret None
  | A_start_field => on_parser (set_field_start p);; mret None
  | A_write_field => on_parser (set_field_len (LEN (field_start q) p));; mret None
  | A_start_value => on_parser (set_mark p);; mret None
  | A_write_content_len => on_parser (set_content_len (i32 (number 10)));; mret None
  | A_write_connection_close => on_parser (set_close 1);; mret None
  | A_write_value =>
    match http_field cb with
    | Some f => on_data (f buffer (field_start q) (field_len q) (mark q) (LEN (mark q) p))
    | None => mret tt
    end;; mret None
  | A_reason_phrase =>
    call_element (reason_phrase cb) buffer (mark q) (LEN (mark q) p);; mret None
  | A_status_code =>
    on_parser (set_status (i32 (number 10)));;
    call_element (status_code cb) buffer (mark q) (LEN (mark q) p);; mret None
  | A_http_version =>
    call_element (http_version cb) buffer (mark q) (LEN (mark q) p);; mret None
  | A_chunk_size =>
    let n := i32 (number 16) in
    let finished := n <=? 0 in
    on_parser (fun q => set_chunks_done (if finished then 1 else 0) (set_content_len n (set_chunked 1 q)));;
    match last_chunk cb with
    | Some _ =>
      if finished then call_element (last_chunk cb) buffer (mark q) (LEN (mark q) p)
      else call_element (chunk_size cb) buffer (mark q) (LEN (mark q) p)
    | None => call_element (chunk_size cb) buffer (mark q) (LEN (mark q) p)
    end;; mret None
  | A_trans_chunked => on_parser (set_chunked 1);; mret None
  | A_done c =>
    on_parser (set_body_start (u64 (p + 1)));;
    call_element (header_done cb) buffer (p + 1) (zlen buffer - p - 1);;
    mret (Some c)
  end.

Definition exec (buffer : bytes) : Z -> bytes -> Z -> M PS (Z * Z) :=
  exec_loop goto_case trans (run_action buffer) 2.

(** The macro [check] returns -1. *)
Definition httpclient_parser_execute (buffer : bytes) (pe_char : byte) (off : Z) : M PS Z :=
  let len := zlen buffer in
  on_parser (fun q => set_field_start 0 (set_field_len len (set_mark 0 (set_nread 0 q))));;
  s ← get;
  assert (off <=? len) "offset past end of buffer";;
  assert (ub pe_char =? 0) "pointer does not end on NUL";;
  assert (len - off =? i32 len - i32 off) "pointers aren't same distance";;
  '(p, c) ← exec buffer off (zdrop off buffer) (cs s.1);
  on_parser (set_cs c);;
  on_parser (fun q => set_nread (u64 (nread q + (p - off))) q);;
  assert (p <=? len) "buffer overflow after parsing execute";;
  s ← get;
  let q := s.1 in
  assert (nread q <=? len) "nread longer than length";;
  assert (body_start q <=? len) "body starts after buffer end";;
  if negb (mark q <? len) then mret (-1)
  else if negb (field_len q <=? len) then mret (-1)
  else if negb (field_start q <? len) then mret (-1)
  else mret (i32 (nread q)).
End callbacks.
Arguments callbacks : clear implicits.
Arguments PS : clear implicits.
Arguments element_cb : clear implicits.
Arguments field_cb : clear implicits.
