(* ===== verification/HttpParser.v ===== *)
(** linko/http/http_parser.{h,cc}: HttpRequestParser and HttpResponseParser, the
    callbacks that fill a request or response from the character machines. *)
From S2P Require Import Prelude OrdMap Ragel Http.
From S2P Require Http11 HttpClient.

(** ** The configured sizes *)

Record sizes := mkSizes {
  s_http_request_buffer_size : Z;
  s_http_request_max_body_size : Z;
  s_http_response_buffer_size : Z;
  s_http_response_max_body_size : Z
}.

(** What _RequestSizeIniter copies from the configuration: the defaults. *)
Definition default_sizes : sizes :=
  mkSizes (4 * 1024) (64 * 1024 * 1024) (4 * 1024) (64 * 1024 * 1024).

(** The listeners it adds, by the configuration variable that changes. *)
Definition on_request_buffer_size (ov nv : Z) (s : sizes) : sizes :=
  mkSizes nv (s_http_request_max_body_size s) (s_http_response_buffer_size s)
    (s_http_response_max_body_size s).
Definition on_request_max_body_size (ov nv : Z) (s : sizes) : sizes :=
  mkSizes (s_http_request_buffer_size s) nv (s_http_response_buffer_size s)
    (s_http_response_max_body_size s).
Definition on_response_buffer_size (ov nv : Z) (s : sizes) : sizes :=
  mkSizes (s_http_request_buffer_size s) (s_http_request_max_body_size s) nv
    (s_http_response_max_body_size s).
Definition on_response_max_body_size (ov nv : Z) (s : sizes) : sizes :=
  mkSizes (s_http_request_buffer_size s) (s_http_request_max_body_size s)
    (s_http_response_buffer_size s) nv.

Definition GetHttpRequestBufferSize (s : sizes) : Z := s_http_request_buffer_size s.
Definition GetHttpRequestMaxBodySize (s : sizes) : Z := s_http_request_max_body_size s.
Definition GetHttpResponseBufferSize (s : sizes) : Z := s_http_request_buffer_size s.
Definition GetHttpResponseMaxBodySize (s : sizes) : Z := s_http_request_max_body_size s.

(** [std::string(buffer + at, length)]: a length no string can have is thrown at
    before anything is read. *)
Definition make_string {D} (buffer : bytes) (at_ length : Z) : M D bytes :=
  if 2 ^ 63 - 1 <? length then throw (length_error "basic_string::_M_create")
  else if zlen buffer <? at_ + length then crash_with OutOfBounds
  else mret (slice at_ length buffer).

(** [strncmp(buffer + at, lit, length) == 0]. *)
Definition buffer_strncmp {D} (buffer : bytes) (at_ : Z) (lit : bytes) (length : Z) : M D bool :=
  match strncmp_eq lit (Z.to_nat length) (zdrop at_ buffer) with
  | Some b => mret b
  | None => crash_with OutOfBounds
  end.

(** [memmove(data, data + offset, len - offset)] on the [len] bytes of [data]. *)
Definition memmove_front (offset : Z) (data : bytes) : bytes :=
  zdrop offset data ++ zdrop (zlen data - offset) data.

Module Request.
Import Http11Machine Http11.

(** What the callbacks reach through [data]: m_data and m_error. *)
Record rdata := mkRData { m_data : HttpRequest; m_error : Z }.
Definition HttpRequestParser : Type := PS rdata.
Definition m_parser (s : HttpRequestParser) : http_parser := s.1.
Definition getData (s : HttpRequestParser) : HttpRequest := m_data s.2.

Definition setError (v : Z) : M rdata unit := modify (fun d => mkRData (m_data d) v).
Definition upd (f : HttpRequest -> HttpRequest) : M rdata unit :=
  modify (fun d => mkRData (f (m_data d)) (m_error d)).

Definition on_request_method : element_cb rdata := fun buffer at_ length =>
  match CharsToHttpMethod (zdrop at_ buffer) with
  | None => crash_with OutOfBounds
  | Some INVALID_METHOD => make_string buffer at_ length;; setError 1000
  | Some m => upd (setMethod m)
  end.
Definition on_request_uri : element_cb rdata := fun _ _ _ => mret tt.
Definition on_request_fragment : element_cb rdata := fun buffer at_ length =>
  v ← make_string buffer at_ length; upd (setFragment v).
Definition on_request_path : element_cb rdata := fun buffer at_ length =>
  v ← make_string buffer at_ length; upd (setPath v).
Definition on_request_query : element_cb rdata := fun buffer at_ length =>
  v ← make_string buffer at_ length; upd (setQuery v).
Definition on_request_version : element_cb rdata := fun buffer at_ length =>
  v11 ← buffer_strncmp buffer at_ (bs "HTTP/1.1") length;
  if (v11 : bool) then upd (setVersion 0x11) else
  v10 ← buffer_strncmp buffer at_ (bs "HTTP/1.0") length;
  if (v10 : bool) then upd (setVersion 0x10) else
  make_string buffer at_ length;; setError 1001.
Definition on_request_header_done : element_cb rdata := fun _ _ _ => mret tt.
Definition on_request_http_field : field_cb rdata := fun buffer field flen value vlen =>
  if flen =? 0 then setError 1002 else
  k ← make_string buffer field flen;
  v ← make_string buffer value vlen;
  upd (setHeader k v).

Definition request_callbacks : callbacks rdata :=
  mkCallbacks (Some on_request_http_field) (Some on_request_method) (Some on_request_uri)
    (Some on_request_fragment) (Some on_request_path) (Some on_request_query)
    (Some on_request_version) (Some on_request_header_done).

(** [q] and [status]: the memory the members the constructors leave alone hold. *)
Definition HttpRequestParser_new (q : http_parser) (status : HttpStatus) : HttpRequestParser :=
  (http_parser_init q, mkRData (HttpRequest_new status 0x11 true) 0).

(** The result is the offset and the new content of the [len] bytes. *)
Definition execute (data : bytes) : M HttpRequestParser (Z * bytes) :=
  offset ← http_parser_execute request_callbacks data 0;
  mret (offset, memmove_front offset data).

Definition isFinished (s : HttpRequestParser) : Z := http_parser_finish (m_parser s).
Definition hasError (s : HttpRequestParser) : bool :=
  negb (m_error s.2 =? 0) || http_parser_has_error (m_parser s).

Definition getContentLength (lexical_cast : bytes -> option Z) (s : HttpRequestParser) : Z :=
  getAs lexical_cast (m_headers (getData s)) (bs "content-length") 0.
End Request.

Module Response.
Import HttpClientMachine HttpClient Http.Response.

Record rdata := mkRData { m_data : HttpResponse; m_error : Z }.
Definition HttpResponseParser : Type := PS rdata.
Definition m_parser (s : HttpResponseParser) : httpclient_parser := s.1.
Definition getData (s : HttpResponseParser) : HttpResponse := m_data s.2.

Definition setError (v : Z) : M rdata unit := modify (fun d => mkRData (m_data d) v).
Definition upd (f : HttpResponse -> HttpResponse) : M rdata unit :=
  modify (fun d => mkRData (f (m_data d)) (m_error d)).

Definition on_response_reason : element_cb rdata := fun buffer at_ length =>
  v ← make_string buffer at_ length; upd (setReason v).
Definition on_response_status : element_cb rdata := fun buffer at_ length =>
  upd (setStatus (atoi (zdrop at_ buffer))).
Definition on_response_chunk : element_cb rdata := fun _ _ _ => mret tt.
Definition on_response_version : element_cb rdata := fun buffer at_ length =>
  v11 ← buffer_strncmp buffer at_ (bs "HTTP/1.1") length;
  if (v11 : bool) then upd (setVersion 0x11) else
  v10 ← buffer_strncmp buffer at_ (bs "HTTP/1.0") length;
  if (v10 : bool) then upd (setVersion 0x10) else
  make_string buffer at_ length;; setError 1001.
Definition on_response_header_done : element_cb rdata := fun _ _ _ => mret tt.
Definition on_response_last_chunk : element_cb rdata := fun _ _ _ => mret tt.
Definition on_response_http_field : field_cb rdata := fun buffer field flen value vlen =>
  if flen =? 0 then setError 1002 else
  k ← make_string buffer field flen;
  v ← make_string buffer value vlen;
  upd (setHeader k v).

Definition response_callbacks : callbacks rdata :=
  mkCallbacks (Some on_response_http_field) (Some on_response_reason) (Some on_response_status)
    (Some on_response_chunk) (Some on_response_version) (Some on_response_header_done)
    (Some on_response_last_chunk).

Definition HttpResponseParser_new (q : httpclient_parser) : HttpResponseParser :=
  (httpclient_parser_init q, mkRData (HttpResponse_new 0x11 true) 0).

(** [pe_char]: the byte at [data + len].  The offset is a [size_t]: the -1 of a
    failed check becomes 2^64 - 1, and the move then starts before [data]. *)
Definition execute (data : bytes) (pe_char : byte) (chunck : bool)
    : M HttpResponseParser (Z * bytes) :=
  (if chunck then on_parser httpclient_parser_init else mret tt);;
  n ← httpclient_parser_execute response_callbacks data pe_char 0;
  let offset := u64 n in
  if zlen data <? offset then crash_with OutOfBounds
  else mret (offset, memmove_front offset data).

Definition isFinished (s : HttpResponseParser) : Z := httpclient_parser_finish (m_parser s).
Definition hasError (s : HttpResponseParser) : bool :=
  negb (m_error s.2 =? 0) || httpclient_parser_has_error (m_parser s).

Definition getContentLength (lexical_cast : bytes -> option Z) (s : HttpResponseParser) : Z :=
  getAs lexical_cast (m_headers (getData s)) (bs "content-length") 0.
End Response.
