(* ===== verification/Http11Safe.v ===== *)
(** The request parser is safe on every input that is not cut inside a query:
    whatever bytes a fresh HttpRequestParser is given, in one piece or several, no
    callback reads outside the buffer, nothing is thrown and the assertions that end
    http_parser_execute hold.  The exception is real: HttpLimits.split_query_throws. *)
From S2P Require Import Prelude OrdMap Ragel Http Http11Machine Http11 HttpParser.
Import HttpParser.Request.

(** ** Where a query is open *)

(** Whether a text ends behind a question mark with no space, number sign or line
    end after it; [m]: whether the text before it does. *)
Definition query_next (m : bool) (b : byte) : bool :=
  (ub b =? 63) || (m && negb ((ub b =? 32) || (ub b =? 35) || (ub b =? 13) || (ub b =? 10))).
Definition open_query (m : bool) (xs : bytes) : bool := foldl query_next m xs.

(** No piece ends there. *)
Fixpoint cut_outside_query (m : bool) (pieces : list bytes) : bool :=
  match pieces with
  | [] => true
  | data :: pieces => negb (open_query m data) && cut_outside_query false pieces
  end.

(** ** A static check of the table *)

(** What is known in a state: whether the start of a query has been marked, and
    whether the recorded field name lies in the buffer. *)
Definition flags : Type := bool * bool.

Definition in_query (cs : Z) : bool := (cs =? 30) || (cs =? 31) || (cs =? 32).
Definition in_name (cs : Z) : bool := (cs =? 14) || (cs =? 18) || (cs =? 348).
Definition flags_of (cs : Z) : flags := (in_query cs, negb (in_name cs)).
Definition flags_le (a b : flags) : bool := implb a.1 b.1 && implb a.2 b.2.

(** An action on character [c] that [fl] allows, and what is known after it. *)
Definition act_pre (fl : flags) (c : Z) (a : action) : bool :=
  match a with
  | A_query_string => fl.1
  | A_write_value => fl.2
  | A_request_method => c =? 32
  | A_done n => between 348 349 n
  | _ => true
  end.
Definition act_post (fl : flags) (a : action) : flags :=
  match a with
  | A_start_query => (true, fl.2)
  | A_start_field => (fl.1, false)
  | A_write_field => (fl.1, true)
  | _ => fl
  end.
Fixpoint acts_ok (fl : flags) (c : Z) (acts : list action) : option flags :=
  match acts with
  | [] => Some fl
  | a :: acts => if act_pre fl c a then acts_ok (act_post fl a) c acts else None
  end.

(** A character goes on in a query or opens one. *)
Definition opened (cs : Z) : bool := (cs =? 29) || in_query cs.
Definition query_step (cs : Z) (b : byte) (n : Z) : bool := implb (opened n) (query_next (opened cs) b).

Definition edge_ok (relaxed : bool) (cs : Z) (b : byte) : bool :=
  match goto_case relaxed cs (char b) with
  | None => cs =? 0
  | Some (st n) => (n =? 0) || (between 1 349 n && flags_le (flags_of n) (flags_of cs) && query_step cs b n)
  | Some (tr k) =>
    match trans k with
    | None => false
    | Some (acts, n) =>
      match acts_ok (flags_of cs) (char b) acts with
      | Some fl => between 1 349 n && flags_le (flags_of n) fl && query_step cs b n
      | None => false
      end
    end
  end.

Definition states : list Z := map Z.of_nat (seq 0 350).

Lemma table_checked :
  forallb (fun r => forallb (fun cs => forallb (edge_ok r cs) all_bytes) states) [true; false] = true.
Proof. vm_compute. reflexivity. Qed.

Lemma edges_ok r cs b : 0 <= cs < 350 -> edge_ok r cs b = true.
Proof.
  intros Hcs. pose proof table_checked as H. rewrite forallb_forall in H.
  assert (Hr : In r [true; false]) by (destruct r; cbn; auto).
  specialize (H r Hr). cbv beta in H. rewrite forallb_forall in H.
  refine (forall_bytes _ (H cs _) b). apply in_map_iff. exists (Z.to_nat cs).
  split; [lia|]. apply in_seq. lia.
Qed.

(** ** The invariant of a run *)

Record pinv (len p : Z) (fl : flags) (q : http_parser) : Prop := mkPinv {
  inv_mark : 0 <= mark q <= p;
  inv_start : 0 <= field_start q <= p;
  inv_len : 0 <= field_len q <= len;
  inv_name : fl.2 = true -> field_start q + field_len q <= len;
  inv_query : fl.1 = true -> 0 <= query_start q <= p;
  inv_body : 0 <= body_start q <= len;
  inv_nread : nread q = 0
}.

Lemma pinv_weaken len p p' fl fl' q :
  pinv len p fl q -> p <= p' -> flags_le fl' fl = true -> pinv len p' fl' q.
Proof.
  intros [] Hp Hfl. unfold flags_le in Hfl. apply andb_prop in Hfl as [H1 H2].
  constructor; try lia; intros E.
  - rewrite E in H2. cbn in H2. auto.
  - rewrite E in H1. cbn in H1. specialize (inv_query0 H1). lia.
Qed.

(** ** The callbacks *)

Lemma make_string_ok {D} buffer at_ length (d : D) :
  0 <= length -> at_ + length <= zlen buffer -> zlen buffer < 2 ^ 31 -> 0 <= at_ ->
  make_string buffer at_ length d = Ret (slice at_ length buffer) d.
Proof.
  intros. unfold make_string.
  rewrite (proj2 (Z.ltb_ge _ _)) by lia. by rewrite (proj2 (Z.ltb_ge _ _)) by lia.
Qed.

Lemma LEN_ok at_ p len : 0 <= at_ <= p -> p < len -> len < 2 ^ 31 -> LEN at_ p = p - at_.
Proof. intros. unfold LEN. apply wrap_small. unfold in_u. lia. Qed.

Lemma strncmp_eq_none lit n m c : strncmp_eq lit n m = None -> c ∈ m -> c ∈ lit.
Proof.
  revert n m. induction lit as [|x lit IH]; intros [|n] [|y m] Hn Hc; try done;
    try (by apply not_elem_of_nil in Hc).
  revert Hn. cbn [strncmp_eq]. case_cmp; [|done]. intros Hn. apply elem_of_cons in Hc as [->|Hc].
  - rewrite (ub_inj x y) by done. by left.
  - right. by eapply IH.
Qed.

Lemma strncmp_eq_short lit n m : (n <= length m)%nat -> is_Some (strncmp_eq lit n m).
Proof.
  revert n m. induction lit as [|x lit IH]; intros [|n] [|y m]; cbn; try (intros; by eexists); try lia.
  intros. case_cmp; [apply IH; lia|by eexists].
Qed.

Lemma names_without_space :
  forallb (fun e => forallb (fun b => negb (ub b =? 32)) e.2) HTTP_METHOD_MAP = true.
Proof. reflexivity. Qed.

Lemma CharsToHttpMethod_total m : bz 32 ∈ m -> is_Some (CharsToHttpMethod m).
Proof.
  intros Hm. unfold CharsToHttpMethod. pose proof names_without_space as H.
  induction HTTP_METHOD_MAP as [|[[n name] str] table IH]; [by eexists|].
  cbn [forallb] in H. apply andb_prop in H as [H1 H2]. cbn [chars_to_method].
  destruct (strncmp_eq str (length str) m) as [[]|] eqn:E; [by eexists|by apply IH|].
  exfalso. pose proof (strncmp_eq_none _ _ _ _ E Hm) as Hin. cbn in H1.
  rewrite forallb_forall in H1. apply list_elem_of_In, H1 in Hin. done.
Qed.

Lemma query_step_next c b n m :
  query_step c b n = true -> implb (opened c) m = true -> implb (opened n) (query_next m b) = true.
Proof.
  unfold query_step, query_next. destruct (opened n); [|done]. cbn [implb].
  destruct (_ =? 63); [done|]. cbn [orb]. destruct (opened c), m; cbn; done.
Qed.
Lemma done_not_query c : 348 <= c -> opened c = false.
Proof. intros. unfold opened, in_query. case_cmp; lia. Qed.

Section run.
Context (buffer : bytes) (Hlen : zlen buffer < 2 ^ 31).
Abbreviation len := (zlen buffer).
Abbreviation act := (run_action request_callbacks buffer).

(** A callback returns, whatever data it works on. *)
Definition returns {D} (m : M D unit) : Prop := forall d, exists d', m d = Ret tt d'.

Lemma upd_returns f : returns (upd f).
Proof. intros d. by eexists. Qed.

Lemma setError_returns v : returns (setError v).
Proof. intros d. by eexists. Qed.

Lemma string_returns {B} at_ p (f : bytes -> M B unit) :
  0 <= at_ <= p -> p < len -> (forall v, returns (f v)) ->
  returns (v ← make_string buffer at_ (LEN at_ p); f v).
Proof.
  intros Ha Hp Hf d. rewrite (LEN_ok at_ p len) by done.
  step_with (make_string_ok buffer at_ (p - at_) d ltac:(lia) ltac:(lia) Hlen ltac:(lia)).
  apply Hf.
Qed.

Lemma method_returns at_ p :
  0 <= at_ <= p -> p < len -> bz 32 ∈ zdrop at_ buffer ->
  returns (on_request_method buffer at_ (LEN at_ p)).
Proof.
  intros Ha Hp Hsp d. unfold on_request_method.
  destruct (CharsToHttpMethod_total _ Hsp) as [m ->].
  destruct m; try apply upd_returns.
  by apply (string_returns at_ p (fun _ => setError 1000)); [| |intros; apply setError_returns].
Qed.

Lemma strncmp_returns {B} at_ p lit (f : bool -> M B unit) :
  0 <= at_ <= p -> p < len -> (forall b, returns (f b)) ->
  returns (b ← buffer_strncmp buffer at_ lit (LEN at_ p); f b).
Proof.
  intros Ha Hp Hf d. rewrite (LEN_ok at_ p len) by done. unfold buffer_strncmp.
  destruct (strncmp_eq_short lit (Z.to_nat (p - at_)) (zdrop at_ buffer)) as [b ->].
  - unfold zdrop. rewrite length_drop. unfold zlen in *. lia.
  - apply Hf.
Qed.

Lemma version_returns at_ p :
  0 <= at_ <= p -> p < len -> returns (on_request_version buffer at_ (LEN at_ p)).
Proof.
  intros Ha Hp. unfold on_request_version. apply strncmp_returns; [done..|].
  intros [|]; [apply upd_returns|]. apply strncmp_returns; [done..|].
  intros [|]; [apply upd_returns|].
  apply (string_returns at_ p (fun _ => setError 1001)); [done..|]. intros; apply setError_returns.
Qed.

Lemma field_returns field flen at_ p :
  0 <= field -> 0 <= flen -> field + flen <= len -> 0 <= at_ <= p -> p < len ->
  returns (on_request_http_field buffer field flen at_ (LEN at_ p)).
Proof.
  intros. unfold on_request_http_field. case_cmp; [apply setError_returns|]. intros d.
  step_with (make_string_ok buffer field flen d ltac:(lia) ltac:(lia) Hlen ltac:(lia)).
  apply string_returns; [done..|]. intros; apply upd_returns.
Qed.

Lemma char_space b : char b = 32 -> b = bz 32.
Proof.
  intros H. assert (E : implb (char b =? 32) (bool_decide (b = bz 32)) = true)
    by (revert b H; intros b _; revert b; apply forall_bytes; reflexivity).
  rewrite H in E. by apply bool_decide_eq_true in E.
Qed.

Lemma rest_in at_ p b rest : 0 <= at_ <= p -> zdrop p buffer = b :: rest -> b ∈ zdrop at_ buffer.
Proof.
  intros Ha Hb. assert (E : zdrop p buffer = zdrop (p - at_) (zdrop at_ buffer)).
  { rewrite zdrop_zdrop by lia. f_equal. lia. }
  rewrite <- (ztake_zdrop (p - at_) (zdrop at_ buffer)), <- E, Hb.
  apply elem_of_app. right. by left.
Qed.

(** One action keeps the invariant and returns. *)
Lemma on_data_returns {q d} (m : M rdata unit) :
  returns m -> exists d', on_data m (q, d) = Ret tt (q, d').
Proof. intros H. destruct (H d) as [d' E]. exists d'. unfold on_data. cbn. by rewrite E. Qed.

(** Only the last action moves the start of the body. *)
Definition out_ok (out : option Z) (q q' : http_parser) : Prop :=
  match out with Some c => 348 <= c < 350 | None => body_start q' = body_start q end.

Lemma run_action_ok a p fl b q d :
  pinv len p fl q -> 0 <= p < len -> (exists rest, zdrop p buffer = b :: rest) ->
  act_pre fl (char b) a = true ->
  exists out q' d', act a p (q, d) = Ret out (q', d') /\
    pinv len p (act_post fl a) q' /\ cs q' = cs q /\ out_ok out q q'.
Proof.
  intros I Hp [rest Hb] Hpre. pose proof I as [Im Is Il In Iq Ib Ir].
  assert (Hdata : forall m : M rdata unit, returns m ->
    exists d', (on_data m;; mret (None : option Z)) (q, d) = Ret None (q, d')).
  { intros m Hm. destruct (@on_data_returns q d m Hm) as [d' E]. exists d'. by step_with E. }
  destruct a; unfold run_action; step_with (eq_refl : get (q, d) = Ret _ _); cbn [fst];
    cbn [request_callbacks http_field request_method request_uri fragment request_path
         query_string http_version header_done call_element];
    try (eexists None, _, d; split; [reflexivity|];
         split; [constructor; cbn; try lia; auto|done]).
  - cbn. rewrite (LEN_ok _ p len) by lia. lia.
  - cbn. rewrite (LEN_ok _ p len) by lia. lia.
  - cbn in Hpre. destruct (Hdata _ (field_returns (field_start q) (field_len q) (mark q) p
      ltac:(lia) ltac:(lia) (In Hpre) ltac:(lia) ltac:(lia))) as [d' E].
    by exists None, q, d'.
  - cbn in Hpre. apply Z.eqb_eq, char_space in Hpre. subst b.
    destruct (Hdata _ (method_returns (mark q) p ltac:(lia) ltac:(lia)
      (rest_in (mark q) p (bz 32) rest Im Hb))) as [d' E]. by exists None, q, d'.
  - destruct (Hdata _ (string_returns (mark q) p (fun v => upd (setFragment v)) ltac:(lia) ltac:(lia)
      ltac:(intros; apply upd_returns))) as [d' E]. by exists None, q, d'.
  - destruct (Hdata _ (string_returns (query_start q) p (fun v => upd (setQuery v)) (Iq Hpre) ltac:(lia)
      ltac:(intros; apply upd_returns))) as [d' E]. by exists None, q, d'.
  - destruct (Hdata _ (version_returns (mark q) p ltac:(lia) ltac:(lia))) as [d' E]. by exists None, q, d'.
  - destruct (Hdata _ (string_returns (mark q) p (fun v => upd (setPath v)) ltac:(lia) ltac:(lia)
      ltac:(intros; apply upd_returns))) as [d' E]. by exists None, q, d'.
  - cbn in Hpre. apply andb_prop in Hpre as [Hc1%Z.leb_le Hc2%Z.leb_le].
    destruct (negb (xml_sent q =? 0) || negb (json_sent q =? 0)).
    + eexists (Some _), _, d. split; [reflexivity|].
      split; [constructor; cbn; try lia; auto|]. split; [done|]. cbn. lia.
    + eexists (Some _), _, d. split; [reflexivity|].
      split; [|split; [done|cbn; lia]]. constructor; cbn; try lia; auto.
      rewrite wrap_small by (unfold in_u; lia). lia.
Qed.

Lemma run_actions_ok acts p fl fl' b q d :
  pinv len p fl q -> 0 <= p < len -> (exists rest, zdrop p buffer = b :: rest) ->
  acts_ok fl (char b) acts = Some fl' ->
  exists out q' d' fl'', run_actions act acts p (q, d) = Ret out (q', d') /\
    pinv len p fl'' q' /\ (out = None -> fl'' = fl') /\
    cs q' = cs q /\ out_ok out q q'.
Proof.
  intros I Hp Hb. revert fl q d I. induction acts as [|a acts IH]; intros fl q d I Hok.
  { injection Hok as <-. by exists None, q, d, fl. }
  cbn [acts_ok] in Hok. destruct (act_pre fl (char b) a) eqn:Hpre; [|done].
  destruct (run_action_ok a p fl b q d I Hp Hb Hpre) as (out & q1 & d1 & E & I1 & Hc & Hout).
  destruct out as [c|].
  - exists (Some c), q1, d1, (act_post fl a). cbn [run_actions]. step_with E. by split_and!.
  - destruct (IH _ q1 d1 I1 Hok) as (out & q2 & d2 & fl2 & E2 & I2 & H2 & Hc2 & Hout2).
    exists out, q2, d2, fl2. cbn [run_actions]. step_with E.
    split; [exact E2|]. split; [done|]. split; [done|]. split; [congruence|].
    unfold out_ok in *. destruct out; congruence.
Qed.

(** The machine stops inside the buffer with the invariant. *)
Lemma exec_ok r rest p c q d :
  zdrop p buffer = rest -> 0 <= p <= len -> p + zlen rest = len -> 1 <= c < 350 ->
  pinv len (Z.max 0 (p - 1)) (flags_of c) q ->
  exists p' c' q' d', exec request_callbacks buffer r p rest c (q, d) = Ret (p', c') (q', d') /\
    p <= p' <= len /\ pinv len (Z.max 0 (len - 1)) (false, false) q' /\ cs q' = cs q /\
    0 <= c' < 350 /\ (c' = 0 \/ 348 <= c' \/ p' = len) /\
    (c' < 348 -> body_start q' = body_start q) /\
    (forall m, implb (opened c) m = true -> opened c' = true -> open_query m rest = true).
Proof.
  unfold exec. revert p c q d. induction rest as [|b rest IH]; intros p c q d Hr Hp Hl Hc I.
  { rewrite zlen_nil in Hl. exists p, c, q, d. split; [done|]. split; [lia|].
    split; [|split; [done|split; [lia|split; [lia|split; [done|]]]]]; [eapply pinv_weaken; [exact I|lia|done]|].
    intros m Hm Hq. by rewrite Hq in Hm. }
  rewrite zlen_cons in Hl. pose proof (zlen_nonneg rest).
  assert (Hr' : zdrop (p + 1) buffer = rest).
  { rewrite <- zdrop_zdrop by lia. by rewrite Hr. }
  pose proof (edges_ok r c b ltac:(lia)) as Hedge. unfold edge_ok in Hedge. cbn [exec_loop].
  assert (Hnext : forall n q1 d1 fl, flags_le (flags_of n) fl = true -> between 1 349 n = true ->
    query_step c b n = true -> pinv len p fl q1 -> cs q1 = cs q -> body_start q1 = body_start q ->
    exists p' c' q' d', (if n =? 0 then mret (p, 0) else
        exec_loop (goto_case r) trans act 2 (p + 1) rest n) (q1, d1) = Ret (p', c') (q', d') /\
      p <= p' <= len /\ pinv len (Z.max 0 (len - 1)) (false, false) q' /\ cs q' = cs q /\
      0 <= c' < 350 /\ (c' = 0 \/ 348 <= c' \/ p' = len) /\
      (c' < 348 -> body_start q' = body_start q) /\
      (forall m, implb (opened c) m = true -> opened c' = true -> open_query m (b :: rest) = true)).
  { intros n q1 d1 fl Hfl Hn Hqs I1 Hcs Hbs. unfold between in Hn. apply andb_prop in Hn as [H1%Z.leb_le H2%Z.leb_le].
    rewrite (proj2 (Z.eqb_neq n 0)) by lia.
    destruct (IH (p + 1) n q1 d1 Hr' ltac:(lia) ltac:(lia) ltac:(lia)) as (p' & c' & q' & d' & E & Hp' & I' & Hc' & Hr1 & Hr2 & Hr3 & Hr4).
    { by eapply pinv_weaken; [exact I1|lia|]. }
    exists p', c', q', d'. split; [exact E|]. split; [lia|]. split; [done|].
    split; [congruence|]. split; [done|]. split; [done|]. split; [by rewrite <- Hbs|].
    intros m Hm Hq. apply (Hr4 (query_next m b)); [|done]. by apply (query_step_next c). }
  assert (Ip : pinv len p (flags_of c) q)
    by (eapply pinv_weaken; [exact I|lia|unfold flags_le; by destruct (flags_of c) as [[] []]]).
  destruct (goto_case r c (char b)) as [[n|k]|] eqn:Eg.
  - destruct (n =? 0) eqn:Hn0.
    + exists p, 0, q, d. split; [reflexivity|]. split; [lia|]. split; [|split; [done|split; [lia|split; [lia|split; [done|]]]]]; [|by intros m _ Hq].
      eapply pinv_weaken; [exact I|lia|done].
    + cbn in Hedge. apply andb_prop in Hedge as [[? ?]%andb_prop ?]. specialize (Hnext n q d (flags_of c)).
      rewrite Hn0 in Hnext. by apply Hnext.
  - destruct (trans k) as [[acts n]|] eqn:Et; [|done].
    destruct (acts_ok (flags_of c) (char b) acts) as [fl|] eqn:Ea; [|done].
    apply andb_prop in Hedge as [[Hn Hfl]%andb_prop Hqs].
    destruct (run_actions_ok acts p (flags_of c) fl b q d Ip ltac:(lia) (ex_intro _ rest Hr) Ea)
      as (out & q1 & d1 & fl1 & E & I1 & Hfl1 & Hcs & Hout).
    step_with E. destruct out as [c'|].
    + cbn in Hout. exists (p + 1), c', q1, d1. split; [done|].
      split; [lia|]. split; [|split; [done|split; [lia|split; [lia|split; [lia|]]]]]; [|intros m _ Hq; by rewrite done_not_query in Hq by lia].
      eapply pinv_weaken; [exact I1|lia|done].
    + rewrite Hfl1 in I1 by done. by apply (Hnext n q1 d1 fl).
  - apply Z.eqb_eq in Hedge. lia.
Qed.
End run.

Lemma on_parser_run {D} f q (d : D) : on_parser f (q, d) = Ret tt (f q, d).
Proof. done. Qed.

(** [memmove]: what follows the offset comes to the front. *)
Lemma memmove_front_spec n data :
  0 <= n <= zlen data ->
  zlen (memmove_front n data) = zlen data /\ ztake (zlen data - n) (memmove_front n data) = zdrop n data.
Proof.
  intros Hn. unfold memmove_front.
  assert (H1 : zlen (zdrop n data) = zlen data - n) by (by apply zlen_zdrop).
  assert (H2 : zlen (zdrop (zlen data - n) data) = n) by (rewrite zlen_zdrop; lia).
  rewrite zlen_app. split; [lia|]. rewrite ztake_app_le by lia. by apply ztake_all; lia.
Qed.

(** What http_parser_execute resets before it runs the machine. *)
Definition start_exec (data : bytes) (q : http_parser) : http_parser :=
  set_field_start 0 (set_field_len (zlen data) (set_mark 0 (set_nread 0 q))).

Lemma http_parser_execute_ok data q d :
  zlen data < 2 ^ 31 -> 1 <= cs q < 350 -> in_query (cs q) = false ->
  0 <= body_start q <= zlen data ->
  exists n q' d', http_parser_execute request_callbacks data 0 (q, d) = Ret n (q', d') /\
    0 <= n <= zlen data /\
    (zlen data <> 0 -> cs q <> 0 -> 0 <= cs q' < 350 /\
       (cs q' = 0 \/ 348 <= cs q' \/ n = zlen data) /\
       (cs q' < 348 -> body_start q' = body_start q) /\
       (opened (cs q') = true -> forall m, implb (opened (cs q)) m = true -> open_query m data = true) /\
       exists q1, exec request_callbacks data (negb (uri_relaxed q =? 0)) 0 data (cs q)
         (start_exec data q, d) = Ret (n, cs q') (q1, d') /\ query_start q' = query_start q1).
Proof.
  intros Hlen Hcs Hq Hb. unfold http_parser_execute. destruct (zlen data =? 0) eqn:H0.
  { exists 0, q, d. apply Z.eqb_eq in H0. split; [done|]. split; [lia|]. done. }
  apply Z.eqb_neq in H0. pose proof (zlen_nonneg data).
  set (q0 := start_exec data q).
  step_with (on_parser_run _ q d). fold (start_exec data q). fold q0.
  step_with (eq_refl : get (q0, d) = Ret (q0, d) (q0, d)). cbv beta zeta.
  step_with (assert_run (0 <=? zlen data) _ _ ltac:(lia)).
  rewrite !swrap_small by (unfold in_s; lia).
  step_with (assert_run (zlen data - 0 =? zlen data - 0) _ _ ltac:(lia)).
  destruct (exec_ok data Hlen (negb (uri_relaxed q0 =? 0)) data 0 (cs q) q0 d)
    as (p' & c' & q' & d' & E & Hp' & I & Hc' & Hr1 & Hr2 & Hr3 & Hr4); [done|lia|lia|done| |].
  { constructor; cbn; try lia. by rewrite Hq. }
  cbn [fst]. rewrite zdrop_0. step_with E. cbv beta zeta iota.
  destruct I as [Im Is Il _ _ Ibd Inr]. cbn in Hc'.
  step_with (assert_run (p' <=? zlen data) _ _ ltac:(lia)).
  set (q1 := if http_parser_has_error q' then q' else set_cs c' q').
  step_with (on_parser_run _ q' d'). fold q1.
  set (q2 := set_nread (u64 (nread q1 + (p' - 0))) q1).
  step_with (on_parser_run _ q1 d'). fold q2.
  step_with (eq_refl : get (q2, d') = Ret (q2, d') (q2, d')). cbn [fst].
  assert (Hn : nread q2 = p').
  { unfold q2, q1. cbn. rewrite wrap_small; [destruct (http_parser_has_error q'); cbn; lia|].
    unfold in_u. destruct (http_parser_has_error q'); cbn; lia. }
  assert (Hfields : mark q2 = mark q' /\ field_start q2 = field_start q' /\
    field_len q2 = field_len q' /\ body_start q2 = body_start q').
  { unfold q2, q1. by destruct (http_parser_has_error q'). }
  pose proof Hfields as (_ & _ & _ & Hbody).
  destruct Hfields as (-> & -> & -> & ->). rewrite Hn.
  step_with (assert_run (p' <=? zlen data) _ _ ltac:(lia)).
  step_with (assert_run (body_start q' <=? zlen data) _ _ ltac:(lia)).
  step_with (assert_run (mark q' <? zlen data) _ _ ltac:(lia)).
  step_with (assert_run (field_len q' <=? zlen data) _ _ ltac:(lia)).
  step_with (assert_run (field_start q' <? zlen data) _ _ ltac:(lia)).
  exists p', q2, d'. split; [reflexivity|]. split; [lia|]. intros _ Hnz.
  assert (Hq2 : cs q2 = c').
  { unfold q2, q1, http_parser_has_error, http_parser_error. cbn.
    by rewrite Hc', (proj2 (Z.eqb_neq _ _)) by done. }
  rewrite Hq2, Hbody. split; [done|]. split; [done|]. split; [exact Hr3|]. split; [by intros ? m ?; apply (Hr4 m)|]. exists q'.
  split; [done|]. unfold q2, q1. by destruct (http_parser_has_error q').
Qed.

(** Between two pieces that are cut outside a query. *)
Definition resumes (q : http_parser) : Prop :=
  1 <= cs q < 350 /\ opened (cs q) = false /\ body_start q = 0.

(** What a call leaves for the caller: the offset, and what is unread in front. *)
Definition consumes (data : bytes) (n : Z) (data' : bytes) : Prop :=
  0 <= n <= zlen data /\ zlen data' = zlen data /\ ztake (zlen data - n) data' = zdrop n data.

Lemma request_execute_ok data q d :
  zlen data < 2 ^ 31 -> resumes q ->
  exists n data' s', execute data (q, d) = Ret (n, data') s' /\ consumes data n data' /\
    (data <> [] -> isFinished s' = 1 \/ isFinished s' = -1 \/ (isFinished s' = 0 /\ n = zlen data)) /\
    (open_query false data = false -> isFinished s' = 0 -> resumes s'.1).
Proof.
  intros Hlen (Hcs & Hop & Hb). pose proof (zlen_nonneg data).
  assert (Hq : in_query (cs q) = false) by (unfold opened in Hop; by apply orb_false_elim in Hop as [_ ?]).
  destruct (http_parser_execute_ok data q d) as (n & q' & d' & E & Hn & Hend); [done|done|done|lia|].
  destruct (memmove_front_spec n data Hn) as [H1 H2].
  exists n, (memmove_front n data), (q', d'). split; [unfold execute; by step_with E|]. split; [done|].
  unfold isFinished, http_parser_finish, http_parser_has_error, http_parser_is_finished,
    http_parser_error, http_parser_first_final, m_parser. cbn [fst].
  destruct (decide (data = [])) as [->|Hne].
  { split; [done|]. intros _ _. unfold http_parser_execute in E. cbn in E. injection E as _ <- _. by split. }
  destruct Hend as (Hr & Hst & Hbs & Hop' & _); [by intros ?%zlen_0|lia|].
  destruct (cs q' =? 0) eqn:E0; [by split; [right; left|]|]. apply Z.eqb_neq in E0.
  destruct (348 <=? cs q') eqn:E1; [by split; [by left|]|]. apply Z.leb_gt in E1.
  split; [right; right; split; [done|lia]|]. intros Ho _. split; [lia|]. split; [|rewrite Hbs; lia].
  destruct (opened (cs q')) eqn:Eo; [|done]. rewrite (Hop' eq_refl false) in Ho; [done|by rewrite Hop].
Qed.

(** The parser is given pieces one after the other until it has an end or an error. *)
Fixpoint feed (pieces : list bytes) : M HttpRequestParser unit :=
  match pieces with
  | [] => mret tt
  | data :: pieces => fun s =>
    if isFinished s =? 0 then (execute data;; feed pieces) s else Ret tt s
  end.

Lemma request_feed_ok pieces : forall q d,
  Forall (fun x => zlen x < 2 ^ 31) pieces -> cut_outside_query false pieces = true -> resumes q ->
  exists s, feed pieces (q, d) = Ret tt s /\ (isFinished s = 0 -> resumes s.1).
Proof.
  induction pieces as [|data pieces IH]; intros q d Hp Hcut R; [by exists (q, d)|].
  apply list.Forall_cons in Hp as [Hlen Hp]. cbn [cut_outside_query] in Hcut. apply andb_prop in Hcut as [Ho%negb_true_iff Hcut].
  cbn [feed]. destruct (isFinished (q, d) =? 0) eqn:Ef; [|exists (q, d); split; [done|by apply Z.eqb_neq in Ef]].
  destruct (request_execute_ok data q d Hlen R) as (n & data' & [q1 d1] & E & _ & _ & R1). step_with E.
  destruct (decide (isFinished (q1, d1) = 0)) as [H0|H0]; [by apply IH; [..|by apply R1]|].
  exists (q1, d1). split; [|done]. destruct pieces as [|x pieces]; [done|]. cbn [feed]. by rewrite (proj2 (Z.eqb_neq _ _) H0).
Qed.

(** C9: the request parser is safe on every input that is not cut inside a query:
    a fresh parser, whatever its uninitialised members hold, that is given pieces
    shorter than 2^31 bytes one after the other, none of which ends behind a question
    mark that no space, number sign or line end has followed, returns from each call
    without throwing, reading outside the buffer or failing an assertion.  While it has
    neither finished nor found an error the same holds of the next call, however its
    piece ends: the offset it returns is in range, the unread bytes are moved to the
    front, and it stops before the end only when it has finished or found an error.  A
    piece that does end inside a query can make the call for the next one throw
    (HttpLimits.split_query_throws). *)
Theorem request_parser_safe q0 status (pieces : list bytes) (data : bytes) :
  Forall (fun x => zlen x < 2 ^ 31) pieces -> cut_outside_query false pieces = true -> zlen data < 2 ^ 31 ->
  exists s, feed pieces (HttpRequestParser_new q0 status) = Ret tt s /\
  (isFinished s = 0 ->
   exists n data' s', execute data s = Ret (n, data') s' /\
     0 <= n <= zlen data /\ zlen data' = zlen data /\
     ztake (zlen data - n) data' = zdrop n data /\
     (data <> [] -> isFinished s' = 1 \/ isFinished s' = -1 \/ (isFinished s' = 0 /\ n = zlen data))).
Proof.
  intros Hp Hcut Hlen.
  destruct (request_feed_ok pieces (http_parser_init q0) (mkRData (HttpRequest_new status 0x11 true) 0) Hp Hcut)
    as ([q d] & E & R); [split; [cbn; unfold http_parser_start; lia|by split]|].
  exists (q, d). split; [exact E|]. intros H0.
  destruct (request_execute_ok data q d Hlen (R H0)) as (n & data' & s' & E' & (Hn & H1 & H2) & Hf & _).
  exists n, data', s'. by repeat (split; [done|]).
Qed.

Definition q_zero : http_parser := mkHttpParser 0 0 0 0 0 0 0 0 0 0 0.

Definition request_pieces : list bytes := [bs "GET /a?key=value HT"; bs "TP/1.1" ++ crlf ++ bs "Ho"].

Example request_parser_safe_witness :
  exists s, feed request_pieces (HttpRequestParser_new q_zero 0) = Ret tt s /\
  exists n data' s', execute (bs "st: a" ++ crlf ++ crlf ++ bs "xy") s = Ret (n, data') s' /\ n = 9 /\ isFinished s' = 1.
Proof.
  destruct (request_parser_safe q_zero 0 request_pieces (bs "st: a" ++ crlf ++ crlf ++ bs "xy")) as (s & E & H);
    [by repeat constructor|reflexivity|reflexivity|]. exists s. split; [exact E|].
  vm_compute in E. injection E as <-. destruct (H eq_refl) as (n & data' & s' & E' & _).
  exists n, data', s'. split; [exact E'|]. vm_compute in E'. injection E' as <- <- <-. by split.
Defined.
