(* ===== verification/HttpRoundtrip.v ===== *)
(** A request that is written by [dump] is read back by HttpRequestParser. *)
From S2P Require Import Prelude OrdMap Ragel Http HttpThms Http11Machine Http11 HttpParser Http11Safe.
Import HttpParser.Request.
#[local] Opaque goto_case trans.

(** ** The grammar of what can be written *)

Definition is_char (z : Z) (b : byte) : bool := ub b =? z.
Definition in_range (lo hi : Z) (b : byte) : bool := (lo <=? ub b) && (ub b <=? hi).
Definition alnum (b : byte) : bool := in_range 48 57 b || in_range 65 90 b || in_range 97 122 b.
Definition xdigit (b : byte) : bool := in_range 48 57 b || in_range 65 70 b || in_range 97 102 b.
Definition one_of (l : bytes) (b : byte) : bool := existsb (fun c => ub b =? ub c) l.

(** RFC 3986: unreserved, sub-delims, ":" and "@". *)
Definition pchar (b : byte) : bool := alnum b || one_of (bs "-._~!$&'()*+,;=:@") b.
Definition path_char (b : byte) : bool := pchar b || one_of (bs "/") b.
Definition query_char (b : byte) : bool := pchar b || one_of (bs "/?") b.

(** Characters of a class and percent-encoded bytes. *)
Fixpoint uri_text (f : byte -> bool) (s : bytes) : bool :=
  match s with
  | [] => true
  | c :: s =>
    if ub c =? 37 then
      match s with a :: b :: s => xdigit a && xdigit b && uri_text f s | _ => false end
    else f c && uri_text f s
  end.

(** An absolute path that does not begin with "//". *)
Definition path_ok (s : bytes) : bool :=
  match s with
  | c :: s => (ub c =? 47) && uri_text path_char s &&
      match s with c' :: _ => negb (ub c' =? 47) | [] => true end
  | [] => false
  end.

(** RFC 7230: a token; a value without line breaks, NUL or DEL that does not
    begin with a space. *)
Definition token_char (b : byte) : bool := alnum b || one_of (bs "!#$%&'*+-.^_`|~") b.
Definition token_ok (s : bytes) : bool := forallb token_char s && negb (zlen s =? 0).

(** What the machine takes for a name: behind the first character also the
    control characters but NUL and tab. *)
Definition loose_char (b : byte) : bool := token_char b || in_range 1 8 b || in_range 10 31 b.
Definition name_ok (s : bytes) : bool :=
  match s with c :: s => token_char c && forallb loose_char s | [] => false end.

Definition value_char (b : byte) : bool := negb (one_of [bz 0; bz 10; bz 13; bz 127] b).
Definition value_ok (s : bytes) : bool :=
  forallb value_char s &&
  match s with c :: _ => negb (one_of [bz 9; bz 32] c) | [] => true end.

Lemma token_name s : token_ok s = true -> name_ok s = true.
Proof.
  intros [H Hne]%andb_prop. destruct s as [|c s]; [done|]. cbn [forallb] in H.
  apply andb_prop in H as [Hc H]. cbn [name_ok]. rewrite Hc. cbn [andb].
  rewrite forallb_forall in *. intros b Hb%H. unfold loose_char. by rewrite Hb.
Qed.

(** ** Facts of the table *)

(** Both values of uri_relaxed. *)
Definition class_both (f : byte -> bool) (cs : Z) (t : target) : bool :=
  class_target (goto_case true) f cs t && class_target (goto_case false) f cs t.

Lemma class_at r f cs t b :
  class_both f cs t = true -> f b = true -> goto_case r cs (char b) = Some t.
Proof.
  intros [H1 H2]%andb_prop Hb. destruct r; [exact (class_target_at _ f cs t b H1 Hb)|exact (class_target_at _ f cs t b H2 Hb)].
Qed.

(** A state in which a text loops, with its two states for an encoded byte. *)
Definition text_loop (f : byte -> bool) (l l1 l2 : Z) : bool :=
  negb (l =? 0) && negb (l1 =? 0) && negb (l2 =? 0) &&
  class_both f l (st l) && class_both (is_char 37) l (st l1) &&
  class_both xdigit l1 (st l2) && class_both xdigit l2 (st l).

Lemma text_quiet r f l l1 l2 s :
  text_loop f l l1 l2 = true -> uri_text f s = true -> quiet (goto_case r) l s = Some l.
Proof.
  intros H. unfold text_loop in H. rewrite !andb_true_iff, !negb_true_iff in H.
  destruct H as ((((((H0 & H1) & H2) & Hf) & Hp) & Hx1) & Hx2).
  remember (length s) as n eqn:Hn. revert s Hn.
  induction (lt_wf n) as [n _ IH]. intros [|c s] Hn Hs; [done|].
  cbn [uri_text] in Hs. cbn [length] in Hn. cbn [quiet].
  destruct (ub c =? 37) eqn:Hc.
  - rewrite (class_at r (is_char 37) _ _ _ Hp Hc), H1.
    destruct s as [|a [|b s]]; try done. apply andb_prop in Hs as [[Ha Hb]%andb_prop Hs].
    cbn [quiet length] in *. rewrite (class_at r xdigit _ _ _ Hx1 Ha), H2.
    rewrite (class_at r xdigit _ _ _ Hx2 Hb), H0. eapply IH; [|done|done]. lia.
  - apply andb_prop in Hs as [Hc' Hs]. rewrite (class_at r f _ _ _ Hf Hc'), H0.
    eapply IH; [|done|done]. lia.
Qed.

(** A method the grammar of the request line accepts. *)
Definition method_ok (m : HttpMethod) : bool :=
  match m with INVALID_METHOD | MSEARCH => false | _ => true end.

Definition method_runs (r : bool) (m : HttpMethod) : bool :=
  match HttpMethodToString m with
  | c :: tl =>
    bool_decide (goto_case r 1 (char c) = Some (tr 0)) &&
    match quiet (goto_case r) 2 tl with
    | Some k => bool_decide (goto_case r k 32 = Some (tr 4))
    | None => false
    end
  | [] => false
  end.

Lemma method_table r m : method_ok m = true -> method_runs r m = true.
Proof. destruct r, m; intros H; first [discriminate H | vm_compute; reflexivity]. Qed.

Ltac table := first [vm_compute; reflexivity | done].

Lemma loop_path : text_loop path_char 26 27 28 = true. Proof. table. Qed.
Lemma loop_query : text_loop query_char 30 31 32 = true. Proof. table. Qed.
Lemma loop_fragment : text_loop query_char 21 22 23 = true. Proof. table. Qed.

(** An optional part behind its delimiter, as [dump] prints it. *)
Definition part (delim : bytes) (xs : bytes) : bytes := match xs with [] => [] | _ => delim end ++ xs.
Definition opt_set (f : bytes -> rdata -> rdata) (xs : bytes) (d : rdata) : rdata :=
  match xs with [] => d | _ => f xs d end.

Section segments.
Context (buffer : bytes) (Hlen : zlen buffer < 2 ^ 31) (r : bool).
Abbreviation act := (run_action request_callbacks buffer).
Abbreviation go := (exec request_callbacks buffer r).

(** [rest] is what the buffer holds from [p]. *)
Definition at_ (p : Z) (rest : bytes) : Prop := zdrop p buffer = rest /\ 0 <= p.

Lemma at_app p xs rest : at_ p (xs ++ rest) -> at_ (p + zlen xs) rest.
Proof.
  intros [H Hp]. pose proof (zlen_nonneg xs). split; [|lia].
  rewrite <- zdrop_zdrop, H by lia. rewrite zdrop_app_ge by lia. by rewrite Z.sub_diag, zdrop_0.
Qed.

Lemma at_cons p b rest : at_ p (b :: rest) -> at_ (p + 1) rest.
Proof. apply (at_app p [b]). Qed.

Lemma at_bound p xs rest : at_ p (xs ++ rest) -> rest <> [] -> 0 <= p /\ p + zlen xs < zlen buffer.
Proof.
  intros [H Hp] Hr. split; [done|].
  destruct (Z.le_gt_cases (zlen buffer) p) as [Hle|Hgt].
  - rewrite zdrop_all in H by done. destruct xs; [|done]. by destruct rest.
  - assert (zlen (zdrop p buffer) = zlen buffer - p) as E by (apply zlen_zdrop; lia).
    rewrite H, zlen_app in E. assert (zlen rest <> 0) by (intros ?%zlen_0; done).
    pose proof (zlen_nonneg rest). lia.
Qed.

Lemma at_slice p xs rest : at_ p (xs ++ rest) -> slice p (zlen xs) buffer = xs.
Proof.
  intros [H Hp]. unfold slice. rewrite H, ztake_app_le, ztake_all by lia. done.
Qed.

(** The string between two marks. *)
Lemma string_at {D} p xs rest (d : D) :
  at_ p (xs ++ rest) -> rest <> [] ->
  make_string buffer p (LEN p (p + zlen xs)) d = Ret xs d.
Proof.
  intros Ha Hr. pose proof (at_bound _ _ _ Ha Hr) as [Hp Hb]. pose proof (zlen_nonneg xs).
  rewrite (LEN_ok p (p + zlen xs) (zlen buffer)) by lia.
  replace (p + zlen xs - p) with (zlen xs) by lia.
  rewrite make_string_ok by (done || lia). by rewrite (at_slice _ _ _ Ha).
Qed.

(** ** Single actions *)

Definition upd_data (f : HttpRequest -> HttpRequest) (d : rdata) : rdata :=
  mkRData (f (m_data d)) (m_error d).

Lemma act_of_data a (m : M rdata unit) p q d d' :
  act a p (q, d) = (on_data m;; mret (None : option Z)) (q, d) -> m d = Ret tt d' ->
  act a p (q, d) = Ret None (q, d').
Proof.
  intros -> Hm. assert (E : on_data m (q, d) = Ret tt (q, d')) by (unfold on_data; cbn; by rewrite Hm).
  by step_with E.
Qed.

Lemma string_upd xs p rest f d :
  at_ p (xs ++ rest) -> rest <> [] ->
  (v ← make_string buffer p (LEN p (p + zlen xs)); upd (f v)) d = Ret tt (upd_data (f xs) d).
Proof. intros Ha Hr. by step_with (string_at p xs rest d Ha Hr). Qed.

Lemma act_path xs rest p q d :
  mark q = p -> at_ p (xs ++ rest) -> rest <> [] ->
  act A_request_path (p + zlen xs) (q, d) = Ret None (q, upd_data (setPath xs) d).
Proof.
  intros <- Ha Hr. eapply (act_of_data A_request_path); [reflexivity|]. by eapply string_upd.
Qed.

Lemma act_fragment xs rest p q d :
  mark q = p -> at_ p (xs ++ rest) -> rest <> [] ->
  act A_fragment (p + zlen xs) (q, d) = Ret None (q, upd_data (setFragment xs) d).
Proof.
  intros <- Ha Hr. eapply (act_of_data A_fragment); [reflexivity|]. by eapply string_upd.
Qed.

Lemma act_query xs rest p q d :
  query_start q = p -> at_ p (xs ++ rest) -> rest <> [] ->
  act A_query_string (p + zlen xs) (q, d) = Ret None (q, upd_data (setQuery xs) d).
Proof.
  intros <- Ha Hr. eapply (act_of_data A_query_string); [reflexivity|]. by eapply string_upd.
Qed.

Lemma act_uri p q d : act A_request_uri p (q, d) = Ret None (q, d).
Proof. done. Qed.

Lemma act_start_value p q d : act A_start_value p (q, d) = Ret None (set_mark p q, d).
Proof. done. Qed.

Lemma act_done c p q d : exists q', act (A_done c) p (q, d) = Ret (Some c) (q', d).
Proof.
  unfold run_action. step_with (eq_refl : get (q, d) = Ret _ _). cbn [fst].
  destruct (negb _ || negb _); eexists; reflexivity.
Qed.

Lemma act_method m rest p p' q d :
  m <> INVALID_METHOD -> mark q = p -> at_ p (HttpMethodToString m ++ rest) ->
  act A_request_method p' (q, d) = Ret None (q, upd_data (setMethod m) d).
Proof.
  intros Hm <- [Ha _]. eapply (act_of_data A_request_method); [reflexivity|].
  unfold on_request_method. cbn [fst]. rewrite Ha, CharsToHttpMethod_name. by destruct m.
Qed.

Lemma act_version (v : Z) rest p q d :
  v = 0x11 \/ v = 0x10 -> mark q = p -> at_ p (show_version v ++ rest) -> rest <> [] ->
  act A_http_version (p + 8) (q, d) = Ret None (q, upd_data (setVersion v) d).
Proof.
  intros Hv <- Ha Hr.
  assert (Hz : zlen (show_version v) = 8) by (by destruct Hv as [->| ->]).
  pose proof (at_bound _ _ _ Ha Hr) as [Hp Hb]. rewrite Hz in Hb.
  eapply (act_of_data A_http_version); [reflexivity|].
  unfold on_request_version, buffer_strncmp. cbn [fst]. rewrite !(LEN_ok _ _ (zlen buffer)) by lia.
  replace (mark q + 8 - mark q) with 8 by lia. destruct Ha as [-> _].
  by destruct Hv as [->| ->].
Qed.

Lemma act_field k v rest rest' q d :
  k <> [] -> field_len q = zlen k -> rest <> [] -> rest' <> [] ->
  at_ (field_start q) (k ++ rest') -> at_ (mark q) (v ++ rest) ->
  act A_write_value (mark q + zlen v) (q, d) = Ret None (q, upd_data (setHeader k v) d).
Proof.
  intros Hk Hl Hr Hr' Ha Hv. eapply (act_of_data A_write_value); [reflexivity|].
  unfold on_request_http_field. cbn [fst]. rewrite Hl.
  destruct (zlen k =? 0) eqn:E; [by apply Z.eqb_eq, zlen_0 in E|].
  assert (Hs : make_string buffer (field_start q) (zlen k) d = Ret k d).
  { pose proof (at_bound _ _ _ Ha Hr') as [Hp Hb]. pose proof (zlen_nonneg k).
    rewrite make_string_ok by (done || lia). by rewrite (at_slice _ _ _ Ha). }
  step_with Hs. by eapply string_upd.
Qed.

(** ** Steps of the machine *)

Lemma go_st f c n b p rest s :
  class_both f c (st n) = true -> n <> 0 -> f b = true -> go p (b :: rest) c s = go (p + 1) rest n s.
Proof. intros Hf Hn Hb. apply exec_st; [by apply (class_at r f)|done]. Qed.

Lemma go_tr f c k acts n b p rest s s' :
  class_both f c (tr k) = true -> trans k = Some (acts, n) -> n <> 0 -> f b = true ->
  run_actions act acts p s = Ret None s' -> go p (b :: rest) c s = go (p + 1) rest n s'.
Proof. intros Hf Ht Hn Hb Hr. eapply exec_tr; [by apply (class_at r f)|done..]. Qed.

Lemma go_quiet xs c c' p rest s :
  quiet (goto_case r) c xs = Some c' -> go p (xs ++ rest) c s = go (p + zlen xs) rest c' s.
Proof. apply exec_quiet. Qed.

(** A non-empty text whose first character runs [acts]. *)
Lemma go_text f e kc kp acts l l1 l2 xs p rest s s' :
  text_loop f l l1 l2 = true ->
  class_both f e (tr kc) = true -> class_both (is_char 37) e (tr kp) = true ->
  trans kc = Some (acts, l) -> trans kp = Some (acts, l1) ->
  uri_text f xs = true -> xs <> [] -> run_actions act acts p s = Ret None s' ->
  go p (xs ++ rest) e s = go (p + zlen xs) rest l s'.
Proof.
  intros Hloop Hc Hp Tc Tp Hxs Hne Hr. destruct xs as [|c xs]; [done|].
  pose proof Hloop as H. unfold text_loop in H. rewrite !andb_true_iff, !negb_true_iff, !Z.eqb_neq in H.
  destruct H as ((((((H0 & H1) & H2) & _) & _) & Hx1) & Hx2).
  cbn [uri_text] in Hxs. cbn [app]. rewrite zlen_cons.
  destruct (ub c =? 37) eqn:E.
  - rewrite (go_tr (is_char 37) e kp acts l1 c p _ s s') by done.
    destruct xs as [|a [|b xs]]; try done. apply andb_prop in Hxs as [[Ha Hb]%andb_prop Hxs].
    cbn [app]. rewrite (go_st xdigit l1 l2) by done. rewrite (go_st xdigit l2 l) by done.
    rewrite (go_quiet xs l l) by (by eapply text_quiet). rewrite !zlen_cons. f_equal; lia.
  - apply andb_prop in Hxs as [Hcc Hxs].
    rewrite (go_tr f e kc acts l c p _ s s') by done.
    rewrite (go_quiet xs l l) by (by eapply text_quiet). f_equal; lia.
Qed.

(** ** The request line *)

Lemma seg_method m p rest q d :
  method_ok m = true -> at_ p (HttpMethodToString m ++ bs " " ++ rest) ->
  go p (HttpMethodToString m ++ bs " " ++ rest) 1 (q, d) =
  go (p + zlen (HttpMethodToString m) + 1) rest 3 (set_mark p q, upd_data (setMethod m) d).
Proof.
  intros Hm Ha. pose proof (method_table r m Hm) as H. unfold method_runs in H.
  destruct (HttpMethodToString m) as [|c tl] eqn:En; [done|].
  apply andb_prop in H as [H1%bool_decide_eq_true H2].
  destruct (quiet (goto_case r) 2 tl) as [k|] eqn:Eq; [|done]. apply bool_decide_eq_true in H2.
  cbn [app]. rewrite zlen_cons.
  unfold exec. erewrite exec_tr; [|exact H1|table|done|reflexivity].
  erewrite exec_quiet by exact Eq. change (bs " " ++ rest) with (bz 32 :: rest).
  erewrite (exec_tr _ _ _ _ (p + 1 + zlen tl)); [|exact H2|table|done|].
  - f_equal. lia.
  - erewrite run_actions_cons; [reflexivity|].
    eapply act_method; [by destruct m|reflexivity|]. rewrite En. exact Ha.
Qed.

(** The state behind a path. *)
Definition path_state (path : bytes) : Z := match path with [_] => 33 | _ => 26 end.

Lemma path_state_or path : path_state path = 33 \/ path_state path = 26.
Proof. destruct path as [|? [|]]; auto. Qed.

(** The path, up to the character that ends it. *)
Lemma seg_path path p rest q d :
  path_ok path = true ->
  go p (path ++ rest) 3 (q, d) = go (p + zlen path) rest (path_state path) (set_mark p q, d).
Proof.
  intros Hok. destruct path as [|c path]; [done|]. cbn [path_ok] in Hok.
  apply andb_prop in Hok as [[Hc Ht]%andb_prop Hs]. cbn [app]. rewrite zlen_cons.
  rewrite (go_tr (is_char 47) 3 10 [A_mark] 33 c p _ (q, d) (set_mark p q, d)); [|table|table|done|done|done].
  destruct path as [|c' path].
  { cbn [app path_state]. rewrite zlen_nil. f_equal; lia. }
  cbn [path_state]. cbn [uri_text] in Ht. cbn [app]. rewrite zlen_cons.
  destruct (ub c' =? 37) eqn:E.
  - rewrite (go_st (is_char 37) 33 27); [|table|done|done].
    destruct path as [|a [|b path]]; try done. apply andb_prop in Ht as [[Ha Hb]%andb_prop Ht].
    cbn [app]. rewrite (go_st xdigit 27 28); [|table|done|done].
    rewrite (go_st xdigit 28 26); [|table|done|done].
    rewrite (go_quiet path 26 26) by (eapply text_quiet; [exact loop_path|done]).
    rewrite !zlen_cons. f_equal; lia.
  - apply andb_prop in Ht as [Hcc Ht].
    assert (Hp : pchar c' = true).
    { unfold path_char in Hcc. apply orb_prop in Hcc as [|Hcc]; [done|].
      unfold one_of in Hcc. cbn [bs list_ascii_of_string existsb] in Hcc.
      rewrite orb_false_r in Hcc. change (ub "/") with 47 in Hcc. by rewrite Hcc in Hs. }
    rewrite (go_st pchar 33 26); [|table|done|done].
    rewrite (go_quiet path 26 26) by (eapply text_quiet; [exact loop_path|done]). f_equal; lia.
Qed.

(** What ends the path, and the query. *)
Lemma path_end k f b t acts n p rest q d d' :
  k = 33 \/ k = 26 ->
  class_both f 33 (tr t) = true -> class_both f 26 (tr t) = true -> trans t = Some (acts, n) ->
  n <> 0 -> f b = true -> run_actions act acts p (q, d) = Ret None (q, d') ->
  go p (b :: rest) k (q, d) = go (p + 1) rest n (q, d').
Proof. intros [->| ->] H1 H2; intros; by eapply go_tr. Qed.

Lemma run_path xs rest p q d :
  mark q = p -> at_ p (xs ++ rest) -> rest <> [] ->
  run_actions act [A_request_path; A_request_uri] (p + zlen xs) (q, d) =
    Ret None (q, upd_data (setPath xs) d) /\
  run_actions act [A_request_path] (p + zlen xs) (q, d) = Ret None (q, upd_data (setPath xs) d).
Proof.
  intros Hm Ha Hr. split; erewrite run_actions_cons by (by eapply act_path); reflexivity.
Qed.

Lemma run_query xs rest p q d :
  query_start q = p -> at_ p (xs ++ rest) -> rest <> [] ->
  run_actions act [A_query_string; A_request_uri] (p + zlen xs) (q, d) =
    Ret None (q, upd_data (setQuery xs) d).
Proof. intros Hm Ha Hr. erewrite run_actions_cons by (by eapply act_query). reflexivity. Qed.

Lemma run_fragment xs rest p q d :
  mark q = p -> at_ p (xs ++ rest) -> rest <> [] ->
  run_actions act [A_fragment] (p + zlen xs) (q, d) = Ret None (q, upd_data (setFragment xs) d).
Proof. intros Hm Ha Hr. erewrite run_actions_cons by (by eapply act_fragment). reflexivity. Qed.

Lemma seg_fragment frag p rest q d :
  uri_text query_char frag = true -> frag <> [] -> at_ p (frag ++ bz 32 :: rest) ->
  go p (frag ++ bz 32 :: rest) 20 (q, d) =
  go (p + zlen frag + 1) rest 4 (set_mark p q, upd_data (setFragment frag) d).
Proof.
  intros Hf Hne Ha.
  rewrite (go_text query_char 20 44 45 [A_mark] 21 22 23 frag p _ (q, d) (set_mark p q, d));
    [|exact loop_fragment|table|table|table|table|done|done|done].
  apply (go_tr (is_char 32) 21 46 [A_fragment]); [table|table|done|done|].
  by apply (run_fragment frag (bz 32 :: rest)).
Qed.

(** The end of the URI, from a state that goes on to the fragment or to the
    version. *)
Lemma seg_end k frag p rest q d d1 :
  (forall rest', at_ p (bz 32 :: rest') -> go p (bz 32 :: rest') k (q, d) = go (p + 1) rest' 4 (q, d1)) ->
  (forall rest', at_ p (bz 35 :: rest') -> go p (bz 35 :: rest') k (q, d) = go (p + 1) rest' 20 (q, d1)) ->
  uri_text query_char frag = true -> at_ p (part (bs "#") frag ++ bz 32 :: rest) ->
  exists q', go p (part (bs "#") frag ++ bz 32 :: rest) k (q, d) =
    go (p + zlen (part (bs "#") frag) + 1) rest 4
       (q', opt_set (fun v => upd_data (setFragment v)) frag d1).
Proof.
  intros Hsp Hhash Hf Ha. unfold part in *. destruct frag as [|c frag].
  - exists q. cbn [app] in *. rewrite zlen_nil, Z.add_0_r. by apply Hsp.
  - set (xs := c :: frag) in *. change (bs "#") with [bz 35] in *. cbn [app] in Ha |- *.
    exists (set_mark (p + 1) q). rewrite Hhash by done.
    rewrite (seg_fragment xs) by (done || by apply at_cons in Ha).
    rewrite zlen_cons. replace (p + (1 + zlen xs) + 1) with (p + 1 + zlen xs + 1) by lia.
    reflexivity.
Qed.

Lemma seg_query query frag p rest q d :
  uri_text query_char query = true -> query <> [] -> uri_text query_char frag = true ->
  at_ p (query ++ part (bs "#") frag ++ bz 32 :: rest) ->
  exists q', go p (query ++ part (bs "#") frag ++ bz 32 :: rest) 29 (q, d) =
    go (p + zlen query + zlen (part (bs "#") frag) + 1) rest 4
       (q', opt_set (fun v => upd_data (setFragment v)) frag (upd_data (setQuery query) d)).
Proof.
  intros Hq Hne Hf Ha.
  rewrite (go_text query_char 29 54 56 [A_start_query] 30 31 32 query p _ (q, d) (set_query_start p q, d));
    [|exact loop_query|table|table|table|table|done|done|done].
  apply seg_end; [| |done|by apply at_app in Ha].
  - intros rest' Hr. apply (go_tr (is_char 32) 30 57 [A_query_string; A_request_uri]);
      [table|table|done|done|]. by apply (run_query query (part (bs "#") frag ++ bz 32 :: rest)); [| |destruct frag].
  - intros rest' Hr. apply (go_tr (is_char 35) 30 59 [A_query_string; A_request_uri]);
      [table|table|done|done|]. by apply (run_query query (part (bs "#") frag ++ bz 32 :: rest)); [| |destruct frag].
Qed.

(** The whole URI, up to the space behind it. *)
Definition uri_data (path query frag : bytes) (d : rdata) : rdata :=
  opt_set (fun v => upd_data (setFragment v)) frag
    (opt_set (fun v => upd_data (setQuery v)) query (upd_data (setPath path) d)).

Lemma seg_uri path query frag p rest q d :
  path_ok path = true -> uri_text query_char query = true -> uri_text query_char frag = true ->
  at_ p (path ++ part (bs "?") query ++ part (bs "#") frag ++ bz 32 :: rest) ->
  exists q', go p (path ++ part (bs "?") query ++ part (bs "#") frag ++ bz 32 :: rest) 3 (q, d) =
    go (p + zlen path + zlen (part (bs "?") query) + zlen (part (bs "#") frag) + 1) rest 4
       (q', uri_data path query frag d).
Proof.
  intros Hp Hq Hf Ha. set (tail := part (bs "?") query ++ part (bs "#") frag ++ bz 32 :: rest) in *.
  assert (Hne : tail <> []) by (unfold tail; by destruct query, frag).
  rewrite (seg_path path p tail q d Hp).
  set (k := path_state path). pose proof (path_state_or path) as Hk. fold k in Hk.
  destruct (run_path path tail p (set_mark p q) d eq_refl Ha Hne) as [R2 R1].
  apply at_app in Ha. unfold tail, uri_data in *. clear tail Hne.
  destruct query as [|c query].
  - cbn [part app] in *. rewrite zlen_nil, Z.add_0_r. cbn [opt_set].
    apply seg_end; [| |done|done]; intros rest' Hr.
    + apply (path_end k (is_char 32) (bz 32) 37 [A_request_path; A_request_uri]); (done || table).
    + apply (path_end k (is_char 35) (bz 35) 39 [A_request_path; A_request_uri]); (done || table).
  - set (xs := c :: query) in *. change (part (bs "?") xs) with (bz 63 :: xs) in *.
    cbn [app] in Ha |- *. cbn [opt_set].
    rewrite (path_end k (is_char 63) (bz 63) 42 [A_request_path] 29 _ _ _ _ (upd_data (setPath path) d));
      [|done|table|table|table|done|done|exact R1].
    destruct (seg_query xs frag (p + zlen path + 1) rest (set_mark p q) (upd_data (setPath path) d))
      as [q' ->]; [done|done|done|by apply at_cons in Ha|].
    exists q'. rewrite zlen_cons.
    replace (p + zlen path + (1 + zlen xs)) with (p + zlen path + 1 + zlen xs) by lia. reflexivity.
Qed.

(** ** Version and headers *)

Lemma seg_version v p rest q d :
  v = 0x11 \/ v = 0x10 -> at_ p (show_version v ++ crlf ++ rest) ->
  go p (show_version v ++ crlf ++ rest) 4 (q, d) =
  go (p + 10) rest 13 (set_mark p q, upd_data (setVersion v) d).
Proof.
  intros Hv Ha.
  assert (Hs : exists tl, show_version v = bz 72 :: tl /\ zlen tl = 7 /\
    quiet (goto_case r) 5 tl = Some 12).
  { destruct Hv as [->| ->]; eexists; (split; [reflexivity|split; [reflexivity|]]);
      destruct r; vm_compute; reflexivity. }
  destruct Hs as (tl & Es & Hz & Eq).
  assert (Hrun : run_actions act [A_http_version] (p + 8) (set_mark p q, d) =
    Ret None (set_mark p q, upd_data (setVersion v) d)).
  { erewrite run_actions_cons by (by eapply (act_version v)). reflexivity. }
  rewrite Es. cbn [app].
  rewrite (go_tr (is_char 72) 4 13 [A_mark] 5 _ _ _ _ (set_mark p q, d)); [|table|table|done|done|done].
  rewrite (go_quiet tl 5 12) by done. rewrite Hz.
  change (crlf ++ rest) with (bz 13 :: bz 10 :: rest).
  replace (p + 1 + 7) with (p + 8) by lia.
  rewrite (go_tr (is_char 13) 12 22 [A_http_version] 17 _ _ _ _ (set_mark p q, upd_data (setVersion v) d));
    [|table|table|done|done|done].
  rewrite (go_st (is_char 10) 17 13); [|table|done|done]. f_equal; lia.
Qed.

Lemma class_quiet f c xs :
  class_both f c (st c) = true -> c <> 0 -> forallb f xs = true ->
  quiet (goto_case r) c xs = Some c.
Proof.
  intros Hf Hc Hx. apply quiet_loop; [done|]. intros b Hb. apply (class_at r f); [done|].
  rewrite forallb_forall in Hx. by apply Hx, list_elem_of_In.
Qed.

(** The name, up to the colon. *)
Lemma seg_name k p rest q d :
  name_ok k = true -> at_ p (k ++ bz 58 :: rest) ->
  go p (k ++ bz 58 :: rest) 13 (q, d) =
  go (p + zlen k + 1) rest 15 (set_field_len (zlen k) (set_field_start p q), d).
Proof.
  intros Hk Ha. pose proof (at_bound _ _ _ Ha ltac:(done)) as [Hp Hb].
  destruct k as [|c k]; [done|]. cbn [name_ok] in Hk. apply andb_prop in Hk as [Hc Hk].
  pose proof (zlen_nonneg k). rewrite zlen_cons in *. cbn [app].
  rewrite (go_tr token_char 13 23 [A_start_field] 14 _ _ _ _ (set_field_start p q, d));
    [|table|table|done|done|done].
  rewrite (go_quiet k 14 14) by (apply (class_quiet loose_char); done || table).
  rewrite (go_tr (is_char 58) 14 27 [A_write_field] 15 _ _ _ _
    (set_field_len (1 + zlen k) (set_field_start p q), d)); [f_equal; lia|table|table|done|done|].
  erewrite run_actions_cons; [reflexivity|]. unfold run_action.
  step_with (eq_refl : get (set_field_start p q, d) = Ret _ _). cbn [fst].
  rewrite (LEN_ok _ _ (zlen buffer)) by (cbn; lia). cbn [field_start set_field_start].
  by replace (p + 1 + zlen k - p) with (1 + zlen k) by lia.
Qed.

Definition value_start (b : byte) : bool := value_char b && negb (one_of [bz 9; bz 32] b).

(** The value, up to the line break. *)
Lemma seg_value k v pk p rest rest' q d :
  value_ok v = true -> k <> [] -> rest' <> [] -> field_start q = pk -> field_len q = zlen k ->
  at_ pk (k ++ rest') -> at_ p (v ++ bz 13 :: rest) ->
  go p (v ++ bz 13 :: rest) 15 (q, d) =
  go (p + zlen v + 1) rest 17 (set_mark p q, upd_data (setHeader k v) d).
Proof.
  intros [Hv Hs]%andb_prop Hk Hr Hst Hfl Hak Hav.
  assert (Hrun : act A_write_value (p + zlen v) (set_mark p q, d) =
    Ret None (set_mark p q, upd_data (setHeader k v) d)).
  { apply (act_field k v (bz 13 :: rest) rest' (set_mark p q)); cbn; (done || by rewrite Hst || done). }
  destruct v as [|c v].
  - cbn [app]. rewrite zlen_nil, Z.add_0_r in *.
    apply (go_tr (is_char 13) 15 31 [A_start_value; A_write_value] 17); [table|table|done|done|].
    erewrite run_actions_cons by exact (act_start_value p q d).
    by erewrite run_actions_cons by exact Hrun.
  - cbn [forallb] in Hv. apply andb_prop in Hv as [Hc Hv]. rewrite zlen_cons in *. cbn [app].
    rewrite (go_tr value_start 15 28 [A_start_value] 16 _ _ _ _ (set_mark p q, d));
      [|table|table|done|by apply andb_true_intro|done].
    rewrite (go_quiet v 16 16) by (apply (class_quiet value_char); done || table).
    replace (p + 1 + zlen v) with (p + (1 + zlen v)) by lia.
    rewrite (go_tr (is_char 13) 16 34 [A_write_value] 17 _ _ _ _
      (set_mark p q, upd_data (setHeader k (c :: v)) d)); [done|table|table|done|done|].
    by erewrite run_actions_cons by exact Hrun.
Qed.

Definition header_line (k v : bytes) : bytes := k ++ bs ":" ++ v ++ crlf.

Lemma seg_header k v p rest q d :
  name_ok k = true -> value_ok v = true -> at_ p (header_line k v ++ rest) ->
  exists q', go p (header_line k v ++ rest) 13 (q, d) =
    go (p + zlen (header_line k v)) rest 13 (q', upd_data (setHeader k v) d).
Proof.
  intros Hk Hv Ha. assert (Hne : k <> []) by (by destruct k).
  assert (E : header_line k v ++ rest = k ++ bz 58 :: v ++ bz 13 :: bz 10 :: rest).
  { unfold header_line. by rewrite <- !app_assoc. }
  assert (Hz : zlen (header_line k v) = zlen k + 1 + zlen v + 1 + 1).
  { unfold header_line. rewrite !zlen_app. change (zlen (bs ":")) with 1. change (zlen crlf) with 2. lia. }
  rewrite E in *. exists (set_mark (p + zlen k + 1) (set_field_len (zlen k) (set_field_start p q))).
  rewrite seg_name by done.
  rewrite (seg_value k v p _ (bz 10 :: rest) (bz 58 :: v ++ bz 13 :: bz 10 :: rest));
    [|done|done|done|done|done|done|by apply at_app, at_cons in Ha].
  rewrite (go_st (is_char 10) 17 13); [|table|done|done]. rewrite Hz. f_equal; lia.
Qed.

Definition set_header (d : rdata) (kv : bytes * bytes) : rdata := upd_data (setHeader kv.1 kv.2) d.
Definition header_ok (kv : bytes * bytes) : bool := token_ok kv.1 && value_ok kv.2.
Definition header_lines (hs : MapType) : bytes := flat_map (fun kv => header_line kv.1 kv.2) hs.

Lemma seg_headers hs p rest q d :
  forallb header_ok hs = true -> at_ p (header_lines hs ++ rest) ->
  exists q', go p (header_lines hs ++ rest) 13 (q, d) =
    go (p + zlen (header_lines hs)) rest 13 (q', foldl set_header d hs).
Proof.
  revert p q d. induction hs as [|[k v] hs IH]; intros p q d Hok Ha.
  { exists q. cbn [header_lines flat_map app foldl]. by rewrite zlen_nil, Z.add_0_r. }
  cbn [forallb] in Hok. apply andb_prop in Hok as [[Hk Hv]%andb_prop Hok]. cbn [fst snd] in Hk, Hv.
  change (header_lines ((k, v) :: hs)) with (header_line k v ++ header_lines hs) in *.
  rewrite <- app_assoc in *. destruct (seg_header k v p _ q d (token_name k Hk) Hv Ha) as [q1 ->].
  destruct (IH (p + zlen (header_line k v)) q1 (upd_data (setHeader k v) d) Hok) as [q2 ->].
  { by apply at_app in Ha. }
  exists q2. rewrite zlen_app. cbn [foldl]. rewrite Z.add_assoc. reflexivity.
Qed.

(** The empty line. *)
Lemma seg_done p rest q d :
  exists q', go p (crlf ++ rest) 13 (q, d) = Ret (p + 2, 348) (q', d).
Proof.
  change (crlf ++ rest) with (bz 13 :: bz 10 :: rest).
  rewrite (go_tr (is_char 13) 13 25 [A_start_field] 18 _ _ _ _ (set_field_start p q, d));
    [|table|table|done|done|done].
  assert (Hout : exists q', run_actions act [A_done 348] (p + 1) (set_field_start p q, d) =
    Ret (Some 348) (q', d)).
  { destruct (act_done 348 (p + 1) (set_field_start p q) d) as [q' E].
    exists q'. cbn [run_actions]. by step_with E. }
  destruct Hout as [q' Hout]. exists q'.
  unfold exec. erewrite exec_out; [|apply (class_at r (is_char 10) 18 (tr 36)); [table|done]|table|exact Hout].
  f_equal. f_equal. lia.
Qed.
End segments.

(** ** The headers of a dumped request *)

Lemma digits_value xs : forallb (in_range 48 57) xs = true -> value_ok xs = true.
Proof.
  intros H. unfold value_ok. apply andb_true_intro. split.
  - rewrite forallb_forall in *. intros b Hb%H. revert b Hb.
    assert (E : forall b, implb (in_range 48 57 b) (value_char b) = true)
      by (apply forall_bytes; reflexivity).
    intros b Hb. specialize (E b). by rewrite Hb in E.
  - destruct xs as [|c xs]; [done|]. cbn [forallb] in H. apply andb_prop in H as [Hc _].
    assert (E : forall b, implb (in_range 48 57 b) (negb (one_of [bz 9; bz 32] b)) = true)
      by (apply forall_bytes; reflexivity).
    specialize (E c). by rewrite Hc in E.
Qed.

Definition not_connection (kv : bytes * bytes) : bool := negb (is_connection kv.1).

(** The header lines of [dump], in order. *)
Definition dumped_headers (r : HttpRequest) : MapType :=
  (bs "connection", if m_close r then bs "close" else bs "keep-alive")
  :: List.filter not_connection (m_headers r)
  ++ match m_body r with [] => [] | body => [(bs "content-length", show_dec (zlen body))] end.

Lemma dump_headers_lines m : dump_headers (bs ":") m = header_lines (List.filter not_connection m).
Proof.
  induction m as [|[k v] m IH]; [done|]. cbn [dump_headers List.filter]. unfold not_connection at 1.
  cbn [fst]. destruct (is_connection k); [done|]. cbn [negb]. rewrite IH.
  change (header_lines ((k, v) :: ?h)) with (header_line k v ++ header_lines h).
  unfold header_lines at 2. cbn [flat_map fst snd]. unfold header_line. by rewrite <- !app_assoc.
Qed.

Ltac app_eq := repeat match goal with |- ?a ++ _ = ?a ++ _ => apply (f_equal (app a)) end.

Lemma dump_tail r :
  dump_connection (m_close r) ++ dump_headers (bs ":") (m_headers r) ++ dump_body (m_body r) =
  header_lines (dumped_headers r) ++ crlf ++ m_body r.
Proof.
  unfold dumped_headers, header_lines. cbn [flat_map fst snd]. rewrite flat_map_app.
  fold (header_lines (List.filter not_connection (m_headers r))).
  rewrite <- dump_headers_lines. unfold dump_connection, header_line. rewrite <- !app_assoc.
  change (bs "connection:") with (bs "connection" ++ bs ":"). rewrite <- !app_assoc.
  app_eq. unfold dump_body. destruct (m_body r) as [|c body]; [done|].
  cbn [flat_map fst snd]. unfold header_line. rewrite app_nil_r, <- !app_assoc. done.
Qed.

(** The request line and the headers, with the empty line. *)
Definition head (r : HttpRequest) : bytes :=
  HttpMethodToString (m_method r) ++ bs " " ++ m_path r ++ part (bs "?") (m_query r)
    ++ part (bs "#") (m_fragment r) ++ bz 32 :: show_version (m_version r) ++ crlf
    ++ header_lines (dumped_headers r) ++ crlf.

Lemma dump_eq r : dump r = head r ++ m_body r.
Proof.
  unfold dump, head, part. rewrite dump_tail, <- !app_assoc. cbn [app]. by rewrite <- !app_assoc.
Qed.

(** What the grammar can carry. *)
Record request_ok (r : HttpRequest) : Prop := mkRequestOk {
  ok_method : method_ok (m_method r) = true;
  ok_path : path_ok (m_path r) = true;
  ok_query : uri_text query_char (m_query r) = true;
  ok_fragment : uri_text query_char (m_fragment r) = true;
  ok_version : m_version r = 0x11 \/ m_version r = 0x10;
  ok_headers : forallb header_ok (m_headers r) = true;
  ok_sorted : map_sorted CaseInsensitiveLess (m_headers r);
  ok_size : zlen (dump r) < 2 ^ 31
}.

Lemma dumped_headers_ok r :
  forallb header_ok (m_headers r) = true -> forallb header_ok (dumped_headers r) = true.
Proof.
  intros H. unfold dumped_headers. cbn [forallb]. apply andb_true_intro. split.
  - by destruct (m_close r).
  - rewrite forallb_app. apply andb_true_intro. split.
    + rewrite forallb_forall in *. intros kv [Hin _]%filter_In. by apply H.
    + destruct (m_body r) as [|c body]; [done|]. cbn [forallb]. rewrite andb_true_r.
      unfold header_ok. cbn [fst snd]. apply andb_true_intro. split; [done|].
      apply digits_value. apply show_dec_spec, zlen_nonneg.
Qed.

Lemma is_connection_norm k : is_connection k = true <-> norm k = norm (bs "connection").
Proof.
  unfold is_connection, strcasecmp. rewrite Z.eqb_eq.
  change (map tolower (bs "connection")) with (norm (bs "connection")).
  fold (norm k). split; [apply strcmp_eq|]. intros ->. apply strcmp_refl.
Qed.

(** Setting headers one by one from an ordered list of them. *)
Definition put_all (hs m : MapType) : MapType :=
  foldl (fun m kv => map_set CaseInsensitiveLess kv.1 kv.2 m) m hs.

Lemma put_all_cons k v hs m :
  put_all ((k, v) :: hs) m = put_all hs (map_set CaseInsensitiveLess k v m).
Proof. done. Qed.

Lemma put_all_app hs1 hs2 m : put_all (hs1 ++ hs2) m = put_all hs2 (put_all hs1 m).
Proof. apply foldl_app. Qed.

Lemma put_all_sorted hs m :
  map_sorted CaseInsensitiveLess m -> map_sorted CaseInsensitiveLess (put_all hs m).
Proof.
  revert m. induction hs as [|kv hs IH]; intros m Hs; [done|]. apply IH.
  by apply (map_set_sorted _ norm).
Qed.

Lemma find_put_all k mh m :
  map_sorted CaseInsensitiveLess mh -> map_sorted CaseInsensitiveLess m ->
  find k (put_all (List.filter not_connection mh) m) =
  if is_connection k then find k m
  else match find k mh with Some v => Some v | None => find k m end.
Proof.
  unfold find. revert m. induction mh as [|[a w] mh IH]; intros m Hmh Hm.
  { cbn. by destruct (is_connection k). }
  apply (map_sorted_cons _ ) in Hmh as [Hf Hmh]. cbn [fst] in Hf.
  cbn [List.filter map_find]. unfold not_connection at 1. cbn [fst].
  assert (Hbelow : norm k = norm a -> map_find CaseInsensitiveLess k mh = None).
  { intros Hn. apply (map_find_below _ norm). eapply Forall_impl; [|exact Hf].
    cbn. intros b Hb. by rewrite (less_of_norm _ norm k a). }
  assert (Hbelow' : CaseInsensitiveLess k a = true -> map_find CaseInsensitiveLess k mh = None).
  { intros Hl. apply (map_find_below _ norm). eapply Forall_impl; [|exact Hf].
    cbn. intros b Hb. by eapply weak_trans. }
  assert (Hset : map_find CaseInsensitiveLess k (map_set CaseInsensitiveLess a w m) =
    if decide (norm k = norm a) then Some w else map_find CaseInsensitiveLess k m)
    by by apply (map_find_set _ norm).
  assert (Hms : map_sorted CaseInsensitiveLess (map_set CaseInsensitiveLess a w m))
    by by apply (map_set_sorted _ norm).
  destruct (decide (norm k = norm a)) as [Hn|Hn].
  - rewrite !(weak_irrefl (norm := norm)) by done.
    assert (Hc : is_connection a = is_connection k).
    { apply eq_bool_prop_intro. rewrite !Is_true_true, !is_connection_norm. by rewrite Hn. }
    rewrite Hc. destruct (is_connection k) eqn:Ek; cbn [negb].
    + by rewrite IH.
    + rewrite put_all_cons, IH, Hset, Hbelow by done. done.
  - assert (E : (if CaseInsensitiveLess a k then map_find CaseInsensitiveLess k mh
      else if CaseInsensitiveLess k a then None else Some w) = map_find CaseInsensitiveLess k mh).
    { destruct (CaseInsensitiveLess a k) eqn:E1; [done|].
      destruct (CaseInsensitiveLess k a) eqn:E2; [by rewrite Hbelow'|].
      destruct Hn. by apply weak_total. }
    rewrite E. destruct (is_connection a); cbn [negb]; [by rewrite IH|].
    rewrite put_all_cons, IH, Hset by done. done.
Qed.

(** The headers a reader gets. *)
Definition read_header (r : HttpRequest) (k : bytes) : option bytes :=
  if decide (norm k = norm (bs "content-length")) then
    match m_body r with [] => find k (m_headers r) | body => Some (show_dec (zlen body)) end
  else if is_connection k then Some (if m_close r then bs "close" else bs "keep-alive")
  else find k (m_headers r).

Lemma find_dumped r k :
  map_sorted CaseInsensitiveLess (m_headers r) ->
  find k (put_all (dumped_headers r) []) = read_header r k.
Proof.
  intros Hs. unfold dumped_headers, read_header. rewrite put_all_cons, put_all_app.
  set (m1 := map_set CaseInsensitiveLess (bs "connection") _ []).
  assert (Hm1 : map_sorted CaseInsensitiveLess m1) by (repeat constructor).
  assert (F : find k (put_all (List.filter not_connection (m_headers r)) m1) =
    if is_connection k then Some (if m_close r then bs "close" else bs "keep-alive")
    else find k (m_headers r)).
  { rewrite find_put_all by done. unfold m1, find at 1 3.
    rewrite (map_find_set _ norm) by constructor.
    pose proof (is_connection_norm k) as Hc. destruct (is_connection k).
    - by rewrite decide_True by by apply Hc.
    - rewrite decide_False; [by destruct (find k (m_headers r))|]. by intros ?%Hc. }
  destruct (m_body r) as [|c body].
  - change (put_all [] ?m) with m. rewrite F. case_decide as Hn; [|done].
    destruct (is_connection k) eqn:Ek; [|done]. apply is_connection_norm in Ek.
    rewrite Ek in Hn. discriminate Hn.
  - rewrite put_all_cons. unfold find in *.
    change (put_all [] ?m) with m. rewrite (map_find_set _ norm) by by apply put_all_sorted.
    by rewrite F.
Qed.

Lemma set_header_data hs d :
  foldl set_header d hs =
  upd_data (fun x => setHeaders (put_all hs (m_headers x)) x) d.
Proof.
  revert d. induction hs as [|kv hs IH]; intros d; [by destruct d as [[]]|].
  cbn [foldl]. rewrite IH. by destruct d as [[]].
Qed.

(** ** The whole request *)

Definition read_data (r : HttpRequest) (d : rdata) : rdata :=
  foldl set_header
    (upd_data (setVersion (m_version r))
      (uri_data (m_path r) (m_query r) (m_fragment r) (upd_data (setMethod (m_method r)) d)))
    (dumped_headers r).

(** The machine reads the head of a dump, whatever follows. *)
Lemma exec_head relaxed r more q d :
  request_ok r -> zlen (head r ++ more) < 2 ^ 31 ->
  exists q', exec request_callbacks (head r ++ more) relaxed 0 (head r ++ more) 1 (q, d) =
    Ret (zlen (head r), 348) (q', read_data r d).
Proof.
  intros [Hm Hp Hq Hf Hv Hh _ _] Hlen. set (buffer := head r ++ more) in *.
  assert (Ha : at_ buffer 0 (head r ++ more)) by (split; [apply zdrop_0|lia]).
  assert (Et : head r ++ more = HttpMethodToString (m_method r) ++ bs " " ++ m_path r ++ part (bs "?") (m_query r)
    ++ part (bs "#") (m_fragment r) ++ bz 32 :: show_version (m_version r) ++ crlf
    ++ header_lines (dumped_headers r) ++ crlf ++ more).
  { unfold head. rewrite <- !app_assoc. cbn [app]. by rewrite <- !app_assoc. }
  rewrite Et in Ha. unfold buffer at 2. rewrite Et.
  rewrite (seg_method buffer relaxed) by done. apply at_app, at_app in Ha.
  change (zlen (bs " ")) with 1 in Ha.
  destruct (seg_uri buffer Hlen relaxed _ _ _ _ _ (set_mark 0 q) (upd_data (setMethod (m_method r)) d)
    Hp Hq Hf Ha) as [q1 ->].
  do 3 apply at_app in Ha. apply at_cons in Ha.
  rewrite (seg_version buffer Hlen relaxed) by done.
  assert (Hvz : zlen (show_version (m_version r)) = 8) by (by destruct Hv as [->| ->]).
  do 2 apply at_app in Ha. rewrite Hvz in Ha. change (zlen crlf) with 2 in Ha.
  rewrite <- (Z.add_assoc _ 8 2) in Ha. change (8 + 2) with 10 in Ha.
  destruct (seg_headers buffer Hlen relaxed (dumped_headers r) _ _ (set_mark
    (0 + zlen (HttpMethodToString (m_method r)) + 1 + zlen (m_path r) +
     zlen (part (bs "?") (m_query r)) + zlen (part (bs "#") (m_fragment r)) + 1) q1)
    (upd_data (setVersion (m_version r))
      (uri_data (m_path r) (m_query r) (m_fragment r) (upd_data (setMethod (m_method r)) d)))
    (dumped_headers_ok r Hh) Ha) as [q2 ->].
  destruct (seg_done buffer relaxed
    (0 + zlen (HttpMethodToString (m_method r)) + 1 + zlen (m_path r) +
     zlen (part (bs "?") (m_query r)) + zlen (part (bs "#") (m_fragment r)) + 1 + 10 +
     zlen (header_lines (dumped_headers r))) more q2 (read_data r d)) as [q3 E3].
  exists q3. unfold read_data in E3. rewrite E3. unfold read_data. f_equal. f_equal.
  unfold head. rewrite !zlen_app, zlen_cons, !zlen_app, Hvz.
  change (zlen crlf) with 2. change (zlen (bs " ")) with 1. lia.
Qed.

Lemma read_data_fields r status :
  map_sorted CaseInsensitiveLess (m_headers r) ->
  let d := read_data r (mkRData (HttpRequest_new status 0x11 true) 0) in
  let r' := m_data d in
  m_error d = 0 /\ m_method r' = m_method r /\ m_version r' = m_version r /\
  m_path r' = m_path r /\ m_query r' = m_query r /\ m_fragment r' = m_fragment r /\
  m_close r' = true /\ m_body r' = [] /\
  (forall k, find k (m_headers r') = read_header r k).
Proof.
  intros Hs. unfold read_data. rewrite set_header_data. cbv zeta.
  assert (Hfind : forall k, find k (put_all (dumped_headers r) []) = read_header r k)
    by (intros; by apply find_dumped).
  unfold uri_data. destruct (m_query r) as [|c query], (m_fragment r) as [|c' frag];
    cbn [opt_set upd_data m_data m_error setHeaders setVersion setFragment setQuery setPath setMethod
         HttpRequest_new m_method m_version m_path m_query m_fragment m_close m_body m_headers]; split_and!; done.
Qed.

(** A fresh parser on a head and what came with it. *)
Lemma execute_head r q0 status more :
  request_ok r -> zlen (head r ++ more) < 2 ^ 31 ->
  let n := zlen (head r) in
  exists rest s',
    execute (head r ++ more) (HttpRequestParser_new q0 status) = Ret (n, rest) s' /\
    ztake (zlen more) rest = more /\ zlen rest = zlen (head r ++ more) /\
    isFinished s' = 1 /\ hasError s' = false /\
    getData s' = m_data (read_data r (mkRData (HttpRequest_new status 0x11 true) 0)).
Proof.
  intros Hok Hlen n. set (d0 := mkRData (HttpRequest_new status 0x11 true) 0).
  destruct (http_parser_execute_ok (head r ++ more) (http_parser_init q0) d0)
    as (n' & q' & d' & E & Hn & Hend);
    [done|cbn; unfold http_parser_start; lia|done|cbn; pose proof (zlen_nonneg (head r ++ more)); lia|].
  assert (Hne : zlen (head r ++ more) <> 0).
  { intros [H0 _]%zlen_0%app_eq_nil. unfold head in H0. destruct Hok as [Hm _ _ _ _ _ _ _].
    by destruct (m_method r). }
  destruct (Hend Hne ltac:(done)) as (_ & _ & _ & _ & q1 & Ee & _).
  destruct (exec_head (negb (uri_relaxed (http_parser_init q0) =? 0)) r more
    (start_exec (head r ++ more) (http_parser_init q0)) d0 Hok Hlen) as [q2 Ed].
  cbn [cs http_parser_init] in Ee. unfold http_parser_start in Ee. rewrite Ed in Ee.
  injection Ee as Hnn Hcs _ Hd. subst n' d'.
  destruct (memmove_front_spec _ _ Hn) as [Hfz Hfront].
  exists (memmove_front n (head r ++ more)), (q', read_data r d0).
  split; [unfold execute, HttpRequestParser_new; by step_with E|].
  split; [|split; [exact Hfz|]].
  { replace (zlen more) with (zlen (head r ++ more) - n) by (unfold n; rewrite zlen_app; lia).
    unfold n. rewrite Hfront. rewrite zdrop_app_ge by lia. rewrite Z.sub_diag. apply zdrop_0. }
  destruct (read_data_fields r status (ok_sorted r Hok)) as (He & _).
  unfold isFinished, hasError, m_parser, getData, http_parser_finish, http_parser_has_error,
    http_parser_is_finished. cbn [fst snd]. fold d0 in He. by rewrite He, <- Hcs.
Qed.

(** C8: a request survives being written and read: the text that [dump] writes
    for a request with a method of the grammar, a well-formed path, query and
    fragment, HTTP version 1.0 or 1.1, token header names and values without
    line breaks, is accepted by a fresh parser whatever its uninitialised
    members hold; the parser stops at the body, which it leaves at the front of
    the buffer, and the request it has built has the same method, version,
    path, query and fragment, and the same headers, with [connection] and
    [content-length] as [dump] derives them. *)
Theorem request_roundtrip r q0 status :
  request_ok r ->
  exists rest s',
    execute (dump r) (HttpRequestParser_new q0 status) =
      Ret (zlen (dump r) - zlen (m_body r), rest) s' /\
    ztake (zlen (m_body r)) rest = m_body r /\
    isFinished s' = 1 /\ hasError s' = false /\
    m_method (getData s') = m_method r /\ m_version (getData s') = m_version r /\
    m_path (getData s') = m_path r /\ m_query (getData s') = m_query r /\
    m_fragment (getData s') = m_fragment r /\
    forall k, find k (m_headers (getData s')) = read_header r k.
Proof.
  intros Hok. pose proof (ok_size r Hok) as Hlen.
  rewrite dump_eq in *. destruct (execute_head r q0 status (m_body r) Hok Hlen) as (rest & s' & E & Hb & _ & Hf & He & Hd).
  exists rest, s'. rewrite Hd, zlen_app, Z.add_simpl_r.
  destruct (read_data_fields r status (ok_sorted r Hok)) as (_ & H1 & H2 & H3 & H4 & H5 & _ & _ & H6). by split_and!.
Qed.

(** ** A concrete request *)

Definition demo_request : HttpRequest :=
  setHeader (bs "Host") (bs "a.example") (setBody (bs "hello") (setQuery (bs "x=1&y=%20")
    (setPath (bs "/index.html") (setMethod POST (HttpRequest_new 0 0x11 false))))).

Lemma demo_request_ok : request_ok demo_request.
Proof.
  constructor; try (vm_compute; reflexivity); [by left|].
  unfold demo_request, setHeader. cbn [m_headers setHeaders]. apply (map_set_sorted _ norm).
  constructor.
Qed.

Example request_roundtrip_witness :
  exists rest s', execute (dump demo_request) (HttpRequestParser_new q_zero 0) = Ret (96, rest) s' /\
    ztake 5 rest = bs "hello" /\
    find (bs "HOST") (m_headers (getData s')) = Some (bs "a.example").
Proof.
  destruct (request_roundtrip demo_request q_zero 0 demo_request_ok)
    as (rest & s' & E & Hb & _ & _ & _ & _ & _ & _ & _ & Hf).
  exists rest, s'. split; [|split; [exact Hb|rewrite Hf; reflexivity]].
  rewrite E. reflexivity.
Defined.
