(* ===== verification/HttpClientSafe.v ===== *)
(** The response parser is safe on responses without empty header values, in one
    piece or several; on others it is not: white space in front of a value may
    contain line ends, so that what follows an empty Content-Length or
    Transfer-Encoding is taken for its value and for a field name at once. *)
From S2P Require Import Prelude OrdMap Ragel Http HttpClientMachine HttpClient HttpParser Http11Safe.
Import HttpParser.Response.

(** ** Responses without empty header values *)

Definition blank (c : Z) : bool := (c =? 32) || between 9 13 c.
(** [m]: the last character that is not blank is a colon. *)
Definition colon_next (m : bool) (c : Z) : option bool :=
  if c =? 58 then Some true
  else if negb m then Some false
  else if (c =? 10) || (c =? 13) then None
  else Some (blank c).
(** No colon is followed by blanks and a line end. *)
Fixpoint colon_after (m : bool) (s : bytes) : option bool :=
  match s with
  | [] => Some m
  | b :: s => match colon_next m (char b) with Some m => colon_after m s | None => None end
  end.
Definition no_empty_value (s : bytes) : Prop := is_Some (colon_after false s).

Lemma colon_after_app a : forall m b,
  colon_after m (a ++ b) = match colon_after m a with Some m => colon_after m b | None => None end.
Proof. induction a as [|x a IH]; intros m b; [done|]. cbn. by destruct (colon_next m (char x)). Qed.

(** ** A static check of the table *)

(** A state, with what the characters so far say about colons, and whether the
    recorded field name lies in the buffer. *)
Definition node : Type := Z * bool * bool.
Definition node_eqb (a b : node) : bool :=
  (a.1.1 =? b.1.1) && Bool.eqb a.1.2 b.1.2 && Bool.eqb a.2 b.2.
Definition node_in (l : list node) (a : node) : bool := existsb (node_eqb a) l.

(** What an action needs to know, and what is known after it. *)
Fixpoint acts_ok (name : bool) (acts : list action) : option bool :=
  match acts with
  | [] => Some name
  | A_start_field :: acts => acts_ok false acts
  | A_write_field :: acts => acts_ok true acts
  | A_write_value :: acts => if name then acts_ok name acts else None
  | A_done c :: acts => if c =? 120 then acts_ok name acts else None
  | _ :: acts => acts_ok name acts
  end.

(** The node after a character; [None] when an action is not safe. *)
Definition node_next (a : node) (m : bool) (b : byte) : option node :=
  match goto_case a.1.1 (char b) with
  | None => None
  | Some (st n) => Some (n, m, a.2)
  | Some (tr k) =>
    match trans k with
    | Some (acts, n) =>
      match acts_ok a.2 acts with Some name => if n =? 0 then None else Some (n, m, name) | None => None end
    | None => None
    end
  end.

(** The nodes that are reached from a fresh parser: a search of the table, with the
    name reset where a piece may end. *)
Definition successors (a : node) : list node :=
  (a.1, true) :: flat_map (fun b => match colon_next a.1.2 (char b) with
    | Some m => match node_next a m b with Some n => if n.1.1 =? 0 then [] else [n] | None => [] end
    | None => [] end) all_bytes.
Fixpoint search (fuel : nat) (seen front : list node) : list node :=
  match fuel, front with
  | S fuel, a :: front =>
    let new := fold_right (fun n acc => if node_in seen n || node_in acc n then acc else n :: acc) [] (successors a) in
    search fuel (new ++ seen) (new ++ front)
  | _, _ => seen
  end.
Definition reached : list node := Eval vm_compute in search 1000 [(1, false, true)] [(1, false, true)].

Definition node_ok (a : node) (b : byte) : bool :=
  match colon_next a.1.2 (char b) with
  | None => true
  | Some m => match node_next a m b with Some n => (n.1.1 =? 0) || node_in reached n | None => false end
  end.

Lemma table_safe : forallb (fun a => node_in reached (a.1, true) && forallb (node_ok a) all_bytes) reached = true.
Proof. vm_compute. reflexivity. Qed.

Lemma node_eqb_eq a b : node_eqb a b = true -> a = b.
Proof.
  destruct a as [[c m] f], b as [[c' m'] f']. unfold node_eqb. cbn. intros [[E1%Z.eqb_eq E2%eqb_prop]%andb_prop E3%eqb_prop]%andb_prop.
  by subst.
Qed.
Lemma node_in_elem l a : node_in l a = true -> In a l.
Proof. intros (b & Hb & E%node_eqb_eq)%existsb_exists. by subst. Qed.

Lemma reached_resume c m f : In (c, m, f) reached -> In (c, m, true) reached.
Proof.
  intros H. pose proof table_safe as Ht. rewrite forallb_forall in Ht. specialize (Ht _ H).
  apply andb_prop in Ht as [Ht _]. by apply node_in_elem.
Qed.
Lemma reached_step a m b : In a reached -> colon_next a.1.2 (char b) = Some m ->
  exists n, node_next a m b = Some n /\ (n.1.1 = 0 \/ In n reached).
Proof.
  intros H Em. pose proof table_safe as Ht. rewrite forallb_forall in Ht. specialize (Ht _ H).
  apply andb_prop in Ht as [_ Ht]. pose proof (forall_bytes _ Ht b) as Hb. unfold node_ok in Hb. rewrite Em in Hb.
  destruct (node_next a m b) as [n|]; [|done]. exists n. split; [done|].
  apply orb_prop in Hb as [Hb%Z.eqb_eq|Hb]; [by left|right]. by apply node_in_elem.
Qed.

(** ** The invariant of a run *)

Record cinv (len p : Z) (name : bool) (q : httpclient_parser) : Prop := mkCinv {
  cinv_mark : 0 <= mark q <= p;
  cinv_start : 0 <= field_start q <= p;
  cinv_len : 0 <= field_len q <= len;
  cinv_name : name = true -> field_start q + field_len q <= len;
  cinv_body : 0 <= body_start q <= len;
  cinv_nread : nread q = 0
}.

Lemma cinv_weaken len p p' f f' q : cinv len p f q -> p <= p' -> implb f' f = true -> cinv len p' f' q.
Proof. intros [] Hp Hf. constructor; try lia. intros ->. destruct f; [auto|done]. Qed.

Section run.
Context (buffer : bytes) (Hlen : zlen buffer < 2 ^ 31).
Abbreviation len := (zlen buffer).
Abbreviation act := (run_action response_callbacks buffer).

Lemma response_upd_returns f : returns (upd f).
Proof. intros d. by eexists. Qed.
Lemma response_error_returns v : returns (setError v).
Proof. intros d. by eexists. Qed.

Lemma response_version_returns at_ p :
  0 <= at_ <= p -> p < len -> returns (on_response_version buffer at_ (LEN at_ p)).
Proof.
  intros Ha Hp. unfold on_response_version. apply (strncmp_returns buffer Hlen); [done..|].
  intros [|]; [apply response_upd_returns|]. apply (strncmp_returns buffer Hlen); [done..|].
  intros [|]; [apply response_upd_returns|].
  apply (string_returns buffer Hlen at_ p (fun _ => setError 1001)); [done..|]. intros; apply response_error_returns.
Qed.

Lemma response_field_returns field flen at_ p :
  0 <= field -> 0 <= flen -> field + flen <= len -> 0 <= at_ <= p -> p < len ->
  returns (on_response_http_field buffer field flen at_ (LEN at_ p)).
Proof.
  intros. unfold on_response_http_field. case_cmp; [apply response_error_returns|]. intros d.
  step_with (make_string_ok buffer field flen d ltac:(lia) ltac:(lia) Hlen ltac:(lia)).
  apply (string_returns buffer Hlen); [done..|]. intros; apply response_upd_returns.
Qed.

(** Actions that run a callback and go on. *)
Lemma callback_returns (m : M rdata unit) q d :
  returns m -> exists d', (on_data m;; mret (None : option Z)) (q, d) = Ret None (q, d').
Proof. intros H. destruct (H d) as [d' E]. exists d'. unfold on_data, mbind, M_bind. cbn. by rewrite E. Qed.

Lemma acts_ok_cons f a acts :
  acts_ok f (a :: acts) = match acts_ok f [a] with Some f' => acts_ok f' acts | None => None end.
Proof. destruct a; try done; cbn; [by destruct f|by destruct (_ =? 120)]. Qed.

(** Only the last action ends the run, and only it moves the start of the body. *)
Definition ends (out : option Z) (q q' : httpclient_parser) : Prop :=
  match out with Some c => c = 120 | None => body_start q' = body_start q end.

Lemma client_action_ok a p f f' q d :
  cinv len p f q -> 0 <= p < len -> acts_ok f [a] = Some f' ->
  exists out q' d', act a p (q, d) = Ret out (q', d') /\ cinv len p f' q' /\ cs q' = cs q /\ ends out q q'.
Proof.
  intros I Hp Hok. pose proof I as [Im Is Il In Ib Ir].
  destruct a as [| | | | | | | | | | | |c]; unfold run_action; step_with (eq_refl : get (q, d) = Ret _ _); cbn [fst];
    cbn [response_callbacks http_field reason_phrase status_code chunk_size http_version header_done last_chunk call_element];
    cbn in Hok; try (injection Hok as <-);
    try (eexists None, _, d; split; [reflexivity|]; split; [constructor; cbn; try lia; auto|done]).
  - cbn. rewrite (LEN_ok _ p len) by lia. lia.
  - cbn. rewrite (LEN_ok _ p len) by lia. lia.
  - destruct f; [|done]. injection Hok as <-.
    destruct (callback_returns _ q d (response_field_returns (field_start q) (field_len q) (mark q) p
      ltac:(lia) ltac:(lia) (In eq_refl) ltac:(lia) ltac:(lia))) as [d' E]. by exists None, q, d'.
  - destruct (callback_returns _ q d (string_returns buffer Hlen (mark q) p (fun v => upd (Http.Response.setReason v)) ltac:(lia) ltac:(lia)
      ltac:(intros; apply response_upd_returns))) as [d' E]. by exists None, q, d'.
  - eexists None, _, _. split; [reflexivity|]. by split; [constructor|].
  - destruct (callback_returns _ q d (response_version_returns (mark q) p ltac:(lia) ltac:(lia))) as [d' E]. by exists None, q, d'.
  - destruct (_ <=? 0); eexists None, _, d; (split; [reflexivity|]; split; [by constructor|done]).
  - destruct (c =? 120) eqn:E; [|done]. apply Z.eqb_eq in E. injection Hok as <-.
    eexists (Some _), _, d. split; [reflexivity|]. split; [|done]. constructor; cbn; try done.
    rewrite wrap_small by (unfold in_u; lia). lia.
Qed.

Lemma client_actions_ok acts p : forall f f' q d,
  cinv len p f q -> 0 <= p < len -> acts_ok f acts = Some f' ->
  exists out q' d' f'', run_actions act acts p (q, d) = Ret out (q', d') /\ cinv len p f'' q' /\
    (out = None -> f'' = f') /\ cs q' = cs q /\ ends out q q'.
Proof.
  induction acts as [|a acts IH]; intros f f' q d I Hp Hok; [injection Hok as <-; by exists None, q, d, f|].
  rewrite acts_ok_cons in Hok. destruct (acts_ok f [a]) as [f1|] eqn:E1; [|done].
  destruct (client_action_ok a p f f1 q d I Hp E1) as (out & q1 & d1 & E & I1 & Hc & Hout). cbn [run_actions].
  destruct out as [c|]; [exists (Some c), q1, d1, f1; step_with E; by split_and!|].
  destruct (IH f1 f' q1 d1 I1 Hp Hok) as (out & q2 & d2 & f2 & E2 & I2 & H2 & Hc2 & Hout2).
  exists out, q2, d2, f2. step_with E. split; [done|]. split; [done|]. split; [done|]. split; [congruence|].
  unfold ends in *. destruct out; congruence.
Qed.

(** How a run over [rest] stops: with an error, with the head complete, or at the end
    of the buffer in a state that is reached. *)
Definition stops (m : bool) (p c : Z) (q q' : httpclient_parser) : Prop :=
  (c = 0 \/ c = 120 \/ (p = len /\ exists f, In (c, m, f) reached)) /\ (c <> 120 -> body_start q' = body_start q).

Lemma client_exec_ok rest : forall p c m m' f q d,
  zdrop p buffer = rest -> 0 <= p <= len -> p + zlen rest = len -> In (c, m, f) reached ->
  colon_after m rest = Some m' -> cinv len (Z.max 0 (p - 1)) f q ->
  exists p' c' q' d', exec response_callbacks buffer p rest c (q, d) = Ret (p', c') (q', d') /\
    p <= p' <= len /\ cinv len (Z.max 0 (len - 1)) false q' /\ cs q' = cs q /\ stops m' p' c' q q'.
Proof.
  unfold exec. induction rest as [|b rest IH]; intros p c m m' f q d Hr Hp Hl Hin Hm I.
  { rewrite zlen_nil in Hl. injection Hm as <-. exists p, c, q, d. split; [done|]. split; [lia|].
    split; [eapply cinv_weaken; [exact I|lia|done]|]. split; [done|]. split; [|done]. right; right. split; [lia|]. by exists f. }
  rewrite zlen_cons in Hl. pose proof (zlen_nonneg rest).
  assert (Hr' : zdrop (p + 1) buffer = rest) by (rewrite <- zdrop_zdrop by lia; by rewrite Hr).
  cbn [colon_after] in Hm. destruct (colon_next m (char b)) as [m1|] eqn:Em; [|done].
  destruct (reached_step (c, m, f) m1 b Hin Em) as (nx & Enx & Hnx). unfold node_next in Enx. cbn [fst snd] in Enx.
  assert (Herr : forall q1 (d1 : rdata), cinv len p false q1 -> cs q1 = cs q -> body_start q1 = body_start q ->
    exists p' c' q' d', (mret (p, 0) : M (httpclient_parser * rdata) (Z * Z)) (q1, d1) = Ret (p', c') (q', d') /\
    p <= p' <= len /\ cinv len (Z.max 0 (len - 1)) false q' /\ cs q' = cs q /\ stops m' p' c' q q').
  { intros q1 d1 I1 Hc Hb. exists p, 0, q1, d1. split; [done|]. split; [lia|].
    split; [eapply cinv_weaken; [exact I1|lia|done]|]. split; [done|]. split; [by left|done]. }
  assert (Hnext : forall n f1 q1 d1, nx = (n, m1, f1) -> n <> 0 -> cinv len p f1 q1 -> cs q1 = cs q -> body_start q1 = body_start q ->
    exists p' c' q' d', exec_loop goto_case trans act 2 (p + 1) rest n (q1, d1) = Ret (p', c') (q', d') /\
    p <= p' <= len /\ cinv len (Z.max 0 (len - 1)) false q' /\ cs q' = cs q /\ stops m' p' c' q q').
  { intros n f1 q1 d1 -> Hn I1 Hc Hb. destruct Hnx as [?|Hnx]; [done|].
    destruct (IH (p + 1) n m1 m' f1 q1 d1) as (p' & c' & q' & d' & E & Hp' & I' & Hc' & Hs1 & Hs2); try done; [lia..| |].
    { eapply cinv_weaken; [exact I1|lia|by destruct f1]. }
    exists p', c', q', d'. split; [done|]. split; [lia|]. split; [done|]. split; [congruence|]. split; [done|]. by rewrite <- Hb. }
  assert (Ip : cinv len p f q) by (eapply cinv_weaken; [exact I|lia|by destruct f]).
  assert (Ip0 : cinv len p false q) by (eapply cinv_weaken; [exact Ip|lia|done]).
  cbn [exec_loop]. destruct (goto_case c (char b)) as [[n|k]|] eqn:Eg.
  - injection Enx as <-. destruct (n =? 0) eqn:En; [by apply Herr|apply Z.eqb_neq in En; by eapply Hnext].
  - destruct (trans k) as [[acts n]|] eqn:Et; [|done].
    destruct (acts_ok f acts) as [f1|] eqn:Ea; [|done]. destruct (n =? 0) eqn:En; [done|]. injection Enx as <-.
    destruct (client_actions_ok acts p f f1 q d Ip ltac:(lia) Ea) as (out & q1 & d1 & f2 & E & I1 & Hf & Hc & Hout).
    step_with E. destruct out as [c'|]; cbn in Hout.
    + subst c'. exists (p + 1), 120, q1, d1. split; [done|]. split; [lia|].
      split; [eapply cinv_weaken; [exact I1|lia|done]|]. split; [done|]. split; [right; by left|done].
    + rewrite Hf in I1 by done. apply Z.eqb_neq in En. by eapply Hnext.
  - done.
Qed.
End run.

Lemma client_parser_run f (q : httpclient_parser) (d : rdata) : on_parser f (q, d) = Ret tt (f q, d).
Proof. done. Qed.

(** Between two pieces: the state is one that is reached, and no head has ended. *)
Definition resumes (m : bool) (q : httpclient_parser) : Prop := body_start q = 0 /\ In (cs q, m, true) reached.

Lemma httpclient_parser_execute_ok data m m' q d :
  zlen data < 2 ^ 31 -> data <> [] -> resumes m q -> colon_after m data = Some m' ->
  exists n q' d', httpclient_parser_execute response_callbacks data (bz 0) 0 (q, d) = Ret n (q', d') /\ 0 <= n <= zlen data /\
    (cs q' = 0 \/ cs q' = 120 \/ (n = zlen data /\ resumes m' q')).
Proof.
  intros Hlen Hne [Hb Hin] Hm. pose proof (zlen_nonneg data).
  assert (H0 : zlen data <> 0) by (by intros ?%zlen_0). unfold httpclient_parser_execute.
  set (q0 := set_field_start 0 (set_field_len (zlen data) (set_mark 0 (set_nread 0 q)))).
  step_with (client_parser_run _ q d). fold q0. step_with (eq_refl : get (q0, d) = Ret (q0, d) (q0, d)). cbv beta zeta.
  step_with (assert_run (0 <=? zlen data) _ _ ltac:(lia)). step_with (assert_run (ub (bz 0) =? 0) _ _ eq_refl).
  rewrite !swrap_small by (unfold in_s; lia). step_with (assert_run (zlen data - 0 =? zlen data - 0) _ _ ltac:(lia)).
  destruct (client_exec_ok data Hlen data 0 (cs q) m m' true q0 d) as (p & c & q1 & d1 & E & Hp & I & Hc & Hs & Hbs);
    [done|lia|lia|done|done|constructor; cbn; lia|].
  cbn [fst]. rewrite zdrop_0. step_with E. cbv beta iota zeta.
  destruct I as [Im Is Il _ Ib Ir].
  step_with (client_parser_run (set_cs c) q1 d1). step_with (client_parser_run (fun q => set_nread (u64 (nread q + (p - 0))) q) (set_cs c q1) d1).
  set (q2 := set_nread _ _).
  assert (Hn : nread q2 = p) by (unfold q2; cbn; rewrite Ir, wrap_small by (unfold in_u; lia); lia).
  step_with (assert_run (p <=? zlen data) _ _ ltac:(lia)). step_with (eq_refl : get (q2, d1) = Ret (q2, d1) (q2, d1)). cbn [fst].
  rewrite Hn. step_with (assert_run (p <=? zlen data) "nread longer than length" (q2, d1) ltac:(lia)).
  change (body_start q2) with (body_start q1). change (mark q2) with (mark q1). change (field_len q2) with (field_len q1).
  change (field_start q2) with (field_start q1).
  step_with (assert_run (body_start q1 <=? zlen data) _ _ ltac:(lia)).
  rewrite (proj2 (Z.ltb_lt (mark q1) _)), (proj2 (Z.leb_le (field_len q1) _)), (proj2 (Z.ltb_lt (field_start q1) _)) by lia. cbn [negb].
  exists p, q2, d1. rewrite swrap_small by (unfold in_s; lia). split; [done|]. split; [lia|].
  change (cs q2) with c. destruct Hs as [|[|[Hpl [f Hf]]]]; [by left|by right; left|].
  destruct (decide (c = 120)) as [|Hc120]; [by right; left|]. right; right. split; [done|]. split; [|by eapply reached_resume].
  change (body_start q2) with (body_start q1). by rewrite Hbs.
Qed.

Lemma execute_ok data m m' q d :
  zlen data < 2 ^ 31 -> data <> [] -> resumes m q -> colon_after m data = Some m' ->
  exists n s', execute data (bz 0) false (q, d) = Ret (n, memmove_front n data) s' /\ 0 <= n <= zlen data /\
    (isFinished s' <> 0 \/ (n = zlen data /\ resumes m' s'.1)).
Proof.
  intros Hlen Hne R Hm. destruct (httpclient_parser_execute_ok data m m' q d Hlen Hne R Hm) as (n & q' & d' & E & Hn & He).
  exists n, (q', d'). split; [|split; [done|]].
  - unfold execute. step_with (eq_refl : (mret tt : M HttpResponseParser unit) (q, d) = Ret tt (q, d)). step_with E.
    cbv zeta. rewrite wrap_small by (unfold in_u; lia). by rewrite (proj2 (Z.ltb_ge _ _)) by lia.
  - unfold isFinished, httpclient_parser_finish, httpclient_parser_has_error, httpclient_parser_is_finished, m_parser. cbn [fst].
    destruct He as [-> | [-> | He]]; [by left|by left|by right].
Qed.

(** The parser is given pieces one after the other until it has an end or an error. *)
Fixpoint feed (pieces : list bytes) : M HttpResponseParser unit :=
  match pieces with
  | [] => mret tt
  | data :: pieces => fun s =>
    if isFinished s =? 0 then (execute data (bz 0) false;; feed pieces) s else Ret tt s
  end.

Lemma feed_ok pieces : forall m q d,
  Forall (fun x => x <> [] /\ zlen x < 2 ^ 31) pieces -> resumes m q -> is_Some (colon_after m (concat pieces)) ->
  exists s, feed pieces (q, d) = Ret tt s /\
    (isFinished s <> 0 \/ exists m', colon_after m (concat pieces) = Some m' /\ resumes m' s.1).
Proof.
  induction pieces as [|data pieces IH]; intros m q d Hp R Hm; [exists (q, d); split; [done|right; by exists m]|].
  apply list.Forall_cons in Hp as [[Hne Hlen] Hp]. cbn [concat] in *. rewrite colon_after_app in Hm |- *.
  destruct (colon_after m data) as [m1|] eqn:Em; [|by destruct Hm]. cbn [feed].
  destruct (isFinished (q, d) =? 0) eqn:Ef; [|exists (q, d); split; [done|left; by apply Z.eqb_neq]].
  destruct (execute_ok data m m1 q d Hlen Hne R Em) as (n & [q1 d1] & E & _ & He). step_with E.
  destruct He as [Hf|[_ R1]]; [|by apply (IH m1)].
  exists (q1, d1). split; [|by left]. destruct pieces as [|x pieces]; [done|]. cbn [feed].
  by rewrite (proj2 (Z.eqb_neq _ _)).
Qed.

(** C10: the response parser is safe on responses without empty header values, in
    any pieces: however such a response is cut into pieces that are not empty, a
    fresh parser given one after the other returns from each call without throwing,
    reading outside the piece or failing an assertion; and a call for the next piece,
    or for the head of a chunk, consumes an offset in range, moves the bytes it
    leaves to the front, and has consumed everything unless the head has ended or is
    wrong.  White space before a value may contain line ends: behind an empty
    Content-Length or Transfer-Encoding the parser takes what follows for the value
    and the start of a name, and reads up to 17 bytes past the data. *)
Theorem response_parser_safe q (pieces : list bytes) (data : bytes) (chunck : bool) :
  Forall (fun x => x <> [] /\ zlen x < 2 ^ 31) pieces -> data <> [] -> zlen data < 2 ^ 31 ->
  no_empty_value (concat pieces) -> no_empty_value (if chunck then data else concat pieces ++ data) ->
  exists s, feed pieces (HttpResponseParser_new q) = Ret tt s /\
  (chunck = true \/ isFinished s = 0 ->
   exists n s', execute data (bz 0) chunck s = Ret (n, memmove_front n data) s' /\ 0 <= n <= zlen data /\
     (isFinished s' = 0 -> n = zlen data)).
Proof.
  intros Hp Hne Hlen Hv Hvd.
  assert (Hinit : forall q, resumes false (httpclient_parser_init q)) by (intros q'; split; [done|]; apply node_in_elem; by vm_compute).
  destruct (feed_ok pieces false (httpclient_parser_init q) (mkRData (Http.Response.HttpResponse_new 0x11 true) 0) Hp (Hinit q) Hv)
    as ([q1 d1] & E & He).
  exists (q1, d1). split; [done|]. intros Hc.
  assert (exists m m' q2, resumes m q2 /\ colon_after m data = Some m' /\
    execute data (bz 0) chunck (q1, d1) = execute data (bz 0) false (q2, d1)) as (m & m' & q2 & R & Em & Ex).
  { destruct chunck; [destruct Hvd as [m' Em]; by exists false, m', (httpclient_parser_init q1)|].
    destruct He as [Hf|(m & Em & R)]; [by destruct Hc|]. destruct Hvd as [m' Em'].
    rewrite colon_after_app, Em in Em'. by exists m, m', q1. }
  destruct (execute_ok data m m' q2 d1 Hlen Hne R Em) as (n & s' & E' & Hn & Hf). exists n, s'. rewrite Ex. split; [done|].
  split; [done|]. intros H0. by destruct Hf as [|[? _]].
Qed.

Definition client_zero : httpclient_parser := mkClientParser 0 0 0 0 0 0 0 0 0 0 0.
Definition demo_pieces : list bytes := [bs "HTTP/1.1 200 O"; bs "K" ++ Http.crlf ++ bs "Content-Len"].

Lemma response_parser_safe_witness :
  let data := bs "gth: 2" ++ Http.crlf ++ Http.crlf ++ bs "hi" in
  exists s, feed demo_pieces (HttpResponseParser_new client_zero) = Ret tt s /\
  (false = true \/ isFinished s = 0 -> exists n s', execute data (bz 0) false s = Ret (n, memmove_front n data) s' /\
     0 <= n <= zlen data /\ (isFinished s' = 0 -> n = zlen data)).
Proof.
  intros data. apply (response_parser_safe client_zero demo_pieces data false).
  - by repeat constructor.
  - done.
  - by vm_compute.
  - eexists. vm_compute. reflexivity.
  - eexists. vm_compute. reflexivity.
Defined.

Definition line (s : string) : bytes := bs s ++ [bz 10].
Example empty_value_reads_past_end :
  execute (line "HTTP/1.1 200 OK" ++ line "Content-Length:" ++ line "5") (bz 0) false (HttpResponseParser_new client_zero) = Crash OutOfBounds /\
  execute (line "HTTP/1.1 200 OK" ++ line "Transfer-Encoding:" ++ line "chunked") (bz 0) false (HttpResponseParser_new client_zero) = Crash OutOfBounds.
Proof. by vm_compute. Qed.
(** A head that ends behind an empty Content-Length ends in another final state, which
    does not count as finished; the next call fails an assertion. *)
Example empty_length_never_finishes :
  exists r s, execute (line "HTTP/1.1 200 OK" ++ line "Content-Length:" ++ line "") (bz 0) false (HttpResponseParser_new client_zero) = Ret (33, r) s /\
  isFinished s = 0 /\ execute (bs "body") (bz 0) false s = Crash (AssertFail "body starts after buffer end").
Proof. eexists _, _. split; [vm_compute; reflexivity|]. by vm_compute. Qed.
(** The error state has no case in the switch: a parser that has found an error and is
    given another piece goes into the state of the first label behind the switch,
    reports that nothing is wrong and reads nothing. *)
Example error_forgotten :
  exists r s, execute (bs "HTTP/1.1 200 OK" ++ crlf ++ bs "(") (bz 0) false (HttpResponseParser_new client_zero) = Ret (17, r) s /\
  isFinished s = -1 /\
  exists r' s', execute (bs "x") (bz 0) false s = Ret (0, r') s' /\ isFinished s' = 0 /\ hasError s' = false.
Proof. eexists _, _. split; [vm_compute; reflexivity|]. split; [done|]. eexists _, _. split; [vm_compute; reflexivity|done]. Qed.
