(* ===== verification/HttpLimits.v ===== *)
(** What the HTTP code does not do: requests that arrive in pieces, responses
    read by the program's own client, control characters in header names. *)
From S2P Require Import Prelude OrdMap Ragel Http HttpThms Http11Machine Http11 HttpParser.
From S2P Require Import Http11Safe HttpRoundtrip.
From S2P Require HttpClientMachine HttpClient.
Import HttpParser.Request.
#[local] Opaque goto_case trans.

(** ** Reading a request in two pieces *)

(** A first piece that ends inside the URI is consumed whole. *)
Lemma execute_piece data p c q d q' d' :
  zlen data < 2 ^ 31 -> data <> [] -> 0 < cs q < 350 -> in_query (cs q) = false ->
  body_start q = 0 ->
  exec request_callbacks data (negb (uri_relaxed q =? 0)) 0 data (cs q) (start_exec data q, d)
    = Ret (p, c) (q', d') ->
  exists rest q2, execute data (q, d) = Ret (p, rest) (q2, d') /\ cs q2 = c /\
    (c < 348 -> body_start q2 = 0) /\ query_start q2 = query_start q'.
Proof.
  intros Hlen Hne Hcs Hq Hb Hex. pose proof (zlen_nonneg data).
  destruct (http_parser_execute_ok data q d) as (n & q2 & d2 & E & Hn & Hend); [done|lia|done|lia|].
  destruct Hend as (_ & _ & Hbs & _ & q3 & E3 & Hqs); [by intros ?%zlen_0|lia|].
  rewrite Hex in E3. injection E3 as -> -> -> ->.
  exists (memmove_front n data), q2. split; [unfold execute; by step_with E|]. split; [done|].
  split; [|done]. intros Hc. by rewrite Hbs by done.
Qed.

Definition request_end : bytes := bz 32 :: show_version 0x11 ++ crlf ++ crlf.

(** The second piece, from inside the path. *)
Lemma exec_path_rest r p2 q d :
  zlen (p2 ++ request_end) < 2 ^ 31 -> mark q = 0 -> uri_text path_char p2 = true ->
  exists q', exec request_callbacks (p2 ++ request_end) r 0 (p2 ++ request_end) 26 (q, d) =
    Ret (zlen (p2 ++ request_end), 348)
      (q', upd_data (setVersion 0x11) (upd_data (setPath p2) d)).
Proof.
  intros Hlen Hm Hp2. set (buffer := p2 ++ request_end) in *.
  assert (Ha : at_ buffer 0 (p2 ++ request_end)) by (split; [apply zdrop_0|lia]).
  assert (Hr : request_end <> []) by done. assert (Hz : zlen buffer = zlen p2 + 13) by apply zlen_app.
  unfold buffer at 2. rewrite (go_quiet buffer r p2 26 26) by (eapply text_quiet; [exact loop_path|done]).
  destruct (run_path buffer Hlen p2 request_end 0 q d Hm Ha Hr) as [R _].
  apply at_app in Ha. unfold request_end in Ha |- *.
  rewrite (path_end buffer r 26 (is_char 32) (bz 32) 37 [A_request_path; A_request_uri] 4 _ _ _ _
    (upd_data (setPath p2) d)); [|by right|table|table|table|done|done|exact R].
  apply at_cons in Ha. rewrite (seg_version buffer Hlen r) by (done || by left).
  destruct (seg_done buffer r (0 + zlen p2 + 1 + 10) [] (set_mark (0 + zlen p2 + 1) q)
    (upd_data (setVersion 0x11) (upd_data (setPath p2) d))) as [q' E].
  rewrite app_nil_r in E. exists q'. rewrite E. f_equal. f_equal. lia.
Qed.

(** The first piece: the request line up to somewhere in the path. *)
Lemma exec_first_piece r m p1 q d :
  method_ok m = true -> path_ok p1 = true -> 2 <= zlen p1 ->
  let data := HttpMethodToString m ++ bs " " ++ p1 in
  exists q', exec request_callbacks data r 0 data 1 (q, d) =
    Ret (zlen data, 26) (q', upd_data (setMethod m) d).
Proof.
  intros Hm Hp Hz data. assert (Ha : at_ data 0 data) by (split; [apply zdrop_0|lia]).
  unfold data in Ha at 2. unfold data at 2. rewrite (seg_method data r) by done.
  pose proof (seg_path data r p1 (0 + zlen (HttpMethodToString m) + 1) [] (set_mark 0 q)
    (upd_data (setMethod m) d) Hp) as E.
  rewrite app_nil_r in E. rewrite E. clear E.
  assert (path_state p1 = 26) as ->.
  { by destruct p1 as [|? [|]]. }
  eexists. unfold exec. rewrite exec_nil. f_equal. f_equal.
  unfold data. rewrite !zlen_app. change (zlen (bs " ")) with 1. lia.
Qed.

Lemma two_pieces_bounds (a b : bytes) n : zlen (a ++ b) < n -> zlen a < n /\ zlen b < n.
Proof. rewrite zlen_app. pose proof (zlen_nonneg a). pose proof (zlen_nonneg b). lia. Qed.

(** A request that arrives in two pieces is misread: when the first piece
    ends inside the path, both calls succeed and the parser reports a finished
    request without an error, but the path it has stored is only the part in
    the second piece, since the marks restart from the front of the buffer. *)
Theorem split_request_truncates_path q0 status m p1 p2 :
  method_ok m = true -> path_ok p1 = true -> 2 <= zlen p1 -> uri_text path_char p2 = true ->
  let data1 := HttpMethodToString m ++ bs " " ++ p1 in
  let data2 := p2 ++ request_end in
  zlen data1 < 2 ^ 31 -> zlen data2 < 2 ^ 31 ->
  exists rest1 s1 rest2 s2,
    execute data1 (HttpRequestParser_new q0 status) = Ret (zlen data1, rest1) s1 /\
    isFinished s1 = 0 /\
    execute data2 s1 = Ret (zlen data2, rest2) s2 /\
    isFinished s2 = 1 /\ hasError s2 = false /\
    m_method (getData s2) = m /\ m_path (getData s2) = p2.
Proof.
  intros Hm Hp1 Hz Hp2 data1 data2 H1 H2. set (d0 := mkRData (HttpRequest_new status 0x11 true) 0).
  set (q := http_parser_init q0).
  destruct (exec_first_piece (negb (uri_relaxed q =? 0)) m p1 (start_exec data1 q) d0 Hm Hp1 Hz) as [qa Ea].
  assert (Hne : forall x y : bytes, y <> [] -> x ++ y <> []) by (by intros [|] [|]).
  destruct (execute_piece data1 (zlen data1) 26 q d0 qa (upd_data (setMethod m) d0)) as (rest1 & q1 & E1 & Hc1 & Hb1 & _);
    [done|by apply Hne|done|done|done|exact Ea|].
  destruct (exec_path_rest (negb (uri_relaxed q1 =? 0)) p2 (start_exec data2 q1) (upd_data (setMethod m) d0) H2
    eq_refl Hp2) as [qb Eb].
  destruct (execute_piece data2 (zlen data2) 348 q1 (upd_data (setMethod m) d0) qb
    (upd_data (setVersion 0x11) (upd_data (setPath p2) (upd_data (setMethod m) d0))))
    as (rest2 & q2 & E2 & Hc2 & _);
    [done|by apply Hne|rewrite Hc1; lia|by rewrite Hc1|by apply Hb1|by rewrite Hc1|].
  exists rest1, (q1, upd_data (setMethod m) d0), rest2, (q2, upd_data (setVersion 0x11)
    (upd_data (setPath p2) (upd_data (setMethod m) d0))).
  unfold isFinished, hasError, http_parser_finish, http_parser_has_error, http_parser_is_finished,
    m_parser, getData. cbn [fst snd]. rewrite Hc1, Hc2. by split_and!.
Qed.

(** The first piece up to somewhere in the query. *)
Lemma exec_query_piece r m path x q d :
  method_ok m = true -> path_ok path = true -> uri_text query_char x = true -> x <> [] ->
  let data := HttpMethodToString m ++ bs " " ++ path ++ bz 63 :: x in
  zlen data < 2 ^ 31 ->
  exists q', exec request_callbacks data r 0 data 1 (q, d) =
    Ret (zlen data, 30) (q', upd_data (setPath path) (upd_data (setMethod m) d)) /\
    query_start q' = zlen data - zlen x.
Proof.
  intros Hm Hp Hx Hne data Hlen. assert (Ha : at_ data 0 data) by (split; [apply zdrop_0|lia]).
  assert (Hz : zlen data = zlen (HttpMethodToString m) + 1 + zlen path + 1 + zlen x).
  { unfold data. rewrite !zlen_app, zlen_cons. change (zlen (bs " ")) with 1. lia. }
  unfold data in Ha at 2. unfold data at 2. rewrite (seg_method data r) by done.
  do 2 apply at_app in Ha. change (zlen (bs " ")) with 1 in Ha.
  rewrite (seg_path data r path) by done.
  destruct (run_path data Hlen path (bz 63 :: x) _ (set_mark (0 + zlen (HttpMethodToString m) + 1)
    (set_mark 0 q)) (upd_data (setMethod m) d) eq_refl Ha ltac:(done)) as [_ R].
  rewrite (path_end data r (path_state path) (is_char 63) (bz 63) 42 [A_request_path] 29 _ _ _ _
    (upd_data (setPath path) (upd_data (setMethod m) d)));
    [|apply path_state_or|table|table|table|done|done|exact R].
  eexists. rewrite <- (app_nil_r x) at 1.
  erewrite (go_text data r query_char 29 54 56 [A_start_query] 30 31 32 x);
    [|exact loop_query|table|table|table|table|done|done|reflexivity].
  unfold exec. rewrite exec_nil. split; [f_equal; f_equal; lia|]. cbn [query_start set_query_start]. lia.
Qed.

Lemma http_parser_execute_throw data q d e s :
  0 < zlen data < 2 ^ 31 ->
  exec request_callbacks data (negb (uri_relaxed q =? 0)) 0 data (cs q) (start_exec data q, d)
    = Throw e s ->
  http_parser_execute request_callbacks data 0 (q, d) = Throw e s.
Proof.
  intros Hlen Hex. unfold http_parser_execute.
  rewrite (proj2 (Z.eqb_neq (zlen data) 0)) by lia.
  step_with (on_parser_run _ q d). fold (start_exec data q).
  step_with (eq_refl : get (start_exec data q, d) = Ret _ _). cbv beta zeta.
  step_with (assert_run (0 <=? zlen data) _ _ ltac:(lia)).
  rewrite !swrap_small by (unfold in_s; lia).
  step_with (assert_run (zlen data - 0 =? zlen data - 0) _ _ ltac:(lia)).
  cbn [fst]. rewrite zdrop_0. by rewrite (bind_Throw _ _ _ _ _ Hex).
Qed.

(** A request that is split inside the query can make the parser throw: when
    what follows the split up to the space is shorter than the offset at which
    the query began in the first piece, the length the parser computes is
    negative, and std::string's constructor throws out of execute. *)
Theorem split_query_throws q0 status m path x y :
  method_ok m = true -> path_ok path = true -> uri_text query_char x = true -> x <> [] ->
  uri_text query_char y = true ->
  let data1 := HttpMethodToString m ++ bs " " ++ path ++ bz 63 :: x in
  let data2 := y ++ request_end in
  zlen data1 < 2 ^ 31 -> zlen data2 < 2 ^ 31 -> zlen y < zlen data1 - zlen x ->
  exists rest1 s1 s2,
    execute data1 (HttpRequestParser_new q0 status) = Ret (zlen data1, rest1) s1 /\
    hasError s1 = false /\
    execute data2 s1 = Throw (length_error "basic_string::_M_create") s2.
Proof.
  intros Hm Hp Hx Hxn Hy data1 data2 H1 H2 Hshort.
  set (d0 := mkRData (HttpRequest_new status 0x11 true) 0). set (q := http_parser_init q0).
  destruct (exec_query_piece (negb (uri_relaxed q =? 0)) m path x (start_exec data1 q) d0 Hm Hp Hx Hxn H1)
    as (qa & Ea & Hqa). fold data1 in Ea, Hqa.
  assert (Hne : forall x y : bytes, y <> [] -> x ++ y <> []) by (by intros [|] [|]).
  destruct (execute_piece data1 (zlen data1) 30 q d0 qa _ H1 ltac:(by apply Hne) ltac:(done) ltac:(done)
    ltac:(done) Ea) as (rest1 & q1 & E1 & Hc1 & _ & Hqs). rewrite Hqa in Hqs.
  set (d1 := upd_data (setPath path) (upd_data (setMethod m) d0)) in *.
  assert (Hz2 : zlen data2 = zlen y + 13) by apply zlen_app. pose proof (zlen_nonneg y).
  pose proof (zlen_nonneg x).
  set (r1 := negb (uri_relaxed q1 =? 0)). exists rest1, (q1, d1), (start_exec data2 q1, d1).
  split; [exact E1|]. split.
  { unfold hasError, http_parser_has_error, m_parser. cbn [fst snd]. by rewrite Hc1. }
  unfold execute. erewrite bind_Throw; [reflexivity|].
  apply http_parser_execute_throw; [lia|]. rewrite Hc1. fold r1. unfold data2 at 2.
  rewrite (go_quiet data2 r1 y 30 30) by (eapply text_quiet; [exact loop_query|done]).
  unfold request_end. unfold exec.
  eapply (exec_throw (goto_case r1)) with (k := 57) (acts := [A_query_string; A_request_uri]) (n := 4);
    [apply (class_at r1 (is_char 32)); [vm_compute; reflexivity|reflexivity]|reflexivity|].
  cbn [run_actions]. erewrite bind_Throw; [reflexivity|]. unfold run_action.
  step_with (eq_refl : get (start_exec data2 q1, d1) = Ret _ _). cbn [fst].
  assert (Hstr : make_string data2 (query_start q1) (LEN (query_start q1) (0 + zlen y)) d1 =
    Throw (length_error "basic_string::_M_create") d1).
  { unfold make_string, LEN. rewrite Hqs.
    assert (Hw : u64 (0 + zlen y - (zlen data1 - zlen x)) = 2 ^ 64 + (zlen y - (zlen data1 - zlen x))).
    { symmetry. unfold wrap. apply (Z.mod_unique _ _ (-1)); lia. }
    rewrite Hw, (proj2 (Z.ltb_lt _ _)) by lia. done. }
  erewrite bind_Throw; [reflexivity|].
  cbn [call_element query_string request_callbacks]. unfold on_data. cbn [snd fst].
  unfold on_request_query. cbn [query_start start_exec set_field_start set_field_len set_mark set_nread].
  by rewrite (bind_Throw _ _ _ _ _ Hstr).
Qed.

Example split_request_truncates_path_witness :
  exists rest1 s1 rest2 s2,
    execute (bs "GET /index") (HttpRequestParser_new q_zero 0) = Ret (10, rest1) s1 /\
    execute (bs ".html" ++ request_end) s1 = Ret (18, rest2) s2 /\
    isFinished s2 = 1 /\ hasError s2 = false /\ m_path (getData s2) = bs ".html".
Proof.
  destruct (split_request_truncates_path q_zero 0 GET (bs "/index") (bs ".html"))
    as (rest1 & s1 & rest2 & s2 & E1 & _ & E2 & Hf & He & _ & Hp);
    [reflexivity|reflexivity|vm_compute; discriminate|reflexivity|reflexivity|reflexivity|].
  exists rest1, s1, rest2, s2. repeat split; assumption.
Defined.

Example split_query_throws_witness :
  exists rest1 s1 s2,
    execute (bs "GET /find?key=val") (HttpRequestParser_new q_zero 0) = Ret (17, rest1) s1 /\
    execute (bs "ue" ++ request_end) s1 = Throw (length_error "basic_string::_M_create") s2.
Proof.
  destruct (split_query_throws q_zero 0 GET (bs "/find") (bs "key=val") (bs "ue"))
    as (rest1 & s1 & s2 & E1 & _ & E2);
    [reflexivity|reflexivity|reflexivity|discriminate|reflexivity|reflexivity|reflexivity|reflexivity|].
  exists rest1, s1, s2. split; assumption.
Defined.

(** ** Control characters in header names *)

Definition one_header (k v : bytes) : bytes :=
  bs "GET / " ++ show_version 0x11 ++ crlf ++ header_line k v ++ crlf.

Lemma exec_one_header r k v q d :
  name_ok k = true -> value_ok v = true -> zlen (one_header k v) < 2 ^ 31 ->
  exists q', exec request_callbacks (one_header k v) r 0 (one_header k v) 1 (q, d) =
    Ret (zlen (one_header k v), 348) (q', upd_data (setHeader k v) (upd_data (setVersion 0x11)
      (upd_data (setPath (bs "/")) (upd_data (setMethod GET) d)))).
Proof.
  intros Hk Hv Hlen. set (buffer := one_header k v) in *.
  assert (E : buffer = HttpMethodToString GET ++ bs " " ++ bs "/" ++ part (bs "?") [] ++ part (bs "#") []
    ++ bz 32 :: show_version 0x11 ++ crlf ++ header_line k v ++ crlf) by reflexivity.
  assert (Ha : at_ buffer 0 buffer) by (split; [apply zdrop_0|lia]). rewrite E in Ha at 2.
  assert (Hz : zlen buffer = 16 + zlen (header_line k v) + 2).
  { unfold buffer, one_header. rewrite !zlen_app. change (zlen (bs "GET / ")) with 6.
    change (zlen (show_version 0x11)) with 8. change (zlen crlf) with 2. lia. }
  pose proof (f_equal (fun x => exec request_callbacks buffer r 0 x 1 (q, d)) E) as Ex.
  cbv beta in Ex. rewrite Ex. clear Ex E.
  rewrite (seg_method buffer r) by done. do 2 apply at_app in Ha. change (zlen (bs " ")) with 1 in Ha.
  destruct (seg_uri buffer Hlen r (bs "/") [] [] _ _ (set_mark 0 q) (upd_data (setMethod GET) d)
    eq_refl eq_refl eq_refl Ha) as [q1 ->].
  do 3 apply at_app in Ha. apply at_cons in Ha.
  rewrite (seg_version buffer Hlen r) by (done || by left).
  do 2 apply at_app in Ha. change (at_ buffer 16 (header_line k v ++ crlf)) in Ha.
  destruct (seg_header buffer Hlen r k v 16 crlf (set_mark 6 q1)
    (upd_data (setVersion 0x11) (upd_data (setPath (bs "/")) (upd_data (setMethod GET) d))) Hk Hv Ha) as [q2 E2].
  destruct (seg_done buffer r (16 + zlen (header_line k v)) [] q2
    (upd_data (setHeader k v) (upd_data (setVersion 0x11)
      (upd_data (setPath (bs "/")) (upd_data (setMethod GET) d))))) as [q3 E3].
  exists q3. rewrite app_nil_r in E3. etransitivity; [exact E2|]. rewrite E3, Hz. reflexivity.
Qed.

(** A header name may hold control characters, line breaks included: a
    request whose header name is a token character followed by any characters
    that are token characters or control characters other than NUL and tab is
    accepted without error, and the whole name with its line breaks is stored
    as the name of one header. *)
Theorem header_name_keeps_control_chars q0 status k v :
  name_ok k = true -> value_ok v = true -> zlen (one_header k v) < 2 ^ 31 ->
  exists rest s, execute (one_header k v) (HttpRequestParser_new q0 status) =
      Ret (zlen (one_header k v), rest) s /\
    isFinished s = 1 /\ hasError s = false /\ m_headers (getData s) = [(k, v)].
Proof.
  intros Hk Hv Hlen. set (d0 := mkRData (HttpRequest_new status 0x11 true) 0).
  destruct (exec_one_header (negb (uri_relaxed (http_parser_init q0) =? 0)) k v
    (start_exec (one_header k v) (http_parser_init q0)) d0 Hk Hv Hlen) as [qa Ea].
  destruct (execute_piece (one_header k v) (zlen (one_header k v)) 348 (http_parser_init q0) d0 qa _ Hlen
    ltac:(done) ltac:(done) ltac:(done) ltac:(done) Ea) as (rest & q1 & E1 & Hc & _).
  eexists rest, (q1, _). split; [exact E1|].
  unfold isFinished, hasError, http_parser_finish, http_parser_has_error, http_parser_is_finished, m_parser.
  cbn [fst]. rewrite Hc. repeat split; done.
Qed.

Example header_name_keeps_control_chars_witness :
  exists rest s,
    execute (one_header (bs "X" ++ crlf ++ bs "Host") (bs "a")) (HttpRequestParser_new q_zero 0) =
      Ret (29, rest) s /\
    hasError s = false /\ m_headers (getData s) = [(bs "X" ++ crlf ++ bs "Host", bs "a")].
Proof.
  destruct (header_name_keeps_control_chars q_zero 0 (bs "X" ++ crlf ++ bs "Host") (bs "a"))
    as (rest & s & E & _ & He & Hh); [reflexivity|reflexivity|reflexivity|].
  exists rest, s. repeat split; assumption.
Defined.

(** ** Responses *)

Module Client.
Import HttpClientMachine HttpClient HttpParser.Response Http.Response.

Lemma client_rejects q b text :
  b = bz 32 -> zlen (b :: text) < 2 ^ 31 ->
  exists s, execute (b :: text) (bz 0) false (HttpResponseParser_new q) = Ret (0, b :: text) s /\
    isFinished s = -1 /\ getData s = HttpResponse_new 0x11 true.
Proof.
  intros -> Hlen. set (data := bz 32 :: text) in *.
  assert (Hz : 0 < zlen data) by (unfold data; rewrite zlen_cons; pose proof (zlen_nonneg text); lia).
  set (q1 := set_field_start 0 (set_field_len (zlen data) (set_mark 0 (set_nread 0 (httpclient_parser_init q))))).
  set (d := mkRData (HttpResponse_new 0x11 true) 0).
  set (q2 := set_nread 0 (set_cs 0 q1)).
  assert (Hex : exec response_callbacks data 0 (zdrop 0 data) (cs q1) (q1, d) = Ret (0, 0) (q1, d)).
  { rewrite zdrop_0. reflexivity. }
  assert (E : httpclient_parser_execute response_callbacks data (bz 0) 0 (httpclient_parser_init q, d) =
    Ret 0 (q2, d)).
  { unfold httpclient_parser_execute.
    step_with (eq_refl : on_parser _ (httpclient_parser_init q, d) = Ret tt (q1, d)).
    step_with (eq_refl : get (q1, d) = Ret _ _). cbv beta zeta.
    step_with (assert_run (0 <=? zlen data) _ _ ltac:(lia)).
    step_with (assert_run (ub (bz 0) =? 0) _ _ eq_refl).
    rewrite !swrap_small by (unfold in_s; lia).
    step_with (assert_run (zlen data - 0 =? zlen data - 0) _ _ ltac:(lia)).
    cbn [fst]. step_with Hex. cbv beta iota.
    step_with (eq_refl : on_parser (set_cs 0) (q1, d) = Ret tt (set_cs 0 q1, d)).
    step_with (eq_refl : on_parser (fun q => set_nread (u64 (nread q + (0 - 0))) q) (set_cs 0 q1, d) = Ret tt (q2, d)).
    step_with (assert_run (0 <=? zlen data) _ _ ltac:(lia)).
    step_with (eq_refl : get (q2, d) = Ret _ _). cbv beta zeta.
    cbn [fst nread body_start mark field_len field_start q2 q1 set_nread set_cs set_field_start
      set_field_len set_mark httpclient_parser_init].
    step_with (assert_run (0 <=? zlen data) "nread longer than length" (q2, d) ltac:(lia)).
    step_with (assert_run (0 <=? zlen data) "body starts after buffer end" (q2, d) ltac:(lia)).
    rewrite (proj2 (Z.ltb_lt 0 (zlen data))), (proj2 (Z.leb_le (zlen data) (zlen data))) by lia.
    reflexivity. }
  exists (q2, d). unfold execute, HttpResponseParser_new.
  step_with (eq_refl : (mret tt : M HttpResponseParser unit) (httpclient_parser_init q, d) = Ret tt _).
  step_with E. cbv beta zeta. change (u64 0) with 0.
  rewrite (proj2 (Z.ltb_ge (zlen data) 0)) by lia. split; [|done].
  unfold memmove_front. rewrite zdrop_0, Z.sub_0_r, zdrop_all, app_nil_r by lia. done.
Qed.
End Client.

(** No response that HttpResponse::dump writes can be read back: it begins
    with a space, so that a fresh HttpResponseParser consumes nothing of it,
    reports an error and leaves the response as it was. *)
Theorem response_dump_rejected q r :
  zlen (Response.dump r) < 2 ^ 31 ->
  exists s,
    HttpParser.Response.execute (Response.dump r) (bz 0) false (HttpParser.Response.HttpResponseParser_new q)
      = Ret (0, Response.dump r) s /\
    HttpParser.Response.isFinished s = -1 /\
    HttpParser.Response.getData s = Response.HttpResponse_new 0x11 true.
Proof. apply (Client.client_rejects q (bz 32)). reflexivity. Qed.

Example response_dump_rejected_witness :
  let r := Response.setBody (bs "hi") (Response.HttpResponse_new 0x11 true) in
  let q := HttpClient.mkClientParser 0 0 0 0 0 0 0 0 0 0 0 in
  exists s,
    HttpParser.Response.execute (Response.dump r) (bz 0) false (HttpParser.Response.HttpResponseParser_new q)
      = Ret (0, bs " HTTP/1.1 OK" ++ crlf ++ bs "connection:close" ++ crlf ++ bs "content-length:2"
          ++ crlf ++ crlf ++ bs "hi") s /\
    HttpParser.Response.isFinished s = -1.
Proof.
  intros r q. destruct (response_dump_rejected q r) as (s & E & Hf & _); [reflexivity|].
  exists s. split; [exact E|exact Hf].
Defined.
