(* ===== verification/Fiber.v ===== *)
(** linko/fiber.{h,cc}: coroutines over ucontext.

    Fibers live in a heap indexed by address.  What [getcontext], [makecontext]
    and [swapcontext] do to an [m_ctx] is kept as far as it decides where
    execution goes on: a context starts a function on an empty stack, or holds
    what [swapcontext] saved, or is out of date because its execution has gone
    on since it was resumed.  [on_cpu] is the fiber whose stack the thread runs
    on; resuming a context that is out of date is the crash [StaleContext]. *)
From S2P Require Import Prelude.

Inductive State := INIT | HOLD | EXEC | TERM | READY | EXCEPT.
#[export] Instance State_eq_dec : EqDecision State.
Proof. solve_decision. Defined.

(** The functions [makecontext] is given. *)
Inductive entry := MainFunc | CallerMainFunc.

Inductive ucontext :=
| Entry (f : entry)
| Saved (who : option nat)
| Ended
| Running.

(** [m_cb]: [None] is an empty std::function. *)
Record Fiber := mkFiber {
  m_id : Z;
  m_stacksize : Z;
  m_state : State;
  m_ctx : ucontext;
  m_stack : bool;
  m_cb : option Z
}.

Definition set_state (v : State) (f : Fiber) : Fiber :=
  mkFiber (m_id f) (m_stacksize f) v (m_ctx f) (m_stack f) (m_cb f).
Definition set_ctx (v : ucontext) (f : Fiber) : Fiber :=
  mkFiber (m_id f) (m_stacksize f) (m_state f) v (m_stack f) (m_cb f).
Definition set_cb (v : option Z) (f : Fiber) : Fiber :=
  mkFiber (m_id f) (m_stacksize f) (m_state f) (m_ctx f) (m_stack f) v.

(** The process-wide state: the heap, the next free address, s_fiber_id and
    s_fiber_count. *)
Record FiberState := mkFiberState {
  heap : gmap nat Fiber;
  next_addr : nat;
  s_fiber_id : Z;
  s_fiber_count : Z
}.
Definition set_heap (h : gmap nat Fiber) (s : FiberState) : FiberState :=
  mkFiberState h (next_addr s) (s_fiber_id s) (s_fiber_count s).

(** The thread-local state: [t_fiber] and [t_threadFiber] of fiber.cc, the
    [t_fiber] of scheduler.cc, and the running stack. *)
Record Tls := mkTls {
  t_fiber : option nat;
  t_threadFiber : option nat;
  t_mainFiber : option nat;
  on_cpu : option nat
}.
Definition tls_new : Tls := mkTls None None None None.
Definition set_fiber (v : option nat) (l : Tls) : Tls :=
  mkTls v (t_threadFiber l) (t_mainFiber l) (on_cpu l).
Definition set_threadFiber (v : option nat) (l : Tls) : Tls :=
  mkTls (t_fiber l) v (t_mainFiber l) (on_cpu l).
Definition set_mainFiber (v : option nat) (l : Tls) : Tls :=
  mkTls (t_fiber l) (t_threadFiber l) v (on_cpu l).
Definition set_on_cpu (v : option nat) (l : Tls) : Tls :=
  mkTls (t_fiber l) (t_threadFiber l) (t_mainFiber l) v.

Definition FM : Type -> Type := M (FiberState * Tls).
Definition on_tls (f : Tls -> Tls) : FM unit := modify (fun s => (s.1, f s.2)).
Definition on_shared (f : FiberState -> FiberState) : FM unit := modify (fun s => (f s.1, s.2)).

Definition fiber_at (p : nat) : FM Fiber := fun s =>
  match heap s.1 !! p with Some f => Ret f s | None => Crash NullDeref end.
Definition store (p : nat) (f : Fiber) : FM unit :=
  on_shared (fun s => set_heap (<[p := f]> (heap s)) s).
Definition deref (p : option nat) : FM nat :=
  match p with Some p => mret p | None => crash_with NullDeref end.
Definition alloc (f : Fiber) : FM nat := fun s =>
  let p := next_addr s.1 in
  Ret p (mkFiberState (<[p := f]> (heap s.1)) (S p) (s_fiber_id s.1) (s_fiber_count s.1), s.2).

Definition SetThis (f : option nat) : FM unit := on_tls (set_fiber f).

(** [++s_fiber_count] and [++s_fiber_id]. *)
Definition count_fiber (d : Z) : FM unit :=
  on_shared (fun s => mkFiberState (heap s) (next_addr s) (s_fiber_id s) (u64 (s_fiber_count s + d))).
Definition next_id : FM Z := fun s =>
  let i := u64 (s_fiber_id s.1 + 1) in
  Ret i (mkFiberState (heap s.1) (next_addr s.1) i (s_fiber_count s.1), s.2).

(** The constructor of a thread's main fiber: it stands for the stack the thread
    is running on. *)
Definition Fiber_main : FM nat :=
  this ← alloc (mkFiber 0 0 EXEC Running false None);
  SetThis (Some this);;
  on_tls (set_on_cpu (Some this));;
  count_fiber 1;;
  mret this.

(** [stack_size]: the value of the configuration variable fiber.stack_size. *)
Definition Fiber_new (stack_size : Z) (cb : option Z) (stacksize : Z) (use_caller : bool) : FM nat :=
  i ← next_id;
  count_fiber 1;;
  alloc (mkFiber i (u32 (if stacksize =? 0 then stack_size else stacksize)) INIT
           (Entry (if use_caller then CallerMainFunc else MainFunc)) true cb).

Definition is_over (st : State) : bool :=
  match st with TERM | EXCEPT | INIT => true | _ => false end.

Definition Fiber_destroy (this : nat) : FM unit :=
  count_fiber (-1);;
  f ← fiber_at this;
  (if m_stack f then
     assert (is_over (m_state f)) "m_state == TERM || m_state == EXCEPT || m_state == INIT"
   else
     assert (match m_cb f with None => true | Some _ => false end) "!m_cb";;
     assert (bool_decide (m_state f = EXEC)) "m_state == EXEC";;
     s ← get;
     when (bool_decide (t_fiber s.2 = Some this)) (SetThis None));;
  on_shared (fun s => set_heap (delete this (heap s)) s).

Definition reset (this : nat) (cb : option Z) : FM unit :=
  f ← fiber_at this;
  assert (m_stack f) "m_stack";;
  assert (is_over (m_state f)) "m_state == TERM || m_state == EXCEPT || m_state == INIT";;
  store this (mkFiber (m_id f) (m_stacksize f) INIT (Entry MainFunc) (m_stack f) cb).

(** [swapcontext(&from->m_ctx, &to->m_ctx)]; [ended]: it is the last call of
    MainFunc, behind which only an assertion follows. *)
Definition swapcontext (from to : nat) (ended : bool) : FM unit :=
  f ← fiber_at from;
  s ← get;
  store from (set_ctx (if ended then Ended else Saved (on_cpu s.2)) f);;
  t ← fiber_at to;
  match m_ctx t with
  | Entry _ => store to (set_ctx Running t);; on_tls (set_on_cpu (Some to))
  | Saved who => store to (set_ctx Running t);; on_tls (set_on_cpu who)
  | Ended => crash_with (AssertFail "never reach")
  | Running => crash_with StaleContext
  end.

Definition call (this : nat) : FM unit :=
  SetThis (Some this);;
  f ← fiber_at this;
  assert (bool_decide (m_state f <> EXEC)) "m_state != EXEC";;
  store this (set_state EXEC f);;
  s ← get;
  from ← deref (t_threadFiber s.2);
  swapcontext from this false.

Definition back_from (ended : bool) (this : nat) : FM unit :=
  s ← get;
  SetThis (t_threadFiber s.2);;
  to ← deref (t_threadFiber s.2);
  swapcontext this to ended.
Definition back : nat -> FM unit := back_from false.

Definition swapIn (this : nat) : FM unit :=
  SetThis (Some this);;
  f ← fiber_at this;
  assert (bool_decide (m_state f <> EXEC)) "m_state != EXEC";;
  store this (set_state EXEC f);;
  s ← get;
  from ← deref (t_mainFiber s.2);
  swapcontext from this false.

Definition swapOut_from (ended : bool) (this : nat) : FM unit :=
  s ← get;
  SetThis (t_mainFiber s.2);;
  to ← deref (t_mainFiber s.2);
  swapcontext this to ended.
Definition swapOut : nat -> FM unit := swapOut_from false.

Definition GetThis : FM nat :=
  s ← get;
  match t_fiber s.2 with
  | Some p => mret p
  | None =>
    p ← Fiber_main;
    s ← get;
    assert (bool_decide (t_fiber s.2 = Some p)) "t_fiber == main_fiber.get()";;
    on_tls (set_threadFiber (Some p));;
    mret p
  end.

(** Both yields: the state is set, then the context is switched. *)
Definition mark_yield (st : State) : FM nat :=
  cur ← GetThis;
  f ← fiber_at cur;
  store cur (set_state st f);;
  mret cur.
Definition YieldToReady : FM unit := cur ← mark_yield READY; swapOut cur.
Definition YieldToHold : FM unit := cur ← mark_yield HOLD; swapOut cur.

(** MainFunc behind [cur->m_cb()], which [returned] or threw; CallerMainFunc is
    the same with [back]. *)
Definition mark_end (cur : nat) (returned : bool) : FM unit :=
  f ← fiber_at cur;
  if returned then store cur (set_state TERM (set_cb None f)) else store cur (set_state EXCEPT f).
Definition MainFunc_end (cur : nat) (returned : bool) : FM unit :=
  mark_end cur returned;; swapOut_from true cur.
Definition CallerMainFunc_end (cur : nat) (returned : bool) : FM unit :=
  mark_end cur returned;; back_from true cur.

Definition GetFiberId : FM Z :=
  s ← get;
  match t_fiber s.2 with Some p => f ← fiber_at p; mret (m_id f) | None => mret 0 end.
Definition TotalFibers : FM Z := s ← get; mret (s_fiber_count s.1).
