(* ===== verification/Scheduler.v ===== *)
(** linko/scheduler.{h,cc}: the scheduler's threads, interleaved.

    The state is the scheduler object, the heap of fibers and, for every thread
    that runs [Scheduler::run], its thread-local state, the variables of the
    loop and the place it has reached ([pc]).  A step of a thread is what lies
    between two accesses to what the threads share: a section under m_mutex, an
    access to a counter or to the state of a fiber, a context switch.  What the
    code of a task does is an argument of the step ([body]). *)
From S2P Require Import Prelude Fiber.

(** Scheduler::FiberAndThread. *)
Record FiberAndThread := mkFT {
  ft_fiber : option nat;
  ft_cb : option Z;
  ft_thread : Z
}.
Definition FT_reset : FiberAndThread := mkFT None None (-1).
Definition ft_some (ft : FiberAndThread) : bool :=
  match ft_fiber ft, ft_cb ft with None, None => false | _, _ => true end.

(** Whether the loop runs a scheduled fiber or its own [cb_fiber]. *)
Inductive kind := KFiber | KCb.

(** Where a thread is in [run]: not called yet; at its head; at the top of the
    loop; behind the section that takes a task; before [swapIn] of a task; in
    the task; in a yield or at the end of the task, the state set but the
    context not switched; back in the loop; behind [--m_activeThreadCount]; in
    the idle fiber; back from it; returned. *)
Inductive PC :=
| PNotStarted
| PStart
| PTop
| PFetched (ft : FiberAndThread) (tickle_me is_active : bool)
| PSwapIn (f : nat) (k : kind)
| PRun (f : nat) (k : kind)
| PYield (f : nat) (k : kind) (cur : nat) (ended : bool)
| PBack (f : nat) (k : kind)
| PAfter (f : nat) (k : kind)
| PIdle
| PIdleBack
| PExit.

Record Thr := mkThr {
  tid : Z;
  tls : Tls;
  pc : PC;
  idle_fiber : option nat;
  cb_fiber : option nat
}.
Definition set_pc (v : PC) (t : Thr) : Thr := mkThr (tid t) (tls t) v (idle_fiber t) (cb_fiber t).
Definition set_tls (v : Tls) (t : Thr) : Thr := mkThr (tid t) v (pc t) (idle_fiber t) (cb_fiber t).
Definition set_idle_fiber (v : option nat) (t : Thr) : Thr :=
  mkThr (tid t) (tls t) (pc t) v (cb_fiber t).
Definition set_cb_fiber (v : option nat) (t : Thr) : Thr :=
  mkThr (tid t) (tls t) (pc t) (idle_fiber t) v.

(** Where [stop] is: not called, behind the flags, in [m_rootFiber->call()],
    joining, returned. *)
Inductive StopPC := SNone | SFlags | SCall | SJoin | SDone.

(** [m_threads]: every thread that runs the loop, with [use_caller] the caller's
    first; those that [stop] has joined stay in the list.  [tickles] records the
    calls of the virtual tickle, each with what hasIdleThreads was; [scheduled]
    and [taken] record the tasks that were queued and which thread took them. *)
Record Scheduler := mkScheduler {
  shared : FiberState;
  m_fibers : list FiberAndThread;
  m_threads : list Thr;
  m_threadCount : Z;
  m_activeThreadCount : Z;
  m_idleThreadCount : Z;
  m_stopping : bool;
  m_autoStop : bool;
  m_rootFiber : option nat;
  m_rootThread : Z;
  stop_pc : StopPC;
  tickles : list bool;
  scheduled : list FiberAndThread;
  taken : list (Z * FiberAndThread)
}.

Definition set_shared (v : FiberState) (s : Scheduler) : Scheduler :=
  mkScheduler v (m_fibers s) (m_threads s) (m_threadCount s) (m_activeThreadCount s)
    (m_idleThreadCount s) (m_stopping s) (m_autoStop s) (m_rootFiber s) (m_rootThread s)
    (stop_pc s) (tickles s) (scheduled s) (taken s).
Definition set_fibers (v : list FiberAndThread) (s : Scheduler) : Scheduler :=
  mkScheduler (shared s) v (m_threads s) (m_threadCount s) (m_activeThreadCount s)
    (m_idleThreadCount s) (m_stopping s) (m_autoStop s) (m_rootFiber s) (m_rootThread s)
    (stop_pc s) (tickles s) (scheduled s) (taken s).
Definition set_threads (v : list Thr) (s : Scheduler) : Scheduler :=
  mkScheduler (shared s) (m_fibers s) v (m_threadCount s) (m_activeThreadCount s)
    (m_idleThreadCount s) (m_stopping s) (m_autoStop s) (m_rootFiber s) (m_rootThread s)
    (stop_pc s) (tickles s) (scheduled s) (taken s).
Definition set_active (v : Z) (s : Scheduler) : Scheduler :=
  mkScheduler (shared s) (m_fibers s) (m_threads s) (m_threadCount s) v
    (m_idleThreadCount s) (m_stopping s) (m_autoStop s) (m_rootFiber s) (m_rootThread s)
    (stop_pc s) (tickles s) (scheduled s) (taken s).
Definition set_idle (v : Z) (s : Scheduler) : Scheduler :=
  mkScheduler (shared s) (m_fibers s) (m_threads s) (m_threadCount s) (m_activeThreadCount s)
    v (m_stopping s) (m_autoStop s) (m_rootFiber s) (m_rootThread s)
    (stop_pc s) (tickles s) (scheduled s) (taken s).
Definition set_flags (stopping autoStop : bool) (s : Scheduler) : Scheduler :=
  mkScheduler (shared s) (m_fibers s) (m_threads s) (m_threadCount s) (m_activeThreadCount s)
    (m_idleThreadCount s) stopping autoStop (m_rootFiber s) (m_rootThread s)
    (stop_pc s) (tickles s) (scheduled s) (taken s).
Definition set_stop_pc (v : StopPC) (s : Scheduler) : Scheduler :=
  mkScheduler (shared s) (m_fibers s) (m_threads s) (m_threadCount s) (m_activeThreadCount s)
    (m_idleThreadCount s) (m_stopping s) (m_autoStop s) (m_rootFiber s) (m_rootThread s)
    v (tickles s) (scheduled s) (taken s).
Definition hasIdleThreads (s : Scheduler) : bool := 0 <? m_idleThreadCount s.
Definition add_tickle (s : Scheduler) : Scheduler :=
  mkScheduler (shared s) (m_fibers s) (m_threads s) (m_threadCount s) (m_activeThreadCount s)
    (m_idleThreadCount s) (m_stopping s) (m_autoStop s) (m_rootFiber s) (m_rootThread s)
    (stop_pc s) (tickles s ++ [hasIdleThreads s]) (scheduled s) (taken s).
Definition log (sch : list FiberAndThread) (tak : list (Z * FiberAndThread)) (s : Scheduler) : Scheduler :=
  mkScheduler (shared s) (m_fibers s) (m_threads s) (m_threadCount s) (m_activeThreadCount s)
    (m_idleThreadCount s) (m_stopping s) (m_autoStop s) (m_rootFiber s) (m_rootThread s)
    (stop_pc s) (tickles s) (scheduled s ++ sch) (taken s ++ tak).

Definition SM : Type -> Type := M Scheduler.

Definition tickle : SM unit := modify add_tickle.

(** [extra]: what an overriding [stopping] asks for besides; true for the class
    itself. *)
Definition stopping (extra : bool) (s : Scheduler) : bool :=
  extra && m_autoStop s && m_stopping s && match m_fibers s with [] => true | _ => false end &&
  (m_activeThreadCount s =? 0).

(** The result is [need_tickle]. *)
Definition scheduleNoLock (ft : FiberAndThread) : SM bool :=
  s ← get;
  let need_tickle := match m_fibers s with [] => true | _ => false end in
  when (ft_some ft) (modify (fun s => log [ft] [] (set_fibers (m_fibers s ++ [ft]) s)));;
  mret need_tickle.

Definition schedule (ft : FiberAndThread) : SM unit :=
  need_tickle ← scheduleNoLock ft; when need_tickle tickle.

(** The overload for a range; the tasks of a range are for any thread. *)
Fixpoint schedule_loop (fts : list FiberAndThread) (need_tickle : bool) : SM bool :=
  match fts with
  | [] => mret need_tickle
  | ft :: fts => n ← scheduleNoLock ft; schedule_loop fts (n || need_tickle)
  end.
Definition schedule_range (fts : list FiberAndThread) : SM unit :=
  need_tickle ← schedule_loop fts false; when need_tickle tickle.

Section config.
(** The value of fiber.stack_size. *)
Context (stack_size : Z).

(** The callables the scheduler makes: [&Scheduler::run] and [&Scheduler::idle]. *)
Definition run_cb : Z := -2.
Definition idle_cb : Z := -1.

Definition set_thread (i : nat) (f : Thr -> Thr) : SM unit :=
  modify (fun s => set_threads (alter f i (m_threads s)) s).
Definition goto (i : nat) (p : PC) : SM unit := set_thread i (set_pc p).

(** Code of fiber.cc on the thread [i]. *)
Definition on_thread {A} (i : nat) (m : FM A) : SM A := fun s =>
  match m_threads s !! i with
  | None => Crash OutOfBounds
  | Some t =>
    match m (shared s, tls t) with
    | Ret a (sh, l) => Ret a (set_threads (alter (set_tls l) i (m_threads s)) (set_shared sh s))
    | Throw e (sh, l) => Throw e (set_threads (alter (set_tls l) i (m_threads s)) (set_shared sh s))
    | Crash c => Crash c
    end
  end.

(** [getState()] of a fiber. *)
Definition state_at (h : gmap nat Fiber) (f : nat) : option State := m_state <$> h !! f.

(** The section of the loop that takes a task: the task, if any, the rest of the
    queue and [tickle_me]; [None] when its assertion fails. *)
Fixpoint fetch (id : Z) (h : gmap nat Fiber) (q : list FiberAndThread)
    : option (option FiberAndThread * list FiberAndThread * bool) :=
  match q with
  | [] => Some (None, [], false)
  | it :: q' =>
    if negb (ft_thread it =? -1) && negb (ft_thread it =? id) then
      '(r, rest, _) ← fetch id h q'; Some (r, it :: rest, true)
    else if negb (ft_some it) then None
    else if match ft_fiber it with
            | Some f => bool_decide (state_at h f = Some EXEC)
            | None => false
            end
    then '(r, rest, tickle_me) ← fetch id h q'; Some (r, it :: rest, tickle_me)
    else Some (Some it, q', false)
  end.

Definition ended_state (st : State) : bool := match st with TERM | EXCEPT => true | _ => false end.

(** The choice of the loop behind the section. *)
Definition dispatch (i : nat) (t : Thr) (ft : FiberAndThread) (is_active : bool) : SM unit :=
  runnable ← (match ft_fiber ft with
    | Some f => g ← on_thread i (fiber_at f); mret (negb (ended_state (m_state g)))
    | None => mret false
    end);
  match ft_fiber ft, (runnable : bool), ft_cb ft with
  | Some f, true, _ => goto i (PSwapIn f KFiber)
  | _, _, Some cb =>
    match cb_fiber t with
    | Some f => on_thread i (reset f (Some cb));; goto i (PSwapIn f KCb)
    | None =>
      f ← on_thread i (Fiber_new stack_size (Some cb) 0 false);
      set_thread i (set_cb_fiber (Some f));; goto i (PSwapIn f KCb)
    end
  | _, _, None =>
    if is_active then
      modify (fun s => set_active (u64 (m_activeThreadCount s - 1)) s);; goto i PTop
    else
      idle ← on_thread i (deref (idle_fiber t));
      g ← on_thread i (fiber_at idle);
      if bool_decide (m_state g = TERM) then tickle;; goto i PExit
      else
        modify (fun s => set_idle (u64 (m_idleThreadCount s + 1)) s);;
        on_thread i (swapIn idle);;
        goto i PIdle
  end.

(** Behind [--m_activeThreadCount]. *)
Definition after_task (i : nat) (f : nat) (k : kind) : SM unit :=
  g ← on_thread i (fiber_at f);
  match k, m_state g with
  | KFiber, READY => schedule (mkFT (Some f) None (-1))
  | KFiber, (TERM | EXCEPT) => mret tt
  | KFiber, _ => on_thread i (store f (set_state HOLD g))
  | KCb, READY => schedule (mkFT (Some f) None (-1));; set_thread i (set_cb_fiber None)
  | KCb, (TERM | EXCEPT) => on_thread i (reset f None)
  | KCb, _ => on_thread i (store f (set_state HOLD g));; set_thread i (set_cb_fiber None)
  end.

(** One step of thread [i] in [run]. *)
Definition advance (i : nat) (extra : bool) : SM unit :=
  s ← get;
  match m_threads s !! i with
  | None => mret tt
  | Some t =>
    match pc t with
    | PNotStarted | PRun _ _ | PExit => mret tt
    | PStart =>
      (if tid t =? m_rootThread s then mret tt
       else p ← on_thread i GetThis; on_thread i (on_tls (set_mainFiber (Some p))));;
      f ← on_thread i (Fiber_new stack_size (Some idle_cb) 0 false);
      set_thread i (set_idle_fiber (Some f));;
      goto i PTop
    | PTop =>
      match fetch (tid t) (heap (shared s)) (m_fibers s) with
      | None => crash_with (AssertFail "it->fiber || it->cb")
      | Some (Some ft, rest, tickle_me) =>
        modify (fun s => log [] [(tid t, ft)]
          (set_active (u64 (m_activeThreadCount s + 1)) (set_fibers rest s)));;
        goto i (PFetched ft tickle_me true)
      | Some (None, rest, tickle_me) => goto i (PFetched FT_reset tickle_me false)
      end
    | PFetched ft tickle_me is_active => when tickle_me tickle;; dispatch i t ft is_active
    | PSwapIn f k => on_thread i (swapIn f);; goto i (PRun f k)
    | PYield f k cur ended => on_thread i (swapOut_from ended cur);; goto i (PBack f k)
    | PBack f k =>
      modify (fun s => set_active (u64 (m_activeThreadCount s - 1)) s);; goto i (PAfter f k)
    | PAfter f k => after_task i f k;; goto i PTop
    | PIdle =>
      idle ← on_thread i (deref (idle_fiber t));
      (if stopping extra s then on_thread i (MainFunc_end idle true) else on_thread i YieldToHold);;
      goto i PIdleBack
    | PIdleBack =>
      modify (fun s => set_idle (u64 (m_idleThreadCount s - 1)) s);;
      idle ← on_thread i (deref (idle_fiber t));
      g ← on_thread i (fiber_at idle);
      (if ended_state (m_state g) then mret tt else on_thread i (store idle (set_state HOLD g)));;
      goto i PTop
    end
  end.

(** What the code of a task can do; a fiber without a callable throws. *)
Inductive body :=
| BSchedule (ft : FiberAndThread)
| BYieldToReady
| BYieldToHold
| BReturn
| BThrow.

Definition run_body (i : nat) (b : body) : SM unit :=
  s ← get;
  match m_threads s !! i with
  | None => mret tt
  | Some t =>
    match pc t with
    | PRun f k =>
      g ← on_thread i (fiber_at f);
      let b := match m_cb g with None => BThrow | Some _ => b end in
      match b with
      | BSchedule ft => schedule ft
      | BYieldToReady => cur ← on_thread i (mark_yield READY); goto i (PYield f k cur false)
      | BYieldToHold => cur ← on_thread i (mark_yield HOLD); goto i (PYield f k cur false)
      | BReturn => on_thread i (mark_end f true);; goto i (PYield f k f true)
      | BThrow => on_thread i (mark_end f false);; goto i (PYield f k f true)
      end
    | PIdle =>
      (* an overriding [idle] schedules what it waited for *)
      match b with BSchedule ft => schedule ft | _ => mret tt end
    | _ => mret tt
    end
  end.

(** The constructor, on a thread with the thread-local state [l]; [other]: the
    thread has a scheduler already. *)
Definition Scheduler_new (threads : Z) (use_caller : bool) (id : Z) (other : bool) : FM Scheduler :=
  assert (0 <? threads) "threads > 0";;
  (if use_caller then
     GetThis;;
     assert (negb other) "GetThis() == nullptr";;
     f ← Fiber_new stack_size (Some run_cb) 0 true;
     on_tls (set_mainFiber (Some f));;
     s ← get;
     mret (mkScheduler s.1 [] [mkThr id s.2 PNotStarted None None] (threads - 1) 0 0 true false
             (Some f) id SNone [] [] [])
   else
     s ← get;
     mret (mkScheduler s.1 [] [] threads 0 0 true false None (-1) SNone [] [] [])).

(** [m_threads.empty()]: the pool has not been started, or [stop] has joined it. *)
Definition threads_empty (s : Scheduler) : bool :=
  match stop_pc s with
  | SDone => true
  | _ => (length (m_threads s) =? match m_rootFiber s with Some _ => 1 | None => 0 end)%nat
  end.

(** The pool is started; [ids]: the ids the kernel gives the new threads, which
    begin in [run]. *)
Definition start (ids : list Z) : SM unit :=
  s ← get;
  if negb (m_stopping s) then mret tt else
  modify (set_flags false (m_autoStop s));;
  assert (threads_empty s) "m_threads.empty()";;
  modify (fun s => set_threads (m_threads s ++
    map (fun id => mkThr id tls_new PStart None None) (take (Z.to_nat (m_threadCount s)) ids)) s).

Definition all_exited (ts : list Thr) : bool :=
  forallb (fun t => match pc t with PExit => true | _ => false end) ts.

(** One step of [stop] on its caller; [on_this]: [GetThis() == this]. *)
Definition stop (on_this extra : bool) : SM unit :=
  s ← get;
  let rooted := match m_rootFiber s with Some _ => true | None => false end in
  match stop_pc s with
  | SNone =>
    modify (set_flags (m_stopping s) true);;
    root ← (match m_rootFiber s with
      | Some r => match heap (shared s) !! r with Some g => mret (is_over (m_state g) && negb (bool_decide (m_state g = EXCEPT))) | None => crash_with NullDeref end
      | None => mret false
      end);
    early ← (if (root : bool) && (m_threadCount s =? 0) then
        modify (set_flags true true);; s ← get; mret (stopping extra s)
      else mret false);
    if (early : bool) then modify (set_stop_pc SDone) else
    (if m_rootThread s =? -1 then assert (negb on_this) "GetThis() != this"
     else assert on_this "GetThis() == this");;
    modify (set_flags true true);;
    modify (set_stop_pc SFlags)
  | SFlags =>
    Nat.iter (Z.to_nat (m_threadCount s)) (fun m => m;; tickle) (mret tt);;
    when rooted tickle;;
    if rooted && negb (stopping extra s) then
      match m_rootFiber s with
      | Some r => on_thread 0 (call r);; goto 0 PStart;; modify (set_stop_pc SCall)
      | None => mret tt
      end
    else modify (set_stop_pc SJoin)
  | SCall =>
    match m_threads s !! O, m_rootFiber s with
    | Some t, Some r =>
      match pc t with
      | PExit => on_thread 0 (CallerMainFunc_end r true);; modify (set_stop_pc SJoin)
      | _ => mret tt
      end
    | _, _ => mret tt
    end
  | SJoin =>
    if all_exited (drop (if rooted then 1 else 0)%nat (m_threads s)) then modify (set_stop_pc SDone)
    else mret tt
  | SDone => mret tt
  end.

(** [new Fiber(cb)] in the program's own code. *)
Definition new_fiber (cb : option Z) : SM unit := fun s =>
  match Fiber_new stack_size cb 0 false (shared s, tls_new) with
  | Ret _ (sh, _) => Ret tt (set_shared sh s)
  | Throw e (sh, _) => Throw e (set_shared sh s)
  | Crash c => Crash c
  end.

(** The interleavings: steps of the threads, of the tasks' code, of [start] and
    [stop] (which is called once), fibers the program makes and calls of
    [schedule] from other threads. *)
Inductive action :=
| Advance (i : nat) (extra : bool)
| Body (i : nat) (b : body)
| Schedule (ft : FiberAndThread)
| New (cb : option Z)
| Start (ids : list Z)
| Stop (on_this extra : bool).

Definition step (a : action) : SM unit :=
  match a with
  | Advance i extra => advance i extra
  | Body i b => run_body i b
  | Schedule ft => schedule ft
  | New cb => new_fiber cb
  | Start ids => start ids
  | Stop on_this extra => stop on_this extra
  end.

Fixpoint steps (acts : list action) : SM unit :=
  match acts with
  | [] => mret tt
  | a :: acts => step a;; steps acts
  end.
End config.
