(* ===== verification/SchedulerInv.v ===== *)
(** The invariant of the scheduler: every fiber has one owner, a context is
    saved whenever its fiber is not running, the counters count. *)
From S2P Require Import Prelude.
From stdpp Require Import sorting.
From S2P Require Import Fiber Scheduler.
Open Scope Z_scope.

(** ** What the fiber operations do *)

Definition ctx_at (h : gmap nat Fiber) (p : nat) (c : ucontext) : Prop :=
  exists g, h !! p = Some g /\ m_ctx g = c.

(** A fiber that can be resumed, or is over. *)
Definition resumable (p : nat) (g : Fiber) : Prop :=
  m_ctx g = Entry MainFunc \/ m_ctx g = Saved (Some p).
Definition parked_fiber (p : nat) (g : Fiber) : Prop :=
  m_stack g = true /\
  match m_state g with
  | INIT | HOLD | READY => resumable p g
  | TERM | EXCEPT => True
  | EXEC => False
  end.
Definition parked (h : gmap nat Fiber) (p : nat) : Prop :=
  exists g, h !! p = Some g /\ parked_fiber p g.

(** A fiber [run_cb] left ready for its next callable. *)
Definition blank (h : gmap nat Fiber) (p : nat) : Prop :=
  exists g, h !! p = Some g /\ m_stack g = true /\ m_state g = INIT /\ m_ctx g = Entry MainFunc.

Definition with_heap (h : gmap nat Fiber) (sh : FiberState) : FiberState := set_heap h sh.

Lemma swapIn_run f m g gm sh l :
  heap sh !! f = Some g -> m_state g <> EXEC -> resumable f g ->
  t_mainFiber l = Some m -> heap sh !! m = Some gm -> m <> f ->
  swapIn f (sh, l) = Ret tt
    (set_heap (<[f := set_ctx Running (set_state EXEC g)]> (<[m := set_ctx (Saved (on_cpu l)) gm]>
       (<[f := set_state EXEC g]> (heap sh)))) sh,
     set_on_cpu (Some f) (set_fiber (Some f) l)).
Proof.
  intros Hf Hst Hr Hm Hgm Hne. unfold swapIn.
  step_with (eq_refl : SetThis (Some f) (sh, l) = Ret tt (sh, set_fiber (Some f) l)).
  assert (fiber_at f (sh, set_fiber (Some f) l) = Ret g (sh, set_fiber (Some f) l)) as E
    by (unfold fiber_at; cbn [fst]; by rewrite Hf).
  step_with E. clear E.
  step_with (assert_run (bool_decide (m_state g <> EXEC)) "m_state != EXEC" (sh, set_fiber (Some f) l)
    ltac:(by apply bool_decide_eq_true)).
  set (sh1 := set_heap (<[f := set_state EXEC g]> (heap sh)) sh).
  set (l1 := set_fiber (Some f) l).
  step_with (eq_refl : store f (set_state EXEC g) (sh, l1) = Ret tt (sh1, l1)).
  step_with (eq_refl : get (sh1, l1) = Ret (sh1, l1) (sh1, l1)). cbn [snd].
  assert (deref (t_mainFiber l1) (sh1, l1) = Ret m (sh1, l1)) as E by (unfold l1; cbn; by rewrite Hm).
  step_with E. clear E. unfold swapcontext.
  assert (fiber_at m (sh1, l1) = Ret gm (sh1, l1)) as E.
  { unfold fiber_at. cbn. rewrite lookup_insert_ne by done. by rewrite Hgm. }
  step_with E. clear E.
  step_with (eq_refl : get (sh1, l1) = Ret (sh1, l1) (sh1, l1)). cbn [snd].
  set (h2 := <[m := set_ctx (Saved (on_cpu l)) gm]> (<[f := set_state EXEC g]> (heap sh))).
  step_with (eq_refl : store m (set_ctx (Saved (on_cpu l1)) gm) (sh1, l1) = Ret tt (set_heap h2 sh1, l1)).
  assert (fiber_at f (set_heap h2 sh1, l1) = Ret (set_state EXEC g) (set_heap h2 sh1, l1)) as E.
  { unfold fiber_at. cbn. unfold h2. rewrite lookup_insert_ne by done. by rewrite lookup_insert_eq. }
  step_with E. clear E. cbn [m_ctx set_state].
  destruct Hr as [-> | ->]; reflexivity.
Qed.

Lemma swapOut_run ended f m g gm sh l :
  heap sh !! f = Some g -> t_mainFiber l = Some m -> heap sh !! m = Some gm ->
  m_ctx gm = Saved (Some m) -> m <> f ->
  swapOut_from ended f (sh, l) = Ret tt
    (set_heap (<[m := set_ctx Running gm]>
       (<[f := set_ctx (if ended then Ended else Saved (on_cpu l)) g]> (heap sh))) sh,
     set_on_cpu (Some m) (set_fiber (Some m) l)).
Proof.
  intros Hf Hm Hgm Hc Hne. unfold swapOut_from.
  step_with (eq_refl : get (sh, l) = Ret (sh, l) (sh, l)). cbn [snd]. rewrite Hm.
  set (l1 := set_fiber (Some m) l).
  step_with (eq_refl : SetThis (Some m) (sh, l) = Ret tt (sh, l1)).
  step_with (eq_refl : deref (Some m) (sh, l1) = Ret m (sh, l1)). unfold swapcontext.
  assert (fiber_at f (sh, l1) = Ret g (sh, l1)) as E by (unfold fiber_at; cbn [fst]; by rewrite Hf).
  step_with E. clear E.
  step_with (eq_refl : get (sh, l1) = Ret (sh, l1) (sh, l1)). cbn [snd].
  set (sh1 := set_heap (<[f := set_ctx (if ended then Ended else Saved (on_cpu l)) g]> (heap sh)) sh).
  step_with (eq_refl : store f (set_ctx (if ended then Ended else Saved (on_cpu l1)) g) (sh, l1) = Ret tt (sh1, l1)).
  assert (fiber_at m (sh1, l1) = Ret gm (sh1, l1)) as E.
  { unfold fiber_at. cbn. rewrite lookup_insert_ne by done. by rewrite Hgm. }
  step_with E. clear E. rewrite Hc. reflexivity.
Qed.

Lemma fiber_at_run p g sh l : heap sh !! p = Some g -> fiber_at p (sh, l) = Ret g (sh, l).
Proof. intros H. unfold fiber_at. cbn [fst]. by rewrite H. Qed.

Lemma mark_yield_run st f g sh l :
  t_fiber l = Some f -> heap sh !! f = Some g ->
  mark_yield st (sh, l) = Ret f (set_heap (<[f := set_state st g]> (heap sh)) sh, l).
Proof.
  intros Ht Hf. unfold mark_yield, GetThis.
  assert (forall A (k : nat -> FM A), ((s ← get; match t_fiber s.2 with Some p => mret p | None =>
    p ← Fiber_main; s ← get; assert (bool_decide (t_fiber s.2 = Some p)) "t_fiber == main_fiber.get()";;
    on_tls (set_threadFiber (Some p));; mret p end) ≫= k) (sh, l) = k f (sh, l)) as E.
  { intros A k. apply bind_Ret. step_with (eq_refl : get (sh, l) = Ret (sh, l) (sh, l)). cbn [snd]. by rewrite Ht. }
  rewrite E. step_with (fiber_at_run f g sh l Hf). reflexivity.
Qed.

Lemma mark_end_run f g sh l b :
  heap sh !! f = Some g ->
  mark_end f b (sh, l) = Ret tt (set_heap (<[f := if b then set_state TERM (set_cb None g)
    else set_state EXCEPT g]> (heap sh)) sh, l).
Proof. intros Hf. unfold mark_end. step_with (fiber_at_run f g sh l Hf). by destruct b. Qed.

Lemma reset_run f cb g sh l :
  heap sh !! f = Some g -> m_stack g = true -> is_over (m_state g) = true ->
  reset f cb (sh, l) = Ret tt (set_heap (<[f := mkFiber (m_id g) (m_stacksize g) INIT (Entry MainFunc) true cb]>
    (heap sh)) sh, l).
Proof.
  intros Hf Hs Ho. unfold reset. step_with (fiber_at_run f g sh l Hf).
  step_with (assert_run (m_stack g) "m_stack" (sh, l) Hs).
  step_with (assert_run _ "m_state == TERM || m_state == EXCEPT || m_state == INIT" (sh, l) Ho).
  by rewrite Hs.
Qed.

(** ** Ownership *)

(** The fibers a thread's place in the loop holds. *)
Definition pc_fibers (p : PC) : list nat :=
  match p with
  | PFetched ft _ _ => option_list (ft_fiber ft)
  | PSwapIn f KFiber | PRun f KFiber | PYield f KFiber _ _ | PBack f KFiber | PAfter f KFiber => [f]
  | _ => []
  end.
Definition mains (l : Tls) : list nat :=
  match t_threadFiber l, t_mainFiber l with
  | Some c, Some m => if decide (c = m) then [m] else [c; m]
  | a, b => option_list a ++ option_list b
  end.
Definition slots (t : Thr) : list nat :=
  option_list (idle_fiber t) ++ option_list (cb_fiber t) ++ pc_fibers (pc t).
Definition owned (t : Thr) : list nat := mains (tls t) ++ slots t.
Definition queued (q : list FiberAndThread) : list nat :=
  flat_map (fun ft => option_list (ft_fiber ft)) q.
Definition owns (s : Scheduler) : list nat := flat_map owned (m_threads s) ++ queued (m_fibers s).

(** ** What holds of a thread; [au] is m_autoStop *)

Section thread.
Context (root : Z) (au : bool) (h : gmap nat Fiber) (t : Thr).

(** The context the root fiber was called from stays saved; another thread has
    one main fiber only. *)
Definition outer_ok : Prop :=
  if tid t =? root then
    exists c m, t_threadFiber (tls t) = Some c /\ t_mainFiber (tls t) = Some m /\ c <> m /\
      ctx_at h c (Saved (Some c))
  else t_threadFiber (tls t) = t_mainFiber (tls t).

Definition in_loop : Prop :=
  exists m, t_mainFiber (tls t) = Some m /\ t_fiber (tls t) = Some m /\ on_cpu (tls t) = Some m /\
    ctx_at h m Running /\ outer_ok.

Definition in_task (f : nat) (P : State -> bool) : Prop :=
  exists m g, t_mainFiber (tls t) = Some m /\ t_fiber (tls t) = Some f /\ on_cpu (tls t) = Some f /\
    ctx_at h m (Saved (Some m)) /\ outer_ok /\
    h !! f = Some g /\ m_stack g = true /\ m_ctx g = Running /\ P (m_state g) = true.

Definition idle_ok : Prop :=
  exists d g, idle_fiber t = Some d /\ h !! d = Some g /\ parked_fiber d g /\ m_state g <> EXCEPT /\
    (m_state g = TERM -> au = true).
(** Back from the idle fiber: an overriding [idle] may have left it as EXEC. *)
Definition idle_back : Prop :=
  exists d g, idle_fiber t = Some d /\ h !! d = Some g /\ m_stack g = true /\ m_state g <> EXCEPT /\
    (m_state g = TERM -> au = true) /\ (m_state g <> TERM -> resumable d g).
Definition slot_ok : Prop := match cb_fiber t with Some c => blank h c | None => True end.
Definition kind_ok (f : nat) (k : kind) : Prop :=
  match k with KFiber => slot_ok | KCb => cb_fiber t = Some f end.

Definition is_exec (st : State) : bool := bool_decide (st = EXEC).
Definition yielded (ended : bool) (st : State) : bool :=
  if ended then ended_state st else bool_decide (st = HOLD \/ st = READY).

Definition thr_ok : Prop :=
  match pc t with
  | PNotStarted => tid t = root /\ idle_fiber t = None /\ cb_fiber t = None /\
      exists c m g, t_threadFiber (tls t) = Some c /\ t_mainFiber (tls t) = Some m /\ c <> m /\
        t_fiber (tls t) = Some c /\ on_cpu (tls t) = Some c /\ ctx_at h c Running /\
        h !! m = Some g /\ m_state g = INIT /\ m_ctx g = Entry CallerMainFunc
  | PStart => idle_fiber t = None /\ cb_fiber t = None /\
      if tid t =? root then in_loop else tls t = tls_new
  | PTop => in_loop /\ idle_ok /\ slot_ok
  | PIdleBack => in_loop /\ idle_back /\ slot_ok
  | PFetched ft _ is_active => in_loop /\ idle_ok /\ slot_ok /\
      (forall f, ft_fiber ft = Some f -> parked h f) /\ (is_active = false -> ft = FT_reset)
  | PSwapIn f k => in_loop /\ idle_ok /\ kind_ok f k /\
      exists g, h !! f = Some g /\ parked_fiber f g /\ ended_state (m_state g) = false
  | PRun f k => idle_ok /\ kind_ok f k /\ in_task f is_exec
  | PYield f k cur ended => cur = f /\ idle_ok /\ kind_ok f k /\ in_task f (yielded ended)
  | PBack f k | PAfter f k => in_loop /\ idle_ok /\ kind_ok f k /\ parked h f
  | PIdle => slot_ok /\ exists d, idle_fiber t = Some d /\ in_task d is_exec
  | PExit => au = true /\ (in_loop \/ (on_cpu (tls t) = t_threadFiber (tls t) /\
      t_threadFiber (tls t) <> t_mainFiber (tls t)))
  end.
End thread.

(** The section of the loop in which a thread counts as active. *)
Definition cnt (t : Thr) : Z :=
  match pc t with
  | PFetched _ _ true | PSwapIn _ _ | PRun _ _ | PYield _ _ _ _ | PBack _ _ => 1
  | _ => 0
  end.
Definition count (ts : list Thr) : Z := foldr (fun t n => cnt t + n) 0 ts.

(** The caller's thread and [stop]. *)
Definition root_ok (s : Scheduler) : Prop :=
  match m_rootFiber s with
  | None => m_rootThread s = -1 /\ stop_pc s <> SCall /\ Forall (fun t => tid t <> -1) (m_threads s)
  | Some r => m_rootThread s <> -1 /\
    exists t0 rest, m_threads s = t0 :: rest /\ tid t0 = m_rootThread s /\
      Forall (fun t => tid t <> m_rootThread s) rest /\
      t_mainFiber (tls t0) = Some r /\
      match stop_pc s with
      | SNone | SFlags => pc t0 = PNotStarted
      | SCall => pc t0 <> PNotStarted /\ (pc t0 = PExit -> on_cpu (tls t0) = t_mainFiber (tls t0))
      | _ => True
      end
  end.

Definition task_ok (h : gmap nat Fiber) (ft : FiberAndThread) : Prop :=
  ft_some ft = true /\ forall f, ft_fiber ft = Some f -> parked h f.
Definition affine (e : Z * FiberAndThread) : Prop := ft_thread e.2 = -1 \/ ft_thread e.2 = e.1.

Record Inv (s : Scheduler) : Prop := mkInv {
  inv_nodup : NoDup (owns s);
  inv_owned : forall p, p ∈ owns s -> (p < next_addr (shared s))%nat;
  inv_heap : forall p, is_Some (heap (shared s) !! p) -> (p < next_addr (shared s))%nat;
  inv_thr : Forall (thr_ok (m_rootThread s) (m_autoStop s) (heap (shared s))) (m_threads s);
  inv_queue : Forall (task_ok (heap (shared s))) (m_fibers s);
  inv_free : forall p g, heap (shared s) !! p = Some g -> m_stack g = true -> p ∉ owns s ->
    parked_fiber p g;
  inv_active : m_activeThreadCount s = u64 (count (m_threads s));
  inv_log : scheduled s ≡ₚ map snd (taken s) ++ m_fibers s;
  inv_affine : Forall affine (taken s);
  inv_root : root_ok s
}.

(** ** Framing *)

Lemma parked_frame h h' p : h' !! p = h !! p -> parked h p -> parked h' p.
Proof. unfold parked. by intros ->. Qed.

(** A thread's part of the invariant depends only on the fibers it owns. *)
Section frame.
Context (root : Z) (au au' : bool) (h h' : gmap nat Fiber) (t : Thr).
Hypothesis Hau : au = true -> au' = true.
Hypothesis F : forall p, p ∈ owned t -> h' !! p = h !! p.

Lemma frame_mains : forall c, c ∈ mains (tls t) -> h' !! c = h !! c.
Proof. intros c Hc. apply F, elem_of_app. by left. Qed.
Lemma frame_slots : forall c, c ∈ slots t -> h' !! c = h !! c.
Proof. intros c Hc. apply F, elem_of_app. by right. Qed.
Lemma frame_main : forall m, t_mainFiber (tls t) = Some m -> h' !! m = h !! m.
Proof. intros m Hm. apply frame_mains. unfold mains. rewrite Hm. destruct (t_threadFiber (tls t)); cbn;
    [case_decide|]; set_solver. Qed.
Lemma frame_current : forall c, t_threadFiber (tls t) = Some c -> h' !! c = h !! c.
Proof. intros c Hc. apply frame_mains. unfold mains. rewrite Hc. destruct (t_mainFiber (tls t)); cbn;
    [case_decide|]; set_solver. Qed.
Lemma frame_idle : forall d, idle_fiber t = Some d -> h' !! d = h !! d.
Proof. intros d Hd. apply frame_slots. unfold slots. rewrite Hd. cbn. set_solver. Qed.
Lemma frame_cb : forall d, cb_fiber t = Some d -> h' !! d = h !! d.
Proof. intros d Hd. apply frame_slots. unfold slots. rewrite Hd. cbn. set_solver. Qed.
Lemma frame_pc : forall d, d ∈ pc_fibers (pc t) -> h' !! d = h !! d.
Proof. intros d Hd. apply frame_slots. unfold slots. set_solver. Qed.
Lemma frame_outer : outer_ok root h t -> outer_ok root h' t.
Proof. unfold outer_ok. destruct (tid t =? root); [|done].
  intros (c & m & Hc & Hm & Hne & g & Hg & Hs). exists c, m. repeat split; try done.
  exists g. by rewrite frame_current. Qed.
Lemma frame_loop : in_loop root h t -> in_loop root h' t.
Proof. intros (m & Hm & Ht & Hc & (g & Hg & Hs) & Ho). exists m. repeat split; try done; [|by apply frame_outer].
  exists g. by rewrite frame_main. Qed.
Lemma frame_task : forall f P, h' !! f = h !! f -> in_task root h t f P -> in_task root h' t f P.
Proof. intros f P E (m & g & Hm & Ht & Hc & (gm & Hgm & Hs) & Ho & Hf & Hr).
  exists m, g. rewrite E. repeat split; try done; [exists gm; by rewrite frame_main|by apply frame_outer|apply Hr..]. Qed.
Lemma frame_idle_ok : idle_ok au h t -> idle_ok au' h' t.
Proof. intros (d & g & Hd & Hg & Hr1 & Hr2 & Hr3). exists d, g. rewrite frame_idle by done. repeat split; try done; [apply Hr1..|].
  by intros ?%Hr3%Hau. Qed.
Lemma frame_idle_back : idle_back au h t -> idle_back au' h' t.
Proof. intros (d & g & Hd & Hg & Hr1 & Hr2 & Hr3 & Hr4). exists d, g. rewrite frame_idle by done. repeat split; try done.
  by intros ?%Hr3%Hau. Qed.
Lemma frame_slot_ok : slot_ok h t -> slot_ok h' t.
Proof. unfold slot_ok, blank. destruct (cb_fiber t) as [c|] eqn:Hc; [|done]. by rewrite (frame_cb c). Qed.
Lemma frame_kind f k : kind_ok h t f k -> kind_ok h' t f k.
Proof. destruct k; [apply frame_slot_ok|done]. Qed.

Lemma thr_ok_frame : thr_ok root au h t -> thr_ok root au' h' t.
Proof.
  pose proof frame_pc as Fp. unfold thr_ok. destruct (pc t) as [| | |ft tk a|f k|f k|f k cur ended|f k|f k| | |] eqn:Epc; cbn in Fp.
  - intros (Hr & Hi & Hb & c & m & g & Hc & Hm & Hne & Ht & Ho & (gc & Hgc & Hx) & Hg & Hst).
    repeat split; try done. exists c, m, g. rewrite frame_main by done. repeat split; try done; [|apply Hst..].
    exists gc. by rewrite frame_current.
  - destruct (tid t =? root); [|done]. intros (Hi & Hb & Hl). by repeat split; [..|apply frame_loop].
  - intros (Hl & Hi & Hs). by repeat split; [apply frame_loop|apply frame_idle_ok|apply frame_slot_ok].
  - intros (Hl & Hi & Hs & Hp & Ha). repeat split; [by apply frame_loop|by apply frame_idle_ok|by apply frame_slot_ok| |done].
    intros f Hf. apply (parked_frame h); [|by apply Hp]. apply Fp. rewrite Hf. cbn. set_solver.
  - intros (Hl & Hi & Hk & g & Hg & Hr). repeat split; [by apply frame_loop|by apply frame_idle_ok|by apply frame_kind|].
    exists g. split; [|done]. destruct k; [rewrite Fp; [done|set_solver]|by rewrite frame_cb].
  - intros (Hi & Hk & Ht). repeat split; [by apply frame_idle_ok|by apply frame_kind|]. apply frame_task; [|done].
    destruct k; [apply Fp; set_solver|by apply frame_cb].
  - intros (-> & Hi & Hk & Ht). repeat split; [by apply frame_idle_ok|by apply frame_kind|]. apply frame_task; [|done].
    destruct k; [apply Fp; set_solver|by apply frame_cb].
  - intros (Hl & Hi & Hk & Hp). repeat split; [by apply frame_loop|by apply frame_idle_ok|by apply frame_kind|].
    apply (parked_frame h); [|done]. destruct k; [apply Fp; set_solver|by apply frame_cb].
  - intros (Hl & Hi & Hk & Hp). repeat split; [by apply frame_loop|by apply frame_idle_ok|by apply frame_kind|].
    apply (parked_frame h); [|done]. destruct k; [apply Fp; set_solver|by apply frame_cb].
  - intros (Hs & d & Hd & Ht). split; [by apply frame_slot_ok|]. exists d. split; [done|]. apply frame_task; [|done]. by apply frame_idle.
  - intros (Hl & Hi & Hs). by repeat split; [apply frame_loop|apply frame_idle_back|apply frame_slot_ok].
  - intros [Ha [Hl|?]]; (split; [by apply Hau|]); [left; by apply frame_loop|by right].
Qed.
End frame.

(** ** One step changes what its thread owns *)

Lemma count_app a b : count (a ++ b) = count a + count b.
Proof. unfold count. induction a as [|t a IH]; cbn [app foldr]; [lia|rewrite IH; lia]. Qed.

Lemma owns_split s l1 ts l2 :
  m_threads s = l1 ++ ts ++ l2 ->
  owns s ≡ₚ (flat_map owned ts ++ queued (m_fibers s)) ++ (flat_map owned l1 ++ flat_map owned l2).
Proof. intros E. unfold owns. rewrite E, !flat_map_app. solve_Permutation. Qed.

Lemma queued_in ft q f : ft ∈ q -> ft_fiber ft = Some f -> f ∈ queued q.
Proof.
  intros Hin Hf. unfold queued. apply list_elem_of_In, in_flat_map. exists ft.
  split; [by apply list_elem_of_In|]. rewrite Hf. by left.
Qed.

(** Other threads, and what they own, are as before. *)
Definition kept (i n : nat) (s s' : Scheduler) : Prop :=
  forall j t, (j < i \/ i + n <= j)%nat -> m_threads s !! j = Some t ->
    m_threads s' !! j = Some t /\ forall p, p ∈ owned t -> heap (shared s') !! p = heap (shared s) !! p.

Lemma kept_refl i n s : kept i n s s.
Proof. done. Qed.

Lemma kept_all i i' n s s' : kept i 0 s s' -> kept i' n s s'.
Proof. intros H j t _ Hj. apply H; [lia|done]. Qed.

(** Threads that a step does not replace keep what they own. *)
Lemma kept_update s s' l1 ts ts' l2 :
  m_threads s = l1 ++ ts ++ l2 -> m_threads s' = l1 ++ ts' ++ l2 -> (length ts' = length ts \/ l2 = []) ->
  (forall p, p ∈ flat_map owned l1 ++ flat_map owned l2 -> heap (shared s') !! p = heap (shared s) !! p) ->
  kept (length l1) (length ts) s s'.
Proof.
  intros E E' Hlen Nown j t Hj Ht. rewrite E in Ht. rewrite E'.
  assert (Hx : exists l, (l = l1 \/ l = l2) /\ t ∈ l /\ (l1 ++ ts' ++ l2) !! j = Some t).
  { destruct Hj as [Hj|Hj].
    - rewrite lookup_app_l in Ht by done. exists l1. rewrite lookup_app_l by done.
      split; [by left|]. split; [|done]. by apply list_elem_of_lookup_2 in Ht.
    - rewrite lookup_app_r in Ht by lia. rewrite lookup_app_r in Ht by lia.
      destruct Hlen as [Hlen| ->]; [|by rewrite lookup_nil in Ht].
      exists l2. rewrite lookup_app_r by lia. rewrite lookup_app_r by lia. rewrite Hlen.
      split; [by right|]. split; [|done]. by apply list_elem_of_lookup_2 in Ht. }
  destruct Hx as (l & Hl & Htl & Hlk). split; [done|]. intros p Hp. apply Nown.
  assert (Hpl : p ∈ flat_map owned l) by (apply list_elem_of_In, in_flat_map; exists t; by split; apply list_elem_of_In).
  rewrite elem_of_app. destruct Hl as [-> | ->]; tauto.
Qed.

(** The fibers that [claimed] names had no owner, those of [released] have none
    now; what a step does not own it does not change. *)
Lemma inv_update s s' l1 ts ts' l2 claimed released :
  Inv s ->
  m_threads s = l1 ++ ts ++ l2 -> m_threads s' = l1 ++ ts' ++ l2 ->
  (length ts' = length ts \/ l2 = []) ->
  m_rootThread s' = m_rootThread s -> (m_autoStop s = true -> m_autoStop s' = true) -> root_ok s' ->
  flat_map owned ts' ++ queued (m_fibers s') ++ released ≡ₚ
    claimed ++ flat_map owned ts ++ queued (m_fibers s) ->
  NoDup claimed -> (forall p, p ∈ claimed -> (p ∉ owns s) /\ (p < next_addr (shared s'))%nat) ->
  (next_addr (shared s) <= next_addr (shared s'))%nat ->
  (forall p, is_Some (heap (shared s') !! p) -> (p < next_addr (shared s'))%nat) ->
  (forall p, p ∉ flat_map owned ts -> p ∉ claimed ->
     heap (shared s') !! p = heap (shared s) !! p) ->
  Forall (thr_ok (m_rootThread s) (m_autoStop s') (heap (shared s'))) ts' ->
  Forall (parked (heap (shared s'))) released ->
  (forall ft, ft ∈ m_fibers s' -> ft ∈ m_fibers s \/ task_ok (heap (shared s')) ft) ->
  m_activeThreadCount s' = u64 (m_activeThreadCount s + (count ts' - count ts)) ->
  scheduled s' ++ map snd (taken s) ++ m_fibers s ≡ₚ
    scheduled s ++ map snd (taken s') ++ m_fibers s' ->
  Forall affine (taken s') ->
  Inv s' /\ kept (length l1) (length ts) s s'.
Proof.
  intros HI E E' Hlen Hroot Hau Hrok HP Hnc Hc Hnext Hdom Hframe Hthr Hrel Hq Hact Hlog Haff.
  destruct HI as [I1 I2 I3 I4 I5 I6 I7 I8 I9 I10].
  pose proof (owns_split s l1 ts l2 E) as P1. pose proof (owns_split s' l1 ts' l2 E') as P2.
  set (others := flat_map owned l1 ++ flat_map owned l2) in *.
  assert (P : owns s' ++ released ≡ₚ claimed ++ owns s).
  { rewrite P1, P2. transitivity ((flat_map owned ts' ++ queued (m_fibers s') ++ released) ++ others);
      [solve_Permutation|]. rewrite HP. solve_Permutation. }
  assert (ND : NoDup (claimed ++ owns s)).
  { apply NoDup_app. repeat split; [done| |done]. intros p Hp. by apply Hc. }
  assert (ND' : NoDup (owns s' ++ released)) by (by rewrite P).
  assert (Hin : forall p, p ∈ owns s' ++ released <-> p ∈ claimed \/ p ∈ owns s).
  { intros p. rewrite P. apply elem_of_app. }
  assert (Nown : forall p, p ∈ others \/ p ∈ queued (m_fibers s) ->
    heap (shared s') !! p = heap (shared s) !! p).
  { intros p Hp. rewrite P1 in I1. rewrite <- app_assoc in I1.
    apply NoDup_app in I1 as (_ & Hd & _).
    apply Hframe.
    - intros Hx. apply (Hd p Hx). apply elem_of_app. tauto.
    - intros [Hx _]%Hc. apply Hx. rewrite P1. rewrite !elem_of_app. tauto. }
  assert (Hbound : forall p, p ∈ owns s' ++ released -> (p < next_addr (shared s'))%nat).
  { intros p [Hp|Hp]%Hin; [by apply Hc|]. eapply Nat.lt_le_trans; [by apply I2|done]. }
  split; [|eapply kept_update; try done; intros p Hp; apply Nown; by left].
  constructor; try done.
  - by apply NoDup_app in ND' as [? _].
  - intros p Hp. apply Hbound, elem_of_app. by left.
  - rewrite E', Hroot, !Forall_app. rewrite E, !Forall_app in I4. destruct I4 as (F1 & _ & F2).
    assert (Hf : forall l, (forall p, p ∈ flat_map owned l -> p ∈ others) ->
      Forall (thr_ok (m_rootThread s) (m_autoStop s) (heap (shared s))) l ->
      Forall (thr_ok (m_rootThread s) (m_autoStop s') (heap (shared s'))) l).
    { intros l Hl F. apply Forall_forall. intros t Ht. rewrite Forall_forall in F.
      apply (thr_ok_frame _ (m_autoStop s) _ (heap (shared s))); [done| |by apply F, Ht]. intros p Hp. apply Nown. left. apply Hl.
      apply list_elem_of_In, in_flat_map. exists t.
      by split; apply list_elem_of_In. }
    split; [|split]; [apply Hf; [|done]|done|apply Hf; [|done]];
      intros p Hp; unfold others; rewrite elem_of_app; tauto.
  - apply Forall_forall. intros ft Hft. destruct (Hq ft Hft) as [Hold|]; [|done].
    rewrite Forall_forall in I5. destruct (I5 ft Hold) as [Hs Hp].
    split; [done|]. intros f Hf. apply (parked_frame (heap (shared s))); [|by apply Hp].
    apply Nown. right. by eapply queued_in.
  - intros p g Hg Hs Hp.
    destruct (decide (p ∈ released)) as [Hr|Hr].
    { rewrite Forall_forall in Hrel. destruct (Hrel p Hr) as (g' & Hg' & Hpk). congruence. }
    assert (Hn : p ∉ owns s' ++ released) by (rewrite elem_of_app; tauto).
    rewrite Hin in Hn. apply I6; [|done|tauto]. rewrite <- Hg. symmetry. apply Hframe; [|tauto].
    intros Hx. apply Hn. right. rewrite P1, !elem_of_app. tauto.
  - rewrite Hact, I7, E, E', !count_app. unfold wrap. rewrite Zplus_mod_idemp_l. f_equal. lia.
  - assert (scheduled s' ++ (map snd (taken s) ++ m_fibers s) ≡ₚ
      (map snd (taken s') ++ m_fibers s') ++ (map snd (taken s) ++ m_fibers s)) as X.
    { rewrite Hlog, I8. solve_Permutation. }
    by apply Permutation_app_inv_r in X.
Qed.
