(* ===== verification/SchedulerSafe.v ===== *)
(** Every step of the scheduler keeps its invariant and crashes nowhere. *)
From S2P Require Import Prelude.
From stdpp Require Import sorting.
From S2P Require Import Fiber Scheduler SchedulerInv.
Open Scope Z_scope.

(** ** Running a step on the thread in the middle *)

Lemma lookup_mid {A} (l1 : list A) x l2 : (l1 ++ x :: l2) !! length l1 = Some x.
Proof. by rewrite list_lookup_middle. Qed.

Lemma alter_mid {A} (f : A -> A) (l1 : list A) x l2 :
  alter f (length l1) (l1 ++ x :: l2) = l1 ++ f x :: l2.
Proof. rewrite alter_app_r_alt by lia. by rewrite Nat.sub_diag. Qed.

Lemma set_thread_mid s l1 t l2 f :
  m_threads s = l1 ++ t :: l2 ->
  set_thread (length l1) f s = Ret tt (set_threads (l1 ++ f t :: l2) s).
Proof. intros E. unfold set_thread, modify. by rewrite E, alter_mid. Qed.

Lemma goto_mid s l1 t l2 p :
  m_threads s = l1 ++ t :: l2 ->
  goto (length l1) p s = Ret tt (set_threads (l1 ++ set_pc p t :: l2) s).
Proof. apply set_thread_mid. Qed.

Lemma on_thread_mid {A} s l1 t l2 (m : FM A) a sh l :
  m_threads s = l1 ++ t :: l2 -> m (shared s, tls t) = Ret a (sh, l) ->
  on_thread (length l1) m s = Ret a (set_threads (l1 ++ set_tls l t :: l2) (set_shared sh s)).
Proof. intros E Hm. unfold on_thread. by rewrite E, lookup_mid, Hm, alter_mid. Qed.

Lemma on_thread_pure {A} s l1 t l2 (m : FM A) a :
  m_threads s = l1 ++ t :: l2 -> m (shared s, tls t) = Ret a (shared s, tls t) ->
  on_thread (length l1) m s = Ret a s.
Proof.
  intros E Hm. rewrite (on_thread_mid s l1 t l2 m a (shared s) (tls t) E Hm).
  assert (set_tls (tls t) t = t) as -> by (by destruct t). rewrite <- E. by destruct s.
Qed.

Lemma deref_run x p sh l : x = Some p -> deref x (sh, l) = Ret p (sh, l).
Proof. by intros ->. Qed.

Lemma stopping_true extra s :
  stopping extra s = true ->
  m_autoStop s = true /\ m_stopping s = true /\ m_fibers s = [] /\ m_activeThreadCount s = 0.
Proof.
  unfold stopping. destruct extra, (m_autoStop s), (m_stopping s), (m_fibers s); try done.
  by intros ?%Z.eqb_eq.
Qed.

(** ** Owners are distinct *)

Lemma inv_owned_nodup s l1 t l2 : Inv s -> m_threads s = l1 ++ t :: l2 -> NoDup (owned t).
Proof.
  intros HI E. pose proof (inv_nodup s HI) as N. unfold owns in N.
  rewrite E, flat_map_app in N. cbn [flat_map] in N.
  apply NoDup_app in N as (N & _). apply NoDup_app in N as (_ & _ & N). by apply NoDup_app in N as (N & _).
Qed.

Lemma main_in l m : t_mainFiber l = Some m -> m ∈ mains l.
Proof. intros H. unfold mains. rewrite H. destruct (t_threadFiber l); cbn; [case_decide|]; set_solver. Qed.
Lemma thread_in l c : t_threadFiber l = Some c -> c ∈ mains l.
Proof. intros H. unfold mains. rewrite H. destruct (t_mainFiber l); cbn; [case_decide|]; set_solver. Qed.
Lemma idle_in t d : idle_fiber t = Some d -> d ∈ slots t.
Proof. intros H. unfold slots. rewrite H. cbn. set_solver. Qed.
Lemma cb_in t d : cb_fiber t = Some d -> d ∈ slots t.
Proof. intros H. unfold slots. rewrite H. cbn. set_solver. Qed.
Lemma pc_in t d : d ∈ pc_fibers (pc t) -> d ∈ slots t.
Proof. intros H. unfold slots. set_solver. Qed.
Lemma slot_owned t d : d ∈ slots t -> d ∈ owned t.
Proof. intros H. apply elem_of_app. by right. Qed.
Lemma main_owned t m : t_mainFiber (tls t) = Some m -> m ∈ owned t.
Proof. intros H. apply elem_of_app. left. by apply main_in. Qed.

Lemma main_ne t m d : NoDup (owned t) -> t_mainFiber (tls t) = Some m -> d ∈ slots t -> m <> d.
Proof. intros (_ & N & _)%NoDup_app Hm Hd ->. by apply (N d (main_in _ _ Hm)). Qed.
Lemma thread_ne t m d : NoDup (owned t) -> t_threadFiber (tls t) = Some m -> d ∈ slots t -> m <> d.
Proof. intros (_ & N & _)%NoDup_app Hm Hd ->. by apply (N d (thread_in _ _ Hm)). Qed.
Lemma idle_cb_ne t c d : NoDup (owned t) -> idle_fiber t = Some d -> cb_fiber t = Some c -> d <> c.
Proof.
  intros (_ & _ & N)%NoDup_app Hd Hc ->. unfold slots in N. rewrite Hd, Hc in N. cbn in N.
  apply NoDup_cons in N as [N _]. apply N. set_solver.
Qed.
Lemma idle_pc_ne t f d : NoDup (owned t) -> idle_fiber t = Some d -> f ∈ pc_fibers (pc t) -> d <> f.
Proof.
  intros (_ & _ & N)%NoDup_app Hd Hf ->. unfold slots in N. rewrite Hd in N. cbn in N.
  apply NoDup_cons in N as [N _]. apply N. set_solver.
Qed.
Lemma cb_pc_ne t f c : NoDup (owned t) -> cb_fiber t = Some c -> f ∈ pc_fibers (pc t) -> c <> f.
Proof.
  intros (_ & _ & N)%NoDup_app Hd Hf ->. unfold slots in N. rewrite Hd in N. cbn in N.
  apply NoDup_app in N as (_ & _ & N). apply NoDup_cons in N as [N _]. by apply N.
Qed.

(** ** Entering and leaving a fiber *)

Lemma enter_task root sh t f g :
  in_loop root (heap sh) t -> NoDup (owned t) -> f ∈ slots t ->
  heap sh !! f = Some g -> parked_fiber f g -> ended_state (m_state g) = false ->
  exists h' l', swapIn f (sh, tls t) = Ret tt (set_heap h' sh, l') /\
    t_mainFiber l' = t_mainFiber (tls t) /\ t_threadFiber l' = t_threadFiber (tls t) /\
    in_task root h' (set_tls l' t) f is_exec /\
    (forall p, p <> f -> t_mainFiber (tls t) <> Some p -> h' !! p = heap sh !! p) /\
    (forall p, is_Some (h' !! p) -> is_Some (heap sh !! p)).
Proof.
  intros (m & Hm & Ht & Hc & (gm & Hgm & Hcm) & Ho) ND Hf Hg [Hs Hp] He.
  pose proof (main_ne t m f ND Hm Hf) as Hne.
  assert (Hst : m_state g <> EXEC) by (intros E; by rewrite E in Hp).
  assert (Hr : resumable f g) by (by destruct (m_state g)).
  pose proof (swapIn_run f m g gm sh (tls t) Hg Hst Hr Hm Hgm Hne) as E.
  eexists _, _. split; [exact E|]. split; [done|]. split; [done|]. rewrite Hc. split; [|split].
  - exists m, (set_ctx Running (set_state EXEC g)). repeat split; try done.
    + exists (set_ctx (Saved (Some m)) gm). split; [|done].
      rewrite lookup_insert_ne by done. by rewrite lookup_insert_eq.
    + unfold outer_ok in *. cbn [tid set_tls tls t_threadFiber t_mainFiber set_on_cpu set_fiber].
      destruct (tid t =? root); [|done].
      destruct Ho as (c & m' & Hcc & Hmm & Hcm' & gc & Hgc & Hsc). rewrite Hm in Hmm. injection Hmm as <-.
      exists c, m. repeat split; try done. exists gc. split; [|done].
      pose proof (thread_ne t c f ND Hcc Hf).
      rewrite lookup_insert_ne by done. rewrite lookup_insert_ne by done. by rewrite lookup_insert_ne by done.
    + by rewrite lookup_insert_eq.
  - intros p Hpf Hpm. rewrite lookup_insert_ne by done. rewrite lookup_insert_ne by congruence.
    by rewrite lookup_insert_ne by done.
  - intros p. destruct (decide (p = f)) as [->|]; [by rewrite Hg|]. destruct (decide (p = m)) as [->|]; [by rewrite Hgm|].
    rewrite lookup_insert_ne by done. rewrite lookup_insert_ne by done. by rewrite lookup_insert_ne by done.
Qed.

Lemma leave_task root sh t f P ended :
  in_task root (heap sh) t f P -> NoDup (owned t) -> f ∈ slots t ->
  exists g h' l', heap sh !! f = Some g /\ m_stack g = true /\ P (m_state g) = true /\
    swapOut_from ended f (sh, tls t) = Ret tt (set_heap h' sh, l') /\
    t_mainFiber l' = t_mainFiber (tls t) /\ t_threadFiber l' = t_threadFiber (tls t) /\
    in_loop root h' (set_tls l' t) /\
    h' !! f = Some (set_ctx (if ended then Ended else Saved (Some f)) g) /\
    (forall p, p <> f -> t_mainFiber (tls t) <> Some p -> h' !! p = heap sh !! p) /\
    (forall p, is_Some (h' !! p) -> is_Some (heap sh !! p)).
Proof.
  intros (m & g & Hm & Ht & Hc & (gm & Hgm & Hcm) & Ho & Hg & Hs & Hr & HP) ND Hf.
  pose proof (main_ne t m f ND Hm Hf) as Hne.
  pose proof (swapOut_run ended f m g gm sh (tls t) Hg Hm Hgm Hcm Hne) as E.
  eexists g, _, _. split; [done|]. split; [done|]. split; [done|]. split; [exact E|].
  split; [done|]. split; [done|]. rewrite Hc. split; [|split; [|split]].
  - exists m. repeat split; try done.
    + exists (set_ctx Running gm). by rewrite lookup_insert_eq.
    + unfold outer_ok in *. cbn [tid set_tls tls t_threadFiber t_mainFiber set_on_cpu set_fiber].
      destruct (tid t =? root); [|done].
      destruct Ho as (c & m' & Hcc & Hmm & Hcm' & gc & Hgc & Hsc). rewrite Hm in Hmm. injection Hmm as <-.
      exists c, m. repeat split; try done. exists gc. split; [|done].
      pose proof (thread_ne t c f ND Hcc Hf).
      rewrite lookup_insert_ne by done. by rewrite lookup_insert_ne by done.
  - rewrite lookup_insert_ne by done. by rewrite lookup_insert_eq.
  - intros p Hpf Hpm. rewrite lookup_insert_ne by congruence. by rewrite lookup_insert_ne by done.
  - intros p. destruct (decide (p = f)) as [->|]; [by rewrite Hg|]. destruct (decide (p = m)) as [->|]; [by rewrite Hgm|].
    rewrite lookup_insert_ne by done. by rewrite lookup_insert_ne by done.
Qed.

(** ** New fibers *)

Definition fresh_fiber (g : Fiber) : Prop :=
  m_stack g = true /\ m_state g = INIT /\ m_ctx g = Entry MainFunc.

Lemma Fiber_new_run ss cb sz sh l :
  exists g i n, fresh_fiber g /\
    Fiber_new ss cb sz false (sh, l) =
      Ret (next_addr sh) (mkFiberState (<[next_addr sh := g]> (heap sh)) (S (next_addr sh)) i n, l).
Proof. eexists _, _, _. split; [|reflexivity]. done. Qed.

Lemma GetThis_new_run sh :
  exists g i n, m_ctx g = Running /\
    GetThis (sh, tls_new) =
      Ret (next_addr sh) (mkFiberState (<[next_addr sh := g]> (heap sh)) (S (next_addr sh)) i n,
        mkTls (Some (next_addr sh)) (Some (next_addr sh)) None (Some (next_addr sh))).
Proof.
  eexists (mkFiber 0 0 EXEC Running false None), _, _. split; [done|]. unfold GetThis.
  assert (Hb : bool_decide (Some (next_addr sh) = Some (next_addr sh)) = true) by by apply bool_decide_eq_true.
  unfold Fiber_main, alloc, SetThis, on_tls, count_fiber, on_shared, modify, get, assert, mret, M_ret, mbind, M_bind.
  cbn. rewrite Hb. reflexivity.
Qed.

Lemma next_free s p : Inv s -> (next_addr (shared s) <= p)%nat -> (p ∉ owns s) /\ heap (shared s) !! p = None.
Proof.
  intros HI Hp. split; [intros H%(inv_owned s HI); lia|].
  apply eq_None_not_Some. intros H%(inv_heap s HI). lia.
Qed.

Lemma owned_owns s l1 t l2 p : m_threads s = l1 ++ t :: l2 -> p ∈ owned t -> p ∈ owns s.
Proof. intros E H. unfold owns. rewrite E, flat_map_app. cbn [flat_map]. set_solver. Qed.

(** ** Taking a task *)

Lemma fetch_spec id h q :
  Forall (fun ft => ft_some ft = true) q ->
  exists r rest tickle_me, fetch id h q = Some (r, rest, tickle_me) /\
    match r with
    | Some ft => exists a b, q = a ++ ft :: b /\ rest = a ++ b /\ (ft_thread ft = -1 \/ ft_thread ft = id)
    | None => rest = q
    end.
Proof.
  induction q as [|it q IH]; intros F; [by exists None, [], false|]. apply Forall_cons in F as [Hit F].
  destruct (IH F) as (r & rest & tm & E & Hr). cbn [fetch]. rewrite E, Hit. cbn [negb].
  assert (Hskip : match r with
    | Some ft => exists a b, it :: q = a ++ ft :: b /\ it :: rest = a ++ b /\ (ft_thread ft = -1 \/ ft_thread ft = id)
    | None => it :: rest = it :: q
    end).
  { destruct r as [ft|]; [|by rewrite Hr]. destruct Hr as (a & b & -> & -> & Ha). by exists (it :: a), b. }
  destruct (negb (ft_thread it =? -1) && negb (ft_thread it =? id)) eqn:Hth; [by exists r, (it :: rest), true|].
  destruct (match ft_fiber it with Some f => bool_decide (state_at h f = Some EXEC) | None => false end);
    [by exists r, (it :: rest), tm|].
  exists (Some it), q, false. split; [done|]. exists [], q. split; [done|]. split; [done|]. lia.
Qed.

(** ** The invariant after a step of one thread *)

Lemma slot_main_ne t d : NoDup (owned t) -> d ∈ slots t -> d ∉ mains (tls t).
Proof. intros (_ & N & _)%NoDup_app Hd Hx. by apply (N d Hx). Qed.

Lemma loop_frame root h h' t t' :
  tid t' = tid t -> tls t' = tls t -> (forall p, p ∈ mains (tls t) -> h' !! p = h !! p) ->
  in_loop root h t -> in_loop root h' t'.
Proof.
  intros Ei Et F (m & Hm & Ht & Hc & (g & Hg & Hs) & Ho). exists m. rewrite Et. repeat split; try done.
  - exists g. rewrite F; [done|]. by apply main_in.
  - unfold outer_ok in *. rewrite Ei, Et. destruct (tid t =? root); [|done].
    destruct Ho as (c & m' & Hcc & Hmm & Hne & gc & Hgc & Hsc). exists c, m'. repeat split; try done.
    exists gc. rewrite F; [done|]. by apply thread_in.
Qed.

Lemma idle_frame au h h' t t' :
  idle_fiber t' = idle_fiber t -> (forall d, idle_fiber t = Some d -> h' !! d = h !! d) ->
  idle_ok au h t -> idle_ok au h' t'.
Proof. intros E F (d & g & Hd & Hg & Hr). exists d, g. by rewrite E, F. Qed.

Lemma slot_frame h h' t t' :
  cb_fiber t' = cb_fiber t -> (forall d, cb_fiber t = Some d -> h' !! d = h !! d) ->
  slot_ok h t -> slot_ok h' t'.
Proof.
  intros E F. unfold slot_ok, blank. rewrite E. destruct (cb_fiber t) as [c|]; [|done]. by rewrite (F c).
Qed.

Lemma kind_frame h h' t t' f k :
  cb_fiber t' = cb_fiber t -> (forall d, k = KFiber -> cb_fiber t = Some d -> h' !! d = h !! d) ->
  kind_ok h t f k -> kind_ok h' t' f k.
Proof.
  intros E F. destruct k; cbn [kind_ok]; [|by rewrite E].
  apply slot_frame; [done|]. intros d. by apply F.
Qed.

Lemma kind_in h t f k :
  kind_ok h t f k -> (k = KFiber -> f ∈ pc_fibers (pc t)) -> f ∈ slots t.
Proof. destruct k; cbn; intros H Hp; [by apply pc_in, Hp|by apply cb_in]. Qed.

Lemma root_ok_step s s' l1 t t' l2 :
  root_ok s -> m_threads s = l1 ++ t :: l2 -> m_threads s' = l1 ++ t' :: l2 ->
  m_rootThread s' = m_rootThread s -> m_rootFiber s' = m_rootFiber s -> stop_pc s' = stop_pc s ->
  tid t' = tid t ->
  (t_mainFiber (tls t') = t_mainFiber (tls t) \/ tid t <> m_rootThread s) ->
  pc t <> PNotStarted -> pc t' <> PNotStarted ->
  (pc t' = PExit -> on_cpu (tls t') = t_mainFiber (tls t')) ->
  root_ok s'.
Proof.
  intros Hr E E' Er Ef Es Et Hm Hp Hp' Hx. unfold root_ok in *. rewrite Ef, Er, Es.
  destruct (m_rootFiber s) as [r|].
  - destruct Hr as (Hne & t0 & rest & Eq & H0 & Hrest & Hmain & Hst). split; [done|].
    rewrite E in Eq. destruct l1 as [|a l1]; injection Eq as <- <-.
    + exists t', l2. rewrite E'. split; [done|]. rewrite Et. split; [done|]. split; [done|].
      split; [destruct Hm as [->|]; [done|contradiction]|].
      destruct (stop_pc s); try done.
    + exists a, (l1 ++ t' :: l2). rewrite E'. split; [done|]. split; [done|]. split; [|done].
      apply Forall_app. apply Forall_app in Hrest as [F1 F2]. split; [done|].
      apply Forall_cons in F2 as [F2 F3]. constructor; [by rewrite Et|done].
  - destruct Hr as (H1 & H2 & H3). repeat split; try done. rewrite E'. rewrite E in H3.
    apply Forall_app in H3 as [F1 F2]. apply Forall_app. split; [done|].
    apply Forall_cons in F2 as [F2 F3]. constructor; [by rewrite Et|done].
Qed.

(** A step that neither queues nor takes a task. *)
Lemma inv_move s s' l1 t t' l2 :
  Inv s -> m_threads s = l1 ++ t :: l2 -> m_threads s' = l1 ++ t' :: l2 ->
  m_rootThread s' = m_rootThread s /\ m_rootFiber s' = m_rootFiber s /\ stop_pc s' = stop_pc s /\
  m_fibers s' = m_fibers s /\ scheduled s' = scheduled s /\ taken s' = taken s /\
  m_autoStop s' = m_autoStop s /\ next_addr (shared s') = next_addr (shared s) ->
  tid t' = tid t -> t_mainFiber (tls t') = t_mainFiber (tls t) ->
  pc t <> PNotStarted -> pc t' <> PNotStarted ->
  (pc t' = PExit -> on_cpu (tls t') = t_mainFiber (tls t')) ->
  (exists released, owned t' ++ released ≡ₚ owned t /\ Forall (parked (heap (shared s'))) released) ->
  (forall p, p ∉ owned t -> heap (shared s') !! p = heap (shared s) !! p) ->
  (forall p, is_Some (heap (shared s') !! p) -> is_Some (heap (shared s) !! p)) ->
  thr_ok (m_rootThread s) (m_autoStop s) (heap (shared s')) t' ->
  m_activeThreadCount s' = u64 (m_activeThreadCount s + (cnt t' - cnt t)) ->
  Inv s' /\ kept (length l1) 1 s s'.
Proof.
  intros HI E E' (Er & Ef & Es & Eq & Esc & Eta & Eau & En) Et Hm Hp Hp' Hx (released & HP & Hrel) Hframe Hdom Hthr Hact.
  apply (inv_update s s' l1 [t] [t'] l2 [] released); try done.
  - by left.
  - by rewrite Eau.
  - apply (root_ok_step s s' l1 t t' l2); try done; [apply (inv_root s HI)|by left].
  - cbn [flat_map app]. rewrite !app_nil_r, Eq, <- HP, <- app_assoc.
    apply Permutation_app_head, Permutation_app_comm.
  - by constructor.
  - intros p Hin. by apply not_elem_of_nil in Hin.
  - by rewrite En.
  - intros p Hs%Hdom. rewrite En. by apply (inv_heap s HI).
  - intros p Hn _. apply Hframe. cbn in Hn. by rewrite app_nil_r in Hn.
  - rewrite Eau. by repeat constructor.
  - intros ft. rewrite Eq. by left.
  - rewrite Hact. cbn. f_equal. lia.
  - by rewrite Esc, Eta, Eq.
  - rewrite Eta. apply (inv_affine s HI).
Qed.

Definition ok (i : nat) (m : SM unit) (s : Scheduler) : Prop :=
  exists s', m s = Ret tt s' /\ Inv s' /\ kept i 1 s s'.

Lemma widen i i' n s s' : Inv s' /\ kept i 0 s s' -> Inv s' /\ kept i' n s s'.
Proof. intros [HI HK]. split; [done|]. by apply (kept_all i). Qed.

Lemma stays i s : Inv s -> ok i (mret tt) s.
Proof. intros HI. by exists s. Qed.

Lemma inv_here s l1 t l2 :
  Inv s -> m_threads s = l1 ++ t :: l2 -> thr_ok (m_rootThread s) (m_autoStop s) (heap (shared s)) t.
Proof. intros HI E. pose proof (inv_thr s HI) as F. rewrite E in F. by apply Forall_app in F as [_ F%Forall_inv]. Qed.

Lemma owned_same t t' :
  mains (tls t') = mains (tls t) -> slots t' = slots t -> owned t' = owned t.
Proof. unfold owned. by intros -> ->. Qed.

Lemma mains_same l l' :
  t_mainFiber l' = t_mainFiber l -> t_threadFiber l' = t_threadFiber l -> mains l' = mains l.
Proof. unfold mains. by intros -> ->. Qed.

Lemma act_same s : Inv s -> m_activeThreadCount s = u64 (m_activeThreadCount s + 0).
Proof. intros HI. rewrite Z.add_0_r, (inv_active s HI). unfold wrap. by rewrite Z.mod_mod. Qed.

Lemma in_task_set root h t f P Q g g2 :
  in_task root h t f P -> NoDup (owned t) -> f ∈ slots t -> h !! f = Some g ->
  m_ctx g2 = m_ctx g -> m_stack g2 = m_stack g -> Q (m_state g2) = true ->
  in_task root (<[f := g2]> h) t f Q.
Proof.
  intros (m & g' & Hm & Ht & Hc & (gm & Hgm & Hcm) & Ho & Hg' & Hs & Hr & HP) ND Hf Hg Hcx Hst HQ.
  rewrite Hg in Hg'. injection Hg' as <-.
  exists m, g2. repeat split; try done.
  - exists gm. split; [|done]. pose proof (main_ne t m f ND Hm Hf). by rewrite lookup_insert_ne by done.
  - unfold outer_ok in *. destruct (tid t =? root); [|done].
    destruct Ho as (c & m' & Hcc & Hmm & Hcm' & gc & Hgc & Hsc). exists c, m'. repeat split; try done.
    exists gc. split; [|done]. pose proof (thread_ne t c f ND Hcc Hf). by rewrite lookup_insert_ne by done.
  - by rewrite lookup_insert_eq.
  - by rewrite Hst.
  - by rewrite Hcx.
Qed.

Lemma in_task_at root h t f P :
  in_task root h t f P ->
  t_fiber (tls t) = Some f /\ exists g, h !! f = Some g /\ m_stack g = true /\ m_ctx g = Running /\ P (m_state g) = true.
Proof. intros (m & g & H). repeat split; [apply H|]. exists g. repeat split; apply H. Qed.

Lemma insert_dom (h : gmap nat Fiber) f g g2 p :
  h !! f = Some g -> is_Some (<[f := g2]> h !! p) -> is_Some (h !! p).
Proof. intros Hf [x Hx]. destruct (decide (p = f)) as [->|]; [by rewrite Hf|]. rewrite lookup_insert_ne in Hx by done. by exists x. Qed.

(** In a state whose threads are [l1 ++ t :: l2], what [mark_yield] and
    [swapOut] make of a thread in the fiber [f]. *)
Lemma yield_run root sh t f P st ended Q (m : FM unit) :
  in_task root (heap sh) t f P -> NoDup (owned t) -> f ∈ slots t -> Q st = true ->
  (forall g, heap sh !! f = Some g -> exists g2, m_ctx g2 = m_ctx g /\ m_stack g2 = m_stack g /\ m_state g2 = st /\
     m (sh, tls t) = swapOut_from ended f (set_heap (<[f := g2]> (heap sh)) sh, tls t)) ->
  exists g h' l', m (sh, tls t) = Ret tt (set_heap h' sh, l') /\
    t_mainFiber l' = t_mainFiber (tls t) /\ t_threadFiber l' = t_threadFiber (tls t) /\
    in_loop root h' (set_tls l' t) /\
    h' !! f = Some g /\ m_stack g = true /\ m_state g = st /\
    m_ctx g = (if ended then Ended else Saved (Some f)) /\
    (forall p, p <> f -> t_mainFiber (tls t) <> Some p -> h' !! p = heap sh !! p) /\
    (forall p, is_Some (h' !! p) -> is_Some (heap sh !! p)).
Proof.
  intros Ht ND Hf HQ Hm. destruct (in_task_at _ _ _ _ _ Ht) as (_ & g & Hg & Hs & _ & _).
  destruct (Hm g Hg) as (g2 & Hcx & Hst & Hst2 & Em).
  set (sh1 := set_heap (<[f := g2]> (heap sh)) sh) in *.
  assert (Ht1 : in_task root (heap sh1) t f Q).
  { eapply in_task_set; try done. by rewrite Hst2. }
  destruct (leave_task root sh1 t f Q ended Ht1 ND Hf) as (g' & h' & l' & Hg' & Hs' & _ & E & Hm' & Hth & Hl & Hf' & Hfr & Hd).
  cbn in Hg'. rewrite lookup_insert_eq in Hg'. injection Hg' as <-.
  exists (set_ctx (if ended then Ended else Saved (Some f)) g2), h', l'.
  split; [by rewrite Em, E|]. repeat split; try done.
  - intros p Hp Hpm. rewrite Hfr by done. cbn. by rewrite lookup_insert_ne by done.
  - intros p Hp%Hd. exact (insert_dom (heap sh) f g g2 p Hg Hp).
Qed.

Section step_cases.
Context (stack_size : Z) (s : Scheduler) (l1 : list Thr) (t : Thr) (l2 : list Thr) (extra : bool).
Context (HI : Inv s) (E : m_threads s = l1 ++ t :: l2).

Let HT : thr_ok (m_rootThread s) (m_autoStop s) (heap (shared s)) t := inv_here s l1 t l2 HI E.
Let ND : NoDup (owned t) := inv_owned_nodup s l1 t l2 HI E.

Lemma advance_eq p :
  pc t = p ->
  advance stack_size (length l1) extra s =
  match p with
  | PNotStarted | PRun _ _ | PExit => mret tt
  | _ => advance stack_size (length l1) extra
  end s.
Proof.
  intros Hp. destruct p; try done; unfold advance;
    rewrite (bind_Ret get _ s s s eq_refl), E, lookup_mid, Hp; reflexivity.
Qed.

Ltac open Hpc := unfold ok, advance; rewrite (bind_Ret get _ s s s eq_refl), E, lookup_mid, Hpc.

Ltac simp_move := repeat match goal with |- _ /\ _ => split end; try reflexivity; try done.

Lemma not_owned p f :
  p ∉ owned t -> f ∈ slots t -> p <> f /\ t_mainFiber (tls t) <> Some p.
Proof.
  intros Hp Hf. split; [intros ->; by apply Hp, slot_owned|]. intros Hm. by apply Hp, main_owned.
Qed.

Lemma idle_outside h' f :
  idle_ok (m_autoStop s) (heap (shared s)) t -> (forall d, idle_fiber t = Some d -> d <> f) ->
  (forall p, p <> f -> t_mainFiber (tls t) <> Some p -> h' !! p = heap (shared s) !! p) ->
  forall t', idle_fiber t' = idle_fiber t -> idle_ok (m_autoStop s) h' t'.
Proof.
  intros Hi Hne F t' Et. eapply idle_frame; [done| |exact Hi]. intros d Hd. apply F; [by apply Hne|].
  intros Hm. by apply (main_ne t d d ND Hm (idle_in t d Hd)).
Qed.

Lemma kind_outside h' f k :
  kind_ok (heap (shared s)) t f k -> (k = KFiber -> f ∈ pc_fibers (pc t)) ->
  (forall p, p <> f -> t_mainFiber (tls t) <> Some p -> h' !! p = heap (shared s) !! p) ->
  forall t', cb_fiber t' = cb_fiber t -> kind_ok h' t' f k.
Proof.
  intros Hk Hp F t' Et. eapply kind_frame; [done| |exact Hk]. intros d Hkf Hd. apply F.
  - apply (cb_pc_ne t f d ND Hd), Hp, Hkf.
  - intros Hm. by apply (main_ne t d d ND Hm (cb_in t d Hd)).
Qed.

Lemma idle_ne_kind h f k :
  kind_ok h t f k -> (k = KFiber -> f ∈ pc_fibers (pc t)) ->
  forall d, idle_fiber t = Some d -> d <> f.
Proof.
  intros Hk Hp d Hd. destruct k; cbn in Hk; [by apply (idle_pc_ne t f d ND Hd), Hp|by apply (idle_cb_ne t f d)].
Qed.

Lemma case_swapIn f k : pc t = PSwapIn f k -> ok (length l1) (advance stack_size (length l1) extra) s.
Proof.
  intros Hpc. pose proof HT as H. unfold thr_ok in H. rewrite Hpc in H.
  destruct H as (Hl & Hi & Hk & g & Hg & Hp & He).
  assert (Hpf : k = KFiber -> f ∈ pc_fibers (pc t)) by (intros ->; rewrite Hpc; cbn; set_solver).
  pose proof (kind_in _ t f k Hk Hpf) as Hf.
  destruct (enter_task (m_rootThread s) (shared s) t f g Hl ND Hf Hg Hp He)
    as (h' & l' & Es & Hm & Hth & Hin & F & D).
  open Hpc. step_with (on_thread_mid s l1 t l2 _ tt _ _ E Es).
  rewrite (goto_mid (set_threads (l1 ++ set_tls l' t :: l2) (set_shared (set_heap h' (shared s)) s)) l1
    (set_tls l' t) l2 (PRun f k) eq_refl).
  eexists. split; [reflexivity|].
  apply (inv_move s _ l1 t (set_pc (PRun f k) (set_tls l' t)) l2); simp_move.
  - by rewrite Hpc.
  - exists []. rewrite app_nil_r. split; [|done]. apply Permutation_refl', owned_same;
      [by apply mains_same|unfold slots; cbn; by rewrite Hpc].
  - intros p Hpo. destruct (not_owned p f Hpo Hf). by apply F.
  - split; [|split; [|done]].
    + apply (idle_outside h' f Hi (idle_ne_kind _ f k Hk Hpf) F). done.
    + by apply (kind_outside h' f k Hk Hpf F).
  - unfold cnt. rewrite Hpc. exact (act_same s HI).
Qed.

Lemma case_yield f k cur ended : pc t = PYield f k cur ended -> ok (length l1) (advance stack_size (length l1) extra) s.
Proof.
  intros Hpc. pose proof HT as H. unfold thr_ok in H. rewrite Hpc in H.
  destruct H as (-> & Hi & Hk & Hin).
  assert (Hpf : k = KFiber -> f ∈ pc_fibers (pc t)) by (intros ->; rewrite Hpc; cbn; set_solver).
  pose proof (kind_in _ t f k Hk Hpf) as Hf.
  destruct (leave_task (m_rootThread s) (shared s) t f _ ended Hin ND Hf)
    as (g & h' & l' & Hg & Hs & HP & Es & Hm & Hth & Hl & Hg' & F & D).
  open Hpc. step_with (on_thread_mid s l1 t l2 _ tt _ _ E Es).
  rewrite (goto_mid (set_threads (l1 ++ set_tls l' t :: l2) (set_shared (set_heap h' (shared s)) s)) l1
    (set_tls l' t) l2 (PBack f k) eq_refl).
  eexists. split; [reflexivity|].
  apply (inv_move s _ l1 t (set_pc (PBack f k) (set_tls l' t)) l2); simp_move.
  - by rewrite Hpc.
  - exists []. rewrite app_nil_r. split; [|done]. apply Permutation_refl', owned_same;
      [by apply mains_same|unfold slots; cbn; by rewrite Hpc].
  - intros p Hpo. destruct (not_owned p f Hpo Hf). by apply F.
  - split; [done|]. split; [|split].
    + apply (idle_outside h' f Hi (idle_ne_kind _ f k Hk Hpf) F). done.
    + by apply (kind_outside h' f k Hk Hpf F).
    + exists (set_ctx (if ended then Ended else Saved (Some f)) g). split; [done|]. split; [done|].
      cbn [m_state set_ctx]. unfold yielded in HP. destruct ended; [by destruct (m_state g)|].
      apply bool_decide_eq_true in HP as [-> | ->]; by right.
  - unfold cnt. rewrite Hpc. exact (act_same s HI).
Qed.

Lemma case_back f k : pc t = PBack f k -> ok (length l1) (advance stack_size (length l1) extra) s.
Proof.
  intros Hpc. pose proof HT as H. unfold thr_ok in H. rewrite Hpc in H.
  open Hpc. step_with (eq_refl : modify (fun s => set_active (u64 (m_activeThreadCount s - 1)) s) s =
    Ret tt (set_active (u64 (m_activeThreadCount s - 1)) s)).
  rewrite (goto_mid (set_active (u64 (m_activeThreadCount s - 1)) s) l1 t l2 (PAfter f k) E).
  eexists. split; [reflexivity|].
  apply (inv_move s _ l1 t (set_pc (PAfter f k) t) l2); simp_move.
  - by rewrite Hpc.
  - exists []. rewrite app_nil_r. split; [|done]. apply Permutation_refl', owned_same;
      [done|unfold slots; cbn; by rewrite Hpc].
  - unfold cnt. rewrite Hpc. cbn. done.
Qed.

Lemma hold_run d g :
  t_fiber (tls t) = Some d -> heap (shared s) !! d = Some g ->
  exists g2, m_ctx g2 = m_ctx g /\ m_stack g2 = m_stack g /\ m_state g2 = HOLD /\
    YieldToHold (shared s, tls t) = swapOut_from false d (set_heap (<[d := g2]> (heap (shared s))) (shared s), tls t).
Proof.
  intros Ht Hg. exists (set_state HOLD g). repeat split.
  unfold YieldToHold. by step_with (mark_yield_run HOLD d g (shared s) (tls t) Ht Hg).
Qed.

Lemma term_run d g :
  heap (shared s) !! d = Some g ->
  exists g2, m_ctx g2 = m_ctx g /\ m_stack g2 = m_stack g /\ m_state g2 = TERM /\
    MainFunc_end d true (shared s, tls t) =
      swapOut_from true d (set_heap (<[d := g2]> (heap (shared s))) (shared s), tls t).
Proof.
  intros Hg. exists (set_state TERM (set_cb None g)). repeat split.
  unfold MainFunc_end. by step_with (mark_end_run d g (shared s) (tls t) true Hg).
Qed.

Lemma idle_left (m : FM unit) d st ended :
  pc t = PIdle -> slot_ok (heap (shared s)) t -> idle_fiber t = Some d ->
  in_task (m_rootThread s) (heap (shared s)) t d is_exec ->
  (st = HOLD \/ st = EXEC) /\ ended = false \/ st = TERM /\ ended = true /\ m_autoStop s = true ->
  (forall g, heap (shared s) !! d = Some g -> exists g2, m_ctx g2 = m_ctx g /\ m_stack g2 = m_stack g /\
     m_state g2 = st /\ m (shared s, tls t) =
       swapOut_from ended d (set_heap (<[d := g2]> (heap (shared s))) (shared s), tls t)) ->
  ok (length l1) (on_thread (length l1) m;; goto (length l1) PIdleBack) s.
Proof.
  intros Hpc Hs Hd Hin Hst Hm. pose proof (idle_in t d Hd) as Hf.
  destruct (yield_run (m_rootThread s) (shared s) t d _ st ended (fun _ => true) m Hin ND Hf eq_refl Hm)
    as (g & h' & l' & Er & Hmm & Hth & Hl & Hg & Hstk & Hgs & Hgc & F & D).
  unfold ok. step_with (on_thread_mid s l1 t l2 _ tt _ _ E Er).
  rewrite (goto_mid (set_threads (l1 ++ set_tls l' t :: l2) (set_shared (set_heap h' (shared s)) s)) l1
    (set_tls l' t) l2 PIdleBack eq_refl).
  eexists. split; [reflexivity|].
  apply (inv_move s _ l1 t (set_pc PIdleBack (set_tls l' t)) l2); simp_move.
  - by rewrite Hpc.
  - exists []. rewrite app_nil_r. split; [|done]. apply Permutation_refl', owned_same;
      [by apply mains_same|unfold slots; cbn; by rewrite Hpc].
  - intros p Hpo. destruct (not_owned p d Hpo Hf). by apply F.
  - split; [done|]. split.
    + exists d, g. cbn [idle_fiber set_pc set_tls]. rewrite Hgs.
      destruct Hst as [[Hst ->]|(-> & -> & Hau)]; repeat split; try done.
      * by destruct Hst as [-> | ->].
      * by destruct Hst as [-> | ->].
      * intros _. by right.
    + apply (slot_frame (heap (shared s)) h' t); [done| |done]. intros c Hc. apply F.
      * intros ->. by apply (idle_cb_ne t d d ND Hd Hc).
      * intros Hx. by apply (main_ne t c c ND Hx (cb_in t c Hc)).
  - unfold cnt. rewrite Hpc. exact (act_same s HI).
Qed.

Lemma case_idle : pc t = PIdle -> ok (length l1) (advance stack_size (length l1) extra) s.
Proof.
  intros Hpc. pose proof HT as H. unfold thr_ok in H. rewrite Hpc in H. destruct H as (Hs & d & Hd & Hin).
  destruct (in_task_at _ _ _ _ _ Hin) as (Ht & _).
  unfold ok, advance. rewrite (bind_Ret get _ s s s eq_refl), E, lookup_mid, Hpc.
  step_with (on_thread_pure s l1 t l2 _ d E (deref_run _ d (shared s) (tls t) Hd)).
  destruct (stopping extra s) eqn:Hstop.
  - apply (idle_left _ d TERM true Hpc Hs Hd Hin).
    { right. repeat split. by apply (stopping_true extra s). } intros g. apply term_run.
  - apply (idle_left _ d HOLD false Hpc Hs Hd Hin); [left; split; [by left|done]|]. intros g. by apply hold_run.
Qed.

Lemma case_idleBack : pc t = PIdleBack -> ok (length l1) (advance stack_size (length l1) extra) s.
Proof.
  intros Hpc. pose proof HT as H. unfold thr_ok in H. rewrite Hpc in H.
  destruct H as (Hl & (d & g & Hd & Hg & Hstk & Hne & Hau & Hp) & Hs).
  open Hpc. set (s1 := set_idle (u64 (m_idleThreadCount s - 1)) s).
  step_with (eq_refl : modify (fun s => set_idle (u64 (m_idleThreadCount s - 1)) s) s = Ret tt s1).
  step_with (on_thread_pure s1 l1 t l2 _ d E (deref_run _ d (shared s) (tls t) Hd)).
  step_with (on_thread_pure s1 l1 t l2 _ g E (fiber_at_run d g (shared s) (tls t) Hg)).
  destruct (ended_state (m_state g)) eqn:He.
  - step_with (eq_refl : (mret tt : SM unit) s1 = Ret tt s1). rewrite (goto_mid s1 l1 t l2 PTop E).
    eexists. split; [reflexivity|].
    apply (inv_move s _ l1 t (set_pc PTop t) l2); simp_move.
    + by rewrite Hpc.
    + exists []. rewrite app_nil_r. split; [|done]. apply Permutation_refl', owned_same;
        [done|unfold slots; cbn; by rewrite Hpc].
    + split; [done|]. split; [|done]. exists d, g. repeat split; try done. by destruct (m_state g).
    + unfold cnt. rewrite Hpc. exact (act_same s HI).
  - set (h' := <[d := set_state HOLD g]> (heap (shared s))).
    assert (Ho : d ∈ slots t) by by apply idle_in.
    assert (F : forall p, p <> d -> h' !! p = heap (shared s) !! p).
    { intros p Hpd. unfold h'. by rewrite lookup_insert_ne by done. }
    step_with (on_thread_mid s1 l1 t l2 (store d (set_state HOLD g)) tt (set_heap h' (shared s)) (tls t) E eq_refl).
    rewrite (goto_mid (set_threads (l1 ++ set_tls (tls t) t :: l2) (set_shared (set_heap h' (shared s)) s1)) l1
      (set_tls (tls t) t) l2 PTop eq_refl).
    eexists. split; [reflexivity|].
    apply (inv_move s _ l1 t (set_pc PTop (set_tls (tls t) t)) l2); simp_move.
    + by rewrite Hpc.
    + exists []. rewrite app_nil_r. split; [|done]. apply Permutation_refl', owned_same;
        [done|unfold slots; cbn; by rewrite Hpc].
    + intros p Hpo. apply F. intros ->. by apply Hpo, slot_owned.
    + intros p. apply (insert_dom _ d g). done.
    + split; [|split].
      * apply (loop_frame _ (heap (shared s)) h' t); [done..| |done]. intros p Hpm. apply F.
        intros ->. by apply (slot_main_ne t d ND Ho).
      * exists d, (set_state HOLD g). cbn [heap shared set_heap set_shared set_threads]. unfold h'.
        rewrite lookup_insert_eq. repeat split; try done.
        cbn [m_state set_state m_ctx]. apply Hp. intros Ht. by rewrite Ht in He.
      * apply (slot_frame (heap (shared s)) h' t); [done| |done]. intros c Hc. apply F.
        intros ->. by apply (idle_cb_ne t d d ND Hd Hc).
    + unfold cnt. rewrite Hpc. exact (act_same s HI).
Qed.

Lemma case_top : pc t = PTop -> ok (length l1) (advance stack_size (length l1) extra) s.
Proof.
  intros Hpc. pose proof HT as H. unfold thr_ok in H. rewrite Hpc in H. destruct H as (Hl & Hi & Hs).
  destruct (fetch_spec (tid t) (heap (shared s)) (m_fibers s)) as (r & rest & tm & Ef & Hr).
  { eapply Forall_impl; [apply (inv_queue s HI)|]. by intros ft []. }
  open Hpc. rewrite Ef. destruct r as [ft|].
  - destruct Hr as (a & b & Eq & -> & Haff).
    set (s1 := log [] [(tid t, ft)] (set_active (u64 (m_activeThreadCount s + 1)) (set_fibers (a ++ b) s))).
    step_with (eq_refl : modify (fun s => log [] [(tid t, ft)] (set_active (u64 (m_activeThreadCount s + 1))
      (set_fibers (a ++ b) s))) s = Ret tt s1).
    rewrite (goto_mid s1 l1 t l2 (PFetched ft tm true) E).
    eexists. split; [reflexivity|]. set (t' := set_pc (PFetched ft tm true) t).
    assert (Hft : task_ok (heap (shared s)) ft).
    { pose proof (inv_queue s HI) as F. rewrite Eq in F. by apply Forall_app in F as [_ F%Forall_inv]. }
    apply (inv_update s _ l1 [t] [t'] l2 [] []); try done.
    + by left.
    + apply (root_ok_step s _ l1 t t' l2); try done; [apply (inv_root s HI)|by left|by rewrite Hpc].
    + cbn [flat_map app]. rewrite !app_nil_r. cbn [m_fibers set_threads s1 log set_active set_fibers].
      rewrite Eq. unfold queued. rewrite !flat_map_app. cbn [flat_map]. unfold owned, slots.
      cbn [t' set_pc tls idle_fiber cb_fiber pc pc_fibers]. rewrite Hpc. cbn [pc_fibers]. solve_Permutation.
    + by constructor.
    + intros p Hin. by apply not_elem_of_nil in Hin.
    + apply (inv_heap s HI).
    + constructor; [|done]. cbn. split; [done|]. split; [done|]. split; [done|]. split; [apply Hft|done].
    + intros ft' Hin. left. rewrite Eq. cbn in Hin. set_solver.
    + cbn [m_activeThreadCount set_threads s1 log set_active]. unfold count, cnt. cbn. by rewrite Hpc.
    + cbn [scheduled taken m_fibers set_threads s1 log set_active set_fibers]. rewrite Eq, map_app. cbn [map snd].
      solve_Permutation.
    + cbn. apply Forall_app. split; [apply (inv_affine s HI)|]. apply Forall_singleton. exact Haff.
  - subst rest. rewrite (goto_mid s l1 t l2 (PFetched FT_reset tm false) E).
    eexists. split; [reflexivity|].
    apply (inv_move s _ l1 t (set_pc (PFetched FT_reset tm false) t) l2); simp_move.
    + by rewrite Hpc.
    + exists []. rewrite app_nil_r. split; [|done]. apply Permutation_refl', owned_same;
        [done|unfold slots; cbn; by rewrite Hpc].
    + unfold cnt. rewrite Hpc. exact (act_same s HI).
Qed.

(** The start of a thread: of the one that made the scheduler, which has its main fiber, and of a worker. *)
Lemma start_root : pc t = PStart -> (tid t =? m_rootThread s) = true -> ok (length l1) (advance stack_size (length l1) extra) s.
Proof.
  intros Hpc Hroot. pose proof HT as H. unfold thr_ok in H. rewrite Hpc, Hroot in H. destruct H as (Hid & Hcb & H).
  open Hpc. rewrite Hroot.
  step_with (eq_refl : (mret tt : SM unit) s = Ret tt s).
  destruct (Fiber_new_run stack_size (Some idle_cb) 0 (shared s) (tls t)) as (g & i & n & Hg & Er).
  set (p := next_addr (shared s)) in *. set (sh1 := mkFiberState _ _ _ _) in Er.
  destruct (next_free s p HI ltac:(done)) as [Hpo Hpn].
  step_with (on_thread_mid s l1 t l2 _ p _ _ E Er).
  set (t1 := set_tls (tls t) t). set (s1 := set_threads (l1 ++ t1 :: l2) (set_shared sh1 s)).
  step_with (set_thread_mid s1 l1 t1 l2 (set_idle_fiber (Some p)) eq_refl).
  rewrite (goto_mid (set_threads (l1 ++ set_idle_fiber (Some p) t1 :: l2) s1) l1 (set_idle_fiber (Some p) t1) l2
    PTop eq_refl).
  eexists. split; [reflexivity|]. set (t' := set_pc PTop (set_idle_fiber (Some p) t1)).
  assert (F : forall q, q <> p -> heap sh1 !! q = heap (shared s) !! q).
  { intros q Hq. cbn. by rewrite lookup_insert_ne by done. }
  apply (inv_update s _ l1 [t] [t'] l2 [p] []); try done.
  + by left.
  + apply (root_ok_step s _ l1 t t' l2); try done; [apply (inv_root s HI)|by left|by rewrite Hpc].
  + cbn [flat_map app]. rewrite !app_nil_r. cbn [m_fibers]. unfold owned, slots.
    cbn [t' t1 set_pc set_idle_fiber set_tls tls idle_fiber cb_fiber pc pc_fibers option_list]. rewrite Hpc, Hid.
    cbn [pc_fibers]. solve_Permutation.
  + by apply NoDup_singleton.
  + intros q ->%list_elem_of_singleton. split; [done|]. cbn. lia.
  + cbn. lia.
  + intros q. cbn. destruct (decide (q = p)) as [->|]; [lia|]. rewrite lookup_insert_ne by done.
    intros Hq%(inv_heap s HI). lia.
  + intros q _ Hq. apply F. set_solver.
  + constructor; [|done]. split; [|split].
    * apply (loop_frame _ (heap (shared s)) _ t); [done|done| |done].
      intros q Hq. apply F. intros ->. apply Hpo. apply (owned_owns s l1 t l2 p E). unfold owned. set_solver.
    * destruct Hg as (Hg1 & Hg2 & Hg3). exists p, g. cbn. rewrite lookup_insert_eq.
      unfold parked_fiber. rewrite Hg2. repeat split; try done. by left.
    * unfold slot_ok. cbn [t' t1 set_pc set_idle_fiber set_tls cb_fiber]. by rewrite Hcb.
  + intros ft Hin. by left.
  + unfold count, cnt. cbn. rewrite Hpc. exact (act_same s HI).
  + apply (inv_affine s HI).
Qed.

Lemma start_worker : pc t = PStart -> (tid t =? m_rootThread s) = false -> ok (length l1) (advance stack_size (length l1) extra) s.
Proof.
  intros Hpc Hroot. pose proof HT as H. unfold thr_ok in H. rewrite Hpc, Hroot in H. destruct H as (Hid & Hcb & H).
  open Hpc. rewrite Hroot.
  destruct (GetThis_new_run (shared s)) as (gm & i & n & Hgm & Er0). set (p := next_addr (shared s)) in *.
  set (sh1 := mkFiberState _ _ _ _) in Er0. rewrite <- H in Er0.
  destruct (next_free s p HI ltac:(done)) as [Hpo Hpn].
  destruct (next_free s (S p) HI ltac:(unfold p; lia)) as [Hqo Hqn].
  set (lm := mkTls (Some p) (Some p) None (Some p)) in *.
  set (s1 := set_threads (l1 ++ set_tls lm t :: l2) (set_shared sh1 s)).
  set (lm' := set_mainFiber (Some p) lm).
  set (s2 := set_threads (l1 ++ set_tls lm' (set_tls lm t) :: l2) (set_shared sh1 s1)).
  assert (Epro : (p ← on_thread (length l1) GetThis; on_thread (length l1) (on_tls (set_mainFiber (Some p)))) s = Ret tt s2).
  { step_with (on_thread_mid s l1 t l2 _ p _ _ E Er0).
    exact (on_thread_mid s1 l1 (set_tls lm t) l2 (on_tls (set_mainFiber (Some p))) tt sh1 lm' eq_refl eq_refl). }
  step_with Epro.
  destruct (Fiber_new_run stack_size (Some idle_cb) 0 sh1 lm') as (g & i' & n' & Hg & Er).
  change (next_addr sh1) with (S p) in Er. set (sh2 := mkFiberState _ _ i' n') in Er.
  step_with (on_thread_mid s2 l1 (set_tls lm' (set_tls lm t)) l2 _ (S p) sh2 lm' eq_refl Er).
  set (t1 := set_tls lm' (set_tls lm' (set_tls lm t))).
  set (s3 := set_threads (l1 ++ t1 :: l2) (set_shared sh2 s2)).
  step_with (set_thread_mid s3 l1 t1 l2 (set_idle_fiber (Some (S p))) eq_refl).
  rewrite (goto_mid (set_threads (l1 ++ set_idle_fiber (Some (S p)) t1 :: l2) s3) l1
    (set_idle_fiber (Some (S p)) t1) l2 PTop eq_refl).
  eexists. split; [reflexivity|]. set (t' := set_pc PTop (set_idle_fiber (Some (S p)) t1)).
  apply (inv_update s _ l1 [t] [t'] l2 [p; S p] []); try done.
  + by left.
  + apply (root_ok_step s _ l1 t t' l2); try done;
      [apply (inv_root s HI)|right; by apply Z.eqb_neq|by rewrite Hpc].
  + cbn [flat_map app]. rewrite !app_nil_r. cbn [m_fibers]. unfold owned, slots.
    cbn [t' t1 set_pc set_idle_fiber set_tls tls idle_fiber cb_fiber pc pc_fibers option_list]. rewrite Hpc, Hid, H.
    unfold mains. cbn [lm' lm set_mainFiber t_threadFiber t_mainFiber tls_new option_list pc_fibers].
    rewrite decide_True by done. solve_Permutation.
  + apply NoDup_cons. split; [|apply NoDup_singleton]. intros ?%list_elem_of_singleton. lia.
  + intros q Hq. cbn. apply elem_of_cons in Hq as [->|Hq]; [split; [done|unfold p; lia]|].
    apply list_elem_of_singleton in Hq as ->. split; [done|unfold p; lia].
  + cbn. unfold p. lia.
  + intros q. cbn. destruct (decide (q = S p)) as [->|]; [lia|]. rewrite lookup_insert_ne by done.
    destruct (decide (q = p)) as [->|]; [lia|]. rewrite lookup_insert_ne by done.
    intros Hq%(inv_heap s HI). unfold p. lia.
  + intros q _ Hq. cbn. rewrite !lookup_insert_ne; [done|set_solver..].
  + constructor; [|done]. split; [|split].
    * exists p. repeat split; try done.
      -- exists gm. cbn. rewrite lookup_insert_ne by lia. by rewrite lookup_insert_eq.
      -- unfold outer_ok. cbn [t' t1 set_pc set_idle_fiber set_tls tid]. by rewrite Hroot.
    * destruct Hg as (Hg1 & Hg2 & Hg3). exists (S p), g. cbn. rewrite lookup_insert_eq.
      unfold parked_fiber. rewrite Hg2. repeat split; try done. by left.
    * unfold slot_ok. cbn [t' t1 set_pc set_idle_fiber set_tls cb_fiber]. by rewrite Hcb.
  + intros ft Hin. by left.
  + unfold count, cnt. cbn. rewrite Hpc. exact (act_same s HI).
  + apply (inv_affine s HI).
Qed.

Lemma case_start : pc t = PStart -> ok (length l1) (advance stack_size (length l1) extra) s.
Proof. destruct (tid t =? m_rootThread s) eqn:Hroot; intros Hpc; [by apply start_root|by apply start_worker]. Qed.

(** The end of a turn of the loop, by way of the fiber [f]. *)
Lemma inv_top s' t' f released :
  pc t <> PNotStarted -> in_loop (m_rootThread s) (heap (shared s)) t -> idle_ok (m_autoStop s) (heap (shared s)) t ->
  f ∈ slots t -> (forall d, idle_fiber t = Some d -> d <> f) ->
  m_threads s' = l1 ++ t' :: l2 ->
  m_rootThread s' = m_rootThread s /\ m_rootFiber s' = m_rootFiber s /\ stop_pc s' = stop_pc s /\
  next_addr (shared s') = next_addr (shared s) /\ taken s' = taken s /\ m_autoStop s' = m_autoStop s ->
  tid t' = tid t /\ tls t' = tls t /\ idle_fiber t' = idle_fiber t /\ pc t' = PTop ->
  slot_ok (heap (shared s')) t' ->
  option_list (cb_fiber t') ++ queued (m_fibers s') ++ released ≡ₚ
    option_list (cb_fiber t) ++ pc_fibers (pc t) ++ queued (m_fibers s) ->
  (forall p, p <> f -> heap (shared s') !! p = heap (shared s) !! p) ->
  (forall p, is_Some (heap (shared s') !! p) -> is_Some (heap (shared s) !! p)) ->
  Forall (parked (heap (shared s'))) released ->
  (forall ft, ft ∈ m_fibers s' -> ft ∈ m_fibers s \/ task_ok (heap (shared s')) ft) ->
  m_activeThreadCount s' = u64 (m_activeThreadCount s - cnt t) ->
  scheduled s' ++ m_fibers s ≡ₚ scheduled s ++ m_fibers s' ->
  Inv s' /\ kept (length l1) 1 s s'.
Proof.
  intros Hpc Hl Hi Hf Hdf E' (Er & Ef & Es & En & Eta & Eau) (Et & Els & Eid & Epc) Hs HP F D Hrel Hq Hact Hlog.
  apply (inv_update s _ l1 [t] [t'] l2 [] released); try done.
  - by left.
  - by rewrite Eau.
  - apply (root_ok_step s _ l1 t t' l2); try done; [apply (inv_root s HI)|left; by rewrite Els|by rewrite Epc..].
  - cbn [flat_map]. rewrite !app_nil_r. unfold owned, slots. rewrite Els, Eid, Epc. cbn [pc_fibers app].
    rewrite app_nil_r. transitivity (mains (tls t) ++ option_list (idle_fiber t) ++
      (option_list (cb_fiber t') ++ queued (m_fibers s') ++ released)); [solve_Permutation|].
    rewrite HP. solve_Permutation.
  - by constructor.
  - intros p Hin. by apply not_elem_of_nil in Hin.
  - by rewrite En.
  - intros p Hp%D. rewrite En. by apply (inv_heap s HI).
  - intros p Hp _. apply F. intros ->. apply Hp. cbn. rewrite app_nil_r. by apply slot_owned.
  - constructor; [|done]. unfold thr_ok. rewrite Epc, Eau. split; [|split; [|done]].
    + apply (loop_frame _ (heap (shared s)) _ t); [done..| |done]. intros p Hp. apply F.
      intros ->. by apply (slot_main_ne t f ND Hf).
    + apply (idle_frame _ (heap (shared s)) _ t); [done| |done]. intros d Hd. apply F. by apply Hdf.
  - rewrite Hact. unfold count. cbn [foldr]. unfold cnt at 2. rewrite Epc. f_equal. lia.
  - rewrite Eta. transitivity (map snd (taken s) ++ (scheduled s' ++ m_fibers s)); [solve_Permutation|].
    rewrite Hlog. solve_Permutation.
  - rewrite Eta. apply (inv_affine s HI).
Qed.

Definition pushed (ft : FiberAndThread) (s : Scheduler) : Scheduler :=
  let s' := log [ft] [] (set_fibers (m_fibers s ++ [ft]) s) in
  match m_fibers s with [] => add_tickle s' | _ => s' end.

Lemma schedule_run ft s0 : ft_some ft = true -> schedule ft s0 = Ret tt (pushed ft s0).
Proof.
  intros Hs. unfold schedule, scheduleNoLock, pushed.
  erewrite bind_Ret; [|step_with (eq_refl : get s0 = Ret s0 s0); rewrite Hs; reflexivity].
  by destruct (m_fibers s0).
Qed.

Lemma pushed_fields ft s0 :
  let s' := pushed ft s0 in
  m_fibers s' = m_fibers s0 ++ [ft] /\ scheduled s' = scheduled s0 ++ [ft] /\ taken s' = taken s0 /\
  m_threads s' = m_threads s0 /\ shared s' = shared s0 /\ m_activeThreadCount s' = m_activeThreadCount s0 /\
  m_rootThread s' = m_rootThread s0 /\ m_rootFiber s' = m_rootFiber s0 /\ stop_pc s' = stop_pc s0 /\
  m_autoStop s' = m_autoStop s0.
Proof.
  unfold pushed. destruct (m_fibers s0) eqn:Eq; cbn; rewrite ?Eq, ?app_nil_r; repeat split.
Qed.

Lemma parked_hold h f g :
  h !! f = Some g -> parked_fiber f g -> ended_state (m_state g) = false ->
  parked (<[f := set_state HOLD g]> h) f.
Proof.
  intros Hg [Hs Hp] He. exists (set_state HOLD g). rewrite lookup_insert_eq. split; [done|]. split; [done|].
  cbn. by destruct (m_state g).
Qed.

Tactic Notation "go_to" constr(p) constr(t') uconstr(pf) :=
  match goal with |- context [goto _ _ ?s1] => rewrite (goto_mid s1 l1 t' l2 p pf) end.

(** What becomes of a fiber that was scheduled: paused, paused, over, ready, over. *)
Lemma after_scheduled f : pc t = PAfter f KFiber -> ok (length l1) (advance stack_size (length l1) extra) s.
Proof.
  intros Hpc. pose proof HT as H. unfold thr_ok in H. rewrite Hpc in H.
  destruct H as (Hl & Hi & Hk & g & Hg & Hp).
  assert (Hpf : KFiber = KFiber -> f ∈ pc_fibers (pc t)) by (intros [=]; rewrite Hpc; cbn; set_solver).
  pose proof (kind_in _ t f KFiber Hk Hpf) as Hf. pose proof (idle_ne_kind _ f KFiber Hk Hpf) as Hdf.
  assert (Hne : pc t <> PNotStarted) by by rewrite Hpc.
  assert (Hcnt : m_activeThreadCount s = u64 (m_activeThreadCount s - cnt t)).
  { unfold cnt. rewrite Hpc, Z.sub_0_r, (inv_active s HI). unfold wrap. by rewrite Z.mod_mod. }
  assert (Dh : forall g2, forall p, is_Some (<[f := g2]> (heap (shared s)) !! p) -> is_Some (heap (shared s) !! p)).
  { intros g2 p. by apply (insert_dom _ f g). }
  assert (Fh : forall g2 : Fiber, forall p, p <> f -> <[f := g2]> (heap (shared s)) !! p = heap (shared s) !! p).
  { intros g2 p Hpp. by rewrite lookup_insert_ne by done. }
  pose proof (on_thread_pure s l1 t l2 _ g E (fiber_at_run f g (shared s) (tls t) Hg)) as Eg.
  pose proof (fun g2 => on_thread_mid s l1 t l2 (store f g2) tt (set_heap (<[f := g2]> (heap (shared s))) (shared s))
    (tls t) E eq_refl) as Est.
  set (ft := mkFT (Some f) None (-1)).
  destruct (pushed_fields ft s) as (P1 & P2 & P3 & P4 & P5 & P6 & P7 & P8 & P9 & P10).
  assert (Hft : task_ok (heap (shared s)) ft).
  { split; [done|]. intros f' [= <-]. by exists g. }
  open Hpc. destruct (m_state g) eqn:Hst; try (by destruct Hp as [_ Hp]; rewrite Hst in Hp).
  all: cbn [kind_ok] in Hk; subst ft.
  1, 2: eassert (Ex : after_task (length l1) f KFiber s = Ret tt _) by (unfold after_task; step_with Eg; rewrite Hst; exact (Est (set_state HOLD g))); step_with Ex;
    go_to PTop (set_tls (tls t) t) eq_refl; eexists; (split; [reflexivity|]);
    apply (inv_top _ (set_pc PTop (set_tls (tls t) t)) f [f]); simp_move;
    [apply (slot_frame (heap (shared s)) _ t); [done| |done]; intros c Hc; apply Fh; by apply (cb_pc_ne t f c ND Hc), Hpf
    |cbn; rewrite Hpc; cbn; solve_Permutation
    |by apply Fh|apply Dh|apply Forall_singleton, parked_hold; [done|done|by rewrite Hst]|intros ft' ?; by left].
  1, 3: eassert (Ex : after_task (length l1) f KFiber s = Ret tt _) by (unfold after_task; step_with Eg; rewrite Hst; reflexivity); step_with Ex;
    go_to PTop t E; eexists; (split; [reflexivity|]);
    apply (inv_top _ (set_pc PTop t) f [f]); simp_move;
    [cbn; rewrite Hpc; cbn; solve_Permutation|apply Forall_singleton; by exists g|intros ft' ?; by left].
  1: { eassert (Ex : after_task (length l1) f KFiber s = Ret tt _) by (unfold after_task; step_with Eg; rewrite Hst; by apply schedule_run). step_with Ex.
    go_to PTop t (eq_trans P4 E). eexists. split; [reflexivity|].
    apply (inv_top _ (set_pc PTop t) f []); cbn [set_threads shared m_fibers m_threads m_rootThread m_rootFiber
      stop_pc taken m_activeThreadCount scheduled m_autoStop]; rewrite ?P1, ?P2, ?P3, ?P5, ?P6, ?P7, ?P8, ?P9, ?P10; simp_move.
    - rewrite Hpc. unfold queued. rewrite flat_map_app. cbn. solve_Permutation.
    - intros ft' [Hin|Hin%list_elem_of_singleton]%elem_of_app; [by left|right; by subst].
    - solve_Permutation. }
Qed.

(** What becomes of the loop's own fiber. *)
Lemma after_cb f : pc t = PAfter f KCb -> ok (length l1) (advance stack_size (length l1) extra) s.
Proof.
  intros Hpc. pose proof HT as H. unfold thr_ok in H. rewrite Hpc in H.
  destruct H as (Hl & Hi & Hk & g & Hg & Hp).
  assert (Hpf : KCb = KFiber -> f ∈ pc_fibers (pc t)) by (intros [=]; rewrite Hpc; cbn; set_solver).
  pose proof (kind_in _ t f KCb Hk Hpf) as Hf. pose proof (idle_ne_kind _ f KCb Hk Hpf) as Hdf.
  assert (Hne : pc t <> PNotStarted) by by rewrite Hpc.
  assert (Hcnt : m_activeThreadCount s = u64 (m_activeThreadCount s - cnt t)).
  { unfold cnt. rewrite Hpc, Z.sub_0_r, (inv_active s HI). unfold wrap. by rewrite Z.mod_mod. }
  assert (Dh : forall g2, forall p, is_Some (<[f := g2]> (heap (shared s)) !! p) -> is_Some (heap (shared s) !! p)).
  { intros g2 p. by apply (insert_dom _ f g). }
  assert (Fh : forall g2 : Fiber, forall p, p <> f -> <[f := g2]> (heap (shared s)) !! p = heap (shared s) !! p).
  { intros g2 p Hpp. by rewrite lookup_insert_ne by done. }
  pose proof (on_thread_pure s l1 t l2 _ g E (fiber_at_run f g (shared s) (tls t) Hg)) as Eg.
  pose proof (fun g2 => on_thread_mid s l1 t l2 (store f g2) tt (set_heap (<[f := g2]> (heap (shared s))) (shared s))
    (tls t) E eq_refl) as Est.
  set (ft := mkFT (Some f) None (-1)).
  destruct (pushed_fields ft s) as (P1 & P2 & P3 & P4 & P5 & P6 & P7 & P8 & P9 & P10).
  assert (Hft : task_ok (heap (shared s)) ft).
  { split; [done|]. intros f' [= <-]. by exists g. }
  open Hpc. destruct (m_state g) eqn:Hst; try (by destruct Hp as [_ Hp]; rewrite Hst in Hp).
  all: cbn [kind_ok] in Hk; subst ft.
  1, 2: eassert (Ex : after_task (length l1) f KCb s = Ret tt _) by (unfold after_task; step_with Eg; rewrite Hst; step_with (Est (set_state HOLD g));
      by apply (set_thread_mid _ l1 (set_tls (tls t) t) l2)); step_with Ex;
    go_to PTop (set_cb_fiber None (set_tls (tls t) t)) eq_refl; eexists; (split; [reflexivity|]);
    apply (inv_top _ (set_pc PTop (set_cb_fiber None (set_tls (tls t) t))) f [f]); simp_move;
    [cbn; rewrite Hpc, Hk; cbn; solve_Permutation
    |by apply Fh|apply Dh|apply Forall_singleton, parked_hold; [done|done|by rewrite Hst]|intros ft' ?; by left].
  1, 3: assert (Er : reset f None (shared s, tls t) = Ret tt (set_heap (<[f := mkFiber (m_id g) (m_stacksize g) INIT
        (Entry MainFunc) true None]> (heap (shared s))) (shared s), tls t))
      by (apply reset_run; [done|apply Hp|by rewrite Hst]);
    eassert (Ex : after_task (length l1) f KCb s = Ret tt _) by (unfold after_task; step_with Eg; rewrite Hst; exact (on_thread_mid s l1 t l2 _ tt _ _ E Er)); step_with Ex;
    go_to PTop (set_tls (tls t) t) eq_refl; eexists; (split; [reflexivity|]);
    apply (inv_top _ (set_pc PTop (set_tls (tls t) t)) f []); simp_move;
    [unfold slot_ok; cbn; rewrite Hk; eexists; rewrite lookup_insert_eq; by repeat split
    |cbn; rewrite Hpc; cbn; solve_Permutation|by apply Fh|apply Dh|intros ft' ?; by left].
  1: { eassert (Ex : after_task (length l1) f KCb s = Ret tt _) by (unfold after_task; step_with Eg; rewrite Hst; step_with (schedule_run (mkFT (Some f) None (-1)) s eq_refl);
      exact (set_thread_mid _ l1 t l2 _ (eq_trans P4 E))). step_with Ex.
    go_to PTop (set_cb_fiber None t) eq_refl. eexists. split; [reflexivity|].
    apply (inv_top _ (set_pc PTop (set_cb_fiber None t)) f []); cbn [set_threads shared m_fibers m_threads m_rootThread
      m_rootFiber stop_pc taken m_activeThreadCount scheduled m_autoStop]; rewrite ?P1, ?P2, ?P3, ?P5, ?P6, ?P7, ?P8, ?P9, ?P10; simp_move.
    - rewrite Hpc, Hk. unfold queued. rewrite flat_map_app. cbn. solve_Permutation.
    - intros ft' [Hin|Hin%list_elem_of_singleton]%elem_of_app; [by left|right; by subst].
    - solve_Permutation. }
Qed.

Lemma case_after f k : pc t = PAfter f k -> ok (length l1) (advance stack_size (length l1) extra) s.
Proof. destruct k; [apply after_scheduled|apply after_cb]. Qed.

Section dispatch.
Context (ft : FiberAndThread) (tm act : bool).
Context (Hpc : pc t = PFetched ft tm act).
Context (Hl : in_loop (m_rootThread s) (heap (shared s)) t) (Hi : idle_ok (m_autoStop s) (heap (shared s)) t).
Context (Hs : slot_ok (heap (shared s)) t).
Context (Hp : forall f, ft_fiber ft = Some f -> parked (heap (shared s)) f).
Context (Ha : act = false -> ft = FT_reset).

Lemma pc_is : pc_fibers (pc t) = option_list (ft_fiber ft).
Proof. by rewrite Hpc. Qed.

Lemma pc_parked : Forall (parked (heap (shared s))) (pc_fibers (pc t)).
Proof. rewrite pc_is. destruct (ft_fiber ft) as [f|] eqn:Ef; [|done]. by apply Forall_singleton, Hp. Qed.

(** The task is dropped: it is a fiber that is over. *)
Lemma dispatch_none :
  act = true ->
  ok (length l1) (modify (fun s => set_active (u64 (m_activeThreadCount s - 1)) s);; goto (length l1) PTop) s.
Proof.
  intros Hact. unfold ok. set (s1 := set_active (u64 (m_activeThreadCount s - 1)) s).
  step_with (eq_refl : modify (fun s => set_active (u64 (m_activeThreadCount s - 1)) s) s = Ret tt s1).
  go_to PTop t E. eexists. split; [reflexivity|].
  apply (inv_move s _ l1 t (set_pc PTop t) l2); simp_move.
  - by rewrite Hpc.
  - exists (pc_fibers (pc t)). split; [|exact pc_parked]. unfold owned, slots. cbn. solve_Permutation.
  - unfold cnt. rewrite Hpc, Hact. done.
Qed.

Lemma dispatch_fiber f g :
  ft_fiber ft = Some f -> heap (shared s) !! f = Some g -> ended_state (m_state g) = false ->
  ok (length l1) (goto (length l1) (PSwapIn f KFiber)) s.
Proof.
  intros Ef Hg He. unfold ok. go_to (PSwapIn f KFiber) t E. eexists. split; [reflexivity|].
  assert (Hact : act = true) by (apply not_false_is_true; intros Hx; by rewrite (Ha Hx) in Ef).
  apply (inv_move s _ l1 t (set_pc (PSwapIn f KFiber) t) l2); simp_move.
  - by rewrite Hpc.
  - exists []. rewrite app_nil_r. split; [|done]. unfold owned, slots. by rewrite pc_is, Ef.
  - split; [done|]. split; [done|]. split; [done|]. destruct (Hp f Ef) as (g' & Hg' & Hpk). exists g.
    split; [done|]. split; [congruence|done].
  - unfold cnt. rewrite Hpc, Hact. exact (act_same s HI).
Qed.

Lemma dispatch_reset c cb :
  act = true -> cb_fiber t = Some c ->
  ok (length l1) (on_thread (length l1) (reset c (Some cb));; goto (length l1) (PSwapIn c KCb)) s.
Proof.
  intros Hact Hc. pose proof Hs as Hb. unfold slot_ok in Hb. rewrite Hc in Hb.
  destruct Hb as (g & Hg & Hg1 & Hg2 & Hg3).
  assert (Er : reset c (Some cb) (shared s, tls t) = Ret tt (set_heap (<[c := mkFiber (m_id g) (m_stacksize g) INIT
      (Entry MainFunc) true (Some cb)]> (heap (shared s))) (shared s), tls t)).
  { apply reset_run; [done|done|by rewrite Hg2]. }
  set (h' := <[c := _]> _) in Er. pose proof (cb_in t c Hc) as Hin.
  assert (F : forall p, p <> c -> h' !! p = heap (shared s) !! p).
  { intros p Hpc'. unfold h'. by rewrite lookup_insert_ne by done. }
  unfold ok. step_with (on_thread_mid s l1 t l2 _ tt _ _ E Er).
  go_to (PSwapIn c KCb) (set_tls (tls t) t) eq_refl. eexists. split; [reflexivity|].
  apply (inv_move s _ l1 t (set_pc (PSwapIn c KCb) (set_tls (tls t) t)) l2); simp_move.
  - by rewrite Hpc.
  - exists (pc_fibers (pc t)). split; [unfold owned, slots; cbn; solve_Permutation|].
    apply Forall_forall. intros f Hf. pose proof pc_parked as Hpk. rewrite Forall_forall in Hpk.
    apply (parked_frame (heap (shared s))); [|by apply Hpk]. apply F. intros ->. by apply (cb_pc_ne t c c ND Hc).
  - intros p Hpo. apply F. intros ->. by apply Hpo, slot_owned.
  - intros p. by apply (insert_dom _ c g).
  - split; [|split; [|split; [done|]]].
    + apply (loop_frame _ (heap (shared s)) _ t); [done..| |done]. intros p Hpm. apply F.
      intros ->. by apply (slot_main_ne t c ND Hin).
    + apply (idle_frame _ (heap (shared s)) _ t); [done| |done]. intros d Hd. apply F.
      by apply (idle_cb_ne t c d ND).
    + eexists. cbn. unfold h'. rewrite lookup_insert_eq. repeat split. by left.
  - unfold cnt. rewrite Hpc, Hact. exact (act_same s HI).
Qed.

Lemma dispatch_new cb :
  act = true -> cb_fiber t = None ->
  ok (length l1) (f ← on_thread (length l1) (Fiber_new stack_size (Some cb) 0 false);
      set_thread (length l1) (set_cb_fiber (Some f));; goto (length l1) (PSwapIn f KCb)) s.
Proof.
  intros Hact Hc.
  destruct (Fiber_new_run stack_size (Some cb) 0 (shared s) (tls t)) as (g & i & n & Hg & Er).
  set (p := next_addr (shared s)) in *. set (sh1 := mkFiberState _ _ _ _) in Er.
  destruct (next_free s p HI ltac:(done)) as [Hpo Hpn].
  unfold ok. step_with (on_thread_mid s l1 t l2 _ p _ _ E Er).
  set (t1 := set_tls (tls t) t). set (s1 := set_threads (l1 ++ t1 :: l2) (set_shared sh1 s)).
  step_with (set_thread_mid s1 l1 t1 l2 (set_cb_fiber (Some p)) eq_refl).
  go_to (PSwapIn p KCb) (set_cb_fiber (Some p) t1) eq_refl.
  eexists. split; [reflexivity|]. set (t' := set_pc (PSwapIn p KCb) (set_cb_fiber (Some p) t1)).
  assert (F : forall q, q <> p -> heap sh1 !! q = heap (shared s) !! q).
  { intros q Hq. cbn. by rewrite lookup_insert_ne by done. }
  assert (Fo : forall q, q ∈ owned t -> heap sh1 !! q = heap (shared s) !! q).
  { intros q Hq. apply F. intros ->. by apply Hpo, (owned_owns s l1 t l2 p E). }
  apply (inv_update s _ l1 [t] [t'] l2 [p] (pc_fibers (pc t))); try done.
  - by left.
  - apply (root_ok_step s _ l1 t t' l2); try done; [apply (inv_root s HI)|by left|by rewrite Hpc].
  - cbn [flat_map app]. rewrite !app_nil_r. cbn [m_fibers]. unfold owned, slots.
    cbn [t' t1 set_pc set_cb_fiber set_tls tls idle_fiber cb_fiber pc pc_fibers option_list]. rewrite Hc.
    cbn [option_list app m_fibers set_threads s1 set_shared]. solve_Permutation.
  - by apply NoDup_singleton.
  - intros q ->%list_elem_of_singleton. split; [done|]. cbn. lia.
  - cbn. lia.
  - intros q. cbn. destruct (decide (q = p)) as [->|]; [lia|]. rewrite lookup_insert_ne by done.
    intros Hq%(inv_heap s HI). lia.
  - intros q _ Hq. apply F. set_solver.
  - constructor; [|done]. split; [|split; [|split; [done|]]].
    + apply (loop_frame _ (heap (shared s)) _ t); [done|done| |done].
      intros q Hq. apply Fo. unfold owned. set_solver.
    + apply (idle_frame _ (heap (shared s)) _ t); [done| |done]. intros d Hd. by apply Fo, slot_owned, idle_in.
    + destruct Hg as (Hg1 & Hg2 & Hg3). exists g. cbn. rewrite lookup_insert_eq.
      unfold parked_fiber. rewrite Hg2. repeat split; try done. by left.
  - apply Forall_forall. intros f Hf. pose proof pc_parked as Hpk. rewrite Forall_forall in Hpk.
    apply (parked_frame (heap (shared s))); [|by apply Hpk]. by apply Fo, slot_owned, pc_in.
  - intros ft' Hin. by left.
  - unfold count, cnt. cbn. rewrite Hpc, Hact. exact (act_same s HI).
  - apply (inv_affine s HI).
Qed.

Lemma dispatch_idle :
  act = false ->
  ok (length l1) (idle ← on_thread (length l1) (deref (idle_fiber t));
      g ← on_thread (length l1) (fiber_at idle);
      if bool_decide (m_state g = TERM) then tickle;; goto (length l1) PExit
      else
        modify (fun s => set_idle (u64 (m_idleThreadCount s + 1)) s);;
        on_thread (length l1) (swapIn idle);;
        goto (length l1) PIdle) s.
Proof.
  intros Hact. pose proof (Ha Hact) as Hft. pose proof pc_is as Hpf. rewrite Hft in Hpf. cbn in Hpf.
  destruct Hi as (d & g & Hd & Hg & Hpk & Hne & Hau). unfold ok.
  step_with (on_thread_pure s l1 t l2 _ d E (deref_run _ d (shared s) (tls t) Hd)).
  step_with (on_thread_pure s l1 t l2 _ g E (fiber_at_run d g (shared s) (tls t) Hg)).
  destruct (bool_decide (m_state g = TERM)) eqn:Ht.
  - step_with (eq_refl : tickle s = Ret tt (add_tickle s)). go_to PExit t E. eexists. split; [reflexivity|].
    destruct Hl as (m & Hm & Hmt & Hmc & Hr).
    apply (inv_move s _ l1 t (set_pc PExit t) l2); simp_move.
    + by rewrite Hpc.
    + intros _. cbn. congruence.
    + exists []. rewrite app_nil_r. split; [|done]. unfold owned, slots. cbn. by rewrite Hpf.
    + split; [apply Hau; by apply bool_decide_eq_true in Ht|]. left. by exists m.
    + unfold cnt. rewrite Hpc, Hact. exact (act_same s HI).
  - apply bool_decide_eq_false in Ht. set (s1 := set_idle (u64 (m_idleThreadCount s + 1)) s).
    step_with (eq_refl : modify (fun s => set_idle (u64 (m_idleThreadCount s + 1)) s) s = Ret tt s1).
    assert (He : ended_state (m_state g) = false) by (by destruct (m_state g)).
    pose proof (idle_in t d Hd) as Hf.
    destruct (enter_task (m_rootThread s) (shared s) t d g Hl ND Hf Hg Hpk He)
      as (h' & l' & Es & Hm & Hth & Hin & F & D).
    step_with (on_thread_mid s1 l1 t l2 _ tt _ _ E Es).
    go_to PIdle (set_tls l' t) eq_refl. eexists. split; [reflexivity|].
    apply (inv_move s _ l1 t (set_pc PIdle (set_tls l' t)) l2); simp_move.
    + by rewrite Hpc.
    + exists []. rewrite app_nil_r. split; [|done]. apply Permutation_refl', owned_same;
        [by apply mains_same|unfold slots; cbn; by rewrite Hpf].
    + intros p Hpo. destruct (not_owned p d Hpo Hf). by apply F.
    + split; [|by exists d]. apply (slot_frame (heap (shared s)) h' t); [done| |done]. intros c Hc. apply F.
      * intros ->. by apply (idle_cb_ne t d d ND Hd Hc).
      * intros Hx. by apply (main_ne t c c ND Hx (cb_in t c Hc)).
    + unfold cnt. rewrite Hpc, Hact. exact (act_same s HI).
Qed.

Lemma case_dispatch : ok (length l1) (dispatch stack_size (length l1) t ft act) s.
Proof.
  unfold dispatch.
  assert (Hend : ok (length l1) (match ft_cb ft with
    | Some cb =>
      match cb_fiber t with
      | Some f => on_thread (length l1) (reset f (Some cb));; goto (length l1) (PSwapIn f KCb)
      | None =>
        f ← on_thread (length l1) (Fiber_new stack_size (Some cb) 0 false);
        set_thread (length l1) (set_cb_fiber (Some f));; goto (length l1) (PSwapIn f KCb)
      end
    | None =>
      if act then modify (fun s => set_active (u64 (m_activeThreadCount s - 1)) s);; goto (length l1) PTop
      else
        idle ← on_thread (length l1) (deref (idle_fiber t));
        g ← on_thread (length l1) (fiber_at idle);
        if bool_decide (m_state g = TERM) then tickle;; goto (length l1) PExit
        else
          modify (fun s => set_idle (u64 (m_idleThreadCount s + 1)) s);;
          on_thread (length l1) (swapIn idle);;
          goto (length l1) PIdle
    end) s).
  { destruct (ft_cb ft) as [cb|] eqn:Ecb.
    - assert (Hact : act = true) by (apply not_false_is_true; intros Hx; by rewrite (Ha Hx) in Ecb).
      destruct (cb_fiber t) as [c|] eqn:Ec; [by apply dispatch_reset|by apply dispatch_new].
    - assert (act = true \/ act = false) as [Hact|Hact] by (destruct act; [by left|by right]); rewrite Hact;
        [by apply dispatch_none|by apply dispatch_idle]. }
  case_eq (ft_fiber ft); [intros f Ef|intros Ef].
  - destruct (Hp f Ef) as (g & Hg & Hpk).
    pose proof (on_thread_pure s l1 t l2 _ g E (fiber_at_run f g (shared s) (tls t) Hg)) as Eg.
    unfold ok. erewrite (bind_Ret _ _ s (negb (ended_state (m_state g))) s) by (by step_with Eg).
    destruct (ended_state (m_state g)) eqn:He; cbn [negb]; [|by apply (dispatch_fiber f g)].
    destruct Hend as (s' & Es & HI'). exists s'. split; [|done]. rewrite <- Es. by destruct (ft_cb ft).
  - unfold ok. erewrite (bind_Ret _ _ s false s) by reflexivity.
    destruct Hend as (s' & Es & HI'). exists s'. split; [|done]. rewrite <- Es. by destruct (ft_cb ft).
Qed.
End dispatch.
End step_cases.

Lemma inv_tickle s : Inv s -> Inv (add_tickle s).
Proof. intros [H1 H2 H3 H4 H5 H6 H7 H8 H9 H10]. by constructor. Qed.

Lemma case_fetched ss s l1 t l2 extra ft tm act :
  Inv s -> m_threads s = l1 ++ t :: l2 -> pc t = PFetched ft tm act ->
  ok (length l1) (advance ss (length l1) extra) s.
Proof.
  intros HI E Hpc. pose proof (inv_here s l1 t l2 HI E) as H. unfold thr_ok in H. rewrite Hpc in H.
  destruct H as (Hl & Hi & Hs & Hp & Ha).
  unfold ok, advance. rewrite (bind_Ret get _ s s s eq_refl), E, lookup_mid, Hpc. destruct tm.
  - rewrite (bind_Ret (when true tickle) _ s tt (add_tickle s) eq_refl).
    by apply (case_dispatch ss (add_tickle s) l1 t l2 (inv_tickle s HI) E ft true act).
  - rewrite (bind_Ret (when false tickle) _ s tt s eq_refl).
    by apply (case_dispatch ss s l1 t l2 HI E ft false act).
Qed.

(** Every step of a thread. *)
Lemma advance_ok ss s i extra : Inv s -> ok i (advance ss i extra) s.
Proof.
  intros HI. destruct (m_threads s !! i) as [t|] eqn:Hi.
  - apply list_elem_of_split_length in Hi as (l1 & l2 & E & ->).
    destruct (pc t) as [| | |ft tm act|f k|f k|f k cur ended|f k|f k| | |] eqn:Hpc.
    2: by apply (case_start ss s l1 t l2 extra).
    2: by apply (case_top ss s l1 t l2 extra).
    2: by apply (case_fetched ss s l1 t l2 extra ft tm act).
    2: by apply (case_swapIn ss s l1 t l2 extra HI E f k).
    3: by apply (case_yield ss s l1 t l2 extra HI E f k cur ended).
    3: by apply (case_back ss s l1 t l2 extra HI E f k).
    3: by apply (case_after ss s l1 t l2 extra HI E f k).
    3: by apply (case_idle ss s l1 t l2 extra).
    3: by apply (case_idleBack ss s l1 t l2 extra).
    all: exists s; split; [|done]; unfold advance;
      rewrite (bind_Ret get _ s s s eq_refl), E, lookup_mid, Hpc; reflexivity.
  - exists s. split; [|done]. unfold advance. rewrite (bind_Ret get _ s s s eq_refl), Hi. reflexivity.
Qed.

(** ** What tasks and other threads do *)

(** A fiber nobody runs, has taken or has queued. *)
Definition free (s : Scheduler) (f : nat) : bool :=
  bool_decide (f ∉ owns s) && match heap (shared s) !! f with Some g => m_stack g | None => false end.
Definition allowed_ft (s : Scheduler) (ft : FiberAndThread) : bool :=
  match ft_fiber ft with Some f => free s f | None => true end.

(** How a program uses the scheduler: a fiber is scheduled only while it is free,
    the pool is started once, by threads the kernel numbers apart, and [stop]
    is called on the thread of the constructor exactly with [use_caller]. *)
Definition allowed (s : Scheduler) (a : action) : bool :=
  match a with
  | Body _ (BSchedule ft) | Schedule ft => allowed_ft s ft
  | Start ids =>
    forallb (fun id => negb (id =? m_rootThread s) && negb (id =? -1)) ids &&
    (negb (m_stopping s) || threads_empty s)
  | Stop on_this _ => Bool.eqb on_this (match m_rootFiber s with Some _ => true | None => false end)
  | _ => true
  end.

Lemma schedule_ok i s ft : Inv s -> allowed_ft s ft = true -> ok i (schedule ft) s.
Proof.
  intros HI Ha. destruct (ft_some ft) eqn:Hs.
  - exists (pushed ft s). split; [by apply schedule_run|].
    destruct (pushed_fields ft s) as (P1 & P2 & P3 & P4 & P5 & P6 & P7 & P8 & P9 & P10).
    assert (Hft : task_ok (heap (shared s)) ft /\ forall f, ft_fiber ft = Some f -> f ∉ owns s).
    { unfold allowed_ft, free in Ha. split.
      - split; [done|]. intros f Hf. rewrite Hf in Ha. apply andb_prop in Ha as [Ho Hh].
        apply bool_decide_eq_true in Ho. destruct (heap (shared s) !! f) as [g|] eqn:Hg; [|done].
        exists g. split; [done|]. by apply (inv_free s HI f g).
      - intros f Hf. rewrite Hf in Ha. apply andb_prop in Ha as [Ho _]. by apply bool_decide_eq_true in Ho. }
    destruct Hft as [Hft Hfree].
    apply (widen (length (m_threads s))), (inv_update s (pushed ft s) (m_threads s) [] [] [] (option_list (ft_fiber ft)) []); rewrite ?P5, ?P7, ?P10; try done.
    + by rewrite app_nil_r.
    + rewrite P4. by rewrite app_nil_r.
    + by left.
    + unfold root_ok. rewrite P4, P7, P8, P9. apply (inv_root s HI).
    + rewrite P1. unfold queued. rewrite flat_map_app. cbn. solve_Permutation.
    + destruct (ft_fiber ft); [apply NoDup_singleton|constructor].
    + intros p Hp. destruct (ft_fiber ft) as [f|] eqn:Ef; [|by apply not_elem_of_nil in Hp].
      apply list_elem_of_singleton in Hp as ->. split; [by apply Hfree|]. apply (inv_heap s HI).
      destruct (proj2 Hft f Ef) as (g & Hg & _). by rewrite Hg.
    + apply (inv_heap s HI).
    + intros ft' Hin. rewrite P1 in Hin. apply elem_of_app in Hin as [?|Hin]; [by left|].
      apply list_elem_of_singleton in Hin as ->. by right.
    + rewrite P6. exact (act_same s HI).
    + rewrite P1, P2, P3. solve_Permutation.
    + rewrite P3. apply (inv_affine s HI).
  - exists (match m_fibers s with [] => add_tickle s | _ => s end). split.
    + unfold schedule, scheduleNoLock.
      erewrite bind_Ret; [|step_with (eq_refl : get s = Ret s s); rewrite Hs; reflexivity].
      by destruct (m_fibers s).
    + destruct (m_fibers s); (split; [|done]); [by apply inv_tickle|done].
Qed.

Lemma yield_ok s l1 t l2 f k g g2 ended :
  Inv s -> m_threads s = l1 ++ t :: l2 -> pc t = PRun f k ->
  heap (shared s) !! f = Some g -> m_ctx g2 = m_ctx g -> m_stack g2 = m_stack g ->
  yielded ended (m_state g2) = true ->
  let s' := set_threads (l1 ++ set_pc (PYield f k f ended) (set_tls (tls t) t) :: l2)
    (set_shared (set_heap (<[f := g2]> (heap (shared s))) (shared s)) s) in
  Inv s' /\ kept (length l1) 1 s s'.
Proof.
  intros HI E Hpc Hg Hc Hs Hy s'. pose proof (inv_here s l1 t l2 HI E) as H. unfold thr_ok in H. rewrite Hpc in H.
  destruct H as (Hi & Hk & Hin). pose proof (inv_owned_nodup s l1 t l2 HI E) as ND.
  assert (Hpf : k = KFiber -> f ∈ pc_fibers (pc t)) by (intros ->; rewrite Hpc; cbn; set_solver).
  pose proof (kind_in _ t f k Hk Hpf) as Hf.
  assert (F : forall p, p <> f -> <[f := g2]> (heap (shared s)) !! p = heap (shared s) !! p).
  { intros p Hp. by rewrite lookup_insert_ne by done. }
  apply (inv_move s _ l1 t (set_pc (PYield f k f ended) (set_tls (tls t) t)) l2); try done.
  - by rewrite Hpc.
  - exists []. rewrite app_nil_r. split; [|done]. apply Permutation_refl', owned_same;
      [done|unfold slots; cbn; by rewrite Hpc].
  - intros p Hp. apply F. intros ->. by apply Hp, slot_owned.
  - intros p. by apply (insert_dom _ f g).
  - split; [done|]. split; [|split].
    + apply (idle_frame _ (heap (shared s)) _ t); [done| |done]. intros d Hd. apply F.
      by apply (idle_ne_kind s l1 t l2 HI E (heap (shared s)) f k Hk Hpf).
    + apply (kind_frame (heap (shared s)) _ t); [done| |done]. intros d Hkf Hd. apply F.
      apply (cb_pc_ne t f d ND Hd), Hpf, Hkf.
    + by apply (in_task_set (m_rootThread s) (heap (shared s)) t f is_exec (yielded ended) g g2).
  - unfold cnt. rewrite Hpc. exact (act_same s HI).
Qed.

Lemma run_body_ok s i b : Inv s -> allowed s (Body i b) = true -> ok i (run_body i b) s.
Proof.
  intros HI Ha. unfold ok, run_body. rewrite (bind_Ret get _ s s s eq_refl).
  pose proof (stays i s HI) as Hnop. unfold ok in Hnop.
  destruct (m_threads s !! i) as [t|] eqn:Hi; [|done].
  apply list_elem_of_split_length in Hi as (l1 & l2 & E & ->).
  destruct (pc t) as [| | |ft tm act|f k|f k|f k cur ended|f k|f k| | |] eqn:Hpc; try done.
  - pose proof (inv_here s l1 t l2 HI E) as H. unfold thr_ok in H. rewrite Hpc in H. destruct H as (_ & _ & Hin).
    destruct (in_task_at _ _ _ _ _ Hin) as (Ht & g & Hg & _ & _ & _).
    pose proof (on_thread_pure s l1 t l2 _ g E (fiber_at_run f g (shared s) (tls t) Hg)) as Eg.
    step_with Eg. cbv zeta.
    assert (Hend : forall r, exists s', (on_thread (length l1) (mark_end f r);; goto (length l1) (PYield f k f true)) s =
      Ret tt s' /\ Inv s' /\ kept (length l1) 1 s s').
    { intros r. step_with (on_thread_mid s l1 t l2 _ tt _ _ E (mark_end_run f g (shared s) (tls t) r Hg)).
      match goal with |- context [goto _ _ ?s1] =>
        rewrite (goto_mid s1 l1 (set_tls (tls t) t) l2 (PYield f k f true) eq_refl) end.
      eexists. split; [reflexivity|]. apply (yield_ok s l1 t l2 f k g); destruct r; done. }
    assert (Hyield : forall st, st = HOLD \/ st = READY ->
      exists s', (cur ← on_thread (length l1) (mark_yield st); goto (length l1) (PYield f k cur false)) s = Ret tt s' /\ Inv s' /\ kept (length l1) 1 s s').
    { intros st Hst. step_with (on_thread_mid s l1 t l2 _ f _ _ E (mark_yield_run st f g (shared s) (tls t) Ht Hg)).
      match goal with |- context [goto _ _ ?s1] =>
        rewrite (goto_mid s1 l1 (set_tls (tls t) t) l2 (PYield f k f false) eq_refl) end.
      eexists. split; [reflexivity|]. apply (yield_ok s l1 t l2 f k g); try done. by apply bool_decide_eq_true. }
    destruct (m_cb g); [|apply Hend].
    destruct b as [ft| | | |]; [by apply schedule_ok|apply Hyield; by right|apply Hyield; by left|apply Hend|apply Hend].
  - destruct b as [ft| | | |]; try done. by apply schedule_ok.
Qed.

Lemma new_ok i ss s cb : Inv s -> ok i (new_fiber ss cb) s.
Proof.
  intros HI. destruct (Fiber_new_run ss cb 0 (shared s) tls_new) as (g & ix & n & (Hg1 & Hg2 & Hg3) & Er).
  set (p := next_addr (shared s)) in *. destruct (next_free s p HI ltac:(done)) as [Hpo Hpn].
  unfold ok, new_fiber. rewrite Er. eexists. split; [reflexivity|].
  apply (widen (length (m_threads s))), (inv_update s _ (m_threads s) [] [] [] [p] [p]); try done; rewrite ?app_nil_r; try done.
  - by left.
  - apply (inv_root s HI).
  - cbn. solve_Permutation.
  - by apply NoDup_singleton.
  - intros q ->%list_elem_of_singleton. split; [done|]. cbn. lia.
  - cbn. lia.
  - intros q. cbn. destruct (decide (q = p)) as [->|]; [lia|]. rewrite lookup_insert_ne by done.
    intros Hq%(inv_heap s HI). lia.
  - intros q _ Hq. cbn. rewrite lookup_insert_ne; [done|set_solver].
  - apply Forall_singleton. exists g. cbn. rewrite lookup_insert_eq. split; [done|]. split; [done|].
    rewrite Hg2. by left.
  - intros ft Hin. by left.
  - exact (act_same s HI).
  - apply (inv_affine s HI).
Qed.

Lemma inv_flags a b s : (m_autoStop s = true -> b = true) -> Inv s -> Inv (set_flags a b s).
Proof.
  intros Hb [H1 H2 H3 H4 H5 H6 H7 H8 H9 H10]. constructor; try done.
  eapply Forall_impl; [exact H4|]. intros t. by apply thr_ok_frame.
Qed.

Lemma inv_stop_pc v s : Inv s -> root_ok (set_stop_pc v s) -> Inv (set_stop_pc v s).
Proof. intros [H1 H2 H3 H4 H5 H6 H7 H8 H9 H10] Hr. by constructor. Qed.

Lemma start_ok i s ids : Inv s -> allowed s (Start ids) = true -> ok i (start ids) s.
Proof.
  intros HI Ha. cbn [allowed] in Ha. apply andb_prop in Ha as [Hids Hem].
  unfold ok, start. rewrite (bind_Ret get _ s s s eq_refl).
  destruct (m_stopping s); cbn [negb] in *; [|exact (stays i s HI)]. cbn [orb] in Hem.
  step_with (eq_refl : modify (set_flags false (m_autoStop s)) s = Ret tt (set_flags false (m_autoStop s) s)).
  step_with (assert_run (threads_empty s) "m_threads.empty()" (set_flags false (m_autoStop s) s) Hem).
  eexists. split; [reflexivity|]. set (s1 := set_flags false (m_autoStop s) s).
  set (new := map (fun id => mkThr id tls_new PStart None None) (take (Z.to_nat (m_threadCount s1)) ids)).
  assert (Hnew : Forall (fun t => tid t <> m_rootThread s /\ tid t <> -1 /\ t = mkThr (tid t) tls_new PStart None None) new).
  { apply Forall_forall. intros t (id & -> & Hin)%list_elem_of_fmap. cbn.
    rewrite forallb_forall in Hids. apply elem_of_take in Hin as (j & Hj & _).
    apply list_elem_of_lookup_2, list_elem_of_In, Hids in Hj. split; [lia|]. split; [lia|done]. }
  assert (Hown : flat_map owned new = []).
  { clearbody new. induction new as [|t new IH]; [done|]. apply Forall_cons in Hnew as [(_ & _ & ->) Hn].
    cbn. by apply IH. }
  assert (Hcnt : count new = 0).
  { clearbody new. unfold count in *. induction new as [|t new IH]; [done|].
    apply Forall_cons in Hnew as [(_ & _ & ->) Hn].
    cbn [flat_map] in Hown. apply app_eq_nil in Hown as [_ Hown]. cbn [foldr]. rewrite IH by done. done. }
  pose proof (inv_flags false (m_autoStop s) s (fun x => x) HI) as HI1. fold s1 in HI1.
  apply (widen (length (m_threads s))), (inv_update s1 _ (m_threads s) [] new [] [] []); try done.
  - by rewrite app_nil_r.
  - by rewrite app_nil_r.
  - by right.
  - pose proof (inv_root s HI) as Hr. unfold root_ok in *. cbn.
    destruct (m_rootFiber s) as [r|].
    + destruct Hr as (Hne & t0 & rest & Eq & H0 & Hrest & Hx). split; [done|]. exists t0, (rest ++ new).
      rewrite Eq. split; [done|]. split; [done|]. split; [|done]. apply Forall_app. split; [done|].
      eapply Forall_impl; [exact Hnew|]. by intros t (H & _).
    + destruct Hr as (H1 & H2 & H3). repeat split; try done. apply Forall_app. split; [done|].
      eapply Forall_impl; [exact Hnew|]. by intros t (_ & H & _).
  - rewrite Hown. cbn [flat_map app]. by rewrite app_nil_r.
  - by constructor.
  - intros p Hp. by apply not_elem_of_nil in Hp.
  - apply (inv_heap s HI).
  - eapply Forall_impl; [exact Hnew|]. intros t (H1 & _ & ->). unfold thr_ok. cbn [pc idle_fiber cb_fiber tid tls].
    split; [done|]. split; [done|]. destruct (tid t =? m_rootThread s1) eqn:Hx; [|done]. by apply Z.eqb_eq in Hx.
  - intros ft Hin. by left.
  - rewrite Hcnt. exact (act_same s HI).
  - apply (inv_affine s HI).
Qed.

Lemma call_run r c g gc sh l :
  heap sh !! r = Some g -> m_state g = INIT -> m_ctx g = Entry CallerMainFunc ->
  t_threadFiber l = Some c -> heap sh !! c = Some gc -> c <> r ->
  call r (sh, l) = Ret tt
    (set_heap (<[r := set_ctx Running (set_state EXEC g)]> (<[c := set_ctx (Saved (on_cpu l)) gc]>
       (<[r := set_state EXEC g]> (heap sh)))) sh,
     set_on_cpu (Some r) (set_fiber (Some r) l)).
Proof.
  intros Hf Hst Hc Hm Hgm Hne. unfold call. set (l1 := set_fiber (Some r) l).
  step_with (eq_refl : SetThis (Some r) (sh, l) = Ret tt (sh, l1)).
  step_with (fiber_at_run r g sh l1 Hf).
  step_with (assert_run (bool_decide (m_state g <> EXEC)) "m_state != EXEC" (sh, l1)
    ltac:(apply bool_decide_eq_true; by rewrite Hst)).
  set (sh1 := set_heap (<[r := set_state EXEC g]> (heap sh)) sh).
  step_with (eq_refl : store r (set_state EXEC g) (sh, l1) = Ret tt (sh1, l1)).
  step_with (eq_refl : get (sh1, l1) = Ret (sh1, l1) (sh1, l1)). cbn [snd].
  step_with (deref_run (t_threadFiber l1) c sh1 l1 Hm). unfold swapcontext.
  assert (Hc1 : heap sh1 !! c = Some gc) by (cbn; by rewrite lookup_insert_ne by done).
  step_with (fiber_at_run c gc sh1 l1 Hc1).
  step_with (eq_refl : get (sh1, l1) = Ret (sh1, l1) (sh1, l1)). cbn [snd].
  set (h2 := <[c := set_ctx (Saved (on_cpu l)) gc]> (<[r := set_state EXEC g]> (heap sh))).
  step_with (eq_refl : store c (set_ctx (Saved (on_cpu l1)) gc) (sh1, l1) = Ret tt (set_heap h2 sh1, l1)).
  assert (Hr2 : heap (set_heap h2 sh1) !! r = Some (set_state EXEC g)).
  { cbn. unfold h2. rewrite lookup_insert_ne by done. by rewrite lookup_insert_eq. }
  step_with (fiber_at_run r _ (set_heap h2 sh1) l1 Hr2). cbn [m_ctx set_state]. rewrite Hc. reflexivity.
Qed.

Lemma caller_end_run r c g gc sh l :
  heap sh !! r = Some g -> t_threadFiber l = Some c -> heap sh !! c = Some gc ->
  m_ctx gc = Saved (Some c) -> c <> r ->
  exists g' gc', m_ctx gc' = Running /\ m_stack g' = m_stack g /\
  CallerMainFunc_end r true (sh, l) = Ret tt
    (set_heap (<[c := gc']> (<[r := g']> (<[r := set_state TERM (set_cb None g)]> (heap sh)))) sh,
     set_on_cpu (Some c) (set_fiber (Some c) l)).
Proof.
  intros Hf Hm Hgm Hc Hne. eexists (set_ctx Ended (set_state TERM (set_cb None g))), (set_ctx Running gc).
  split; [done|]. split; [done|]. unfold CallerMainFunc_end.
  step_with (mark_end_run r g sh l true Hf). set (sh1 := set_heap _ sh). unfold back_from.
  step_with (eq_refl : get (sh1, l) = Ret (sh1, l) (sh1, l)). cbn [snd]. rewrite Hm.
  set (l1 := set_fiber (Some c) l).
  step_with (eq_refl : SetThis (Some c) (sh1, l) = Ret tt (sh1, l1)).
  step_with (eq_refl : deref (Some c) (sh1, l1) = Ret c (sh1, l1)). unfold swapcontext.
  assert (Hr1 : heap sh1 !! r = Some (set_state TERM (set_cb None g))) by (cbn; by rewrite lookup_insert_eq).
  step_with (fiber_at_run r _ sh1 l1 Hr1).
  step_with (eq_refl : get (sh1, l1) = Ret (sh1, l1) (sh1, l1)).
  set (h2 := <[r := set_ctx Ended (set_state TERM (set_cb None g))]> (heap sh1)).
  step_with (eq_refl : store r (set_ctx Ended (set_state TERM (set_cb None g))) (sh1, l1) = Ret tt (set_heap h2 sh1, l1)).
  assert (Hc2 : heap (set_heap h2 sh1) !! c = Some gc).
  { cbn. unfold h2. rewrite lookup_insert_ne by done. cbn. by rewrite lookup_insert_ne by done. }
  step_with (fiber_at_run c gc (set_heap h2 sh1) l1 Hc2). rewrite Hc. reflexivity.
Qed.

Lemma root_ok_flags a b s : root_ok s -> root_ok (set_flags a b s).
Proof. done. Qed.

Lemma root_ok_stop v s :
  root_ok s -> v = SDone \/ v = SJoin \/ v = SFlags /\ stop_pc s = SNone -> root_ok (set_stop_pc v s).
Proof.
  unfold root_ok. cbn. intros Hr Hv. destruct (m_rootFiber s) as [r|].
  - destruct Hr as (Hne & t0 & rest & Eq & H0 & Hrest & Hm & Hx). split; [done|]. exists t0, rest.
    repeat split; try done. destruct Hv as [->|[->|[-> Hs]]]; [done|done|]. by rewrite Hs in Hx.
  - destruct Hr as (H1 & H2 & H3). repeat split; try done. by destruct Hv as [->|[->|[-> _]]].
Qed.

Lemma root_fiber s r :
  Inv s -> m_rootFiber s = Some r -> stop_pc s = SNone \/ stop_pc s = SFlags ->
  exists t0 rest c g gc, m_threads s = t0 :: rest /\ tid t0 = m_rootThread s /\ pc t0 = PNotStarted /\
    idle_fiber t0 = None /\ cb_fiber t0 = None /\
    t_threadFiber (tls t0) = Some c /\ t_mainFiber (tls t0) = Some r /\ c <> r /\
    t_fiber (tls t0) = Some c /\ on_cpu (tls t0) = Some c /\
    heap (shared s) !! c = Some gc /\ m_ctx gc = Running /\
    heap (shared s) !! r = Some g /\ m_state g = INIT /\ m_ctx g = Entry CallerMainFunc.
Proof.
  intros HI Er Hs. pose proof (inv_root s HI) as Hr. unfold root_ok in Hr. rewrite Er in Hr.
  destruct Hr as (_ & t0 & rest & Eq & H0 & _ & Hm & Hx).
  assert (Hpc : pc t0 = PNotStarted) by (destruct Hs as [Hs|Hs]; by rewrite Hs in Hx).
  pose proof (inv_here s [] t0 rest HI Eq) as H. unfold thr_ok in H. rewrite Hpc in H.
  destruct H as (_ & Hid & Hcb & c & m & g & Hc & Hm' & Hne & Ht & Ho & (gc & Hgc & Hcx) & Hg & Hst & Hcc).
  rewrite Hm in Hm'. injection Hm' as <-. exists t0, rest, c, g, gc. repeat split; done.
Qed.

Lemma stop_none s on_this extra :
  Inv s -> stop_pc s = SNone -> allowed s (Stop on_this extra) = true -> ok 0 (stop on_this extra) s.
Proof.
  intros HI Hs Ha. cbn [allowed] in Ha. apply Bool.eqb_prop in Ha.
  unfold ok, stop. rewrite (bind_Ret get _ s s s eq_refl). cbv zeta. rewrite Hs.
  set (s1 := set_flags (m_stopping s) true s).
  step_with (eq_refl : modify (set_flags (m_stopping s) true) s = Ret tt s1).
  pose proof (inv_flags (m_stopping s) true s (fun _ => eq_refl) HI : Inv s1) as HI1.
  assert (Hroot : exists b, (match m_rootFiber s with
      | Some r => match heap (shared s) !! r with
          | Some g => mret (is_over (m_state g) && negb (bool_decide (m_state g = EXCEPT)))
          | None => crash_with NullDeref end
      | None => mret false
      end : SM bool) s1 = Ret b s1).
  { destruct (m_rootFiber s) as [r|] eqn:Er; [|by exists false].
    destruct (root_fiber s r HI Er) as (_ & _ & _ & g & _ & _ & _ & _ & _ & _ & _ & _ & _ & _ & _ & _ & _ & Hg & _);
      [by left|]. rewrite Hg. by eexists. }
  destruct Hroot as [b Eb]. step_with Eb.
  assert (Hearly : exists e s2, (Inv s2 /\ kept 0 1 s s2) /\ stop_pc s2 = SNone /\
    (if b && (m_threadCount s =? 0) then modify (set_flags true true);; s ← get; mret (stopping extra s)
     else mret false) s1 = Ret e s2 /\ root_ok s2).
  { destruct (b && (m_threadCount s =? 0)).
    - eexists _, (set_flags true true s1). split; [split; [by apply inv_flags|done]|]. split; [done|]. split; [reflexivity|].
      apply (inv_root s HI).
    - exists false, s1. split; [done|]. split; [done|]. split; [done|]. apply (inv_root s HI). }
  destruct Hearly as (e & s2 & [HI2 Hk2] & Hs2 & Ee & Hr2). step_with Ee. destruct e.
  - eexists. split; [reflexivity|]. split; [|by apply Hk2]. apply inv_stop_pc; [done|]. apply root_ok_stop; [done|by left].
  - assert (Has : (if m_rootThread s =? -1 then assert (negb on_this) "GetThis() != this"
      else assert on_this "GetThis() == this") s2 = Ret tt s2).
    { pose proof (inv_root s HI) as Hr. unfold root_ok in Hr. rewrite Ha. destruct (m_rootFiber s).
      - destruct Hr as (Hne & _). by rewrite (proj2 (Z.eqb_neq _ _) Hne).
      - destruct Hr as (-> & _). done. }
    step_with Has.
    step_with (eq_refl : modify (set_flags true true) s2 = Ret tt (set_flags true true s2)).
    eexists. split; [reflexivity|]. split; [|by apply Hk2]. apply inv_stop_pc; [by apply inv_flags|].
    apply root_ok_stop; [done|]. right; right. done.
Qed.

Lemma tickles_run n s0 :
  Inv s0 -> exists s1, Nat.iter n (fun m => m;; tickle) (mret tt : SM unit) s0 = Ret tt s1 /\ Inv s1 /\
    m_threads s1 = m_threads s0 /\ shared s1 = shared s0 /\ m_rootFiber s1 = m_rootFiber s0 /\
    m_rootThread s1 = m_rootThread s0 /\ stop_pc s1 = stop_pc s0.
Proof.
  intros HI. induction n as [|n (s1 & E & HI1 & IH)]; [by exists s0|].
  exists (add_tickle s1). split; [exact (bind_Ret _ (fun _ => tickle) s0 tt s1 E)|]. split; [by apply inv_tickle|]. exact IH.
Qed.

(** The caller of stop runs the root fiber, which goes through [run] on its thread. *)
Lemma stop_calls_root s2 r :
  Inv s2 -> stop_pc s2 = SFlags -> m_rootFiber s2 = Some r ->
  exists s', (on_thread 0 (call r);; goto 0 PStart;; modify (set_stop_pc SCall)) s2 = Ret tt s' /\ Inv s' /\ kept 0 1 s2 s'.
Proof.
  intros HI2 U5 Er.
  destruct (root_fiber s2 r HI2) as (t0 & rest & c & g & gc & Eq & H0 & Hpc & Hid & Hcb & Hc & Hm & Hne & Ht & Ho & Hgc & Hcx & Hg & Hst & Hcc);
    [done|by right|].
  pose proof (call_run r c g gc (shared s2) (tls t0) Hg Hst Hcc Hc Hgc Hne) as Ec.
  set (h' := <[r := _]> _) in Ec. set (l' := set_on_cpu _ _) in Ec.
  step_with (on_thread_mid s2 [] t0 rest (call r) tt _ _ Eq Ec).
  set (s3 := set_threads ([] ++ set_tls l' t0 :: rest) (set_shared (set_heap h' (shared s2)) s2)).
  step_with (goto_mid s3 [] (set_tls l' t0) rest PStart eq_refl).
  eexists. split; [reflexivity|]. set (t' := set_pc PStart (set_tls l' t0)).
  assert (F : forall p, p <> r -> p <> c -> h' !! p = heap (shared s2) !! p).
  { intros p Hr Hcp. unfold h'. by rewrite !lookup_insert_ne by done. }
  apply (inv_update s2 _ [] [t0] [t'] rest [] []); try done.
  - by left.
  - pose proof (inv_root s2 HI2) as Hr. unfold root_ok in *. cbn. rewrite Er in *.
    destruct Hr as (Hn1 & t0' & rest' & Eq' & _ & Hrest & _). rewrite Eq in Eq'. injection Eq' as <- <-.
    split; [done|]. exists t', rest. done.
  - cbn [flat_map app]. rewrite !app_nil_r. unfold owned, slots. cbn. by rewrite Hpc.
  - by constructor.
  - intros p Hp. by apply not_elem_of_nil in Hp.
  - intros p. cbn. destruct (decide (p = r)) as [->|Hpr]; [intros _; apply (inv_heap s2 HI2); by rewrite Hg|].
    destruct (decide (p = c)) as [->|Hpc']; [intros _; apply (inv_heap s2 HI2); by rewrite Hgc|].
    rewrite F by done. apply (inv_heap s2 HI2).
  - intros p Hp _. cbn in Hp. rewrite app_nil_r in Hp. apply F.
    + intros ->. by apply Hp, main_owned.
    + intros ->. apply Hp, elem_of_app. left. by apply thread_in.
  - constructor; [|done]. split; [done|]. split; [done|]. cbn. rewrite H0, Z.eqb_refl.
    exists r. repeat split; try done.
    + eexists. unfold h'. by rewrite lookup_insert_eq.
    + unfold outer_ok. cbn. rewrite H0, Z.eqb_refl. exists c, r. repeat split; try done.
      eexists. unfold h'. rewrite lookup_insert_ne by done. rewrite lookup_insert_eq. split; [done|]. cbn. by rewrite Ho.
  - intros ft Hin. by left.
  - unfold count, cnt. cbn. rewrite Hpc. exact (act_same s2 HI2).
  - apply (inv_affine s2 HI2).
Qed.

Lemma stop_flags s on_this extra :
  Inv s -> stop_pc s = SFlags -> ok 0 (stop on_this extra) s.
Proof.
  intros HI Hs. unfold ok, stop. rewrite (bind_Ret get _ s s s eq_refl). cbv zeta. rewrite Hs.
  destruct (tickles_run (Z.to_nat (m_threadCount s)) s HI) as (s1 & E1 & HI1 & T1 & T2 & T3 & T4 & T5).
  step_with E1.
  set (rooted := match m_rootFiber s with Some _ => true | None => false end).
  set (s2 := if rooted then add_tickle s1 else s1).
  assert (E2 : when rooted tickle s1 = Ret tt s2) by (unfold s2; by destruct rooted).
  assert (HI2 : Inv s2) by (unfold s2; destruct rooted; [by apply inv_tickle|done]).
  step_with E2.
  assert (U : m_threads s2 = m_threads s /\ shared s2 = shared s /\ m_rootFiber s2 = m_rootFiber s /\
    m_rootThread s2 = m_rootThread s /\ stop_pc s2 = SFlags).
  { unfold s2. rewrite <- T1, <- T2, <- T3, <- T4, <- Hs, <- T5. by destruct rooted. }
  destruct U as (U1 & U2 & U3 & U4 & U5). clearbody s2.
  assert (HK2 : kept 0 1 s s2).
  { intros j t Hj Ht. by rewrite U1, U2. }
  assert (Hjoin : exists s', modify (set_stop_pc SJoin) s2 = Ret tt s' /\ Inv s' /\ kept 0 1 s s').
  { eexists. split; [reflexivity|]. split; [|exact HK2]. apply inv_stop_pc; [done|]. apply root_ok_stop; [apply (inv_root s2 HI2)|].
    right; by left. }
  destruct (rooted && negb (stopping extra s)) eqn:Hb; [|exact Hjoin]. apply andb_prop in Hb as [Hb _].
  unfold rooted in Hb. destruct (m_rootFiber s) as [r|] eqn:Er; [clear Hb|done].
  destruct (stop_calls_root s2 r HI2 U5 U3) as (s' & E & HI' & Hk'). exists s'. split; [exact E|]. split; [done|].
  intros j t Hj Hlk. rewrite <- U1 in Hlk. rewrite <- U2. by apply Hk'.
Qed.

Lemma stop_call s on_this extra :
  Inv s -> stop_pc s = SCall -> ok 0 (stop on_this extra) s.
Proof.
  intros HI Hs. unfold ok, stop. rewrite (bind_Ret get _ s s s eq_refl). cbv zeta. rewrite Hs.
  pose proof (stays 0 s HI) as Hnop. unfold ok in Hnop.
  destruct (m_threads s !! 0%nat) as [t0|] eqn:Et; [|done].
  destruct (m_rootFiber s) as [r|] eqn:Er; [|done]. destruct (pc t0) eqn:Hpc; try done.
  pose proof (inv_root s HI) as Hr. unfold root_ok in Hr. rewrite Er, Hs in Hr.
  destruct Hr as (Hn1 & t0' & rest & Eq & H0 & Hrest & Hm & Hns & Hon).
  rewrite Eq in Et. injection Et as <-. specialize (Hon Hpc).
  pose proof (inv_here s [] t0' rest HI Eq) as H. unfold thr_ok in H. rewrite Hpc in H.
  destruct H as [Hau [(m & Hm' & Ht & Ho & (g & Hg & Hcx) & Hou)|[Hx Hy]]]; [|congruence].
  rewrite Hm in Hm'. injection Hm' as <-.
  unfold outer_ok in Hou. rewrite H0, Z.eqb_refl in Hou.
  destruct Hou as (c & m & Hc & Hm' & Hne & gc & Hgc & Hsc). rewrite Hm in Hm'. injection Hm' as <-.
  destruct (caller_end_run r c g gc (shared s) (tls t0') Hg Hc Hgc Hsc Hne) as (g' & gc' & Hgc' & Hst' & Ee).
  set (h' := <[c := _]> _) in Ee. set (l' := set_on_cpu _ _) in Ee.
  step_with (on_thread_mid s [] t0' rest _ tt _ _ Eq Ee).
  eexists. split; [reflexivity|]. set (t' := set_tls l' t0').
  assert (F : forall p, p <> r -> p <> c -> h' !! p = heap (shared s) !! p).
  { intros p Hr Hcp. unfold h'. by rewrite !lookup_insert_ne by done. }
  apply (inv_update s _ [] [t0'] [t'] rest [] []); try done.
  - by left.
  - unfold root_ok. cbn. rewrite Er. split; [done|]. exists t', rest. done.
  - cbn [flat_map app]. by rewrite !app_nil_r.
  - by constructor.
  - intros p Hp. by apply not_elem_of_nil in Hp.
  - intros p. cbn. destruct (decide (p = r)) as [->|Hpr]; [intros _; apply (inv_heap s HI); by rewrite Hg|].
    destruct (decide (p = c)) as [->|Hpc']; [intros _; apply (inv_heap s HI); by rewrite Hgc|].
    rewrite F by done. apply (inv_heap s HI).
  - intros p Hp _. cbn in Hp. rewrite app_nil_r in Hp. apply F.
    + intros ->. by apply Hp, main_owned.
    + intros ->. apply Hp, elem_of_app. left. by apply thread_in.
  - constructor; [|done]. unfold thr_ok. cbn. rewrite Hpc. split; [done|]. right. split; [by rewrite Hc|]. rewrite Hc, Hm. congruence.
  - intros ft Hin. by left.
  - rewrite Z.sub_diag. exact (act_same s HI).
  - apply (inv_affine s HI).
Qed.

Lemma stop_ok s on_this extra : Inv s -> allowed s (Stop on_this extra) = true -> ok 0 (stop on_this extra) s.
Proof.
  intros HI Ha. destruct (stop_pc s) eqn:Hs.
  - by apply stop_none.
  - by apply stop_flags.
  - by apply stop_call.
  - unfold ok, stop. rewrite (bind_Ret get _ s s s eq_refl). cbv zeta. rewrite Hs. case_match; [|by exists s].
    eexists. split; [reflexivity|]. split; [|done]. apply inv_stop_pc; [done|]. apply root_ok_stop; [apply (inv_root s HI)|by left].
  - unfold ok, stop. rewrite (bind_Ret get _ s s s eq_refl). cbv zeta. rewrite Hs. by exists s.
Qed.

(** The thread a step may change. *)
Definition actor (a : action) : nat := match a with Advance i _ | Body i _ => i | _ => 0 end.

Lemma step_ok ss s a : Inv s -> allowed s a = true -> ok (actor a) (step ss a) s.
Proof.
  intros HI Ha. destruct a as [i extra|i b|ft|cb|ids|on_this extra]; cbn [step].
  - by apply advance_ok.
  - by apply run_body_ok.
  - by apply schedule_ok.
  - by apply new_ok.
  - by apply start_ok.
  - by apply stop_ok.
Qed.
