(* ===== verification/SchedulerThms.v ===== *)
(** The scheduler's constructor, its disciplined runs, and that no interleaving
    crashes it or runs a fiber twice. *)
From S2P Require Import Prelude.
From stdpp Require Import sorting.
From S2P Require Import Fiber Scheduler SchedulerInv SchedulerSafe.
Open Scope Z_scope.

(** ** The state the constructor makes *)

(** A process in which every fiber made so far is parked. *)
Definition heap_ok (sh : FiberState) : Prop :=
  forall p g, heap sh !! p = Some g -> (p < next_addr sh)%nat /\ (m_stack g = true -> parked_fiber p g).

(** The constructor's thread has no fiber yet, or only its main fiber. *)
Definition caller_ok (sh : FiberState) (l : Tls) : Prop :=
  l = tls_new \/
  exists c g, l = mkTls (Some c) (Some c) None (Some c) /\ heap sh !! c = Some g /\ m_ctx g = Running /\
    m_stack g = false.

Lemma heap_ok_dom sh p : heap_ok sh -> is_Some (heap sh !! p) -> (p < next_addr sh)%nat.
Proof. intros H [g Hg]. by apply (H p g). Qed.

Lemma get_this_ok sh l :
  heap_ok sh -> caller_ok sh l ->
  exists c g sh', GetThis (sh, l) = Ret c (sh', mkTls (Some c) (Some c) None (Some c)) /\
    heap_ok sh' /\ heap sh' !! c = Some g /\ m_ctx g = Running /\ m_stack g = false.
Proof.
  intros Hh [->|(c & g & -> & Hg & Hr & Hs)].
  - eexists (next_addr sh), (mkFiber 0 0 EXEC Running false None), _. split.
    { unfold GetThis. step_with (eq_refl : get (sh, tls_new) = Ret _ _). cbn [snd t_fiber tls_new].
      assert (Hb : bool_decide (Some (next_addr sh) = Some (next_addr sh)) = true) by by apply bool_decide_eq_true.
      unfold Fiber_main, alloc, SetThis, on_tls, count_fiber, on_shared, modify, get, assert, mret, M_ret, mbind, M_bind.
      cbn. rewrite Hb. reflexivity. }
    cbn. split; [|by rewrite lookup_insert_eq].
    intros p g. cbn. destruct (decide (p = next_addr sh)) as [-> |Hp].
    + rewrite lookup_insert_eq. intros [= <-]. split; [lia|done].
    + rewrite lookup_insert_ne by done. intros [H1 H2]%Hh. split; [lia|done].
  - exists c, g, sh. split; [reflexivity|done].
Qed.

Lemma scheduler_new_ok ss threads use_caller id sh l :
  heap_ok sh -> caller_ok sh l -> 0 < threads -> id <> -1 ->
  exists s0 sl, Scheduler_new ss threads use_caller id false (sh, l) = Ret s0 sl /\ Inv s0 /\
    m_fibers s0 = [] /\ scheduled s0 = [] /\ taken s0 = [] /\ m_autoStop s0 = false /\ stop_pc s0 = SNone /\
    Forall (fun t => pc t = PNotStarted) (m_threads s0) /\
    (m_rootThread s0 = id \/ m_rootThread s0 = -1) /\ threads_empty s0 = true.
Proof.
  intros Hh Hl Ht Hid. unfold Scheduler_new.
  step_with (assert_run (0 <? threads) "threads > 0" (sh, l) ltac:(lia)). destruct use_caller.
  - destruct (get_this_ok sh l Hh Hl) as (c & g & sh1 & E1 & Hh1 & Hg & Hr & Hs). step_with E1.
    set (l1 := mkTls (Some c) (Some c) None (Some c)).
    step_with (eq_refl : assert (negb false) "GetThis() == nullptr" (sh1, l1) = Ret tt (sh1, l1)).
    set (r := next_addr sh1).
    eassert (E2 : Fiber_new ss (Some run_cb) 0 true (sh1, l1) = Ret r (mkFiberState (<[r := _]> (heap sh1)) (S r) _ _, l1))
      by reflexivity.
    step_with E2. clear E2.
    step_with (eq_refl : on_tls (set_mainFiber (Some r)) (_, l1) = Ret tt (_, set_mainFiber (Some r) l1)).
    step_with (eq_refl : get (_, set_mainFiber (Some r) l1) = Ret _ _). eexists _, _. split; [reflexivity|].
    assert (Hcr : (c < r)%nat) by (apply (heap_ok_dom sh1); [done|by rewrite Hg]).
    split; [|repeat split; [by repeat constructor|by left]].
    constructor; cbn [shared m_threads m_fibers m_rootThread m_autoStop taken scheduled m_activeThreadCount heap fst snd].
    + unfold owns. cbn. rewrite decide_False by lia. cbn. apply NoDup_cons. split; [|apply NoDup_singleton].
      rewrite list_elem_of_singleton. lia.
    + intros p. unfold owns. cbn. rewrite decide_False by lia. cbn.
      rewrite elem_of_cons, list_elem_of_singleton. lia.
    + intros p. cbn. destruct (decide (p = r)) as [-> |Hp]; [lia|]. rewrite lookup_insert_ne by done.
      intros Hx%(heap_ok_dom sh1 _ Hh1). unfold r. lia.
    + constructor; [|done]. split; [done|]. split; [done|]. split; [done|]. eexists c, r, _. cbn.
      rewrite lookup_insert_eq. repeat split; try done; [lia|]. exists g. rewrite lookup_insert_ne by lia. done.
    + done.
    + intros p g'. unfold owns. cbn. rewrite decide_False by lia. cbn. intros Hp Hst Hno.
      destruct (decide (p = r)) as [-> |Hpr]; [by destruct Hno; set_solver|].
      rewrite lookup_insert_ne in Hp by done. by apply (Hh1 p g').
    + done.
    + done.
    + done.
    + split; [done|]. eexists _, []. repeat split. by constructor.
  - step_with (eq_refl : get (sh, l) = Ret _ _). eexists _, _. split; [reflexivity|].
    split; [|repeat split; [by constructor|by right]].
    constructor; try done.
    + by constructor.
    + intros p. by intros ?%not_elem_of_nil.
    + intros p. by apply heap_ok_dom.
    + intros p g Hg Hs _. by apply (Hh p g).
Qed.

(** ** Disciplined runs *)

(** Every step is allowed in the state it is taken in. *)
Fixpoint disciplined (ss : Z) (s : Scheduler) (acts : list action) : bool :=
  match acts with
  | [] => true
  | a :: acts =>
    allowed s a && match step ss a s with Ret _ s' => disciplined ss s' acts | _ => true end
  end.

Lemma steps_ok ss acts s :
  Inv s -> disciplined ss s acts = true -> exists s', steps ss acts s = Ret tt s' /\ Inv s'.
Proof.
  revert s. induction acts as [|a acts IH]; intros s HI Hd; [by exists s|].
  cbn [disciplined] in Hd. apply andb_prop in Hd as [Ha Hd].
  destruct (step_ok ss s a HI Ha) as (s1 & E & HI1 & _). rewrite E in Hd.
  destruct (IH s1 HI1 Hd) as (s2 & E2 & HI2). exists s2. split; [|done]. cbn [steps]. by step_with E.
Qed.

(** The fiber whose stack a thread runs on, besides its main fiber. *)
Definition runs (t : Thr) : option nat :=
  match pc t with
  | PRun f _ | PYield f _ _ _ => Some f
  | PIdle => idle_fiber t
  | _ => None
  end.

Lemma runs_owned root au h t f : thr_ok root au h t -> runs t = Some f -> f ∈ owned t.
Proof.
  unfold runs, thr_ok. intros H Hr. apply slot_owned. destruct (pc t) eqn:Hpc; try done.
  - injection Hr as ->. destruct H as (_ & Hk & _). apply (kind_in h t f k Hk). intros ->. rewrite Hpc. cbn. set_solver.
  - injection Hr as ->. destruct H as (_ & _ & Hk & _). apply (kind_in h t f k Hk). intros ->. rewrite Hpc. cbn. set_solver.
  - by apply idle_in.
Qed.

Lemma owned_once ts i j t1 t2 f :
  NoDup (flat_map owned ts) -> ts !! i = Some t1 -> ts !! j = Some t2 -> f ∈ owned t1 -> f ∈ owned t2 -> i = j.
Proof.
  revert i j. induction ts as [|t ts IH]; intros i j ND Hi Hj H1 H2; [done|].
  cbn [flat_map] in ND. apply NoDup_app in ND as (_ & Hd & ND).
  assert (Hin : forall k t', ts !! k = Some t' -> f ∈ owned t' -> f ∈ flat_map owned ts).
  { intros k t' Hk Hf. apply list_elem_of_In, in_flat_map. exists t'.
    split; [by eapply list_elem_of_In, list_elem_of_lookup_2|by apply list_elem_of_In]. }
  destruct i as [|i], j as [|j]; cbn in Hi, Hj.
  - done.
  - injection Hi as ->. by destruct (Hd f H1 (Hin j t2 Hj H2)).
  - injection Hj as ->. by destruct (Hd f H2 (Hin i t1 Hi H1)).
  - f_equal. by apply (IH i j).
Qed.

Section run.
Context (ss : Z) (sh : FiberState) (l : Tls) (threads : Z) (use_caller : bool) (id : Z).
Context (Hh : heap_ok sh) (Hl : caller_ok sh l) (Hthreads : 0 < threads) (Hid : id <> -1).

(** C11: the scheduler is safe under every interleaving.  From the constructor,
    with any number of threads, with or without the caller's, whatever the
    tasks do and in whatever order the threads, the tasks, other threads'
    calls of [schedule], [start] and [stop] take their steps: as long as a
    fiber is scheduled only while nobody runs or has queued it, no assertion
    fails, no null pointer is followed and no context is resumed before it has
    been saved; no fiber is ever on the stack of two threads, and a thread
    inside a task has that task's fiber as its current one. *)
Theorem scheduler_safe acts :
  exists s0 sl, Scheduler_new ss threads use_caller id false (sh, l) = Ret s0 sl /\
    (disciplined ss s0 acts = true ->
     exists s, steps ss acts s0 = Ret tt s /\
       (forall i j t1 t2 f, m_threads s !! i = Some t1 -> m_threads s !! j = Some t2 ->
          runs t1 = Some f -> runs t2 = Some f -> i = j) /\
       (forall i t f, m_threads s !! i = Some t -> runs t = Some f ->
          t_fiber (tls t) = Some f /\ on_cpu (tls t) = Some f)).
Proof.
  destruct (scheduler_new_ok ss threads use_caller id sh l Hh Hl Hthreads Hid) as (s0 & sl & E & HI & _).
  exists s0, sl. split; [done|]. intros Hd. destruct (steps_ok ss acts s0 HI Hd) as (s & Es & HIs).
  exists s. split; [done|]. pose proof (inv_thr s HIs) as F. split.
  - intros i j t1 t2 f Hi Hj H1 H2. rewrite Forall_lookup in F.
    apply (owned_once (m_threads s) i j t1 t2 f); [|done|done|by eapply runs_owned; [apply (F i)|]|by eapply runs_owned; [apply (F j)|]].
    pose proof (inv_nodup s HIs) as ND. unfold owns in ND. by apply NoDup_app in ND as (ND & _).
  - intros i t f Hi Hr. rewrite Forall_lookup in F. specialize (F i t Hi). unfold runs, thr_ok in *.
    destruct (pc t) eqn:Hpc; try done.
    + injection Hr as ->. destruct F as (_ & _ & m & g & Hm & Ht & Ho & _). done.
    + injection Hr as ->. destruct F as (_ & _ & _ & m & g & Hm & Ht & Ho & _). done.
    + destruct F as (_ & d & Hdd & m & g & Hm & Ht & Ho & _). rewrite Hdd in Hr. by injection Hr as ->.
Qed.
End run.

(** ** A run *)

(** A process without fibers. *)
Definition fresh : FiberState := mkFiberState ∅ 1 0 0.

Lemma fresh_ok : heap_ok fresh.
Proof. intros p g Hp. cbn in Hp. by rewrite lookup_empty in Hp. Qed.
Lemma tls_new_ok : caller_ok fresh tls_new.
Proof. by left. Qed.

(** A pool of one thread besides the caller's runs a callable that yields, the
    caller stops the pool and joins its run loop, where it takes the callable that
    yielded. *)
Definition demo : list action :=
  [Start [10]; Schedule (mkFT None (Some 7) (-1)); Schedule (mkFT None (Some 8) 10)] ++
  repeat (Advance 1 true) 4 ++ [Body 1 BYieldToReady] ++ repeat (Advance 1 true) 8 ++
  [Body 1 BReturn; Stop true true; Stop true true] ++ repeat (Advance 0 true) 3 ++
  repeat (Advance 1 true) 3.

Definition demo_end : Scheduler :=
  match Scheduler_new 1024 2 true 9 false (fresh, tls_new) with
  | Ret s0 _ => match steps 1024 demo s0 with Ret _ s => s | _ => s0 end
  | _ => mkScheduler fresh [] [] 0 0 0 false false None 0 SNone [] [] []
  end.
Definition demo_start : Scheduler :=
  match Scheduler_new 1024 2 true 9 false (fresh, tls_new) with
  | Ret s0 _ => s0
  | _ => demo_end
  end.

Lemma scheduler_safe_witness :
  disciplined 1024 demo_start demo = true /\
  exists s0 sl, Scheduler_new 1024 2 true 9 false (fresh, tls_new) = Ret s0 sl /\
    (disciplined 1024 s0 demo = true ->
     exists s, steps 1024 demo s0 = Ret tt s /\
       (forall i j t1 t2 f, m_threads s !! i = Some t1 -> m_threads s !! j = Some t2 ->
          runs t1 = Some f -> runs t2 = Some f -> i = j) /\
       (forall i t f, m_threads s !! i = Some t -> runs t = Some f ->
          t_fiber (tls t) = Some f /\ on_cpu (tls t) = Some f)).
Proof.
  split; [by vm_compute|].
  apply (scheduler_safe 1024 fresh tls_new 2 true 9 fresh_ok tls_new_ok); [lia|done].
Defined.
