(* ===== verification/SchedulerTasks.v ===== *)
(** The scheduler serves the tasks it is given: what is queued is started once, on
    the thread it is for.  A run is watched from outside, by its steps and the
    states between them; the logs of the Scheduler record are not consulted. *)
From S2P Require Import Prelude.
From stdpp Require Import sorting.
From S2P Require Import Fiber Scheduler SchedulerInv SchedulerSafe SchedulerThms.
Open Scope Z_scope.

(** ** Watching a run *)

(** What has been seen: the tasks given to [schedule], with null ones left out;
    those a thread has started, with its id; fibers that were over when a thread
    took them; and what each thread has taken off the queue and not started yet. *)
Record tally := mkTally {
  submitted : list FiberAndThread;
  started : list (Z * FiberAndThread);
  dropped : list FiberAndThread;
  hand : gmap nat FiberAndThread
}.
Definition tally_new : tally := mkTally [] [] [] ∅.

(** The tasks a step gives to [schedule]: a call of the program or of a task, and
    the fiber of a task that is behind its switch and READY, for any thread. *)
Definition submits (s : Scheduler) (a : action) : list FiberAndThread :=
  match a with
  | Schedule ft => [ft]
  | Body i (BSchedule ft) =>
    match m_threads s !! i with
    | Some t =>
      match pc t with
      | PRun f _ => match heap (shared s) !! f with Some g => match m_cb g with Some _ => [ft] | None => [] end | None => [] end
      | PIdle => [ft]
      | _ => []
      end
    | None => []
    end
  | Advance i _ =>
    match m_threads s !! i with
    | Some t =>
      match pc t with
      | PAfter f _ => if bool_decide (state_at (heap (shared s)) f = Some READY) then [mkFT (Some f) None (-1)] else []
      | _ => []
      end
    | None => []
    end
  | _ => []
  end.

(** The thread is on the stack of the task's fiber, or of one that has its callable. *)
Definition executes (s : Scheduler) (t : Thr) (ft : FiberAndThread) : bool :=
  match on_cpu (tls t) with
  | Some f =>
    bool_decide (ft_fiber ft = Some f) ||
    match ft_cb ft, heap (shared s) !! f with Some c, Some g => bool_decide (m_cb g = Some c) | _, _ => false end
  | None => false
  end.

(** The task is a fiber that is over, and no callable. *)
Definition is_finished (s : Scheduler) (ft : FiberAndThread) : bool :=
  match ft_cb ft, ft_fiber ft with
  | None, Some f => match state_at (heap (shared s)) f with Some st => ended_state st | None => false end
  | _, _ => false
  end.

(** A step of thread [i] that takes a task off the queue, lets one go, or enters it. *)
Definition watch_thread (i : nat) (s s' : Scheduler) (w : tally) : tally :=
  match m_threads s !! i, m_threads s' !! i with
  | Some t, Some t' =>
    match pc t, pc t' with
    | PTop, PFetched ft _ true => mkTally (submitted w) (started w) (dropped w) (<[i := ft]> (hand w))
    | PFetched _ _ true, PTop =>
      match hand w !! i with
      | Some ft => if is_finished s ft then mkTally (submitted w) (started w) (dropped w ++ [ft]) (delete i (hand w)) else w
      | None => w
      end
    | PSwapIn _ _, PRun _ _ =>
      match hand w !! i with
      | Some ft => if executes s' t' ft then mkTally (submitted w) (started w ++ [(tid t', ft)]) (dropped w) (delete i (hand w)) else w
      | None => w
      end
    | _, _ => w
    end
  | _, _ => w
  end.
Definition watch (s s' : Scheduler) (a : action) (w : tally) : tally :=
  let w := mkTally (submitted w ++ List.filter ft_some (submits s a)) (started w) (dropped w) (hand w) in
  match a with Advance i _ => watch_thread i s s' w | _ => w end.

Fixpoint watched (ss : Z) (acts : list action) (s : Scheduler) (w : tally) : tally :=
  match acts with
  | [] => w
  | a :: acts => match step ss a s with Ret _ s' => watched ss acts s' (watch s s' a w) | _ => w end
  end.

(** ** Code that leaves the queue and the places of the threads alone *)

Definition places (s : Scheduler) : list (Z * PC) := map (fun t => (tid t, pc t)) (m_threads s).
Definition calm {A} (m : SM A) : Prop :=
  forall s a s', m s = Ret a s' -> m_fibers s' = m_fibers s /\ places s' = places s.

Lemma calm_ret {A} (a : A) : calm (mret a).
Proof. intros s b s' E. by injection E as _ <-. Qed.
Lemma calm_get : calm get.
Proof. intros s b s' E. by injection E as _ <-. Qed.
Lemma calm_assert b what : calm (assert b what).
Proof. intros s a s' E. unfold assert in E. destruct b; [by injection E as _ <-|discriminate E]. Qed.
Lemma calm_bind {A B} (m : SM A) (f : A -> SM B) : calm m -> (forall a, calm (f a)) -> calm (m ≫= f).
Proof.
  intros Hm Hf s b s' (a & s1 & E1 & E2)%bind_Ret_inv. destruct (Hm _ _ _ E1) as [Q1 P1], (Hf _ _ _ _ E2) as [Q2 P2].
  by rewrite Q2, P2.
Qed.
Lemma calm_when b (m : SM unit) : calm m -> calm (when b m).
Proof. destruct b; [done|]. intros _. apply calm_ret. Qed.
Lemma calm_modify f : (forall s, m_fibers (f s) = m_fibers s /\ places (f s) = places s) -> calm (modify f).
Proof. intros Hf s a s' E. injection E as _ <-. apply Hf. Qed.

Lemma map_alter {A B} (g : A -> B) (f : A -> A) (h : B -> B) i l :
  (forall x, g (f x) = h (g x)) -> map g (alter f i l) = alter h i (map g l).
Proof. intros H. revert i. induction l as [|x l IH]; intros [|i]; cbn; try done; f_equal; [apply H|apply IH]. Qed.
Lemma alter_same {A} i (l : list A) : alter (fun x => x) i l = l.
Proof. revert i. induction l as [|x l IH]; intros [|i]; cbn; try done. by f_equal. Qed.
Lemma map_alter_same {A B} (g : A -> B) f i (l : list A) : (forall x, g (f x) = g x) -> map g (alter f i l) = map g l.
Proof. intros H. rewrite (map_alter g f (fun x => x)) by apply H. apply alter_same. Qed.

Lemma calm_set_thread i f : (forall t, tid (f t) = tid t /\ pc (f t) = pc t) -> calm (set_thread i f).
Proof.
  intros Hf. apply calm_modify. intros s. split; [done|]. unfold places. cbn. apply map_alter_same. intros t.
  by destruct (Hf t) as [-> ->].
Qed.
Lemma calm_on_thread {A} i (m : FM A) : calm (on_thread i m).
Proof.
  intros s a s' E. unfold on_thread in E. destruct (m_threads s !! i) as [t|]; [|done].
  destruct (m (shared s, tls t)) as [b [sh l]|? []|]; [|done..]. injection E as _ <-. split; [done|].
  unfold places. cbn. by apply map_alter_same.
Qed.
Lemma calm_tickle : calm tickle.
Proof. by apply calm_modify. Qed.

Create HintDb calm.
#[export] Hint Resolve calm_ret calm_get calm_assert calm_when calm_on_thread calm_tickle : calm.
Ltac calm := repeat first [apply calm_bind; intros|progress eauto with calm|apply calm_modify; done
  |apply calm_set_thread; done|case_match].

(** Code behind which thread [i] is at [p]. *)
Definition lands (i : nat) (p : PC) (m : SM unit) : Prop :=
  forall s s', m s = Ret tt s' -> m_fibers s' = m_fibers s /\ places s' = alter (fun x => (x.1, p)) i (places s).
Lemma lands_goto i p : lands i p (goto i p).
Proof. intros s s' E. injection E as <-. split; [done|]. unfold places. cbn. by apply map_alter. Qed.
Lemma lands_bind {A} i p (m : SM A) f : calm m -> (forall a, lands i p (f a)) -> lands i p (m ≫= f).
Proof.
  intros Hm Hf s s' (a & s1 & E1 & E2)%bind_Ret_inv. destruct (Hm _ _ _ E1) as [Q1 P1], (Hf _ _ _ E2) as [Q2 P2].
  by rewrite Q2, P2, Q1, P1.
Qed.
Ltac lands := repeat first [apply lands_goto|apply lands_bind; [solve [calm]|intros]].

(** Whether a thread at [p] has a task in its hand. *)
Definition holds (p : PC) : bool :=
  match p with PFetched _ _ true | PSwapIn _ _ => true | _ => false end.

Lemma place_of s i t : m_threads s !! i = Some t -> places s !! i = Some (tid t, pc t).
Proof. intros H. unfold places. by rewrite list_lookup_fmap, H. Qed.
Lemma thread_of s i x : places s !! i = Some x -> exists t, m_threads s !! i = Some t /\ x = (tid t, pc t).
Proof. unfold places. rewrite list_lookup_fmap. destruct (m_threads s !! i) as [t|]; [|done]. intros [= <-]. by exists t. Qed.

(** ** Steps of a thread *)

Definition serves (h : gmap nat Fiber) (f : nat) (k : kind) (ft : FiberAndThread) : Prop :=
  match k with
  | KFiber => ft_fiber ft = Some f
  | KCb => exists g, h !! f = Some g /\ m_cb g = ft_cb ft /\ is_Some (ft_cb ft)
  end.
Definition bound_to (ft : FiberAndThread) (t : Thr) : Prop := ft_thread ft = -1 \/ ft_thread ft = tid t.

(** What a step of thread [i] does to the queue and to its place. *)
Definition moved (s : Scheduler) (t : Thr) (i : nat) (extra : bool) (s' : Scheduler) (t' : Thr) : Prop :=
  match pc t with
  | PTop =>
    (exists ft tm a b, pc t' = PFetched ft tm true /\ m_fibers s = a ++ ft :: b /\ m_fibers s' = a ++ b /\
       ft_some ft = true /\ bound_to ft t) \/
    (exists tm, pc t' = PFetched FT_reset tm false /\ m_fibers s' = m_fibers s)
  | PFetched ft _ true => ft_some ft = true -> m_fibers s' = m_fibers s /\
    ((exists f k, pc t' = PSwapIn f k /\ serves (heap (shared s')) f k ft) \/ (pc t' = PTop /\ is_finished s ft = true))
  | PSwapIn f k => m_fibers s' = m_fibers s /\ pc t' = PRun f k /\ on_cpu (tls t') = Some f /\
    (exists g g', heap (shared s) !! f = Some g /\ heap (shared s') !! f = Some g' /\ m_cb g' = m_cb g)
  | _ => m_fibers s' = m_fibers s ++ List.filter ft_some (submits s (Advance i extra)) /\ holds (pc t') = false
  end.

Definition steps_to (s : Scheduler) (i : nat) (t : Thr) (extra : bool) (s' : Scheduler) : Prop :=
  exists p t', places s' = alter (fun x => (x.1, p)) i (places s) /\ m_threads s' !! i = Some t' /\
    tid t' = tid t /\ pc t' = p /\ moved s t i extra s' t'.

Lemma arrives s i t p s' :
  m_threads s !! i = Some t -> places s' = alter (fun x => (x.1, p)) i (places s) ->
  exists t', m_threads s' !! i = Some t' /\ tid t' = tid t /\ pc t' = p.
Proof.
  intros Ht P. assert (Hp : places s' !! i = Some (tid t, p)) by (rewrite P, list_lookup_alter_eq, (place_of s i t Ht); done).
  apply thread_of in Hp as (t' & Ht' & E). injection E as -> ->. by exists t'.
Qed.

(** A step that leaves the queue and ends with an empty hand. *)
Lemma plain_step s i t extra p (m : SM unit) s' :
  m_threads s !! i = Some t -> lands i p m -> m s = Ret tt s' -> holds p = false ->
  match pc t with PStart | PYield _ _ _ _ | PBack _ _ | PIdle | PIdleBack | PFetched _ _ false => True | _ => False end ->
  steps_to s i t extra s'.
Proof.
  intros Ht Hm E Hp Hpc. destruct (Hm _ _ E) as [Q P]. destruct (arrives s i t p s' Ht P) as (t' & Ht' & Et & Ep).
  exists p, t'. do 4 (split; [done|]). unfold moved. cbn [submits]. rewrite Ht, Ep.
  destruct (pc t) as [| | |ft tm []| | | | | | | |]; try done; by rewrite app_nil_r.
Qed.

Lemma alter_here {A} (f : A -> A) i (l : list A) x : l !! i = Some x -> f x = x -> alter f i l = l.
Proof. intros Hl Hf. apply list_eq. intros j. destruct (decide (j = i)) as [-> |Hj]; [rewrite list_lookup_alter_eq, Hl; cbn; by rewrite Hf|by rewrite list_lookup_alter_ne]. Qed.
Lemma fiber_at_here s i t f : m_threads s !! i = Some t ->
  on_thread i (fiber_at f) s = match heap (shared s) !! f with Some g => Ret g s | None => Crash NullDeref end.
Proof.
  intros Ht. unfold on_thread, fiber_at. rewrite Ht. cbn [fst]. destruct (heap (shared s) !! f) as [g|]; [|done].
  cbn. rewrite (alter_here _ i _ t) by (try done; by destruct t). by destruct s.
Qed.

Lemma after_step s i t extra f k s' :
  m_threads s !! i = Some t -> pc t = PAfter f k -> (after_task i f k;; goto i PTop) s = Ret tt s' ->
  steps_to s i t extra s'.
Proof.
  intros Ht Hpc (u & s1 & E1 & E2)%bind_Ret_inv. unfold after_task in E1.
  apply bind_Ret_inv in E1 as (g & s0 & Eg & E1). rewrite (fiber_at_here s i t f Ht) in Eg.
  destruct (heap (shared s) !! f) as [g'|] eqn:Hg; [|done]. injection Eg as -> <-.
  assert (H : m_fibers s1 = m_fibers s ++ List.filter ft_some (submits s (Advance i extra)) /\ places s1 = places s).
  { cbn [submits]. rewrite Ht, Hpc. unfold state_at. rewrite Hg. cbn [fmap option_fmap option_map].
    assert (Hcalm : forall m : SM unit, calm m -> m s = Ret u s1 -> m_fibers s1 = m_fibers s ++ [] /\ places s1 = places s)
      by (intros m Hm E; rewrite app_nil_r; by apply (Hm _ _ _ E)).
    assert (Hpush : forall m : SM unit, calm m -> (schedule (mkFT (Some f) None (-1));; m) s = Ret u s1 ->
      m_fibers s1 = m_fibers s ++ [mkFT (Some f) None (-1)] /\ places s1 = places s).
    { intros m Hm E. rewrite (bind_Ret _ _ _ _ _ (schedule_run (mkFT (Some f) None (-1)) s eq_refl)) in E.
      destruct (Hm _ _ _ E) as [-> ->]. pose proof (pushed_fields (mkFT (Some f) None (-1)) s) as (Hq & _ & _ & Hth & _).
      cbv zeta in *. unfold places. by rewrite Hq, Hth. }
    destruct k, (m_state g); cbn in E1 |- *;
      try (eapply Hcalm; [|exact E1]; solve [calm]);
      try (eapply Hpush; [|exact E1]; solve [calm]).
    apply (Hpush (mret tt)); [apply calm_ret|]. unfold mbind, M_bind, mret, M_ret. by rewrite E1; destruct u. }
  destruct H as [Q P]. destruct (lands_goto i PTop s1 s' E2) as [Q2 P2]. rewrite P in P2.
  destruct (arrives s i t PTop s' Ht P2) as (t' & Ht' & Et & Ep). exists PTop, t'. do 4 (split; [done|]).
  unfold moved. rewrite Hpc, Ep, Q2. by split.
Qed.

Lemma top_step ss s i t extra s' :
  Inv s -> m_threads s !! i = Some t -> pc t = PTop -> advance ss i extra s = Ret tt s' -> steps_to s i t extra s'.
Proof.
  intros HI Ht Hpc E. unfold advance in E. rewrite (bind_Ret get _ s s s eq_refl), Ht, Hpc in E.
  assert (F : Forall (fun ft => ft_some ft = true) (m_fibers s)).
  { eapply Forall_impl; [apply (inv_queue s HI)|]. by intros ft []. }
  destruct (fetch_spec (tid t) (heap (shared s)) (m_fibers s) F) as (r & rest & tm & Ef & Hr). rewrite Ef in E.
  destruct r as [ft|].
  - destruct Hr as (a & b & Eq & -> & Hb). apply bind_Ret_inv in E as (u & s1 & E1 & E2). injection E1 as _ <-.
    destruct (lands_goto _ _ _ _ E2) as [Q P]. destruct (arrives s i t _ s' Ht P) as (t' & Ht' & Et & Ep).
    eexists _, t'. do 4 (split; [done|]). unfold moved. rewrite Hpc. left. exists ft, tm, a, b. split_and!; try done.
    rewrite Eq in F. by apply Forall_app in F as [_ F%Forall_inv].
  - destruct (lands_goto _ _ _ _ E) as [Q P]. destruct (arrives s i t _ s' Ht P) as (t' & Ht' & Et & Ep).
    eexists _, t'. do 4 (split; [done|]). unfold moved. rewrite Hpc. right. by exists tm.
Qed.

Lemma swap_step ss s i t extra f k s' :
  Inv s -> m_threads s !! i = Some t -> pc t = PSwapIn f k -> advance ss i extra s = Ret tt s' -> steps_to s i t extra s'.
Proof.
  intros HI Ht Hpc E. unfold advance in E. rewrite (bind_Ret get _ s s s eq_refl), Ht, Hpc in E.
  apply list_elem_of_split_length in Ht as Hs. destruct Hs as (l1 & l2 & Et & Hi). subst i.
  pose proof (inv_owned_nodup s l1 t l2 HI Et) as ND. pose proof (inv_here s l1 t l2 HI Et) as HT.
  unfold thr_ok in HT. rewrite Hpc in HT. destruct HT as ((m & Hm & _ & _ & (gm & Hgm & _) & _) & _ & Hk & g & Hg & [Hst Hp] & He).
  assert (Hf : f ∈ slots t) by (apply (kind_in _ t f k Hk); intros ->; rewrite Hpc; cbn; set_solver).
  pose proof (main_ne t m f ND Hm Hf) as Hne.
  assert (Hx : m_state g <> EXEC) by (intros Ex; by rewrite Ex in Hp).
  assert (Hr : resumable f g) by (by destruct (m_state g)).
  pose proof (swapIn_run f m g gm (shared s) (tls t) Hg Hx Hr Hm Hgm Hne) as Es.
  rewrite (bind_Ret _ _ _ _ _ (on_thread_mid s l1 t l2 _ tt _ _ Et Es)) in E.
  set (h' := <[f := _]> _) in E. set (l' := set_on_cpu _ _) in E.
  rewrite (goto_mid (set_threads (l1 ++ set_tls l' t :: l2) (set_shared (set_heap h' (shared s)) s)) l1
    (set_tls l' t) l2 (PRun f k) eq_refl) in E. injection E as <-.
  exists (PRun f k), (set_pc (PRun f k) (set_tls l' t)). split; [|split; [by apply lookup_mid|split; [done|split; [done|]]]].
  - unfold places. cbn. rewrite Et, !map_app. cbn [map]. rewrite <- (length_map (fun t => (tid t, pc t)) l1), alter_mid. done.
  - unfold moved. rewrite Hpc. split; [done|]. split; [done|]. split; [done|]. exists g, (set_ctx Running (set_state EXEC g)).
    split; [done|]. split; [|done]. cbn. unfold h'. by rewrite lookup_insert_eq.
Qed.

Lemma fetched_ok s i t ft tm :
  Inv s -> m_threads s !! i = Some t -> pc t = PFetched ft tm true ->
  (forall f, ft_fiber ft = Some f -> parked (heap (shared s)) f) /\ slot_ok (heap (shared s)) t.
Proof.
  intros HI Ht Hpc. pose proof (inv_thr s HI) as F. rewrite Forall_lookup in F. specialize (F i t Ht).
  unfold thr_ok in F. rewrite Hpc in F. destruct F as (_ & _ & Hs & Hp & _). by split.
Qed.

(** A callable gets the thread's own fiber, or a new one. *)
Lemma callable_step ss s i t extra ft tm s0 cb s' :
  Inv s -> m_threads s !! i = Some t -> pc t = PFetched ft tm true ->
  m_fibers s0 = m_fibers s -> m_threads s0 = m_threads s -> shared s0 = shared s -> ft_cb ft = Some cb ->
  (match cb_fiber t with
   | Some f => on_thread i (reset f (Some cb));; goto i (PSwapIn f KCb)
   | None => f ← on_thread i (Fiber_new ss (Some cb) 0 false);
       set_thread i (set_cb_fiber (Some f));; goto i (PSwapIn f KCb)
   end) s0 = Ret tt s' ->
  steps_to s i t extra s'.
Proof.
  intros HI Ht Hpc Q0 T0 S0 Hc E. destruct (fetched_ok s i t ft tm HI Ht Hpc) as [_ Hs].
  assert (P0 : places s0 = places s) by (unfold places; by rewrite T0).
  assert (exists f, m_fibers s' = m_fibers s /\ places s' = alter (fun x => (x.1, PSwapIn f KCb)) i (places s) /\
    exists g, heap (shared s') !! f = Some g /\ m_cb g = Some cb) as (f & Q & P & g & Hg & Hcb).
  { rewrite <- Q0, <- P0. destruct (cb_fiber t) as [f|] eqn:Ef.
    - exists f. assert (L : lands i (PSwapIn f KCb) (on_thread i (reset f (Some cb));; goto i (PSwapIn f KCb))) by lands.
      destruct (L _ _ E) as [Q P]. split; [done|]. split; [done|].
      unfold slot_ok in Hs. rewrite Ef in Hs. destruct Hs as (g & Hg & H1 & H2 & H3). rewrite <- S0 in Hg.
      apply bind_Ret_inv in E as (u & s1 & E1 & E2). injection E2 as <-. cbn [shared goto set_thread set_threads].
      unfold on_thread in E1. rewrite T0, Ht in E1.
      rewrite (reset_run f (Some cb) g (shared s0) (tls t) Hg H1) in E1 by by rewrite H2.
      injection E1 as _ <-. eexists. cbn. by rewrite lookup_insert_eq.
    - apply bind_Ret_inv in E as (f & s1 & E1 & E2). exists f.
      assert (L : lands i (PSwapIn f KCb) (set_thread i (set_cb_fiber (Some f));; goto i (PSwapIn f KCb))) by lands.
      destruct (L _ _ E2) as [Q P]. destruct (calm_on_thread _ _ _ _ _ E1) as [Q1 P1]. rewrite Q, P, Q1, P1.
      split; [done|]. split; [done|]. unfold on_thread in E1. rewrite T0, Ht in E1.
      injection E2 as <-. cbn [shared set_threads]. cbn in E1. injection E1 as <- <-. eexists. cbn. by rewrite lookup_insert_eq. }
  destruct (arrives s i t _ s' Ht P) as (t' & Ht' & Et & Ep). exists (PSwapIn f KCb), t'. do 4 (split; [done|]).
  unfold moved. rewrite Hpc. intros _. split; [done|]. left. exists f, KCb. split; [done|]. exists g. rewrite Hc. by split_and!.
Qed.

(** The task in a thread's hand is entered, or is a fiber that is over. *)
Lemma dispatch_step ss s i t extra ft tm s0 s' :
  Inv s -> m_threads s !! i = Some t -> pc t = PFetched ft tm true ->
  m_fibers s0 = m_fibers s -> m_threads s0 = m_threads s -> shared s0 = shared s ->
  dispatch ss i t ft true s0 = Ret tt s' -> steps_to s i t extra s'.
Proof.
  intros HI Ht Hpc Q0 T0 S0 E. assert (Ht0 : m_threads s0 !! i = Some t) by by rewrite T0.
  assert (P0 : places s0 = places s) by (unfold places; by rewrite T0).
  assert (Hin : forall p (m : SM unit), lands i p m -> m s0 = Ret tt s' ->
    (forall t', pc t' = p -> m_fibers s' = m_fibers s -> moved s t i extra s' t') -> steps_to s i t extra s').
  { intros p m Hm Em Hmv. destruct (Hm _ _ Em) as [Q P]. rewrite P0 in P. destruct (arrives s i t p s' Ht P) as (t' & Ht' & Et & Ep).
    exists p, t'. do 4 (split; [done|]). apply Hmv; [done|]. by rewrite Q. }
  unfold dispatch in E. apply bind_Ret_inv in E as (runnable & s1 & E1 & E).
  assert (s1 = s0 /\ runnable = match ft_fiber ft with
    | Some f => match state_at (heap (shared s)) f with Some st => negb (ended_state st) | None => false end
    | None => false end) as [-> Hrun].
  { destruct (ft_fiber ft) as [f|]; [|by injection E1 as <- <-]. apply bind_Ret_inv in E1 as (g & s2 & Eg & E1).
    rewrite (fiber_at_here s0 i t f Ht0), S0 in Eg. unfold state_at.
    destruct (heap (shared s) !! f) as [g'|]; [|done]. injection Eg as -> <-. by injection E1 as <- <-. }
  destruct (ft_fiber ft) as [f|] eqn:Ef.
  - destruct runnable.
    { apply (Hin (PSwapIn f KFiber) _ (lands_goto i _) E). intros t' Ep Q. unfold moved. rewrite Hpc. intros Hsome. split; [done|].
      left. by exists f, KFiber. }
    destruct (ft_cb ft) as [cb|] eqn:Ec; [by apply (callable_step ss s i t extra ft tm s0 cb s')|].
    eapply (Hin PTop); [|exact E|]; [lands|]. intros t' Ep Q. unfold moved. rewrite Hpc. intros Hsome. split; [done|]. right. split; [done|].
    unfold is_finished. rewrite Ec, Ef. destruct (state_at (heap (shared s)) f) as [st|] eqn:Est; [by destruct (ended_state st)|].
    destruct (fetched_ok s i t ft tm HI Ht Hpc) as [Hp _]. destruct (Hp f Ef) as (g & Hg & _). unfold state_at in Est. by rewrite Hg in Est.
  - subst runnable. destruct (ft_cb ft) as [cb|] eqn:Ec; [by apply (callable_step ss s i t extra ft tm s0 cb s')|].
    eapply (Hin PTop); [|exact E|]; [lands|]. intros t' Ep Q. unfold moved. rewrite Hpc. unfold ft_some. by rewrite Ef, Ec.
Qed.

Lemma thread_step ss s i t extra s' :
  Inv s -> m_threads s !! i = Some t -> advance ss i extra s = Ret tt s' ->
  match pc t with PNotStarted | PRun _ _ | PExit => s' = s | _ => steps_to s i t extra s' end.
Proof.
  intros HI Ht E0. pose proof E0 as E. unfold advance in E. rewrite (bind_Ret get _ s s s eq_refl), Ht in E.
  destruct (pc t) as [| | |ft tm act|f k|f k|f k cur ended|f k|f k| | |] eqn:Hpc; try (by injection E as <-).
  - eapply (plain_step s i t extra PTop); [done| |exact E|done|by rewrite Hpc]. lands.
  - by apply (top_step ss).
  - apply bind_Ret_inv in E as (u & s0 & Ew & E).
    assert (m_fibers s0 = m_fibers s /\ m_threads s0 = m_threads s /\ shared s0 = shared s) as (Q0 & T0 & S0)
      by (destruct tm; cbn in Ew; by injection Ew as _ <-).
    destruct act; [by apply (dispatch_step ss s i t extra ft tm s0)|].
    pose proof (inv_thr s HI) as F. rewrite Forall_lookup in F. specialize (F i t Ht). unfold thr_ok in F. rewrite Hpc in F.
    destruct F as (_ & _ & _ & _ & Hreset). rewrite (Hreset eq_refl) in E. cbn in E. destruct u.
    assert (Hx : exists p, holds p = false /\ m_fibers s' = m_fibers s /\ places s' = alter (fun x => (x.1, p)) i (places s)).
    { assert (P0 : places s0 = places s) by (unfold places; by rewrite T0). rewrite <- Q0, <- P0.
      apply bind_Ret_inv in E as (b & s00 & Eb & E). injection Eb as _ <-.
      apply bind_Ret_inv in E as (idle & s1 & E1 & E). apply bind_Ret_inv in E as (g & s2 & E2 & E).
      destruct (calm_on_thread _ _ _ _ _ E1) as [<- <-], (calm_on_thread _ _ _ _ _ E2) as [<- <-].
      destruct (bool_decide (m_state g = TERM)).
      - exists PExit. split; [done|]. eapply (lands_bind i PExit); [| |exact E]; [calm|intros; lands].
      - exists PIdle. split; [done|]. eapply (lands_bind i PIdle); [| |exact E]; [calm|intros; lands]. }
    destruct Hx as (p & Hp & Q & P). destruct (arrives s i t p s' Ht P) as (t' & Ht' & Et & Ep).
    exists p, t'. do 4 (split; [done|]). unfold moved. cbn [submits]. rewrite Ht, Hpc, Ep. by rewrite app_nil_r.
  - by apply (swap_step ss s i t extra f k).
  - eapply (plain_step s i t extra (PBack f k)); [done| |exact E|done|by rewrite Hpc]. lands.
  - eapply (plain_step s i t extra (PAfter f k)); [done| |exact E|done|by rewrite Hpc]. lands.
  - by apply (after_step s i t extra f k).
  - eapply (plain_step s i t extra PIdleBack); [done| |exact E|done|by rewrite Hpc]. lands.
  - eapply (plain_step s i t extra PTop); [done| |exact E|done|by rewrite Hpc]. lands.
Qed.

(** ** The invariant of the watch *)

(** What thread [t] has in its hand. *)
Definition hand_ok (h : gmap nat Fiber) (t : Thr) (o : option FiberAndThread) : Prop :=
  match pc t with
  | PFetched ft _ true => o = Some ft /\ ft_some ft = true /\ bound_to ft t
  | PSwapIn f k => exists ft, o = Some ft /\ serves h f k ft /\ bound_to ft t
  | _ => o = None
  end.
Definition hand_at (s : Scheduler) (i : nat) (o : option FiberAndThread) : Prop :=
  match m_threads s !! i with Some t => hand_ok (heap (shared s)) t o | None => o = None end.

Lemma hand_empty h t o : holds (pc t) = false -> hand_ok h t o <-> o = None.
Proof. unfold hand_ok. by destruct (pc t) as [| | |? ? []| | | | | | | |]. Qed.

Lemma hand_frame s s' i t o :
  Inv s -> m_threads s !! i = Some t -> (forall p, p ∈ owned t -> heap (shared s') !! p = heap (shared s) !! p) ->
  hand_ok (heap (shared s)) t o -> hand_ok (heap (shared s')) t o.
Proof.
  intros HI Ht F. pose proof (inv_thr s HI) as HT. rewrite Forall_lookup in HT. specialize (HT i t Ht). revert HT.
  unfold hand_ok, thr_ok. destruct (pc t) as [| | |? ? []|f k| | | | | | |] eqn:Hpc; try done.
  intros (_ & _ & Hk & _) (ft & -> & Hs & Hb). exists ft. split_and!; try done. destruct k; [done|].
  destruct Hs as (g & Hg & Hc). exists g. split; [|done]. rewrite F; [done|]. by apply slot_owned, cb_in.
Qed.

Lemma hand_kept i n s s' j o :
  Inv s -> kept i n s s' -> (j < i \/ i + n <= j)%nat ->
  (m_threads s !! j = None -> forall t', m_threads s' !! j = Some t' -> holds (pc t') = false) ->
  hand_at s j o -> hand_at s' j o.
Proof.
  intros HI HK Hj Hnew. unfold hand_at. destruct (m_threads s !! j) as [t|] eqn:Ht.
  - destruct (HK j t Hj Ht) as [-> F]. by apply (hand_frame s s' j t).
  - intros ->. destruct (m_threads s' !! j) as [t'|] eqn:Ht'; [|done]. apply hand_empty; [by apply Hnew|done].
Qed.

(** Thread [i], if there is one, has an empty hand before and behind the step. *)
Lemma hand_alter i s s' p j o :
  Inv s -> kept i 1 s s' -> places s' = alter (fun x => (x.1, p)) i (places s) -> holds p = false ->
  (forall t, m_threads s !! i = Some t -> holds (pc t) = false) -> hand_at s j o -> hand_at s' j o.
Proof.
  intros HI HK P Hp Hi Ho. destruct (decide (j = i)) as [-> |Hj].
  - unfold hand_at in *. destruct (m_threads s !! i) as [t|] eqn:Ht.
    + destruct (arrives s i t p s' Ht P) as (t' & -> & _ & Ep). apply hand_empty; [by rewrite Ep|].
      apply hand_empty in Ho; [done|by apply Hi].
    + destruct (m_threads s' !! i) as [t'|] eqn:Ht'; [|done]. apply place_of in Ht'. rewrite P, list_lookup_alter_eq in Ht'.
      unfold places in Ht'. by rewrite list_lookup_fmap, Ht in Ht'.
  - apply (hand_kept i 1 s s'); [done|done|lia| |done]. intros Hn t' Ht'. apply place_of in Ht'.
    rewrite P, list_lookup_alter_ne in Ht' by done. unfold places in Ht'. by rewrite list_lookup_fmap, Hn in Ht'.
Qed.

Lemma hand_same s s' j o :
  m_threads s' = m_threads s -> heap (shared s') = heap (shared s) -> hand_at s j o -> hand_at s' j o.
Proof. unfold hand_at. by intros -> ->. Qed.

(** ** Steps of the others *)

Lemma schedule_facts ft s s' :
  schedule ft s = Ret tt s' ->
  m_fibers s' = m_fibers s ++ List.filter ft_some [ft] /\ m_threads s' = m_threads s /\ shared s' = shared s.
Proof.
  destruct (ft_some ft) eqn:Hs; cbn; rewrite Hs.
  - rewrite (schedule_run ft s Hs). intros [= <-].
    pose proof (pushed_fields ft s) as (Hq & _ & _ & Hth & Hsh & _). by split_and!.
  - unfold schedule, scheduleNoLock. intros E. apply bind_Ret_inv in E as (b & s1 & E1 & E).
    rewrite (bind_Ret get _ s s s eq_refl), Hs in E1. injection E1 as <- <-. rewrite app_nil_r.
    destruct (m_fibers s) eqn:Eq; cbn in E; injection E as <-; cbn; by rewrite ?Eq.
Qed.

(** Code that leaves the queue, the threads and the heap alone. *)
Definition still {A} (m : SM A) : Prop :=
  forall s a s', m s = Ret a s' -> m_fibers s' = m_fibers s /\ m_threads s' = m_threads s /\ shared s' = shared s.
Lemma still_bind {A B} (m : SM A) (f : A -> SM B) : still m -> (forall a, still (f a)) -> still (m ≫= f).
Proof.
  intros Hm Hf s b s' (a & s1 & E1 & E2)%bind_Ret_inv. destruct (Hm _ _ _ E1) as (Q1 & T1 & S1), (Hf _ _ _ _ E2) as (Q2 & T2 & S2).
  by rewrite Q2, T2, S2.
Qed.
Lemma still_ret {A} (a : A) : still (mret a).
Proof. intros s b s' E. by injection E as _ <-. Qed.
Lemma still_get : still get.
Proof. intros s b s' E. by injection E as _ <-. Qed.
Lemma still_crash {A} c : still (crash_with c : SM A).
Proof. intros s b s' E. discriminate E. Qed.
Lemma still_assert b what : still (assert b what).
Proof. intros s a s' E. unfold assert in E. destruct b; [by injection E as _ <-|discriminate E]. Qed.
Lemma still_modify f :
  (forall s, m_fibers (f s) = m_fibers s /\ m_threads (f s) = m_threads s /\ shared (f s) = shared s) -> still (modify f).
Proof. intros Hf s a s' E. injection E as _ <-. apply Hf. Qed.
Lemma still_tickle : still tickle.
Proof. by apply still_modify. Qed.
Lemma still_tickles n : still (Nat.iter n (fun m : SM unit => m;; tickle) (mret tt)).
Proof. induction n as [|n IH]; [apply still_ret|apply still_bind; [exact IH|intros; apply still_tickle]]. Qed.
Ltac still := repeat first [apply still_bind; intros|apply still_ret|apply still_get|apply still_crash|apply still_assert
  |apply still_modify; intros; split_and!; reflexivity|assumption|case_match].

Lemma stop_facts s on_this extra s' :
  Inv s -> stop on_this extra s = Ret tt s' ->
  m_fibers s' = m_fibers s /\
  ((m_threads s' = m_threads s /\ heap (shared s') = heap (shared s)) \/
   (exists p, holds p = false /\ places s' = alter (fun x => (x.1, p)) 0%nat (places s) /\
    forall t, m_threads s !! 0%nat = Some t -> holds (pc t) = false)).
Proof.
  intros HI E. pose proof (inv_root s HI) as HR. unfold root_ok in HR. unfold stop in E.
  rewrite (bind_Ret get _ s s s eq_refl) in E.
  assert (Hstill : forall m : SM unit, still m -> m s = Ret tt s' -> m_fibers s' = m_fibers s /\
    ((m_threads s' = m_threads s /\ heap (shared s') = heap (shared s)) \/
     (exists p, holds p = false /\ places s' = alter (fun x => (x.1, p)) 0%nat (places s) /\
      forall t, m_threads s !! 0%nat = Some t -> holds (pc t) = false))).
  { intros m Hm Em. destruct (Hm _ _ _ Em) as (Q & T & S). split; [done|]. left. by rewrite S. }
  destruct (stop_pc s) eqn:Hst; [|(apply bind_Ret_inv in E as (u & s1 & E1 & E))| | |injection E as <-; split; [done|by left]].
  - eapply Hstill; [|exact E]. still.
  - apply bind_Ret_inv in E as (u2 & s2 & E2 & E).
    destruct (still_tickles _ _ _ _ E1) as (Q1 & T1 & S1).
    assert (St2 : forall b, still (when b tickle)) by (intros []; [apply still_tickle|apply still_ret]). destruct (St2 _ _ _ _ E2) as (Q2 & T2 & S2).
    rewrite <- Q1, <- Q2, <- T1, <- T2, <- S1, <- S2. unfold places. rewrite <- T1, <- T2.
    destruct (m_rootFiber s) as [r|]; cbn [andb] in E.
    + destruct (negb (stopping extra s)); [|injection E as <-; split; [done|by left]].
      destruct HR as (_ & t0 & rest & Et & _ & _ & _ & Hpc).
      apply bind_Ret_inv in E as (u3 & s3 & E3 & E). apply bind_Ret_inv in E as (u4 & s4 & E4 & E). injection E as <-.
      destruct (calm_on_thread _ _ _ _ _ E3) as [Q3 P3]. destruct u4, (lands_goto _ _ _ _ E4) as [Q4 P4].
      split; [cbn; by rewrite Q4|]. right. exists PStart. split; [done|]. split; [unfold places in *; cbn; by rewrite P4, P3|].
      rewrite T2, T1, Et. intros t [= <-]. by rewrite Hpc.
    + injection E as <-. split; [done|by left].
  - destruct (m_threads s !! 0%nat) as [t|] eqn:Ht; [|eapply Hstill; [|exact E]; destruct (m_rootFiber s); still].
    destruct (m_rootFiber s) as [r|]; [|eapply Hstill; [|exact E]; still].
    destruct (pc t) eqn:Hpc; try (eapply Hstill; [|exact E]; solve [still]).
    apply bind_Ret_inv in E as (u3 & s3 & E3 & E). injection E as <-.
    destruct (calm_on_thread _ _ _ _ _ E3) as [Q3 P3]. split; [exact Q3|]. right. exists PExit. split; [done|].
    split; [|by intros t' [= <-]; rewrite Hpc].
    rewrite (alter_here _ 0 _ (tid t, PExit)); [exact P3| |done]. by rewrite (place_of s 0 t Ht), Hpc.
  - eapply Hstill; [|exact E]. destruct (all_exited _); still.
Qed.


Lemma other_step ss s a s' :
  Inv s -> allowed s a = true -> match a with Advance _ _ => False | _ => True end -> step ss a s = Ret tt s' ->
  m_fibers s' = m_fibers s ++ List.filter ft_some (submits s a) /\ forall j o, hand_at s j o -> hand_at s' j o.
Proof.
  intros HI Ha Hno E. destruct (step_ok ss s a HI Ha) as (s'' & E' & HI' & HK). rewrite E in E'. injection E' as <-.
  destruct a as [|i b|ft|cb|ids|on_this extra]; [done|..]; cbn [step actor] in *.
  - cbn [submits]. unfold run_body in E. rewrite (bind_Ret get _ s s s eq_refl) in E.
    destruct (m_threads s !! i) as [t|] eqn:Ht; [|injection E as <-; split; [destruct b; by rewrite app_nil_r|done]].
    assert (Hstay : s' = s -> (forall ft, b = BSchedule ft -> match pc t with PRun _ _ | PIdle => False | _ => True end) ->
      m_fibers s' = m_fibers s ++ List.filter ft_some (submits s (Body i b)) /\ forall j o, hand_at s j o -> hand_at s' j o).
    { intros -> Hb. split; [|done]. cbn [submits]. rewrite Ht. destruct b as [ft| | | |]; try (by rewrite app_nil_r).
      specialize (Hb ft eq_refl). destruct (pc t); try done; by rewrite app_nil_r. }
    assert (Hsch : forall ft, b = BSchedule ft -> schedule ft s = Ret tt s' ->
      m_fibers s' = m_fibers s ++ List.filter ft_some [ft] /\ forall j o, hand_at s j o -> hand_at s' j o).
    { intros ft -> Es. destruct (schedule_facts ft s s' Es) as (-> & T & S). split; [done|].
      intros j o. apply hand_same; [done|by rewrite S]. }
    cbn [submits] in Hstay. rewrite Ht in Hstay. destruct (pc t) eqn:Hpc; try (apply Hstay; [by injection E as <-|done]).
    + apply bind_Ret_inv in E as (g & s1 & Eg & E). rewrite (fiber_at_here s i t f Ht) in Eg.
      destruct (heap (shared s) !! f) as [g'|] eqn:Hg; [|done]. injection Eg as -> <-.
      assert (Hgoes : forall p, holds p = false -> places s' = alter (fun x => (x.1, p)) i (places s) -> m_fibers s' = m_fibers s ->
        m_fibers s' = m_fibers s ++ [] /\ forall j o, hand_at s j o -> hand_at s' j o).
      { intros p Hp P Q. rewrite app_nil_r. split; [done|]. intros j o. apply (hand_alter i s s' p); try done.
        intros t0. rewrite Ht. intros [= <-]. by rewrite Hpc. }
      assert (Hend : forall p (m : SM unit), holds p = false -> lands i p m -> m s = Ret tt s' ->
        m_fibers s' = m_fibers s ++ [] /\ forall j o, hand_at s j o -> hand_at s' j o).
      { intros p m Hp Hm Em. destruct (Hm _ _ Em). by apply (Hgoes p). }
      assert (Hyield : forall st, (cur ← on_thread i (mark_yield st); goto i (PYield f k cur false)) s = Ret tt s' ->
        m_fibers s' = m_fibers s ++ [] /\ forall j o, hand_at s j o -> hand_at s' j o).
      { intros st (cur & s1 & E1 & E2)%bind_Ret_inv. destruct (calm_on_thread _ _ _ _ _ E1) as [Q1 P1].
        destruct (lands_goto _ _ _ _ E2) as [Q2 P2]. apply (Hgoes (PYield f k cur false)); [done|by rewrite P2, P1|by rewrite Q2]. }
      destruct (m_cb g) as [c|]; [destruct b as [ft| | | |]|destruct b]; cbn [List.filter];
        try (by apply (Hyield READY)); try (by apply (Hyield HOLD));
        try (eapply (Hend (PYield f k f true)); [done| |exact E]; lands).
      by apply Hsch.
    + destruct b as [ft| | | |]; [by apply Hsch|apply Hstay; [by injection E as <-|done]..].
  - destruct (schedule_facts ft s s' E) as (-> & T & S). split; [done|]. intros j o. apply hand_same; [done|by rewrite S].
  - destruct (new_ok (length (m_threads s)) ss s cb HI) as (s1 & E1 & _ & HK1). rewrite E in E1. injection E1 as <-.
    assert (m_fibers s' = m_fibers s /\ m_threads s' = m_threads s) as [Q T].
    { unfold new_fiber in E. destruct (Fiber_new ss cb 0 false (shared s, tls_new)) as [? [? ?]|? [? ?]|]; [|done..].
      by injection E as <-. }
    split; [by rewrite app_nil_r|]. intros j o Ho.
    destruct (decide (j < length (m_threads s))%nat).
    + apply (hand_kept (length (m_threads s)) 1 s s'); [done|done|lia| |done]. rewrite T. by intros ->.
    + unfold hand_at in *. rewrite T. rewrite (proj2 (lookup_ge_None (m_threads s) j)) in * by lia. done.
  - assert (m_fibers s' = m_fibers s /\ shared s' = shared s /\ exists l, m_threads s' = m_threads s ++ l /\ Forall (fun t => pc t = PStart) l) as (Q & S & l & T & F).
    { unfold start in E. rewrite (bind_Ret get _ s s s eq_refl) in E. destruct (negb (m_stopping s)).
      - injection E as <-. split_and!; try done. exists []. split; [by rewrite app_nil_r|done].
      - apply bind_Ret_inv in E as (u & s1 & E1 & E). injection E1 as _ <-. apply bind_Ret_inv in E as (u2 & s2 & E2 & E).
        unfold assert in E2. destruct (threads_empty s); [injection E2 as _ <-|discriminate E2]. injection E as <-.
        split_and!; try done. eexists. split; [done|]. apply Forall_map, Forall_true. done. }
    split; [by rewrite app_nil_r|]. intros j o. unfold hand_at. rewrite T, S. destruct (m_threads s !! j) as [t|] eqn:Ht.
    + by rewrite (lookup_app_l_Some _ _ _ _ Ht).
    + intros ->. destruct ((m_threads s ++ l) !! j) as [t|] eqn:Ht'; [|done].
      rewrite lookup_app_r in Ht' by (by apply lookup_ge_None in Ht). rewrite Forall_lookup in F. specialize (F _ _ Ht').
      apply hand_empty; [by rewrite F|done].
  - destruct (stop_facts s on_this extra s' HI E) as [Q Hs]. split; [by rewrite app_nil_r|]. intros j o.
    destruct Hs as [[T S]|(p & Hp & P & H0)]; [by apply hand_same|by apply (hand_alter 0 s s' p)].
Qed.

(** ** The theorem *)

Record watch_ok (s : Scheduler) (w : tally) : Prop := mkWatch {
  wk_balance : submitted w ≡ₚ map snd (started w) ++ dropped w ++ map snd (map_to_list (hand w)) ++ m_fibers s;
  wk_bound : Forall (fun e => ft_thread e.2 = -1 \/ ft_thread e.2 = e.1) (started w);
  wk_hand : forall i, hand_at s i (hand w !! i)
}.

(** The hand after a step that changes only thread [i]'s. *)
Lemma hand_update ss s i t extra s' t' (m m' : gmap nat FiberAndThread) :
  Inv s -> allowed s (Advance i extra) = true -> step ss (Advance i extra) s = Ret tt s' ->
  m_threads s !! i = Some t -> m_threads s' !! i = Some t' ->
  places s' = alter (fun x => (x.1, pc t')) i (places s) ->
  (forall j, j <> i -> m' !! j = m !! j) -> hand_ok (heap (shared s')) t' (m' !! i) ->
  (forall j, hand_at s j (m !! j)) -> forall j, hand_at s' j (m' !! j).
Proof.
  intros HI Ha E Ht Ht' P Hm Hi Hall j. destruct (step_ok ss s _ HI Ha) as (s'' & E' & _ & HK).
  rewrite E in E'. injection E' as <-. cbn [actor] in HK. destruct (decide (j = i)) as [-> |Hj].
  - unfold hand_at. by rewrite Ht'.
  - rewrite Hm by done. apply (hand_kept i 1 s s'); [done|done|lia| |apply Hall]. intros Hn t0 Ht0.
    apply place_of in Ht0. rewrite P, list_lookup_alter_ne in Ht0 by done. unfold places in Ht0.
    by rewrite list_lookup_fmap, Hn in Ht0.
Qed.

Lemma hand_delete (m : gmap nat FiberAndThread) i ft :
  m !! i = Some ft -> map snd (map_to_list m) ≡ₚ ft :: map snd (map_to_list (delete i m)).
Proof.
  intros Hi. rewrite <- (insert_id m i ft Hi) at 1. rewrite <- insert_delete_eq, map_to_list_insert by apply lookup_delete_eq.
  done.
Qed.

Lemma watch_advance ss s i extra s' w :
  Inv s -> watch_ok s w -> step ss (Advance i extra) s = Ret tt s' -> watch_ok s' (watch s s' (Advance i extra) w).
Proof.
  intros HI [B A H] E. destruct (m_threads s !! i) as [t|] eqn:Ht.
  2: { unfold watch, watch_thread. cbn [submits step] in *. unfold advance in E.
    rewrite (bind_Ret get _ s s s eq_refl), Ht in E. injection E as <-. rewrite Ht. constructor; cbn; by rewrite ?app_nil_r. }
  pose proof (thread_step ss s i t extra s' HI Ht E) as HM. pose proof (H i) as Hi. unfold hand_at in Hi. rewrite Ht in Hi.
  assert (Hidle : holds (pc t) = false -> match pc t with PTop => False | _ => True end ->
    (s' = s /\ submits s (Advance i extra) = [] \/ steps_to s i t extra s') -> watch_ok s' (watch s s' (Advance i extra) w)).
  { intros Hh Hn [[-> Hs]|(p & t' & P & Ht' & Et & Ep & Hmv)].
    - unfold watch, watch_thread. rewrite Hs, Ht. cbn. rewrite app_nil_r. by destruct (pc t) as [| | |? ? []| | | | | | | |], w.
    - assert (Hp : m_fibers s' = m_fibers s ++ List.filter ft_some (submits s (Advance i extra)) /\ holds (pc t') = false)
        by (unfold moved in Hmv; by destruct (pc t) as [| | |? ? []| | | | | | | |]).
      destruct Hp as [Q Hh']. assert (Ew : watch s s' (Advance i extra) w =
        mkTally (submitted w ++ List.filter ft_some (submits s (Advance i extra))) (started w) (dropped w) (hand w)).
      { unfold watch, watch_thread. cbn [hand]. rewrite Ht, Ht'. by destruct (pc t) as [| | |? ? []| | | | | | | |]. }
      rewrite Ew. constructor; cbn [submitted started dropped hand]; [rewrite B, Q; solve_Permutation|done|].
      apply (hand_update ss s i t extra s' t' (hand w)); try done; [by rewrite Ep|].
      apply hand_empty; [done|]. by apply hand_empty in Hi. }
  destruct (pc t) as [| | |ft tm []|f k|f k|f k cur e|f k|f k| | |] eqn:Hpc; try (apply Hidle; [done|done|];
    first [right; exact HM|left; split; [exact HM|cbn [submits]; by rewrite Ht, Hpc]]); clear Hidle;
    destruct HM as (p & t' & P & Ht' & Et & Ep & Hmv); unfold moved in Hmv; rewrite Hpc in Hmv; rewrite <- Ep in P.
  - unfold hand_ok in Hi. rewrite Hpc in Hi.
    assert (Hs : submits s (Advance i extra) = []) by (cbn; by rewrite Ht, Hpc).
    unfold watch, watch_thread. rewrite Hs, Ht, Ht', Hpc. cbn [List.filter hand submitted started dropped]. rewrite app_nil_r.
    destruct Hmv as [(ft & tm & a & b & Ep' & Qa & Qb & Hsome & Hb)|(tm & Ep' & Q)]; rewrite Ep'.
    + constructor; cbn [submitted started dropped hand]; [|done|].
      * rewrite map_to_list_insert by done. rewrite B, Qa, Qb. cbn [map snd]. solve_Permutation.
      * apply (hand_update ss s i t extra s' t' (hand w)); try done; [intros; by rewrite lookup_insert_ne|].
        rewrite lookup_insert_eq. unfold hand_ok. rewrite Ep'. unfold bound_to. by rewrite Et.
    + constructor; cbn [submitted started dropped hand]; [by rewrite B, Q|done|].
      apply (hand_update ss s i t extra s' t' (hand w)); try done. unfold hand_ok. by rewrite Ep'.
  - unfold hand_ok in Hi. rewrite Hpc in Hi. destruct Hi as (Hw & Hsome & Hb). destruct (Hmv Hsome) as [Q Hx].
    assert (Hs : submits s (Advance i extra) = []) by (cbn; by rewrite Ht, Hpc).
    unfold watch, watch_thread. rewrite Hs, Ht, Ht', Hpc. cbn [List.filter hand submitted started dropped]. rewrite app_nil_r, Hw.
    destruct Hx as [(f & k & Ep' & Hsv)|[Ep' Hf]]; rewrite Ep'.
    + constructor; cbn [submitted started dropped hand]; [by rewrite B, Q|done|].
      apply (hand_update ss s i t extra s' t' (hand w)); try done. unfold hand_ok. rewrite Ep', Hw. exists ft.
      split_and!; try done. unfold bound_to. by rewrite Et.
    + rewrite Hf. constructor; cbn [submitted started dropped hand]; [|done|].
      * rewrite B, Q, (hand_delete _ _ _ Hw). solve_Permutation.
      * apply (hand_update ss s i t extra s' t' (hand w)); try done; [intros; by rewrite lookup_delete_ne|].
        rewrite lookup_delete_eq. apply hand_empty; [by rewrite Ep'|done].
  - unfold hand_ok in Hi. rewrite Hpc in Hi. destruct Hi as (ft & Hw & Hsv & Hb).
    destruct Hmv as (Q & Ep' & Hcpu & g & g' & Hg & Hg' & Hcb).
    assert (Hs : submits s (Advance i extra) = []) by (cbn; by rewrite Ht, Hpc).
    unfold watch, watch_thread. rewrite Hs, Ht, Ht', Hpc. cbn [List.filter hand submitted started dropped]. rewrite app_nil_r, Hw, Ep'.
    assert (Hex : executes s' t' ft = true).
    { unfold executes. rewrite Hcpu. destruct k; cbn in Hsv; [by rewrite bool_decide_true|].
      destruct Hsv as (g0 & Hg0 & Hc & [c Hc']). rewrite Hg in Hg0. injection Hg0 as <-. rewrite Hc', Hg', Hcb, Hc, Hc'.
      by rewrite (bool_decide_true (Some c = Some c)), orb_true_r. }
    rewrite Hex. constructor; cbn [submitted started dropped hand].
    + rewrite B, Q, (hand_delete _ _ _ Hw), map_app. cbn [map snd]. solve_Permutation.
    + apply Forall_app. split; [done|]. apply Forall_singleton. cbn. unfold bound_to in Hb. by rewrite Et.
    + apply (hand_update ss s i t extra s' t' (hand w)); try done; [intros; by rewrite lookup_delete_ne|].
      rewrite lookup_delete_eq. apply hand_empty; [by rewrite Ep'|done].
Qed.

Lemma watch_step ss s a s' w :
  Inv s -> allowed s a = true -> watch_ok s w -> step ss a s = Ret tt s' -> watch_ok s' (watch s s' a w).
Proof.
  intros HI Ha W E. destruct a as [i extra|i b|ft|cb|ids|on_this extra]; [by apply (watch_advance ss)|..];
    match type of E with step _ ?a _ = _ =>
      destruct (other_step ss s a s' HI Ha I E) as [Q Hh]; destruct W as [B A H]; constructor;
        [cbn [watch submitted started dropped hand]; rewrite B, Q; solve_Permutation|done|intros j; by apply Hh, H] end.
Qed.

Lemma watched_ok ss acts s w s' :
  Inv s -> disciplined ss s acts = true -> watch_ok s w -> steps ss acts s = Ret tt s' ->
  watch_ok s' (watched ss acts s w) /\ Inv s'.
Proof.
  revert s w. induction acts as [|a acts IH]; intros s w HI Hd W E; [by injection E as <-|].
  cbn [disciplined] in Hd. apply andb_prop in Hd as [Ha Hd].
  destruct (step_ok ss s a HI Ha) as (s1 & E1 & HI1 & _). cbn [steps watched] in *. rewrite E1 in Hd |- *.
  rewrite (bind_Ret _ _ _ _ _ E1) in E. apply (IH s1); try done. by apply (watch_step ss s a).
Qed.

Section run.
Context (ss : Z) (sh : FiberState) (l : Tls) (threads : Z) (use_caller : bool) (id : Z).
Context (Hh : heap_ok sh) (Hl : caller_ok sh l) (Hthreads : 0 < threads) (Hid : id <> -1).

(** C12: tasks are neither lost nor duplicated.  Watch any disciplined run from the
    constructor: the tasks given to [schedule], by the program, by other tasks and
    by the loop for a fiber that has yielded READY, are at any moment, up to order and each
    once, those a thread has started (it is then on the stack of the task's fiber, or of
    one that has its callable), fibers that were over when a thread took them,
    those a thread has just taken off the queue and is about to enter, and those still
    queued.  A task is started on the thread it was queued for; but the loop queues
    a fiber that yields READY for any thread.  And m_activeThreadCount is the number
    of threads that have taken a task and not yet left it. *)
Theorem tasks_conserved acts s0 sl s :
  Scheduler_new ss threads use_caller id false (sh, l) = Ret s0 sl ->
  disciplined ss s0 acts = true -> steps ss acts s0 = Ret tt s ->
  let w := watched ss acts s0 tally_new in
  submitted w ≡ₚ map snd (started w) ++ dropped w ++ map snd (map_to_list (hand w)) ++ m_fibers s /\
  Forall (fun e => ft_thread e.2 = -1 \/ ft_thread e.2 = e.1) (started w) /\
  (forall i ft, hand w !! i = Some ft -> exists t, m_threads s !! i = Some t /\
     ((exists tm, pc t = PFetched ft tm true) \/ (exists f k, pc t = PSwapIn f k /\ serves (heap (shared s)) f k ft))) /\
  m_activeThreadCount s = u64 (count (m_threads s)).
Proof.
  intros E Hd Es w.
  destruct (scheduler_new_ok ss threads use_caller id sh l Hh Hl Hthreads Hid) as (s0' & sl' & E' & HI & Hq & _ & _ & _ & _ & Hpc & _).
  rewrite E in E'. injection E' as <- <-.
  assert (W0 : watch_ok s0 tally_new).
  { constructor; cbn; [by rewrite Hq|done|]. intros i. rewrite lookup_empty. unfold hand_at.
    destruct (m_threads s0 !! i) as [t|] eqn:Ht; [|done]. rewrite Forall_lookup in Hpc. by apply hand_empty; [rewrite (Hpc i t Ht)|]. }
  destruct (watched_ok ss acts s0 tally_new s HI Hd W0 Es) as [[B A H] HIs]. fold w in B, A, H.
  split; [done|]. split; [done|]. split; [|apply (inv_active s HIs)]. intros i ft Hi. specialize (H i). unfold hand_at in H.
  rewrite Hi in H. destruct (m_threads s !! i) as [t|]; [|done]. exists t. split; [done|]. unfold hand_ok in H.
  destruct (pc t) as [| | |ft' tm []|f k| | | | | | |]; try done.
  - destruct H as ([= <-] & _). left. by exists tm.
  - destruct H as (ft' & [= <-] & Hs & _). right. by exists f, k.
Qed.
End run.

(** The run of SchedulerThms: two callables are started, and the fiber of one is about to be again. *)
Lemma tasks_conserved_witness :
  let w := watched 1024 demo demo_start tally_new in
  (length (started w) = 2 /\ size (hand w) = 1)%nat /\
  submitted w ≡ₚ map snd (started w) ++ dropped w ++ map snd (map_to_list (hand w)) ++ m_fibers demo_end /\
  Forall (fun e => ft_thread e.2 = -1 \/ ft_thread e.2 = e.1) (started w) /\
  m_activeThreadCount demo_end = u64 (count (m_threads demo_end)).
Proof.
  intros w. split; [by vm_compute|].
  assert (E : exists sl, Scheduler_new 1024 2 true 9 false (fresh, tls_new) = Ret demo_start sl)
    by (eexists; vm_compute; reflexivity). destruct E as [sl E].
  destruct (tasks_conserved 1024 fresh tls_new 2 true 9 fresh_ok tls_new_ok ltac:(lia) ltac:(done) demo demo_start sl demo_end E)
    as (H1 & H2 & _ & H3); [vm_compute; reflexivity..|]. split; [exact H1|]. split; [exact H2|exact H3].
Defined.
