(* ===== verification/SchedulerRaces.v ===== *)
(** Interleavings of the scheduler that break it: a fiber scheduled while it is
    about to yield, and a task bound to a thread that has left its loop. *)
From S2P Require Import Prelude.
From stdpp Require Import list.
From S2P Require Import Fiber Scheduler SchedulerInv SchedulerSafe SchedulerThms SchedulerTasks.
Open Scope Z_scope.

(** The constructor with two threads, none of them the caller's. *)
Definition pool (ss threads : Z) : Scheduler :=
  match Scheduler_new ss threads false 9 false (fresh, tls_new) with
  | Ret s0 _ => s0
  | _ => demo_end
  end.

(** ** A fiber scheduled while it is about to yield *)

Lemma swapIn_stale f m g gm sh l :
  heap sh !! f = Some g -> m_state g <> EXEC -> m_ctx g = Running ->
  t_mainFiber l = Some m -> heap sh !! m = Some gm -> m <> f ->
  swapIn f (sh, l) = Crash StaleContext.
Proof.
  intros Hf Hst Hr Hm Hgm Hne. unfold swapIn.
  step_with (eq_refl : SetThis (Some f) (sh, l) = Ret tt (sh, set_fiber (Some f) l)). set (l1 := set_fiber (Some f) l).
  step_with (fiber_at_run f g sh l1 Hf).
  step_with (assert_run (bool_decide (m_state g <> EXEC)) "m_state != EXEC" (sh, l1) ltac:(by apply bool_decide_eq_true)).
  set (sh1 := set_heap (<[f := set_state EXEC g]> (heap sh)) sh).
  step_with (eq_refl : store f (set_state EXEC g) (sh, l1) = Ret tt (sh1, l1)).
  step_with (eq_refl : get (sh1, l1) = Ret (sh1, l1) (sh1, l1)). cbn [snd].
  assert (Em : deref (t_mainFiber l1) (sh1, l1) = Ret m (sh1, l1)) by (unfold l1; cbn; by rewrite Hm).
  step_with Em. unfold swapcontext.
  assert (Hm1 : heap sh1 !! m = Some gm) by (cbn; by rewrite lookup_insert_ne).
  step_with (fiber_at_run m gm sh1 l1 Hm1). step_with (eq_refl : get (sh1, l1) = Ret (sh1, l1) (sh1, l1)). cbn [snd].
  set (h2 := <[m := set_ctx (Saved (on_cpu l1)) gm]> (heap sh1)).
  step_with (eq_refl : store m (set_ctx (Saved (on_cpu l1)) gm) (sh1, l1) = Ret tt (set_heap h2 sh1, l1)).
  assert (Hf2 : heap (set_heap h2 sh1) !! f = Some (set_state EXEC g)).
  { cbn. unfold h2. rewrite lookup_insert_ne by done. cbn. by rewrite lookup_insert_eq. }
  step_with (fiber_at_run f _ (set_heap h2 sh1) l1 Hf2). cbn [m_ctx set_state]. by rewrite Hr.
Qed.

Lemma f_main s i j ti tj f k m :
  Inv s -> m_threads s !! i = Some ti -> m_threads s !! j = Some tj ->
  kind_ok (heap (shared s)) ti f k -> pc ti = PYield f k f false -> pc tj = PTop ->
  t_mainFiber (tls tj) = Some m -> m <> f.
Proof.
  intros HI Hi Hj Hk Hpi Hpj Hm ->. pose proof (inv_nodup s HI) as ND. unfold owns in ND. apply NoDup_app in ND as (ND & _).
  assert (i = j) as ->; [|congruence]. apply (owned_once (m_threads s) i j ti tj f); try done.
  - apply slot_owned, (kind_in _ ti f k Hk). intros ->. rewrite Hpi. cbn. set_solver.
  - by apply main_owned.
Qed.

Section yield.
Context (ss : Z) (s : Scheduler) (i j : nat) (ti tj : Thr) (f : nat) (k : kind).
Context (HI : Inv s) (Hi : m_threads s !! i = Some ti) (Hj : m_threads s !! j = Some tj).
Context (Htop : pc tj = PTop) (Hempty : m_fibers s = []).
Abbreviation task := (mkFT (Some f) None (-1)).

(** A step of thread [j], whose place and tls are known. *)
Lemma thread_run s0 t p x :
  m_threads s0 !! j = Some t -> pc t = p ->
  advance ss j x s0 = match p with
  | PTop => match fetch (tid t) (heap (shared s0)) (m_fibers s0) with
      | None => crash_with (AssertFail "it->fiber || it->cb")
      | Some (Some ft, rest, tickle_me) =>
        modify (fun s => log [] [(tid t, ft)]
          (set_active (u64 (m_activeThreadCount s + 1)) (set_fibers rest s)));;
        goto j (PFetched ft tickle_me true)
      | Some (None, rest, tickle_me) => goto j (PFetched FT_reset tickle_me false)
      end
  | PFetched ft tm act => when tm tickle;; dispatch ss j t ft act
  | PSwapIn f k => on_thread j (swapIn f);; goto j (PRun f k)
  | _ => advance ss j x
  end s0.
Proof. intros Ht <-. unfold advance. destruct (pc t) eqn:Hp; try done; by rewrite (bind_Ret get _ s0 s0 s0 eq_refl), Ht, Hp. Qed.

Lemma schedule_here : schedule task s = Ret tt (pushed task s).
Proof. by apply schedule_run. Qed.

(** Before the yield the state is EXEC, and the loop passes the fiber over. *)
Lemma passed_over x : pc ti = PRun f k ->
  exists s', steps ss [Schedule task; Advance j x] s = Ret tt s' /\ m_fibers s' = [task] /\ exists t', m_threads s' !! j = Some t' /\ pc t' = PFetched FT_reset false false.
Proof.
  intros Hpc. pose proof (inv_thr s HI) as F. rewrite Forall_lookup in F. pose proof (F i ti Hi) as T.
  unfold thr_ok in T. rewrite Hpc in T. destruct T as (_ & _ & m & g & _ & _ & _ & _ & _ & Hg & _ & _ & He).
  apply bool_decide_eq_true in He. pose proof (pushed_fields task s) as (Hq & _ & _ & Hth & Hsh & _).
  rewrite Hempty in Hq. cbn [app] in Hq.
  assert (Hj1 : m_threads (pushed task s) !! j = Some tj) by by rewrite Hth.
  set (s' := set_threads (alter (set_pc (PFetched FT_reset false false)) j (m_threads (pushed task s))) (pushed task s)).
  assert (E1 : advance ss j x (pushed task s) = Ret tt s').
  { rewrite (thread_run _ tj PTop x Hj1 Htop), Hq, Hsh. cbn [fetch ft_thread ft_fiber ft_some negb andb Z.eqb].
    unfold state_at. rewrite Hg. cbn [fmap option_fmap option_map]. rewrite He. by rewrite bool_decide_true by done. }
  exists s'. split; [cbn [steps step]; step_with schedule_here; by step_with E1|]. split; [done|].
  exists (set_pc (PFetched FT_reset false false) tj). split; [|done].
  change (alter (set_pc (PFetched FT_reset false false)) j (m_threads (pushed task s)) !! j = Some (set_pc (PFetched FT_reset false false) tj)).
  by rewrite list_lookup_alter_eq, Hj1.
Qed.

(** From there to the switch it takes the fiber, and resumes a context nobody saved. *)
Lemma resumed_stale x y z : pc ti = PYield f k f false ->
  steps ss [Schedule task; Advance j x; Advance j y; Advance j z] s = Crash StaleContext.
Proof.
  intros Hpc. pose proof (inv_thr s HI) as F. rewrite Forall_lookup in F. pose proof (F i ti Hi) as T. pose proof (F j tj Hj) as Tj.
  unfold thr_ok in T, Tj. rewrite Hpc in T. rewrite Htop in Tj.
  destruct T as (_ & _ & Hk & m & g & Hm & _ & _ & (gm & Hgm & Hcm) & _ & Hg & Hst & Hrun & Hy).
  destruct Tj as ((mj & Hmj & _ & Hcpu & (gj & Hgj & Hcj) & _) & _ & _).
  pose proof (f_main s i j ti tj f k mj HI Hi Hj Hk Hpc Htop Hmj) as Hne.
  cbn in Hy. apply bool_decide_eq_true in Hy.
  assert (Hse : m_state g <> EXEC) by (by intros Ex; rewrite Ex in Hy; destruct Hy).
  assert (Hend : ended_state (m_state g) = false) by (destruct Hy as [-> | ->]; done).
  pose proof (pushed_fields task s) as (Hq & _ & _ & Hth & Hsh & _). rewrite Hempty in Hq. cbn [app] in Hq.
  cbn [steps]. step_with schedule_here. clear HI Hi F. revert Hq Hth Hsh. generalize (pushed task s). intros s1 Hq Hth Hsh.
  assert (Hj1 : m_threads s1 !! j = Some tj) by by rewrite Hth.
  set (s2 := set_threads (alter (set_pc (PFetched task false true)) j (m_threads s1))
    (log [] [(tid tj, task)] (set_active (u64 (m_activeThreadCount s1 + 1)) (set_fibers [] s1)))).
  assert (E1 : advance ss j x s1 = Ret tt s2).
  { rewrite (thread_run _ tj PTop x Hj1 Htop), Hq, Hsh. cbn [fetch ft_thread ft_fiber ft_some negb andb Z.eqb].
    unfold state_at. rewrite Hg. cbn [fmap option_fmap option_map]. rewrite bool_decide_false by congruence. reflexivity. }
  cbn [step]. step_with E1.
  set (t2 := set_pc (PFetched task false true) tj).
  assert (Hj2 : m_threads s2 !! j = Some t2) by (cbn; by rewrite list_lookup_alter_eq, Hj1).
  set (s3 := set_threads (alter (set_pc (PSwapIn f KFiber)) j (m_threads s2)) s2).
  assert (E2 : advance ss j y s2 = Ret tt s3).
  { rewrite (thread_run _ t2 (PFetched task false true) y Hj2 eq_refl). cbn [when]. unfold dispatch.
    step_with (eq_refl : (mret tt : SM unit) s2 = Ret tt s2).
    assert (Ef : (g ← on_thread j (fiber_at f); mret (negb (ended_state (m_state g)))) s2 = Ret true s2).
    { rewrite (bind_Ret _ _ _ g s2); [by rewrite Hend|]. rewrite (fiber_at_here s2 j t2 f Hj2).
      change (shared s2) with (shared s1). by rewrite Hsh, Hg. }
    cbn [ft_fiber ft_cb]. by step_with Ef. }
  step_with E2. apply bind_Crash. set (t3 := set_pc (PSwapIn f KFiber) t2).
  assert (Hj3 : m_threads s3 !! j = Some t3) by (change (alter (set_pc (PSwapIn f KFiber)) j (m_threads s2) !! j = Some t3); by rewrite list_lookup_alter_eq, Hj2).
  rewrite (thread_run _ t3 (PSwapIn f KFiber) z Hj3 eq_refl). apply bind_Crash. unfold on_thread. rewrite Hj3.
  change (shared s3) with (shared s1). rewrite Hsh. change (tls t3) with (tls tj).
  by rewrite (swapIn_stale f mj g gj (shared s) (tls tj) Hg Hse Hrun Hmj Hgj Hne).
Qed.
End yield.

(** C13: the EXEC test of the loop does not protect a fiber that is about to yield,
    because YieldToHold and YieldToReady set the state before the context is saved.
    In every reachable state in which thread [i] is in a task on the fiber [f],
    thread [j] is at the top of its loop and nothing is queued, let [f] be
    scheduled, as what it waits for will do.  As long as [f] has not begun its yield,
    thread [j] passes it over; from the moment the state is set until the context has been
    switched, thread [j] takes it and resumes a context that has not been saved. *)
Theorem yield_race ss sh l threads use_caller id acts s0 sl s i j ti tj f k x y z :
  heap_ok sh -> caller_ok sh l -> 0 < threads -> id <> -1 ->
  Scheduler_new ss threads use_caller id false (sh, l) = Ret s0 sl ->
  disciplined ss s0 acts = true -> steps ss acts s0 = Ret tt s ->
  m_threads s !! i = Some ti -> m_threads s !! j = Some tj -> pc tj = PTop -> m_fibers s = [] ->
  (pc ti = PRun f k -> exists s', steps ss [Schedule (mkFT (Some f) None (-1)); Advance j x] s = Ret tt s' /\
     m_fibers s' = [mkFT (Some f) None (-1)] /\
     exists t', m_threads s' !! j = Some t' /\ pc t' = PFetched FT_reset false false) /\
  (pc ti = PYield f k f false ->
     steps ss [Schedule (mkFT (Some f) None (-1)); Advance j x; Advance j y; Advance j z] s = Crash StaleContext).
Proof.
  intros Hh Hl Ht Hid E Hd Es Hi Hj Htop Hempty.
  destruct (scheduler_new_ok ss threads use_caller id sh l Hh Hl Ht Hid) as (s0' & sl' & E' & HI & _).
  rewrite E in E'. injection E' as <- <-. destruct (steps_ok ss acts s0 HI Hd) as (s' & Es' & HIs).
  rewrite Es in Es'. injection Es' as <-. split; intros Hpc.
  - by apply (passed_over ss s i j ti tj f k HIs Hi Hj Htop Hempty x).
  - by apply (resumed_stale ss s i j ti tj f k HIs Hi Hj Htop Hempty x y z).
Qed.

(** Thread 0 runs the fiber 1 and begins to yield; thread 1 is at the top of its loop. *)
Definition handover : list action :=
  [New (Some 5); Start [10; 11]; Schedule (mkFT (Some 1%nat) None (-1))] ++
  repeat (Advance 0 true) 4 ++ [Advance 1 true; Body 0 BYieldToHold].
Definition handed : Scheduler := match steps 1024 handover (pool 1024 2) with Ret _ s => s | _ => demo_end end.
Definition nth_thread (s : Scheduler) (i : nat) : Thr :=
  match m_threads s !! i with Some t => t | None => mkThr 0 tls_new PExit None None end.

Definition pool_state : FiberState * Tls :=
  match Scheduler_new 1024 2 false 9 false (fresh, tls_new) with Ret _ sl => sl | _ => (fresh, tls_new) end.

Lemma yield_race_witness :
  pc (nth_thread handed 0) = PYield 1 KFiber 1 false /\
  steps 1024 [Schedule (mkFT (Some 1%nat) None (-1)); Advance 1 true; Advance 1 true; Advance 1 true] handed = Crash StaleContext.
Proof.
  split; [by vm_compute|].
  apply (yield_race 1024 fresh tls_new 2 false 9 handover (pool 1024 2) pool_state handed 0 1 (nth_thread handed 0)
    (nth_thread handed 1) 1 KFiber true true true fresh_ok tls_new_ok); vm_compute; try reflexivity; discriminate.
Defined.

(** ** A task bound to a thread that has left *)

(** A task yields READY on thread 10 and then on thread 11; each time the other
    thread finds the queue empty and nobody active while the fiber waits to be
    queued again, and ends its idle fiber.  On thread 11 the task then binds a
    callable to thread 10. *)
Definition shutdown : list action :=
  [Start [10; 11]; Schedule (mkFT None (Some 5) (-1)); Stop false true; Stop false true] ++
  repeat (Advance 0 true) 4 ++ [Body 0 BYieldToReady; Advance 0 true; Advance 0 true] ++
  repeat (Advance 1 true) 5 ++ [Advance 0 true] ++
  repeat (Advance 1 true) 3 ++ [Body 1 BYieldToReady; Advance 1 true; Advance 1 true] ++
  repeat (Advance 0 true) 6 ++ repeat (Advance 1 true) 4 ++
  [Body 1 (BSchedule (mkFT None (Some 6) 10)); Body 1 BReturn] ++ repeat (Advance 1 true) 5 ++
  [Stop false true].

(** Stop can return with a task left behind: in a disciplined run a callable
    bound to a thread is queued, by a task, when that thread has already left
    its loop, because a fiber that yields READY is neither counted as active nor
    queued for a moment; every other thread passes the callable over, exits, and
    stop joins them all while the callable is still in m_fibers. *)
Theorem bound_task_lost ss :
  disciplined ss (pool ss 2) shutdown = true /\
  exists s, steps ss shutdown (pool ss 2) = Ret tt s /\ stop_pc s = SDone /\
    Forall (fun t => pc t = PExit) (m_threads s) /\
    m_fibers s = [mkFT None (Some 6) 10].
Proof.
  split; [vm_compute; reflexivity|].
  assert (E : match steps ss shutdown (pool ss 2) with
    | Ret _ s => (stop_pc s, all_exited (m_threads s), m_fibers s)
    | _ => (SNone, false, [])
    end = (SDone, true, [mkFT None (Some 6) 10])) by (vm_compute; reflexivity).
  destruct (steps ss shutdown (pool ss 2)) as [[] s| |]; [|done|done]. injection E as E1 E2 E3.
  exists s. repeat split; [done| |done]. apply Forall_forall. intros t Ht.
  pose proof (proj1 (forallb_forall _ _) E2 t (proj1 (list_elem_of_In _ _) Ht)) as Hp. cbn in Hp. by destruct (pc t).
Qed.
