(* ===== verification/IOManager.v ===== *)
(** linko/iomanager.{h,cc}: the scheduler that waits on epoll.

    An IOManager is a Scheduler and a TimerManager with a vector of FdContexts
    and an epoll descriptor.  The kernel is a parameter ([Kernel]); what it
    documents is [KernelLaws].  The operations on an event hold the mutex of its
    FdContext from their first test to their return, so each is one step; the
    idle fiber is a sequence of steps, between which anything else may run. *)
From S2P Require Import Prelude.
From S2P Require Import Timer TimerThms Fiber Scheduler.
Open Scope Z_scope.

(** IOManager::Event and the masks of epoll. *)
Definition NONE : Z := 0.
Definition READ : Z := 1.
Definition WRITE : Z := 4.
Definition EPOLLIN : Z := 0x1.
Definition EPOLLOUT : Z := 0x4.
Definition EPOLLERR : Z := 0x8.
Definition EPOLLHUP : Z := 0x10.
Definition EPOLLET : Z := 2 ^ 31.
Definition has (events event : Z) : bool := negb (Z.land events event =? 0).

(** A scheduler is named by a number; this one is 0. *)
Definition this_scheduler : Z := 0.

Record EventContext := mkEC {
  scheduler : option Z;
  fiber : option nat;
  cb : option Z
}.
Definition resetContext : EventContext := mkEC None None None.

Record FdContext := mkFdContext {
  read : EventContext;
  write : EventContext;
  fd : Z;
  events : Z
}.
Definition set_events (v : Z) (c : FdContext) : FdContext := mkFdContext (read c) (write c) (fd c) v.
Definition FdContext_new (fd : Z) : FdContext := mkFdContext resetContext resetContext fd NONE.

(** The reference [getContext] returns, as a read and a write. *)
Definition getContext (event : Z) (c : FdContext) : option EventContext :=
  if event =? READ then Some (read c) else if event =? WRITE then Some (write c) else None.
Definition setContext (event : Z) (e : EventContext) (c : FdContext) : FdContext :=
  if event =? READ then mkFdContext e (write c) (fd c) (events c)
  else mkFdContext (read c) e (fd c) (events c).

(** ** The kernel *)

Inductive epoll_op := CTL_ADD | CTL_MOD | CTL_DEL.

(** epoll_data: a descriptor, or a pointer to the FdContext at a place of the
    vector. *)
Inductive epoll_data := data_fd (fd : Z) | data_ptr (i : nat).
#[export] Instance epoll_data_eq_dec : EqDecision epoll_data.
Proof. solve_decision. Defined.

Class Kernel (K : Type) := {
  epoll_ctl : epoll_op -> Z -> Z -> epoll_data -> K -> Z * K;
  (** [write(m_tickleFds[1], "T", 1)], on a pipe that blocks when it is full. *)
  write_pipe : K -> Z * K;
  (** [while (read(m_tickleFds[0], &dummy, 1) == 1)]. *)
  drain_pipe : K -> K
}.

(** What an epoll descriptor waits for. *)
Class Interest (K : Type) := interest : K -> gmap Z (Z * epoll_data).

Class KernelLaws (K : Type) `{Kernel K} `{Interest K} : Prop := {
  ctl_fails : forall op f ev d k rt k', epoll_ctl op f ev d k = (rt, k') -> rt <> 0 -> interest k' = interest k;
  ctl_add : forall f ev d k k', epoll_ctl CTL_ADD f ev d k = (0, k') ->
    interest k !! f = None /\ interest k' = <[f := (ev, d)]> (interest k);
  ctl_mod : forall f ev d k k', epoll_ctl CTL_MOD f ev d k = (0, k') ->
    is_Some (interest k !! f) /\ interest k' = <[f := (ev, d)]> (interest k);
  ctl_del : forall f ev d k k', epoll_ctl CTL_DEL f ev d k = (0, k') ->
    is_Some (interest k !! f) /\ interest k' = delete f (interest k);
  write_one : forall k, (write_pipe k).1 = 1 /\ interest (write_pipe k).2 = interest k;
  drain_keeps : forall k, interest (drain_pipe k) = interest k
}.

(** ** The state *)

(** Where the idle fiber of a thread is, inside the loop of [idle]: before
    epoll_wait; behind it; in the loop over the reported events.  A thread whose
    idle fiber is at the head of its loop has none. *)
Inductive idle_pc :=
| IWait (timeout : Z)
| ITimers (reports : list (Z * epoll_data))
| IEvents (reports : list (Z * epoll_data)).

(** [foreign]: tasks given to other schedulers. *)
Record IOManager (K : Type) := mkIO {
  sched : Scheduler;
  timers : TimerManager;
  kernel : K;
  m_tickleFd : Z;
  m_pendingEventCount : Z;
  m_fdContexts : list FdContext;
  foreign : list (Z * FiberAndThread);
  idles : gmap nat idle_pc
}.
Arguments mkIO {K}.
Arguments sched {K}.
Arguments timers {K}.
Arguments kernel {K}.
Arguments m_tickleFd {K}.
Arguments m_pendingEventCount {K}.
Arguments m_fdContexts {K}.
Arguments foreign {K}.
Arguments idles {K}.

(** Who calls: a thread of this scheduler, or another thread with its
    thread-local state and scheduler. *)
Inductive caller := OnThread (i : nat) | Outside (l : Tls) (sc : option Z).

Section iomanager.
Context {K : Type} `{Kernel K}.
(** The value of fiber.stack_size, and the name of a timer's std::function among
    the callables the scheduler queues. *)
Context (stack_size : Z) (cb_name : callback -> Z).

Implicit Types (s : IOManager K) (c : FdContext) (event i now timeout : Z).

Definition IOM : Type -> Type := M (IOManager K).

Definition set_sched (v : Scheduler) s : IOManager K :=
  mkIO v (timers s) (kernel s) (m_tickleFd s) (m_pendingEventCount s) (m_fdContexts s) (foreign s) (idles s).
Definition set_timers (v : TimerManager) s : IOManager K :=
  mkIO (sched s) v (kernel s) (m_tickleFd s) (m_pendingEventCount s) (m_fdContexts s) (foreign s) (idles s).
Definition set_kernel (v : K) s : IOManager K :=
  mkIO (sched s) (timers s) v (m_tickleFd s) (m_pendingEventCount s) (m_fdContexts s) (foreign s) (idles s).
Definition add_pending (d : Z) s : IOManager K :=
  mkIO (sched s) (timers s) (kernel s) (m_tickleFd s) (u64 (m_pendingEventCount s + d)) (m_fdContexts s)
    (foreign s) (idles s).
Definition set_contexts (v : list FdContext) s : IOManager K :=
  mkIO (sched s) (timers s) (kernel s) (m_tickleFd s) (m_pendingEventCount s) v (foreign s) (idles s).
Definition add_foreign (sc : Z) (ft : FiberAndThread) s : IOManager K :=
  mkIO (sched s) (timers s) (kernel s) (m_tickleFd s) (m_pendingEventCount s) (m_fdContexts s)
    (foreign s ++ [(sc, ft)]) (idles s).
Definition set_idles (v : gmap nat idle_pc) s : IOManager K :=
  mkIO (sched s) (timers s) (kernel s) (m_tickleFd s) (m_pendingEventCount s) (m_fdContexts s) (foreign s) v.

(** IOManager::tickle, behind its test of hasIdleThreads. *)
Definition wake : IOM unit :=
  rt ← (fun s => let '(rt, k) := write_pipe (kernel s) in Ret rt (set_kernel k s));
  assert (rt =? 1) "rt == 1".

(** Code of the scheduler; the calls of tickle it makes are this class's. *)
Definition on_sched {A} (m : SM A) : IOM A := fun s =>
  match m (sched s) with
  | Ret a sc =>
    let calls := drop (length (tickles (sched s))) (tickles sc) in
    (foldr (fun idle m => when idle wake;; m) (mret a) calls) (set_sched sc s)
  | Throw e sc => Throw e (set_sched sc s)
  | Crash c => Crash c
  end.
Definition io_tickle : IOM unit := on_sched tickle.

(** Code of the timers; the calls of onTimerInsertedAtFront it makes, which come
    last, are tickles. *)
Definition on_timers {A} (m : M TimerManager A) : IOM A := fun s =>
  match m (timers s) with
  | Ret a tm =>
    (Nat.iter (Z.to_nat (m_front tm - m_front (timers s))) (fun k => io_tickle;; k) (mret a)) (set_timers tm s)
  | Throw e tm => Throw e (set_timers tm s)
  | Crash c => Crash c
  end.

(** ** FdContext *)

Definition context_at (i : nat) : IOM FdContext := fun s =>
  match m_fdContexts s !! i with Some c => Ret c s | None => Crash OutOfBounds end.
Definition store_context (i : nat) (c : FdContext) : IOM unit :=
  modify (fun s => set_contexts (<[i := c]> (m_fdContexts s)) s).
Definition context_for (event : Z) (c : FdContext) : IOM EventContext :=
  match getContext event c with Some e => mret e | None => crash_with (AssertFail "getContext") end.

(** [sc->schedule(ft)]. *)
Definition schedule_on (sc : option Z) (ft : FiberAndThread) : IOM unit :=
  match sc with
  | None => crash_with NullDeref
  | Some sc => if sc =? this_scheduler then on_sched (schedule ft) else modify (add_foreign sc ft)
  end.

(** The task is taken out of the context: the pointer overloads swap it away. *)
Definition triggerEvent (event : Z) (i : nat) : IOM unit :=
  c ← context_at i;
  assert (has (events c) event) "events & event";;
  let c := set_events (Z.land (events c) (Z.lnot event)) c in
  store_context i c;;
  ctx ← context_for event c;
  (match cb ctx with
   | Some f =>
     store_context i (setContext event (mkEC None (fiber ctx) None) c);;
     schedule_on (scheduler ctx) (mkFT None (Some f) (-1))
   | None =>
     store_context i (setContext event (mkEC None None (cb ctx)) c);;
     schedule_on (scheduler ctx) (mkFT (fiber ctx) None (-1))
   end).

Definition ctl (op : epoll_op) (fd ev : Z) (d : epoll_data) : IOM Z := fun s =>
  let '(rt, k) := epoll_ctl op fd ev d (kernel s) in Ret rt (set_kernel k s).

(** [m_fdContexts.resize(size)], then a new FdContext in every empty place. *)
Definition contextResize (size : Z) : IOM unit :=
  modify (fun s => let l := m_fdContexts s in
    set_contexts (ztake size l ++
      map (fun n => FdContext_new (Z.of_nat n)) (seq (length l) (Z.to_nat size - length l))) s).

(** ** The caller *)

Definition caller_scheduler (who : caller) : option Z :=
  match who with OnThread _ => Some this_scheduler | Outside _ sc => sc end.
Definition on_caller {A} (who : caller) (m : FM A) : IOM A :=
  match who with
  | OnThread i => on_sched (on_thread i m)
  | Outside l _ => fun s =>
    match m (shared (sched s), l) with
    | Ret a (sh, _) => Ret a (set_sched (set_shared sh (sched s)) s)
    | Throw e (sh, _) => Throw e (set_sched (set_shared sh (sched s)) s)
    | Crash c => Crash c
    end
  end.

(** ** The operations on events *)

Definition addEvent (who : caller) (fd event : Z) (f : option Z) : IOM Z :=
  s ← get;
  when (zlen (m_fdContexts s) <=? u64 fd) (contextResize (zlen (m_fdContexts s) * 3 / 2));;
  s ← get;
  if zlen (m_fdContexts s) <=? u64 fd then crash_with OutOfBounds else
  let i := Z.to_nat (u64 fd) in
  c ← context_at i;
  assert (negb (has (events c) event)) "!(fd_ctx->events & event)";;
  let op := if events c =? NONE then CTL_ADD else CTL_MOD in
  rt ← ctl op fd (Z.lor (Z.lor EPOLLET (events c)) event) (data_ptr i);
  if negb (rt =? 0) then mret (-1) else
  modify (add_pending 1);;
  let c := set_events (Z.lor (events c) event) c in
  store_context i c;;
  ctx ← context_for event c;
  assert (match scheduler ctx, fiber ctx, cb ctx with None, None, None => true | _, _, _ => false end)
    "!event_ctx.scheduler && !event_ctx.fiber && !event_ctx.cb";;
  match f with
  | Some f =>
    store_context i (setContext event (mkEC (caller_scheduler who) (fiber ctx) (Some f)) c);;
    mret 0
  | None =>
    cur ← on_caller who GetThis;
    store_context i (setContext event (mkEC (caller_scheduler who) (Some cur) (cb ctx)) c);;
    g ← on_caller who (fiber_at cur);
    assert (bool_decide (m_state g = EXEC)) "event_ctx.fiber->getState() == Fiber::EXEC";;
    mret 0
  end.

(** The common head of the three operations that end an event: the context of
    [fd], if there is one and it has what is asked for. *)
Definition find_context (fd : Z) (wanted : FdContext -> bool) : IOM (option (nat * FdContext)) :=
  s ← get;
  if zlen (m_fdContexts s) <=? u64 fd then mret None else
  let i := Z.to_nat (u64 fd) in
  c ← context_at i;
  mret (if wanted c then Some (i, c) else None).
Definition left_op (left_events : Z) : epoll_op := if left_events =? NONE then CTL_DEL else CTL_MOD.

Definition delEvent (fd event : Z) : IOM bool :=
  r ← find_context fd (fun c => has (events c) event);
  match r with
  | None => mret false
  | Some (i, c) =>
    let new_events := Z.land (events c) (Z.lnot event) in
    rt ← ctl (left_op new_events) fd (Z.lor EPOLLET new_events) (data_ptr i);
    if negb (rt =? 0) then mret false else
    modify (add_pending (-1));;
    let c := set_events new_events c in
    store_context i c;;
    context_for event c;;
    store_context i (setContext event resetContext c);;
    mret true
  end.

Definition cancelEvent (fd event : Z) : IOM bool :=
  r ← find_context fd (fun c => has (events c) event);
  match r with
  | None => mret false
  | Some (i, c) =>
    let new_events := Z.land (events c) (Z.lnot event) in
    rt ← ctl (left_op new_events) fd (Z.lor EPOLLET new_events) (data_ptr i);
    if negb (rt =? 0) then mret false else
    triggerEvent event i;;
    modify (add_pending (-1));;
    mret true
  end.

(** [if (mask & event) { triggerEvent(event); --m_pendingEventCount; }]. *)
Definition trigger_if (mask event : Z) (i : nat) : IOM unit :=
  when (has mask event) (triggerEvent event i;; modify (add_pending (-1))).

Definition cancelAll (fd : Z) : IOM bool :=
  r ← find_context fd (fun c => negb (events c =? NONE));
  match r with
  | None => mret false
  | Some (i, c) =>
    rt ← ctl CTL_DEL fd 0 (data_ptr i);
    if negb (rt =? 0) then mret false else
    trigger_if (events c) READ i;;
    c ← context_at i;
    trigger_if (events c) WRITE i;;
    c ← context_at i;
    assert (events c =? 0) "fd_ctx->events == 0";;
    mret true
  end.

(** ** The idle fiber *)

(** [stopping(timeout)]; its second result is [timeout]. *)
Definition stopping_at (now : Z) : IOM (bool * Z) :=
  timeout ← on_timers (getNextTimer now);
  s ← get;
  mret ((timeout =? no_timer) && (m_pendingEventCount s =? 0) && stopping true (sched s), timeout).

(** What epoll_wait is asked to wait at most. *)
Definition MAX_TIMEOUT : Z := 3000.
Definition wait_timeout (next_timeout : Z) : Z :=
  i32 (if negb (next_timeout =? no_timer)
       then if MAX_TIMEOUT <? i32 next_timeout then MAX_TIMEOUT else next_timeout
       else MAX_TIMEOUT).

(** The events of a report that the loop acts on, for a context with [events]. *)
Definition real_events (report events : Z) : Z :=
  let report := if has report (Z.lor EPOLLERR EPOLLHUP)
    then Z.lor report (Z.land (Z.lor EPOLLIN EPOLLOUT) events) else report in
  Z.lor (if has report EPOLLIN then READ else NONE) (if has report EPOLLOUT then WRITE else NONE).

(** One turn of the loop over the reports. *)
Definition handle (report : Z) (d : epoll_data) : IOM unit :=
  s ← get;
  match d with
  | data_fd f =>
    if f =? m_tickleFd s then modify (fun s => set_kernel (drain_pipe (kernel s)) s)
    else crash_with NullDeref
  | data_ptr i =>
    c ← context_at i;
    let real := real_events report (events c) in
    if Z.land (events c) real =? NONE then mret tt else
    let left_events := Z.land (events c) (Z.lnot real) in
    rt ← ctl (left_op left_events) (fd c) (Z.lor EPOLLET left_events) (data_ptr i);
    if negb (rt =? 0) then mret tt else
    trigger_if real READ i;;
    trigger_if real WRITE i
  end.

Definition set_idle_pc (i : nat) (p : option idle_pc) : IOM unit :=
  modify (fun s => set_idles (partial_alter (fun _ => p) i (idles s)) s).
(** Whether thread [i] is in its idle fiber. *)
Definition in_idle (i : nat) (s : IOManager K) : bool :=
  match m_threads (sched s) !! i with Some t => match pc t with PIdle => true | _ => false end | None => false end.

(** The head of the loop: the fiber ends, or goes on to epoll_wait. *)
Definition idle_check (i : nat) (now : Z) : IOM unit :=
  '(stop, timeout) ← stopping_at now;
  if (stop : bool) then
    idle ← on_sched (on_thread i GetThis);
    on_sched (on_thread i (MainFunc_end idle true);; goto i PIdleBack)
  else set_idle_pc i (Some (IWait timeout)).

(** Behind epoll_wait: the timers that are due. *)
Definition idle_timers (i : nat) (reports : list (Z * epoll_data)) (now_timer now : Z) : IOM unit :=
  cbs ← on_timers (listExpiredCb now_timer now);
  when (match cbs with [] => false | _ => true end)
    (on_sched (schedule_range (map (fun f => mkFT None (cb_name <$> f) (-1)) cbs)));;
  set_idle_pc i (Some (IEvents reports)).

(** The end of the loop's body: the fiber leaves as it is, EXEC. *)
Definition idle_leave (i : nat) : IOM unit :=
  set_idle_pc i None;;
  cur ← on_sched (on_thread i GetThis);
  on_sched (on_thread i (swapOut cur);; goto i PIdleBack).

(** ** Construction and the interleavings *)

(** [fds]: what the descriptor calls of the constructor return: epoll_create,
    pipe, the pipe's reading end and fcntl. *)
Definition IOManager_new (threads : Z) (use_caller : bool) (id : Z) (other : bool) (l : Tls) (sh : FiberState)
    (now : Z) (k : K) (epfd rt_pipe tickle_fd rt_fcntl : Z) (ids : list Z) : outcome (IOManager K) unit :=
  match Scheduler_new stack_size threads use_caller id other (sh, l) with
  | Ret sc _ =>
    (assert (0 <? epfd) "m_epfd > 0";;
     assert (rt_pipe =? 0) "!rt";;
     assert (rt_fcntl =? 0) "!rt";;
     rt ← ctl CTL_ADD tickle_fd (Z.lor EPOLLIN EPOLLET) (data_fd tickle_fd);
     assert (rt =? 0) "!rt";;
     contextResize 32;;
     on_sched (start ids))
    (mkIO sc (TimerManager_new now) k tickle_fd 0 [] [] ∅)
  | Throw _ _ | Crash _ => Crash (AssertFail "Scheduler::Scheduler")
  end.

(** Whether this step of [stop] calls the virtual [stopping]. *)
Definition stop_asks (sc : Scheduler) : bool :=
  match stop_pc sc, m_rootFiber sc with
  | SNone, Some r =>
    (m_threadCount sc =? 0) &&
    match heap (shared sc) !! r with
    | Some g => is_over (m_state g) && negb (bool_decide (m_state g = EXCEPT))
    | None => false
    end
  | SFlags, Some _ => true
  | _, _ => false
  end.

(** What the overriding [stopping] asks besides the base class. *)
Definition io_stop (on_this : bool) (now : Z) : IOM unit :=
  s ← get;
  if stop_asks (sched s) then
    timeout ← on_timers (getNextTimer now);
    s ← get;
    on_sched (stop on_this ((timeout =? no_timer) && (m_pendingEventCount s =? 0)))
  else on_sched (stop on_this false).

(** The destructor behind [stop]. *)
Definition IOManager_delete : IOM unit := modify (set_contexts []).

Inductive io_action :=
| Sched (a : action)
| IStop (on_this : bool) (now : Z)
| AddEvent (who : caller) (fd event : Z) (f : option Z)
| DelEvent (fd event : Z)
| CancelEvent (fd event : Z)
| CancelAll (fd : Z)
| Timers (o : op)
| IdleCheck (i : nat) (now : Z)
| IdleWait (i : nat) (reports : list (Z * epoll_data))
| IdleTimers (i : nat) (now_timer now : Z)
| IdleEvent (i : nat).

Definition io_step (a : io_action) : IOM unit :=
  s ← get;
  match a with
  | Sched (Advance i extra) => if in_idle i s then mret tt else on_sched (advance stack_size i extra)
  | Sched (Body i b) => if in_idle i s then mret tt else on_sched (run_body i b)
  | Sched (Stop _ _) => mret tt
  | Sched a => on_sched (step stack_size a)
  | IStop on_this now => io_stop on_this now
  | AddEvent who fd event f => addEvent who fd event f;; mret tt
  | DelEvent fd event => delEvent fd event;; mret tt
  | CancelEvent fd event => cancelEvent fd event;; mret tt
  | CancelAll fd => cancelAll fd;; mret tt
  | Timers o => on_timers (run_op o)
  | IdleCheck i now =>
    match in_idle i s, idles s !! i with true, None => idle_check i now | _, _ => mret tt end
  | IdleWait i reports =>
    match in_idle i s, idles s !! i with true, Some (IWait _) => set_idle_pc i (Some (ITimers reports)) | _, _ => mret tt end
  | IdleTimers i now_timer now =>
    match in_idle i s, idles s !! i with true, Some (ITimers reports) => idle_timers i reports now_timer now | _, _ => mret tt end
  | IdleEvent i =>
    match in_idle i s, idles s !! i with
    | true, Some (IEvents []) => idle_leave i
    | true, Some (IEvents ((report, d) :: reports)) => handle report d;; set_idle_pc i (Some (IEvents reports))
    | _, _ => mret tt
    end
  end.

Fixpoint io_steps (acts : list io_action) : IOM unit :=
  match acts with
  | [] => mret tt
  | a :: acts => io_step a;; io_steps acts
  end.
End iomanager.
