(* ===== verification/IOSafe.v ===== *)
(** The invariant of the IOManager, and that every step keeps it: a context
    holds a task exactly for its registered events, the kernel waits for exactly
    those, m_pendingEventCount counts them. *)
From S2P Require Import Prelude.
From stdpp Require Import sorting.
From S2P Require Import Timer TimerThms Fiber Scheduler SchedulerInv SchedulerSafe IOManager.
Open Scope Z_scope.

(** ** Contexts *)

(** [events] as two flags. *)
Definition evs (r w : bool) : Z := (if r then READ else 0) + (if w then WRITE else 0).

Definition armed (e : EventContext) : Prop :=
  is_Some (scheduler e) /\
  match fiber e, cb e with Some _, None | None, Some _ => True | _, _ => False end.
Definition slot_for (on : bool) (e : EventContext) : Prop :=
  if on then armed e else e = resetContext.

(** The context of descriptor [i]. *)
Definition ctx_ok (i : nat) (c : FdContext) : Prop :=
  fd c = Z.of_nat i /\
  exists r w, events c = evs r w /\ slot_for r (read c) /\ slot_for w (write c).

Definition weight (c : FdContext) : Z := Z.b2z (has (events c) READ) + Z.b2z (has (events c) WRITE).
Definition registered (l : list FdContext) : Z := foldr (fun c n => weight c + n) 0 l.

Lemma registered_app a b : registered (a ++ b) = registered a + registered b.
Proof. unfold registered. induction a as [|c a IH]; cbn [app foldr]; [lia|rewrite IH; lia]. Qed.

Lemma registered_cons c l : registered (c :: l) = weight c + registered l.
Proof. done. Qed.

Lemma registered_insert l i c c' :
  l !! i = Some c -> registered (<[i := c']> l) = registered l + (weight c' - weight c).
Proof.
  revert i. induction l as [|d l IH]; intros [|i] Hi; try done; cbn in Hi.
  - injection Hi as ->. cbn [insert list_insert]. rewrite !registered_cons. lia.
  - change (<[S i := c']> (d :: l)) with (d :: <[i := c']> l). rewrite !registered_cons, (IH i Hi). lia.
Qed.

Lemma weight_bounds c : 0 <= weight c <= 2.
Proof. unfold weight. by destruct (has (events c) READ), (has (events c) WRITE). Qed.

Lemma registered_bounds l : 0 <= registered l <= 2 * zlen l.
Proof.
  induction l as [|c l IH]; [done|]. rewrite zlen_cons, registered_cons. pose proof (weight_bounds c). lia.
Qed.

Lemma registered_zero l : registered l = 0 -> Forall (fun c => weight c = 0) l.
Proof.
  induction l as [|c l IH]; [done|]. rewrite registered_cons. intros Hz.
  pose proof (registered_bounds l). pose proof (weight_bounds c). constructor; [lia|]. apply IH. lia.
Qed.

(** What the kernel waits for on descriptor [f], by the contexts. *)
Definition wanted (l : list FdContext) (f : Z) : option (Z * epoll_data) :=
  if f <? 0 then None else
  match l !! Z.to_nat f with
  | Some c => if events c =? NONE then None else Some (Z.lor EPOLLET (events c), data_ptr (Z.to_nat f))
  | None => None
  end.

Lemma wanted_insert l i c f :
  (i < length l)%nat ->
  wanted (<[i := c]> l) f = if decide (f = Z.of_nat i)
    then if events c =? NONE then None else Some (Z.lor EPOLLET (events c), data_ptr i)
    else wanted l f.
Proof.
  intros Hi. unfold wanted. case_decide as Hd.
  - subst f. destruct (Z.ltb_spec (Z.of_nat i) 0); [lia|]. rewrite Nat2Z.id.
    by rewrite list_lookup_insert_eq.
  - case_cmp; [done|]. rewrite list_lookup_insert_ne by lia. done.
Qed.

(** The new contexts that make the vector longer. *)
Definition blanks (a n : nat) : list FdContext := map (fun n => FdContext_new (Z.of_nat n)) (seq a n).

Lemma blanks_lookup a n i c : blanks a n !! i = Some c -> c = FdContext_new (Z.of_nat (a + i)).
Proof.
  unfold blanks. rewrite list_lookup_fmap. intros (x & Hx & ->)%fmap_Some. by apply lookup_seq in Hx as [-> _].
Qed.

Lemma registered_blanks a n : registered (blanks a n) = 0.
Proof. unfold blanks. revert a. induction n as [|n IH]; intros a; [done|].
  cbn [seq map]. by rewrite registered_cons, IH.
Qed.

Lemma wanted_blanks l n f : wanted (l ++ blanks (length l) n) f = wanted l f.
Proof.
  unfold wanted. case_cmp; [done|]. destruct (decide (Z.to_nat f < length l)%nat) as [Hd|Hd].
  - by rewrite lookup_app_l by done.
  - rewrite lookup_app_r by lia. rewrite (lookup_ge_None_2 l) by lia.
    destruct (blanks _ n !! _) as [c|] eqn:E; [|done]. by apply blanks_lookup in E as ->.
Qed.

(** ** The invariant *)

Section io.
Context {K : Type} `{KernelLaws K}.
Context (stack_size : Z) (cb_name : callback -> Z).
Implicit Types s : IOManager K.

Record io_inv s : Prop := mkIoInv {
  ii_sched : Inv (sched s);
  ii_timers : tm_wf (timers s);
  ii_ctx : forall i c, m_fdContexts s !! i = Some c -> ctx_ok i c;
  ii_len : 0 < zlen (m_fdContexts s) <= 2 ^ 32;
  ii_pending : m_pendingEventCount s = u64 (registered (m_fdContexts s));
  ii_interest : forall f, interest (kernel s) !! f =
    if decide (f = m_tickleFd s) then Some (Z.lor EPOLLIN EPOLLET, data_fd f) else wanted (m_fdContexts s) f;
  ii_tickle : wanted (m_fdContexts s) (m_tickleFd s) = None;
  ii_reports : forall i reports, idles s !! i = Some (ITimers reports) \/ idles s !! i = Some (IEvents reports) ->
    Forall (fun e => match e.2 with
      | data_fd f => f = m_tickleFd s
      | data_ptr i => (i < length (m_fdContexts s))%nat
      end) reports
}.

(** All but the scheduler is as before; the kernel waits for the same. *)
Definition io_same s s' : Prop :=
  timers s' = timers s /\ interest (kernel s') = interest (kernel s) /\ m_tickleFd s' = m_tickleFd s /\
  m_pendingEventCount s' = m_pendingEventCount s /\ m_fdContexts s' = m_fdContexts s /\ idles s' = idles s.

Lemma io_same_trans s1 s2 s3 : io_same s1 s2 -> io_same s2 s3 -> io_same s1 s3.
Proof. unfold io_same. intros (-> & -> & -> & -> & -> & ->) (-> & -> & -> & -> & -> & ->). done. Qed.

Lemma io_inv_same s s' : io_same s s' -> Inv (sched s') -> io_inv s -> io_inv s'.
Proof.
  intros (E1 & E2 & E3 & E4 & E5 & E6) HI []. constructor; rewrite ?E1, ?E2, ?E3, ?E4, ?E5, ?E6; done.
Qed.

Lemma wake_run s : exists s', wake s = Ret tt s' /\ io_same s s' /\ sched s' = sched s /\ foreign s' = foreign s.
Proof.
  destruct (write_one (kernel s)) as [Hw Hi]. unfold wake. exists (set_kernel (write_pipe (kernel s)).2 s).
  split; [|by repeat split]. eassert (E : (_ : IOM Z) s = Ret 1 (set_kernel (write_pipe (kernel s)).2 s)).
  2: { step_with E. done. }
  cbv beta. by destruct (write_pipe (kernel s)) as [rt k]; cbn in *; subst rt.
Qed.

Lemma wakes_run {A} (a : A) l s :
  exists s', foldr (fun idle (m : IOM A) => when idle wake;; m) (mret a) l s = Ret a s' /\
    io_same s s' /\ sched s' = sched s /\ foreign s' = foreign s.
Proof.
  revert s. induction l as [|b l IH]; intros s; [by exists s|]. cbn [foldr].
  assert (exists s1, when b wake s = Ret tt s1 /\ io_same s s1 /\ sched s1 = sched s /\ foreign s1 = foreign s)
    as (s1 & E1 & S1 & C1 & F1) by (destruct b; [apply wake_run|by exists s]).
  destruct (IH s1) as (s2 & E2 & S2 & C2 & F2). exists s2. step_with E1. rewrite C2, F2.
  split; [done|]. split; [by eapply io_same_trans|done].
Qed.

Lemma on_sched_run {A} (m : SM A) s a sc :
  m (sched s) = Ret a sc ->
  exists s', on_sched m s = Ret a s' /\ io_same s s' /\ sched s' = sc /\ foreign s' = foreign s.
Proof.
  intros E. unfold on_sched. rewrite E.
  destruct (wakes_run a (drop (length (tickles (sched s))) (tickles sc)) (set_sched sc s)) as (s' & E' & S & C & F).
  exists s'. rewrite C, F. split; [done|]. split; [|done]. exact S.
Qed.

Lemma on_sched_pure {A} (m : SM A) s a : m (sched s) = Ret a (sched s) -> on_sched m s = Ret a s.
Proof.
  intros E. unfold on_sched. rewrite E, drop_all. cbn. unfold mret, M_ret. by destruct s.
Qed.

(** A step of the scheduler. *)
Lemma on_sched_ok i (m : SM unit) s :
  io_inv s -> ok i m (sched s) -> exists s', on_sched m s = Ret tt s' /\ io_inv s' /\ io_same s s'.
Proof.
  intros HI (sc & E & HIs & _). destruct (on_sched_run m s tt sc E) as (s' & E' & S & C & _).
  exists s'. split; [done|]. split; [|done]. apply (io_inv_same s); [done|by rewrite C|done].
Qed.

Lemma ticks_run {A} (a : A) n s :
  io_inv s -> exists s', Nat.iter n (fun k : IOM A => io_tickle;; k) (mret a) s = Ret a s' /\ io_inv s' /\ io_same s s' /\
    m_threads (sched s') = m_threads (sched s) /\ m_rootFiber (sched s') = m_rootFiber (sched s).
Proof.
  revert s. induction n as [|n IH]; intros s HI; [by exists s|].
  destruct (on_sched_run tickle s tt (add_tickle (sched s)) eq_refl) as (s1 & E1 & S1 & C1 & _).
  destruct (IH s1) as (s2 & E2 & I2 & S2 & T2 & R2).
  { apply (io_inv_same s); [done| |done]. rewrite C1. apply inv_tickle, HI. }
  exists s2. split; [|split; [done|split; [by eapply io_same_trans|by rewrite T2, R2, C1]]].
  cbn [Nat.iter nat_rect]. change (io_tickle s = Ret tt s1) in E1. step_with E1. exact E2.
Qed.

Lemma on_timers_run {A} (m : M TimerManager A) s a tm :
  io_inv s -> m (timers s) = Ret a tm -> tm_wf tm ->
  exists s', on_timers m s = Ret a s' /\ io_inv s' /\ io_same (set_timers tm s) s' /\
    m_threads (sched s') = m_threads (sched s) /\ m_rootFiber (sched s') = m_rootFiber (sched s).
Proof.
  intros HI E W. unfold on_timers. rewrite E. apply (ticks_run a _ (set_timers tm s)). destruct HI. by constructor.
Qed.

(** The context of a descriptor replaced, with what the kernel waits for and the
    counter following. *)
Lemma io_inv_context s s' i c c' :
  io_inv s -> m_fdContexts s !! i = Some c -> m_fdContexts s' = <[i := c']> (m_fdContexts s) ->
  Inv (sched s') -> timers s' = timers s -> m_tickleFd s' = m_tickleFd s -> idles s' = idles s ->
  ctx_ok i c' -> m_pendingEventCount s' = u64 (m_pendingEventCount s + (weight c' - weight c)) ->
  Z.of_nat i <> m_tickleFd s ->
  interest (kernel s') = partial_alter (fun _ =>
    if events c' =? NONE then None else Some (Z.lor EPOLLET (events c'), data_ptr i)) (Z.of_nat i)
      (interest (kernel s)) ->
  io_inv s'.
Proof.
  intros [I1 I2 I3 I4 I5 I6 I7 I8] Hc Ec HS Et Ef Ei Hok Hp Hne Hk.
  pose proof (lookup_lt_Some _ _ _ Hc) as Hlt.
  constructor; rewrite ?Et, ?Ef, ?Ei, ?Ec; try done.
  - intros j d. destruct (decide (j = i)) as [-> |Hj].
    + rewrite list_lookup_insert_eq by done. by intros [= <-].
    + rewrite list_lookup_insert_ne by done. apply I3.
  - unfold zlen. rewrite length_insert. exact I4.
  - rewrite Hp, I5, (registered_insert _ i c c' Hc). unfold wrap. by rewrite Zplus_mod_idemp_l.
  - intros f. rewrite Hk, wanted_insert by done. destruct (decide (f = Z.of_nat i)) as [-> |Hf].
    + rewrite lookup_partial_alter_eq. by rewrite decide_False by done.
    + rewrite lookup_partial_alter_ne by done. apply I6.
  - rewrite wanted_insert by done. by rewrite decide_False by done.
  - intros j reports Hr. specialize (I8 j reports Hr). eapply Forall_impl; [exact I8|].
    intros [ev []]; [done|]. cbn. by rewrite length_insert.
Qed.

(** ** Firing an event *)

Definition is_event (event : Z) : Prop := event = READ \/ event = WRITE.

Lemma has_evs r w event :
  is_event event -> has (evs r w) event = if event =? READ then r else w.
Proof. intros [-> | ->]; by destruct r, w. Qed.
Lemma del_evs r w event :
  is_event event ->
  Z.land (evs r w) (Z.lnot event) = if event =? READ then evs false w else evs r false.
Proof. intros [-> | ->]; by destruct r, w. Qed.
Lemma add_evs r w event :
  is_event event ->
  Z.lor (evs r w) event = if event =? READ then evs true w else evs r true.
Proof. intros [-> | ->]; by destruct r, w. Qed.

(** A context without one of its events. *)
Definition cleared (event : Z) (c : FdContext) : FdContext :=
  setContext event resetContext (set_events (Z.land (events c) (Z.lnot event)) c).

Lemma cleared_ok i c event : is_event event -> ctx_ok i c -> ctx_ok i (cleared event c).
Proof.
  intros He (Hf & r & w & Ee & Hr & Hw). split; [by destruct He as [-> | ->]|].
  destruct He as [-> | ->]; [exists false, w|exists r, false]; cbn; rewrite Ee, del_evs; try done; unfold is_event; tauto.
Qed.

Lemma cleared_events event c :
  events (cleared event c) = Z.land (events c) (Z.lnot event).
Proof. unfold cleared, setContext. by destruct (event =? READ). Qed.

Lemma cleared_weight i c event :
  is_event event -> ctx_ok i c -> has (events c) event = true -> weight (cleared event c) = weight c - 1.
Proof.
  intros He (_ & r & w & Ee & _) Hh. unfold weight. rewrite cleared_events, Ee in *.
  destruct He as [-> | ->]; destruct r, w; done.
Qed.

(** The task a context holds for an event, and where it goes. *)
Definition task_of (event : Z) (c : FdContext) : option (Z * FiberAndThread) :=
  e ← getContext event c; sc ← scheduler e;
  Some (sc, match cb e with Some f => mkFT None (Some f) (-1) | None => mkFT (fiber e) None (-1) end).

Definition given (t : Z * FiberAndThread) (sc : Scheduler) : Scheduler :=
  if t.1 =? this_scheduler then pushed t.2 sc else sc.
Definition allowed_task (sc : Scheduler) (t : Z * FiberAndThread) : bool :=
  if t.1 =? this_scheduler then allowed_ft sc t.2 else true.

Lemma armed_task i c event :
  is_event event -> ctx_ok i c -> has (events c) event = true ->
  exists t, task_of event c = Some t /\ ft_some t.2 = true /\ ft_thread t.2 = -1 /\
    (ft_cb t.2 <> None -> ft_fiber t.2 = None) /\
    getContext event c = Some (mkEC (Some t.1) (ft_fiber t.2) (ft_cb t.2)).
Proof.
  intros He (_ & r & w & Ee & Hr & Hw) Hh. rewrite Ee, has_evs in Hh by done.
  assert (exists e, getContext event c = Some e /\ armed e) as (e & Eg & [sc Hsc] & Hx).
  { destruct He as [-> | ->]; cbn in *; subst; (eexists; split; [reflexivity|done]). }
  destruct e as [[sc'|] f g]; cbn in *; [|done]. injection Hsc as ->. unfold task_of. rewrite Eg.
  eexists. split; [reflexivity|]. by destruct f, g.
Qed.

Lemma given_ok sc t :
  Inv sc -> ft_some t.2 = true -> allowed_task sc t = true -> Inv (given t sc).
Proof.
  intros HI Hs Ha. unfold allowed_task, given in *. destruct (t.1 =? this_scheduler); [|done].
  destruct (schedule_ok 0 sc t.2 HI Ha) as (s' & E & HI' & _). rewrite schedule_run in E by done. by injection E as <-.
Qed.

Lemma schedule_on_run s t :
  ft_some t.2 = true ->
  exists s', schedule_on (Some t.1) t.2 s = Ret tt s' /\ io_same s s' /\ sched s' = given t (sched s) /\
    foreign s' = if t.1 =? this_scheduler then foreign s else foreign s ++ [t].
Proof.
  intros Hs. unfold schedule_on, given. destruct (t.1 =? this_scheduler).
  - destruct (on_sched_run (schedule t.2) s tt _ (schedule_run t.2 (sched s) Hs)) as (s' & ? & ? & ? & ?). by exists s'.
  - eexists. split; [reflexivity|]. split; [done|]. by destruct t.
Qed.

(** All but the scheduler and the contexts is as before. *)
Definition io_step_same s s' : Prop :=
  timers s' = timers s /\ interest (kernel s') = interest (kernel s) /\ m_tickleFd s' = m_tickleFd s /\
  m_pendingEventCount s' = m_pendingEventCount s /\ idles s' = idles s.

Lemma context_at_run s i c : m_fdContexts s !! i = Some c -> context_at i s = Ret c s.
Proof. intros E. unfold context_at. by rewrite E. Qed.
Lemma context_for_run event c e s : getContext event c = Some e -> context_for event c s = Ret e s.
Proof. intros E. unfold context_for. by rewrite E. Qed.

Lemma getContext_set event v c : getContext event (set_events v c) = getContext event c.
Proof. unfold getContext. by destruct (event =? READ), (event =? WRITE). Qed.

Lemma trigger_run s i c event :
  is_event event -> ctx_ok i c -> has (events c) event = true -> m_fdContexts s !! i = Some c ->
  exists t s', task_of event c = Some t /\ ft_some t.2 = true /\
    triggerEvent event i s = Ret tt s' /\ io_step_same s s' /\
    m_fdContexts s' = <[i := cleared event c]> (m_fdContexts s) /\ sched s' = given t (sched s) /\
    foreign s' = if t.1 =? this_scheduler then foreign s else foreign s ++ [t].
Proof.
  intros He Hok Hh Hc. destruct (armed_task i c event He Hok Hh) as (t & Et & Hs & Hth & Hx & Eg). exists t.
  unfold triggerEvent. step_with (context_at_run s i c Hc).
  step_with (assert_run (has (events c) event) "events & event" s Hh).
  set (c1 := set_events (Z.land (events c) (Z.lnot event)) c).
  set (s1 := set_contexts (<[i := c1]> (m_fdContexts s)) s).
  step_with (eq_refl : store_context i c1 s = Ret tt s1).
  step_with (context_for_run event c1 _ s1 (eq_trans (getContext_set event _ c) Eg)). cbn [cb fiber scheduler].
  set (s2 := set_contexts (<[i := cleared event c]> (m_fdContexts s)) s).
  assert (E2 : store_context i (setContext event resetContext c1) s1 = Ret tt s2).
  { unfold store_context, modify, s1, s2, set_contexts. cbn. by rewrite list_insert_insert_eq. }
  destruct (schedule_on_run s2 t Hs) as (s' & E' & (S1 & S2 & S3 & S4 & S5 & S6) & C & F). exists s'.
  split; [done|]. split; [done|]. split; [|by repeat split].
  destruct t as [sc [fb cbk th]]. cbn in *. subst th. destruct cbk as [g|].
  - rewrite Hx in * by done.
    step_with E2. exact E'.
  - step_with E2. exact E'.
Qed.

(** ** Firing what a mask names *)

Definition cleared_if (mask event : Z) (c : FdContext) : FdContext :=
  if has mask event then cleared event c else c.
Definition tasks_if (mask event : Z) (c : FdContext) : list (Z * FiberAndThread) :=
  if has mask event then option_list (task_of event c) else [].
Definition fired (mask : Z) (c : FdContext) : FdContext := cleared_if mask WRITE (cleared_if mask READ c).
Definition tasks (mask : Z) (c : FdContext) : list (Z * FiberAndThread) :=
  tasks_if mask READ c ++ tasks_if mask WRITE c.

Definition given_all (ts : list (Z * FiberAndThread)) (sc : Scheduler) : Scheduler :=
  foldl (fun sc t => given t sc) sc ts.
Fixpoint allowed_tasks (sc : Scheduler) (ts : list (Z * FiberAndThread)) : bool :=
  match ts with
  | [] => true
  | t :: ts => allowed_task sc t && allowed_tasks (given t sc) ts
  end.
Definition gone (ts : list (Z * FiberAndThread)) : list (Z * FiberAndThread) :=
  filter (fun t => t.1 <> this_scheduler) ts.

Lemma given_all_ok ts sc :
  Inv sc -> Forall (fun t => ft_some t.2 = true) ts -> allowed_tasks sc ts = true -> Inv (given_all ts sc).
Proof.
  revert sc. induction ts as [|t ts IH]; intros sc HI Hs Ha; [done|].
  apply Forall_cons in Hs as [Ht Hs]. cbn in Ha. apply andb_prop in Ha as [Ha1 Ha2].
  apply IH; [|done|done]. by apply given_ok.
Qed.

Lemma cleared_if_ok i c mask event : is_event event -> ctx_ok i c -> ctx_ok i (cleared_if mask event c).
Proof. intros He Hok. unfold cleared_if. destruct (has mask event); [by apply cleared_ok|done]. Qed.

(** Everything but the scheduler's tasks, one context and the counter is as
    before. *)
Record fired_at s s' (i : nat) (c : FdContext) (ts : list (Z * FiberAndThread)) (d : Z) : Prop := mkFired {
  fa_timers : timers s' = timers s;
  fa_interest : interest (kernel s') = interest (kernel s);
  fa_tickle : m_tickleFd s' = m_tickleFd s;
  fa_idles : idles s' = idles s;
  fa_contexts : m_fdContexts s' = <[i := c]> (m_fdContexts s);
  fa_sched : sched s' = given_all ts (sched s);
  fa_foreign : foreign s' = foreign s ++ gone ts;
  fa_pending n : m_pendingEventCount s = u64 n -> m_pendingEventCount s' = u64 (n + d)
}.

Lemma fired_at_trans s1 s2 s3 i c1 c2 t1 t2 d1 d2 :
  fired_at s1 s2 i c1 t1 d1 -> fired_at s2 s3 i c2 t2 d2 -> fired_at s1 s3 i c2 (t1 ++ t2) (d1 + d2).
Proof.
  intros [] []. constructor; try congruence.
  - rewrite fa_contexts1, fa_contexts0. apply list_insert_insert_eq.
  - rewrite fa_sched1, fa_sched0. unfold given_all. by rewrite foldl_app.
  - rewrite fa_foreign1, fa_foreign0, <- app_assoc. unfold gone. by rewrite filter_app.
  - intros n Hn. rewrite (fa_pending1 (n + d1)); [f_equal; lia|by apply fa_pending0].
Qed.

Lemma trigger_if_run s i c mask event :
  is_event event -> ctx_ok i c -> m_fdContexts s !! i = Some c ->
  (has mask event = true -> has (events c) event = true) ->
  exists s', trigger_if mask event i s = Ret tt s' /\
    fired_at s s' i (cleared_if mask event c) (tasks_if mask event c) (weight (cleared_if mask event c) - weight c) /\
    Forall (fun t => ft_some t.2 = true) (tasks_if mask event c).
Proof.
  intros He Hok Hc Hm. unfold trigger_if, cleared_if, tasks_if. destruct (has mask event).
  - specialize (Hm eq_refl). destruct (trigger_run s i c event He Hok Hm Hc) as (t & s' & Et & Hs & E & S & C & D & F).
    exists (add_pending (-1) s'). destruct S as (S1 & S2 & S3 & S4 & S5). split; [|split].
    + unfold when. by step_with E.
    + rewrite Et. constructor; try done.
      * cbn [foreign add_pending]. rewrite F. change (option_list (Some t)) with [t].
        unfold gone. rewrite filter_cons, filter_nil. destruct (Z.eqb_spec t.1 this_scheduler).
        -- rewrite decide_False by tauto. by rewrite app_nil_r.
        -- by rewrite decide_True by done.
      * intros n Hn. cbn. rewrite S4, Hn, (cleared_weight i) by done. unfold wrap. rewrite Zplus_mod_idemp_l. f_equal; lia.
    + rewrite Et. by repeat constructor.
  - exists s. split; [done|]. split; [|constructor]. constructor; try done.
    + by rewrite list_insert_id.
    + by rewrite app_nil_r.
    + intros n ->. f_equal. lia.
Qed.

Lemma task_of_cleared c mask : task_of WRITE (cleared_if mask READ c) = task_of WRITE c.
Proof. unfold cleared_if. by destruct (has mask READ). Qed.

Lemma has_cleared i c mask :
  ctx_ok i c -> has (events (cleared_if mask READ c)) WRITE = has (events c) WRITE.
Proof.
  intros (_ & r & w & Ee & _). unfold cleared_if. destruct (has mask READ); [|done].
  rewrite cleared_events, Ee. by destruct r, w.
Qed.

Lemma fire_run s i c mask mask' :
  ctx_ok i c -> m_fdContexts s !! i = Some c ->
  (has mask READ = true -> has (events c) READ = true) ->
  (has mask WRITE = true -> has (events c) WRITE = true) ->
  has mask' WRITE = has mask WRITE ->
  exists s1 s2, trigger_if mask READ i s = Ret tt s1 /\ m_fdContexts s1 !! i = Some (cleared_if mask READ c) /\
    trigger_if mask' WRITE i s1 = Ret tt s2 /\
    fired_at s s2 i (fired mask c) (tasks mask c) (weight (fired mask c) - weight c) /\
    Forall (fun t => ft_some t.2 = true) (tasks mask c) /\ ctx_ok i (fired mask c).
Proof.
  intros Hok Hc Hr Hw Hmm. pose proof (lookup_lt_Some _ _ _ Hc) as Hlt.
  destruct (trigger_if_run s i c mask READ) as (s1 & E1 & F1 & T1); [by left|done..|].
  assert (Hc1 : m_fdContexts s1 !! i = Some (cleared_if mask READ c)).
  { rewrite (fa_contexts _ _ _ _ _ _ F1). by apply list_lookup_insert_eq. }
  pose proof (cleared_if_ok i c mask READ ltac:(by left) Hok) as Hok1.
  destruct (trigger_if_run s1 i (cleared_if mask READ c) mask' WRITE) as (s2 & E2 & F2 & T2);
    [by right|done|done|by rewrite Hmm, (has_cleared i)|].
  exists s1, s2. split; [done|]. split; [done|]. split; [done|].
  assert (Ec : cleared_if mask' WRITE (cleared_if mask READ c) = fired mask c)
    by (unfold fired, cleared_if; by rewrite Hmm).
  assert (Et : tasks_if mask' WRITE (cleared_if mask READ c) = tasks_if mask WRITE c)
    by (unfold tasks_if; by rewrite Hmm, task_of_cleared).
  rewrite Ec, Et in *. split; [|split].
  - replace (weight (fired mask c) - weight c) with ((weight (cleared_if mask READ c) - weight c) +
      (weight (fired mask c) - weight (cleared_if mask READ c))) by lia. by eapply fired_at_trans.
  - by apply Forall_app.
  - apply cleared_if_ok; [by right|done].
Qed.

(** ** The operations that end an event *)

Lemma not_tickle s i c :
  io_inv s -> m_fdContexts s !! i = Some c -> events c <> NONE -> Z.of_nat i <> m_tickleFd s.
Proof.
  intros HI Hc Hne E. pose proof (ii_tickle s HI) as Ht. rewrite <- E in Ht. unfold wanted in Ht.
  destruct (Z.ltb_spec (Z.of_nat i) 0); [lia|]. rewrite Nat2Z.id, Hc in Ht.
  by destruct (Z.eqb_spec (events c) NONE).
Qed.

Lemma io_inv_fired s k' s' i c c' ts :
  io_inv s -> m_fdContexts s !! i = Some c -> events c <> NONE ->
  fired_at (set_kernel k' s) s' i c' ts (weight c' - weight c) -> ctx_ok i c' ->
  interest k' = partial_alter (fun _ =>
    if events c' =? NONE then None else Some (Z.lor EPOLLET (events c'), data_ptr i)) (Z.of_nat i)
      (interest (kernel s)) ->
  Forall (fun t => ft_some t.2 = true) ts -> allowed_tasks (sched s) ts = true -> io_inv s'.
Proof.
  intros HI Hc Hne [] Hok Hk Hts Ha. eapply (io_inv_context s s' i c c'); try done.
  - rewrite fa_sched0. apply given_all_ok; [apply HI|done|done].
  - rewrite (fa_pending0 _ (ii_pending s HI)), (ii_pending s HI). unfold wrap. by rewrite Zplus_mod_idemp_l.
  - by apply (not_tickle s i c).
  - by rewrite fa_interest0.
Qed.

Lemma io_inv_kernel s k' : interest k' = interest (kernel s) -> io_inv s -> io_inv (set_kernel k' s).
Proof. intros Hk HI. apply (io_inv_same s); [by repeat split|apply HI|done]. Qed.

Lemma ctl_run op f ev d s :
  exists rt k', epoll_ctl op f ev d (kernel s) = (rt, k') /\ ctl op f ev d s = Ret rt (set_kernel k' s).
Proof. unfold ctl. destruct (epoll_ctl op f ev d (kernel s)) as [rt k']. by exists rt, k'. Qed.

Lemma left_interest i left k k' :
  epoll_ctl (left_op left) (Z.of_nat i) (Z.lor EPOLLET left) (data_ptr i) k = (0, k') ->
  interest k' = partial_alter (fun _ =>
    if left =? NONE then None else Some (Z.lor EPOLLET left, data_ptr i)) (Z.of_nat i) (interest k).
Proof.
  unfold left_op. destruct (left =? NONE); intros E; [by apply ctl_del in E as [_ ->]|by apply ctl_mod in E as [_ ->]].
Qed.

Lemma find_context_run s f want :
  io_inv s -> in_s 32 f ->
  find_context f want s = Ret None s \/
  exists i c, f = Z.of_nat i /\ m_fdContexts s !! i = Some c /\ want c = true /\ ctx_ok i c /\
    find_context f want s = Ret (Some (i, c)) s.
Proof.
  intros HI Hf. unfold find_context. rewrite (bind_Ret get _ s s s eq_refl).
  destruct (Z.leb_spec (zlen (m_fdContexts s)) (u64 f)) as [|Hlt]; [by left|].
  pose proof (ii_len s HI) as Hl. unfold in_s in Hf.
  assert (u64 f = f) as Ef.
  { unfold wrap in *. destruct (Z.ltb_spec f 0); [|apply Z.mod_small; lia].
    exfalso. rewrite <- (Z_mod_plus_full f 1 (2 ^ 64)), Z.mod_small in Hlt by lia. lia. }
  rewrite Ef in *. assert (0 <= f) by (pose proof (wrap_range 64 f ltac:(lia)) as Hr; rewrite Ef in Hr; apply Hr).
  destruct (lookup_lt_is_Some_2 (m_fdContexts s) (Z.to_nat f)) as [c Hc]; [unfold zlen in Hlt; lia|].
  step_with (context_at_run s _ c Hc). destruct (want c) eqn:Hw; [right|by left].
  exists (Z.to_nat f), c. split; [lia|]. split; [done|]. split; [done|]. split; [by apply (ii_ctx s HI)|done].
Qed.

Lemma has_some e event : has e event = true -> e <> NONE.
Proof. by intros Hh ->. Qed.

Lemma delEvent_ok s f event :
  io_inv s -> in_s 32 f -> is_event event -> exists b s', delEvent f event s = Ret b s' /\ io_inv s'.
Proof.
  intros HI Hf He. unfold delEvent.
  destruct (find_context_run s f (fun c => has (events c) event) HI Hf) as [E|(i & c & -> & Hc & Hh & Hok & E)]; step_with E;
    [by exists false, s|].
  set (left := Z.land (events c) (Z.lnot event)).
  destruct (ctl_run (left_op left) (Z.of_nat i) (Z.lor EPOLLET left) (data_ptr i) s) as (rt & k' & Ek & Ec).
  step_with Ec. destruct (Z.eqb_spec rt 0) as [-> |Hrt]; cbn [negb].
  2: { exists false. eexists. split; [done|]. apply io_inv_kernel; [|done]. by apply (ctl_fails _ _ _ _ _ _ _ Ek). }
  destruct (armed_task i c event He Hok Hh) as (t & _ & _ & _ & _ & Eg).
  set (s1 := add_pending (-1) (set_kernel k' s)). step_with (eq_refl : modify (add_pending (-1)) (set_kernel k' s) = Ret tt s1).
  set (c1 := set_events left c). set (s2 := set_contexts (<[i := c1]> (m_fdContexts s)) s1).
  step_with (eq_refl : store_context i c1 s1 = Ret tt s2).
  step_with (context_for_run event c1 _ s2 (eq_trans (getContext_set event left c) Eg)).
  step_with (eq_refl : store_context i (setContext event resetContext c1) s2 = Ret tt
    (set_contexts (<[i := cleared event c]> (<[i := c1]> (m_fdContexts s))) s1)).
  exists true. eexists. split; [done|].
  eapply (io_inv_fired s k' _ i c (cleared event c) []); try done.
  - by eapply has_some.
  - constructor; try done.
    + cbn. apply list_insert_insert_eq.
    + cbn. by rewrite app_nil_r.
    + intros n Hn. cbn in Hn. cbn. rewrite Hn, (cleared_weight i) by done. unfold wrap. rewrite Zplus_mod_idemp_l. f_equal; lia.
  - by apply cleared_ok.
  - rewrite cleared_events. by apply left_interest.
Qed.

(** The tasks an operation hands on, for the condition that their fibers are
    free. *)
Definition tasks_at s (f : Z) (mask : FdContext -> Z) : list (Z * FiberAndThread) :=
  match m_fdContexts s !! Z.to_nat f with
  | Some c => if f <? 0 then [] else tasks (Z.land (mask c) (events c)) c
  | None => []
  end.

Lemma tasks_at_eq s i c mask :
  m_fdContexts s !! i = Some c -> tasks_at s (Z.of_nat i) mask = tasks (Z.land (mask c) (events c)) c.
Proof.
  intros Hc. unfold tasks_at. rewrite Nat2Z.id, Hc. by destruct (Z.ltb_spec (Z.of_nat i) 0); [lia|].
Qed.

Lemma mask_one i c event :
  is_event event -> ctx_ok i c -> has (events c) event = true -> Z.land event (events c) = event.
Proof.
  intros He (_ & r & w & Ee & _) Hh. rewrite Ee in *. rewrite has_evs in Hh by done.
  destruct He as [-> | ->]; cbn in Hh; subst; [by destruct w|by destruct r].
Qed.
Lemma tasks_one event c : is_event event -> tasks event c = tasks_if event event c.
Proof. intros [-> | ->]; unfold tasks, tasks_if; cbn [has]; [by rewrite app_nil_r|done]. Qed.

Lemma cancelEvent_ok s f event :
  io_inv s -> in_s 32 f -> is_event event ->
  allowed_tasks (sched s) (tasks_at s f (fun _ => event)) = true ->
  exists b s', cancelEvent f event s = Ret b s' /\ io_inv s'.
Proof.
  intros HI Hf He Ha. unfold cancelEvent.
  destruct (find_context_run s f (fun c => has (events c) event) HI Hf) as [E|(i & c & -> & Hc & Hh & Hok & E)]; step_with E;
    [by exists false, s|].
  rewrite (tasks_at_eq s i c _ Hc), (mask_one i c event He Hok Hh), (tasks_one event c He) in Ha.
  set (left := Z.land (events c) (Z.lnot event)).
  destruct (ctl_run (left_op left) (Z.of_nat i) (Z.lor EPOLLET left) (data_ptr i) s) as (rt & k' & Ek & Ec).
  step_with Ec. destruct (Z.eqb_spec rt 0) as [-> |Hrt]; cbn [negb].
  2: { exists false. eexists. split; [done|]. apply io_inv_kernel; [|done]. by apply (ctl_fails _ _ _ _ _ _ _ Ek). }
  destruct (trigger_if_run (set_kernel k' s) i c event event He Hok Hc (fun _ => Hh)) as (s' & Et & F & Fs).
  assert (Hee : has event event = true) by (by destruct He as [-> | ->]).
  unfold trigger_if, cleared_if in *. rewrite Hee in *. cbn [when] in Et.
  unfold mbind, M_bind in Et. destruct (triggerEvent event i (set_kernel k' s)) as [[] s1| |] eqn:E1; [|done|done].
  step_with E1. step_with Et. exists true, s'. split; [done|].
  eapply (io_inv_fired s k' _ i c (cleared event c)); try done.
  - by eapply has_some.
  - by apply cleared_ok.
  - rewrite cleared_events. by apply left_interest.
Qed.

Lemma evs_split i c : ctx_ok i c -> events c = evs (has (events c) READ) (has (events c) WRITE).
Proof. intros (_ & r & w & -> & _). by destruct r, w. Qed.

Lemma fired_events i c mask :
  ctx_ok i c -> events (fired mask c) =
    evs (has (events c) READ && negb (has mask READ)) (has (events c) WRITE && negb (has mask WRITE)).
Proof.
  intros (_ & r & w & Ee & _). unfold fired, cleared_if. rewrite Ee.
  destruct (has mask READ), (has mask WRITE); rewrite ?cleared_events, Ee; by destruct r, w.
Qed.

Lemma cancelAll_ok s f :
  io_inv s -> in_s 32 f -> allowed_tasks (sched s) (tasks_at s f events) = true ->
  exists b s', cancelAll f s = Ret b s' /\ io_inv s'.
Proof.
  intros HI Hf Ha. unfold cancelAll.
  destruct (find_context_run s f (fun c => negb (events c =? NONE)) HI Hf) as [E|(i & c & -> & Hc & Hh & Hok & E)]; step_with E;
    [by exists false, s|].
  rewrite (tasks_at_eq s i c _ Hc), Z.land_diag in Ha.
  assert (Hne : events c <> NONE) by (intros E0; by rewrite E0 in Hh).
  destruct (ctl_run CTL_DEL (Z.of_nat i) 0 (data_ptr i) s) as (rt & k' & Ek & Ec).
  step_with Ec. destruct (Z.eqb_spec rt 0) as [-> |Hrt]; cbn [negb].
  2: { exists false. eexists. split; [done|]. apply io_inv_kernel; [|done]. by apply (ctl_fails _ _ _ _ _ _ _ Ek). }
  destruct (fire_run (set_kernel k' s) i c (events c) (events (cleared_if (events c) READ c)) Hok Hc)
    as (s1 & s2 & E1 & Hc1 & E2 & F & Fs & Hok2); [done|done|by apply (has_cleared i)|].
  step_with E1. step_with (context_at_run s1 i _ Hc1). step_with E2.
  assert (Hc2 : m_fdContexts s2 !! i = Some (fired (events c) c)).
  { rewrite (fa_contexts _ _ _ _ _ _ F). apply list_lookup_insert_eq. by eapply lookup_lt_Some. }
  step_with (context_at_run s2 i _ Hc2).
  assert (Hz : events (fired (events c) c) = NONE).
  { rewrite (fired_events i) by done. by destruct (has (events c) READ), (has (events c) WRITE). }
  step_with (assert_run _ "fd_ctx->events == 0" s2 (proj2 (Z.eqb_eq _ 0) Hz)).
  exists true, s2. split; [done|]. eapply (io_inv_fired s k' s2 i c (fired (events c) c)); try done.
  rewrite Hz. by apply ctl_del in Ek as [_ ->].
Qed.

(** ** A report of epoll_wait *)

(** Of the events the loop is going to fire one is registered and another is not:
    something has taken it between epoll_wait and the mutex. *)
Definition in_part (report : Z) (c : FdContext) : Prop :=
  exists event other, is_event event /\ is_event other /\
    has (real_events report (events c)) event = true /\ has (events c) event = true /\
    has (real_events report (events c)) other = true /\ has (events c) other = false.
Definition report_tasks s (report : Z) (d : epoll_data) : list (Z * FiberAndThread) :=
  match d with
  | data_fd f => []
  | data_ptr i => tasks_at s (Z.of_nat i) (fun c => real_events report (events c))
  end.

Lemma real_evs report events : exists r w, real_events report events = evs r w.
Proof.
  unfold real_events. set (m := if has report _ then _ else _). exists (has m EPOLLIN), (has m EPOLLOUT).
  by destruct (has m EPOLLIN), (has m EPOLLOUT).
Qed.


Lemma evs_subset r w r' w' :
  Z.land (evs r w) (evs r' w') = evs r' w' -> (r' = true -> r = true) /\ (w' = true -> w = true).
Proof. destruct r, w, r', w'; vm_compute; split; done. Qed.

Lemma handle_fires s report i c k' :
  ctx_ok i c -> m_fdContexts s !! i = Some c ->
  Z.land (events c) (real_events report (events c)) <> NONE ->
  Z.land (events c) (real_events report (events c)) = real_events report (events c) ->
  let left := Z.land (events c) (Z.lnot (real_events report (events c))) in
  epoll_ctl (left_op left) (Z.of_nat i) (Z.lor EPOLLET left) (data_ptr i) (kernel s) = (0, k') ->
  exists s', handle report (data_ptr i) s = Ret tt s' /\
    fired_at (set_kernel k' s) s' i (fired (real_events report (events c)) c) (tasks (real_events report (events c)) c)
      (weight (fired (real_events report (events c)) c) - weight c) /\
    Forall (fun t => ft_some t.2 = true) (tasks (real_events report (events c)) c) /\
    ctx_ok i (fired (real_events report (events c)) c) /\
    events (fired (real_events report (events c)) c) = left.
Proof.
  intros Hok Hc Hne Hsub left Ek. pose proof Hok as (Hfd & r & w & Ee & _).
  destruct (real_evs report (events c)) as (r' & w' & Er). unfold handle.
  rewrite (bind_Ret get _ s s s eq_refl). step_with (context_at_run s i c Hc). cbv zeta. fold left. rewrite Hfd.
  assert (Hev : forall x y, has (evs x y) READ = x /\ has (evs x y) WRITE = y) by (by intros [] []).
  destruct (evs_subset r w r' w') as [Hr Hw]; [by rewrite Er, Ee in Hsub|].
  destruct (fire_run (set_kernel k' s) i c (real_events report (events c)) (real_events report (events c)) Hok Hc)
    as (s1 & s2 & E1 & _ & E2 & F & Fs & Hok2); [rewrite Er, Ee, !(proj1 (Hev _ _)); done|
      rewrite Er, Ee, !(proj2 (Hev _ _)); done|done|].
  destruct (Z.eqb_spec (Z.land (events c) (real_events report (events c))) NONE); [done|].
  assert (Ec : ctl (left_op left) (Z.of_nat i) (Z.lor EPOLLET left) (data_ptr i) s = Ret 0 (set_kernel k' s))
    by (unfold ctl; by rewrite Ek).
  step_with Ec. cbn [Z.eqb negb]. step_with E1. exists s2. split; [done|]. split; [done|]. split; [done|]. split; [done|].
  rewrite (fired_events i) by done. unfold left. rewrite Er, Ee, !(proj1 (Hev _ _)), !(proj2 (Hev _ _)).
  by destruct r, w, r', w'.
Qed.

Lemma in_part_iff report i c :
  ctx_ok i c ->
  in_part report c <-> Z.land (events c) (real_events report (events c)) <> NONE /\
    Z.land (events c) (real_events report (events c)) <> real_events report (events c).
Proof.
  intros (_ & r & w & Ee & _). unfold in_part. destruct (real_evs report (events c)) as (r' & w' & ->). rewrite Ee. split.
  - intros (event & other & [-> | ->] & [-> | ->] & Hx); revert Hx; destruct r, w, r', w'; vm_compute; intros (? & ? & ? & ?); try discriminate; split; discriminate.
  - intros [Hn Hp]. assert (r' = true /\ w' = true /\ (r = true /\ w = false \/ r = false /\ w = true)) as (-> & -> & Hrw)
      by (destruct r, w, r', w'; tauto || (by destruct Hn) || (by destruct Hp)).
    destruct Hrw as [[-> ->]|[-> ->]]; [exists READ, WRITE|exists WRITE, READ]; (split; [unfold is_event; tauto|split; [unfold is_event; tauto|done]]).
Qed.

Lemma trigger_missing s i c event :
  m_fdContexts s !! i = Some c -> has (events c) event = false ->
  triggerEvent event i s = Crash (AssertFail "events & event").
Proof. intros Hc Hh. unfold triggerEvent. step_with (context_at_run s i c Hc). by rewrite Hh. Qed.

(** A report that was overtaken in part: the loop fires all of it. *)
Lemma handle_stale s report i c k' :
  ctx_ok i c -> m_fdContexts s !! i = Some c -> in_part report c ->
  let left := Z.land (events c) (Z.lnot (real_events report (events c))) in
  epoll_ctl (left_op left) (Z.of_nat i) (Z.lor EPOLLET left) (data_ptr i) (kernel s) = (0, k') ->
  handle report (data_ptr i) s = Crash (AssertFail "events & event").
Proof.
  intros Hok Hc Hin left Ek. apply (in_part_iff report i c Hok) in Hin as [Hn Hp]. pose proof Hok as (Hfd & r & w & Ee & _).
  destruct (real_evs report (events c)) as (r' & w' & Er). unfold handle. rewrite (bind_Ret get _ s s s eq_refl).
  step_with (context_at_run s i c Hc). cbv zeta. fold left. rewrite Hfd.
  destruct (Z.eqb_spec (Z.land (events c) (real_events report (events c))) NONE); [done|].
  assert (Ec : ctl (left_op left) (Z.of_nat i) (Z.lor EPOLLET left) (data_ptr i) s = Ret 0 (set_kernel k' s))
    by (unfold ctl; by rewrite Ek).
  step_with Ec. cbn [Z.eqb negb]. rewrite Er in *. rewrite Ee in Hn, Hp.
  assert (r' = true /\ w' = true /\ (r = true /\ w = false \/ r = false /\ w = true)) as (-> & -> & Hrw)
    by (destruct r, w, r', w'; tauto || (by destruct Hn) || (by destruct Hp)).
  change (trigger_if (evs true true) READ) with (fun i => triggerEvent (K := K) READ i;; modify (add_pending (-1))).
  change (trigger_if (evs true true) WRITE) with (fun i => triggerEvent (K := K) WRITE i;; modify (add_pending (-1))).
  cbv beta. destruct Hrw as [[-> ->]|[-> ->]].
  - destruct (trigger_run (set_kernel k' s) i c READ) as (t & s1 & _ & _ & E1 & _ & C1 & _);
      [by left|done|by rewrite Ee|done|].
    assert (E2 : (triggerEvent READ i;; modify (add_pending (-1))) (set_kernel k' s) = Ret tt (add_pending (-1) s1))
      by by step_with E1.
    step_with E2. apply bind_Crash. apply (trigger_missing _ i (cleared READ c)).
    + cbn. rewrite C1. apply list_lookup_insert_eq. by eapply lookup_lt_Some.
    + by rewrite cleared_events, Ee.
  - apply bind_Crash, bind_Crash. apply (trigger_missing _ i c); [done|by rewrite Ee].
Qed.

(** Nothing of what is reported is registered any more, or epoll_ctl refuses. *)
Lemma handle_none s report i c :
  m_fdContexts s !! i = Some c -> Z.land (events c) (real_events report (events c)) = NONE ->
  handle report (data_ptr i) s = Ret tt s.
Proof.
  intros Hc Hn. unfold handle. rewrite (bind_Ret get _ s s s eq_refl).
  step_with (context_at_run s i c Hc). cbv zeta. by rewrite Hn.
Qed.
Lemma handle_refused s report i c rt k' :
  ctx_ok i c -> m_fdContexts s !! i = Some c -> Z.land (events c) (real_events report (events c)) <> NONE ->
  let left := Z.land (events c) (Z.lnot (real_events report (events c))) in
  epoll_ctl (left_op left) (Z.of_nat i) (Z.lor EPOLLET left) (data_ptr i) (kernel s) = (rt, k') -> rt <> 0 ->
  handle report (data_ptr i) s = Ret tt (set_kernel k' s).
Proof.
  intros (Hfd & _) Hc Hn left Ek Hrt. unfold handle. rewrite (bind_Ret get _ s s s eq_refl).
  step_with (context_at_run s i c Hc). cbv zeta. fold left. rewrite Hfd.
  destruct (Z.eqb_spec (Z.land (events c) (real_events report (events c))) NONE); [done|].
  assert (Ec : ctl (left_op left) (Z.of_nat i) (Z.lor EPOLLET left) (data_ptr i) s = Ret rt (set_kernel k' s))
    by (unfold ctl; by rewrite Ek).
  step_with Ec. by destruct (Z.eqb_spec rt 0).
Qed.

(** What a step leaves of the rest. *)
Definition idle_same s s' : Prop :=
  length (m_fdContexts s') = length (m_fdContexts s) /\ m_tickleFd s' = m_tickleFd s /\ idles s' = idles s.

(** The data of a report: the pipe, or a place of the vector. *)
Definition data_ok s (d : epoll_data) : Prop :=
  match d with data_fd f => f = m_tickleFd s | data_ptr i => (i < length (m_fdContexts s))%nat end.

Lemma handle_ok s report d :
  io_inv s -> data_ok s d -> allowed_tasks (sched s) (report_tasks s report d) = true ->
  (exists s', handle report d s = Ret tt s' /\ io_inv s' /\ idle_same s s') \/
  (exists i c, d = data_ptr i /\ m_fdContexts s !! i = Some c /\ in_part report c /\
    handle report d s = Crash (AssertFail "events & event")).
Proof.
  intros HI Hd Ha. destruct d as [f|i].
  - left. cbn in Hd. subst f. unfold handle. rewrite (bind_Ret get _ s s s eq_refl), Z.eqb_refl.
    eexists. split; [done|]. split; [|done]. apply io_inv_kernel; [apply drain_keeps|done].
  - cbn in Hd. destruct (lookup_lt_is_Some_2 _ _ Hd) as [c Hc]. pose proof (ii_ctx s HI i c Hc) as Hok.
    cbn in Ha. rewrite (tasks_at_eq s i c _ Hc), Z.land_comm in Ha.
    destruct (Z.eqb_spec (Z.land (events c) (real_events report (events c))) NONE) as [Hn|Hn].
    { left. exists s. split; [by apply (handle_none s report i c)|done]. }
    set (left := Z.land (events c) (Z.lnot (real_events report (events c)))).
    destruct (ctl_run (left_op left) (Z.of_nat i) (Z.lor EPOLLET left) (data_ptr i) s) as (rt & k' & Ek & _).
    destruct (Z.eqb_spec rt 0) as [-> |Hrt].
    2: { left. exists (set_kernel k' s). split; [by apply (handle_refused s report i c rt)|]. split; [|done].
      apply io_inv_kernel; [|done]. by apply (ctl_fails _ _ _ _ _ _ _ Ek). }
    destruct (Z.eqb_spec (Z.land (events c) (real_events report (events c))) (real_events report (events c))) as [Hf|Hf].
    2: { right. assert (Hin : in_part report c) by (by apply (in_part_iff report i)). exists i, c. split_and!; try done.
      by apply (handle_stale s report i c k'). }
    left. rewrite Hf in Ha. destruct (handle_fires s report i c k' Hok Hc Hn Hf Ek) as (s' & E & F & Fs & Hok2 & El).
    exists s'. split; [done|]. split.
    + eapply (io_inv_fired s k' s' i c); try done.
      * intros E0. by rewrite E0 in Hn.
      * rewrite El. by apply left_interest.
    + split; [|split; [apply (fa_tickle _ _ _ _ _ _ F)|apply (fa_idles _ _ _ _ _ _ F)]].
      rewrite (fa_contexts _ _ _ _ _ _ F). by rewrite length_insert.
Qed.

(** ** Registering an event *)

Lemma resize_ok s size :
  io_inv s -> zlen (m_fdContexts s) <= size <= 2 ^ 32 ->
  exists s', contextResize size s = Ret tt s' /\ io_inv s' /\ sched s' = sched s /\ m_tickleFd s' = m_tickleFd s /\
    idles s' = idles s /\
    m_fdContexts s' = m_fdContexts s ++ blanks (length (m_fdContexts s)) (Z.to_nat size - length (m_fdContexts s)).
Proof.
  intros HI Hs. set (l := m_fdContexts s) in *. set (n := (Z.to_nat size - length l)%nat).
  exists (set_contexts (l ++ blanks (length l) n) s).
  split; [unfold contextResize, modify; cbv zeta; fold l; by rewrite ztake_all by lia|]. split; [|done].
  destruct HI as [I1 I2 I3 I4 I5 I6 I7 I8]. fold l in I3, I4, I5, I6, I7, I8.
  constructor; cbn [sched timers kernel m_tickleFd m_pendingEventCount m_fdContexts idles set_contexts]; try done.
  - intros i c. destruct (decide (i < length l)%nat) as [Hi|Hi].
    + rewrite lookup_app_l by done. apply I3.
    + rewrite lookup_app_r by lia. intros ->%blanks_lookup. replace (length l + (i - length l))%nat with i by lia.
      split; [done|]. by exists false, false.
  - rewrite zlen_app. unfold zlen at 2 4. unfold blanks. rewrite length_map, length_seq. unfold zlen in *. lia.
  - rewrite registered_app. rewrite registered_blanks, Z.add_0_r. exact I5.
  - intros f. rewrite wanted_blanks. apply I6.
  - rewrite wanted_blanks. exact I7.
  - intros i reports Hr. eapply Forall_impl; [exact (I8 i reports Hr)|]. intros [ev [g|j]]; [done|].
    cbn. rewrite length_app. lia.
Qed.

(** The fiber that runs on the caller. *)
Definition caller_tls s (who : caller) : option Tls :=
  match who with OnThread i => tls <$> m_threads (sched s) !! i | Outside l _ => Some l end.
Definition running s (who : caller) : bool :=
  match caller_tls s who with
  | Some l =>
    match t_fiber l with
    | Some p => bool_decide (state_at (heap (shared (sched s))) p = Some EXEC)
    | None => false
    end
  | None => false
  end.

(** An event is registered for a descriptor that one growth of the vector
    reaches, once, from a thread with a scheduler, and without a callable only
    from a running fiber. *)
Definition add_ok s (who : caller) (f event : Z) (g : option Z) : bool :=
  bool_decide (event = READ \/ event = WRITE) && (- 2 ^ 31 <=? f) && (f <? 2 ^ 31) &&
  (0 <=? f) && (f <? zlen (m_fdContexts s) * 3 / 2) &&
  negb (match m_fdContexts s !! Z.to_nat f with Some c => has (events c) event | None => false end) &&
  match caller_scheduler who with Some _ => true | None => false end &&
  match g with Some _ => true | None => running s who end.

Lemma on_caller_pure {A} s who l (m : FM A) a :
  caller_tls s who = Some l -> m (shared (sched s), l) = Ret a (shared (sched s), l) -> on_caller who m s = Ret a s.
Proof.
  intros Hl Hm. destruct who as [i|l' sc]; cbn in *.
  - apply fmap_Some in Hl as (t & Ht & ->). apply on_sched_pure.
    apply list_elem_of_split_length in Ht as (l1 & l2 & E & ->). by apply (on_thread_pure _ l1 t l2).
  - injection Hl as ->. rewrite Hm. by destruct s as [[]].
Qed.

Lemma GetThis_some p sh l : t_fiber l = Some p -> GetThis (sh, l) = Ret p (sh, l).
Proof. intros E. unfold GetThis. step_with (eq_refl : get (sh, l) = Ret _ _). cbn [snd]. by rewrite E. Qed.

Lemma cleared_slot i c event :
  is_event event -> ctx_ok i c -> has (events c) event = false -> getContext event c = Some resetContext.
Proof.
  intros He (_ & r & w & Ee & Hr & Hw) Hh. rewrite Ee, has_evs in Hh by done.
  destruct He as [-> | ->]; cbn in *; subst; cbn in *; congruence.
Qed.

(** A context with one event more. *)
Definition registered_ctx (event : Z) (e : EventContext) (c : FdContext) : FdContext :=
  setContext event e (set_events (Z.lor (events c) event) c).

Lemma registered_ok i c event e :
  is_event event -> ctx_ok i c -> has (events c) event = false -> armed e ->
  ctx_ok i (registered_ctx event e c) /\ weight (registered_ctx event e c) = weight c + 1 /\
  events (registered_ctx event e c) = Z.lor (events c) event /\ events (registered_ctx event e c) <> NONE.
Proof.
  intros He (Hf & r & w & Ee & Hr & Hw) Hh Ha. unfold registered_ctx, ctx_ok, weight.
  assert (Hev : events (setContext event e (set_events (Z.lor (events c) event) c)) = Z.lor (events c) event)
    by (unfold setContext; by destruct (event =? READ)).
  rewrite Hev, Ee, add_evs in * by done. rewrite has_evs in Hh by done.
  destruct He as [-> | ->]; cbn in Hh; subst; cbn [Z.eqb READ WRITE setContext fd read write set_events]; split.
  - split; [done|]. by exists true, w.
  - by destruct w.
  - split; [done|]. by exists r, true.
  - by destruct r.
Qed.

Lemma add_interest s i c event k' :
  io_inv s -> m_fdContexts s !! i = Some c ->
  epoll_ctl (if events c =? NONE then CTL_ADD else CTL_MOD) (Z.of_nat i) (Z.lor (Z.lor EPOLLET (events c)) event)
    (data_ptr i) (kernel s) = (0, k') ->
  Z.of_nat i <> m_tickleFd s /\
  interest k' = <[Z.of_nat i := (Z.lor EPOLLET (Z.lor (events c) event), data_ptr i)]> (interest (kernel s)).
Proof.
  intros HI Hc. rewrite <- Z.lor_assoc. destruct (Z.eqb_spec (events c) NONE) as [He|He]; intros E.
  - apply ctl_add in E as [Hn ->]. split; [|done]. intros Ht. rewrite (ii_interest s HI) in Hn.
    by rewrite decide_True in Hn.
  - apply ctl_mod in E as [_ ->]. split; [|done]. by apply (not_tickle s i c).
Qed.

(** Behind the lookup of the context, and behind its registration. *)
Lemma addEvent_at s who i event g c :
  io_inv s -> is_event event -> in_s 32 (Z.of_nat i) -> m_fdContexts s !! i = Some c ->
  has (events c) event = false -> is_Some (caller_scheduler who) ->
  match g with Some _ => True | None => running s who = true end ->
  exists rt s', addEvent who (Z.of_nat i) event g s = Ret rt s' /\ io_inv s'.
Proof.
  intros HI He Hf Hc Hh [sc Hsc] Hg. pose proof (lookup_lt_Some _ _ _ Hc) as Hlt.
  assert (Eu : u64 (Z.of_nat i) = Z.of_nat i) by (apply wrap_small; unfold in_s, in_u in *; lia).
  unfold addEvent. rewrite (bind_Ret get _ s s s eq_refl). rewrite Eu.
  assert ((zlen (m_fdContexts s) <=? Z.of_nat i) = false) as El by (apply Z.leb_gt; unfold zlen; lia).
  rewrite El. step_with (eq_refl : when false (contextResize (zlen (m_fdContexts s) * 3 / 2)) s = Ret tt s).
  rewrite (bind_Ret get _ s s s eq_refl), El, Nat2Z.id. cbv zeta. step_with (context_at_run s i c Hc).
  step_with (assert_run (negb (has (events c) event)) "!(fd_ctx->events & event)" s ltac:(by rewrite Hh)).
  pose proof (ii_ctx s HI i c Hc) as Hok.
  destruct (ctl_run (if events c =? NONE then CTL_ADD else CTL_MOD) (Z.of_nat i)
    (Z.lor (Z.lor EPOLLET (events c)) event) (data_ptr i) s) as (rt & k' & Ek & Ec).
  step_with Ec. destruct (Z.eqb_spec rt 0) as [-> |Hrt]; cbn [negb].
  2: { exists (-1). eexists. split; [done|]. apply io_inv_kernel; [|done]. by apply (ctl_fails _ _ _ _ _ _ _ Ek). }
  destruct (add_interest s i c event k' HI Hc Ek) as [Hnt Hk].
  set (c1 := set_events (Z.lor (events c) event) c). set (s1 := add_pending 1 (set_kernel k' s)).
  step_with (eq_refl : modify (add_pending 1) (set_kernel k' s) = Ret tt s1).
  set (s2 := set_contexts (<[i := c1]> (m_fdContexts s)) s1).
  step_with (eq_refl : store_context i c1 s1 = Ret tt s2).
  step_with (context_for_run event c1 _ s2 (eq_trans (getContext_set event _ c) (cleared_slot i c event He Hok Hh))).
  step_with (eq_refl : assert true "!event_ctx.scheduler && !event_ctx.fiber && !event_ctx.cb" s2 = Ret tt s2).
  cbn [fiber cb resetContext].
  assert (Hend : forall e, armed e -> io_inv (set_contexts (<[i := registered_ctx event e c]> (<[i := c1]> (m_fdContexts s))) s1)).
  { intros e Ha. destruct (registered_ok i c event e He Hok Hh Ha) as (Hok' & Hw & Hev & Hne).
    eapply (io_inv_context s _ i c (registered_ctx event e c)); try done.
    - cbn. apply list_insert_insert_eq.
    - apply HI.
    - cbn. rewrite Hw. do 2 f_equal. lia.
    - cbn. rewrite Hk, Hev. rewrite Hev in Hne. by destruct (Z.eqb_spec (Z.lor (events c) event) NONE). }
  rewrite Hsc. destruct g as [g|].
  - step_with (eq_refl : store_context i (setContext event (mkEC (Some sc) None (Some g)) c1) s2 = Ret tt
      (set_contexts (<[i := registered_ctx event (mkEC (Some sc) None (Some g)) c]> (<[i := c1]> (m_fdContexts s))) s1)).
    exists 0. eexists. split; [done|]. apply Hend. by split.
  - unfold running in Hg. destruct (caller_tls s who) as [l|] eqn:Hl; [|done].
    destruct (t_fiber l) as [p|] eqn:Hp; [|done]. apply bool_decide_eq_true in Hg.
    unfold state_at in Hg. destruct (heap (shared (sched s)) !! p) as [gf|] eqn:Hgf; [|done]. cbn in Hg.
    step_with (on_caller_pure s2 who l GetThis p Hl (GetThis_some p _ l Hp)).
    set (s3 := set_contexts (<[i := registered_ctx event (mkEC (Some sc) (Some p) None) c]> (<[i := c1]> (m_fdContexts s))) s1).
    step_with (eq_refl : store_context i (setContext event (mkEC (Some sc) (Some p) None) c1) s2 = Ret tt s3).
    step_with (on_caller_pure s3 who l (fiber_at p) gf Hl (fiber_at_run p gf _ l Hgf)).
    assert (bool_decide (m_state gf = EXEC) = true) as Hx by (apply bool_decide_eq_true; congruence).
    step_with (assert_run _ "event_ctx.fiber->getState() == Fiber::EXEC" s3 Hx).
    exists 0, s3. split; [done|]. apply Hend. by split.
Qed.

Lemma addEvent_grown s s1 who f event g :
  (zlen (m_fdContexts s) <=? u64 f) = true -> (zlen (m_fdContexts s1) <=? u64 f) = false ->
  contextResize (zlen (m_fdContexts s) * 3 / 2) s = Ret tt s1 ->
  addEvent who f event g s = addEvent who f event g s1.
Proof.
  intros E0 E1 E. unfold addEvent. rewrite (bind_Ret get _ s s s eq_refl), (bind_Ret get _ s1 s1 s1 eq_refl).
  rewrite E0, E1. step_with (E : when true (contextResize (zlen (m_fdContexts s) * 3 / 2)) s = Ret tt s1).
  by step_with (eq_refl : when false (contextResize (zlen (m_fdContexts s1) * 3 / 2)) s1 = Ret tt s1).
Qed.

Lemma addEvent_ok s who f event g :
  io_inv s -> add_ok s who f event g = true -> exists rt s', addEvent who f event g s = Ret rt s' /\ io_inv s'.
Proof.
  intros HI Ha. unfold add_ok in Ha. rewrite !andb_true_iff in Ha.
  destruct Ha as [[[[[[[He Hf1] Hf2] Hf3] Hf4] Hh] Hsc] Hg].
  apply bool_decide_eq_true in He. apply negb_true_iff in Hh. pose proof (ii_len s HI) as Hl.
  assert (Hf : f = Z.of_nat (Z.to_nat f)) by lia. assert (Hin : in_s 32 f) by (unfold in_s; lia).
  assert (Hs : is_Some (caller_scheduler who)) by (by destruct (caller_scheduler who)).
  assert (Eu : u64 f = f) by (apply wrap_small; unfold in_u; lia).
  destruct (Z.leb_spec (zlen (m_fdContexts s)) f) as [Hge|Hlt].
  - destruct (resize_ok s (zlen (m_fdContexts s) * 3 / 2) HI) as (s1 & E & HI1 & Hsch & _ & _ & Hc1);
      [Z.to_euclidean_division_equations; lia|].
    assert (Hlen : zlen (m_fdContexts s1) = zlen (m_fdContexts s) * 3 / 2).
    { rewrite Hc1, zlen_app. unfold zlen at 2, blanks. rewrite length_map, length_seq. unfold zlen in *. lia. }
    rewrite (addEvent_grown s s1) by (first [done|rewrite ?Hlen, Eu; lia]).
    rewrite Hf. apply (addEvent_at s1 who _ event g (FdContext_new f)); try done.
    + by rewrite <- Hf.
    + rewrite Hc1, lookup_app_r by (unfold zlen in Hge; lia). unfold blanks. rewrite list_lookup_fmap.
      rewrite lookup_seq_lt by (unfold zlen in *; lia). cbn [fmap option_fmap option_map].
      do 2 f_equal. unfold zlen in Hge. lia.
    + destruct g; [done|]. by rewrite <- Hg; unfold running, caller_tls; rewrite Hsch.
  - destruct (lookup_lt_is_Some_2 (m_fdContexts s) (Z.to_nat f)) as [c Hc]; [unfold zlen in Hlt; lia|].
    rewrite Hc in Hh. rewrite Hf. apply (addEvent_at s who _ event g c); try done; [by rewrite <- Hf|by destruct g].
Qed.

(** ** The idle fiber *)

Lemma in_idle_thread s i :
  in_idle i s = true -> exists l1 t l2, m_threads (sched s) = l1 ++ t :: l2 /\ i = length l1 /\ pc t = PIdle.
Proof.
  unfold in_idle. destruct (m_threads (sched s) !! i) as [t|] eqn:Ht; [|done].
  destruct (pc t) eqn:Hpc; try done. intros _. apply list_elem_of_split_length in Ht as (l1 & l2 & E & ->).
  by exists l1, t, l2.
Qed.

(** The idle fiber ends, or leaves as it is. *)
Lemma idle_exit_ok (sc : Scheduler) l1 t l2 :
  Inv sc -> m_threads sc = l1 ++ t :: l2 -> pc t = PIdle ->
  exists d, on_thread (length l1) GetThis sc = Ret d sc /\
    ok (length l1) (on_thread (length l1) (swapOut d);; goto (length l1) PIdleBack) sc /\
    (m_autoStop sc = true ->
     ok (length l1) (on_thread (length l1) (MainFunc_end d true);; goto (length l1) PIdleBack) sc).
Proof.
  intros HI E Hpc. pose proof (inv_here sc l1 t l2 HI E) as HT. unfold thr_ok in HT. rewrite Hpc in HT.
  destruct HT as (Hs & d & Hd & Hin). destruct (in_task_at _ _ _ _ _ Hin) as (Ht & g & Hg & _).
  exists d. split; [|split].
  - apply (on_thread_pure sc l1 t l2 _ d E). by apply GetThis_some.
  - apply (idle_left sc l1 t l2 HI E (swapOut d) d EXEC false Hpc Hs Hd Hin); [left; split; [by right|done]|].
    intros g' Hg'. exists g'. rewrite (insert_id (heap (shared sc))) by done. repeat split.
    + destruct Hin as (m & g2 & _ & _ & _ & _ & _ & Hg2 & _ & _ & Hx). rewrite Hg' in Hg2. injection Hg2 as <-.
      by apply bool_decide_eq_true in Hx.
    + unfold swapOut. f_equal. by destruct (shared sc).
  - intros Hau. apply (idle_left sc l1 t l2 HI E _ d TERM true Hpc Hs Hd Hin); [by right|].
    intros g'. apply term_run.
Qed.

Lemma inv_untickle sc : Inv (add_tickle sc) -> Inv sc.
Proof. intros [I1 I2 I3 I4 I5 I6 I7 I8 I9 I10]. exact (mkInv sc I1 I2 I3 I4 I5 I6 I7 I8 I9 I10). Qed.

Lemma schedule_loop_ok fts need sc :
  Inv sc -> Forall (fun ft => ft_fiber ft = None) fts ->
  exists b sc', schedule_loop fts need sc = Ret b sc' /\ Inv sc'.
Proof.
  revert need sc. induction fts as [|ft fts IH]; intros need sc HI Hf; [by exists need, sc|].
  apply Forall_cons in Hf as [Hf1 Hf]. cbn [schedule_loop].
  assert (exists b sc1, scheduleNoLock ft sc = Ret b sc1 /\ Inv sc1) as (b & sc1 & E & HI1).
  { destruct (schedule_ok 0 sc ft HI) as (sc' & E & HI' & _); [unfold allowed_ft; by rewrite Hf1|].
    unfold schedule, mbind at 1, M_bind in E. destruct (scheduleNoLock ft sc) as [b sc1| |]; [|done|done].
    exists b, sc1. split; [done|]. destruct b; cbn in E; injection E as <-; [by apply inv_untickle|done]. }
  step_with E. by apply IH.
Qed.

Lemma schedule_range_ok s fts :
  io_inv s -> Forall (fun ft => ft_fiber ft = None) fts ->
  exists s', on_sched (schedule_range fts) s = Ret tt s' /\ io_inv s' /\ io_same s s'.
Proof.
  intros HI Hf. destruct (schedule_loop_ok fts false (sched s) (ii_sched s HI) Hf) as (b & sc1 & E & HI1).
  destruct (on_sched_run (schedule_range fts) s tt (if b then add_tickle sc1 else sc1)) as (s' & E' & S & C & _).
  { unfold schedule_range. step_with E. by destruct b. }
  exists s'. split; [done|]. split; [|done]. apply (io_inv_same s); [done| |done].
  rewrite C. destruct b; [by apply inv_tickle|done].
Qed.

Lemma getNext_ok s now :
  io_inv s -> exists v s', on_timers (getNextTimer now) s = Ret v s' /\ io_inv s' /\
    io_same (set_timers (set_tickled false (timers s)) s) s' /\
    m_threads (sched s') = m_threads (sched s) /\ m_rootFiber (sched s') = m_rootFiber (sched s).
Proof.
  intros HI. pose proof (getNextTimer_run now (timers s) (ii_timers s HI)) as E.
  destruct (run_op_wf (timers s) (OpNext now) (ii_timers s HI) I) as (tm & E' & W).
  cbn [run_op] in E'. rewrite (bind_Ret _ _ _ _ _ E) in E'. injection E' as <-.
  destruct (on_timers_run _ s _ _ HI E W) as (s' & E' & HI' & S). by eexists _, s'.
Qed.

Lemma idle_pc_ok s i p :
  io_inv s ->
  (forall reports, p = Some (ITimers reports) \/ p = Some (IEvents reports) ->
    Forall (fun e => match e.2 with
      | data_fd f => f = m_tickleFd s
      | data_ptr i => (i < length (m_fdContexts s))%nat
      end) reports) ->
  exists s', set_idle_pc i p s = Ret tt s' /\ io_inv s' /\ sched s' = sched s.
Proof.
  intros [] Hp. eexists. split; [reflexivity|]. split; [|done]. constructor; try done.
  intros j reports. cbn. destruct (decide (j = i)) as [-> |Hj].
  - rewrite lookup_partial_alter_eq. apply Hp.
  - rewrite lookup_partial_alter_ne by done. apply ii_reports0.
Qed.

(** ** Every step *)

(** What epoll_wait reports: the data it was given, with some of the events it
    waits for, or an error. *)
Definition reported (k : K) (e : Z * epoll_data) : Prop :=
  exists f ev, interest k !! f = Some (ev, e.2) /\
    Z.land e.1 (Z.lnot (Z.lor ev (Z.lor EPOLLERR EPOLLHUP))) = 0.

(** How the interleavings may go: the scheduler's discipline ([allowed]) for its
    own steps and for every fiber an event or its cancellation schedules, events
    used as [add_ok] says, live timers and fresh addresses, and reports from the
    kernel. *)
Definition io_allowed s (a : io_action) : Prop :=
  match a with
  | Sched (Stop _ _) => True
  | Sched a => allowed (sched s) a = true
  | IStop on_this _ => allowed (sched s) (Stop on_this true) = true
  | AddEvent who f event g => add_ok s who f event g = true
  | DelEvent f event => in_s 32 f /\ is_event event
  | CancelEvent f event =>
    in_s 32 f /\ is_event event /\ allowed_tasks (sched s) (tasks_at s f (fun _ => event)) = true
  | CancelAll f => in_s 32 f /\ allowed_tasks (sched s) (tasks_at s f events) = true
  | Timers o => op_ok (timers s) o /\ match o with OpNext _ | OpExpired _ _ => False | _ => True end
  | IdleCheck _ _ => True
  | IdleWait _ reports => Forall (reported (kernel s)) reports
  | IdleTimers _ p _ => p <> 0 /\ p ∉ m_timers (timers s)
  | IdleEvent i =>
    match idles s !! i with
    | Some (IEvents ((report, d) :: _)) => allowed_tasks (sched s) (report_tasks s report d) = true
    | _ => True
    end
  end.

(** The next report of an idle fiber was overtaken in part. *)
Definition overtaken_at s (i : nat) : Prop :=
  in_idle i s = true /\ exists report j reports c,
    idles s !! i = Some (IEvents ((report, data_ptr j) :: reports)) /\ m_fdContexts s !! j = Some c /\ in_part report c.
(** A step that fails on it. *)
Definition fails_overtaken s (a : io_action) : Prop :=
  exists i, a = IdleEvent i /\ overtaken_at s i /\
    io_step stack_size cb_name a s = Crash (AssertFail "events & event").

Lemma reported_ok s e : io_inv s -> reported (kernel s) e -> data_ok s e.2.
Proof.
  intros HI (f & ev & E & _). unfold data_ok. rewrite (ii_interest s HI) in E. case_decide as Hf.
  - subst f. injection E as _ <-. done.
  - unfold wanted in E. destruct (f <? 0); [done|].
    destruct (m_fdContexts s !! Z.to_nat f) as [c|] eqn:Hc; [|done]. destruct (events c =? NONE); [done|].
    injection E as _ <-. by eapply lookup_lt_Some.
Qed.

Lemma nop_ok s : io_inv s -> exists s', (mret tt : IOM unit) s = Ret tt s' /\ io_inv s'.
Proof. intros HI. by exists s. Qed.

Lemma sched_ok s a :
  io_inv s -> allowed (sched s) a = true -> exists s', on_sched (step stack_size a) s = Ret tt s' /\ io_inv s'.
Proof.
  intros HI Ha. destruct (on_sched_ok (actor a) (step stack_size a) s HI) as (s' & E & HI' & _).
  - apply step_ok; [apply HI|done].
  - by exists s'.
Qed.

Lemma idle_check_ok s i now :
  io_inv s -> in_idle i s = true -> exists s', idle_check i now s = Ret tt s' /\ io_inv s'.
Proof.
  intros HI Hi. unfold idle_check, stopping_at.
  destruct (getNext_ok s now HI) as (timeout & s1 & E1 & HI1 & S1 & T1 & _).
  set (stop := (timeout =? no_timer) && (m_pendingEventCount s1 =? 0) && stopping true (sched s1)).
  assert (Es : (timeout ← on_timers (getNextTimer now); s ← get;
     mret ((timeout =? no_timer) && (m_pendingEventCount s =? 0) && stopping true (sched s), timeout) : IOM _) s =
     Ret (stop, timeout) s1) by by step_with E1.
  step_with Es. destruct (in_idle_thread s i Hi) as (l1 & t & l2 & E & -> & Hpc). rewrite <- T1 in E.
  destruct stop eqn:Hstop.
  - apply andb_prop in Hstop as [_ Hstop]. destruct (stopping_true _ _ Hstop) as (Hau & _).
    destruct (idle_exit_ok (sched s1) l1 t l2 (ii_sched s1 HI1) E Hpc) as (d & Ed & _ & Hend).
    step_with (on_sched_pure (on_thread (length l1) GetThis) s1 d Ed).
    destruct (on_sched_ok (length l1) _ s1 HI1 (Hend Hau)) as (s2 & E2 & HI2 & _). by exists s2.
  - destruct (idle_pc_ok s1 (length l1) (Some (IWait timeout)) HI1) as (s2 & E2 & HI2 & _); [by intros reports [|]|].
    by exists s2.
Qed.

Lemma idle_leave_ok s i :
  io_inv s -> in_idle i s = true -> exists s', idle_leave i s = Ret tt s' /\ io_inv s'.
Proof.
  intros HI Hi. unfold idle_leave.
  destruct (idle_pc_ok s i None HI) as (s1 & E1 & HI1 & C1); [by intros reports [|]|]. step_with E1.
  destruct (in_idle_thread s i Hi) as (l1 & t & l2 & E & -> & Hpc). rewrite <- C1 in E.
  destruct (idle_exit_ok (sched s1) l1 t l2 (ii_sched s1 HI1) E Hpc) as (d & Ed & Hleave & _).
  step_with (on_sched_pure (on_thread (length l1) GetThis) s1 d Ed).
  destruct (on_sched_ok (length l1) _ s1 HI1 Hleave) as (s2 & E2 & HI2 & _). by exists s2.
Qed.

Lemma idle_timers_ok s i reports p now :
  io_inv s -> idles s !! i = Some (ITimers reports) -> p <> 0 -> p ∉ m_timers (timers s) ->
  exists s', idle_timers cb_name i reports p now s = Ret tt s' /\ io_inv s'.
Proof.
  intros HI Hi Hp Hn. unfold idle_timers.
  destruct (listExpiredCb_spec (timers s) p now (ii_timers s HI) Hp Hn) as (tm & E & W & _).
  destruct (on_timers_run _ s _ _ HI E W) as (s1 & E1 & HI1 & (S1 & S2 & S3 & S4 & S5 & S6) & _). step_with E1.
  set (cbs := map (cb_at (m_heap (timers s))) (TimerThms.taken now (timers s))). clearbody cbs.
  assert (exists s2, when (match cbs with [] => false | _ => true end)
    (on_sched (schedule_range (map (fun f => mkFT None (cb_name <$> f) (-1)) cbs))) s1 = Ret tt s2 /\
    io_inv s2 /\ io_same s1 s2) as (s2 & E2 & HI2 & (Q1 & Q2 & Q3 & Q4 & Q5 & Q6)).
  { destruct cbs as [|c0 cbs]; [by exists s1|]. apply schedule_range_ok; [done|]. apply Forall_map, Forall_true. done. }
  step_with E2. destruct (idle_pc_ok s2 i (Some (IEvents reports)) HI2) as (s3 & E3 & HI3 & _).
  { intros r [|[= <-]]; [done|]. rewrite Q3, Q5, S3, S5. apply (ii_reports s HI i). by left. }
  by exists s3.
Qed.

Lemma idle_event_ok s i report d reports :
  io_inv s -> idles s !! i = Some (IEvents ((report, d) :: reports)) ->
  allowed_tasks (sched s) (report_tasks s report d) = true ->
  (exists s', (handle report d;; set_idle_pc i (Some (IEvents reports))) s = Ret tt s' /\ io_inv s') \/
  (exists j c, d = data_ptr j /\ m_fdContexts s !! j = Some c /\ in_part report c /\
    (handle report d;; set_idle_pc i (Some (IEvents reports))) s = Crash (AssertFail "events & event")).
Proof.
  intros HI Hi Ha. pose proof (ii_reports s HI i _ (or_intror Hi)) as F. apply Forall_cons in F as [Hd F].
  destruct (handle_ok s report d HI Hd Ha) as [(s1 & E1 & HI1 & (L1 & T1 & _))|(j & c & Hj & Hc & Hp & E)].
  - left. step_with E1. destruct (idle_pc_ok s1 i (Some (IEvents reports)) HI1) as (s2 & E2 & HI2 & _); [|by exists s2].
    intros r [|[= <-]]; [done|]. by rewrite L1, T1.
  - right. exists j, c. split_and!; try done. by apply bind_Crash.
Qed.

Lemma io_stop_ok s on_this now :
  io_inv s -> allowed (sched s) (Stop on_this true) = true -> exists s', io_stop on_this now s = Ret tt s' /\ io_inv s'.
Proof.
  intros HI Ha. unfold io_stop. rewrite (bind_Ret get _ s s s eq_refl). destruct (stop_asks (sched s)).
  - destruct (getNext_ok s now HI) as (timeout & s1 & E1 & HI1 & S1 & T1 & R1).
    step_with E1. rewrite (bind_Ret get _ s1 s1 s1 eq_refl).
    destruct (on_sched_ok 0 (stop on_this ((timeout =? no_timer) && (m_pendingEventCount s1 =? 0))) s1 HI1) as (s2 & E2 & HI2 & _).
    { apply stop_ok; [apply HI1|]. cbn. by rewrite R1. }
    by exists s2.
  - destruct (on_sched_ok 0 (stop on_this false) s HI) as (s2 & E2 & HI2 & _).
    { by apply stop_ok; [apply HI|]. }
    by exists s2.
Qed.

Lemma io_other_ok s a :
  io_inv s -> io_allowed s a -> match a with IdleEvent _ => False | _ => True end ->
  exists s', io_step stack_size cb_name a s = Ret tt s' /\ io_inv s'.
Proof.
  intros HI Ha Hno. unfold io_step. rewrite (bind_Ret get _ s s s eq_refl).
  destruct a as [a|on_this now|who f event g|f event|f event|f|o|i now|i reports|i p now|i]; cbn in Ha.
  - destruct a as [i extra|i b|ft|g|ids|on_this extra].
    + destruct (in_idle i s); [by apply nop_ok|]. by apply (sched_ok s (Advance i extra)).
    + destruct (in_idle i s); [by apply nop_ok|]. by apply (sched_ok s (Body i b)).
    + by apply (sched_ok s (Schedule ft)).
    + by apply (sched_ok s (New g)).
    + by apply (sched_ok s (Start ids)).
    + by apply nop_ok.
  - by apply io_stop_ok.
  - destruct (addEvent_ok s who f event g HI Ha) as (rt & s' & E & HI'). exists s'. by step_with E.
  - destruct (delEvent_ok s f event HI) as (b & s' & E & HI'); [tauto..|]. exists s'. by step_with E.
  - destruct (cancelEvent_ok s f event HI) as (b & s' & E & HI'); [tauto..|]. exists s'. by step_with E.
  - destruct (cancelAll_ok s f HI) as (b & s' & E & HI'); [tauto..|]. exists s'. by step_with E.
  - destruct (run_op_wf (timers s) o (ii_timers s HI) (proj1 Ha)) as (tm & E & W).
    destruct (on_timers_run _ s _ _ HI E W) as (s' & E' & HI' & _). by exists s'.
  - destruct (in_idle i s) eqn:Hi; [|by apply nop_ok]. destruct (idles s !! i); [by apply nop_ok|]. by apply idle_check_ok.
  - destruct (in_idle i s); [|by apply nop_ok]. destruct (idles s !! i) as [[]|]; try by apply nop_ok.
    destruct (idle_pc_ok s i (Some (ITimers reports)) HI) as (s' & E & HI' & _); [|by exists s'].
    intros r [[= <-]|]; [|done]. eapply Forall_impl; [exact Ha|]. intros e. by apply reported_ok.
  - destruct (in_idle i s); [|by apply nop_ok]. destruct (idles s !! i) as [[]|] eqn:Hi; try by apply nop_ok.
    destruct Ha. by apply idle_timers_ok.
  - done.
Qed.

Lemma io_step_ok s a :
  io_inv s -> io_allowed s a ->
  (exists s', io_step stack_size cb_name a s = Ret tt s' /\ io_inv s') \/ fails_overtaken s a.
Proof.
  intros HI Ha. destruct a; try (left; by apply io_other_ok). cbn in Ha.
  unfold fails_overtaken, overtaken_at, io_step. rewrite (bind_Ret get _ s s s eq_refl).
  destruct (in_idle i s) eqn:Hidle; [|left; by apply nop_ok].
  destruct (idles s !! i) as [[| |[|[report d] reports]]|] eqn:Hi; try (left; by apply nop_ok).
  - left. by apply idle_leave_ok.
  - destruct (idle_event_ok s i report d reports HI Hi Ha) as [?|(j & c & -> & Hc & Hp & E)]; [by left|right].
    exists i. split_and!; try done. by exists report, j, reports, c.
Qed.

(** Runs whose every step is allowed in the state it is taken in. *)
Fixpoint io_disciplined s (acts : list io_action) : Prop :=
  match acts with
  | [] => True
  | a :: acts =>
    io_allowed s a /\
    match io_step stack_size cb_name a s with Ret _ s' => io_disciplined s' acts | _ => True end
  end.

(** A run stops only at a report that was overtaken in part. *)
Lemma io_steps_ok acts s :
  io_inv s -> io_disciplined s acts ->
  exists acts1 rest s', acts = acts1 ++ rest /\ io_steps stack_size cb_name acts1 s = Ret tt s' /\ io_inv s' /\
    match rest with [] => True | a :: _ => fails_overtaken s' a end.
Proof.
  revert s. induction acts as [|a acts IH]; intros s HI Hd; [by exists [], [], s|].
  destruct Hd as [Ha Hd]. destruct (io_step_ok s a HI Ha) as [(s1 & E & HI1)|Hf]; [|by exists [], (a :: acts), s].
  rewrite E in Hd. destruct (IH s1 HI1 Hd) as (acts1 & rest & s2 & -> & E2 & HI2 & Hr).
  exists (a :: acts1), rest, s2. split_and!; try done. cbn [io_steps]. by step_with E.
Qed.

Lemma io_steps_app acts1 acts2 s s' :
  io_steps stack_size cb_name acts1 s = Ret tt s' ->
  io_steps stack_size cb_name (acts1 ++ acts2) s = io_steps stack_size cb_name acts2 s'.
Proof.
  revert s. induction acts1 as [|a acts1 IH]; intros s E; [by injection E as <-|]. cbn [io_steps app] in *.
  unfold mbind, M_bind in *. destruct (io_step stack_size cb_name a s) as [? s1| |]; [by apply IH|done..].
Qed.

Lemma io_reached_inv acts s s' :
  io_inv s -> io_disciplined s acts -> io_steps stack_size cb_name acts s = Ret tt s' -> io_inv s'.
Proof.
  intros HI Hd E. destruct (io_steps_ok acts s HI Hd) as (acts1 & rest & s1 & -> & E1 & HI1 & Hr).
  rewrite (io_steps_app _ _ _ _ E1) in E. destruct rest as [|a rest]; [by injection E as <-|].
  destruct Hr as (i & _ & _ & Ec). cbn [io_steps] in E. by rewrite (bind_Crash _ _ _ _ Ec) in E.
Qed.
End io.
