(* ===== verification/IOThms.v ===== *)
(** Theorems on the IOManager: every interleaving keeps its events, its counter
    and the kernel's interest in step; what a report and [stopping] do exactly;
    and the calls that break it. *)
From S2P Require Import Prelude.
From stdpp Require Import sorting.
From S2P Require Import Timer TimerThms Fiber Scheduler SchedulerInv SchedulerSafe SchedulerThms IOManager IOSafe.
Open Scope Z_scope.

(** ** An epoll descriptor *)

(** A kernel that keeps the interest set, as epoll_ctl(2) describes it. *)
Definition Epoll : Type := gmap Z (Z * epoll_data).

#[export] Instance epoll_kernel : Kernel Epoll := {|
  epoll_ctl := fun op f ev d k =>
    match op, (k : gmap Z (Z * epoll_data)) !! f with
    | CTL_ADD, None | CTL_MOD, Some _ => (0, <[f := (ev, d)]> k)
    | CTL_DEL, Some _ => (0, delete f k)
    | _, _ => (-1, k)
    end;
  write_pipe := fun k => (1, k);
  drain_pipe := fun k => k
|}.
#[export] Instance epoll_interest : Interest Epoll := fun k => k.
#[export] Instance epoll_laws : KernelLaws Epoll.
Proof.
  constructor.
  - intros op f ev d k rt k' E Hrt. cbn in E. unfold interest, epoll_interest.
    destruct op; destruct ((k : gmap Z (Z * epoll_data)) !! f); by injection E as <- <-.
  - intros f ev d k k' E. cbn in E. unfold interest, epoll_interest.
    destruct ((k : gmap Z (Z * epoll_data)) !! f); [done|]. by injection E as <-.
  - intros f ev d k k' E. cbn in E. unfold interest, epoll_interest.
    destruct ((k : gmap Z (Z * epoll_data)) !! f); [|done]. by injection E as <-.
  - intros f ev d k k' E. cbn in E. unfold interest, epoll_interest.
    destruct ((k : gmap Z (Z * epoll_data)) !! f); [|done]. by injection E as <-.
  - done.
  - done.
Qed.

(** ** Construction *)

Section thms.
Context {K : Type} `{KernelLaws K}.
Context (ss : Z) (cb_name : callback -> Z).

Lemma initial_inv (sc : Scheduler) (tm : TimerManager) (k : K) tickle_fd :
  Inv sc -> tm_wf tm -> interest k = {[tickle_fd := (Z.lor EPOLLIN EPOLLET, data_fd tickle_fd)]} ->
  io_inv (mkIO sc tm k tickle_fd 0 (blanks 0 32) [] ∅).
Proof.
  intros HI W Hk.
  assert (Hw : forall f, wanted (blanks 0 32) f = None).
  { intros f. pose proof (wanted_blanks [] 32 f) as Hw. cbn [app length] in Hw. rewrite Hw. unfold wanted.
    by destruct (f <? 0). }
  constructor; cbn [sched timers kernel m_tickleFd m_pendingEventCount m_fdContexts idles]; try done.
  - intros i c ->%blanks_lookup. split; [done|]. by exists false, false.
  - intros f. rewrite Hk, Hw. case_decide as Hf; [subst f; by rewrite lookup_singleton_eq|].
    by rewrite lookup_singleton_ne by done.
  - intros i reports [Hi|Hi]; by rewrite lookup_empty in Hi.
Qed.

Lemma iomanager_new_ok sh l threads use_caller id now (k : K) epfd tickle_fd ids :
  heap_ok sh -> caller_ok sh l -> 0 < threads -> id <> -1 -> 0 < epfd -> interest k = ∅ ->
  (epoll_ctl CTL_ADD tickle_fd (Z.lor EPOLLIN EPOLLET) (data_fd tickle_fd) k).1 = 0 ->
  Forall (fun i => i <> id /\ i <> -1) ids ->
  exists s0, IOManager_new ss threads use_caller id false l sh now k epfd 0 tickle_fd 0 ids = Ret tt s0 /\ io_inv s0.
Proof.
  intros Hh Hl Ht Hid He Hk Hadd Hids. unfold IOManager_new.
  destruct (scheduler_new_ok ss threads use_caller id sh l Hh Hl Ht Hid) as (sc & sl & Es & HI & _ & _ & _ & _ & _ & _ & Hroot & Hempty).
  rewrite Es. set (s := mkIO sc (TimerManager_new now) k tickle_fd 0 [] [] ∅).
  step_with (assert_run (0 <? epfd) "m_epfd > 0" s (proj2 (Z.ltb_lt _ _) He)).
  step_with (eq_refl : assert (0 =? 0) "!rt" s = Ret tt s). step_with (eq_refl : assert (0 =? 0) "!rt" s = Ret tt s).
  destruct (ctl_run CTL_ADD tickle_fd (Z.lor EPOLLIN EPOLLET) (data_fd tickle_fd) s) as (rt & k' & Ek & Ec).
  cbn [kernel s] in Ek. rewrite Ek in Hadd. cbn in Hadd. subst rt. step_with Ec.
  step_with (eq_refl : assert (0 =? 0) "!rt" (set_kernel k' s) = Ret tt (set_kernel k' s)).
  apply ctl_add in Ek as [_ Ek].
  set (s1 := mkIO sc (TimerManager_new now) k' tickle_fd 0 (blanks 0 32) [] ∅).
  assert (Er : contextResize 32 (set_kernel k' s) = Ret tt s1) by reflexivity. step_with Er.
  assert (HI1 : io_inv s1).
  { apply initial_inv; [done|apply tm_wf_new|]. by rewrite Ek, Hk. }
  destruct (on_sched_ok 0 (start ids) s1 HI1) as (s2 & E2 & HI2 & _); [|by exists s2].
  apply start_ok; [done|]. cbn. apply andb_true_intro. split.
  - apply forallb_forall. intros i Hi. rewrite Forall_forall in Hids. destruct (Hids i (proj2 (list_elem_of_In _ _) Hi)) as [Hi1 Hi2].
    destruct Hroot as [-> | ->]; lia.
  - by rewrite Hempty, orb_true_r.
Qed.


(** ** Exactly what a report and [stopping] do *)

Lemma has_lor a b e : has (Z.lor a b) e = has a e || has b e.
Proof.
  unfold has. rewrite Z.land_lor_distr_l.
  destruct (Z.eqb_spec (Z.land a e) 0) as [-> |Ha]; [by rewrite Z.lor_0_l|].
  destruct (Z.eqb_spec (Z.lor (Z.land a e) (Z.land b e)) 0) as [[Hx _]%Z.lor_eq_0_iff|]; done.
Qed.
Lemma has_lor_r a b e : has a (Z.lor b e) = has a b || has a e.
Proof. unfold has. rewrite !(Z.land_comm a). apply has_lor. Qed.

(** What the loop fires: what is reported, or with an error all that is registered. *)
Definition fires (report : Z) (c : FdContext) (event : Z) : bool :=
  has report event || ((has report EPOLLERR || has report EPOLLHUP) && has (events c) event).

Lemma real_spec report i c event :
  ctx_ok i c -> is_event event -> has (real_events report (events c)) event = fires report c event.
Proof.
  intros (_ & r & w & Ee & _) He. unfold real_events, fires. rewrite has_lor_r.
  generalize (has report EPOLLERR || has report EPOLLHUP). intros err.
  set (m := if err then _ else _). change EPOLLIN with READ. change EPOLLOUT with WRITE.
  assert (Hr : forall e, e = READ \/ e = WRITE -> has m e = has report e || err && has (events c) e).
  { intros e Hx. unfold m. destruct err; [|by rewrite orb_false_r]. rewrite has_lor, Ee. f_equal.
    by destruct Hx as [-> | ->]; destruct r, w. }
  rewrite (Hr READ), (Hr WRITE) by tauto. clear m Hr. rewrite Ee.
  destruct He as [-> | ->]; destruct (has report READ), (has report WRITE), err, r, w; vm_compute; done.
Qed.

Lemma nothing_iff report i c :
  ctx_ok i c -> Z.land (events c) (real_events report (events c)) = NONE <->
    forall event, is_event event -> fires report c event = true -> has (events c) event = false.
Proof.
  intros Hok. pose proof Hok as (_ & r & w & Ee & _).
  transitivity (forall event, is_event event -> has (real_events report (events c)) event = true -> has (events c) event = false).
  2: { split; intros Hx event He Hf; apply Hx; try done; [by rewrite (real_spec report i c)|by rewrite <- (real_spec report i c)]. }
  destruct (real_evs report (events c)) as (r' & w' & ->). rewrite Ee. split.
  - intros Hn event [-> | ->]; revert Hn; destruct r, w, r', w'; vm_compute; done.
  - intros Hx. pose proof (Hx READ (or_introl eq_refl)) as Hr. pose proof (Hx WRITE (or_intror eq_refl)) as Hw.
    revert Hr Hw. destruct r, w, r', w'; vm_compute; intros Hr Hw; try done; first [by specialize (Hr eq_refl)|by specialize (Hw eq_refl)].
Qed.

Lemma has_left i c report event :
  ctx_ok i c -> is_event event ->
  has (Z.land (events c) (Z.lnot (real_events report (events c)))) event =
    has (events c) event && negb (has (real_events report (events c)) event).
Proof.
  intros (_ & r & w & Ee & _) He. destruct (real_evs report (events c)) as (r' & w' & ->). rewrite Ee.
  by destruct He as [-> | ->]; destruct r, w, r', w'.
Qed.

Lemma all_registered report i c :
  ctx_ok i c ->
  (forall event, is_event event -> has (real_events report (events c)) event = true -> has (events c) event = true) ->
  Z.land (events c) (real_events report (events c)) = real_events report (events c).
Proof.
  intros (_ & r & w & Ee & _). destruct (real_evs report (events c)) as (r' & w' & ->). rewrite Ee. intros Hx.
  pose proof (Hx READ (or_introl eq_refl)) as Hr. pose proof (Hx WRITE (or_intror eq_refl)) as Hw.
  revert Hr Hw. destruct r, w, r', w'; vm_compute; intros Hr Hw; try done; first [by specialize (Hr eq_refl)|by specialize (Hw eq_refl)].
Qed.

(** C15: what the loop over the reports does with one, in every case.  If none of
    the events that it would fire (those reported, and with an error or a hang-up
    every registered one) is registered any more, nothing happens; if the kernel
    refuses the change, nothing else does.  If all are registered, their tasks go
    to their schedulers, reading before writing, each once; the others stay
    registered with their tasks in place, and the counter is the number of those
    left.  If one is registered and another not, because it was deleted, cancelled or fired
    between epoll_wait and the mutex, an assertion fails: the test behind the
    lock only asks whether any of them is registered. *)
Theorem report_exact (s : IOManager K) report i c rt k' :
  io_inv s -> m_fdContexts s !! i = Some c ->
  let left := Z.land (events c) (Z.lnot (real_events report (events c))) in
  epoll_ctl (left_op left) (fd c) (Z.lor EPOLLET left) (data_ptr i) (kernel s) = (rt, k') ->
  (forall event, is_event event -> has left event = has (events c) event && negb (fires report c event)) /\
  ((forall event, is_event event -> fires report c event = true -> has (events c) event = false) ->
    handle report (data_ptr i) s = Ret tt s) /\
  (forall event, is_event event -> fires report c event = true -> has (events c) event = true ->
    (rt <> 0 -> handle report (data_ptr i) s = Ret tt (set_kernel k' s)) /\
    (rt = 0 -> (forall other, is_event other -> fires report c other = true -> has (events c) other = true) ->
      exists s', handle report (data_ptr i) s = Ret tt s' /\
        (let ts := (if fires report c READ then option_list (task_of READ c) else []) ++
                   (if fires report c WRITE then option_list (task_of WRITE c) else []) in
         sched s' = given_all ts (sched s) /\ foreign s' = foreign s ++ gone ts) /\
        (exists c', m_fdContexts s' = <[i := c']> (m_fdContexts s) /\ fd c' = fd c /\ events c' = left /\
          read c' = (if fires report c READ then resetContext else read c) /\
          write c' = (if fires report c WRITE then resetContext else write c)) /\
        m_pendingEventCount s' = u64 (registered (m_fdContexts s'))) /\
    (rt = 0 -> forall other, is_event other -> fires report c other = true -> has (events c) other = false ->
      handle report (data_ptr i) s = Crash (AssertFail "events & event"))).
Proof.
  intros HI Hc left Ek. pose proof (ii_ctx s HI i c Hc) as Hok. pose proof Hok as (Hfd & _). rewrite Hfd in Ek.
  assert (Hreal : forall event, is_event event -> has (real_events report (events c)) event = fires report c event)
    by (intros; by apply (real_spec report i c)).
  split; [by intros event He; rewrite <- Hreal; [apply (has_left i)|]|].
  split; [intros Hnone; apply (handle_none s report i c Hc); by apply (nothing_iff report i c)|].
  intros event He Hf Hh. assert (Hn : Z.land (events c) (real_events report (events c)) <> NONE).
  { intros Hn. by rewrite (proj1 (nothing_iff report i c Hok) Hn event He Hf) in Hh. }
  split; [by apply (handle_refused s report i c)|]. split.
  - intros -> Hall. destruct (handle_fires s report i c k' Hok Hc Hn) as (s' & E & F & _ & _ & El); [|done|].
    { apply (all_registered report i c Hok). intros other Ho. rewrite Hreal by done. by apply Hall. }
    exists s'. split; [done|]. pose proof (Hreal READ (or_introl eq_refl)) as Hr. pose proof (Hreal WRITE (or_intror eq_refl)) as Hw.
    split; [|split].
    + pose proof (fa_sched _ _ _ _ _ _ F) as Es. pose proof (fa_foreign _ _ _ _ _ _ F) as Ef.
      unfold tasks, tasks_if in Es, Ef. rewrite Hr, Hw in Es, Ef. by split.
    + exists (fired (real_events report (events c)) c). split; [apply (fa_contexts _ _ _ _ _ _ F)|].
      unfold fired, cleared_if in El |- *. rewrite Hr, Hw in El |- *.
      destruct (fires report c READ), (fires report c WRITE); by split_and!.
    + rewrite (fa_pending _ _ _ _ _ _ F _ (ii_pending s HI)), (fa_contexts _ _ _ _ _ _ F).
      by rewrite (registered_insert _ i c).
  - intros -> other Ho Hof Hoh. apply (handle_stale s report i c k' Hok Hc); [|done].
    exists event, other. by rewrite !Hreal by done.
Qed.

(** Stopping answers true exactly when nothing is left that could bring
    work: no timer is queued, no event is registered for any descriptor, and the
    base class has an empty queue, nobody in a task and has been told to stop. *)
Theorem stopping_exact (s : IOManager K) now :
  io_inv s -> 0 < now ->
  exists b timeout s', stopping_at now s = Ret (b, timeout) s' /\
    (b = true <->
      m_timers (timers s) = [] /\ (forall i c, m_fdContexts s !! i = Some c -> events c = NONE) /\
      stopping true (sched s) = true).
Proof.
  intros HI Hnow. unfold stopping_at. pose proof (getNextTimer_run now (timers s) (ii_timers s HI)) as E.
  set (v := match m_timers (timers s) with [] => _ | _ => _ end) in E.
  assert (E1 : on_timers (getNextTimer now) s = Ret v (set_timers (set_tickled false (timers s)) s)).
  { unfold on_timers. rewrite E. cbn [m_front set_tickled]. by rewrite Z.sub_diag. }
  step_with E1. eexists _, _, _. split; [reflexivity|]. cbn [m_pendingEventCount sched IOManager.set_timers].
  assert (Ht : (v =? no_timer) = true <-> m_timers (timers s) = []).
  { unfold v. destruct (m_timers (timers s)) as [|p l] eqn:Em; [done|]. split; [|done]. intros Hv%Z.eqb_eq. exfalso.
    destruct (wf_alloc _ (ii_timers s HI) p) as [_ [t Ht]]; [rewrite Em; by left|].
    assert (next_at (m_heap (timers s)) p = m_next t) as En by (unfold next_at; by rewrite Ht). rewrite En in Hv.
    destruct (wf_range _ (ii_timers s HI) p t Ht) as [Hr _]. unfold in_u in Hr. revert Hv. unfold no_timer.
    case_cmp; [done|]. rewrite wrap_small by (unfold in_u; lia). lia. }
  assert (Hp : (m_pendingEventCount s =? 0) = true <->
    (forall i c, m_fdContexts s !! i = Some c -> events c = NONE)).
  { rewrite (ii_pending s HI). rewrite wrap_small by (pose proof (registered_bounds (m_fdContexts s));
      pose proof (ii_len s HI); unfold in_u; lia). rewrite Z.eqb_eq. split.
    - intros Hz i c Hc. apply registered_zero in Hz. rewrite Forall_lookup in Hz. specialize (Hz i c Hc).
      destruct (ii_ctx s HI i c Hc) as (_ & r & w & Ee & _). revert Hz. unfold weight. rewrite Ee. by destruct r, w.
    - intros Hall. clear - Hall. induction (m_fdContexts s) as [|c l IH]; [done|]. rewrite registered_cons.
      rewrite IH by (intros i d Hd; by apply (Hall (S i))). unfold weight. by rewrite (Hall O c eq_refl). }
  rewrite !andb_true_iff, Ht, Hp. tauto.
Qed.

(** A descriptor half as large again as the vector is not reached by its one
    growth: addEvent uses the vector out of bounds. *)
Theorem addEvent_out_of_bounds (s : IOManager K) who f event g :
  0 < zlen (m_fdContexts s) -> zlen (m_fdContexts s) * 3 / 2 <= f < 2 ^ 31 ->
  addEvent who f event g s = Crash OutOfBounds.
Proof.
  intros Hl Hf. assert (Eu : u64 f = f) by (apply wrap_small; unfold in_u; Z.to_euclidean_division_equations; lia).
  unfold addEvent. rewrite (bind_Ret get _ s s s eq_refl), Eu.
  assert ((zlen (m_fdContexts s) <=? f) = true) as -> by (apply Z.leb_le; Z.to_euclidean_division_equations; lia).
  cbn [when]. set (n := zlen (m_fdContexts s) * 3 / 2) in *.
  assert (exists s1, contextResize n s = Ret tt s1 /\ zlen (m_fdContexts s1) = n) as (s1 & E1 & L1).
  { eexists. split; [reflexivity|]. cbn. rewrite zlen_app. fold (blanks (length (m_fdContexts s)) (Z.to_nat n - length (m_fdContexts s))).
    rewrite ztake_all by (unfold n; Z.to_euclidean_division_equations; lia).
    unfold zlen, blanks. rewrite length_map, length_seq. unfold n, zlen in *. Z.to_euclidean_division_equations; lia. }
  step_with E1. rewrite (bind_Ret get _ s1 s1 s1 eq_refl), L1.
  by assert ((n <=? f) = true) as -> by lia.
Qed.
End thms.

(** C16: the idle fiber waits at most MAX_TIMEOUT and never a negative time,
    which epoll_wait would take for no limit, exactly when the timer is not more
    than 2^31 - 1 ms ahead, modulo 2^32: a timer 25 to 49 days ahead makes the
    wait unbounded. *)
Theorem wait_bounded_iff next :
  in_u 64 next ->
  0 <= wait_timeout next <= MAX_TIMEOUT <-> next = no_timer \/ next mod 2 ^ 32 < 2 ^ 31.
Proof.
  unfold in_u. intros Hn. unfold wait_timeout, MAX_TIMEOUT. destruct (Z.eqb_spec next no_timer) as [-> |Hne]; cbn [negb].
  - split; [by left|]. vm_compute. done.
  - assert (Hi : i32 next = if next mod 2 ^ 32 <? 2 ^ 31 then next mod 2 ^ 32 else next mod 2 ^ 32 - 2 ^ 32).
    { unfold swrap. change (32 - 1) with 31. case_cmp; Z.to_euclidean_division_equations; lia. }
    assert (Hx : forall v, -2 ^ 31 <= v < 2 ^ 31 -> i32 v = v) by (intros; apply swrap_small; [lia|unfold in_s; lia]).
    pose proof (Z.mod_pos_bound next (2 ^ 32) ltac:(lia)).
    destruct (Z.ltb_spec 3000 (i32 next)) as [Hlt|Hle].
    + rewrite Hx by lia. destruct (Z.ltb_spec (next mod 2 ^ 32) (2 ^ 31)); [|lia]. split; [by right|lia].
    + rewrite Hi in *. case_cmp; split; try lia; tauto || lia.
Qed.

(** ** A run *)

Definition demo_name (f : callback) : Z := match f with Plain f => f | Bind_OnTimer _ _ => -3 end.

(** One thread, 10; the pipe is descriptor 6. *)
Definition io_new : outcome (IOManager Epoll) unit :=
  IOManager_new 1024 1 false 9 false tls_new fresh 1000 (∅ : Epoll) 5 0 6 0 [10].
Definition io_start : IOManager Epoll :=
  match io_new with Ret _ s => s | _ => mkIO demo_end (TimerManager_new 0) ∅ 6 0 [] [] ∅ end.

Lemma io_new_ok : exists s0, io_new = Ret tt s0 /\ io_inv s0.
Proof.
  apply (iomanager_new_ok 1024 fresh tls_new 1 false 9 1000 (∅ : Epoll) 5 6 [10] fresh_ok tls_new_ok); try done.
  by repeat constructor.
Qed.
Lemma io_start_inv : io_inv io_start.
Proof. unfold io_start. by destruct io_new_ok as (s0 & -> & HI). Qed.

(** A task of thread 0 waits for its own fiber to be readable on descriptor 7,
    registers a callable for writing and yields; the thread becomes idle. *)
Definition waiting : list io_action :=
  [Sched (Schedule (mkFT None (Some 5) (-1)))] ++ repeat (Sched (Advance 0 true)) 4 ++
  [AddEvent (OnThread 0) 7 READ None; AddEvent (OnThread 0) 7 WRITE (Some 8);
   Sched (Body 0 BYieldToHold)] ++ repeat (Sched (Advance 0 true)) 5 ++ [IdleCheck 0 1000].

Definition after (acts : list io_action) : IOManager Epoll :=
  match io_steps 1024 demo_name acts io_start with Ret _ s => s | _ => io_start end.

Ltac next_step :=
  match goal with |- context [io_step ?a ?b ?c ?d] =>
    let r := eval vm_compute in (io_step a b c d) in
    replace (io_step a b c d) with r by (vm_compute; reflexivity) end; cbv iota.
Ltac notin_now :=
  match goal with |- ?x ∉ ?l => let r := eval vm_compute in l in change (x ∉ r) end;
  rewrite ?elem_of_cons, elem_of_nil; lia.
(** A condition of [io_allowed] in a state that is computed. *)
Ltac allowed_now :=
  match goal with
  | |- io_allowed _ (IdleWait _ _) => repeat constructor; eexists 7, _; split; vm_compute; reflexivity
  | |- io_allowed _ (IdleTimers _ _ _) => split; [done|notin_now]
  | |- io_allowed _ (Timers _) =>
    split; [split; [done|split; [notin_now|unfold in_u; lia]]|done]
  | |- io_allowed _ (CancelEvent _ _) => split; [unfold in_s; lia|split; [by right|vm_compute; reflexivity]]
  | _ => vm_compute; try split; reflexivity || exact I
  end.
Ltac disciplined := cbn [app repeat io_disciplined]; repeat (split; [allowed_now|next_step]); try exact I.


(** The writing side is cancelled between epoll_wait and the loop. *)
Definition overtaken : list io_action :=
  waiting ++ [IdleWait 0 [(Z.lor EPOLLIN EPOLLOUT, data_ptr 7)]; IdleTimers 0 78 1000; CancelEvent 7 WRITE].
Lemma overtaken_disciplined : io_disciplined 1024 demo_name io_start overtaken.
Proof. unfold overtaken, waiting. disciplined. Qed.
Lemma waiting_disciplined : io_disciplined 1024 demo_name io_start waiting.
Proof. unfold waiting. disciplined. Qed.

Lemma after_inv acts : io_disciplined 1024 demo_name io_start acts -> io_inv (after acts).
Proof.
  intros Hd. unfold after. destruct (io_steps 1024 demo_name acts io_start) as [[] s| |] eqn:E; [|apply io_start_inv..].
  by apply (io_reached_inv 1024 demo_name acts io_start s io_start_inv Hd).
Qed.

Definition ctx_of (s : IOManager Epoll) (i : nat) : FdContext :=
  match m_fdContexts s !! i with Some c => c | None => FdContext_new 0 end.

Definition report_ctl := epoll_ctl CTL_MOD 7 (Z.lor EPOLLET WRITE) (data_ptr 7) (kernel (after waiting)).


Definition stale_ctl := epoll_ctl CTL_DEL 7 EPOLLET (data_ptr 7) (kernel (after overtaken)).

(** The report that was overtaken, and one that is not. *)
Lemma report_exact_witness :
  let s := after waiting in
  handle (Z.lor EPOLLIN EPOLLOUT) (data_ptr 7) (after overtaken) = Crash (AssertFail "events & event") /\
  exists s', handle EPOLLIN (data_ptr 7) s = Ret tt s' /\ m_pendingEventCount s' = u64 (registered (m_fdContexts s')).
Proof.
  intros s. split.
  - destruct (report_exact (after overtaken) (Z.lor EPOLLIN EPOLLOUT) 7 (ctx_of (after overtaken) 7) 0 stale_ctl.2) as (_ & _ & Hx).
    + apply after_inv, overtaken_disciplined.
    + vm_compute. reflexivity.
    + vm_compute. reflexivity.
    + destruct (Hx READ) as (_ & _ & Hs); [by left|vm_compute; reflexivity..|].
      apply (Hs eq_refl WRITE); [by right|vm_compute; reflexivity..].
  - destruct (report_exact s EPOLLIN 7 (ctx_of s 7) 0 report_ctl.2) as (_ & _ & Hx).
    + apply after_inv, waiting_disciplined.
    + vm_compute. reflexivity.
    + vm_compute. reflexivity.
    + destruct (Hx READ) as (_ & Hr & _); [by left|vm_compute; reflexivity..|].
      destruct (Hr eq_refl) as (s' & E & _ & _ & Hp); [|exact (ex_intro _ s' (conj E Hp))].
      intros other [-> | ->]; vm_compute; done.
Defined.

Lemma stopping_exact_witness :
  exists b timeout s', stopping_at 1000 io_start = Ret (b, timeout) s' /\
    (b = true <->
      m_timers (timers io_start) = [] /\ (forall i c, m_fdContexts io_start !! i = Some c -> events c = NONE) /\
      stopping true (sched io_start) = true).
Proof. apply (stopping_exact io_start 1000 io_start_inv). lia. Defined.

Lemma addEvent_out_of_bounds_witness :
  addEvent (OnThread 0) 48 READ (Some 5) io_start = Crash OutOfBounds.
Proof.
  apply (addEvent_out_of_bounds io_start (OnThread 0) 48 READ (Some 5)); [vm_compute; reflexivity|].
  split; vm_compute; [discriminate|reflexivity].
Defined.

Lemma wait_bounded_iff_witness :
  wait_timeout (2 ^ 31) = - 2 ^ 31 /\
  (0 <= wait_timeout (2 ^ 31) <= MAX_TIMEOUT <-> 2 ^ 31 = no_timer \/ 2 ^ 31 mod 2 ^ 32 < 2 ^ 31).
Proof. split; [vm_compute; reflexivity|]. apply (wait_bounded_iff (2 ^ 31)). unfold in_u. lia. Defined.
