(* ===== verification/Address.v ===== *)
(** linko/address.{h,cc}: socket addresses.  A sockaddr structure is a record of
    its members in host order; [raw] is its object representation. *)
From S2P Require Import Prelude Endian Http.

Definition AF_UNSPEC : Z := 0.
Definition AF_UNIX : Z := 1.
Definition AF_INET : Z := 2.
Definition AF_INET6 : Z := 10.

Record sockaddr_in := mkSin { sin_family : Z; sin_port : Z; s_addr : Z; sin_zero : bytes }.
Record sockaddr_in6 := mkSin6 {
  sin6_family : Z;
  sin6_port : Z;
  sin6_flowinfo : Z;
  s6_addr : list Z;
  sin6_scope_id : Z
}.
Record sockaddr_un := mkSun { sun_family : Z; sun_path : bytes }.
Record sockaddr := mkSa { sa_family : Z; sa_data : bytes }.

(** The classes; [IPAddress] is the first two. *)
Inductive Address :=
| IPv4Address (m_addr : sockaddr_in)
| IPv6Address (m_addr : sockaddr_in6)
| UnixAddress (m_addr : sockaddr_un) (m_length : Z)
| UnknownAddress (m_addr : sockaddr).

Definition zeros (n : Z) : bytes := replicate (Z.to_nat n) (bz 0).

(** ** The helpers *)

(** [1 << n] of an int. *)
Definition shl1 {S} (n : Z) : M S Z := if (0 <=? n) && (n <? 32) then mret (i32 (2 ^ n)) else crash_with BadShift.

(** CreateMask<T>: [~(1 << n) - 1], converted to [T]. *)
Definition CreateMask {S} (t : ity) (prefix : Z) : M S Z :=
  x ← shl1 (u64 (bits t - prefix));
  mret (cast t (Z.lnot x - 1)).

(** CountBytes<T>; the loop clears one bit a round. *)
Fixpoint count_loop (fuel : nat) (value result : Z) : Z :=
  match fuel with
  | O => result
  | S fuel => if value =? 0 then result else count_loop fuel (Z.land value (value - 1)) (u32 (result + 1))
  end.
Definition CountBytes (t : ity) (value : Z) : Z := count_loop (S (Z.to_nat (bits t))) value 0.

(** [os << std::hex << n] for a number that is not negative. *)
Definition hex_digit (d : Z) : byte := bz (if d <? 10 then 48 + d else 87 + d).
Fixpoint show_hex_fuel (fuel : nat) (n : Z) (acc : bytes) : bytes :=
  match fuel with
  | O => acc
  | S fuel =>
    let acc := hex_digit (n mod 16) :: acc in
    if n <? 16 then acc else show_hex_fuel fuel (n / 16) acc
  end.
Definition show_hex (n : Z) : bytes := show_hex_fuel (Z.to_nat (Z.log2 n + 1)) n [].

(** [memcmp]. *)
Definition memcmp (a b : bytes) : Z := strcmp a b.

Section address.
Context {host : Host}.
Abbreviation net16 := (byteswapOnLittleEndian uint16_t).
Abbreviation net32 := (byteswapOnLittleEndian uint32_t).

(** ** Constructors *)

Definition IPv4Address_new (address port : Z) : sockaddr_in :=
  mkSin AF_INET (net16 (u16 port)) (net32 (u32 address)) (zeros 8).
Definition IPv6Address_new : sockaddr_in6 := mkSin6 AF_INET6 0 0 (replicate 16 0) 0.
Definition IPv6Address_of (address : list Z) (port : Z) : sockaddr_in6 :=
  mkSin6 AF_INET6 (net16 (u16 port)) 0 address 0.

Definition MAX_PATH_LEN : Z := 107.
Definition SUN_PATH_OFFSET : Z := 2.
Definition UnixAddress_new : Address := UnixAddress (mkSun AF_UNIX (zeros 108)) (SUN_PATH_OFFSET + MAX_PATH_LEN).
Definition UnixAddress_of {S} (path : bytes) : M S Address :=
  let m_length := u32 (zlen path + 1) in
  let m_length := match path with c :: _ => if ub c =? 0 then u32 (m_length - 1) else m_length | [] => m_length end in
  if 108 <? m_length then throw (logic_error "path too long") else
  mret (UnixAddress (mkSun AF_UNIX (overwrite 0 (ztake m_length (path ++ [bz 0])) (zeros 108))) (m_length + SUN_PATH_OFFSET)).
Definition UnknownAddress_new (family : Z) : Address := UnknownAddress (mkSa (u16 family) (zeros 14)).

(** [inet_pton(AF_INET, ...)] and [inet_pton(AF_INET6, ...)]: the stored bytes, or
    [None] for a result that is not positive. *)
Definition IPv4Address_Create (inet_pton : bytes -> option Z) (address : bytes) (port : Z) : option sockaddr_in :=
  let rt := IPv4Address_new 0 0 in
  match inet_pton address with
  | Some a => Some (mkSin (sin_family rt) (net16 (u16 port)) a (sin_zero rt))
  | None => None
  end.
Definition IPv6Address_Create (inet_pton : bytes -> option (list Z)) (address : bytes) (port : Z) : option sockaddr_in6 :=
  match inet_pton address with
  | Some a => Some (mkSin6 AF_INET6 (net16 (u16 port)) 0 a 0)
  | None => None
  end.

(** ** The bytes of an address, and comparison *)

Definition raw (a : Address) : bytes :=
  match a with
  | IPv4Address x => repr uint16_t (sin_family x) ++ repr uint16_t (sin_port x) ++ repr uint32_t (s_addr x) ++ sin_zero x
  | IPv6Address x =>
    repr uint16_t (sin6_family x) ++ repr uint16_t (sin6_port x) ++ repr uint32_t (sin6_flowinfo x)
    ++ map bz (s6_addr x) ++ repr uint32_t (sin6_scope_id x)
  | UnixAddress x _ => repr uint16_t (sun_family x) ++ sun_path x
  | UnknownAddress x => repr uint16_t (sa_family x) ++ sa_data x
  end.
Definition getFamily (a : Address) : Z :=
  match a with
  | IPv4Address x => sin_family x
  | IPv6Address x => sin6_family x
  | UnixAddress x _ => sun_family x
  | UnknownAddress x => sa_family x
  end.
Definition getAddrLen (a : Address) : Z :=
  match a with
  | IPv4Address _ => 16
  | IPv6Address _ => 28
  | UnixAddress _ m_length => m_length
  | UnknownAddress _ => 16
  end.

Definition op_lt (a b : Address) : bool :=
  let minlen := Z.min (getAddrLen a) (getAddrLen b) in
  let result := memcmp (ztake minlen (raw a)) (ztake minlen (raw b)) in
  if result <? 0 then true
  else if 0 <? result then false
  else getAddrLen a <? getAddrLen b.
Definition op_eq (a b : Address) : bool :=
  (getAddrLen a =? getAddrLen b) && (memcmp (ztake (getAddrLen a) (raw a)) (ztake (getAddrLen a) (raw b)) =? 0).
Definition op_ne (a b : Address) : bool := negb (op_eq a b).

(** ** Ports *)

Definition getPort (a : Address) : option Z :=
  match a with
  | IPv4Address x => Some (net16 (sin_port x))
  | IPv6Address x => Some (net16 (sin6_port x))
  | _ => None
  end.
Definition setPort (v : Z) (a : Address) : Address :=
  match a with
  | IPv4Address x => IPv4Address (mkSin (sin_family x) (net16 (u16 v)) (s_addr x) (sin_zero x))
  | IPv6Address x => IPv6Address (mkSin6 (sin6_family x) (net16 (u16 v)) (sin6_flowinfo x) (s6_addr x) (sin6_scope_id x))
  | _ => a
  end.

(** ** Subnets: [None] is the null pointer *)

Definition with_s_addr (v : Z) (x : sockaddr_in) : sockaddr_in := mkSin (sin_family x) (sin_port x) v (sin_zero x).
Definition broadcastAddress4 {S} (prefix_len : Z) (x : sockaddr_in) : M S (option sockaddr_in) :=
  if 32 <? prefix_len then mret None else
  m ← CreateMask uint32_t prefix_len;
  mret (Some (with_s_addr (Z.lor (s_addr x) (u32 (Z.lnot (net32 m)))) x)).
Definition networdAddress4 {S} (prefix_len : Z) (x : sockaddr_in) : M S (option sockaddr_in) :=
  if 32 <? prefix_len then mret None else
  m ← CreateMask uint32_t prefix_len;
  mret (Some (with_s_addr (Z.land (s_addr x) (net32 m)) x)).
Definition subnetMask4 {S} (prefix_len : Z) : M S (option sockaddr_in) :=
  m ← CreateMask uint32_t prefix_len;
  mret (Some (mkSin AF_INET 0 (net32 m) (zeros 8))).

Definition with_s6_addr (v : list Z) (x : sockaddr_in6) : sockaddr_in6 :=
  mkSin6 (sin6_family x) (sin6_port x) (sin6_flowinfo x) v (sin6_scope_id x).
(** [s6_addr[i] = f(s6_addr[i])] *)
Definition on_byte {S} (i : Z) (f : Z -> Z) (l : list Z) : M S (list Z) :=
  if i <? zlen l then mret (alter f (Z.to_nat i) l) else crash_with OutOfBounds.
(** [for (i = from; i < to; ++i) s6_addr[i] = v] *)
Definition fill (from to v : Z) (l : list Z) : list Z :=
  ztake from l ++ replicate (Z.to_nat (to - from)) v ++ zdrop (Z.max from to) l.
Definition broadcastAddress6 {S} (prefix_len : Z) (x : sockaddr_in6) : M S (option sockaddr_in6) :=
  m ← CreateMask uint8_t (prefix_len mod 8);
  l ← on_byte (prefix_len / 8) (fun b => Z.lor b (u8 (Z.lnot m))) (s6_addr x);
  mret (Some (with_s6_addr (fill (prefix_len / 8 + 1) 16 0xff l) x)).
Definition networdAddress6 {S} (prefix_len : Z) (x : sockaddr_in6) : M S (option sockaddr_in6) :=
  m ← CreateMask uint8_t (prefix_len mod 8);
  l ← on_byte (prefix_len / 8) (fun b => Z.land b m) (s6_addr x);
  mret (Some (with_s6_addr (fill (prefix_len / 8 + 1) 16 0 l) x)).
Definition subnetMask6 {S} (prefix_len : Z) : M S (option sockaddr_in6) :=
  m ← CreateMask uint8_t (prefix_len mod 8);
  l ← on_byte (prefix_len / 8) (fun _ => m) (replicate 16 0);
  mret (Some (mkSin6 AF_INET6 0 0 (fill 0 (prefix_len / 8) 0xff l) 0)).

(** ** Text *)

Definition insert4 (x : sockaddr_in) : bytes :=
  let addr := net32 (s_addr x) in
  show_dec (Z.land (Z.shiftr addr 24) 0xff) ++ bs "." ++ show_dec (Z.land (Z.shiftr addr 16) 0xff) ++ bs "."
  ++ show_dec (Z.land (Z.shiftr addr 8) 0xff) ++ bs "." ++ show_dec (Z.land addr 0xff)
  ++ bs ":" ++ show_dec (net16 (sin_port x)).

(** The cast of [s6_addr] to [uint16_t]: the eight 16-bit integers of the host. *)
Fixpoint groups (l : list Z) : list Z :=
  match l with
  | a :: b :: l => unrepr uint16_t [bz a; bz b] :: groups l
  | _ => []
  end.

(** The loop of insert: [i], the group before, and used_zeros. *)
Fixpoint insert6_loop (i : nat) (prev : Z) (used_zeros : bool) (addr : list Z) : bytes * bool :=
  match addr with
  | [] => ([], used_zeros)
  | g :: addr =>
    if (g =? 0) && negb used_zeros then insert6_loop (S i) g used_zeros addr else
    let gap := negb (i =? 0)%nat && (prev =? 0) && negb used_zeros in
    let '(rest, used) := insert6_loop (S i) g (used_zeros || gap) addr in
    ((if gap then bs ":" else []) ++ (if (i =? 0)%nat then [] else bs ":") ++ show_hex (net16 g) ++ rest, used)
  end.
Definition insert6_groups (addr : list Z) : bytes :=
  let '(text, used_zeros) := insert6_loop 0 0 false addr in
  text ++ (if negb used_zeros && (nth 7 addr 0 =? 0) then bs "::" else []).
Definition insert6 (x : sockaddr_in6) : bytes :=
  bs "[" ++ insert6_groups (groups (s6_addr x)) ++ bs "]:" ++ show_dec (net16 (sin6_port x)).

(** [os << m_addr.sun_path] stops at a NUL; [None]: it runs off the structure. *)
Definition insert_un (x : sockaddr_un) (m_length : Z) : option bytes :=
  if (SUN_PATH_OFFSET <? m_length) && bool_decide (head (sun_path x) = Some (bz 0)) then
    let n := m_length - SUN_PATH_OFFSET - 1 in
    if zlen (sun_path x) <? 1 + n then None else Some (bs "\0" ++ slice 1 n (sun_path x))
  else if bool_decide (bz 0 ∈ sun_path x) then Some (c_str (sun_path x)) else None.

Definition insert {S} (a : Address) : M S bytes :=
  match a with
  | IPv4Address x => mret (insert4 x)
  | IPv6Address x => mret (insert6 x)
  | UnixAddress x m_length => match insert_un x m_length with Some s => mret s | None => crash_with OutOfBounds end
  | UnknownAddress x => mret (bs "[UnknownAddress family=" ++ show_dec (sa_family x) ++ bs "]")
  end.
Definition toString {S} (a : Address) : M S bytes := insert a.

(** ** Lookup *)

(** A sockaddr by its family, as the resolver and getifaddrs hand it out. *)
Inductive any_sockaddr :=
| any_in (x : sockaddr_in)
| any_in6 (x : sockaddr_in6)
| any_other (x : sockaddr).
Definition any_family (a : any_sockaddr) : Z :=
  match a with any_in x => sin_family x | any_in6 x => sin6_family x | any_other x => sa_family x end.
Definition Create (addr : any_sockaddr) : Address :=
  match addr with any_in x => IPv4Address x | any_in6 x => IPv6Address x | any_other x => UnknownAddress x end.

(** [memchr] from a position on: where it found the byte. *)
Definition memchr (from : Z) (c : byte) (s : bytes) : option Z :=
  match list_find (fun x => x = c) (zdrop from s) with Some (i, _) => Some (from + Z.of_nat i) | None => None end.

(** What Lookup hands the resolver: node and service. *)
Definition lookup_bracketed (host_ : bytes) : bytes * option bytes :=
  if bool_decide (head host_ = Some (bz 91)) then
    match memchr 1 (bz 93) host_ with
    | Some e =>
      (slice 1 (e - 1) host_,
       if bool_decide (host_ !! Z.to_nat (e + 1) = Some (bz 58)) then Some (c_str (zdrop (e + 2) host_)) else None)
    | None => ([], None)
    end
  else ([], None).
Definition lookup_args (host_ : bytes) : bytes * option bytes :=
  let '(node, service) := lookup_bracketed host_ in
  let '(node, service) :=
    match node with
    | [] =>
      match memchr 0 (bz 58) host_ with
      | Some i =>
        match memchr (i + 1) (bz 58) host_ with
        | None => (ztake i host_, Some (c_str (zdrop (i + 1) host_)))
        | Some _ => ([], Some (c_str (zdrop i host_)))
        end
      | None => ([], None)
      end
    | _ => (node, service)
    end in
  (c_str (match node with [] => host_ | _ => node end), service).

(** [getaddrinfo]: [None] is an error, else the list of the results. *)
Definition resolver : Type := bytes -> option bytes -> Z -> Z -> Z -> option (list any_sockaddr).

Definition Lookup (getaddrinfo : resolver) (host_ : bytes) (family type protocol : Z) : option (list Address) :=
  let '(node, service) := lookup_args host_ in
  match getaddrinfo node service family type protocol with
  | None => None
  | Some results => Some (map Create results)
  end.
(** [result[0]]. *)
Definition LookupAny {S} (getaddrinfo : resolver) (host_ : bytes) (family type protocol : Z) : M S (option Address) :=
  match Lookup getaddrinfo host_ family type protocol with
  | Some (a :: _) => mret (Some a)
  | Some [] => crash_with OutOfBounds
  | None => mret None
  end.
Definition is_ip (a : Address) : bool := match a with IPv4Address _ | IPv6Address _ => true | _ => false end.
Definition LookupAnyIPAddress (getaddrinfo : resolver) (host_ : bytes) (family type protocol : Z) : option Address :=
  match Lookup getaddrinfo host_ family type protocol with
  | Some result => List.find is_ip result
  | None => None
  end.
(** IPAddress::Create: the first result of the resolver. *)
Definition IPAddress_Create {S} (getaddrinfo : bytes -> option (list any_sockaddr)) (address : bytes) (port : Z)
    : M S (option Address) :=
  match getaddrinfo (c_str address) with
  | None => mret None
  | Some [] => crash_with NullDeref
  | Some (x :: _) => let r := Create x in mret (if is_ip r then Some (setPort port r) else None)
  end.

(** ** The interfaces of the machine *)

(** An entry of getifaddrs: ifa_name, and ifa_addr with the address in
    ifa_netmask, or the null pointer. *)
Record ifaddr := mkIf { ifa_name : bytes; ifa_addr : option (any_sockaddr * any_sockaddr) }.

Definition prefix_length_of (addr netmask : any_sockaddr) : option Z :=
  match addr, netmask with
  | any_in _, any_in m => Some (CountBytes uint32_t (s_addr m))
  | any_in6 _, any_in6 m => Some (u32 (foldl (fun n b => n + CountBytes uint8_t b) 0 (s6_addr m)))
  | _, _ => None
  end.
Fixpoint interface_loop {S} (family : Z) (l : list ifaddr) : M S (list (bytes * (Address * Z))) :=
  match l with
  | [] => mret []
  | next :: l =>
    match ifa_addr next with
    | None => crash_with NullDeref
    | Some (addr, netmask) =>
      if negb (family =? AF_UNSPEC) && negb (family =? any_family addr) then interface_loop family l else
      match prefix_length_of addr netmask with
      | Some n => rest ← interface_loop family l; mret ((ifa_name next, (Create addr, n)) :: rest)
      | None => interface_loop family l
      end
    end
  end.
(** GetInterfaceAddress into a multimap, kept in the order of insertion. *)
Definition GetInterfaceAddresses {S} (getifaddrs : option (list ifaddr)) (family : Z)
    : M S (option (list (bytes * (Address * Z)))) :=
  match getifaddrs with
  | None => mret None
  | Some l => r ← interface_loop family l; mret (Some r)
  end.
Definition GetInterfaceAddress {S} (getifaddrs : option (list ifaddr)) (iface : bytes) (family : Z)
    : M S (bool * list (Address * Z)) :=
  let any :=
    if bool_decide (iface = []) || bool_decide (iface = bs "*") then
      (if (family =? AF_INET) || (family =? AF_UNSPEC) then [(IPv4Address (IPv4Address_new 0 0), 0)] else [])
      ++ (if (family =? AF_INET6) || (family =? AF_UNSPEC) then [(IPv6Address IPv6Address_new, 0)] else [])
    else [] in
  results ← GetInterfaceAddresses getifaddrs family;
  match results with
  | None => mret (false, any)
  | Some results => mret (true, any ++ map snd (List.filter (fun e => bool_decide (e.1 = iface)) results))
  end.
End address.
