(* ===== verification/AddressThms.v ===== *)
(** Theorems on addresses: the text of an IPv6 address reads back as the address
    on every host, operator< is a total order, the masks are off by two, and what
    Lookup takes for node and service. *)
From S2P Require Import Prelude Endian Http HttpThms Address.
From stdpp Require Import list.
Open Scope Z_scope.

(** ** A reference reader of IPv6 text (RFC 4291, 2.2, forms 1 and 2) *)

Definition colon : byte := bz 58.
Definition hex_value (c : byte) : option Z :=
  if (48 <=? ub c) && (ub c <=? 57) then Some (ub c - 48)
  else if (97 <=? ub c) && (ub c <=? 102) then Some (ub c - 87)
  else if (65 <=? ub c) && (ub c <=? 70) then Some (ub c - 55)
  else None.
Fixpoint read_hex_from (acc : Z) (s : bytes) : option Z :=
  match s with
  | [] => Some acc
  | c :: s => match hex_value c with Some d => read_hex_from (acc * 16 + d) s | None => None end
  end.
(** One to four digits. *)
Definition read_group (s : bytes) : option Z :=
  if (1 <=? zlen s) && (zlen s <=? 4) then read_hex_from 0 s else None.

Fixpoint split_colon (s : bytes) : list bytes :=
  match s with
  | [] => [[]]
  | c :: s =>
    if bool_decide (c = colon) then [] :: split_colon s
    else match split_colon s with p :: ps => (c :: p) :: ps | [] => [[c]] end
  end.

(** The parts up to the first empty one, and those behind it. *)
Fixpoint before_gap (ps : list bytes) : list bytes * option (list bytes) :=
  match ps with
  | [] => ([], None)
  | [] :: ps => ([], Some ps)
  | p :: ps => let '(l, r) := before_gap ps in (p :: l, r)
  end.

Definition read_groups (ps : list bytes) : option (list Z) := mapM read_group ps.

Definition read_ipv6 (s : bytes) : option (list Z) :=
  let '(before, gap) := before_gap (split_colon s) in
  match gap with
  | None => l ← read_groups before; if (length l =? 8)%nat then Some l else None
  | Some after =>
    (** A gap at the start or the end of the text leaves one more empty part. *)
    after ← match before with [] => match after with [] :: r => Some r | _ => None end | _ => Some after end;
    l ← read_groups before;
    r ← read_groups (match after with [[]] => [] | _ => after end);
    if (length l + length r <? 8)%nat then Some (l ++ replicate (8 - length l - length r) 0 ++ r) else None
  end.

Example read_1 : read_ipv6 (bs "2001:db8::1") = Some [0x2001; 0xdb8; 0; 0; 0; 0; 0; 1].
Proof. reflexivity. Qed.
Example read_2 : read_ipv6 (bs "::") = Some [0; 0; 0; 0; 0; 0; 0; 0].
Proof. reflexivity. Qed.
Example read_3 : read_ipv6 (bs "1:2::") = Some [1; 2; 0; 0; 0; 0; 0; 0].
Proof. reflexivity. Qed.
Example read_4 : read_ipv6 (bs "1::2::3") = None.
Proof. reflexivity. Qed.
Example read_5 : read_ipv6 (bs ":1:2:3:4:5:6:7:8") = None.
Proof. reflexivity. Qed.

(** ** Hexadecimal numbers *)

Lemma hex_digit_value d : 0 <= d < 16 -> hex_value (hex_digit d) = Some d /\ hex_digit d <> colon.
Proof.
  intros Hd. assert (Hu : ub (hex_digit d) = if d <? 10 then 48 + d else 87 + d).
  { unfold hex_digit. rewrite ub_bz. apply Z.mod_small. destruct (d <? 10) eqn:E; lia. }
  split.
  - unfold hex_value. rewrite Hu. destruct (Z.ltb_spec d 10).
    + by assert ((48 <=? 48 + d) && (48 + d <=? 57) = true) as -> by lia; f_equal; lia.
    + assert ((48 <=? 87 + d) && (87 + d <=? 57) = false) as -> by lia.
      by assert ((97 <=? 87 + d) && (87 + d <=? 102) = true) as -> by lia; f_equal; lia.
  - intros E. apply (f_equal ub) in E. rewrite Hu in E. change (ub colon) with 58 in E. destruct (d <? 10) eqn:Ed; lia.
Qed.

Lemma read_hex_app a x y :
  read_hex_from a (x ++ y) = match read_hex_from a x with Some b => read_hex_from b y | None => None end.
Proof. revert a. induction x as [|c x IH]; intros a; [done|]. cbn. by destruct (hex_value c). Qed.

(** What show_hex puts in front of [acc]: [m] bounds the number of digits. *)
Lemma hex_show m fuel n acc :
  (m <= fuel)%nat -> 0 <= n < 16 ^ Z.of_nat m -> (0 < m)%nat ->
  exists ds, show_hex_fuel fuel n acc = ds ++ acc /\ Forall (fun c => c <> colon) ds /\ (0 < length ds <= m)%nat /\
    exists k, forall a, read_hex_from a ds = Some (a * k + n).
Proof.
  revert m n acc. induction fuel as [|fuel IH]; intros m n acc Hmf Hn Hm; [lia|].
  cbn [show_hex_fuel]. pose proof (Z.mod_pos_bound n 16 ltac:(lia)) as Hd.
  destruct (hex_digit_value (n mod 16) Hd) as [Hv Hc]. destruct (Z.ltb_spec n 16) as [Hlt|Hge].
  - exists [hex_digit (n mod 16)]. repeat split; [by repeat constructor|cbn; lia|cbn; lia|].
    exists 16. intros a. cbn. rewrite Hv. by rewrite (Z.mod_small n) by lia.
  - destruct m as [|m]; [lia|]. rewrite Nat2Z.inj_succ, Z.pow_succ_r in Hn by lia.
    assert (Hm0 : (0 < m)%nat) by (destruct m; [cbn in Hn; lia|lia]).
    destruct (IH m (n / 16) (hex_digit (n mod 16) :: acc)) as (ds & Es & Hds & Hl & k & Hk); [lia| |done|].
    { split; [by apply Z.div_pos; lia|]. apply Z.div_lt_upper_bound; lia. }
    exists (ds ++ [hex_digit (n mod 16)]). rewrite <- app_assoc. split; [done|]. split.
    + apply Forall_app. split; [done|by repeat constructor].
    + split; [rewrite length_app; cbn; lia|]. exists (k * 16). intros a.
      rewrite read_hex_app, Hk. cbn. rewrite Hv. f_equal. pose proof (Z_div_mod_eq_full n 16). lia.
Qed.

Lemma show_hex_group g :
  0 <= g < 65536 -> read_group (show_hex g) = Some g /\ Forall (fun c => c <> colon) (show_hex g) /\ show_hex g <> [].
Proof.
  intros Hg. unfold show_hex. set (fuel := Z.to_nat (Z.log2 g + 1)). pose proof (Z.log2_nonneg g).
  destruct (hex_show (Nat.min 4 fuel) fuel g []) as (ds & Es & Hds & Hl & k & Hk); [lia| |lia|].
  - split; [lia|]. destruct (Nat.min_spec 4 fuel) as [[_ ->]|[_ ->]]; [change (16 ^ Z.of_nat 4) with 65536; lia|].
    unfold fuel. rewrite Z2Nat.id by lia. apply (Z.lt_le_trans _ (2 ^ (Z.log2 g + 1))).
    + destruct (decide (g = 0)) as [-> |]; [done|]. rewrite Z.add_1_r. apply Z.log2_spec. lia.
    + apply Z.pow_le_mono_l. lia.
  - rewrite Es, app_nil_r. split; [|by split; [|destruct ds; [cbn in Hl; lia|]]].
    unfold read_group, zlen. assert ((1 <=? Z.of_nat (length ds)) && (Z.of_nat (length ds) <=? 4) = true) as -> by lia.
    rewrite Hk. f_equal; lia.
Qed.

(** ** Splitting *)

(** The groups as printed behind a first one. *)
Definition tail_text (l : list Z) : bytes := concat (map (fun g => colon :: show_hex g) l).

Lemma split_part a t : Forall (fun c => c <> colon) a -> split_colon (a ++ colon :: t) = a :: split_colon t.
Proof.
  induction 1 as [|c a Hc _ IH]; [done|]. cbn [app split_colon]. rewrite bool_decide_false by done. by rewrite IH.
Qed.

Lemma split_last a : Forall (fun c => c <> colon) a -> split_colon a = [a].
Proof. induction 1 as [|c a Hc _ IH]; [done|]. cbn [split_colon]. rewrite bool_decide_false by done. by rewrite IH. Qed.

Definition group (g : Z) : Prop := 0 <= g < 65536.

Lemma split_tail a l : Forall (fun c => c <> colon) a -> Forall group l ->
  split_colon (a ++ tail_text l) = a :: map show_hex l.
Proof.
  intros Ha Hl. revert a Ha. induction Hl as [|g l Hg _ IH]; intros a Ha; [by rewrite app_nil_r; apply split_last|].
  unfold tail_text. cbn [map concat app]. fold (tail_text l). rewrite split_part by done. f_equal. cbn [map].
  apply IH. by apply show_hex_group.
Qed.

Lemma split_tail_gap a l t : Forall (fun c => c <> colon) a -> Forall group l ->
  split_colon (a ++ tail_text l ++ colon :: t) = a :: map show_hex l ++ split_colon t.
Proof.
  intros Ha Hl. revert a Ha. induction Hl as [|g l Hg _ IH]; intros a Ha; [by apply split_part|].
  unfold tail_text. cbn [map concat app]. fold (tail_text l). rewrite <- app_assoc, split_part by done. f_equal. cbn [map app].
  apply IH. by apply show_hex_group.
Qed.

Lemma read_shown l : Forall group l -> read_groups (map show_hex l) = Some l.
Proof.
  induction 1 as [|g l Hg _ IH]; [done|]. unfold read_groups in *. cbn [map mapM].
  destruct (show_hex_group g Hg) as [-> _]. cbn. by rewrite IH.
Qed.

Lemma before_gap_shown l ps : Forall group l -> before_gap (map show_hex l ++ [] :: ps) = (map show_hex l, Some ps).
Proof.
  induction 1 as [|g l Hg _ IH]; [done|]. cbn [map app before_gap]. rewrite IH.
  destruct (show_hex_group g Hg) as (_ & _ & Hne). by destruct (show_hex g).
Qed.

Lemma before_gap_none l : Forall group l -> before_gap (map show_hex l) = (map show_hex l, None).
Proof.
  induction 1 as [|g l Hg _ IH]; [done|]. cbn [map before_gap]. rewrite IH.
  destruct (show_hex_group g Hg) as (_ & _ & Hne). by destruct (show_hex g).
Qed.

(** ** The text of an address *)

(** A text with a gap: the groups before and behind it. *)
Definition gap_text (pre post : list Z) : bytes :=
  (match pre with [] => [] | g :: l => show_hex g ++ tail_text l end) ++
  colon :: (match post with [] => [colon] | _ => tail_text post end).

Lemma read_full g l :
  Forall group (g :: l) -> length (g :: l) = 8%nat -> read_ipv6 (show_hex g ++ tail_text l) = Some (g :: l).
Proof.
  intros Hl Hn. unfold read_ipv6. pose proof Hl as [Hg Hl']%Forall_cons.
  rewrite (split_tail (show_hex g) l) by (done || by apply show_hex_group).
  change (show_hex g :: map show_hex l) with (map show_hex (g :: l)). rewrite before_gap_none by done.
  rewrite read_shown by done. cbn [mbind option_bind]. by rewrite Hn.
Qed.

Lemma split_gap_text pre post :
  Forall group pre -> Forall group post ->
  split_colon (gap_text pre post) =
    (match pre with [] => [[]] | _ => map show_hex pre end) ++ [] :: (match post with [] => [[]] | _ => map show_hex post end).
Proof.
  intros Hpre Hpost. unfold gap_text.
  assert (Ht : split_colon (match post with [] => [colon] | _ => tail_text post end) =
    [] :: match post with [] => [[]] | _ => map show_hex post end).
  { destruct post as [|p post]; [done|]. by apply (split_tail [] (p :: post)). }
  destruct pre as [|g l]; [by rewrite (split_part []), Ht|]. apply Forall_cons in Hpre as [Hg Hl].
  rewrite <- app_assoc, split_tail_gap by (done || by apply show_hex_group). by rewrite Ht.
Qed.

Lemma read_gap pre post :
  Forall group pre -> Forall group post -> (length pre + length post < 8)%nat ->
  read_ipv6 (gap_text pre post) = Some (pre ++ replicate (8 - length pre - length post) 0 ++ post).
Proof.
  intros Hpre Hpost Hn. unfold read_ipv6. rewrite split_gap_text by done.
  set (tail := match post with [] => _ | _ => _ end).
  assert (Hr : read_groups (match tail with [[]] => [] | _ => tail end) = Some post).
  { unfold tail. destruct post as [|p post]; [done|]. rewrite <- (read_shown (p :: post)) by done.
    apply Forall_cons in Hpost as [Hp _]. destruct (show_hex_group p Hp) as (_ & _ & Hne).
    cbn [map]. by destruct (show_hex p) eqn:E. }
  assert (Hlt : (length pre + length post <? 8)%nat = true) by by apply Nat.ltb_lt.
  destruct pre as [|g l].
  - cbn [app before_gap mbind option_bind]. change (read_groups []) with (Some (@nil Z)). cbn [mbind option_bind].
    rewrite Hr. cbn [mbind option_bind]. by rewrite Hlt.
  - rewrite before_gap_shown by done. cbn [map]. cbn [mbind option_bind].
    change (show_hex g :: map show_hex l) with (map show_hex (g :: l)). rewrite read_shown by done. cbn [mbind option_bind].
    rewrite Hr. cbn [mbind option_bind]. by rewrite Hlt.
Qed.

Section texts.
Context {host : Host}.
Abbreviation net16 := (byteswapOnLittleEndian uint16_t).

Lemma loop_used l : forall i prev, insert6_loop (S i) prev true l = (tail_text (map net16 l), true).
Proof.
  induction l as [|g l IH]; intros i prev; [done|]. cbn [insert6_loop map]. rewrite andb_false_r. cbn [orb andb negb].
  rewrite IH, andb_false_r. done.
Qed.

Lemma loop_zeros n post : forall i,
  match post with [] => True | g :: _ => g <> 0 end ->
  insert6_loop (S i) 0 false (replicate n 0 ++ post) =
    match post with [] => ([], false) | _ => (colon :: tail_text (map net16 post), true) end.
Proof.
  induction n as [|n IH]; intros i Hp; [|by cbn; apply IH]. destruct post as [|g post]; [done|]. cbn [replicate app insert6_loop].
  destruct (Z.eqb_spec g 0); [done|]. cbn [andb negb orb Nat.eqb]. rewrite loop_used. done.
Qed.

Lemma loop_nonzero l rest : forall i prev,
  Forall (fun g => g <> 0) l -> prev <> 0 -> exists prev' i', prev' <> 0 /\
    insert6_loop (S i) prev false (l ++ rest) =
      (tail_text (map net16 l) ++ (insert6_loop (S i') prev' false rest).1, (insert6_loop (S i') prev' false rest).2).
Proof.
  induction l as [|g l IH]; intros i prev Hl Hprev.
  - exists prev, i. split; [done|]. cbn [app map]. by destruct (insert6_loop (S i) prev false rest).
  - apply Forall_cons in Hl as [Hg Hl]. destruct (IH (S i) g Hl Hg) as (prev' & i' & Hp' & E). exists prev', i'. split; [done|].
    cbn [app insert6_loop map]. destruct (Z.eqb_spec g 0); [done|]. destruct (Z.eqb_spec prev 0); [done|].
    cbn [andb negb orb Nat.eqb]. rewrite E. unfold tail_text. cbn [map concat app]. by rewrite <- !app_assoc.
Qed.

(** A first run of zeros, if any. *)
Lemma zero_run (l : list Z) : exists pre n post,
  l = pre ++ replicate n 0 ++ post /\ Forall (fun g => g <> 0) pre /\ (n = O -> post = []) /\
  match post with [] => True | g :: _ => g <> 0 end.
Proof.
  induction l as [|g l (pre & n & post & -> & Hpre & Hn & Hp)]; [by exists [], O, []|].
  destruct (decide (g = 0)) as [-> |Hg].
  - destruct pre as [|h pre]; [by exists [], (S n), post|].
    exists [], 1%nat, (h :: pre ++ replicate n 0 ++ post). apply Forall_cons in Hpre as [Hh _]. by repeat split.
  - exists (g :: pre), n, post. repeat split; [|done|done]. by constructor.
Qed.

Lemma nth_replicate_0 i n : nth i (replicate n 0) 0 = 0.
Proof. revert i. induction n as [|n IH]; intros [|i]; cbn; [done|done|done|apply IH]. Qed.

Lemma groups_text l :
  length l = 8%nat -> Forall (fun g => group (net16 g)) l -> net16 0 = 0 ->
  read_ipv6 (insert6_groups l) = Some (map net16 l).
Proof.
  intros Hlen Hl H0. destruct (zero_run l) as (pre & n & post & E & Hpre & Hn & Hp).
  assert (Hmap : map net16 l = map net16 pre ++ replicate n 0 ++ map net16 post).
  { rewrite E, !map_app. do 2 f_equal. clear -H0. induction n as [|n IH]; [done|]. cbn. by rewrite IH, H0. }
  assert (Hg : Forall group (map net16 l)) by (by apply Forall_map).
  rewrite Hmap in Hg |- *. rewrite !Forall_app in Hg. destruct Hg as (Hg1 & _ & Hg2).
  assert (Hc : (length pre + n + length post = 8)%nat) by (rewrite E, !length_app, length_replicate in Hlen; lia).
  assert (Hgap : (0 < n)%nat -> read_ipv6 (gap_text (map net16 pre) (map net16 post)) =
    Some (map net16 pre ++ replicate n 0 ++ map net16 post)).
  { intros. rewrite read_gap by (done || rewrite !length_map; lia). rewrite !length_map. repeat f_equal. lia. }
  unfold insert6_groups. assert (Hlast : n = O \/ post <> [] \/ nth 7 l 0 = 0).
  { destruct n; [by left|]. right. destruct post; [right|by left]. rewrite app_nil_r in E. subst l. cbn in Hc.
    rewrite app_nth2 by lia. by rewrite nth_replicate_0. }
  destruct pre as [|g pre].
  - destruct n as [|n]; [by rewrite (Hn eq_refl) in Hc|]. rewrite <- Hgap by lia.
    assert (insert6_loop 0 0 false l = match post with [] => ([], false) | _ => (colon :: tail_text (map net16 post), true) end) as ->.
    { rewrite E. by apply (loop_zeros n post 0). }
    destruct post as [|p post]; [by destruct Hlast as [?|[?| ->]]|]. cbn [negb andb]. by rewrite app_nil_r.
  - apply Forall_cons in Hpre as [Hg0 Hpre]. destruct (loop_nonzero pre (replicate n 0 ++ post) 0 g Hpre Hg0) as (prev & i & Hprev & El).
    rewrite E at 1. cbn [app insert6_loop]. destruct (Z.eqb_spec g 0); [done|]. cbn [Nat.eqb negb andb orb app]. rewrite El.
    destruct n as [|n].
    + rewrite (Hn eq_refl) in *. cbn [replicate app insert6_loop fst snd negb andb]. rewrite app_nil_r in E |- *. cbn [replicate app] in E.
      assert (Hnz : nth 7 l 0 <> 0).
      { rewrite E. apply (proj1 (List.Forall_nth (fun g => g <> 0) (g :: pre))); [by constructor|cbn in *; lia]. }
      destruct (Z.eqb_spec (nth 7 l 0) 0); [done|]. cbn [map]. rewrite !app_nil_r. apply (read_full (net16 g) (map net16 pre)); [done|].
      cbn. rewrite length_map. cbn in Hc. lia.
    + rewrite <- Hgap by lia. cbn [replicate app insert6_loop Z.eqb negb andb]. rewrite loop_zeros by done.
      unfold gap_text. cbn [map]. destruct post as [|p post]; cbn [fst snd negb andb map].
      * destruct Hlast as [?|[?| ->]]; [done|done|]. by rewrite app_nil_r, <- !app_assoc.
      * by rewrite app_nil_r, <- !app_assoc.
Qed.

Lemma in_u16 z : 0 <= z < 65536 -> in_range uint16_t z.
Proof. done. Qed.

Lemma net16_pair a b : 0 <= a < 256 -> 0 <= b < 256 -> net16 (unrepr uint16_t [bz a; bz b]) = 256 * a + b.
Proof.
  intros Ha Hb. unfold unrepr, byteswapOnLittleEndian, LINKO_BYTE_ORDER. destruct host_big; cbn [LINKO_BIG_ENDIAN LINKO_LITTLE_ENDIAN Z.eqb Pos.eqb].
  - cbn [rev app le_value]. rewrite !ub_bz, !Z.mod_small by lia. rewrite cast_id; [lia|apply in_u16; lia].
  - unfold byteswap, bswap. cbn [sizeof]. set (v := cast uint16_t (le_value [_; _])).
    assert (Ev : v = a + 256 * b).
    { unfold v. cbn [le_value]. rewrite !ub_bz, !Z.mod_small by lia. rewrite cast_id; [lia|apply in_u16; lia]. }
    rewrite Ev. change (bits uint16_t) with 16. rewrite wrap_small by (change (0 <= a + 256 * b < 65536); lia). cbn [le_bytes rev app le_value].
    rewrite !ub_bz. assert (Hd : (a + 256 * b) / 256 = b) by (Z.to_euclidean_division_equations; lia).
    assert (Hm : (a + 256 * b) mod 256 = a) by (Z.to_euclidean_division_equations; lia).
    rewrite Hd, Hm, (Z.mod_small b) by lia. rewrite cast_id; [lia|apply in_u16; lia].
Qed.

(** The groups the bytes of an address stand for, most significant byte first. *)
Fixpoint be_groups (l : list Z) : list Z :=
  match l with a :: b :: l => 256 * a + b :: be_groups l | _ => [] end.

Lemma net16_groups n : forall l, length l = (2 * n)%nat -> Forall (fun b => 0 <= b < 256) l ->
  map net16 (groups l) = be_groups l /\ length (groups l) = n /\ Forall (fun g => group (net16 g)) (groups l).
Proof.
  induction n as [|n IH]; intros l Hn Hl; [by destruct l|]. destruct l as [|a [|b l]]; [cbn in Hn; lia|cbn in Hn; lia|].
  apply Forall_cons in Hl as [Ha Hl]. apply Forall_cons in Hl as [Hb Hl].
  destruct (IH l) as (E & El & Hg); [cbn in Hn; lia|done|]. cbn [groups map be_groups length].
  rewrite net16_pair, E, El by done. repeat split. constructor; [|done]. rewrite net16_pair by done. unfold group. lia.
Qed.

(** C20: insert prints an IPv6 address as a text that names the same address in
    the notation of RFC 4291, on hosts of both byte orders: the first run of zero
    groups, and only that one, becomes a double colon. *)
Theorem ipv6_text_roundtrip (x : sockaddr_in6) :
  length (s6_addr x) = 16%nat -> Forall (fun b => 0 <= b < 256) (s6_addr x) ->
  exists text, insert6 x = bs "[" ++ text ++ bs "]:" ++ show_dec (net16 (sin6_port x)) /\
    read_ipv6 text = Some (be_groups (s6_addr x)).
Proof.
  intros Hn Hl. exists (insert6_groups (groups (s6_addr x))). split; [done|].
  destruct (net16_groups 8 (s6_addr x) Hn Hl) as (E & El & Hg). rewrite <- E. apply groups_text; [done|done|].
  pose proof (net16_pair 0 0 ltac:(lia) ltac:(lia)) as H0.
  by replace (unrepr uint16_t [bz 0; bz 0]) with 0 in H0 by (unfold unrepr; by destruct host_big).
Qed.
End texts.

Lemma ipv6_text_roundtrip_witness :
  let x := mkSin6 AF_INET6 0x901f 0 [0x20; 1; 0xd; 0xb8; 0; 0; 0; 0; 0; 1; 0; 0; 0; 0; 0; 1] 0 in
  insert6 (host := false) x = bs "[2001:db8::1:0:0:1]:8080" /\
  exists text, insert6 (host := false) x = bs "[" ++ text ++ bs "]:" ++ show_dec (byteswapOnLittleEndian (host := false) uint16_t (sin6_port x)) /\
    read_ipv6 text = Some [0x2001; 0xdb8; 0; 0; 1; 0; 0; 1].
Proof.
  split; [vm_compute; reflexivity|].
  apply (ipv6_text_roundtrip (host := false) (mkSin6 AF_INET6 0x901f 0 [0x20; 1; 0xd; 0xb8; 0; 0; 0; 0; 0; 1; 0; 0; 0; 0; 0; 1] 0));
    [reflexivity|repeat constructor; lia].
Defined.

(** ** Order *)

Section order.
Context {host : Host}.

(** The bytes an address is compared by. *)
Definition sort_key (a : Address) : bytes := ztake (getAddrLen a) (raw a).
(** The length lies within the structure. *)
Definition addr_ok (a : Address) : Prop := 0 <= getAddrLen a <= zlen (raw a).

(** Comparing the common length, then the lengths, is comparing the keys. *)
Lemma strcmp_prefix a : forall b n,
  n = Nat.min (length a) (length b) ->
  (strcmp a b <? 0) = (strcmp (take n a) (take n b) <? 0) || (strcmp (take n a) (take n b) =? 0) && (length a <? length b)%nat.
Proof.
  induction a as [|x a IH]; intros [|y b] n ->; [done|done|done|]. cbn [length Nat.min take strcmp].
  destruct (ub x <? ub y); [done|]. destruct (ub y <? ub x); [done|]. by apply IH.
Qed.

Lemma op_lt_key a b : addr_ok a -> addr_ok b -> op_lt a b = (strcmp (sort_key a) (sort_key b) <? 0).
Proof.
  intros Ha Hb. unfold addr_ok in *. set (n := Nat.min (Z.to_nat (getAddrLen a)) (Z.to_nat (getAddrLen b))).
  assert (Hla : length (sort_key a) = Z.to_nat (getAddrLen a)) by (unfold sort_key, ztake, zlen in *; rewrite length_take; lia).
  assert (Hlb : length (sort_key b) = Z.to_nat (getAddrLen b)) by (unfold sort_key, ztake, zlen in *; rewrite length_take; lia).
  rewrite (strcmp_prefix _ _ n) by by rewrite Hla, Hlb. unfold sort_key at 1 2 3 4, ztake. rewrite !take_take.
  unfold op_lt, memcmp, ztake. replace (Z.to_nat (Z.min (getAddrLen a) (getAddrLen b))) with n by lia.
  rewrite !Nat.min_l by lia. rewrite Hla, Hlb. set (r := strcmp _ _).
  destruct (Z.ltb_spec r 0); [done|]. destruct (Z.ltb_spec 0 r).
  - by destruct (Z.eqb_spec r 0); [lia|].
  - assert ((r =? 0) = true) as -> by lia. cbn [orb andb].
    destruct (Z.ltb_spec (getAddrLen a) (getAddrLen b)), (Nat.ltb_spec (Z.to_nat (getAddrLen a)) (Z.to_nat (getAddrLen b))); done || lia.
Qed.

Lemma op_eq_key a b : addr_ok a -> addr_ok b -> op_eq a b = bool_decide (sort_key a = sort_key b).
Proof.
  intros Ha Hb. unfold addr_ok in *. unfold op_eq, memcmp. destruct (Z.eqb_spec (getAddrLen a) (getAddrLen b)) as [E|E].
  - unfold sort_key. rewrite <- E. cbn [andb]. case_bool_decide as Hk; [by rewrite Hk, strcmp_refl|].
    apply Z.eqb_neq. intros H0. by apply Hk, strcmp_eq.
  - cbn [andb]. rewrite bool_decide_false; [done|]. intros Hk. apply (f_equal length) in Hk.
    unfold sort_key, ztake, zlen in *. rewrite !length_take in Hk. lia.
Qed.

(** Operator< is a strict total order on addresses, and operator== the
    equality that goes with it: of two addresses exactly one is less or they are
    equal, and being less is transitive. *)
Theorem address_order (a b c : Address) :
  addr_ok a -> addr_ok b -> addr_ok c ->
  (op_lt a b = true -> op_lt b c = true -> op_lt a c = true) /\
  (op_lt a b = true -> op_lt b a = false /\ op_eq a b = false) /\
  (op_eq a b = true -> op_lt a b = false /\ op_lt b a = false) /\
  (op_lt a b = false -> op_lt b a = false -> op_eq a b = true).
Proof.
  intros Ha Hb Hc. rewrite !op_lt_key, op_eq_key by done. rewrite (strcmp_antisym (sort_key a) (sort_key b)).
  pose proof (strcmp_trans (sort_key a) (sort_key b) (sort_key c)) as Ht. repeat split; intros; try lia.
  - case_bool_decide as Hk; [|done]. rewrite Hk, strcmp_refl in *. lia.
  - case_bool_decide as Hk; [|done]. rewrite Hk, strcmp_refl. lia.
  - case_bool_decide as Hk; [|done]. rewrite Hk, strcmp_refl. lia.
  - apply bool_decide_eq_true. apply strcmp_eq. lia.
Qed.
End order.

(** Two addresses that differ in their last byte, and a longer one. *)
Definition demo_addr (n : Z) : Address := IPv4Address (IPv4Address_new (host := false) n 80).
Lemma address_order_witness :
  let a := demo_addr 1 in let b := demo_addr 2 in let c := UnixAddress_new in
  (addr_ok (host := false) a /\ addr_ok (host := false) b /\ addr_ok (host := false) c) /\
  op_lt (host := false) a b = true /\ op_lt (host := false) c a = true /\
  (op_lt (host := false) a b = false -> op_lt (host := false) b a = false -> op_eq (host := false) a b = true).
Proof.
  assert (Ha : forall n, addr_ok (host := false) (demo_addr n)).
  { intros n. unfold addr_ok, demo_addr, getAddrLen, raw, zlen. rewrite !length_app, !repr_length. change (sin_zero _) with (zeros 8).
    unfold zeros. rewrite length_replicate. cbn. lia. }
  assert (Hc : addr_ok (host := false) UnixAddress_new) by (vm_compute; split; discriminate).
  split; [split; [apply Ha|split; [apply Ha|exact Hc]]|]. split; [vm_compute; reflexivity|]. split; [vm_compute; reflexivity|].
  apply (address_order (host := false) (demo_addr 1) (demo_addr 2) UnixAddress_new (Ha 1) (Ha 2) Hc).
Defined.

(** ** Masks *)

(** The mask of a prefix: its first [n] bits. *)
Definition mask32 (n : Z) : Z := 2 ^ 32 - 2 ^ (32 - n).

Lemma CreateMask32 {S} n (s : S) : 1 <= n <= 32 -> CreateMask uint32_t n s = Ret (mask32 n - 2) s.
Proof.
  intros Hn. unfold CreateMask, shl1. change (bits uint32_t) with 32. rewrite wrap_small by (change (0 <= 32 - n < 18446744073709551616); lia).
  assert ((0 <=? 32 - n) && (32 - n <? 32) = true) as -> by lia.
  unfold mret, M_ret, mbind, M_bind. f_equal. change (cast uint32_t ?z) with (wrap 32 z). unfold Z.lnot.
  replace (Z.pred (- i32 (2 ^ (32 - n))) - 1) with (- 2 - i32 (2 ^ (32 - n))) by lia.
  unfold wrap. rewrite <- Zminus_mod_idemp_r. change (i32 ?z mod 2 ^ 32) with (wrap 32 (swrap 32 z)).
  rewrite wrap_swrap by lia. unfold wrap. rewrite Zminus_mod_idemp_r. unfold mask32.
  assert (0 < 2 ^ (32 - n)) by (apply Z.pow_pos_nonneg; lia).
  assert (2 ^ (32 - n) <= 2 ^ 31) by (apply Z.pow_le_mono_r; lia).
  symmetry. apply (Zmod_unique _ _ (-1)); lia.
Qed.

Section masks.
Context {host : Host} {S : Type}.
Abbreviation net32 := (byteswapOnLittleEndian uint32_t).

Lemma net32_net32 v : in_u 32 v -> net32 (net32 v) = v.
Proof.
  intros Hv. unfold byteswapOnLittleEndian. destruct (LINKO_BYTE_ORDER =? LINKO_BIG_ENDIAN); [done|]. by apply byteswap_byteswap.
Qed.

(** C21: the mask of a prefix length is two less than the mask of its first
    bits, for every length that has one, and network addresses are cut with it;
    the prefix length 0 shifts an int by its width, and the IPv6 methods write
    behind the address for a prefix length from 128 on. *)
Theorem subnet_masks (n : Z) (x : sockaddr_in) (y : sockaddr_in6) (s : S) :
  (1 <= n <= 32 ->
     (exists m, subnetMask4 n s = Ret (Some m) s /\ net32 (s_addr m) = mask32 n - 2) /\
     networdAddress4 n x s = Ret (Some (with_s_addr (Z.land (s_addr x) (net32 (mask32 n - 2))) x)) s) /\
  (32 < n -> networdAddress4 n x s = Ret None s /\ broadcastAddress4 n x s = Ret None s) /\
  networdAddress4 0 x s = Crash BadShift /\ subnetMask4 0 s = Crash BadShift /\
  (128 <= n -> length (s6_addr y) = 16%nat ->
     networdAddress6 n y s = Crash OutOfBounds /\ broadcastAddress6 n y s = Crash OutOfBounds /\
     subnetMask6 n s = Crash OutOfBounds).
Proof.
  split; [|split; [|split; [|split]]]; [| |done|done|].
  - intros Hn. split.
    + unfold subnetMask4. step_with (CreateMask32 n s Hn). eexists. split; [done|]. cbn. apply net32_net32.
      unfold mask32, in_u. assert (0 < 2 ^ (32 - n)) by (apply Z.pow_pos_nonneg; lia).
      assert (2 ^ (32 - n) <= 2 ^ 31) by (apply Z.pow_le_mono_r; lia). lia.
    + unfold networdAddress4. destruct (Z.ltb_spec 32 n); [lia|]. by step_with (CreateMask32 n s Hn).
  - intros Hn. unfold networdAddress4, broadcastAddress4. by destruct (Z.ltb_spec 32 n); [|lia].
  - intros Hn Hy. assert (Hm : exists m, CreateMask uint8_t (n mod 8) s = Ret m s).
    { unfold CreateMask, shl1. change (bits uint8_t) with 8. pose proof (Z.mod_pos_bound n 8 ltac:(lia)).
      rewrite wrap_small by (change (0 <= 8 - n mod 8 < 18446744073709551616); lia). assert ((0 <=? 8 - n mod 8) && (8 - n mod 8 <? 32) = true) as -> by lia. by eexists. }
    destruct Hm as [m Em]. assert (Hd : 16 <= n / 8) by (apply Z.div_le_lower_bound; lia).
    unfold networdAddress6, broadcastAddress6, subnetMask6.
    assert (Hout : forall f l, length l = 16%nat -> on_byte (S := S) (n / 8) f l s = Crash OutOfBounds).
    { intros f l Hl. unfold on_byte, zlen. rewrite Hl. by destruct (Z.ltb_spec (n / 8) (Z.of_nat 16)); [lia|]. }
    repeat split; step_with Em; apply bind_Crash; by apply Hout.
Qed.

(** The prefix length GetInterfaceAddress counts from a mask is the one of the
    mask, in both byte orders. *)
Lemma count_masks n : 0 <= n <= 32 -> CountBytes uint32_t (net32 (mask32 n)) = n.
Proof.
  intros Hn. assert (H : forallb (fun n => CountBytes uint32_t (net32 (mask32 n)) =? n) (seqZ 0 33) = true)
    by (destruct host; vm_compute; reflexivity).
  rewrite forallb_forall in H. apply Z.eqb_eq, H, list_elem_of_In, elem_of_seqZ. lia.
Qed.
End masks.

(** The network of 192.168.1.77/24 comes out as 192.168.0.76. *)
Lemma subnet_masks_witness :
  let x := IPv4Address_new (host := false) 0xC0A8014D 80 in
  (exists m, subnetMask4 (host := false) 24 tt = Ret (Some m) tt /\ byteswapOnLittleEndian (host := false) uint32_t (s_addr m) = 0xFFFFFF00 - 2) /\
  insert4 (host := false) (with_s_addr (Z.land (s_addr x) (byteswapOnLittleEndian (host := false) uint32_t (mask32 24 - 2))) x) = bs "192.168.0.76:80" /\
  networdAddress4 (host := false) 24 x tt =
    Ret (Some (with_s_addr (Z.land (s_addr x) (byteswapOnLittleEndian (host := false) uint32_t (mask32 24 - 2))) x)) tt /\
  subnetMask6 (S := unit) 128 tt = Crash OutOfBounds.
Proof.
  destruct (subnet_masks (host := false) 24 (IPv4Address_new (host := false) 0xC0A8014D 80) IPv6Address_new tt) as [H1 _].
  destruct (H1 ltac:(lia)) as [Hm Hn].
  split; [exact Hm|]. split; [vm_compute; reflexivity|]. split; [exact Hn|].
  apply (subnet_masks (host := false) 128 (IPv4Address_new (host := false) 0 0) IPv6Address_new tt); [lia|reflexivity].
Defined.

(** ** Node and service *)

Lemma find_at (a b : bytes) c : c ∉ a -> list_find (fun x => x = c) (a ++ c :: b) = Some (length a, c).
Proof.
  intros Ha. apply list_find_Some. split; [by apply list_lookup_middle|]. split; [done|].
  intros j y Hj Hlt ->. rewrite lookup_app_l in Hj by done. by apply Ha, (list_elem_of_lookup_2 _ j).
Qed.

Lemma find_none (s : bytes) c : c ∉ s -> list_find (fun x => x = c) s = None.
Proof. intros Hs. apply list_find_None, Forall_forall. by intros x Hx ->. Qed.

Lemma zdrop_length {A} (a b : list A) : zdrop (zlen a) (a ++ b) = b.
Proof. rewrite zdrop_app_ge, Z.sub_diag by lia. apply zdrop_0. Qed.
Lemma ztake_length {A} (a b : list A) : ztake (zlen a) (a ++ b) = a.
Proof. rewrite ztake_app_le, ztake_all by lia. done. Qed.

Lemma memchr_found pre a c b : c ∉ a -> memchr (zlen pre) c (pre ++ a ++ c :: b) = Some (zlen pre + zlen a).
Proof. intros Ha. unfold memchr. by rewrite zdrop_length, find_at. Qed.
Lemma memchr_missing pre s c : c ∉ s -> memchr (zlen pre) c (pre ++ s) = None.
Proof. intros Hs. unfold memchr. by rewrite zdrop_length, find_none. Qed.

Lemma memchr_first a c b : c ∉ a -> memchr 0 c (a ++ c :: b) = Some (zlen a).
Proof. apply (memchr_found []). Qed.
Lemma memchr_never s c : c ∉ s -> memchr 0 c s = None.
Proof. apply (memchr_missing []). Qed.

(** A part without NUL, colon and brackets. *)
Definition plain (s : bytes) : Prop := (bz 0 ∉ s) /\ (bz 58 ∉ s) /\ (bz 91 ∉ s) /\ (bz 93 ∉ s).

Lemma c_str_plain s : bz 0 ∉ s -> c_str s = s.
Proof.
  induction s as [|c s IH]; intros Hs; [done|]. apply not_elem_of_cons in Hs as [Hc Hs]. cbn [c_str].
  destruct (Z.eqb_spec (ub c) 0) as [E|]; [|by rewrite IH]. destruct Hc. apply ub_inj. by rewrite E.
Qed.

Lemma not_bracketed s : bz 91 ∉ s -> lookup_bracketed s = ([], None).
Proof.
  intros Hs. unfold lookup_bracketed. rewrite bool_decide_false; [done|]. destruct s as [|c s]; [done|].
  intros [= ->]. apply Hs. by left.
Qed.

(** What Lookup asks the resolver for: a name alone, a name and a port, or a
    bracketed IPv6 address with or without a port.  An IPv6 address without
    brackets is asked for with the rest of itself from its first colon on as the
    service. *)
Theorem lookup_forms (node port : bytes) :
  plain node -> node <> [] -> plain port ->
  lookup_args node = (node, None) /\
  lookup_args (node ++ bz 58 :: port) = (node, Some port) /\
  (forall a, a <> [] -> bz 93 ∉ a -> bz 0 ∉ a ->
     lookup_args (bz 91 :: a ++ bz 93 :: bz 58 :: port) = (a, Some port) /\
     lookup_args (bz 91 :: a ++ [bz 93]) = (a, None)) /\
  (forall rest, bz 91 ∉ rest -> bz 0 ∉ rest ->
     lookup_args (node ++ bz 58 :: port ++ bz 58 :: rest) =
       (node ++ bz 58 :: port ++ bz 58 :: rest, Some (bz 58 :: port ++ bz 58 :: rest))).
Proof.
  intros (N0 & Nc & No & Nb) Hne (P0 & Pc & Po & Pb). assert (Hn : forall A (x y : A), match node with [] => x | _ => y end = y) by (by destruct node).
  assert (Hsplit : forall x, lookup_bracketed x = ([], None) -> forall rest, x = node ++ bz 58 :: rest ->
    lookup_args x = match memchr (zlen (node ++ [bz 58])) (bz 58) x with
      | None => (c_str node, Some (c_str rest))
      | Some _ => (c_str x, Some (c_str (bz 58 :: rest))) end).
  { intros x Hb rest ->. unfold lookup_args. rewrite Hb, memchr_first by done.
    replace (zlen node + 1) with (zlen (node ++ [bz 58])) by by rewrite zlen_app.
    destruct (memchr (zlen (node ++ [bz 58]))) as [j|].
    - by rewrite zdrop_length.
    - rewrite ztake_length. replace (node ++ bz 58 :: rest) with ((node ++ [bz 58]) ++ rest) by by rewrite <- app_assoc.
      rewrite zdrop_length. by destruct node. }
  split; [|split; [|split]].
  - unfold lookup_args. rewrite not_bracketed by done. rewrite memchr_never by done. by rewrite c_str_plain.
  - rewrite (Hsplit _) with (rest := port); [|apply not_bracketed|done].
    + replace (node ++ bz 58 :: port) with ((node ++ [bz 58]) ++ port) by by rewrite <- app_assoc.
      rewrite memchr_missing by done. by rewrite !c_str_plain.
    + rewrite not_elem_of_app, not_elem_of_cons. by repeat split.
  - intros a Ha Hb H0. assert (Hc : c_str a = a) by by apply c_str_plain.
    assert (Hs : forall rest, slice 1 (1 + zlen a - 1) (bz 91 :: a ++ bz 93 :: rest) = a).
    { intros rest. unfold slice. replace (1 + zlen a - 1) with (zlen a) by lia.
      change (zdrop 1 (bz 91 :: a ++ bz 93 :: rest)) with (a ++ bz 93 :: rest). apply ztake_length. }
    assert (Hl : forall rest, memchr 1 (bz 93) (bz 91 :: a ++ bz 93 :: rest) = Some (1 + zlen a))
      by (intros; by apply (memchr_found [bz 91] a (bz 93) rest)).
    assert (Ht : forall rest, (bz 91 :: a ++ bz 93 :: rest) !! Z.to_nat (1 + zlen a + 1) = head rest).
    { intros rest. unfold zlen. replace (Z.to_nat _) with (S (length a + 1)) by lia.
      transitivity ((a ++ bz 93 :: rest) !! (length a + 1)%nat); [done|]. rewrite lookup_app_r by lia.
      replace (length a + 1 - length a)%nat with 1%nat by lia. by destruct rest. }
    split; unfold lookup_args, lookup_bracketed; rewrite bool_decide_true by done; rewrite Hl, Hs, Ht; cbn [head].
    + rewrite bool_decide_true by done. destruct a as [|c a]; [done|].
      replace (bz 91 :: (c :: a) ++ bz 93 :: bz 58 :: port) with ((bz 91 :: (c :: a) ++ [bz 93; bz 58]) ++ port) by (cbn; by rewrite <- app_assoc).
      replace (1 + zlen (c :: a) + 2) with (zlen (bz 91 :: (c :: a) ++ [bz 93; bz 58]))
        by (unfold zlen; cbn [length app]; rewrite length_app; cbn [length]; lia).
      rewrite zdrop_length. by rewrite Hc, c_str_plain.
    + destruct a as [|c a]; [done|]. by rewrite bool_decide_false, Hc.
  - intros rest Ro R0. assert (Hrest : (bz 91 ∉ (node ++ bz 58 :: port ++ bz 58 :: rest)) /\ (bz 0 ∉ (node ++ bz 58 :: port ++ bz 58 :: rest))).
    { rewrite !not_elem_of_app, !not_elem_of_cons, !not_elem_of_app, !not_elem_of_cons. by repeat split. }
    rewrite (Hsplit _) with (rest := port ++ bz 58 :: rest); [|by apply not_bracketed, Hrest|done].
    replace (memchr _ _ _) with (Some (zlen (node ++ [bz 58]) + zlen port)).
    + rewrite !c_str_plain; [done| |by apply Hrest]. destruct Hrest as [_ Hr]. rewrite not_elem_of_app in Hr. by apply Hr.
    + rewrite <- (memchr_found (node ++ [bz 58]) port (bz 58) rest) by done. f_equal. by rewrite <- !app_assoc.
Qed.

Lemma lookup_forms_witness :
  plain (bs "example.org") /\ plain (bs "80") /\
  lookup_args (bs "example.org:80") = (bs "example.org", Some (bs "80")) /\
  lookup_args (bs "[::1]:80") = (bs "::1", Some (bs "80")) /\
  lookup_args (bs "fe80:1:2") = (bs "fe80:1:2", Some (bs ":1:2")).
Proof.
  assert (Hp : forall s, forallb (fun c => negb (existsb (Z.eqb (ub c)) [0; 58; 91; 93])) s = true -> plain s).
  { intros s H. rewrite forallb_forall in H. unfold plain.
    repeat split; intros Hin; apply list_elem_of_In, H in Hin; vm_compute in Hin; discriminate. }
  assert (H1 : plain (bs "example.org")) by (apply Hp; reflexivity). assert (H2 : plain (bs "80")) by (apply Hp; reflexivity).
  assert (H3 : plain (bs "fe80")) by (apply Hp; reflexivity). assert (H4 : plain (bs "1")) by (apply Hp; reflexivity).
  split; [exact H1|]. split; [exact H2|].
  split; [apply (lookup_forms (bs "example.org") (bs "80") H1 ltac:(discriminate) H2)|].
  assert (Hc : forall c s, forallb (fun x => negb (ub x =? ub c)) s = true -> c ∉ s).
  { intros c s H Hin. rewrite forallb_forall in H. apply list_elem_of_In, H in Hin. by rewrite Z.eqb_refl in Hin. }
  split.
  - destruct (lookup_forms (bs "example.org") (bs "80") H1 ltac:(discriminate) H2) as (_ & _ & Hb & _).
    apply (Hb (bs "::1")); [discriminate|apply Hc; reflexivity|apply Hc; reflexivity].
  - destruct (lookup_forms (bs "fe80") (bs "1") H3 ltac:(discriminate) H4) as (_ & _ & _ & Hu).
    apply (Hu (bs "2")); apply Hc; reflexivity.
Defined.
