(* ===== verification/Servlet.v ===== *)
(** linko/http/servlet.{h,cc}: servlets and the dispatcher that finds the one for
    a path. *)
From S2P Require Import Prelude Http.
Import Http.Response.
Open Scope Z_scope.

Section servlet.
(** The state of the session a servlet may use. *)
Context {S : Type}.

(** A call of [handle]: the request and the response are shared objects it may
    change; the result is the returned number and what they have become. *)
Definition callback : Type := HttpRequest -> HttpResponse -> M S (Z * HttpRequest * HttpResponse).

(** A servlet by its class; [UserServlet] is any class of the program's own, a
    nested dispatcher included. *)
Inductive Servlet :=
| FunctionServlet (cb : callback)
| NotFoundServlet
| UserServlet (cb : callback).

Definition RSP_BODY : bytes :=
  bs "<html><head><title>404 Not Found" ++
  bs "</title></head><body><center><h1>404 Not Found</h1></center>" ++
  bs "<hr><center>linko/1.0.0</center></body></html>".

Definition NOT_FOUND : HttpStatus := 404.

Definition not_found_handle : callback := fun request response =>
  let response := setStatus NOT_FOUND response in
  let response := setHeader (bs "Server") (bs "linko/1.0.0") response in
  let response := setHeader (bs "Content-Type") (bs "text/html") response in
  let response := setBody RSP_BODY response in
  mret (0, request, response).

Definition handle (slt : Servlet) : callback :=
  match slt with
  | FunctionServlet cb | UserServlet cb => cb
  | NotFoundServlet => not_found_handle
  end.

(** A [Servlet::ptr]. *)
Definition servlet_ptr : Type := option Servlet.

Record ServletDispatch := mkDispatch {
  m_datas : gmap bytes servlet_ptr;
  m_globs : list (bytes * servlet_ptr);
  m_default : servlet_ptr
}.

Definition ServletDispatch_new : ServletDispatch := mkDispatch ∅ [] (Some NotFoundServlet).

Definition addServlet (uri : bytes) (slt : servlet_ptr) (d : ServletDispatch) : ServletDispatch :=
  mkDispatch (<[uri := slt]> (m_datas d)) (m_globs d) (m_default d).
Definition addServlet_cb (uri : bytes) (cb : callback) (d : ServletDispatch) : ServletDispatch :=
  mkDispatch (<[uri := Some (FunctionServlet cb)]> (m_datas d)) (m_globs d) (m_default d).

(** The loop that erases the first entry of that name and breaks. *)
Fixpoint erase_first (uri : bytes) (l : list (bytes * servlet_ptr)) : list (bytes * servlet_ptr) :=
  match l with
  | [] => []
  | e :: l => if decide (e.1 = uri) then l else e :: erase_first uri l
  end.
Definition addGlobServlet (uri : bytes) (slt : servlet_ptr) (d : ServletDispatch) : ServletDispatch :=
  mkDispatch (m_datas d) (erase_first uri (m_globs d) ++ [(uri, slt)]) (m_default d).
Definition addGlobServlet_cb (uri : bytes) (cb : callback) (d : ServletDispatch) : ServletDispatch :=
  addGlobServlet uri (Some (FunctionServlet cb)) d.
Definition delServlet (uri : bytes) (d : ServletDispatch) : ServletDispatch :=
  mkDispatch (delete uri (m_datas d)) (m_globs d) (m_default d).
Definition delGlobServlet (uri : bytes) (d : ServletDispatch) : ServletDispatch :=
  mkDispatch (m_datas d) (erase_first uri (m_globs d)) (m_default d).
Definition getDefault (d : ServletDispatch) : servlet_ptr := m_default d.
Definition setDefault (v : servlet_ptr) (d : ServletDispatch) : ServletDispatch := mkDispatch (m_datas d) (m_globs d) v.

Definition getServlet (uri : bytes) (d : ServletDispatch) : servlet_ptr := mjoin (m_datas d !! uri).
Fixpoint glob_find (p : bytes -> bool) (l : list (bytes * servlet_ptr)) : option servlet_ptr :=
  match l with
  | [] => None
  | e :: l => if p e.1 then Some e.2 else glob_find p l
  end.
Definition getGlobalServlet (uri : bytes) (d : ServletDispatch) : servlet_ptr :=
  mjoin (glob_find (fun k => bool_decide (k = uri)) (m_globs d)).

(** [fnmatch(pattern, string, 0) == 0]. *)
Definition getMatchedServlet (fnmatch : bytes -> bytes -> bool) (uri : bytes) (d : ServletDispatch) : servlet_ptr :=
  match m_datas d !! uri with
  | Some slt => slt
  | None =>
    match glob_find (fun k => fnmatch (c_str k) (c_str uri)) (m_globs d) with
    | Some slt => slt
    | None => m_default d
    end
  end.

Definition dispatch_handle (fnmatch : bytes -> bytes -> bool) (d : ServletDispatch) : callback := fun request response =>
  match getMatchedServlet fnmatch (Http.m_path request) d with
  | Some slt => r ← handle slt request response; mret (0, r.1.2, r.2)
  | None => mret (0, request, response)
  end.
End servlet.
Arguments Servlet : clear implicits.
Arguments servlet_ptr : clear implicits.
Arguments callback : clear implicits.
Arguments ServletDispatch : clear implicits.
