(* ===== verification/ServletThms.v ===== *)
(** The dispatcher finds the servlet that its whole history of registrations
    says. *)
From S2P Require Import Prelude Http Servlet.
From stdpp Require Import list gmap.
Open Scope Z_scope.

Section servlet_thms.
Context {S : Type}.
Abbreviation ptr := (servlet_ptr S).
Implicit Type d : ServletDispatch S.

(** ** Histories *)

Inductive reg :=
| RServlet (uri : bytes) (slt : ptr)
| RServletCb (uri : bytes) (cb : callback S)
| RGlob (uri : bytes) (slt : ptr)
| RGlobCb (uri : bytes) (cb : callback S)
| RDel (uri : bytes)
| RDelGlob (uri : bytes)
| RDefault (v : ptr).

Definition run_reg (d : ServletDispatch S) (r : reg) : ServletDispatch S :=
  match r with
  | RServlet uri slt => addServlet uri slt d
  | RServletCb uri cb => addServlet_cb uri cb d
  | RGlob uri slt => addGlobServlet uri slt d
  | RGlobCb uri cb => addGlobServlet_cb uri cb d
  | RDel uri => delServlet uri d
  | RDelGlob uri => delGlobServlet uri d
  | RDefault v => setDefault v d
  end.
Definition run_regs (rs : list reg) : ServletDispatch S := foldl run_reg ServletDispatch_new rs.

(** What a call does to the exact names, to the patterns and to the default: the
    name it concerns, and what it leaves there. *)
Definition exact_effect (r : reg) : option (bytes * option ptr) :=
  match r with
  | RServlet uri slt => Some (uri, Some slt)
  | RServletCb uri cb => Some (uri, Some (Some (FunctionServlet cb)))
  | RDel uri => Some (uri, None)
  | _ => None
  end.
Definition glob_effect (r : reg) : option (bytes * option ptr) :=
  match r with
  | RGlob uri slt => Some (uri, Some slt)
  | RGlobCb uri cb => Some (uri, Some (Some (FunctionServlet cb)))
  | RDelGlob uri => Some (uri, None)
  | _ => None
  end.

(** The registrations no later call concerns, oldest first. *)
Definition touches (effect : reg -> option (bytes * option ptr)) (k : bytes) (r : reg) : bool :=
  match effect r with Some (k', _) => bool_decide (k' = k) | None => false end.
Definition adds (effect : reg -> option (bytes * option ptr)) (r : reg) : list (bytes * ptr) :=
  match effect r with Some (k, Some slt) => [(k, slt)] | _ => [] end.
Fixpoint live (effect : reg -> option (bytes * option ptr)) (rs : list reg) : list (bytes * ptr) :=
  match rs with
  | [] => []
  | r :: rs => List.filter (fun e => negb (existsb (touches effect e.1) rs)) (adds effect r) ++ live effect rs
  end.
Definition last_default (rs : list reg) : ptr :=
  foldl (fun v r => match r with RDefault v' => v' | _ => v end) (Some NotFoundServlet) rs.

(** The oldest of the registrations whose name satisfies [p]: the head of the list
    of them all. *)
Definition oldest (p : bytes -> bool) (l : list (bytes * ptr)) : option ptr :=
  snd <$> head (List.filter (fun e => p e.1) l).

(** The servlet for a path: the one registered under it, else the one of the
    oldest pattern that matches, else the default. *)
Definition expected (fnmatch : bytes -> bytes -> bool) (rs : list reg) (uri : bytes) : ptr :=
  match oldest (fun k => bool_decide (k = uri)) (live exact_effect rs) with
  | Some slt => slt
  | None =>
    match oldest (fun k => fnmatch (c_str k) (c_str uri)) (live glob_effect rs) with
    | Some slt => slt
    | None => last_default rs
    end
  end.

(** ** Lemmas *)

Lemma live_snoc effect rs r :
  live effect (rs ++ [r]) = List.filter (fun e => negb (touches effect e.1 r)) (live effect rs) ++ adds effect r.
Proof.
  induction rs as [|x rs IH]; cbn [app live].
  - unfold adds. by destruct (effect r) as [[k [slt|]]|].
  - rewrite IH, List.filter_app, app_assoc. do 2 f_equal. unfold adds. destruct (effect x) as [[k [slt|]]|]; [|done|done].
    cbn [List.filter fst]. rewrite existsb_app. cbn [existsb]. rewrite orb_false_r.
    destruct (existsb (touches effect k) rs); cbn; [done|]. by destruct (touches effect k r).
Qed.

Lemma live_nodup effect rs : NoDup (live effect rs).*1.
Proof.
  induction rs as [|r rs IH] using rev_ind; [constructor|]. rewrite live_snoc, fmap_app. apply NoDup_app. split; [|split].
  - clear -IH. induction (live effect rs) as [|e l IHl]; [constructor|]. cbn in IH |- *. apply NoDup_cons in IH as [Hn IH].
    destruct (negb _); [|by apply IHl]. cbn. apply NoDup_cons. split; [|by apply IHl].
    intros Hin. apply Hn. apply list_elem_of_fmap in Hin as (x & -> & Hx). apply list_elem_of_fmap. exists x. split; [done|].
    apply list_elem_of_In, List.filter_In in Hx as [Hx _]. by apply list_elem_of_In.
  - intros k Hk. unfold adds. apply list_elem_of_fmap in Hk as (x & -> & Hx). apply list_elem_of_In, List.filter_In in Hx as [_ Hx].
    unfold touches in Hx. destruct (effect r) as [[k [slt|]]|]; [|cbn; set_solver|cbn; set_solver].
    case_bool_decide as Hd; [done|]. cbn. set_solver.
  - unfold adds. destruct (effect r) as [[k [slt|]]|]; cbn; [|constructor|constructor]. by apply NoDup_singleton.
Qed.

Lemma erase_first_filter k (l : list (bytes * ptr)) :
  NoDup l.*1 -> erase_first k l = List.filter (fun e => negb (bool_decide (k = e.1))) l.
Proof.
  induction l as [|e l IH]; [done|]. cbn. intros [Hn Hl]%NoDup_cons. destruct (decide (e.1 = k)) as [E|E].
  - rewrite bool_decide_true by done. cbn. symmetry. apply List.forallb_filter_id, forallb_forall. intros x Hx.
    rewrite bool_decide_false; [done|]. intros Ek. apply Hn. rewrite E, Ek. apply list_elem_of_fmap_2. by apply list_elem_of_In.
  - rewrite bool_decide_false by done. cbn. by rewrite IH.
Qed.

Lemma globs_live rs : m_globs (run_regs rs) = live glob_effect rs.
Proof.
  induction rs as [|r rs IH] using rev_ind; [done|]. unfold run_regs. rewrite foldl_app. cbn [foldl]. fold (run_regs rs).
  rewrite live_snoc. pose proof (live_nodup glob_effect rs) as Hn.
  assert (Hall : forall l : list (bytes * ptr), List.filter (fun _ => true) l = l) by (intros l; apply List.forallb_filter_id, forallb_forall; done).
  destruct r; cbn; rewrite IH, ?app_nil_r, ?Hall; try done; by rewrite erase_first_filter.
Qed.

Lemma glob_find_oldest p (l : list (bytes * ptr)) : glob_find p l = oldest p l.
Proof. unfold oldest. induction l as [|e l IH]; cbn; [done|]. destruct (p e.1); [done|]. by rewrite IH. Qed.

Lemma find_filter k p (l : list (bytes * ptr)) :
  glob_find (fun x => bool_decide (x = k)) (List.filter (fun e => p e.1) l) =
    if p k then glob_find (fun x => bool_decide (x = k)) l else None.
Proof.
  induction l as [|e l IH]; cbn; [by destruct (p k)|]. destruct (p e.1) eqn:E; cbn.
  - case_bool_decide as Hk; [by rewrite <- Hk, E|done].
  - rewrite IH. case_bool_decide as Hk; [by rewrite <- Hk, E|done].
Qed.

Lemma find_app p (l1 l2 : list (bytes * ptr)) :
  glob_find p (l1 ++ l2) = match glob_find p l1 with Some x => Some x | None => glob_find p l2 end.
Proof. induction l1 as [|e l IH]; cbn; [done|]. by destruct (p e.1). Qed.

Lemma datas_live rs k : m_datas (run_regs rs) !! k = glob_find (fun x => bool_decide (x = k)) (live exact_effect rs).
Proof.
  induction rs as [|r rs IH] using rev_ind; [apply lookup_empty|].
  unfold run_regs. rewrite foldl_app. cbn [foldl]. fold (run_regs rs). rewrite live_snoc, find_app.
  assert (Hf : glob_find (fun x => bool_decide (x = k)) (List.filter (fun e => negb (touches exact_effect e.1 r)) (live exact_effect rs)) =
    if touches exact_effect k r then None else m_datas (run_regs rs) !! k).
  { rewrite (find_filter k (fun x => negb (touches exact_effect x r))), IH. by destruct (touches exact_effect k r). }
  rewrite Hf. clear IH Hf. assert (Ho : forall o : option ptr, match o with Some x => Some x | None => None end = o) by (by intros []).
  destruct r as [u slt|u cb|u slt|u cb|u|u|v]; cbn [run_reg]; cbn; unfold touches; cbn [exact_effect]; rewrite ?Ho; try done.
  - rewrite lookup_insert. case_bool_decide as Hk; [by rewrite decide_True by done|]. by rewrite decide_False, Ho by done.
  - rewrite lookup_insert. case_bool_decide as Hk; [by rewrite decide_True by done|]. by rewrite decide_False, Ho by done.
  - rewrite lookup_delete. case_bool_decide as Hk; [by rewrite decide_True by done|]. by rewrite decide_False by done.
Qed.

Lemma default_last rs : m_default (run_regs rs) = last_default rs.
Proof.
  induction rs as [|r rs IH] using rev_ind; [done|]. unfold run_regs, last_default. rewrite !foldl_app. cbn [foldl].
  fold (run_regs rs). fold (last_default rs). by destruct r.
Qed.

(** C22: after any history of registrations the dispatcher hands a request to the
    servlet the history says: the last one registered under exactly its path and
    not deleted since, else the one of the first matching pattern in the order in
    which the patterns were last added, else the default; it returns 0 whatever
    the servlet returns. *)
Theorem dispatch_by_history (fnmatch : bytes -> bytes -> bool) (rs : list reg) (uri : bytes) :
  getMatchedServlet fnmatch uri (run_regs rs) = expected fnmatch rs uri /\
  forall request response s,
    dispatch_handle fnmatch (run_regs rs) request response s =
      match expected fnmatch rs (Http.m_path request) with
      | None => Ret (0, request, response) s
      | Some slt => match handle slt request response s with
                    | Ret (_, request', response') s' => Ret (0, request', response') s'
                    | Throw e s' => Throw e s'
                    | Crash c => Crash c
                    end
      end.
Proof.
  assert (Hm : forall uri, getMatchedServlet fnmatch uri (run_regs rs) = expected fnmatch rs uri).
  { intros. unfold getMatchedServlet, expected. by rewrite datas_live, globs_live, default_last, !glob_find_oldest. }
  split; [done|]. intros request response s. unfold dispatch_handle. rewrite Hm. destruct (expected fnmatch rs _) as [slt|]; [|done].
  unfold mbind, M_bind. by destruct (handle slt request response s) as [[[? ?] ?] ?| |].
Qed.
End servlet_thms.
