(* ===== verification/Socket.v ===== *)
(** linko/socket.{h,cc}: a socket.  The system calls it makes are the ones
    linko/hook.cc replaces; they are an interface here. *)
From S2P Require Import Prelude Endian Http Address.
Open Scope Z_scope.

Definition SOCK_STREAM : Z := 1.
Definition SOCK_DGRAM : Z := 2.
Definition SOL_SOCKET : Z := 1.
Definition SO_REUSEADDR : Z := 2.
Definition SO_ERROR : Z := 4.
Definition SO_RCVTIMEO : Z := 20.
Definition SO_SNDTIMEO : Z := 21.
Definition IPPROTO_TCP : Z := 6.
Definition TCP_NODELAY : Z := 1.
Definition SOMAXCONN : Z := 4096.

(** What FdMgr::get tells a socket about a descriptor. *)
Record fd_info := mkFdInfo { fi_isSocket : bool; fi_isClosed : bool; fi_recvTimeout : Z; fi_sendTimeout : Z }.

(** The value of an option: an int, or a timeval in its two members. *)
Inductive optval := OInt (v : Z) | OTime (sec usec : Z).

(** The system calls, over the state [N] of everything outside the object:
    [-1] and [None] and [false] are failures. *)
Class SocketApi (N : Type) := {
  sys_socket : Z -> Z -> Z -> N -> Z * N;
  sys_bind : Z -> Address -> N -> bool * N;
  sys_connect : Z -> Address -> option Z -> N -> bool * N;
  sys_listen : Z -> Z -> N -> bool * N;
  sys_accept : Z -> N -> Z * N;
  sys_close : Z -> N -> N;
  sys_send : Z -> bytes -> option Address -> N -> Z * N;
  sys_recv : Z -> Z -> N -> option (bytes * Address) * N;
  sys_getpeername : Z -> Address -> N -> option Address;
  sys_getsockname : Z -> Address -> N -> option Address;
  sys_getsockopt : Z -> Z -> Z -> N -> option Z;
  sys_setsockopt : Z -> Z -> Z -> optval -> N -> bool * N;
  fd_get : Z -> N -> option fd_info;
  io_cancel : Z -> Z -> N -> bool * N;
  io_cancelAll : Z -> N -> bool * N
}.

Record Socket := mkSocket {
  m_sock : Z;
  m_family : Z;
  m_type : Z;
  m_protocol : Z;
  m_isConnected : bool;
  m_localAddress : option Address;
  m_remoteAddress : option Address
}.

Definition set_sock (v : Z) (s : Socket) : Socket :=
  mkSocket v (m_family s) (m_type s) (m_protocol s) (m_isConnected s) (m_localAddress s) (m_remoteAddress s).
Definition set_connected (v : bool) (s : Socket) : Socket :=
  mkSocket (m_sock s) (m_family s) (m_type s) (m_protocol s) v (m_localAddress s) (m_remoteAddress s).
Definition set_local (v : Address) (s : Socket) : Socket :=
  mkSocket (m_sock s) (m_family s) (m_type s) (m_protocol s) (m_isConnected s) (Some v) (m_remoteAddress s).
Definition set_remote (v : Address) (s : Socket) : Socket :=
  mkSocket (m_sock s) (m_family s) (m_type s) (m_protocol s) (m_isConnected s) (m_localAddress s) (Some v).

Definition Socket_new (family type protocol : Z) : Socket := mkSocket (-1) family type protocol false None None.
Definition CreateTCP (address : Address) : Socket := Socket_new (getFamily address) SOCK_STREAM 0.
Definition CreateUDP (address : Address) : Socket := Socket_new (getFamily address) SOCK_DGRAM 0.
Definition CreateTCPSocket : Socket := Socket_new AF_INET SOCK_STREAM 0.
Definition CreateUDPSocket : Socket := Socket_new AF_INET SOCK_DGRAM 0.
Definition CreateTCPSocket6 : Socket := Socket_new AF_INET6 SOCK_STREAM 0.
Definition CreateUDPSocket6 : Socket := Socket_new AF_INET6 SOCK_DGRAM 0.
Definition CreateUnixTCPSocket : Socket := Socket_new AF_UNIX SOCK_STREAM 0.
Definition CreateUnixUDPSocket : Socket := Socket_new AF_UNIX SOCK_DGRAM 0.

Definition isValid (s : Socket) : bool := negb (m_sock s =? -1).

Section socket.
Context {host : Host} {N : Type} `{SocketApi N}.
(** A method runs on the object and the outside. *)
Abbreviation SM := (M (Socket * N)).

Definition sock : SM Socket := s ← get; mret s.1.
Definition on_sock (f : Socket -> Socket) : SM unit := modify (fun s => (f s.1, s.2)).
Definition syscall {A} (f : N -> A * N) : SM A := fun s => let '(a, n) := f s.2 in Ret a (s.1, n).
Definition ask {A} (f : N -> A) : SM A := s ← get; mret (f s.2).

Definition getTimeout (type : Z) : SM Z :=
  s ← sock;
  ctx ← ask (fd_get (m_sock s));
  match ctx with
  | Some c => mret (i64 (if type =? SO_RCVTIMEO then fi_recvTimeout c else fi_sendTimeout c))
  | None => mret (-1)
  end.
Definition getSendTimeout : SM Z := getTimeout SO_SNDTIMEO.
Definition getRecvTimeout : SM Z := getTimeout SO_RCVTIMEO.

Definition setOption (level opt : Z) (v : optval) : SM bool :=
  s ← sock; syscall (sys_setsockopt (m_sock s) level opt v).
Definition getOption (level opt : Z) : SM (option Z) :=
  s ← sock; ask (sys_getsockopt (m_sock s) level opt).
(** [int(v / 1000)] and [int(v % 1000 * 1000)], which round towards zero. *)
Definition timeval_of (v : Z) : optval := OTime (i32 (Z.quot v 1000)) (i32 (Z.rem v 1000 * 1000)).
Definition setSendTimeout (v : Z) : SM bool := setOption SOL_SOCKET SO_SNDTIMEO (timeval_of v).
Definition setRecvTimeout (v : Z) : SM bool := setOption SOL_SOCKET SO_SNDTIMEO (timeval_of v).
Definition getError : SM Z :=
  e ← getOption SOL_SOCKET SO_ERROR; mret (match e with Some v => v | None => -1 end).

(** The object a getpeername or getsockname is to fill. *)
Definition blank_address (family : Z) : Address :=
  if family =? AF_INET then IPv4Address (IPv4Address_new 0 0)
  else if family =? AF_INET6 then IPv6Address IPv6Address_new
  else if family =? AF_UNIX then UnixAddress_new
  else UnknownAddress_new family.
Definition getRemoteAddress : SM Address :=
  s ← sock;
  match m_remoteAddress s with
  | Some a => mret a
  | None =>
    r ← ask (sys_getpeername (m_sock s) (blank_address (m_family s)));
    match r with
    | None => mret (UnknownAddress_new (m_family s))
    | Some a => on_sock (set_remote a);; mret a
    end
  end.
Definition getLocalAddress : SM Address :=
  s ← sock;
  match m_localAddress s with
  | Some a => mret a
  | None =>
    r ← ask (sys_getsockname (m_sock s) (blank_address (m_family s)));
    match r with
    | None => mret (UnknownAddress_new (m_family s))
    | Some a => on_sock (set_local a);; mret a
    end
  end.

Definition initSock : SM unit :=
  s ← sock;
  setOption SOL_SOCKET SO_REUSEADDR (OInt 1);;
  (if m_type s =? SOCK_STREAM then setOption IPPROTO_TCP TCP_NODELAY (OInt 1);; mret tt else mret tt).
Definition newSock : SM unit :=
  s ← sock;
  fd ← syscall (sys_socket (m_family s) (m_type s) (m_protocol s));
  on_sock (set_sock fd);;
  if fd =? -1 then mret tt else initSock.

(** [init]: takes a descriptor over. *)
Definition init (fd : Z) : SM bool :=
  ctx ← ask (fd_get fd);
  match ctx with
  | Some c =>
    if fi_isSocket c && negb (fi_isClosed c) then
      on_sock (set_sock fd);; on_sock (set_connected true);;
      initSock;; getLocalAddress;; getRemoteAddress;; mret true
    else mret false
  | None => mret false
  end.

(** The body both [bind] and [connect] begin with. *)
Definition ensure_sock : SM bool :=
  s ← sock;
  if isValid s then mret true else newSock;; s ← sock; mret (isValid s).

Definition bind (addr : Address) : SM bool :=
  ok ← ensure_sock;
  if negb ok then mret false else
  s ← sock;
  if negb (getFamily addr =? m_family s) then mret false else
  r ← syscall (sys_bind (m_sock s) addr);
  if (r : bool) then getLocalAddress;; mret true else mret false.

Definition close : SM bool :=
  s ← sock;
  if negb (m_isConnected s) && (m_sock s =? -1) then mret true else
  on_sock (set_connected false);;
  (if m_sock s =? -1 then mret tt else
   syscall (fun n => (tt, sys_close (m_sock s) n));; on_sock (set_sock (-1)));;
  mret false.

Definition connect (addr : Address) (timeout_ms : Z) : SM bool :=
  ok ← ensure_sock;
  if negb ok then mret false else
  s ← sock;
  if negb (getFamily addr =? m_family s) then mret false else
  r ← syscall (sys_connect (m_sock s) addr (if timeout_ms =? u64 (-1) then None else Some timeout_ms));
  if (r : bool) then
    on_sock (set_connected true);; getRemoteAddress;; getLocalAddress;; mret true
  else close;; mret false.

Definition listen (backlog : Z) : SM bool :=
  s ← sock;
  if negb (isValid s) then mret false else syscall (sys_listen (m_sock s) backlog).

(** Both forms of send and sendTo: the bytes of the buffer, or of the regions in
    their order. *)
Definition send (data : bytes) : SM Z :=
  s ← sock; if m_isConnected s then syscall (sys_send (m_sock s) data None) else mret (-1).
Definition sendTo (data : bytes) (to : Address) : SM Z :=
  s ← sock; if negb (m_isConnected s) then syscall (sys_send (m_sock s) data (Some to)) else mret (-1).
Definition sendTo_iov (data : bytes) (to : Address) : SM Z :=
  s ← sock; if m_isConnected s then syscall (sys_send (m_sock s) data (Some to)) else mret (-1).
(** recv: the bytes stored in the buffer; [None] is -1. *)
Definition recv (length : Z) : SM (option bytes) :=
  s ← sock;
  if m_isConnected s then r ← syscall (sys_recv (m_sock s) length); mret (option_map fst r) else mret None.
Definition recvFrom (length : Z) : SM (option (bytes * Address)) :=
  s ← sock; if m_isConnected s then syscall (sys_recv (m_sock s) length) else mret None.

Definition cancelRead : SM bool := s ← sock; syscall (io_cancel (m_sock s) 1).
Definition cancelWrite : SM bool := s ← sock; syscall (io_cancel (m_sock s) 4).
Definition cancelAccept : SM bool := s ← sock; syscall (io_cancel (m_sock s) 1).
Definition cancelAll : SM bool := s ← sock; syscall (io_cancelAll (m_sock s)).

(** ~Socket. *)
Definition Socket_delete : SM unit := close;; mret tt.

(** [accept]: the new object, and the destruction of the one that is given up. *)
Definition accept : SM (option Socket) :=
  s ← sock;
  newsock ← syscall (sys_accept (m_sock s));
  if newsock =? -1 then mret None else
  fun st =>
    match (init newsock) (Socket_new (m_family s) (m_type s) (m_protocol s), st.2) with
    | Ret true (new, n) => Ret (Some new) (st.1, n)
    | Ret false st' => match Socket_delete st' with
                       | Ret _ (_, n) => Ret None (st.1, n)
                       | Throw e st'' => Throw e (st.1, st''.2)
                       | Crash c => Crash c
                       end
    | Throw e st' => Throw e (st.1, st'.2)
    | Crash c => Crash c
    end.

Definition dump : SM bytes :=
  s ← sock;
  local ← match m_localAddress s with Some a => t ← Address.toString a; mret (bs " local_address" ++ t) | None => mret [] end;
  remote ← match m_remoteAddress s with Some a => t ← Address.toString a; mret (bs " local_address" ++ t) | None => mret [] end;
  mret (bs "[Socket sock=" ++ (if m_sock s <? 0 then bs "-" ++ show_dec (- m_sock s) else show_dec (m_sock s))
    ++ bs " is_connected=" ++ (if m_isConnected s then bs "1" else bs "0")
    ++ bs " family=" ++ show_dec (m_family s) ++ bs " type=" ++ show_dec (m_type s)
    ++ bs " protocol=" ++ show_dec (m_protocol s) ++ local ++ remote ++ bs "]").
End socket.
