(* ===== verification/SocketThms.v ===== *)
(** The sockets of a program own their descriptors, those that accept makes too. *)
From S2P Require Import Prelude Endian Http Address Socket.
From stdpp Require Import gmap.
Open Scope Z_scope.

(** What the system calls do to the table of open descriptors. *)
Class SocketLaws (N : Type) `{SocketApi N} := {
  open_fds : N -> gset Z;
  law_socket f t p n : let r := sys_socket f t p n in
    (r.1 = -1 /\ open_fds r.2 = open_fds n) \/
    (r.1 <> -1 /\ (r.1 ∉ open_fds n) /\ open_fds r.2 = {[r.1]} ∪ open_fds n);
  law_accept fd n : let r := sys_accept fd n in
    (r.1 = -1 /\ open_fds r.2 = open_fds n) \/
    (r.1 <> -1 /\ (r.1 ∉ open_fds n) /\ open_fds r.2 = {[r.1]} ∪ open_fds n);
  law_close fd n : open_fds (sys_close fd n) = open_fds n ∖ {[fd]};
  law_bind fd a n : open_fds (sys_bind fd a n).2 = open_fds n;
  law_connect fd a t n : open_fds (sys_connect fd a t n).2 = open_fds n;
  law_listen fd b n : open_fds (sys_listen fd b n).2 = open_fds n;
  law_send fd d a n : open_fds (sys_send fd d a n).2 = open_fds n;
  law_recv fd l n : open_fds (sys_recv fd l n).2 = open_fds n;
  law_setsockopt fd l o v n : open_fds (sys_setsockopt fd l o v n).2 = open_fds n;
  law_cancel fd e n : open_fds (io_cancel fd e n).2 = open_fds n;
  law_cancelAll fd n : open_fds (io_cancelAll fd n).2 = open_fds n
}.

(** Total correctness: from a state with [P] the computation returns, with [Q]. *)
Definition hoare {St A} (P : St -> Prop) (m : M St A) (Q : A -> St -> Prop) : Prop :=
  forall st, P st -> exists a st', m st = Ret a st' /\ Q a st'.

Lemma hoare_bind {St A B} (P : St -> Prop) (m : M St A) (f : A -> M St B) Q R :
  hoare P m Q -> (forall a, hoare (Q a) (f a) R) -> hoare P (m ≫= f) R.
Proof.
  intros Hm Hf st HP. destruct (Hm st HP) as (a & st1 & E & HQ). destruct (Hf a st1 HQ) as (b & st2 & E2 & HR).
  exists b, st2. by step_with E.
Qed.
Lemma hoare_ret {St A} (P : St -> Prop) (a : A) (Q : A -> St -> Prop) : (forall st, P st -> Q a st) -> hoare P (mret a) Q.
Proof. intros H st HP. exists a, st. split; [done|by apply H]. Qed.
Lemma hoare_pre {St A} (P P' : St -> Prop) (m : M St A) Q : (forall st, P st -> P' st) -> hoare P' m Q -> hoare P m Q.
Proof. intros HP H st Hst. apply H. by apply HP. Qed.
Lemma hoare_post {St A} (P : St -> Prop) (m : M St A) (Q Q' : A -> St -> Prop) :
  (forall a st, Q a st -> Q' a st) -> hoare P m Q -> hoare P m Q'.
Proof. intros HQ H st Hst. destruct (H st Hst) as (a & st' & E & Ha). exists a, st'. split; [done|by apply HQ]. Qed.

Section socket_thms.
Context {host : Host} {N : Type} `{SocketLaws N}.
Abbreviation SM := (M (Socket * N)).

(** The descriptors that were open before the socket was made. *)
Context (others : gset Z).

Definition own (s : Socket) : gset Z := if m_sock s =? -1 then ∅ else {[m_sock s]}.
(** The socket's descriptor is open, and no one else's. *)
Definition owns (st : Socket * N) : Prop :=
  open_fds st.2 = own st.1 ∪ others /\ m_sock st.1 ∉ others.
Definition sock_inv (st : Socket * N) : Prop :=
  owns st /\ (m_isConnected st.1 = true -> isValid st.1 = true).

(** Steps that leave the members the invariant is about alone. *)
Definition frame (m_sock0 : Z) (conn : bool) (st : Socket * N) : Prop :=
  owns st /\ m_sock st.1 = m_sock0 /\ m_isConnected st.1 = conn.
Abbreviation keeps m := (forall fd c, hoare (frame fd c) m (fun _ => frame fd c)).

Lemma keeps_syscall {A} (f : N -> A * N) : (forall n, open_fds (f n).2 = open_fds n) -> keeps (syscall f).
Proof.
  intros Hf fd c [s n] [[Ho Hn] Hr]. cbn in *. destruct (f n) as [a n'] eqn:E. exists a, (s, n'). unfold syscall. cbn. rewrite E.
  split; [done|]. split; [|done]. split; [|done]. cbn. rewrite <- Ho, <- (Hf n). by rewrite E.
Qed.
Lemma keeps_ask {A} (f : N -> A) : keeps (ask f).
Proof. intros fd c st Hst. by exists (f st.2), st. Qed.
Lemma keeps_sock : keeps sock.
Proof. intros fd c st Hst. by exists st.1, st. Qed.
Lemma keeps_ret {A} (a : A) : keeps (mret a).
Proof. intros fd c. by apply hoare_ret. Qed.
Lemma keeps_bind {A B} (m : SM A) (f : A -> SM B) : keeps m -> (forall a, keeps (f a)) -> keeps (m ≫= f).
Proof. intros Hm Hf fd c. by eapply hoare_bind; [apply Hm|intros; apply Hf]. Qed.
Lemma keeps_on (f : Socket -> Socket) :
  (forall s, m_sock (f s) = m_sock s /\ m_isConnected (f s) = m_isConnected s) -> keeps (on_sock f).
Proof.
  intros Hf fd c [s n] [[Ho Hn] [Hs Hc]]. exists tt, (f s, n). split; [done|]. destruct (Hf s) as [E1 E2].
  unfold frame, owns, own in *. cbn in *. by rewrite E1, E2.
Qed.

Ltac keeps_tac :=
  repeat first
    [ apply keeps_ret | apply keeps_sock | apply keeps_ask
    | apply keeps_syscall; intros; first [apply law_bind|apply law_connect|apply law_listen|apply law_send|apply law_recv
        |apply law_setsockopt|apply law_cancel|apply law_cancelAll]
    | apply keeps_on; intros; by split
    | apply keeps_bind; [|intros]
    | match goal with |- context [match ?x with _ => _ end] => destruct x end ].

Lemma keeps_setOption l o v : keeps (setOption l o v).
Proof. unfold setOption. keeps_tac. Qed.
Lemma keeps_initSock : keeps initSock.
Proof. unfold initSock. keeps_tac; apply keeps_setOption. Qed.
Lemma keeps_getRemoteAddress : keeps getRemoteAddress.
Proof. unfold getRemoteAddress. keeps_tac. Qed.
Lemma keeps_getLocalAddress : keeps getLocalAddress.
Proof. unfold getLocalAddress. keeps_tac. Qed.

Lemma inv_frame st : sock_inv st -> frame (m_sock st.1) (m_isConnected st.1) st.
Proof. by intros [Ho _]. Qed.
Lemma frame_inv fd c st : frame fd c st -> (c = true -> fd <> -1) -> sock_inv st.
Proof.
  intros (Ho & Hs & Hc) Hv. split; [done|]. unfold isValid. rewrite Hs, Hc. intros Ht.
  destruct (Z.eqb_spec fd (-1)); [by destruct (Hv Ht)|done].
Qed.
Lemma inv_valid st : sock_inv st -> m_isConnected st.1 = true -> m_sock st.1 <> -1.
Proof. intros [_ Hv] Hc. specialize (Hv Hc). unfold isValid in Hv. by destruct (Z.eqb_spec (m_sock st.1) (-1)). Qed.

Lemma keeps_inv {A} (m : SM A) : keeps m -> hoare sock_inv m (fun _ => sock_inv).
Proof.
  intros Hm st Hi. destruct (Hm _ _ st (inv_frame st Hi)) as (a & st' & E & Hf). exists a, st'. split; [done|].
  apply (frame_inv _ _ _ Hf). by apply inv_valid.
Qed.

Lemma newSock_ok : hoare (frame (-1) false) newSock (fun _ => sock_inv).
Proof.
  intros [s n] (Ho & Hs & Hc). cbn in *. unfold newSock. step_with (eq_refl : sock (s, n) = Ret s (s, n)).
  destruct (sys_socket (m_family s) (m_type s) (m_protocol s) n) as [fd n'] eqn:E.
  assert (Es : syscall (sys_socket (m_family s) (m_type s) (m_protocol s)) (s, n) = Ret fd (s, n')) by (unfold syscall; cbn; by rewrite E).
  step_with Es. step_with (eq_refl : on_sock (set_sock fd) (s, n') = Ret tt (set_sock fd s, n')).
  pose proof (law_socket (m_family s) (m_type s) (m_protocol s) n) as Hl. rewrite E in Hl. cbn in Hl.
  destruct Ho as [Ho Hn]. unfold own in Ho. cbn in Ho. rewrite Hs in Ho. cbn in Ho.
  destruct (Z.eqb_spec fd (-1)) as [-> |Hfd].
  - exists tt, (set_sock (-1) s, n'). split; [done|]. apply (frame_inv (-1) false); [|done].
    destruct Hl as [[_ Hl]|[? _]]; [|done]. unfold frame, owns, own. cbn. by rewrite Hl, <- Hs.
  - destruct Hl as [[? _]|(_ & Hfr & Hl)]; [done|].
    destruct (keeps_initSock fd false (set_sock fd s, n')) as (a & st' & E' & Hf).
    { unfold frame, owns, own. cbn. rewrite Hl, Ho. destruct (Z.eqb_spec fd (-1)); [done|]. set_solver. }
    exists a, st'. split; [done|]. by apply (frame_inv fd false).
Qed.

Lemma ensure_sock_ok : hoare sock_inv ensure_sock (fun ok st => sock_inv st /\ ok = isValid st.1).
Proof.
  intros st Hi. unfold ensure_sock. step_with (eq_refl : sock st = Ret st.1 st). destruct (isValid st.1) eqn:Ev.
  - by exists true, st.
  - assert (Hf : frame (-1) false st).
    { destruct Hi as [Ho Hv]. split; [done|]. unfold isValid in *. destruct (Z.eqb_spec (m_sock st.1) (-1)); [|done].
      split; [done|]. destruct (m_isConnected st.1); [by specialize (Hv eq_refl)|done]. }
    destruct (newSock_ok st Hf) as ([] & st' & E & Hi'). step_with E. step_with (eq_refl : sock st' = Ret st'.1 st').
    by exists (isValid st'.1), st'.
Qed.

(** After [close] nothing is left open. *)
Definition closed (st : Socket * N) : Prop := m_sock st.1 = -1 /\ m_isConnected st.1 = false /\ open_fds st.2 = others.

Lemma closed_inv st : closed st -> (-1 ∉ others) -> sock_inv st.
Proof.
  intros (Hs & Hc & Ho) Hn. split; [|by rewrite Hc]. unfold owns, own. rewrite Hs, Ho. split; [cbn; set_solver|done].
Qed.

Lemma close_ok : hoare sock_inv close (fun _ => closed).
Proof.
  intros [s n] [[Ho Hn] Hv]. unfold own in Ho. cbn in *. unfold close. step_with (eq_refl : sock (s, n) = Ret s (s, n)).
  unfold isValid in Hv. destruct (Z.eqb_spec (m_sock s) (-1)) as [Es|Es].
  - destruct (m_isConnected s) eqn:Ec; [by specialize (Hv eq_refl)|]. exists true, (s, n). split; [done|].
    split; [done|]. split; [done|]. cbn. rewrite Ho. set_solver.
  - rewrite andb_false_r. eexists _, _. split; [done|]. split; [done|]. split; [done|]. cbn. rewrite law_close, Ho. set_solver.
Qed.

Lemma bind_ok a : hoare sock_inv (bind a) (fun _ => sock_inv).
Proof.
  unfold bind. eapply hoare_bind; [apply ensure_sock_ok|]. intros ok. apply (hoare_pre _ sock_inv); [by intros ? []|].
  apply keeps_inv. keeps_tac; apply keeps_getLocalAddress.
Qed.

Lemma connect_ok a t : hoare sock_inv (connect a t) (fun _ st => sock_inv st \/ closed st).
Proof.
  unfold connect. eapply hoare_bind; [apply ensure_sock_ok|]. intros ok st [Hi ->].
  destruct (isValid st.1) eqn:Ev; cbn [negb]; [|by exists false, st; split; [|left]].
  step_with (eq_refl : sock st = Ret st.1 st). destruct (negb _); [by exists false, st; split; [|left]|].
  set (tm := if _ =? _ then None else _).
  destruct (keeps_syscall (sys_connect (m_sock st.1) a tm) (law_connect _ _ _) _ _ st (inv_frame st Hi)) as (r & st1 & E & Hf).
  step_with E. assert (Hs : m_sock st.1 <> -1) by (unfold isValid in Ev; by destruct (Z.eqb_spec (m_sock st.1) (-1))).
  destruct r.
  - step_with (eq_refl : on_sock (set_connected true) st1 = Ret tt (set_connected true st1.1, st1.2)).
    assert (Hk : keeps (getRemoteAddress ;; getLocalAddress ;; mret true)).
    { pose proof keeps_getLocalAddress. pose proof keeps_getRemoteAddress. keeps_tac; done. }
    destruct (Hk (m_sock st.1) true (set_connected true st1.1, st1.2)) as (b & st2 & E2 & Hf2).
    { destruct Hf as (Ho & Hm & _). by split. }
    exists b, st2. split; [done|]. left. by apply (frame_inv _ _ _ Hf2).
  - assert (Hi1 : sock_inv st1) by by apply (frame_inv _ _ _ Hf).
    destruct (close_ok st1 Hi1) as (b & st2 & E2 & Hc). exists false, st2. split; [by step_with E2|by right].
Qed.

(** ** Every use of a socket *)

Inductive sock_op :=
| OpBind (a : Address) | OpConnect (a : Address) (timeout_ms : Z) | OpListen (backlog : Z) | OpClose
| OpSend (d : bytes) | OpSendTo (d : bytes) (a : Address) | OpSendToIov (d : bytes) (a : Address)
| OpRecv (l : Z) | OpRecvFrom (l : Z) | OpSendTimeout (v : Z) | OpRecvTimeout (v : Z) | OpGetTimeout (type : Z)
| OpError | OpLocal | OpRemote | OpCancel (write : bool) | OpCancelAll.

Definition run_sock_op (o : sock_op) : SM unit :=
  match o with
  | OpBind a => bind a;; mret tt
  | OpConnect a t => connect a t;; mret tt
  | OpListen b => listen b;; mret tt
  | OpClose => close;; mret tt
  | OpSend d => send d;; mret tt
  | OpSendTo d a => sendTo d a;; mret tt
  | OpSendToIov d a => sendTo_iov d a;; mret tt
  | OpRecv l => recv l;; mret tt
  | OpRecvFrom l => recvFrom l;; mret tt
  | OpSendTimeout v => setSendTimeout v;; mret tt
  | OpRecvTimeout v => setRecvTimeout v;; mret tt
  | OpGetTimeout ty => getTimeout ty;; mret tt
  | OpError => getError;; mret tt
  | OpLocal => getLocalAddress;; mret tt
  | OpRemote => getRemoteAddress;; mret tt
  | OpCancel w => (if w then cancelWrite else cancelRead);; mret tt
  | OpCancelAll => cancelAll;; mret tt
  end.
Fixpoint run_sock_ops (ops : list sock_op) : SM unit :=
  match ops with [] => mret tt | o :: ops => run_sock_op o;; run_sock_ops ops end.

Lemma discard {A} (m : SM A) Q : hoare sock_inv m (fun _ => Q) -> (forall st, Q st -> sock_inv st) -> hoare sock_inv (m;; mret tt) (fun _ => sock_inv).
Proof. intros Hm HQ. eapply hoare_bind; [exact Hm|]. intros a. by apply hoare_ret. Qed.

Lemma run_sock_op_ok o : (-1 ∉ others) -> hoare sock_inv (run_sock_op o) (fun _ => sock_inv).
Proof.
  intros Hn. destruct o; cbn [run_sock_op].
  1: by eapply discard; [apply bind_ok|].
  1: { eapply discard; [apply connect_ok|]. intros st [?|?]; [done|by apply closed_inv]. }
  2: { eapply discard; [apply close_ok|]. intros st ?. by apply closed_inv. }
  all: apply keeps_inv; unfold listen, send, sendTo, sendTo_iov, recv, recvFrom, setSendTimeout, setRecvTimeout, getTimeout,
    getError, getOption, setOption, cancelRead, cancelWrite, cancelAll; keeps_tac;
    first [apply keeps_getLocalAddress|apply keeps_getRemoteAddress].
Qed.

Lemma run_sock_ops_ok ops : (-1 ∉ others) -> hoare sock_inv (run_sock_ops ops) (fun _ => sock_inv).
Proof.
  intros Hn. induction ops as [|o ops IH]; [by apply hoare_ret|]. cbn [run_sock_ops].
  eapply hoare_bind; [by apply run_sock_op_ok|]. intros x. exact IH.
Qed.
End socket_thms.

(** ** Accepting *)

(** FdManager knows the descriptor as a socket that is open. *)
Definition adopted {N} `{SocketApi N} (fd : Z) (n : N) : bool :=
  match fd_get fd n with Some c => fi_isSocket c && negb (fi_isClosed c) | None => false end.

Section accepting.
Context {host : Host} {N : Type} `{SocketLaws N}.

Lemma socket_new_inv family type protocol n : (-1 ∉ open_fds n) -> sock_inv (open_fds n) (Socket_new family type protocol, n).
Proof. intros Hn. split; [|done]. split; [|done]. cbn. set_solver. Qed.

(** [init] takes an open descriptor over, and the socket is connected. *)
Lemma init_adopts (others : gset Z) fd (s0 : Socket) (n : N) :
  open_fds n = {[fd]} ∪ others -> fd <> -1 -> fd ∉ others -> adopted fd n = true ->
  exists new n', init fd (s0, n) = Ret true (new, n') /\ m_sock new = fd /\ m_isConnected new = true /\
    open_fds n' = open_fds n.
Proof.
  intros Ho Hfd Hn Ha. unfold init. step_with (eq_refl : ask (fd_get fd) (s0, n) = Ret (fd_get fd n) (s0, n)).
  unfold adopted in Ha. destruct (fd_get fd n) as [c|]; [|done]. rewrite Ha.
  set (s1 := set_connected true (set_sock fd s0)).
  step_with (eq_refl : on_sock (set_sock fd) (s0, n) = Ret tt (set_sock fd s0, n)).
  step_with (eq_refl : on_sock (set_connected true) (set_sock fd s0, n) = Ret tt (s1, n)).
  assert (K : hoare (frame others fd true) (initSock;; getLocalAddress;; getRemoteAddress;; mret true) (fun b st => b = true /\ frame others fd true st)).
  { eapply hoare_bind; [apply (keeps_initSock others)|intros ?]. eapply hoare_bind; [apply (keeps_getLocalAddress others)|intros ?].
    eapply hoare_bind; [apply (keeps_getRemoteAddress others)|intros ?]. by apply hoare_ret. }
  destruct (K (s1, n)) as (b & [new n'] & E & -> & (Ho' & Hn') & Hm & Hc).
  { split; [|done]. split; [|done]. unfold own. cbn. by destruct (Z.eqb_spec fd (-1)). }
  exists new, n'. split; [exact E|]. cbn in Hm, Hc. split; [done|]. split; [done|]. cbn in Ho'. rewrite Ho', Ho.
  unfold own. rewrite Hm. by destruct (Z.eqb_spec fd (-1)).
Qed.

(** What [accept] makes of what the system call answers. *)
Lemma accept_cases (s : Socket) (n : N) fd n1 :
  sys_accept (m_sock s) n = (fd, n1) -> (-1 ∉ open_fds n) ->
  (fd = -1 /\ accept (s, n) = Ret None (s, n1) /\ open_fds n1 = open_fds n) \/
  (fd <> -1 /\ (fd ∉ open_fds n) /\ open_fds n1 = {[fd]} ∪ open_fds n /\
   if adopted fd n1 then exists new n', accept (s, n) = Ret (Some new) (s, n') /\ m_sock new = fd /\
      m_isConnected new = true /\ open_fds n' = open_fds n1
   else accept (s, n) = Ret None (s, n1)).
Proof.
  intros E Hn. pose proof (law_accept (m_sock s) n) as Hl. rewrite E in Hl. cbn in Hl. unfold accept.
  step_with (eq_refl : sock (s, n) = Ret s (s, n)).
  assert (Es : syscall (sys_accept (m_sock s)) (s, n) = Ret fd (s, n1)) by (unfold syscall; cbn; by rewrite E).
  step_with Es. destruct Hl as [[-> Hl]|(Hfd & Hni & Hl)]; [by left|right]. split; [done|]. split; [done|]. split; [done|].
  destruct (Z.eqb_spec fd (-1)); [done|]. cbn [fst snd]. destruct (adopted fd n1) eqn:Ha.
  - destruct (init_adopts (open_fds n) fd (Socket_new (m_family s) (m_type s) (m_protocol s)) n1 Hl Hfd Hni Ha)
      as (new & n' & Ei & Hx). exists new, n'. by rewrite Ei.
  - assert (Ei : init fd (Socket_new (m_family s) (m_type s) (m_protocol s), n1) = Ret false (Socket_new (m_family s) (m_type s) (m_protocol s), n1)).
    { unfold init. step_with (eq_refl : ask (fd_get fd) (Socket_new (m_family s) (m_type s) (m_protocol s), n1) =
        Ret (fd_get fd n1) (Socket_new (m_family s) (m_type s) (m_protocol s), n1)).
      unfold adopted in Ha. destruct (fd_get fd n1) as [c|]; [by rewrite Ha|done]. }
    by rewrite Ei.
Qed.

(** ** A program's sockets *)

(** The sockets a program has made, in order; [None]: destroyed. *)
Abbreviation world := (list (option Socket) * N)%type.

Inductive prog_op :=
| PNew (family type protocol : Z)
| POn (i : nat) (o : sock_op)
| PAccept (i : nat)
| PDelete (i : nat).

Definition on_object {A} (i : nat) (m : M (Socket * N) A) : M world (option A) := fun w =>
  match w.1 !! i with
  | Some (Some s) =>
    match m (s, w.2) with
    | Ret a (s', n') => Ret (Some a) (<[i := Some s']> w.1, n')
    | Throw e (s', n') => Throw e (<[i := Some s']> w.1, n')
    | Crash c => Crash c
    end
  | _ => Ret None w
  end.
Definition run_prog_op (o : prog_op) : M world unit :=
  match o with
  | PNew family type protocol => modify (fun w => (w.1 ++ [Some (Socket_new family type protocol)], w.2))
  | POn i o => on_object i (run_sock_op o);; mret tt
  | PAccept i => r ← on_object i accept;
      match r with Some (Some new) => modify (fun w => (w.1 ++ [Some new], w.2)) | _ => mret tt end
  | PDelete i => on_object i Socket_delete;; modify (fun w => (match w.1 !! i with Some _ => <[i := None]> w.1 | None => w.1 end, w.2))
  end.

(** The descriptors a step loses: the one accept was given and FdManager does not know. *)
Definition loses (o : prog_op) (w : world) : gset Z :=
  match o with
  | PAccept i =>
    match w.1 !! i with
    | Some (Some s) =>
      let '(fd, n1) := sys_accept (m_sock s) w.2 in
      if (fd =? -1) || adopted fd n1 then ∅ else {[fd]}
    | _ => ∅
    end
  | _ => ∅
  end.
Fixpoint run_prog (ops : list prog_op) (lost : gset Z) (w : world) : outcome world (gset Z) :=
  match ops with
  | [] => Ret lost w
  | o :: ops =>
    match run_prog_op o w with
    | Ret _ w' => run_prog ops (lost ∪ loses o w) w'
    | Throw e w' => Throw e w'
    | Crash c => Crash c
    end
  end.

(** Some socket of the program has the descriptor. *)
Definition held (ps : list (option Socket)) (fd : Z) : Prop :=
  fd <> -1 /\ exists i s, ps !! i = Some (Some s) /\ m_sock s = fd.

Record world_ok (others lost : gset Z) (w : world) : Prop := mkWorld {
  wo_open : forall fd, fd ∈ open_fds w.2 <-> held w.1 fd \/ fd ∈ lost \/ fd ∈ others;
  wo_once : forall i j s t, w.1 !! i = Some (Some s) -> w.1 !! j = Some (Some t) ->
    m_sock s = m_sock t -> m_sock s <> -1 -> i = j;
  wo_own : forall fd, held w.1 fd -> (fd ∉ lost) /\ (fd ∉ others);
  wo_minus : -1 ∉ open_fds w.2;
  wo_connected : forall i s, w.1 !! i = Some (Some s) -> m_isConnected s = true -> m_sock s <> -1
}.

(** One socket of the world against the rest. *)
Lemma world_socket others lost ps n i s :
  world_ok others lost (ps, n) -> ps !! i = Some (Some s) -> sock_inv (open_fds n ∖ own s) (s, n).
Proof.
  intros [Ho H1 Hd Hm Hc] Hi. cbn in *. split; [split|]; cbn.
  - apply set_eq. intros fd. rewrite elem_of_union, elem_of_difference.
    destruct (decide (fd ∈ own s)) as [Hf|Hf]; [|tauto]. split; [by left|]. intros _. apply Ho. left.
    unfold own in Hf. destruct (Z.eqb_spec (m_sock s) (-1)); [set_solver|]. apply elem_of_singleton in Hf as ->.
    split; [done|]. by exists i, s.
  - rewrite elem_of_difference. unfold own. destruct (Z.eqb_spec (m_sock s) (-1)) as [E|]; [rewrite E; tauto|set_solver].
  - intros Hcc. unfold isValid. by destruct (Z.eqb_spec (m_sock s) (-1)) as [E|]; [destruct (Hc i s Hi Hcc)|].
Qed.

(** The socket has become [s'] (or is gone), the rest is as before. *)
Lemma world_update others lost ps n i s (x : option Socket) n' :
  world_ok others lost (ps, n) -> ps !! i = Some (Some s) ->
  (match x with
   | Some s' => sock_inv (open_fds n ∖ own s) (s', n') /\ (-1 ∉ open_fds n')
   | None => open_fds n' = open_fds n ∖ own s
   end) -> world_ok others lost (<[i := x]> ps, n').
Proof.
  intros W Hi Hx. pose proof (world_socket _ _ _ _ _ _ W Hi) as [[Hso Hsn] _]. destruct W as [Ho H1 Hd Hm Hc]. cbn in *.
  set (rest := open_fds n ∖ own s) in *.
  assert (Hlt : (i < length ps)%nat) by (by eapply lookup_lt_Some).
  assert (Hlk : forall j t, <[i := x]> ps !! j = Some (Some t) -> (j = i /\ x = Some t) \/ (j <> i /\ ps !! j = Some (Some t))).
  { intros j t. destruct (decide (j = i)) as [-> |Hj].
    - rewrite list_lookup_insert_eq by done. intros [= ->]. by left.
    - rewrite list_lookup_insert_ne by done. by right. }
  (* the descriptors of the rest *)
  assert (Hrest : forall fd, fd ∈ rest <-> (exists j t, j <> i /\ ps !! j = Some (Some t) /\ m_sock t = fd /\ fd <> -1) \/ fd ∈ lost \/ fd ∈ others).
  { intros fd. unfold rest. rewrite elem_of_difference, Ho. unfold own. split.
    - intros [[(Hne & j & t & Hj & Ht)|Hl] Hno]; [|by right]. left. exists j, t. split_and!; try done.
      intros ->. rewrite Hi in Hj. injection Hj as <-. apply Hno. rewrite Ht. destruct (Z.eqb_spec fd (-1)); [done|set_solver].
    - intros [(j & t & Hj & Ht & Hs & Hne)|Hl].
      + split; [left; split; [done|by exists j, t]|]. destruct (Z.eqb_spec (m_sock s) (-1)); [set_solver|].
        rewrite elem_of_singleton. intros E. apply Hj, (H1 j i t s); try done; by rewrite Hs.
      + split; [by right|]. destruct (Z.eqb_spec (m_sock s) (-1)); [set_solver|]. rewrite elem_of_singleton. intros ->.
        destruct (Hd (m_sock s)) as [? ?]; [split; [done|by exists i, s]|]. by destruct Hl. }
  assert (Hother : forall j t fd, j <> i -> ps !! j = Some (Some t) -> m_sock t = fd -> fd <> -1 -> fd ∈ rest)
    by (intros j t fd Hj Ht Hs Hne; apply Hrest; left; by exists j, t).
  destruct x as [s'|].
  - destruct Hx as [[[Hon Hs'] Hv'] Hm']. cbn in *.
    assert (Hne' : m_sock s' <> -1 -> m_sock s' ∈ open_fds n' /\ (m_sock s' ∉ rest)).
    { intros Hne. split; [|done]. rewrite Hon. unfold own. destruct (Z.eqb_spec (m_sock s') (-1)); [done|set_solver]. }
    constructor; cbn; [..|done|].
    + intros fd. rewrite Hon, elem_of_union, Hrest. unfold held, own. split.
      * intros [Hf|[(j & t & Hj & Ht & Hs & Hne)|Hl]]; [|left|by right].
        -- left. destruct (Z.eqb_spec (m_sock s') (-1)); [set_solver|]. apply elem_of_singleton in Hf as ->. split; [done|].
           exists i, s'. by rewrite list_lookup_insert_eq.
        -- split; [done|]. exists j, t. by rewrite list_lookup_insert_ne by done.
      * intros [(Hne & j & t & Hj & Ht)|Hl]; [|by right; right]. destruct (Hlk j t Hj) as [[-> [= <-]]|[Hji Hj']].
        -- left. rewrite Ht. destruct (Z.eqb_spec fd (-1)); [done|set_solver].
        -- right. left. by exists j, t.
    + intros j k t u Hj Hk E Hne. destruct (Hlk j t Hj) as [[-> [= <-]]|[Hji Hj']], (Hlk k u Hk) as [[-> [= <-]]|[Hki Hk']]; try done.
      * destruct (Hne' Hne) as [_ Hno]. destruct Hno. by apply (Hother k u).
      * rewrite E in Hne. destruct (Hne' Hne) as [_ Hno]. destruct Hno. apply (Hother j t); done.
      * by apply (H1 j k t u).
    + intros fd (Hne & j & t & Hj & Ht). destruct (Hlk j t Hj) as [[-> [= <-]]|[Hji Hj']].
      * subst fd. destruct (Hne' Hne) as [_ Hno]. rewrite Hrest in Hno. tauto.
      * apply Hd. split; [done|]. by exists j, t.
    + intros j t Hj Hcc. destruct (Hlk j t Hj) as [[-> [= <-]]|[Hji Hj']]; [|by apply (Hc j t)].
      specialize (Hv' Hcc). unfold isValid in Hv'. by destruct (Z.eqb_spec (m_sock s') (-1)).
  - rename Hx into Hon. constructor; cbn.
    + intros fd. rewrite Hon, Hrest. unfold held. split.
      * intros [(j & t & Hj & Ht & Hs & Hne)|Hl]; [|by right]. left. split; [done|]. exists j, t. by rewrite list_lookup_insert_ne by done.
      * intros [(Hne & j & t & Hj & Ht)|Hl]; [|by right]. destruct (Hlk j t Hj) as [[_ ?]|[Hji Hj']]; [done|]. left. by exists j, t.
    + intros j k t u Hj Hk. destruct (Hlk j t Hj) as [[_ ?]|[_ Hj']], (Hlk k u Hk) as [[_ ?]|[_ Hk']]; try done. by apply H1.
    + intros fd (Hne & j & t & Hj & Ht). destruct (Hlk j t Hj) as [[_ ?]|[_ Hj']]; [done|]. apply Hd. split; [done|]. by exists j, t.
    + rewrite Hon. unfold rest. set_solver.
    + intros j t Hj. destruct (Hlk j t Hj) as [[_ ?]|[_ Hj']]; [done|]. by apply (Hc j t).
Qed.

(** A new object: without a descriptor, or with one nobody has. *)
Lemma world_add others lost ps n x n' :
  world_ok others lost (ps, n) ->
  (m_isConnected x = true -> m_sock x <> -1) ->
  (m_sock x = -1 /\ open_fds n' = open_fds n \/
   m_sock x <> -1 /\ (m_sock x ∉ open_fds n) /\ open_fds n' = {[m_sock x]} ∪ open_fds n) ->
  world_ok others lost (ps ++ [Some x], n').
Proof.
  intros [Ho H1 Hd Hm Hc] Hcx Hx. cbn in *.
  assert (Hlk : forall j t, (ps ++ [Some x]) !! j = Some (Some t) -> (j = length ps /\ t = x) \/ ps !! j = Some (Some t)).
  { intros j t [Hj|[Hj E]]%lookup_app_Some; [by right|]. left. apply list_lookup_singleton_Some in E as [Hz [= ->]]. split; [lia|done]. }
  assert (Hin : forall j t, ps !! j = Some (Some t) -> (ps ++ [Some x]) !! j = Some (Some t)) by (intros; by apply lookup_app_l_Some).
  assert (Hlast : (ps ++ [Some x]) !! length ps = Some (Some x)) by (by rewrite lookup_app_r, Nat.sub_diag by lia).
  assert (Hfresh : m_sock x <> -1 -> m_sock x ∉ open_fds n) by (intros; destruct Hx as [[? _]|(_ & Hf & _)]; done).
  assert (Hheld : forall fd, held (ps ++ [Some x]) fd <-> held ps fd \/ (fd <> -1 /\ m_sock x = fd)).
  { intros fd. split.
    - intros (Hne & j & t & Hj & Ht). destruct (Hlk j t Hj) as [[-> ->]|Hj']; [by right|]. left. split; [done|]. by exists j, t.
    - intros [(Hne & j & t & Hj & Ht)|[Hne Ht]]; (split; [done|]); [exists j, t|exists (length ps), x]; by auto. }
  assert (Hold : forall j t, ps !! j = Some (Some t) -> m_sock t <> -1 -> m_sock t ∈ open_fds n).
  { intros j t Hj Hne. apply Ho. left. split; [done|]. by exists j, t. }
  constructor; cbn.
  - intros fd. rewrite Hheld. destruct Hx as [[E ->]|(Hne & Hf & ->)].
    + rewrite Ho. split; [tauto|]. intros [[?|[Hz Hy]]|?]; [tauto| |tauto]. congruence.
    + rewrite elem_of_union, elem_of_singleton, Ho. split; [intros [->|?]; tauto|]. intros [[?|[Hz Hy]]|?]; [tauto| |tauto]. by left.
  - intros j k t u Hj Hk E Hne. destruct (Hlk j t Hj) as [[-> ->]|Hj'], (Hlk k u Hk) as [[-> ->]|Hk']; try done.
    + destruct (Hfresh Hne). rewrite E. apply (Hold k u Hk'). by rewrite <- E.
    + destruct (Hfresh ltac:(by rewrite <- E)). rewrite <- E. by apply (Hold j t Hj').
    + by apply (H1 j k t u).
  - intros fd [Hh|[Hne <-]]%Hheld; [by apply Hd|]. specialize (Hfresh Hne). rewrite Ho in Hfresh. tauto.
  - destruct Hx as [[E ->]|(Hne & Hf & ->)]; [done|]. rewrite elem_of_union, elem_of_singleton. intros [?|?]; [by apply Hne|done].
  - intros j t Hj. destruct (Hlk j t Hj) as [[-> ->]|Hj']; [done|]. by apply (Hc j t).
Qed.

Lemma world_lose others lost ps n fd n' :
  world_ok others lost (ps, n) -> fd <> -1 -> fd ∉ open_fds n -> open_fds n' = {[fd]} ∪ open_fds n ->
  world_ok others (lost ∪ {[fd]}) (ps, n').
Proof.
  intros [Ho H1 Hd Hm Hc] Hne Hf Hon. cbn in *. constructor; cbn; try done.
  - intros x. rewrite Hon, !elem_of_union, !elem_of_singleton, Ho. tauto.
  - intros x Hx. destruct (Hd x Hx) as [? ?]. split; [|done]. rewrite elem_of_union, elem_of_singleton. intros [?| ->]; [done|].
    apply Hf, Ho. by left.
  - rewrite Hon, elem_of_union, elem_of_singleton. intros [?|?]; [by apply Hne|done].
Qed.

Lemma world_same others lost ps n n' :
  open_fds n' = open_fds n -> world_ok others lost (ps, n) -> world_ok others lost (ps, n').
Proof. intros E [Ho H1 Hd Hm Hc]. constructor; cbn in *; try done; by rewrite E. Qed.

Lemma prog_step others lost o w :
  world_ok others lost w -> exists w', run_prog_op o w = Ret tt w' /\ world_ok others (lost ∪ loses o w) w'.
Proof.
  destruct w as [ps n]. intros W. pose proof (wo_minus _ _ _ W) as Hm. cbn in Hm.
  destruct o as [family type protocol|i o|i|i]; cbn [run_prog_op loses fst snd].
  - eexists. split; [reflexivity|]. cbn. rewrite union_empty_r_L. apply (world_add others lost ps n); [done|done|by left].
  - rewrite union_empty_r_L. destruct (ps !! i) as [[s|]|] eqn:Hi.
    2,3: exists (ps, n); split; [unfold on_object, mbind, M_bind; cbn; by rewrite Hi|done].
    destruct (run_sock_op_ok (open_fds n ∖ own s) o ltac:(set_solver) (s, n) (world_socket _ _ _ _ _ _ W Hi)) as ([] & [s' n'] & E & HI).
    exists (<[i := Some s']> ps, n'). split; [unfold on_object, mbind, M_bind; cbn; by rewrite Hi, E|].
    apply (world_update others lost ps n i s (Some s') n' W Hi). split; [done|]. destruct HI as [[Hon Hs] _]. cbn in *. rewrite Hon.
    unfold own. destruct (Z.eqb_spec (m_sock s') (-1)); [set_solver|]. rewrite elem_of_union, elem_of_singleton. intros [?|?]; [congruence|set_solver].
  - destruct (ps !! i) as [[s|]|] eqn:Hi.
    2,3: exists (ps, n); split; [unfold on_object, mbind, M_bind; cbn; by rewrite Hi|by rewrite union_empty_r_L].
    destruct (sys_accept (m_sock s) n) as [fd n1] eqn:E.
    assert (Hrun : forall r n', accept (s, n) = Ret r (s, n') ->
      run_prog_op (PAccept i) (ps, n) = Ret tt (match r with Some new => ps ++ [Some new] | None => ps end, n')).
    { intros r n' Ea. cbn [run_prog_op]. unfold on_object, mbind, M_bind. cbn [fst snd]. rewrite Hi, Ea.
      rewrite list_insert_id by done. by destruct r. }
    cbn [run_prog_op] in Hrun.
    destruct (accept_cases s n fd n1 E Hm) as [(-> & Ea & Ho)|(Hne & Hf & Ho & Ha)].
    + eexists. split; [exact (Hrun None n1 Ea)|]. cbn. rewrite union_empty_r_L. by apply (world_same others lost ps n).
    + destruct (Z.eqb_spec fd (-1)); [done|]. destruct (adopted fd n1); cbn [orb].
      * destruct Ha as (new & n' & Ea & Hs & Hcn & Ho'). eexists. split; [exact (Hrun (Some new) n' Ea)|].
        rewrite union_empty_r_L. apply (world_add others lost ps n); [done|by rewrite Hs|]. right. by rewrite Ho', Ho, Hs.
      * eexists. split; [exact (Hrun None n1 Ha)|]. by apply (world_lose others lost ps n).
  - rewrite union_empty_r_L. destruct (ps !! i) as [[s|]|] eqn:Hi.
    2: { exists (<[i := None]> ps, n). split; [unfold on_object, mbind, M_bind, modify; cbn; rewrite Hi; cbn; by rewrite Hi|].
      by rewrite list_insert_id. }
    2: { exists (ps, n). split; [unfold on_object, mbind, M_bind, modify; cbn; rewrite Hi; cbn; by rewrite Hi|done]. }
    destruct (close_ok (open_fds n ∖ own s) (s, n) (world_socket _ _ _ _ _ _ W Hi)) as (b & [s' n'] & E & (_ & _ & Ho)).
    exists (<[i := None]> ps, n'). split.
    + unfold on_object, mbind, M_bind, modify. cbn. rewrite Hi. unfold Socket_delete. rewrite (bind_Ret _ _ _ _ _ E). cbn.
      rewrite list_lookup_insert_eq by (by eapply lookup_lt_Some). by rewrite list_insert_insert_eq.
    + apply (world_update others lost ps n i s None n' W Hi). exact Ho.
Qed.

Lemma run_prog_ok others ops lost w :
  world_ok others lost w -> exists lost' w', run_prog ops lost w = Ret lost' w' /\ world_ok others lost' w'.
Proof.
  revert lost w. induction ops as [|o ops IH]; intros lost w W; [by exists lost, w|].
  destruct (prog_step others lost o w W) as (w1 & E & W1). cbn [run_prog]. rewrite E. by apply IH.
Qed.

(** C23: sockets own their descriptors.  Let a program make sockets, by the
    constructor and by accept, run any methods on them and destroy them, in any order
    and whatever the system calls answer: nothing crashes or throws; at any moment the open
    descriptors are exactly those that were open before, those of the sockets, and
    those that accept was given and FdManager does not know as open sockets, which accept
    drops without closing; no two sockets have the same descriptor, and none has one that is
    another's or was dropped; a connected socket has one.  A socket that accept
    returns has the descriptor accept was given, and is connected. *)
Theorem socket_owns_descriptor (ops : list prog_op) (n : N) :
  (-1 ∉ open_fds n) ->
  exists lost ps n', run_prog ops ∅ ([], n) = Ret lost (ps, n') /\
    (forall fd, fd ∈ open_fds n' <-> held ps fd \/ fd ∈ lost \/ fd ∈ open_fds n) /\
    (forall i j s t, ps !! i = Some (Some s) -> ps !! j = Some (Some t) -> m_sock s = m_sock t -> m_sock s <> -1 -> i = j) /\
    (forall fd, held ps fd -> (fd ∉ lost) /\ (fd ∉ open_fds n)) /\
    (forall i s, ps !! i = Some (Some s) -> m_isConnected s = true -> m_sock s <> -1) /\
    (forall i s fd n1, ps !! i = Some (Some s) -> sys_accept (m_sock s) n' = (fd, n1) ->
       if (fd =? -1) || negb (adopted fd n1) then accept (s, n') = Ret None (s, n1)
       else exists new n'', accept (s, n') = Ret (Some new) (s, n'') /\ m_sock new = fd /\ m_isConnected new = true).
Proof.
  intros Hn. assert (W : world_ok (open_fds n) ∅ ([], n)).
  { constructor; cbn; try done.
    - intros fd. split; [by right; right|]. intros [(_ & i & s & Hi & _)|[Hf|?]]; [by rewrite lookup_nil in Hi|set_solver|done].
    - intros fd (_ & i & s & Hi & _). by rewrite lookup_nil in Hi. }
  destruct (run_prog_ok (open_fds n) ops ∅ ([], n) W) as (lost & [ps n'] & E & [Ho H1 Hd Hm Hc]).
  exists lost, ps, n'. cbn in *. split; [done|]. split; [done|]. split; [done|]. split; [done|]. split; [done|].
  intros i s fd n1 Hi Ea. destruct (accept_cases s n' fd n1 Ea Hm) as [(-> & Ec & _)|(Hne & _ & _ & Ec)]; [done|].
  destruct (Z.eqb_spec fd (-1)); [done|]. destruct (adopted fd n1); [|done]. destruct Ec as (new & n'' & Ec & Hs & Hcn & _).
  by exists new, n''.
Qed.
End accepting.

(** ** A concrete system: descriptors are handed out in order *)

Definition demo_open (n : Z * gset Z) : Z * (Z * gset Z) :=
  if bool_decide (0 <= n.1 /\ n.1 ∉ n.2) then (n.1, (n.1 + 1, {[n.1]} ∪ n.2)) else (-1, n).
#[export] Instance DemoSockets : SocketApi (Z * gset Z) := {
  sys_socket _ _ _ n := demo_open n;
  sys_bind _ _ n := (true, n);
  sys_connect _ a _ n := (is_ip a, n);
  sys_listen _ _ n := (true, n);
  sys_accept _ n := demo_open n;
  sys_close fd n := (n.1, n.2 ∖ {[fd]});
  sys_send _ d _ n := (zlen d, n);
  sys_recv _ _ n := (None, n);
  sys_getpeername _ a _ := Some a;
  sys_getsockname _ a _ := Some a;
  sys_getsockopt _ _ _ _ := Some 0;
  sys_setsockopt _ _ _ _ n := (true, n);
  fd_get fd n := if bool_decide (fd ∈ n.2 /\ fd < 9) then Some (mkFdInfo true false 0 0) else None;
  io_cancel _ _ n := (false, n);
  io_cancelAll _ n := (false, n)
}.

Lemma demo_open_law (n : Z * gset Z) :
  ((demo_open n).1 = -1 /\ (demo_open n).2.2 = n.2) \/
  ((demo_open n).1 <> -1 /\ ((demo_open n).1 ∉ n.2) /\ (demo_open n).2.2 = {[(demo_open n).1]} ∪ n.2).
Proof. unfold demo_open. case_bool_decide as Hd; [right|by left]. destruct Hd. split; [cbn; lia|done]. Qed.

#[export] Instance DemoSocketLaws : SocketLaws (Z * gset Z).
Proof. refine {| open_fds := snd |}; try done; intros; apply demo_open_law. Defined.

Definition demo_remote : Address := IPv4Address (mkSin AF_INET 80 1 (zeros 8)).
(** A server's socket accepts a connection, and another that FdManager does not know;
    the first two sockets are destroyed. *)
Definition demo_prog : list prog_op :=
  [PNew AF_INET SOCK_STREAM 0; POn 0 (OpBind demo_remote); POn 0 (OpListen SOMAXCONN); PAccept 0; PAccept 0;
   POn 1 (OpSend (bs "hello")); PNew AF_INET SOCK_STREAM 0; POn 2 (OpConnect demo_remote 10); PDelete 1].

Lemma socket_owns_descriptor_witness :
  let n := (7, {[0; 1; 2]}) : Z * gset Z in
  (exists s, run_prog (host := false) demo_prog ∅ ([], n) = Ret {[9]} s /\ s.2.1 = 11) /\
  exists lost ps n', run_prog (host := false) demo_prog ∅ ([], n) = Ret lost (ps, n') /\
    (forall fd, fd ∈ open_fds n' <-> held ps fd \/ fd ∈ lost \/ fd ∈ open_fds n).
Proof.
  split; [eexists; split; vm_compute; reflexivity|].
  destruct (socket_owns_descriptor (host := false) demo_prog ((7, {[0; 1; 2]}) : Z * gset Z)) as (lost & ps & n' & E & Ho & _);
    [cbn; set_solver|]. exists lost, ps, n'. split; [exact E|exact Ho].
Defined.
