(* ===== verification/Stream.v ===== *)
(** linko/stream.{h,cc} and linko/socket_stream.{h,cc}: reading and writing a
    socket, at most and exactly a number of bytes, from memory and from a byte
    array.

    A buffer the caller passes is the list of the bytes it holds; a call that
    stores into it returns its new content. *)
From S2P Require Import Prelude Endian ByteArray Address Socket.
Open Scope Z_scope.

Record SocketStream := mkStream { m_socket : option Socket; m_owner : bool }.

Section stream.
Context {host : Host} {un : Uninit} {N : Type} `{SocketApi N}.
Abbreviation ST := (M (SocketStream * N)).

Definition SocketStream_new (sock : option Socket) (owner : bool) : SocketStream := mkStream sock owner.
Definition stream : ST SocketStream := s ← get; mret s.1.

(** A method of the socket, which is not null. *)
Definition on_socket {A} (m : M (Socket * N) A) : ST A := fun st =>
  match m_socket st.1 with
  | None => Crash NullDeref
  | Some s =>
    match m (s, st.2) with
    | Ret a (s', n') => Ret a (mkStream (Some s') (m_owner st.1), n')
    | Throw e (s', n') => Throw e (mkStream (Some s') (m_owner st.1), n')
    | Crash c => Crash c
    end
  end.

Definition isConnected (t : SocketStream) : bool :=
  match m_socket t with Some s => Socket.m_isConnected s | None => false end.

Definition close : ST unit :=
  t ← stream;
  match m_socket t with Some _ => on_socket Socket.close;; mret tt | None => mret tt end.
(** ~SocketStream. *)
Definition SocketStream_delete : ST unit :=
  t ← stream;
  match m_socket t with
  | Some _ => if m_owner t then on_socket Socket.close;; mret tt else mret tt
  | None => mret tt
  end.

(** [read(buffer, length)]: the bytes stored; [None] is -1. *)
Definition read (length : Z) : ST (option bytes) :=
  t ← stream;
  if isConnected t then on_socket (recv length) else mret None.
(** [write(buffer, length)] of a buffer with the bytes [data]. *)
Definition write (data : bytes) (length : Z) : ST Z :=
  t ← stream;
  if isConnected t then
    if zlen data <? length then crash_with OutOfBounds else on_socket (send (ztake length data))
  else mret (-1).

(** An [int] result taken as a [size_t]. *)
Definition read_len (r : option bytes) : Z := match r with Some d => u64 (i32 (zlen d)) | None => u64 (-1) end.

(** [readFixSize(buffer, length)]: the content of the buffer, [None] when the loop
    does not end within the fuel. *)
Fixpoint readFixSize_loop (fuel : nat) (buffer : bytes) (left_ : Z) : ST bytes :=
  match fuel with
  | O => crash_with OutOfFuel
  | S fuel =>
    if 0 <? left_ then
      r ← read left_;
      let d := match r with Some d => d | None => [] end in
      if zlen buffer <? zlen d then crash_with OutOfBounds else
      readFixSize_loop fuel (overwrite 0 d buffer) (u64 (left_ - read_len r))
    else mret buffer
  end.
Definition readFixSize (fuel : nat) (buffer : bytes) (length : Z) : ST (Z * bytes) :=
  b ← readFixSize_loop fuel buffer length;
  mret (i32 length, b).

Fixpoint writeFixSize_loop (fuel : nat) (buffer : bytes) (left_ : Z) : ST unit :=
  match fuel with
  | O => crash_with OutOfFuel
  | S fuel =>
    if 0 <? left_ then
      len ← write buffer left_;
      writeFixSize_loop fuel buffer (u64 (left_ - u64 len))
    else mret tt
  end.
Definition writeFixSize (fuel : nat) (buffer : bytes) (length : Z) : ST Z :=
  writeFixSize_loop fuel buffer length;;
  mret (i32 length).

(** ** Byte arrays *)

(** What recvmsg does with its regions: fills them in order. *)
Fixpoint scatter (bufs : list iovec) (d : bytes) : M ByteArray unit :=
  match bufs with
  | [] => mret tt
  | v :: bufs =>
    '(_, nd) ← deref (Some (iov_node v));
    memcpy_to (iov_node v) nd (iov_off v) (ztake (iov_len v) d);;
    scatter bufs (zdrop (iov_len v) d)
  end.
(** ... and what sendmsg takes from them. *)
Fixpoint gather (bufs : list iovec) : M ByteArray bytes :=
  match bufs with
  | [] => mret []
  | v :: bufs =>
    '(_, nd) ← deref (Some (iov_node v));
    d ← memcpy_from nd (iov_off v) (iov_len v);
    rest ← gather bufs;
    mret (d ++ rest)
  end.

(** A method of the byte array inside a computation on the stream and the array. *)
Abbreviation BT := (M (ByteArray * (SocketStream * N))).
Definition on_array {A} (m : M ByteArray A) : BT A := fun st =>
  match m st.1 with
  | Ret a b => Ret a (b, st.2)
  | Throw e b => Throw e (b, st.2)
  | Crash c => Crash c
  end.
Definition on_stream {A} (m : ST A) : BT A := fun st =>
  match m st.2 with
  | Ret a t => Ret a (st.1, t)
  | Throw e t => Throw e (st.1, t)
  | Crash c => Crash c
  end.
Definition in_array {A} (f : ByteArray -> A) : BT A := s ← get; mret (f s.1).

(** [&iovs[0]] of an empty vector is not formed. *)
Definition iov_length (bufs : list iovec) : Z := foldr (fun v n => iov_len v + n) 0 bufs.
Definition read_ba (length : Z) : BT Z :=
  t ← on_stream stream;
  if negb (isConnected t) then mret (-1) else
  '(_, iovs) ← on_array (getWriteBuffers [] length);
  if bool_decide (iovs = []) then crash_with OutOfBounds else
  r ← on_stream (on_socket (recv (iov_length iovs)));
  match r with
  | None => mret (-1)
  | Some d =>
    on_array (scatter iovs d);;
    let rt := i32 (zlen d) in
    (if 0 <? rt then p ← in_array getPosition; on_array (setPosition (u64 (p + rt))) else mret tt);;
    mret rt
  end.
Definition write_ba (length : Z) : BT Z :=
  t ← on_stream stream;
  if negb (isConnected t) then mret (-1) else
  '(_, iovs) ← on_array (getReadBuffers [] length);
  if bool_decide (iovs = []) then crash_with OutOfBounds else
  d ← on_array (gather iovs);
  rt ← on_stream (on_socket (send d));
  (if 0 <? rt then p ← in_array getPosition; on_array (setPosition (u64 (p + rt))) else mret tt);;
  mret rt.

Fixpoint readFixSize_ba_loop (fuel : nat) (left_ : Z) : BT unit :=
  match fuel with
  | O => crash_with OutOfFuel
  | S fuel =>
    if 0 <? left_ then
      len ← read_ba left_;
      readFixSize_ba_loop fuel (u64 (left_ - u64 len))
    else mret tt
  end.
Definition readFixSize_ba (fuel : nat) (length : Z) : BT Z := readFixSize_ba_loop fuel length;; mret (i32 length).
(** writeFixSize of a byte array reads, too. *)
Definition writeFixSize_ba (fuel : nat) (length : Z) : BT Z := readFixSize_ba_loop fuel length;; mret (i32 length).
End stream.
