(* ===== verification/StreamThms.v ===== *)
(** Streams: receiving into a byte array is a write of what was received, and
    what the fixed-size loops do. *)
From S2P Require Import Prelude Endian Http ByteArray ByteArraySpec ByteArrayThms ByteArrayIO Address Socket Stream.
Open Scope Z_scope.

Section stream_thms.
Context {host : Host} {un : Uninit} {N : Type} `{SocketApi N}.
Implicit Types (s : ByteArray).

(** ** Receiving into a byte array *)

Lemma chained_same s s' bufs : forall p n,
  m_baseSize s' = m_baseSize s -> length (m_nodes s') = length (m_nodes s) -> chained s p n bufs -> chained s' p n bufs.
Proof.
  induction bufs as [|v bufs IH]; intros p n Hb Hl; [done|]. cbn [chained]. intros (Hok & Hp & Hc).
  split; [|split; [by rewrite Hb|by apply IH]]. unfold iov_ok in *. by rewrite Hb, Hl.
Qed.

Lemma chained_nonneg s bufs : forall p n, chained s p n bufs -> 0 <= n.
Proof.
  induction bufs as [|v bufs IH]; intros p n; cbn [chained]; [lia|]. intros ((_ & _ & Hl & _) & _ & Hc). apply IH in Hc. lia.
Qed.

(** The chain lies within the capacity. *)
Lemma chained_bound s bufs : shape s -> forall p n, chained s p n bufs -> 0 < n -> p + n <= m_capacity s.
Proof.
  intros Hs. induction bufs as [|v bufs IH]; intros p n; cbn [chained]; [lia|].
  intros ((Hi & Ho & Hl & Hf) & Hp & Hc) Hn. pose proof (chained_nonneg s bufs _ _ Hc) as H0.
  destruct (Z.eq_dec n (iov_len v)) as [-> |Hne].
  - rewrite (shape_cap s Hs). unfold zlen. nia.
  - apply IH in Hc; lia.
Qed.

(** What scatter changes: the contents. *)
Record filled s s' (p : Z) (d : bytes) : Prop := mkFilled {
  fl_shape : shape s';
  fl_contents : contents s' = overwrite p d (contents s);
  fl_base : m_baseSize s' = m_baseSize s;
  fl_position : m_position s' = m_position s;
  fl_capacity : m_capacity s' = m_capacity s;
  fl_size : m_size s' = m_size s;
  fl_endian : m_endian s' = m_endian s
}.

Lemma scatter_run bufs : forall s p n d,
  shape s -> chained s p n bufs -> zlen d <= n -> 0 <= p ->
  exists s', scatter bufs d s = Ret tt s' /\ filled s s' p d.
Proof.
  induction bufs as [|v bufs IH]; intros s p n d Hs Hc Hd Hp.
  - cbn in Hc. exists s. split; [done|]. pose proof (zlen_nonneg d). assert (d = []) as -> by (apply zlen_0; lia).
    by split; rewrite ?overwrite_nil.
  - destruct Hc as (Hok & Hpos & Hc). pose proof Hok as (Hi & Hoff & Hlen & Hfit). cbn [scatter].
    destruct (lookup_lt_is_Some_2 _ _ Hi) as [nd Hnd].
    assert (Hnode : node_ok (m_baseSize s) nd) by (eapply Forall_lookup_1; [apply Hs|done]).
    step_with (deref_at s (iov_node v) nd Hnd). cbv beta iota. set (d1 := ztake (iov_len v) d).
    pose proof (zlen_nonneg d) as Hd0.
    assert (Hd1 : zlen d1 = Z.min (iov_len v) (zlen d)) by (unfold d1, zlen, ztake; rewrite length_take; unfold zlen in *; lia).
    destruct (memcpy_to_spec s (iov_node v) nd (iov_off v) d1 Hs Hnd Hnode Hoff ltac:(lia)) as (E & Hs1 & Hc1).
    set (s1 := set_nodes _ s) in *. step_with E. rewrite Hpos in Hc1.
    assert (Hc' : chained s1 (p + iov_len v) (n - iov_len v) bufs).
    { apply (chained_same s); [done|by unfold s1; cbn; rewrite length_insert|done]. }
    destruct (IH s1 (p + iov_len v) (n - iov_len v) (zdrop (iov_len v) d) Hs1 Hc') as (s2 & E2 & [F1 F2 F3 F4 F5 F6 F7]).
    + unfold zlen, zdrop in *. rewrite length_drop. pose proof (chained_nonneg _ _ _ _ Hc). lia.
    + lia.
    + exists s2. split; [exact E2|]. split; try done. rewrite F2, Hc1.
      destruct (Z.le_gt_cases (iov_len v) (zlen d)) as [Hle|Hgt].
      * replace (p + iov_len v) with (p + zlen d1) by lia. rewrite overwrite_app; [unfold d1; by rewrite ztake_zdrop|done|].
        rewrite contents_zlen by done. assert (zlen (zdrop (iov_len v) d) = zlen d - iov_len v) by (apply zlen_zdrop; lia).
        assert (p + n <= m_capacity s) by (apply (chained_bound s (v :: bufs) Hs p n); [by split_and!|lia]). lia.
      * rewrite (zdrop_all (iov_len v) d) by lia. rewrite overwrite_nil. unfold d1. by rewrite ztake_all by lia.
Qed.

Lemma chained_length s bufs : forall p n, chained s p n bufs -> iov_length bufs = n.
Proof. induction bufs as [|v bufs IH]; intros p n; cbn; [done|]. intros (_ & _ & Hc). apply IH in Hc. unfold iov_length in Hc. lia. Qed.

Lemma on_array_run {A} (m : M ByteArray A) s x a s' : m s = Ret a s' -> on_array (N := N) m (s, x) = Ret a (s', x).
Proof. intros E. unfold on_array. cbn. by rewrite E. Qed.

Lemma recv_run k o n len r n' :
  m_isConnected k = true -> sys_recv (m_sock k) len n = (r, n') ->
  on_socket (recv len) (mkStream (Some k) o, n) = Ret (option_map fst r) (mkStream (Some k) o, n').
Proof.
  intros Hk E. unfold on_socket, recv, sock, syscall, mbind, M_bind, get, mret, M_ret. cbn [fst snd m_socket m_owner]. rewrite Hk. cbn [fst snd]. by rewrite E.
Qed.

Lemma send_run k o n d r n' :
  m_isConnected k = true -> sys_send (m_sock k) d None n = (r, n') ->
  on_socket (send d) (mkStream (Some k) o, n) = Ret r (mkStream (Some k) o, n').
Proof.
  intros Hk E. unfold on_socket, send, sock, syscall, mbind, M_bind, get, mret, M_ret. cbn [fst snd m_socket m_owner]. rewrite Hk. cbn [fst snd]. by rewrite E.
Qed.

(** C24: receiving into a byte array is a write: what the socket delivers, however
    many blocks it spans, is in the array as if it had been written there, the
    position is behind it, and the array stays well-formed. *)
Theorem read_ba_writes s k o n len d from n' :
  wf s -> 0 < len < 2 ^ 31 -> m_position s + len + m_baseSize s < 2 ^ 64 ->
  m_isConnected k = true -> sys_recv (m_sock k) len n = (Some (d, from), n') -> 0 < zlen d <= len ->
  exists s', read_ba len (s, (mkStream (Some k) o, n)) = Ret (zlen d) (s', (mkStream (Some k) o, n')) /\
    wf s' /\ abs s' = spec_write d (abs s) /\ m_baseSize s' = m_baseSize s /\ m_endian s' = m_endian s.
Proof.
  intros Hw Hlen Hfit Hk Hr Hd. set (t := mkStream (Some k) o).
  destruct (getWriteBuffers_run s len Hw ltac:(lia) Hfit) as (s1 & junk & bufs & E1 & W1 & A2 & A3 & A4 & A5 & A6 & A7 & _ & _ & Hc).
  destruct (scatter_run bufs s1 (m_position s) len d (wf_shape s1 W1) Hc ltac:(lia)) as (s2 & E2 & [F1 F2 F3 F4 F5 F6 F7]).
  { apply (wf_pos s Hw). }
  pose proof (wf_pos s Hw) as Hp. pose proof (wf_size s Hw) as Hsz. pose proof (wf_size s1 W1) as Hsz1.
  destruct (setPosition_spec s2 (m_position s + zlen d) F1) as [E3 W3];
    [lia|rewrite F7, A5; apply (wf_endian s Hw)|lia|].
  set (s3 := set_cur _ _) in *. exists s3. pose proof (zlen_nonneg d).
  assert (Hi : i32 (zlen d) = zlen d) by (apply swrap_small; [lia|unfold in_s; lia]).
  assert (Hu : u64 (m_position s + zlen d) = m_position s + zlen d) by (apply wrap_small; unfold in_u; pose proof (shape_base s Hw); lia).
  split_and!.
  - unfold read_ba. step_with (eq_refl : on_stream stream (s, (t, n)) = Ret t (s, (t, n))). unfold isConnected. cbn [t m_socket]. rewrite Hk. cbn [negb].
    step_with (on_array_run _ s (t, n) _ _ E1). cbv beta iota.
    assert (Hne : bool_decide (bufs = []) = false).
    { apply bool_decide_false. intros ->. cbn in Hc. lia. }
    rewrite Hne. rewrite (chained_length s1 bufs _ _ Hc).
    assert (Er : on_stream (on_socket (recv len)) (s1, (t, n)) = Ret (Some d) (s1, (t, n'))).
    { unfold on_stream. cbn [fst snd]. unfold t. by rewrite (recv_run k o n len (Some (d, from)) n' Hk Hr). }
    step_with Er. step_with (on_array_run _ s1 (t, n') _ _ E2). rewrite Hi. destruct (Z.ltb_spec 0 (zlen d)); [|lia].
    assert (Em : (p ← in_array (N := N) getPosition; on_array (setPosition (u64 (p + zlen d)))) (s2, (t, n')) = Ret tt (s3, (t, n'))).
    { step_with (eq_refl : in_array (N := N) getPosition (s2, (t, n')) = Ret (m_position s2) (s2, (t, n'))).
      rewrite F4, A3, Hu. by apply on_array_run. }
    by step_with Em.
  - done.
  - assert (Hc3 : contents s3 = contents s2) by done.
    unfold abs, spec_write, data. rewrite Hc3. unfold s3. cbn [m_size m_position set_cur set_size set_position b_pos b_data]. rewrite F2, A6, F6, A4. f_equal. apply overwrite_view; [lia| |].
    + rewrite contents_zlen by apply Hw. lia.
    + rewrite <- A6, contents_zlen by apply W1. lia.
  - unfold s3. cbn. by rewrite F3.
  - unfold s3. cbn. by rewrite F7.
Qed.

(** ** The fixed-size loops *)

Section fixed.
Context (k : Socket) (o : bool).
Let t := mkStream (Some k) o.

Lemma stream_run (n : N) : stream (t, n) = Ret t (t, n).
Proof. done. Qed.

Lemma read_run (n : N) len r n' :
  m_isConnected k = true -> sys_recv (m_sock k) len n = (r, n') -> read len (t, n) = Ret (option_map fst r) (t, n').
Proof.
  intros Hk E. unfold read. step_with (stream_run n). unfold isConnected. cbn [t m_socket]. rewrite Hk. by apply recv_run.
Qed.
Lemma read_closed (n : N) len : m_isConnected k = false -> read len (t, n) = Ret None (t, n).
Proof. intros Hk. unfold read. step_with (stream_run n). unfold isConnected. cbn [t m_socket]. by rewrite Hk. Qed.

Lemma write_run (n : N) data len r n' :
  m_isConnected k = true -> len <= zlen data -> sys_send (m_sock k) (ztake len data) None n = (r, n') ->
  write data len (t, n) = Ret r (t, n').
Proof.
  intros Hk Hl E. unfold write. step_with (stream_run n). unfold isConnected. cbn [t m_socket]. rewrite Hk.
  destruct (Z.ltb_spec (zlen data) len); [lia|]. by apply send_run.
Qed.
Lemma write_closed (n : N) data len : m_isConnected k = false -> write data len (t, n) = Ret (-1) (t, n).
Proof. intros Hk. unfold write. step_with (stream_run n). unfold isConnected. cbn [t m_socket]. by rewrite Hk. Qed.

(** One round of each loop. *)
Lemma read_round fuel buffer left_ (n : N) d from n' :
  m_isConnected k = true -> 0 < left_ < 2 ^ 31 -> sys_recv (m_sock k) left_ n = (Some (d, from), n') ->
  zlen d <= left_ -> left_ <= zlen buffer ->
  readFixSize_loop (S fuel) buffer left_ (t, n) = readFixSize_loop fuel (overwrite 0 d buffer) (left_ - zlen d) (t, n').
Proof.
  intros Hk Hl E Hd Hb. cbn [readFixSize_loop]. destruct (Z.ltb_spec 0 left_); [|lia]. step_with (read_run n left_ _ _ Hk E).
  cbn [option_map fst]. destruct (Z.ltb_spec (zlen buffer) (zlen d)); [lia|]. unfold read_len. pose proof (zlen_nonneg d).
  assert (i32 (zlen d) = zlen d) as -> by (apply swrap_small; [lia|unfold in_s; lia]).
  assert (u64 (zlen d) = zlen d) as -> by (apply wrap_small; unfold in_u; lia).
  by assert (u64 (left_ - zlen d) = left_ - zlen d) as -> by (apply wrap_small; unfold in_u; lia).
Qed.

Lemma write_round fuel buffer left_ (n : N) r n' :
  m_isConnected k = true -> 0 < left_ < 2 ^ 31 -> left_ <= zlen buffer ->
  sys_send (m_sock k) (ztake left_ buffer) None n = (r, n') -> 0 <= r <= left_ ->
  writeFixSize_loop (S fuel) buffer left_ (t, n) = writeFixSize_loop fuel buffer (left_ - r) (t, n').
Proof.
  intros Hk Hl Hb E Hr. cbn [writeFixSize_loop]. destruct (Z.ltb_spec 0 left_); [|lia]. step_with (write_run n buffer left_ _ _ Hk Hb E).
  assert (u64 r = r) as -> by (apply wrap_small; unfold in_u; lia).
  by assert (u64 (left_ - r) = left_ - r) as -> by (apply wrap_small; unfold in_u; lia).
Qed.

(** An error counts one byte more to do. *)
Lemma loops_after_error fuel buffer : forall left_ (n : N),
  m_isConnected k = false -> 0 < left_ -> left_ + Z.of_nat fuel < 2 ^ 64 ->
  readFixSize_loop fuel buffer left_ (t, n) = Crash OutOfFuel /\ writeFixSize_loop fuel buffer left_ (t, n) = Crash OutOfFuel.
Proof.
  induction fuel as [|fuel IH]; intros left_ n Hk Hl Hf; [done|]. cbn [readFixSize_loop writeFixSize_loop].
  destruct (Z.ltb_spec 0 left_); [|lia].
  assert (Hu : u64 (left_ - u64 (-1)) = left_ + 1).
  { unfold wrap. rewrite Zminus_mod_idemp_r. replace (left_ - -1) with (left_ + 1) by lia. apply Z.mod_small. lia. }
  split.
  - step_with (read_closed n left_ Hk). pose proof (zlen_nonneg buffer). change (zlen (A:=ascii) []) with 0. destruct (Z.ltb_spec (zlen buffer) 0); [lia|].
    unfold read_len. rewrite Hu, overwrite_nil. apply (IH (left_ + 1) n); [done|lia|lia].
  - step_with (write_closed n buffer left_ Hk). rewrite Hu. apply (IH (left_ + 1) n); [done|lia|lia].
Qed.

Lemma loop_after_eof fuel buffer : forall left_ (n : N),
  m_isConnected k = true -> 0 < left_ < 2 ^ 31 -> left_ <= zlen buffer ->
  (forall l, exists from, sys_recv (m_sock k) l n = (Some ([], from), n)) ->
  readFixSize_loop fuel buffer left_ (t, n) = Crash OutOfFuel.
Proof.
  induction fuel as [|fuel IH]; intros left_ n Hk Hl Hb Hr; [done|]. destruct (Hr left_) as [from E].
  rewrite (read_round fuel buffer left_ n [] from n Hk Hl E ltac:(rewrite zlen_nil; lia) Hb). rewrite overwrite_nil, zlen_nil, Z.sub_0_r. by apply IH.
Qed.

(** ReadFixSize and writeFixSize are right only when one call does all of
    it.  Otherwise every call starts at the front of the buffer again: what came
    in two pieces is stored over itself, what went out in two pieces begins
    twice with the same bytes, and both are reported as done; when the stream is
    not connected or the peer has closed it, the loops go on. *)
Theorem fixed_size_loops (buf : bytes) (n n1 n2 : N) :
  0 < zlen buf < 2 ^ 31 ->
  (m_isConnected k = true -> forall d from, zlen d = zlen buf -> sys_recv (m_sock k) (zlen buf) n = (Some (d, from), n1) ->
     readFixSize 2 buf (zlen buf) (t, n) = Ret (zlen buf, d) (t, n1)) /\
  (m_isConnected k = true -> forall d1 d2 from, 0 < zlen d2 -> zlen d1 + zlen d2 = zlen buf ->
     sys_recv (m_sock k) (zlen buf) n = (Some (d1, from), n1) -> sys_recv (m_sock k) (zlen d2) n1 = (Some (d2, from), n2) ->
     readFixSize 3 buf (zlen buf) (t, n) = Ret (zlen buf, overwrite 0 d2 (overwrite 0 d1 buf)) (t, n2)) /\
  (m_isConnected k = true -> forall r, 0 < r < zlen buf ->
     sys_send (m_sock k) buf None n = (zlen buf - r, n1) -> sys_send (m_sock k) (ztake r buf) None n1 = (r, n2) ->
     writeFixSize 3 buf (zlen buf) (t, n) = Ret (zlen buf) (t, n2)) /\
  (m_isConnected k = false -> forall fuel, Z.of_nat fuel < 2 ^ 63 ->
     readFixSize fuel buf (zlen buf) (t, n) = Crash OutOfFuel /\ writeFixSize fuel buf (zlen buf) (t, n) = Crash OutOfFuel) /\
  (m_isConnected k = true -> (forall l, exists from, sys_recv (m_sock k) l n = (Some ([], from), n)) ->
     forall fuel, readFixSize fuel buf (zlen buf) (t, n) = Crash OutOfFuel).
Proof.
  intros Hb. assert (Hi : i32 (zlen buf) = zlen buf) by (apply swrap_small; [lia|unfold in_s; lia]).
  assert (Hend : forall fuel b x, readFixSize_loop (S fuel) b 0 x = Ret b x) by done.
  assert (Hend' : forall fuel b x, writeFixSize_loop (S fuel) b 0 x = Ret tt x) by done.
  unfold readFixSize, writeFixSize. split_and!.
  - intros Hk d from Hd E. pose proof (read_round 1 buf (zlen buf) n d from n1 Hk Hb E ltac:(lia) ltac:(lia)) as R.
    rewrite Hd, Z.sub_diag, Hend in R. step_with R. rewrite Hi. unfold mret, M_ret. do 2 f_equal.
    unfold overwrite. rewrite ztake_0, zdrop_all by lia. apply app_nil_r.
  - intros Hk d1 d2 from Hd2 Hd E1 E2. pose proof (zlen_nonneg d1).
    pose proof (read_round 2 buf (zlen buf) n d1 from n1 Hk Hb E1 ltac:(lia) ltac:(lia)) as R.
    replace (zlen buf - zlen d1) with (zlen d2) in R by lia.
    rewrite (read_round 1 _ (zlen d2) n1 d2 from n2 Hk ltac:(lia) E2 ltac:(lia)) in R by (rewrite overwrite_zlen; lia).
    rewrite Z.sub_diag, Hend in R. step_with R. by rewrite Hi.
  - intros Hk r Hr E1 E2. rewrite <- (ztake_all (zlen buf) buf) in E1 at 1 by lia.
    pose proof (write_round 2 buf (zlen buf) n _ n1 Hk Hb ltac:(lia) E1 ltac:(lia)) as R.
    replace (zlen buf - (zlen buf - r)) with r in R by lia.
    rewrite (write_round 1 buf r n1 r n2 Hk ltac:(lia) ltac:(lia) E2 ltac:(lia)) in R. rewrite Z.sub_diag, Hend' in R.
    step_with R. by rewrite Hi.
  - intros Hk fuel Hf. destruct (loops_after_error fuel buf (zlen buf) n Hk ltac:(lia) ltac:(lia)) as [E1 E2].
    split; by apply bind_Crash.
  - intros Hk Hr fuel. by apply bind_Crash, loop_after_eof.
Qed.
End fixed.
End stream_thms.

(** ** A connection to try the theorems on *)

(** It delivers the given pieces, one a call, then the end of the stream, and
    takes at most so many bytes a call; it keeps what was sent. *)
Record Wire := mkWire { w_in : list bytes; w_cap : Z; w_out : bytes; w_closed : bool }.

#[export] Instance WireApi : SocketApi Wire := {
  sys_socket _ _ _ w := (-1, w);
  sys_bind _ _ w := (false, w);
  sys_connect _ _ _ w := (false, w);
  sys_listen _ _ w := (false, w);
  sys_accept _ w := (-1, w);
  sys_close _ w := mkWire (w_in w) (w_cap w) (w_out w) true;
  sys_send _ d _ w := (Z.min (w_cap w) (zlen d), mkWire (w_in w) (w_cap w) (w_out w ++ ztake (w_cap w) d) (w_closed w));
  sys_recv _ len w :=
    match w_in w with
    | [] => (Some ([], UnknownAddress_new 0), w)
    | p :: ps => (Some (ztake len p, UnknownAddress_new 0),
                  mkWire (if zlen p <=? len then ps else zdrop len p :: ps) (w_cap w) (w_out w) (w_closed w))
    end;
  sys_getpeername _ _ _ := None;
  sys_getsockname _ _ _ := None;
  sys_getsockopt _ _ _ _ := None;
  sys_setsockopt _ _ _ _ w := (false, w);
  fd_get _ _ := None;
  io_cancel _ _ w := (false, w);
  io_cancelAll _ w := (false, w)
}.

Definition wire_socket : Socket := mkSocket 5 AF_INET SOCK_STREAM 0 true None None.

Lemma read_ba_writes_witness :
  let s0 := ByteArray_new (un := zeroed) 2 in let w := mkWire [bs "hello"] 4096 [] false in
  wf s0 /\
  exists s', read_ba (un := zeroed) 7 (s0, (mkStream (Some wire_socket) true, w))
      = Ret 5 (s', (mkStream (Some wire_socket) true, mkWire [] 4096 [] false)) /\
    wf s' /\ abs s' = spec_write (bs "hello") (abs s0) /\ m_baseSize s' = m_baseSize s0 /\ m_endian s' = m_endian s0.
Proof.
  cbv zeta. assert (Hw : wf (ByteArray_new (un := zeroed) 2)) by (apply wf_new; lia). split; [exact Hw|].
  apply (read_ba_writes (un := zeroed) (ByteArray_new (un := zeroed) 2) wire_socket true (mkWire [bs "hello"] 4096 [] false) 7
    (bs "hello") (UnknownAddress_new 0) (mkWire [] 4096 [] false) Hw);
  [lia|cbn; lia|reflexivity|reflexivity|vm_compute; split; [reflexivity|discriminate]].
Defined.

Lemma fixed_size_loops_witness :
  (0 < zlen (bs "......") < 2 ^ 31) /\
  readFixSize 3 (bs "......") 6 (mkStream (Some wire_socket) true, mkWire [bs "abcd"; bs "ef"] 4 [] false)
    = Ret (6, bs "efcd..") (mkStream (Some wire_socket) true, mkWire [] 4 [] false) /\
  writeFixSize 3 (bs "abcdef") 6 (mkStream (Some wire_socket) true, mkWire [] 4 [] false)
    = Ret 6 (mkStream (Some wire_socket) true, mkWire [] 4 (bs "abcdab") false) /\
  readFixSize 50 (bs "......") 6 (mkStream (Some wire_socket) true, mkWire [] 4 [] false) = Crash OutOfFuel.
Proof.
  assert (Hb : 0 < zlen (bs "......") < 2 ^ 31) by (vm_compute; split; reflexivity). split; [exact Hb|].
  set (w0 := mkWire [bs "abcd"; bs "ef"] 4 [] false). set (w1 := mkWire [bs "ef"] 4 [] false). set (w2 := mkWire [] 4 [] false).
  assert (Hb2 : 0 < zlen (bs "abcdef") < 2 ^ 31) by (vm_compute; split; reflexivity).
  destruct (fixed_size_loops wire_socket true (bs "......") w0 w1 w2 Hb) as (_ & R & _ & _ & _).
  destruct (fixed_size_loops wire_socket true (bs "abcdef") w2 (mkWire [] 4 (bs "abcd") false) (mkWire [] 4 (bs "abcdab") false) Hb2) as (_ & _ & W & _ & _).
  destruct (fixed_size_loops wire_socket true (bs "......") w2 w2 w2 Hb) as (_ & _ & _ & _ & F).
  split; [|split].
  - apply (R eq_refl (bs "abcd") (bs "ef") (UnknownAddress_new 0)); [reflexivity..].
  - apply (W eq_refl 2); [vm_compute; split; reflexivity|reflexivity..].
  - apply (F eq_refl). intros l. exists (UnknownAddress_new 0). reflexivity.
Defined.
