(* ===== verification/HttpSession.v ===== *)
(** linko/http/http_session.{h,cc}: the server's end of a connection.

    The array the bytes are received into is a list of [buff_size] bytes; the
    parser works on a prefix of it and moves what it has not consumed to the
    front. *)
From S2P Require Import Prelude ByteArray Address Http HttpParser Socket Stream.
From S2P Require Http11.
Import HttpParser.Request.
Open Scope Z_scope.

(** What the program depends on besides the connection: the sizes configured,
    boost's [lexical_cast<uint64_t>], the largest string there is memory for,
    and what uninitialised members and arrays hold. *)
Class HttpEnv := {
  env_sizes : sizes;
  lexical_cast : bytes -> option Z;
  max_string : Z;
  raw_parser : Http11.http_parser;
  raw_client_parser : HttpClient.httpclient_parser;
  raw_status : HttpStatus
}.

Section strings.
Context {env : HttpEnv} {S : Type}.
(** A string of [n] bytes is allocated. *)
Definition str_alloc (n : Z) : M S unit :=
  if 2 ^ 63 - 1 <? n then throw (length_error "basic_string")
  else if max_string <? n then throw bad_alloc
  else mret tt.
(** [std::string body; body.resize(n)]. *)
Definition str_resize (n : Z) : M S bytes := str_alloc n;; mret (zeros n).
(** [body.append(data, n)]. *)
Definition str_append (body data : bytes) (n : Z) : M S bytes :=
  str_alloc (zlen body + n);;
  if zlen data <? n then crash_with OutOfBounds else mret (body ++ ztake n data).
End strings.

Section session.
Context {un : Uninit} {N : Type} `{SocketApi N} {env : HttpEnv}.
Abbreviation ST := (M (SocketStream * N)).

(** [new char[n]]. *)
Definition new_chars (n : Z) : bytes := map (fun i => uninit (Z.of_nat i)) (seq 0 (Z.to_nat n)).

(** [read(data + offset, length)]: the bytes are stored at [offset].  The result
    is the number of bytes and the array; [-1] for an error. *)
Definition read_at (data : bytes) (offset length : Z) : ST (Z * bytes) :=
  r ← read (u64 length);
  match r with
  | None => mret (-1, data)
  | Some d =>
    if (offset <? 0) || (zlen data <? offset + zlen d) then crash_with OutOfBounds
    else mret (i32 (zlen d), overwrite offset d data)
  end.

(** The first loop of recvRequest: the parser, the array and [offset] when the
    head is complete; [None] when the session was closed. *)
Fixpoint recv_head (fuel : nat) (buff_size : Z) (parser : HttpRequestParser) (data : bytes) (offset : Z)
    : ST (option (HttpRequestParser * bytes * Z)) :=
  match fuel with
  | O => crash_with OutOfFuel
  | S fuel =>
    '(len, data) ← read_at data offset (buff_size - offset);
    if len <=? 0 then close;; mret None else
    let len := len + offset in
    '((nparse, moved), parser) ← on_local (execute (ztake len data)) parser;
    let data := moved ++ zdrop len data in
    if hasError parser then close;; mret None else
    let offset := i32 (u64 (len - nparse)) in
    if offset =? i32 buff_size then close;; mret None else
    if negb (isFinished parser =? 0) then mret (Some (parser, data, offset))
    else recv_head fuel buff_size parser data offset
  end.

(** The body: [None] when the session was closed. *)
Definition recv_body (fuel : nat) (data : bytes) (offset length : Z) : ST (option bytes) :=
  body ← str_resize length;
  '(body, len) ← (if offset <=? length then b ← str_append body data offset; mret (b, offset)
                  else b ← str_append body data length; mret (b, i32 length));
  let length := length - offset in
  if 0 <? length then
    '(rt, b) ← readFixSize fuel (zdrop len body) length;
    if rt <=? 0 then close;; mret None else mret (Some (ztake len body ++ b))
  else mret (Some body).

Definition recvRequest (fuel : nat) : ST (option HttpRequest) :=
  let parser := HttpRequestParser_new raw_parser raw_status in
  let buff_size := GetHttpRequestBufferSize env_sizes in
  r ← recv_head fuel buff_size parser (new_chars buff_size) 0;
  match r with
  | None => mret None
  | Some (parser, data, offset) =>
    let length := i64 (getContentLength lexical_cast parser) in
    let req := getData parser in
    body ← (if 0 <? length then recv_body fuel data offset length else mret (Some (m_body req)));
    match body with
    | None => mret None
    | Some body =>
      let req := setBody body req in
      let keep_alive := getHeader req (bs "Connection") [] in
      mret (Some (if strcasecmp (c_str keep_alive) (bs "keep-alive") =? 0 then setClose false req else req))
    end
  end.

(** sendResponse, and HttpConnection::sendRequest, of the text. *)
Definition send_text (fuel : nat) (data : bytes) : ST Z := writeFixSize fuel data (zlen data).
Definition sendResponse (fuel : nat) (rsp : Http.Response.HttpResponse) : ST Z := send_text fuel (Http.Response.dump rsp).

(** A function that owns a session on the socket: the session goes away at the
    end, also when an exception leaves the function. *)
Definition with_session {A} (sock : Socket) (m : ST A) : M N A := fun n =>
  match m (SocketStream_new (Some sock) true, n) with
  | Ret a st =>
    match SocketStream_delete st with
    | Ret _ (_, n') => Ret a n'
    | Throw e (_, n') => Throw e n'
    | Crash c => Crash c
    end
  | Throw e st =>
    match SocketStream_delete st with
    | Ret _ (_, n') | Throw _ (_, n') => Throw e n'
    | Crash c => Crash c
    end
  | Crash c => Crash c
  end.
End session.
