(* ===== verification/HttpSessionThms.v ===== *)
(** What recvRequest makes of the bytes a socket delivers. *)
From S2P Require Import Prelude OrdMap Endian ByteArray Address Http HttpThms HttpParser Http11Safe HttpRoundtrip Socket Stream StreamThms HttpSession.
Import HttpParser.Request.
Open Scope Z_scope.

(** What boost documents of its conversion to an unsigned 64-bit integer. *)
Definition casts_decimals {env : HttpEnv} : Prop := forall n, 0 <= n < 2 ^ 64 -> lexical_cast (show_dec n) = Some n.

Section session.
Context {un : Uninit} {N : Type} `{SocketApi N} {env : HttpEnv}.
Context (k : Socket) (o : bool) (Hk : m_isConnected k = true).
Let t := mkStream (Some k) o.
Abbreviation B := (GetHttpRequestBufferSize env_sizes).

Lemma new_chars_zlen n : 0 <= n -> zlen (new_chars n) = n.
Proof. intros Hn. unfold new_chars, zlen. rewrite length_map, length_seq. lia. Qed.

Lemma overwrite_front (d data : bytes) : zlen d <= zlen data -> ztake (zlen d) (overwrite 0 d data) = d /\ zlen (overwrite 0 d data) = zlen data.
Proof.
  intros Hd. pose proof (zlen_nonneg d). unfold overwrite. rewrite ztake_0. cbn [app]. rewrite Z.add_0_l. split.
  - rewrite ztake_app_le by lia. by apply ztake_all.
  - rewrite zlen_app, zlen_zdrop by lia. lia.
Qed.

Lemma read_at_front (data : bytes) buff_size (n : N) d from n' :
  0 < buff_size < 2 ^ 31 -> zlen data = buff_size -> zlen d <= buff_size ->
  sys_recv (m_sock k) buff_size n = (Some (d, from), n') ->
  read_at data 0 (buff_size - 0) (t, n) = Ret (zlen d, overwrite 0 d data) (t, n').
Proof.
  intros Hb Hdata Hd E. pose proof (zlen_nonneg d). unfold read_at. rewrite Z.sub_0_r.
  assert (u64 buff_size = buff_size) as -> by (apply wrap_small; unfold in_u; lia).
  step_with (read_run k o n buff_size _ _ Hk E). cbn [option_map fst].
  cbn [Z.ltb Z.compare orb]. destruct (Z.ltb_spec (zlen data) (0 + zlen d)); [lia|].
  by assert (i32 (zlen d) = zlen d) as -> by (apply swrap_small; [lia|unfold in_s; lia]).
Qed.

(** The head comes in one piece, with something behind it. *)
Lemma recv_head_once r (tl : bytes) fuel (n : N) from n' :
  request_ok r -> 0 < B < 2 ^ 31 -> zlen (head r ++ tl) <= B ->
  sys_recv (m_sock k) B n = (Some (head r ++ tl, from), n') ->
  exists parser data,
    recv_head (S fuel) B (HttpRequestParser_new raw_parser raw_status) (new_chars B) 0 (t, n)
      = Ret (Some (parser, data, zlen tl)) (t, n') /\
    ztake (zlen tl) data = tl /\ zlen tl <= zlen data /\
    getData parser = m_data (read_data r (mkRData (HttpRequest_new raw_status 0x11 true) 0)).
Proof.
  intros Hok HB Hle E. set (piece := head r ++ tl) in *. assert (Hc : zlen (new_chars B) = B) by (apply new_chars_zlen; lia).
  destruct (execute_head r raw_parser raw_status tl Hok) as (rest & p & Ee & Hb & Hz & Hf & He & Hd).
  { fold piece. lia. }
  fold piece in Ee, Hz. assert (Hhead : 0 < zlen (head r)).
  { pose proof (zlen_nonneg (head r)). destruct (Z.eq_dec (zlen (head r)) 0) as [Hz0%zlen_0|]; [|lia].
    unfold head in Hz0. destruct Hok as [Hm _ _ _ _ _ _ _]. by destruct (Http.m_method r). }
  assert (Hpz : zlen piece = zlen (head r) + zlen tl) by apply zlen_app. pose proof (zlen_nonneg tl).
  destruct (overwrite_front piece (new_chars B)) as [Ho1 Ho2]; [lia|].
  exists p, (rest ++ zdrop (zlen piece) (overwrite 0 piece (new_chars B))). split_and!.
  - cbn [recv_head]. step_with (read_at_front _ _ n _ from n' HB Hc Hle E). destruct (Z.leb_spec (zlen piece) 0); [lia|].
    rewrite Z.add_0_r, Ho1. step_with (on_local_run _ _ _ _ (t, n') Ee). rewrite He.
    assert (u64 (zlen piece - zlen (head r)) = zlen tl) as -> by (rewrite wrap_small; unfold in_u; lia).
    assert (i32 (zlen tl) = zlen tl) as -> by (apply swrap_small; [lia|unfold in_s; lia]).
    assert (i32 B = B) as -> by (apply swrap_small; [lia|unfold in_s; lia]).
    destruct (Z.eqb_spec (zlen tl) B); [lia|]. by rewrite Hf.
  - rewrite ztake_app_le by lia. exact Hb.
  - rewrite zlen_app. pose proof (zlen_nonneg (zdrop (zlen piece) (overwrite 0 piece (new_chars B)))). lia.
  - exact Hd.
Qed.
(** The rest of the body comes in one piece. *)
Lemma readFixSize_once fuel (buf d : bytes) (n : N) from n' :
  0 < zlen d < 2 ^ 31 -> zlen d <= zlen buf -> sys_recv (m_sock k) (zlen d) n = (Some (d, from), n') ->
  readFixSize (S (S fuel)) buf (zlen d) (t, n) = Ret (zlen d, d ++ zdrop (zlen d) buf) (t, n').
Proof.
  intros Hd Hle E. unfold readFixSize.
  assert (R : readFixSize_loop (S (S fuel)) buf (zlen d) (t, n) = Ret (overwrite 0 d buf) (t, n')).
  { etransitivity; [apply (read_round k o (S fuel) buf (zlen d) n d from n' Hk Hd E ltac:(lia) Hle)|]. by rewrite Z.sub_diag. }
  step_with R. assert (i32 (zlen d) = zlen d) as -> by (apply swrap_small; [lia|unfold in_s; lia]).
  unfold mret, M_ret. do 2 f_equal.
Qed.

Lemma writeFixSize_once fuel (d : bytes) (n n' : N) :
  0 < zlen d < 2 ^ 31 -> sys_send (m_sock k) d None n = (zlen d, n') ->
  writeFixSize (S (S fuel)) d (zlen d) (t, n) = Ret (zlen d) (t, n').
Proof.
  intros Hd E. unfold writeFixSize.
  assert (R : writeFixSize_loop (S (S fuel)) d (zlen d) (t, n) = Ret tt (t, n')).
  { etransitivity; [apply (write_round k o (S fuel) d (zlen d) n (zlen d) n' Hk Hd); [lia| |lia]|by rewrite Z.sub_diag].
    by rewrite ztake_all by lia. }
  step_with R. unfold mret, M_ret. f_equal. apply swrap_small; [lia|unfold in_s; lia].
Qed.

Lemma zeros_zlen n : 0 <= n -> zlen (zeros n) = n.
Proof. intros Hn. unfold zeros, zlen. rewrite length_replicate. lia. Qed.
Lemma zeros_split n m : 0 <= n -> 0 <= m -> zeros (n + m) = zeros n ++ zeros m.
Proof. intros Hn Hm. unfold zeros. by rewrite Z2Nat.inj_add, replicate_add. Qed.

Lemma str_alloc_run {S} n (st : S) : n <= max_string -> n < 2 ^ 63 -> str_alloc n st = Ret tt st.
Proof.
  intros Hn Hm. unfold str_alloc. destruct (Z.ltb_spec (2 ^ 63 - 1) n); [lia|]. destruct (Z.ltb_spec max_string n); [lia|done].
Qed.
Lemma str_resize_run {S} n (st : S) : n <= max_string -> n < 2 ^ 63 -> str_resize n st = Ret (zeros n) st.
Proof. intros Hn Hm. unfold str_resize. by step_with (str_alloc_run n st Hn Hm). Qed.
Lemma str_append_run {S} body data n (st : S) :
  n <= zlen data -> zlen body + n <= max_string -> zlen body + n < 2 ^ 63 -> str_append body data n st = Ret (body ++ ztake n data) st.
Proof.
  intros Hn Hm Hb. unfold str_append. step_with (str_alloc_run _ st Hm Hb). by destruct (Z.ltb_spec (zlen data) n); [lia|].
Qed.

(** A body of which [b1] came behind the head and [b2] comes in one piece. *)
Lemma recv_body_run fuel data (b1 b2 more : bytes) (n : N) from n' :
  let L := zlen (b1 ++ b2) in
  ztake (zlen (b1 ++ more)) data = b1 ++ more -> zlen (b1 ++ more) <= zlen data ->
  L < 2 ^ 31 -> L + L <= max_string ->
  (b2 = [] /\ n' = n \/ b2 <> [] /\ more = [] /\ sys_recv (m_sock k) (zlen b2) n = (Some (b2, from), n')) ->
  recv_body (S (S fuel)) data (zlen (b1 ++ more)) L (t, n) = Ret (Some (zeros (zlen b1) ++ b2 ++ b1)) (t, n').
Proof.
  intros L Hdata Hz HL Hmax Hcase. pose proof (zlen_nonneg b1). pose proof (zlen_nonneg b2). pose proof (zlen_nonneg more).
  assert (EL : L = zlen b1 + zlen b2) by apply zlen_app. assert (Em : zlen (b1 ++ more) = zlen b1 + zlen more) by apply zlen_app.
  assert (Hb1 : ztake (zlen b1) data = b1).
  { rewrite <- (ztake_ztake (zlen b1) (zlen (b1 ++ more))), Hdata by lia. rewrite ztake_app_le by lia. by apply ztake_all. }
  assert (Hzl : zlen (zeros L) = L) by (apply zeros_zlen; lia).
  assert (Hi : forall z, 0 <= z < 2 ^ 31 -> i32 z = z) by (intros; apply swrap_small; [lia|unfold in_s; lia]).
  unfold recv_body. step_with (str_resize_run L (t, n) ltac:(lia) ltac:(lia)).
  assert (Ea : (if zlen (b1 ++ more) <=? L then b ← str_append (zeros L) data (zlen (b1 ++ more)); mret (b, zlen (b1 ++ more))
                else b ← str_append (zeros L) data L; mret (b, i32 L)) (t, n)
               = Ret (zeros L ++ b1, zlen b1) (t, n)).
  { destruct Hcase as [[-> ->]|(Hb2 & -> & E)].
    - rewrite zlen_nil, Z.add_0_r in EL. rewrite <- EL in Hb1. destruct (Z.leb_spec (zlen (b1 ++ more)) L).
      + replace (zlen (b1 ++ more)) with L by lia. step_with (str_append_run (zeros L) data L (t, n) ltac:(lia) ltac:(lia) ltac:(lia)).
        by rewrite Hb1, EL.
      + step_with (str_append_run (zeros L) data L (t, n) ltac:(lia) ltac:(lia) ltac:(lia)). rewrite Hb1, Hi by lia. by rewrite EL.
    - rewrite app_nil_r in *. destruct (Z.leb_spec (zlen b1) L); [|lia].
      step_with (str_append_run (zeros L) data (zlen b1) (t, n) ltac:(lia) ltac:(lia) ltac:(lia)). by rewrite Hb1. }
  step_with Ea. rewrite EL in Hzl |- *. destruct Hcase as [[-> ->]|(Hb2 & -> & E)].
  - change (zlen (A:=ascii) []) with 0. rewrite Z.add_0_r. destruct (Z.ltb_spec 0 (zlen b1 - zlen (b1 ++ more))); [lia|]. done.
  - rewrite app_nil_r, Z.add_simpl_l.
    assert (0 < zlen b2) by (destruct (Z.eq_dec (zlen b2) 0) as [?%zlen_0|]; [done|lia]).
    destruct (Z.ltb_spec 0 (zlen b2)); [|lia]. rewrite zeros_split, <- app_assoc by lia.
    rewrite zdrop_app_ge by (rewrite zeros_zlen; lia). rewrite zeros_zlen, Z.sub_diag, zdrop_0 by lia.
    step_with (readFixSize_once fuel (zeros (zlen b2) ++ b1) b2 n from n' ltac:(lia)
      ltac:(rewrite zlen_app, zeros_zlen; lia) E). cbv beta iota.
    destruct (Z.leb_spec (zlen b2) 0); [lia|].
    rewrite ztake_app_le by (rewrite zeros_zlen; lia). rewrite ztake_all by (rewrite zeros_zlen; lia).
    rewrite zdrop_app_ge by (rewrite zeros_zlen; lia). by rewrite zeros_zlen, Z.sub_diag, zdrop_0 by lia.
Qed.

(** Closing the session. *)
Lemma close_run (n : N) : m_sock k <> -1 ->
  Stream.close (SocketStream_new (Some k) true, n) = Ret tt (SocketStream_new (Some (set_sock (-1) (set_connected false k))) true, sys_close (m_sock k) n).
Proof.
  intros Hfd. unfold Stream.close. step_with (eq_refl : stream (SocketStream_new (Some k) true, n) = Ret (SocketStream_new (Some k) true) (SocketStream_new (Some k) true, n)).
  unfold on_socket, Socket.close, sock, on_sock, syscall, modify, get, mbind, M_bind, mret, M_ret. cbn.
  rewrite Hk. cbn. by destruct (Z.eqb_spec (m_sock k) (-1)).
Qed.

(** The request recvRequest returns for [r], with this body. *)
Definition received (r : HttpRequest) (body : bytes) (r' : HttpRequest) : Prop :=
  m_method r' = m_method r /\ m_version r' = m_version r /\ m_path r' = m_path r /\ m_query r' = m_query r /\
  m_fragment r' = m_fragment r /\ m_close r' = m_close r /\ m_body r' = body /\
  forall key, find key (m_headers r') = read_header r key.

Lemma recvRequest_run r fuel (b1 b2 more : bytes) (n n1 n2 : N) from from2 :
  request_ok r -> casts_decimals -> m_body r = b1 ++ b2 ->
  (m_body r = [] -> find (bs "content-length") (m_headers r) = None) ->
  0 < B < 2 ^ 31 -> zlen (head r ++ b1 ++ more) <= B -> 2 * zlen (m_body r) <= max_string ->
  sys_recv (m_sock k) B n = (Some (head r ++ b1 ++ more, from), n1) ->
  (b2 = [] /\ n2 = n1 \/ b2 <> [] /\ more = [] /\ sys_recv (m_sock k) (zlen b2) n1 = (Some (b2, from2), n2)) ->
  exists r', recvRequest (S (S fuel)) (t, n) = Ret (Some r') (t, n2) /\ received r (zeros (zlen b1) ++ b2 ++ b1) r'.
Proof.
  intros Hok Hcast Hbody Hnone HB Hle Hmax E1 E2.
  destruct (recv_head_once r (b1 ++ more) (S fuel) n from n1 Hok HB Hle E1) as (p & data & Eh & Hd & Hz & Hg).
  set (d0 := mkRData (HttpRequest_new raw_status 0x11 true) 0) in *.
  destruct (read_data_fields r raw_status (ok_sorted r Hok)) as (_ & H1 & H2 & H3 & H4 & H5 & H6 & H7 & H8). fold d0 in H1, H2, H3, H4, H5, H6, H7, H8.
  rewrite <- Hg in H1, H2, H3, H4, H5, H6, H7, H8. pose proof (zlen_nonneg (m_body r)).
  assert (HL : zlen (m_body r) < 2 ^ 31).
  { pose proof (ok_size r Hok) as Hs. rewrite dump_eq, zlen_app in Hs. pose proof (zlen_nonneg (head r)). lia. }
  assert (Hlen : i64 (getContentLength lexical_cast p) = zlen (m_body r)).
  { unfold getContentLength, getAs. rewrite H8. unfold read_header. rewrite decide_True by done.
    destruct (m_body r) as [|c body]; [by rewrite Hnone|]. rewrite Hcast by lia. apply swrap_small; [lia|unfold in_s; lia]. }
  assert (Eb : (if 0 <? zlen (m_body r) then recv_body (S (S fuel)) data (zlen (b1 ++ more)) (zlen (m_body r)) else mret (Some (m_body (getData p)))) (t, n1)
               = Ret (Some (zeros (zlen b1) ++ b2 ++ b1)) (t, n2)).
  { destruct (Z.ltb_spec 0 (zlen (m_body r))) as [Hpos|Hz0].
    - rewrite Hbody in *. apply (recv_body_run fuel data b1 b2 more n1 from2 n2 Hd Hz); [lia|lia|exact E2].
    - assert (m_body r = []) as Hr by (apply zlen_0; lia). rewrite Hr in Hbody. symmetry in Hbody. apply app_eq_nil in Hbody as [-> ->].
      destruct E2 as [[_ ->]|[? _]]; [|done]. by rewrite H7. }
  eexists. split.
  - unfold recvRequest. step_with Eh. rewrite Hlen. step_with Eb. reflexivity.
  - set (q := setBody _ _).
    assert (Hc : getHeader q (bs "Connection") [] = if m_close r then bs "close" else bs "keep-alive").
    { unfold getHeader. change (m_headers q) with (m_headers (getData p)). by rewrite H8. }
    rewrite Hc. destruct (m_close r) eqn:Ecl; cbn [strcasecmp].
    + change (_ =? 0) with false. cbv iota. unfold received. rewrite Ecl. by split_and!.
    + change (_ =? 0) with true. cbv iota. unfold received. rewrite Ecl. by split_and!.
Qed.
(** C25: what a server makes of a request that [dump] wrote and whose first piece
    brings the whole head with the first part [b1] of the body and what follows it,
    and whose second, if the body is not complete, brings the rest [b2]: method, version, path, query, fragment, headers and the
    connection flag are right, but the body is not the one sent: it is as many
    zero bytes as [b1] has, then [b2], then [b1].  So a body that comes with the
    head is preceded by zeros of its own length, and only a body that comes
    separately is read as sent.  Bytes of a following request that came along,
    [more], are lost: nothing of them is in the session's state.  A request whose
    head is cut is another matter (HttpLimits). *)
Theorem recvRequest_receives r fuel (b1 b2 more : bytes) (n n1 n2 : N) from from2 :
  request_ok r -> casts_decimals -> m_body r = b1 ++ b2 ->
  (m_body r = [] -> find (bs "content-length") (m_headers r) = None) ->
  0 < B < 2 ^ 31 -> zlen (head r ++ b1 ++ more) <= B -> 2 * zlen (m_body r) <= max_string ->
  sys_recv (m_sock k) B n = (Some (head r ++ b1 ++ more, from), n1) ->
  (b2 = [] /\ n2 = n1 \/ b2 <> [] /\ more = [] /\ sys_recv (m_sock k) (zlen b2) n1 = (Some (b2, from2), n2)) ->
  exists r', recvRequest (S (S fuel)) (t, n) = Ret (Some r') (t, n2) /\ received r (zeros (zlen b1) ++ b2 ++ b1) r'.
Proof. apply recvRequest_run. Qed.
End session.

(** ** Two deliveries of one request *)

(** Decimal digits of a value below 2^64, and nothing else. *)
Definition cast_uint64 (s : bytes) : option Z :=
  if bool_decide (s <> []) && forallb is_digit s && (dec_value 0 s <? 2 ^ 64) then Some (dec_value 0 s) else None.

Definition demo_client_raw : HttpClient.httpclient_parser := HttpClient.mkClientParser 0 0 0 0 0 0 0 0 0 0 0.
#[export] Instance demo_env : HttpEnv :=
  {| env_sizes := default_sizes; lexical_cast := cast_uint64; max_string := 2 ^ 40;
     raw_parser := q_zero; raw_client_parser := demo_client_raw; raw_status := 0 |}.

Lemma demo_casts : casts_decimals.
Proof.
  intros n Hn. destruct (show_dec_spec n ltac:(lia)) as (Hne & Hd & Hv). cbn [lexical_cast demo_env]. unfold cast_uint64.
  rewrite bool_decide_true, Hd, Hv by done. cbn [andb]. by destruct (Z.ltb_spec n (2 ^ 64)); [|lia].
Qed.

Lemma recvRequest_receives_witness :
  (exists r', recvRequest (un := zeroed) 2 (mkStream (Some wire_socket) true, mkWire [Http.dump demo_request ++ bs "GET / "] 4096 [] false)
     = Ret (Some r') (mkStream (Some wire_socket) true, mkWire [] 4096 [] false) /\
   received demo_request (zeros 5 ++ bs "hello") r') /\
  (exists r', recvRequest (un := zeroed) 2 (mkStream (Some wire_socket) true, mkWire [head demo_request; bs "hello"] 4096 [] false)
     = Ret (Some r') (mkStream (Some wire_socket) true, mkWire [] 4096 [] false) /\
   received demo_request (bs "hello") r').
Proof.
  split.
  - apply (recvRequest_receives (un := zeroed) wire_socket true eq_refl demo_request 0 (bs "hello") [] (bs "GET / ")
      (mkWire [Http.dump demo_request ++ bs "GET / "] 4096 [] false) (mkWire [] 4096 [] false) (mkWire [] 4096 [] false)
      (UnknownAddress_new 0) (UnknownAddress_new 0) demo_request_ok demo_casts eq_refl);
    [discriminate|split; reflexivity|vm_compute; discriminate|vm_compute; discriminate|reflexivity|left; split; reflexivity].
  - apply (recvRequest_receives (un := zeroed) wire_socket true eq_refl demo_request 0 [] (bs "hello") []
      (mkWire [head demo_request; bs "hello"] 4096 [] false) (mkWire [bs "hello"] 4096 [] false) (mkWire [] 4096 [] false)
      (UnknownAddress_new 0) (UnknownAddress_new 0) demo_request_ok demo_casts eq_refl);
    [discriminate|split; reflexivity|vm_compute; discriminate|vm_compute; discriminate|reflexivity|right].
    split; [discriminate|]. split; reflexivity.
Defined.
