(* ===== verification/HttpServer.v ===== *)
(** linko/tcp_server.{h,cc} and linko/http/http_server.{h,cc}: accepting
    connections and answering the requests on each. *)
From S2P Require Import Prelude Endian ByteArray Address Http HttpParser Servlet Socket Stream HttpSession.
From stdpp Require Import gmap.
Open Scope Z_scope.

(** ** TcpServer *)

(** What the server gives to the two schedulers: handleClient of a connection,
    startAccept of a listening socket, the function stop schedules. *)
Inductive task := HandleClient (client : Socket) | StartAccept (sock : nat) | CloseAll.

(** [schedule] of m_worker and of m_accpetWorker. *)
Class Workers (N : Type) := {
  worker_schedule : task -> N -> N;
  accept_worker_schedule : task -> N -> N
}.

(** The listening sockets are objects that the array and the accepting tasks
    share: [heap] holds them, m_socks has their places. *)
Record TcpServer := mkTcpServer {
  heap : gmap nat Socket;
  next : nat;
  m_socks : list nat;
  m_recvTimeout : Z;
  m_name : bytes;
  m_isStop : bool
}.

Definition TcpServer_new : TcpServer := mkTcpServer ∅ 0 [] 0 (bs "linko/1.0.0") true.
Definition set_heap (h : gmap nat Socket) (s : TcpServer) : TcpServer :=
  mkTcpServer h (next s) (m_socks s) (m_recvTimeout s) (m_name s) (m_isStop s).
Definition set_socks (v : list nat) (s : TcpServer) : TcpServer :=
  mkTcpServer (heap s) (next s) v (m_recvTimeout s) (m_name s) (m_isStop s).
Definition set_stop (v : bool) (s : TcpServer) : TcpServer :=
  mkTcpServer (heap s) (next s) (m_socks s) (m_recvTimeout s) (m_name s) v.
Definition setRecvTimeout (v : Z) (s : TcpServer) : TcpServer :=
  mkTcpServer (heap s) (next s) (m_socks s) v (m_name s) (m_isStop s).
Definition setName (v : bytes) (s : TcpServer) : TcpServer :=
  mkTcpServer (heap s) (next s) (m_socks s) (m_recvTimeout s) v (m_isStop s).
(** A new object, which the array gets. *)
Definition push_sock (k : Socket) (s : TcpServer) : TcpServer :=
  mkTcpServer (<[next s := k]> (heap s)) (Datatypes.S (next s)) (m_socks s ++ [next s]) (m_recvTimeout s) (m_name s) (m_isStop s).

Section tcp.
Context {host : Host} {N : Type} `{SocketApi N} `{Workers N}.
Abbreviation TM := (M (TcpServer * N)).

Definition server : TM TcpServer := s ← get; mret s.1.
Definition on_server (f : TcpServer -> TcpServer) : TM unit := modify (fun s => (f s.1, s.2)).
Definition outside (f : N -> N) : TM unit := modify (fun s => (s.1, f s.2)).

(** A method of a socket the function owns. *)
Definition on_own {A} (m : M (Socket * N) A) (k : Socket) : TM (A * Socket) := fun st =>
  match m (k, st.2) with
  | Ret a (k', n') => Ret (a, k') (st.1, n')
  | Throw e (_, n') => Throw e (st.1, n')
  | Crash c => Crash c
  end.
(** A method of a shared socket. *)
Definition on_shared {A} (m : M (Socket * N) A) (i : nat) : TM A := fun st =>
  match heap st.1 !! i with
  | None => Crash NullDeref
  | Some k =>
    match m (k, st.2) with
    | Ret a (k', n') => Ret a (set_heap (<[i := k']> (heap st.1)) st.1, n')
    | Throw e (k', n') => Throw e (set_heap (<[i := k']> (heap st.1)) st.1, n')
    | Crash c => Crash c
    end
  end.
(** The last reference to an object goes away: its destructor runs. *)
Definition release (i : nat) : TM unit :=
  on_shared Socket_delete i;; on_server (fun s => set_heap (delete i (heap s)) s).
Fixpoint for_each (f : nat -> TM unit) (l : list nat) : TM unit :=
  match l with
  | [] => mret tt
  | i :: l => f i;; for_each f l
  end.

(** [m_socks.clear()] while no accepting task holds a reference. *)
Definition clear_socks : TM unit :=
  s ← server; for_each release (m_socks s);; on_server (set_socks []).

(** The loop of [bind]: the addresses that failed. *)
Fixpoint bind_loop (addrs : list Address) (fails : list Address) : TM (list Address) :=
  match addrs with
  | [] => mret fails
  | addr :: addrs =>
    '(bound, sock) ← on_own (Socket.bind addr) (CreateTCP addr);
    if negb bound then
      on_own Socket_delete sock;; bind_loop addrs (fails ++ [addr])
    else
      '(listening, sock) ← on_own (Socket.listen SOMAXCONN) sock;
      if negb listening then
        on_own Socket_delete sock;; bind_loop addrs (fails ++ [addr])
      else on_server (push_sock sock);; bind_loop addrs fails
  end.
Definition bind (addrs fails : list Address) : TM (bool * list Address) :=
  fails ← bind_loop addrs fails;
  if negb (bool_decide (fails = [])) then clear_socks;; mret (false, fails) else mret (true, fails).
Definition bind_one (addr : Address) : TM bool := r ← bind [addr] []; mret r.1.

(** What other threads do to the server while [accept] waits. *)
Context (meanwhile : TcpServer -> N -> TcpServer).

(** startAccept runs until the server is stopped. *)
Fixpoint startAccept (fuel : nat) (i : nat) : TM unit :=
  match fuel with
  | O => crash_with OutOfFuel
  | Datatypes.S fuel =>
    s ← server;
    if m_isStop s then mret tt else
    client ← on_shared accept i;
    modify (fun st => (meanwhile st.1 st.2, st.2));;
    match client with
    | Some client =>
      s ← server;
      '(_, client) ← on_own (Socket.setRecvTimeout (m_recvTimeout s)) client;
      outside (worker_schedule (HandleClient client))
    | None => mret tt
    end;;
    startAccept fuel i
  end.

Definition start : TM bool :=
  s ← server;
  if negb (m_isStop s) then mret true else
  on_server (set_stop false);;
  for_each (fun i => outside (accept_worker_schedule (StartAccept i))) (m_socks s);;
  mret true.

Definition stop : TM unit :=
  on_server (set_stop true);;
  outside (accept_worker_schedule CloseAll).
(** The function it schedules; the objects stay while accepting tasks hold them. *)
Definition close_all : TM unit :=
  s ← server;
  for_each (fun i => on_shared cancelAll i;; on_shared Socket.close i;; mret tt) (m_socks s);;
  on_server (set_socks []).

(** ~TcpServer: no task is left, the references of the array are the last. *)
Definition TcpServer_delete : TM unit :=
  s ← server;
  for_each (fun i => on_shared Socket.close i;; mret tt) (m_socks s);;
  clear_socks.
End tcp.

(** ** HttpServer *)

Section http.
Context {un : Uninit} {N : Type} `{SocketApi N} {env : HttpEnv}.
Abbreviation ST := (M (SocketStream * N)).

(** The members of an HttpServer. *)
Record HttpServer := mkHttpServer { m_isKeepalive : bool; m_dispatch : ServletDispatch (SocketStream * N) }.
Definition HttpServer_new (keepalive : bool) : HttpServer := mkHttpServer keepalive ServletDispatch_new.

Context (fnmatch : bytes -> bytes -> bool) (srv : HttpServer).

(** The loop of handleClient, [rounds] requests at most; [fuel] bounds the reads
    and writes of each. *)
Fixpoint serve (rounds fuel : nat) : ST unit :=
  match rounds with
  | O => crash_with OutOfFuel
  | Datatypes.S rounds =>
    req ← recvRequest fuel;
    match req with
    | None => mret tt
    | Some req =>
      let rsp := Http.Response.HttpResponse_new (Http.m_version req) (Http.m_close req || negb (m_isKeepalive srv)) in
      '(_, req, rsp) ← dispatch_handle fnmatch (m_dispatch srv) req rsp;
      sendResponse fuel rsp;;
      if negb (m_isKeepalive srv) || Http.m_close req then mret tt else serve rounds fuel
    end
  end.

Definition handleClient (rounds fuel : nat) (client : Socket) : M N unit :=
  with_session client (serve rounds fuel;; Stream.close).
End http.
Arguments HttpServer : clear implicits.
