(* ===== verification/HttpServerThms.v ===== *)
(** What a client of the server gets: the answers to its requests, in order; and
    what bind leaves open. *)
From S2P Require Import Prelude.
From stdpp Require Import gmap.
From S2P Require Import Endian ByteArray Address Http HttpThms HttpParser HttpRoundtrip Servlet Socket SocketThms Stream StreamThms HttpSession HttpSessionThms HttpServer.
Open Scope Z_scope.

Section http.
Context {un : Uninit} {N : Type} `{SocketApi N} {env : HttpEnv}.
Context (fnmatch : bytes -> bytes -> bool) (srv : HttpServer N) (k : Socket).
Let t := SocketStream_new (Some k) true.
Abbreviation B := (GetHttpRequestBufferSize env_sizes).

(** The answer to a request that is received with this body is [out]: the servlet
    leaves the session and the request alone. *)
Definition answers (r : HttpRequest) (body out : bytes) : Prop :=
  0 < zlen out < 2 ^ 31 /\
  forall r' n, received r body r' -> exists rc rsp,
    dispatch_handle fnmatch (m_dispatch srv) r'
      (Http.Response.HttpResponse_new (m_version r') (m_close r' || negb (m_isKeepalive srv))) (t, n) = Ret (rc, r', rsp) (t, n) /\
    Http.Response.dump rsp = out.

(** The connection delivers [r] from [n] on, its body [b1] with the head and
    [b2] behind, and takes the answer [out], which leads to [n']. *)
Definition exchange (r : HttpRequest) (out : bytes) (n n' : N) : Prop :=
  exists (b1 b2 more : bytes) (n1 n2 : N) from from2,
    request_ok r /\ m_body r = b1 ++ b2 /\ (m_body r = [] -> find (bs "content-length") (m_headers r) = None) /\
    zlen (head r ++ b1 ++ more) <= B /\ 2 * zlen (m_body r) <= max_string /\
    sys_recv (m_sock k) B n = (Some (head r ++ b1 ++ more, from), n1) /\
    (b2 = [] /\ n2 = n1 \/ b2 <> [] /\ more = [] /\ sys_recv (m_sock k) (zlen b2) n1 = (Some (b2, from2), n2)) /\
    answers r (zeros (zlen b1) ++ b2 ++ b1) out /\ sys_send (m_sock k) out None n2 = (zlen out, n').

(** A conversation: exchanges that keep the connection, until the peer closes it
    or a request does not keep it. *)
Inductive conversation : N -> list (HttpRequest * bytes) -> N -> Prop :=
| conv_eof n n' from : sys_recv (m_sock k) B n = (Some ([], from), n') -> conversation n [] n'
| conv_last n n' r out : exchange r out n n' -> m_isKeepalive srv = false \/ m_close r = true -> conversation n [(r, out)] n'
| conv_next n n1 n' r out rest :
    exchange r out n n1 -> m_isKeepalive srv = true -> m_close r = false -> conversation n1 rest n' ->
    conversation n ((r, out) :: rest) n'.

Context (Hk : m_isConnected k = true) (HB : 0 < B < 2 ^ 31) (Hcast : casts_decimals).

(** One round of the loop of handleClient. *)
Lemma serve_exchange rounds fuel r out n n' :
  exchange r out n n' ->
  serve fnmatch srv (Datatypes.S rounds) (Datatypes.S (Datatypes.S fuel)) (t, n) =
    (if negb (m_isKeepalive srv) || m_close r then Ret tt (t, n')
     else serve fnmatch srv rounds (Datatypes.S (Datatypes.S fuel)) (t, n')).
Proof.
  intros (b1 & b2 & more & n1 & n2 & from & from2 & Hok & Hbody & Hnone & Hle & Hmax & E1 & E2 & [Ho Ha] & Es).
  destruct (recvRequest_run k true Hk r fuel b1 b2 more n n1 n2 from from2 Hok Hcast Hbody Hnone HB Hle Hmax E1 E2) as (r' & Er & Hr).
  destruct (Ha r' n2 Hr) as (rc & rsp & Ed & Hout). cbn [serve]. step_with Er. step_with Ed. cbv beta iota.
  unfold sendResponse, send_text. rewrite Hout. step_with (writeFixSize_once k true Hk fuel out n2 n' Ho Es).
  destruct Hr as (_ & _ & _ & _ & _ & -> & _). by destruct (negb (m_isKeepalive srv) || m_close r).
Qed.

(** Closing the session, once or more. *)
Let t' := SocketStream_new (Some (set_sock (-1) (set_connected false k))) true.
Context (Hfd : m_sock k <> -1).

Lemma close_again (n : N) : Stream.close (t', n) = Ret tt (t', n).
Proof. done. Qed.

Lemma handleClient_run rounds fuel (n n' : N) :
  serve fnmatch srv rounds fuel (t, n) = Ret tt (t, n') \/
    serve fnmatch srv rounds fuel (t, n) = Ret tt (t', sys_close (m_sock k) n') ->
  handleClient fnmatch srv rounds fuel k n = Ret tt (sys_close (m_sock k) n').
Proof.
  intros [E|E]; unfold handleClient, with_session; fold t.
  - assert (R : (serve fnmatch srv rounds fuel;; Stream.close) (t, n) = Ret tt (t', sys_close (m_sock k) n')).
    { step_with E. by apply close_run. }
    by rewrite R.
  - assert (R : (serve fnmatch srv rounds fuel;; Stream.close) (t, n) = Ret tt (t', sys_close (m_sock k) n')) by by step_with E.
    by rewrite R.
Qed.

(** The peer closes: the session is closed, too. *)
Lemma recvRequest_eof fuel (n n' : N) from :
  sys_recv (m_sock k) B n = (Some ([], from), n') ->
  recvRequest (Datatypes.S fuel) (t, n) = Ret None (t', sys_close (m_sock k) n').
Proof.
  intros E. unfold recvRequest.
  assert (R : recv_head (Datatypes.S fuel) B (HttpParser.Request.HttpRequestParser_new raw_parser raw_status) (new_chars B) 0 (t, n)
    = Ret None (t', sys_close (m_sock k) n')).
  { assert (Hc : zlen (new_chars B) = B) by (apply new_chars_zlen; lia). assert (H0 : zlen (A:=ascii) [] <= B) by (change (0 <= B); lia).
    cbn [recv_head]. step_with (read_at_front k true Hk (new_chars B) B n [] from n' HB Hc H0 E).
    change (zlen (A:=ascii) [] <=? 0) with true. cbv iota. by step_with (close_run k Hk n' Hfd). }
  by step_with R.
Qed.

(** C26: a connection is answered: if the requests of a conversation arrive one
    after the other and the servlets give an answer to each, handleClient sends
    these answers in the order of the requests, keeps the connection exactly as
    long as the server is configured to and the requests ask for, returns, and
    the descriptor is closed, once. *)
Theorem handleClient_answers xs fuel (n n' : N) :
  conversation n xs n' ->
  handleClient fnmatch srv (Datatypes.S (length xs)) (Datatypes.S (Datatypes.S fuel)) k n = Ret tt (sys_close (m_sock k) n').
Proof.
  intros C. apply handleClient_run. induction C as [n n' from E|n n' r out X Hlast|n n1 n' r out rest X Hka Hc C IH].
  - right. cbn [length serve]. by step_with (recvRequest_eof (Datatypes.S fuel) n n' from E).
  - left. rewrite (serve_exchange _ _ r out n n' X). by destruct Hlast as [-> | ->]; rewrite ?orb_true_r.
  - rewrite (serve_exchange _ _ r out n n1 X), Hka, Hc. exact IH.
Qed.
End http.

(** ** A conversation over a keep-alive connection *)

Definition demo_get (path : string) (close : bool) : HttpRequest :=
  setHeader (bs "Host") (bs "a.example") (setPath (bs path) (HttpRequest_new 0 0x11 close)).
(** A server with one servlet that answers with the path, and 404 for the rest. *)
Definition demo_servlet {S} : callback S := fun request response =>
  mret (0, request, Http.Response.setBody (m_path request) response).
Definition demo_server : HttpServer Wire :=
  mkHttpServer true (addServlet (bs "/hello") (Some (FunctionServlet demo_servlet)) ServletDispatch_new).
Definition demo_match (pattern s : bytes) : bool := bool_decide (pattern = s).

Definition demo_response (status : Z) (close : bool) (body : bytes) (hs : MapType) : Http.Response.HttpResponse :=
  Http.Response.setHeaders hs (Http.Response.setBody body (Http.Response.setStatus status (Http.Response.HttpResponse_new 0x11 close))).
Definition demo_out1 : bytes := Http.Response.dump (demo_response 200 false (bs "/hello") []).
Definition demo_out2 : bytes := Http.Response.dump (demo_response 404 true RSP_BODY
  [(bs "Content-Type", bs "text/html"); (bs "Server", bs "linko/1.0.0")]).

Lemma demo_get_ok (path : string) close :
  path_ok (bs path) = true -> zlen (Http.dump (demo_get path close)) < 2 ^ 31 -> request_ok (demo_get path close).
Proof. intros Hp Hz. constructor; try reflexivity; [exact Hp|by left|repeat constructor|exact Hz]. Qed.

Lemma demo_answers1 : answers demo_match demo_server wire_socket (demo_get "/hello" false) [] demo_out1.
Proof.
  split; [vm_compute; split; reflexivity|]. intros r' n (_ & Hv & Hp & _ & _ & Hc & _ & _). eexists 0, _.
  rewrite Hv, Hc. unfold dispatch_handle, getMatchedServlet. rewrite Hp. split; [reflexivity|].
  unfold demo_out1. cbn -[Http.Response.dump]. by rewrite Hp.
Qed.
Lemma demo_answers2 : answers demo_match demo_server wire_socket (demo_get "/other" true) [] demo_out2.
Proof.
  split; [vm_compute; split; reflexivity|]. intros r' n (_ & Hv & Hp & _ & _ & Hc & _ & _). eexists 0, _.
  rewrite Hv, Hc. unfold dispatch_handle, getMatchedServlet. rewrite Hp. split; reflexivity.
Qed.

Lemma handleClient_answers_witness :
  handleClient (un := zeroed) demo_match demo_server 3 2 wire_socket
    (mkWire [Http.dump (demo_get "/hello" false); Http.dump (demo_get "/other" true)] 4096 [] false)
  = Ret tt (mkWire [] 4096 (demo_out1 ++ demo_out2) true).
Proof.
  set (w1 := mkWire [Http.dump (demo_get "/other" true)] 4096 [] false).
  set (w2 := mkWire [Http.dump (demo_get "/other" true)] 4096 demo_out1 false).
  apply (handleClient_answers (un := zeroed) demo_match demo_server wire_socket eq_refl ltac:(split; reflexivity) demo_casts ltac:(discriminate)
    [(demo_get "/hello" false, demo_out1); (demo_get "/other" true, demo_out2)] 0 _ (mkWire [] 4096 (demo_out1 ++ demo_out2) false)).
  apply (conv_next _ _ _ _ w2).
  - exists [], [], [], w1, w1, (UnknownAddress_new 0), (UnknownAddress_new 0). rewrite !app_nil_r.
    split; [apply demo_get_ok; vm_compute; reflexivity|]. split; [reflexivity|]. split; [reflexivity|].
    split; [vm_compute; discriminate|]. split; [vm_compute; discriminate|]. split; [reflexivity|].
    split; [left; split; reflexivity|]. split; [exact demo_answers1|reflexivity].
  - reflexivity.
  - reflexivity.
  - apply conv_last; [|right; reflexivity].
    exists [], [], [], (mkWire [] 4096 demo_out1 false), (mkWire [] 4096 demo_out1 false), (UnknownAddress_new 0), (UnknownAddress_new 0). rewrite !app_nil_r.
    split; [apply demo_get_ok; vm_compute; reflexivity|]. split; [reflexivity|]. split; [reflexivity|].
    split; [vm_compute; discriminate|]. split; [vm_compute; discriminate|]. split; [reflexivity|].
    split; [left; split; reflexivity|]. split; [exact demo_answers2|reflexivity].
Defined.

(** ** What bind leaves open *)

Section tcp.
Context {host : Host} {N : Type} `{SocketLaws N} `{!Workers N}.
Context (others : gset Z) (Hothers : -1 ∉ others).
Abbreviation TM := (M (TcpServer * N)).

(** The descriptor of the object at a place. *)
Definition sock_fd (s : TcpServer) (i : nat) : Z := match heap s !! i with Some k => Socket.m_sock k | None => -1 end.

(** The objects at these places are open, each has its own descriptor, and
    besides [others] nothing else is open. *)
Record holds (l : list nat) (st : TcpServer * N) : Prop := mkHolds {
  h_open : open_fds st.2 = list_to_set (sock_fd st.1 <$> l) ∪ others;
  h_distinct : NoDup (sock_fd st.1 <$> l);
  h_places : NoDup l;
  h_valid : Forall (fun i => sock_fd st.1 i <> -1 /\ sock_fd st.1 i ∉ others) l
}.
(** A server nothing else refers to the sockets of. *)
Definition ready (st : TcpServer * N) : Prop :=
  holds (m_socks st.1) st /\ Forall (fun i => (i < next st.1)%nat) (m_socks st.1).

Lemma own_run {A} (m : M (Socket * N) A) (k : Socket) (P : Socket * N -> Prop) Q (st : TcpServer * N) :
  hoare P m Q -> P (k, st.2) ->
  exists a k' n', on_own m k st = Ret (a, k') (st.1, n') /\ Q a (k', n').
Proof. intros Hm HP. destruct (Hm _ HP) as (a & [k' n'] & E & HQ). exists a, k', n'. unfold on_own. by rewrite E. Qed.

Lemma listen_ok O b : hoare (sock_inv O) (Socket.listen b) (fun ok st => sock_inv O st /\ (ok = true -> isValid st.1 = true)).
Proof.
  intros [s n] Hi. unfold Socket.listen. step_with (eq_refl : sock (s, n) = Ret s (s, n)).
  destruct (isValid s) eqn:Ev; cbn [negb]; [|by exists false, (s, n)].
  destruct (keeps_inv O _ (keeps_syscall O (sys_listen (Socket.m_sock s) b) (law_listen _ _)) (s, n) Hi) as (ok & [s' n'] & E & Hi').
  exists ok, (s', n'). split; [done|]. split; [done|]. intros _. unfold syscall in E. cbn in E.
  destruct (sys_listen (Socket.m_sock s) b n) as [a n'']. by injection E as -> <- ->.
Qed.

Lemma delete_ok O : hoare (sock_inv O) Socket_delete (fun _ st => open_fds st.2 = O).
Proof. eapply hoare_bind; [apply close_ok|]. intros b. apply hoare_ret. by intros st (_ & _ & ?). Qed.

Lemma own_valid k : isValid k = true -> own k = {[Socket.m_sock k]} /\ Socket.m_sock k <> -1.
Proof. unfold isValid, own. by destruct (Z.eqb_spec (Socket.m_sock k) (-1)). Qed.

(** One address: a listening socket more, or nothing. *)
Lemma push_ready k (s : TcpServer) (n n' : N) :
  ready (s, n) -> sock_inv (open_fds n) (k, n') -> isValid k = true -> ready (push_sock k s, n').
Proof.
  intros [[Ho Hd Hp Hv] Hn] [[Hk1 Hk2] _] Hval. destruct (own_valid k Hval) as [Eo Hne]. cbn in *. rewrite Eo in Hk1.
  assert (Hold : forall i, i ∈ m_socks s -> sock_fd (push_sock k s) i = sock_fd s i).
  { intros i Hi. unfold sock_fd. cbn. rewrite lookup_insert_ne; [done|]. rewrite Forall_forall in Hn. specialize (Hn i Hi). lia. }
  assert (Hnew : sock_fd (push_sock k s) (next s) = Socket.m_sock k) by (unfold sock_fd; cbn; by rewrite lookup_insert_eq).
  assert (Hmap : sock_fd (push_sock k s) <$> m_socks s = sock_fd s <$> m_socks s) by (apply Forall_fmap_ext_1, Forall_forall; exact Hold).
  assert (Hfresh : next s ∉ m_socks s) by (intros Hi; rewrite Forall_forall in Hn; specialize (Hn _ Hi); lia).
  split; [split|]; cbn [push_sock m_socks next fst snd].
  - rewrite fmap_app, Hmap. cbn [fmap list_fmap]. rewrite Hnew, Hk1, Ho, list_to_set_app_L. cbn. set_solver.
  - rewrite fmap_app, Hmap. cbn [fmap list_fmap]. rewrite Hnew. apply NoDup_app. split; [done|].
    split; [|apply NoDup_singleton]. intros x Hx Hx'. apply list_elem_of_singleton in Hx' as ->. rewrite Ho in Hk2. set_solver.
  - apply NoDup_app. split; [done|]. split; [|apply NoDup_singleton]. intros x Hx ->%list_elem_of_singleton. done.
  - apply Forall_app. split.
    + rewrite Forall_forall in *. intros i Hi. rewrite Hold by done. by apply Hv.
    + apply Forall_singleton. rewrite Hnew. rewrite Ho in Hk2. split; [done|]. set_solver.
  - apply Forall_app. split; [|apply Forall_singleton; lia]. eapply Forall_impl; [exact Hn|]. cbn. intros i Hi. lia.
Qed.

Lemma ready_others st : ready st -> -1 ∉ open_fds st.2.
Proof.
  intros [[Ho _ _ Hv] _]. rewrite Ho. rewrite Forall_forall in Hv. intros [Hi|Hi]%elem_of_union; [|done].
  apply elem_of_list_to_set, list_elem_of_fmap in Hi as (i & Hi & Hl). by destruct (Hv i Hl).
Qed.

(** An address is bound and listened on, or the socket is gone. *)
Lemma ready_open (s : TcpServer) n n' : ready (s, n) -> open_fds n' = open_fds n -> ready (s, n').
Proof. intros [[Ho Hd Hp Hv] Hn] E. split; [|done]. split; [|done..]. cbn in *. by rewrite E. Qed.

Lemma bind_loop_ready addrs : forall fails s n, ready (s, n) ->
  exists bad good s' n', bind_loop addrs fails (s, n) = Ret (fails ++ bad) (s', n') /\ ready (s', n') /\
    bad `sublist_of` addrs /\ m_socks s' = m_socks s ++ good /\ length good = (length addrs - length bad)%nat.
Proof.
  induction addrs as [|a addrs IH]; intros fails s n Hr.
  { exists [], [], s, n. rewrite !app_nil_r. by split_and!. }
  cbn [bind_loop]. pose proof (ready_others _ Hr) as Hn. set (O := open_fds n).
  assert (Hgo : forall n1, open_fds n1 = O -> exists bad good s' n', bind_loop addrs (fails ++ [a]) (s, n1) = Ret (fails ++ bad) (s', n') /\ ready (s', n') /\
      bad `sublist_of` a :: addrs /\ m_socks s' = m_socks s ++ good /\ length good = (length (a :: addrs) - length bad)%nat).
  { intros n1 Ho. destruct (IH (fails ++ [a]) s n1 (ready_open s n n1 Hr Ho)) as (bad & good & s' & n' & E & R & Hs & Hg & Hl).
    exists (a :: bad), good, s', n'. rewrite <- app_assoc in E. cbn [length Nat.sub]. split_and!; [exact E|exact R|by constructor|exact Hg|exact Hl]. }
  destruct (own_run (Socket.bind a) (CreateTCP a) _ _ (s, n) (bind_ok O a) (socket_new_inv _ _ _ n Hn)) as (ok & k1 & n1 & E1 & I1).
  step_with E1. cbv beta iota. cbn [fst]. destruct ok; cbn [negb]; last first.
  { destruct (own_run Socket_delete k1 _ _ (s, n1) (delete_ok O) I1) as ([] & k2 & n2 & E2 & I2). step_with E2. by apply Hgo. }
  destruct (own_run (Socket.listen SOMAXCONN) k1 _ _ (s, n1) (listen_ok O SOMAXCONN) I1) as (ok & k2 & n2 & E2 & I2 & Hval).
  step_with E2. cbv beta iota. cbn [fst]. destruct ok; cbn [negb]; last first.
  { destruct (own_run Socket_delete k2 _ _ (s, n2) (delete_ok O) I2) as ([] & k3 & n3 & E3 & I3). step_with E3. by apply Hgo. }
  step_with (eq_refl : on_server (push_sock k2) (s, n2) = Ret tt (push_sock k2 s, n2)).
  destruct (IH fails (push_sock k2 s) n2) as (bad & good & s' & n' & E & R & Hs & Hg & Hl).
  { apply (push_ready k2 s n); [done|done|by apply Hval]. }
  exists bad, (next s :: good), s', n'. rewrite E, Hg. cbn [m_socks push_sock length]. rewrite <- app_assoc.
  apply sublist_length in Hs as Hs'. split_and!; try done; [by constructor|lia].
Qed.

(** The array is emptied: everything it held is closed. *)
Lemma release_all l : forall s n, holds l (s, n) -> exists s' n',
  for_each release l (s, n) = Ret tt (s', n') /\ open_fds n' = others /\ next s' = next s /\ m_socks s' = m_socks s.
Proof.
  induction l as [|i l IH]; intros s n [Ho Hd Hp Hv]; cbn [fst snd fmap list_fmap list_to_set foldr] in *.
  { exists s, n. rewrite union_empty_l_L in Ho. by split_and!. }
  apply NoDup_cons in Hd as [Hd1 Hd2]. apply NoDup_cons in Hp as [Hp1 Hp2]. apply Forall_cons in Hv as [[Hv1 Hv2] Hv].
  unfold sock_fd in Hv1. destruct (heap s !! i) as [k|] eqn:Ek; [|done].
  assert (Efd : sock_fd s i = Socket.m_sock k) by (unfold sock_fd; by rewrite Ek).
  set (O := list_to_set (sock_fd s <$> l) ∪ others : gset Z).
  assert (Hval : isValid k = true) by (unfold isValid; destruct (Z.eqb_spec (Socket.m_sock k) (-1)); [done|done]).
  assert (Hi : sock_inv O (k, n)).
  { destruct (own_valid k Hval) as [Eo _]. split; [|done]. split; cbn; [rewrite Ho, Eo, Efd; set_solver|].
    rewrite <- Efd. unfold O. intros [Hx|Hx]%elem_of_union; [|done]. apply elem_of_list_to_set in Hx. done. }
  destruct (delete_ok O (k, n) Hi) as ([] & [k' n'] & E & Ho'). cbn in Ho'.
  set (s1 := set_heap (delete i (<[i := k']> (heap s))) s).
  assert (Er : release i (s, n) = Ret tt (s1, n')).
  { assert (Es : on_shared Socket_delete i (s, n) = Ret tt (set_heap (<[i := k']> (heap s)) s, n')).
    { unfold on_shared. cbn [fst snd]. by rewrite Ek, E. }
    unfold release. by step_with Es. }
  assert (Hx : forall j, j ∈ l -> sock_fd s1 j = sock_fd s j).
  { intros j Hj. unfold sock_fd. cbn. rewrite lookup_delete_ne, lookup_insert_ne by (intros ->; done). done. }
  assert (Hm : sock_fd s1 <$> l = sock_fd s <$> l) by (apply Forall_fmap_ext_1, Forall_forall; exact Hx).
  destruct (IH s1 n') as (s2 & n2 & E2 & H2).
  - split; cbn [fst snd]; rewrite ?Hm; [exact Ho'|done|done|]. rewrite Forall_forall in *. intros j Hj. rewrite Hx by done. by apply Hv.
  - exists s2, n2. split; [|done]. cbn [for_each]. by step_with Er.
Qed.

(** C27: bind is all or nothing.  On a server whose listening sockets are its own,
    for any addresses and whatever the system calls answer, bind returns and
    reports the addresses that failed, in order, behind those the caller passed;
    if there are none it returns true and the server has one listening socket
    more for every address, each open and with a descriptor of its own;
    otherwise it returns false and everything the server ever listened on, sockets
    of earlier calls included, is closed: only the descriptors of others are
    left open. *)
Theorem bind_all_or_nothing addrs fails (s : TcpServer) (n : N) :
  ready (s, n) ->
  exists bad s' n',
    bind addrs fails (s, n) = Ret (bool_decide (fails ++ bad = []), fails ++ bad) (s', n') /\
    ready (s', n') /\ bad `sublist_of` addrs /\
    (fails ++ bad = [] -> exists good, m_socks s' = m_socks s ++ good /\ length good = length addrs) /\
    (fails ++ bad <> [] -> m_socks s' = [] /\ open_fds n' = others).
Proof.
  intros Hr. destruct (bind_loop_ready addrs fails s n Hr) as (bad & good & s1 & n1 & E & R & Hs & Hg & Hl).
  destruct (decide (fails ++ bad = [])) as [Hf|Hf].
  - exists bad, s1, n1. assert (bad = []) as -> by (by apply app_eq_nil in Hf as [_ ?]). split.
    { unfold bind. step_with E. rewrite Hf. done. }
    cbn in Hl. split_and!; [done|done| |done]. intros _. exists good. split; [done|lia].
  - destruct (release_all (m_socks s1) s1 n1) as (s2 & n2 & E2 & Ho & Hn & Hm); [by apply R|].
    exists bad, (set_socks [] s2), n2. split.
    { unfold bind. step_with E. rewrite bool_decide_false by done. cbn [negb].
      assert (Ec : clear_socks (s1, n1) = Ret tt (set_socks [] s2, n2)).
      { unfold clear_socks. step_with (eq_refl : server (s1, n1) = Ret s1 (s1, n1)). by step_with E2. }
      by step_with Ec. }
    split_and!; [|done|done|done]. split; [|constructor]. split; cbn; [by rewrite Ho, union_empty_l_L|constructor..].
Qed.
End tcp.

#[export] Instance DemoWorkers : Workers (Z * gset Z) := {| worker_schedule _ n := n; accept_worker_schedule _ n := n |}.

Lemma bind_all_or_nothing_witness :
  let n := (7, {[0; 1; 2]}) : Z * gset Z in
  ready {[0; 1; 2]} (TcpServer_new, n) /\
  exists bad s' n', bind (host := false) [demo_remote; UnknownAddress_new 5; demo_remote] [] (TcpServer_new, n)
      = Ret (bool_decide ([] ++ bad = []), [] ++ bad) (s', n') /\
    (([] ++ bad = [] -> exists good, m_socks s' = [] ++ good /\ length good = 3%nat) /\
     ([] ++ bad <> [] -> m_socks s' = [] /\ open_fds n' = {[0; 1; 2]})).
Proof.
  set (n := (7, {[0; 1; 2]}) : Z * gset Z).
  assert (Hr : ready {[0; 1; 2]} (TcpServer_new, n)).
  { split; [|constructor]. split; cbn; [set_solver|constructor..]. }
  split; [exact Hr|].
  assert (Ho : -1 ∉ ({[0; 1; 2]} : gset Z)) by set_solver.
  destruct (bind_all_or_nothing (host := false) {[0; 1; 2]} Ho [demo_remote; UnknownAddress_new 5; demo_remote] [] TcpServer_new n Hr)
    as (bad & s' & n' & E & _ & _ & H1 & H2).
  exists bad, s', n'. split; [exact E|]. split; [exact H1|exact H2].
Defined.
