(* ===== verification/UriMachine.v ===== *)
(** The table of the goto machine of linko/uri.rl.cc: one case per state and one
    action list per transition label, in the order of the file. *)
From S2P Require Import Prelude Ragel.

(** The actions, by the names the grammar gives them. *)
Inductive action :=
| A_marku | A_markh | A_save_scheme | A_save_port | A_save_userinfo | A_save_host
| A_save_path | A_save_query | A_save_fragment.

#[export] Instance action_eq_dec : EqDecision action.
Proof. solve_decision. Defined.

Definition states_1 (cs c : Z) : option target :=
  match cs with
  | 451 => Some (
      switch c [(34, st 0); (35, st 453); (37, st 3); (47, st 458); (58, st 0);
         (60, st 0); (62, st 0); (63, st 456); (96, st 0); (127, st 0)]
        (if c <? 91 then
           if 32 <? c then
             if between 65 90 c then tr 461 else st 452
           else if 0 <=? c then st 0 else st 452
         else if 94 <? c then
           if 122 <? c then
             if between 123 125 c then st 0 else st 452
           else if 97 <=? c then tr 461 else st 452
         else st 0))
  | 452 => Some (
      switch c [(34, st 0); (35, st 453); (37, st 3); (47, st 455); (58, st 0);
         (60, st 0); (62, st 0); (63, st 456); (96, st 0); (127, st 0)]
        (if c <? 91 then if between 0 32 c then st 0 else st 452
         else if 94 <? c then if between 123 125 c then st 0 else st 452 else st 0))
  | _ => None
  end.

Definition trans_1 (n : Z) : option (list action * Z) :=
  match n with
  | 467 => Some ([A_marku; A_save_query], 453)
  | 469 => Some ([A_save_query], 453)
  | 474 => Some ([A_markh; A_save_host], 453)
  | 485 => Some ([A_save_host], 453)
  | 489 => Some ([A_markh; A_save_port], 453)
  | 493 => Some ([A_save_port], 453)
  | 548 => Some ([A_markh; A_save_host; A_save_path], 453)
  | 559 => Some ([A_save_host; A_markh; A_save_path], 453)
  | _ => None
  end.

Definition states_2 (cs c : Z) : option target :=
  match cs with
  | 453 => Some (
      switch c [(37, tr 463); (60, st 0); (62, st 0); (96, st 0); (127, st 0)]
        (if c <? 34 then if between 0 32 c then st 0 else tr 462
         else if 35 <? c then
           if 94 <? c then
             if between 123 125 c then st 0 else tr 462
           else if 91 <=? c then st 0 else tr 462
         else st 0))
  | 454 => Some (
      switch c [(37, st 1); (60, st 0); (62, st 0); (96, st 0); (127, st 0)]
        (if c <? 34 then if between 0 32 c then st 0 else st 454
         else if 35 <? c then
           if 94 <? c then
             if between 123 125 c then st 0 else st 454
           else if 91 <=? c then st 0 else st 454
         else st 0))
  | 1 => Some (
      if c <? 65 then if between 48 57 c then st 2 else st 0
      else if 70 <? c then if between 97 102 c then st 2 else st 0 else st 2)
  | 2 => Some (
      if c <? 65 then
        if between 48 57 c then st 454 else st 0
      else if 70 <? c then if between 97 102 c then st 454 else st 0 else st 454)
  | 3 => Some (
      if c <? 65 then if between 48 57 c then st 4 else st 0
      else if 70 <? c then if between 97 102 c then st 4 else st 0 else st 4)
  | _ => None
  end.

Definition trans_2 (n : Z) : option (list action * Z) :=
  match n with
  | 563 => Some ([A_save_path], 453)
  | 566 => Some ([A_markh; A_save_port; A_save_path], 453)
  | 570 => Some ([A_save_port; A_markh; A_save_path], 453)
  | 462 => Some ([A_marku], 454)
  | 463 => Some ([A_marku], 1)
  | _ => None
  end.

Definition states_3 (cs c : Z) : option target :=
  match cs with
  | 4 => Some (
      if c <? 65 then
        if between 48 57 c then st 452 else st 0
      else if 70 <? c then if between 97 102 c then st 452 else st 0 else st 452)
  | 455 => Some (
      switch c [(34, st 0); (35, st 453); (37, st 5); (60, st 0); (62, st 0);
         (63, st 456); (96, st 0); (127, st 0)]
        (if c <? 91 then if between 0 32 c then st 0 else st 455
         else if 94 <? c then if between 123 125 c then st 0 else st 455 else st 0))
  | 5 => Some (
      if c <? 65 then if between 48 57 c then st 6 else st 0
      else if 70 <? c then if between 97 102 c then st 6 else st 0 else st 6)
  | 6 => Some (
      if c <? 65 then
        if between 48 57 c then st 455 else st 0
      else if 70 <? c then if between 97 102 c then st 455 else st 0 else st 455)
  | _ => None
  end.

Definition trans_3 (n : Z) : option (list action * Z) :=
  match n with
  | 476 => Some ([A_markh; A_save_host], 455)
  | 486 => Some ([A_save_host], 455)
  | 490 => Some ([A_markh; A_save_port], 455)
  | 494 => Some ([A_save_port], 455)
  | 482 => Some ([A_markh; A_save_host], 456)
  | 488 => Some ([A_save_host], 456)
  | 492 => Some ([A_markh; A_save_port], 456)
  | 496 => Some ([A_save_port], 456)
  | _ => None
  end.

Definition states_4 (cs c : Z) : option target :=
  match cs with
  | 456 => Some (
      switch c [(34, st 0); (35, tr 467); (37, tr 468); (60, st 0); (62, st 0);
         (96, st 0); (127, st 0)]
        (if c <? 91 then if between 0 32 c then st 0 else tr 466
         else if 94 <? c then if between 123 125 c then st 0 else tr 466 else st 0))
  | 457 => Some (
      switch c [(34, st 0); (35, tr 469); (37, st 7); (60, st 0); (62, st 0);
         (96, st 0); (127, st 0)]
        (if c <? 91 then if between 0 32 c then st 0 else st 457
         else if 94 <? c then if between 123 125 c then st 0 else st 457 else st 0))
  | 7 => Some (
      if c <? 65 then if between 48 57 c then st 8 else st 0
      else if 70 <? c then if between 97 102 c then st 8 else st 0 else st 8)
  | _ => None
  end.

Definition trans_4 (n : Z) : option (list action * Z) :=
  match n with
  | 556 => Some ([A_markh; A_save_host; A_save_path], 456)
  | 562 => Some ([A_save_host; A_markh; A_save_path], 456)
  | 565 => Some ([A_save_path], 456)
  | 569 => Some ([A_markh; A_save_port; A_save_path], 456)
  | 573 => Some ([A_save_port; A_markh; A_save_path], 456)
  | 466 => Some ([A_marku], 457)
  | 468 => Some ([A_marku], 7)
  | _ => None
  end.

Definition states_5 (cs c : Z) : option target :=
  match cs with
  | 8 => Some (
      if c <? 65 then
        if between 48 57 c then st 457 else st 0
      else if 70 <? c then if between 97 102 c then st 457 else st 0 else st 457)
  | 458 => Some (
      switch c [(34, st 0); (35, st 453); (37, st 5); (47, st 459); (60, st 0);
         (62, st 0); (63, st 456); (96, st 0); (127, st 0)]
        (if c <? 91 then if between 0 32 c then st 0 else st 455
         else if 94 <? c then if between 123 125 c then st 0 else st 455 else st 0))
  | 459 => Some (
      switch c [(2, tr 472); (33, tr 473); (35, tr 474); (37, tr 475); (47, tr 476);
         (48, tr 477); (49, tr 478); (50, tr 479); (58, tr 481); (59, tr 473);
         (61, tr 473); (63, tr 482); (64, tr 483); (91, tr 484); (95, tr 473);
         (126, tr 473)]
        (if c <? 51 then
           if between 36 46 c then tr 473 else st 0
         else if 57 <? c then
           if 90 <? c then
             if between 97 122 c then tr 473 else st 0
           else if 65 <=? c then tr 473 else st 0
         else tr 480))
  | 9 => Some (
      if between 48 52 c then st 10 else st 0)
  | 10 => Some (
      if between 48 57 c then st 11 else st 0)
  | 11 => Some (
      if c =? 46 then st 12 else st 0)
  | 12 => Some (
      switch c [(2, st 13); (48, st 15); (49, st 27); (50, st 29)]
        (if between 51 57 c then st 28 else st 0))
  | 13 => Some (
      if between 48 52 c then st 14 else st 0)
  | 14 => Some (
      if between 48 57 c then st 15 else st 0)
  | 15 => Some (
      if c =? 46 then st 16 else st 0)
  | 16 => Some (
      switch c [(2, st 17); (48, st 19); (49, st 23); (50, st 25)]
        (if between 51 57 c then st 24 else st 0))
  | 17 => Some (
      if between 48 52 c then st 18 else st 0)
  | _ => None
  end.

Definition trans_5 (n : Z) : option (list action * Z) :=
  match n with
  | 472 => Some ([A_markh], 9)
  | _ => None
  end.

Definition states_6 (cs c : Z) : option target :=
  match cs with
  | 18 => Some (
      if between 48 57 c then st 19 else st 0)
  | 19 => Some (
      if c =? 46 then st 20 else st 0)
  | 20 => Some (
      switch c [(2, st 21); (48, st 460); (49, st 463); (50, st 465)]
        (if between 51 57 c then st 464 else st 0))
  | 21 => Some (
      if between 48 52 c then st 22 else st 0)
  | 22 => Some (
      if between 48 57 c then st 460 else st 0)
  | 460 => Some (
      switch c [(35, tr 485); (47, tr 486); (58, tr 487); (63, tr 488)]
        (st 0))
  | 461 => Some (
      switch c [(35, tr 489); (47, tr 490); (63, tr 492)]
        (if between 48 57 c then tr 491 else st 0))
  | 462 => Some (
      switch c [(35, tr 493); (47, tr 494); (63, tr 496)]
        (if between 48 57 c then st 462 else st 0))
  | 463 => Some (
      switch c [(35, tr 485); (47, tr 486); (58, tr 487); (63, tr 488)]
        (if between 48 57 c then st 464 else st 0))
  | 464 => Some (
      switch c [(35, tr 485); (47, tr 486); (58, tr 487); (63, tr 488)]
        (if between 48 57 c then st 460 else st 0))
  | 465 => Some (
      switch c [(35, tr 485); (47, tr 486); (53, st 466); (58, tr 487); (63, tr 488)]
        (if between 48 57 c then st 460 else st 0))
  | _ => None
  end.

Definition trans_6 (n : Z) : option (list action * Z) :=
  match n with
  | 507 => Some ([A_markh; A_save_host], 461)
  | 487 => Some ([A_save_host], 461)
  | 491 => Some ([A_markh], 462)
  | _ => None
  end.

Definition states_7 (cs c : Z) : option target :=
  match cs with
  | 466 => Some (
      switch c [(35, tr 485); (47, tr 486); (58, tr 487); (63, tr 488)]
        (if between 48 53 c then st 460 else st 0))
  | 23 => Some (
      if c =? 46 then st 20 else if between 48 57 c then st 24 else st 0)
  | 24 => Some (
      if c =? 46 then st 20 else if between 48 57 c then st 19 else st 0)
  | 25 => Some (
      switch c [(46, st 20); (53, st 26)]
        (if between 48 57 c then st 19 else st 0))
  | 26 => Some (
      if c =? 46 then st 20 else if between 48 53 c then st 19 else st 0)
  | 27 => Some (
      if c =? 46 then st 16 else if between 48 57 c then st 28 else st 0)
  | 28 => Some (
      if c =? 46 then st 16 else if between 48 57 c then st 15 else st 0)
  | 29 => Some (
      switch c [(46, st 16); (53, st 30)]
        (if between 48 57 c then st 15 else st 0))
  | 30 => Some (
      if c =? 46 then st 16 else if between 48 53 c then st 15 else st 0)
  | 467 => Some (
      switch c [(33, st 467); (35, tr 485); (37, st 31); (47, tr 486); (58, tr 499);
         (61, st 467); (63, tr 488); (64, tr 38); (95, st 467); (126, st 467)]
        (if c <? 65 then
           if between 36 59 c then st 467 else st 0
         else if 90 <? c then if between 97 122 c then st 467 else st 0 else st 467))
  | 31 => Some (
      if c <? 65 then if between 48 57 c then st 32 else st 0
      else if 70 <? c then if between 97 102 c then st 32 else st 0 else st 32)
  | 32 => Some (
      if c <? 65 then
        if between 48 57 c then st 467 else st 0
      else if 70 <? c then if between 97 102 c then st 467 else st 0 else st 467)
  | _ => None
  end.

Definition trans_7 (n : Z) : option (list action * Z) :=
  match n with
  | 473 => Some ([A_markh], 467)
  | 475 => Some ([A_markh], 31)
  | _ => None
  end.

Definition states_8 (cs c : Z) : option target :=
  match cs with
  | 468 => Some (
      switch c [(33, st 33); (35, tr 489); (37, st 34); (47, tr 490); (61, st 33);
         (63, tr 492); (64, tr 38); (95, st 33); (126, st 33)]
        (if c <? 58 then
           if 46 <? c then
             if between 48 57 c then tr 500 else st 0
           else if 36 <=? c then st 33 else st 0
         else if 59 <? c then
           if 90 <? c then
             if between 97 122 c then st 33 else st 0
           else if 65 <=? c then st 33 else st 0
         else st 33))
  | 33 => Some (
      switch c [(33, st 33); (37, st 34); (61, st 33); (64, tr 38); (95, st 33);
         (126, st 33)]
        (if c <? 48 then if between 36 46 c then st 33 else st 0
         else if 59 <? c then
           if 90 <? c then
             if between 97 122 c then st 33 else st 0
           else if 65 <=? c then st 33 else st 0
         else st 33))
  | 34 => Some (
      if c <? 65 then if between 48 57 c then st 35 else st 0
      else if 70 <? c then if between 97 102 c then st 35 else st 0 else st 35)
  | 35 => Some (
      if c <? 65 then if between 48 57 c then st 33 else st 0
      else if 70 <? c then if between 97 102 c then st 33 else st 0 else st 33)
  | _ => None
  end.

Definition trans_8 (n : Z) : option (list action * Z) :=
  match n with
  | 481 => Some ([A_markh; A_save_host], 468)
  | 499 => Some ([A_save_host], 468)
  | 38 => Some ([A_save_userinfo], 469)
  | 483 => Some ([A_markh; A_save_userinfo], 469)
  | _ => None
  end.

Definition states_9 (cs c : Z) : option target :=
  match cs with
  | 469 => Some (
      switch c [(2, tr 472); (33, tr 501); (35, tr 474); (37, tr 502); (47, tr 476);
         (48, tr 503); (49, tr 504); (50, tr 505); (58, tr 507); (59, tr 501);
         (61, tr 501); (63, tr 482); (91, tr 484); (95, tr 501);
         (126, tr 501)]
        (if c <? 51 then
           if between 36 46 c then tr 501 else st 0
         else if 57 <? c then
           if 90 <? c then
             if between 97 122 c then tr 501 else st 0
           else if 65 <=? c then tr 501 else st 0
         else tr 506))
  | 470 => Some (
      switch c [(33, st 470); (35, tr 485); (37, st 36); (47, tr 486); (58, tr 487);
         (61, st 470); (63, tr 488); (95, st 470); (126, st 470)]
        (if c <? 65 then
           if between 36 59 c then st 470 else st 0
         else if 90 <? c then if between 97 122 c then st 470 else st 0 else st 470))
  | 36 => Some (
      if c <? 65 then if between 48 57 c then st 37 else st 0
      else if 70 <? c then if between 97 102 c then st 37 else st 0 else st 37)
  | 37 => Some (
      if c <? 65 then
        if between 48 57 c then st 470 else st 0
      else if 70 <? c then if between 97 102 c then st 470 else st 0 else st 470)
  | 471 => Some (
      switch c [(33, st 470); (35, tr 485); (37, st 36); (46, st 472); (47, tr 486);
         (58, tr 487); (61, st 470); (63, tr 488); (95, st 470);
         (126, st 470)]
        (if c <? 65 then
           if between 36 59 c then st 470 else st 0
         else if 90 <? c then if between 97 122 c then st 470 else st 0 else st 470))
  | _ => None
  end.

Definition trans_9 (n : Z) : option (list action * Z) :=
  match n with
  | 501 => Some ([A_markh], 470)
  | 502 => Some ([A_markh], 36)
  | 503 => Some ([A_markh], 471)
  | _ => None
  end.

Definition states_10 (cs c : Z) : option target :=
  match cs with
  | 472 => Some (
      switch c [(2, st 13); (33, st 470); (35, tr 485); (37, st 36); (47, tr 486);
         (48, st 473); (49, st 481); (50, st 483); (58, tr 487); (59, st 470);
         (61, st 470); (63, tr 488); (95, st 470); (126, st 470)]
        (if c <? 51 then
           if between 36 46 c then st 470 else st 0
         else if 57 <? c then
           if 90 <? c then
             if between 97 122 c then st 470 else st 0
           else if 65 <=? c then st 470 else st 0
         else st 482))
  | 473 => Some (
      switch c [(33, st 470); (35, tr 485); (37, st 36); (46, st 474); (47, tr 486);
         (58, tr 487); (61, st 470); (63, tr 488); (95, st 470);
         (126, st 470)]
        (if c <? 65 then
           if between 36 59 c then st 470 else st 0
         else if 90 <? c then if between 97 122 c then st 470 else st 0 else st 470))
  | 474 => Some (
      switch c [(2, st 17); (33, st 470); (35, tr 485); (37, st 36); (47, tr 486);
         (48, st 475); (49, st 477); (50, st 479); (58, tr 487); (59, st 470);
         (61, st 470); (63, tr 488); (95, st 470); (126, st 470)]
        (if c <? 51 then
           if between 36 46 c then st 470 else st 0
         else if 57 <? c then
           if 90 <? c then
             if between 97 122 c then st 470 else st 0
           else if 65 <=? c then st 470 else st 0
         else st 478))
  | 475 => Some (
      switch c [(33, st 470); (35, tr 485); (37, st 36); (46, st 476); (47, tr 486);
         (58, tr 487); (61, st 470); (63, tr 488); (95, st 470);
         (126, st 470)]
        (if c <? 65 then
           if between 36 59 c then st 470 else st 0
         else if 90 <? c then if between 97 122 c then st 470 else st 0 else st 470))
  | 476 => Some (
      switch c [(2, st 21); (33, st 470); (35, tr 485); (37, st 36); (47, tr 486);
         (58, tr 487); (61, st 470); (63, tr 488); (95, st 470);
         (126, st 470)]
        (if c <? 65 then
           if between 36 59 c then st 470 else st 0
         else if 90 <? c then if between 97 122 c then st 470 else st 0 else st 470))
  | _ => None
  end.

Definition states_11 (cs c : Z) : option target :=
  match cs with
  | 477 => Some (
      switch c [(33, st 470); (35, tr 485); (37, st 36); (46, st 476); (47, tr 486);
         (58, tr 487); (59, st 470); (61, st 470); (63, tr 488); (95, st 470);
         (126, st 470)]
        (if c <? 48 then
           if between 36 45 c then st 470 else st 0
         else if 57 <? c then
           if 90 <? c then
             if between 97 122 c then st 470 else st 0
           else if 65 <=? c then st 470 else st 0
         else st 478))
  | 478 => Some (
      switch c [(33, st 470); (35, tr 485); (37, st 36); (46, st 476); (47, tr 486);
         (58, tr 487); (59, st 470); (61, st 470); (63, tr 488); (95, st 470);
         (126, st 470)]
        (if c <? 48 then
           if between 36 45 c then st 470 else st 0
         else if 57 <? c then
           if 90 <? c then
             if between 97 122 c then st 470 else st 0
           else if 65 <=? c then st 470 else st 0
         else st 475))
  | 479 => Some (
      switch c [(33, st 470); (35, tr 485); (37, st 36); (46, st 476); (47, tr 486);
         (53, st 480); (58, tr 487); (59, st 470); (61, st 470); (63, tr 488);
         (95, st 470); (126, st 470)]
        (if c <? 48 then
           if between 36 45 c then st 470 else st 0
         else if 57 <? c then
           if 90 <? c then
             if between 97 122 c then st 470 else st 0
           else if 65 <=? c then st 470 else st 0
         else st 475))
  | 480 => Some (
      switch c [(33, st 470); (35, tr 485); (37, st 36); (46, st 476); (47, tr 486);
         (58, tr 487); (61, st 470); (63, tr 488); (95, st 470);
         (126, st 470)]
        (if c <? 54 then
           if 45 <? c then
             if between 48 53 c then st 475 else st 0
           else if 36 <=? c then st 470 else st 0
         else if 59 <? c then
           if 90 <? c then
             if between 97 122 c then st 470 else st 0
           else if 65 <=? c then st 470 else st 0
         else st 470))
  | 481 => Some (
      switch c [(33, st 470); (35, tr 485); (37, st 36); (46, st 474); (47, tr 486);
         (58, tr 487); (59, st 470); (61, st 470); (63, tr 488); (95, st 470);
         (126, st 470)]
        (if c <? 48 then
           if between 36 45 c then st 470 else st 0
         else if 57 <? c then
           if 90 <? c then
             if between 97 122 c then st 470 else st 0
           else if 65 <=? c then st 470 else st 0
         else st 482))
  | _ => None
  end.

Definition states_12 (cs c : Z) : option target :=
  match cs with
  | 482 => Some (
      switch c [(33, st 470); (35, tr 485); (37, st 36); (46, st 474); (47, tr 486);
         (58, tr 487); (59, st 470); (61, st 470); (63, tr 488); (95, st 470);
         (126, st 470)]
        (if c <? 48 then
           if between 36 45 c then st 470 else st 0
         else if 57 <? c then
           if 90 <? c then
             if between 97 122 c then st 470 else st 0
           else if 65 <=? c then st 470 else st 0
         else st 473))
  | 483 => Some (
      switch c [(33, st 470); (35, tr 485); (37, st 36); (46, st 474); (47, tr 486);
         (53, st 484); (58, tr 487); (59, st 470); (61, st 470); (63, tr 488);
         (95, st 470); (126, st 470)]
        (if c <? 48 then
           if between 36 45 c then st 470 else st 0
         else if 57 <? c then
           if 90 <? c then
             if between 97 122 c then st 470 else st 0
           else if 65 <=? c then st 470 else st 0
         else st 473))
  | 484 => Some (
      switch c [(33, st 470); (35, tr 485); (37, st 36); (46, st 474); (47, tr 486);
         (58, tr 487); (61, st 470); (63, tr 488); (95, st 470);
         (126, st 470)]
        (if c <? 54 then
           if 45 <? c then
             if between 48 53 c then st 473 else st 0
           else if 36 <=? c then st 470 else st 0
         else if 59 <? c then
           if 90 <? c then
             if between 97 122 c then st 470 else st 0
           else if 65 <=? c then st 470 else st 0
         else st 470))
  | 485 => Some (
      switch c [(33, st 470); (35, tr 485); (37, st 36); (46, st 472); (47, tr 486);
         (58, tr 487); (59, st 470); (61, st 470); (63, tr 488); (95, st 470);
         (126, st 470)]
        (if c <? 48 then
           if between 36 45 c then st 470 else st 0
         else if 57 <? c then
           if 90 <? c then
             if between 97 122 c then st 470 else st 0
           else if 65 <=? c then st 470 else st 0
         else st 486))
  | _ => None
  end.

Definition trans_12 (n : Z) : option (list action * Z) :=
  match n with
  | 504 => Some ([A_markh], 485)
  | 506 => Some ([A_markh], 486)
  | _ => None
  end.

Definition states_13 (cs c : Z) : option target :=
  match cs with
  | 486 => Some (
      switch c [(33, st 470); (35, tr 485); (37, st 36); (46, st 472); (47, tr 486);
         (58, tr 487); (59, st 470); (61, st 470); (63, tr 488); (95, st 470);
         (126, st 470)]
        (if c <? 48 then
           if between 36 45 c then st 470 else st 0
         else if 57 <? c then
           if 90 <? c then
             if between 97 122 c then st 470 else st 0
           else if 65 <=? c then st 470 else st 0
         else st 471))
  | 487 => Some (
      switch c [(33, st 470); (35, tr 485); (37, st 36); (46, st 472); (47, tr 486);
         (53, st 488); (58, tr 487); (59, st 470); (61, st 470); (63, tr 488);
         (95, st 470); (126, st 470)]
        (if c <? 48 then
           if between 36 45 c then st 470 else st 0
         else if 57 <? c then
           if 90 <? c then
             if between 97 122 c then st 470 else st 0
           else if 65 <=? c then st 470 else st 0
         else st 471))
  | 488 => Some (
      switch c [(33, st 470); (35, tr 485); (37, st 36); (46, st 472); (47, tr 486);
         (58, tr 487); (61, st 470); (63, tr 488); (95, st 470);
         (126, st 470)]
        (if c <? 54 then
           if 45 <? c then
             if between 48 53 c then st 471 else st 0
           else if 36 <=? c then st 470 else st 0
         else if 59 <? c then
           if 90 <? c then
             if between 97 122 c then st 470 else st 0
           else if 65 <=? c then st 470 else st 0
         else st 470))
  | 38 => Some (
      switch c [(58, st 146); (118, st 225)]
        (if c <? 65 then if between 48 57 c then st 39 else st 0
         else if 70 <? c then if between 97 102 c then st 39 else st 0 else st 39))
  | 39 => Some (
      if c =? 58 then st 43
      else
        if c <? 65 then if between 48 57 c then st 40 else st 0
        else if 70 <? c then if between 97 102 c then st 40 else st 0 else st 40)
  | 40 => Some (
      if c =? 58 then st 43
      else
        if c <? 65 then if between 48 57 c then st 41 else st 0
        else if 70 <? c then if between 97 102 c then st 41 else st 0 else st 41)
  | _ => None
  end.

Definition trans_13 (n : Z) : option (list action * Z) :=
  match n with
  | 505 => Some ([A_markh], 487)
  | 484 => Some ([A_markh], 38)
  | _ => None
  end.

Definition states_14 (cs c : Z) : option target :=
  match cs with
  | 41 => Some (
      if c =? 58 then st 43
      else
        if c <? 65 then if between 48 57 c then st 42 else st 0
        else if 70 <? c then if between 97 102 c then st 42 else st 0 else st 42)
  | 42 => Some (
      if c =? 58 then st 43 else st 0)
  | 43 => Some (
      if c =? 58 then st 141
      else
        if c <? 65 then if between 48 57 c then st 44 else st 0
        else if 70 <? c then if between 97 102 c then st 44 else st 0 else st 44)
  | 44 => Some (
      if c =? 58 then st 48
      else
        if c <? 65 then if between 48 57 c then st 45 else st 0
        else if 70 <? c then if between 97 102 c then st 45 else st 0 else st 45)
  | 45 => Some (
      if c =? 58 then st 48
      else
        if c <? 65 then if between 48 57 c then st 46 else st 0
        else if 70 <? c then if between 97 102 c then st 46 else st 0 else st 46)
  | 46 => Some (
      if c =? 58 then st 48
      else
        if c <? 65 then if between 48 57 c then st 47 else st 0
        else if 70 <? c then if between 97 102 c then st 47 else st 0 else st 47)
  | 47 => Some (
      if c =? 58 then st 48 else st 0)
  | 48 => Some (
      if c =? 58 then st 136
      else
        if c <? 65 then if between 48 57 c then st 49 else st 0
        else if 70 <? c then if between 97 102 c then st 49 else st 0 else st 49)
  | 49 => Some (
      if c =? 58 then st 53
      else
        if c <? 65 then if between 48 57 c then st 50 else st 0
        else if 70 <? c then if between 97 102 c then st 50 else st 0 else st 50)
  | 50 => Some (
      if c =? 58 then st 53
      else
        if c <? 65 then if between 48 57 c then st 51 else st 0
        else if 70 <? c then if between 97 102 c then st 51 else st 0 else st 51)
  | 51 => Some (
      if c =? 58 then st 53
      else
        if c <? 65 then if between 48 57 c then st 52 else st 0
        else if 70 <? c then if between 97 102 c then st 52 else st 0 else st 52)
  | _ => None
  end.

Definition states_15 (cs c : Z) : option target :=
  match cs with
  | 52 => Some (
      if c =? 58 then st 53 else st 0)
  | 53 => Some (
      if c =? 58 then st 131
      else
        if c <? 65 then if between 48 57 c then st 54 else st 0
        else if 70 <? c then if between 97 102 c then st 54 else st 0 else st 54)
  | 54 => Some (
      if c =? 58 then st 58
      else
        if c <? 65 then if between 48 57 c then st 55 else st 0
        else if 70 <? c then if between 97 102 c then st 55 else st 0 else st 55)
  | 55 => Some (
      if c =? 58 then st 58
      else
        if c <? 65 then if between 48 57 c then st 56 else st 0
        else if 70 <? c then if between 97 102 c then st 56 else st 0 else st 56)
  | 56 => Some (
      if c =? 58 then st 58
      else
        if c <? 65 then if between 48 57 c then st 57 else st 0
        else if 70 <? c then if between 97 102 c then st 57 else st 0 else st 57)
  | 57 => Some (
      if c =? 58 then st 58 else st 0)
  | 58 => Some (
      if c =? 58 then st 126
      else
        if c <? 65 then if between 48 57 c then st 59 else st 0
        else if 70 <? c then if between 97 102 c then st 59 else st 0 else st 59)
  | 59 => Some (
      if c =? 58 then st 63
      else
        if c <? 65 then if between 48 57 c then st 60 else st 0
        else if 70 <? c then if between 97 102 c then st 60 else st 0 else st 60)
  | 60 => Some (
      if c =? 58 then st 63
      else
        if c <? 65 then if between 48 57 c then st 61 else st 0
        else if 70 <? c then if between 97 102 c then st 61 else st 0 else st 61)
  | 61 => Some (
      if c =? 58 then st 63
      else
        if c <? 65 then if between 48 57 c then st 62 else st 0
        else if 70 <? c then if between 97 102 c then st 62 else st 0 else st 62)
  | 62 => Some (
      if c =? 58 then st 63 else st 0)
  | _ => None
  end.

Definition states_16 (cs c : Z) : option target :=
  match cs with
  | 63 => Some (
      if c =? 58 then st 113
      else
        if c <? 65 then if between 48 57 c then st 64 else st 0
        else if 70 <? c then if between 97 102 c then st 64 else st 0 else st 64)
  | 64 => Some (
      if c =? 58 then st 68
      else
        if c <? 65 then if between 48 57 c then st 65 else st 0
        else if 70 <? c then if between 97 102 c then st 65 else st 0 else st 65)
  | 65 => Some (
      if c =? 58 then st 68
      else
        if c <? 65 then if between 48 57 c then st 66 else st 0
        else if 70 <? c then if between 97 102 c then st 66 else st 0 else st 66)
  | 66 => Some (
      if c =? 58 then st 68
      else
        if c <? 65 then if between 48 57 c then st 67 else st 0
        else if 70 <? c then if between 97 102 c then st 67 else st 0 else st 67)
  | 67 => Some (
      if c =? 58 then st 68 else st 0)
  | 68 => Some (
      switch c [(2, st 69); (48, st 96); (49, st 104); (50, st 107); (58, st 111)]
        (if c <? 65 then
           if between 51 57 c then st 110 else st 0
         else if 70 <? c then if between 97 102 c then st 112 else st 0 else st 112))
  | 69 => Some (
      if between 48 52 c then st 70 else st 0)
  | 70 => Some (
      if between 48 57 c then st 71 else st 0)
  | 71 => Some (
      if c =? 46 then st 72 else st 0)
  | 72 => Some (
      switch c [(2, st 73); (48, st 75); (49, st 92); (50, st 94)]
        (if between 51 57 c then st 93 else st 0))
  | 73 => Some (
      if between 48 52 c then st 74 else st 0)
  | 74 => Some (
      if between 48 57 c then st 75 else st 0)
  | 75 => Some (
      if c =? 46 then st 76 else st 0)
  | _ => None
  end.

Definition states_17 (cs c : Z) : option target :=
  match cs with
  | 76 => Some (
      switch c [(2, st 77); (48, st 79); (49, st 88); (50, st 90)]
        (if between 51 57 c then st 89 else st 0))
  | 77 => Some (
      if between 48 52 c then st 78 else st 0)
  | 78 => Some (
      if between 48 57 c then st 79 else st 0)
  | 79 => Some (
      if c =? 46 then st 80 else st 0)
  | 80 => Some (
      switch c [(2, st 81); (48, st 83); (49, st 84); (50, st 86)]
        (if between 51 57 c then st 85 else st 0))
  | 81 => Some (
      if between 48 52 c then st 82 else st 0)
  | 82 => Some (
      if between 48 57 c then st 83 else st 0)
  | 83 => Some (
      if c =? 93 then st 460 else st 0)
  | 84 => Some (
      if c =? 93 then st 460 else if between 48 57 c then st 85 else st 0)
  | 85 => Some (
      if c =? 93 then st 460 else if between 48 57 c then st 83 else st 0)
  | 86 => Some (
      switch c [(53, st 87); (93, st 460)]
        (if between 48 57 c then st 83 else st 0))
  | 87 => Some (
      if c =? 93 then st 460 else if between 48 53 c then st 83 else st 0)
  | 88 => Some (
      if c =? 46 then st 80 else if between 48 57 c then st 89 else st 0)
  | 89 => Some (
      if c =? 46 then st 80 else if between 48 57 c then st 79 else st 0)
  | 90 => Some (
      switch c [(46, st 80); (53, st 91)]
        (if between 48 57 c then st 79 else st 0))
  | 91 => Some (
      if c =? 46 then st 80 else if between 48 53 c then st 79 else st 0)
  | _ => None
  end.

Definition states_18 (cs c : Z) : option target :=
  match cs with
  | 92 => Some (
      if c =? 46 then st 76 else if between 48 57 c then st 93 else st 0)
  | 93 => Some (
      if c =? 46 then st 76 else if between 48 57 c then st 75 else st 0)
  | 94 => Some (
      switch c [(46, st 76); (53, st 95)]
        (if between 48 57 c then st 75 else st 0))
  | 95 => Some (
      if c =? 46 then st 76 else if between 48 53 c then st 75 else st 0)
  | 96 => Some (
      switch c [(46, st 72); (58, st 100)]
        (if c <? 65 then if between 48 57 c then st 97 else st 0
         else if 70 <? c then if between 97 102 c then st 97 else st 0 else st 97))
  | 97 => Some (
      if c =? 58 then st 100
      else
        if c <? 65 then if between 48 57 c then st 98 else st 0
        else if 70 <? c then if between 97 102 c then st 98 else st 0 else st 98)
  | 98 => Some (
      if c =? 58 then st 100
      else
        if c <? 65 then if between 48 57 c then st 99 else st 0
        else if 70 <? c then if between 97 102 c then st 99 else st 0 else st 99)
  | 99 => Some (
      if c =? 58 then st 100 else st 0)
  | 100 => Some (
      if c =? 58 then st 83
      else
        if c <? 65 then
          if between 48 57 c then st 101 else st 0
        else if 70 <? c then if between 97 102 c then st 101 else st 0 else st 101)
  | 101 => Some (
      if c =? 93 then st 460
      else
        if c <? 65 then
          if between 48 57 c then st 102 else st 0
        else if 70 <? c then if between 97 102 c then st 102 else st 0 else st 102)
  | 102 => Some (
      if c =? 93 then st 460
      else
        if c <? 65 then
          if between 48 57 c then st 103 else st 0
        else if 70 <? c then if between 97 102 c then st 103 else st 0 else st 103)
  | _ => None
  end.

Definition states_19 (cs c : Z) : option target :=
  match cs with
  | 103 => Some (
      if c =? 93 then st 460
      else
        if c <? 65 then if between 48 57 c then st 83 else st 0
        else if 70 <? c then if between 97 102 c then st 83 else st 0 else st 83)
  | 104 => Some (
      switch c [(46, st 72); (58, st 100)]
        (if c <? 65 then
           if between 48 57 c then st 105 else st 0
         else if 70 <? c then if between 97 102 c then st 97 else st 0 else st 97))
  | 105 => Some (
      switch c [(46, st 72); (58, st 100)]
        (if c <? 65 then
           if between 48 57 c then st 106 else st 0
         else if 70 <? c then if between 97 102 c then st 98 else st 0 else st 98))
  | 106 => Some (
      switch c [(46, st 72); (58, st 100)]
        (if c <? 65 then if between 48 57 c then st 99 else st 0
         else if 70 <? c then if between 97 102 c then st 99 else st 0 else st 99))
  | 107 => Some (
      switch c [(46, st 72); (53, st 109); (58, st 100)]
        (if c <? 65 then
           if between 48 57 c then st 108 else st 0
         else if 70 <? c then if between 97 102 c then st 97 else st 0 else st 97))
  | 108 => Some (
      switch c [(46, st 72); (58, st 100)]
        (if c <? 65 then if between 48 57 c then st 98 else st 0
         else if 70 <? c then if between 97 102 c then st 98 else st 0 else st 98))
  | 109 => Some (
      switch c [(46, st 72); (58, st 100)]
        (if c <? 54 then
           if between 48 53 c then st 106 else st 0
         else if 57 <? c then
           if 70 <? c then
             if between 97 102 c then st 98 else st 0
           else if 65 <=? c then st 98 else st 0
         else st 98))
  | 110 => Some (
      switch c [(46, st 72); (58, st 100)]
        (if c <? 65 then
           if between 48 57 c then st 108 else st 0
         else if 70 <? c then if between 97 102 c then st 97 else st 0 else st 97))
  | 111 => Some (
      if c <? 65 then
        if between 48 57 c then st 101 else st 0
      else if 70 <? c then if between 97 102 c then st 101 else st 0 else st 101)
  | _ => None
  end.

Definition states_20 (cs c : Z) : option target :=
  match cs with
  | 112 => Some (
      if c =? 58 then st 100
      else
        if c <? 65 then if between 48 57 c then st 97 else st 0
        else if 70 <? c then if between 97 102 c then st 97 else st 0 else st 97)
  | 113 => Some (
      switch c [(2, st 69); (48, st 114); (49, st 118); (50, st 121)]
        (if c <? 65 then
           if between 51 57 c then st 124 else st 0
         else if 70 <? c then if between 97 102 c then st 125 else st 0 else st 125))
  | 114 => Some (
      switch c [(46, st 72); (58, st 111)]
        (if c <? 65 then
           if between 48 57 c then st 115 else st 0
         else if 70 <? c then if between 97 102 c then st 115 else st 0 else st 115))
  | 115 => Some (
      if c =? 58 then st 111
      else
        if c <? 65 then
          if between 48 57 c then st 116 else st 0
        else if 70 <? c then if between 97 102 c then st 116 else st 0 else st 116)
  | 116 => Some (
      if c =? 58 then st 111
      else
        if c <? 65 then
          if between 48 57 c then st 117 else st 0
        else if 70 <? c then if between 97 102 c then st 117 else st 0 else st 117)
  | 117 => Some (
      if c =? 58 then st 111 else st 0)
  | 118 => Some (
      switch c [(46, st 72); (58, st 111)]
        (if c <? 65 then
           if between 48 57 c then st 119 else st 0
         else if 70 <? c then if between 97 102 c then st 115 else st 0 else st 115))
  | 119 => Some (
      switch c [(46, st 72); (58, st 111)]
        (if c <? 65 then
           if between 48 57 c then st 120 else st 0
         else if 70 <? c then if between 97 102 c then st 116 else st 0 else st 116))
  | 120 => Some (
      switch c [(46, st 72); (58, st 111)]
        (if c <? 65 then
           if between 48 57 c then st 117 else st 0
         else if 70 <? c then if between 97 102 c then st 117 else st 0 else st 117))
  | _ => None
  end.

Definition states_21 (cs c : Z) : option target :=
  match cs with
  | 121 => Some (
      switch c [(46, st 72); (53, st 123); (58, st 111)]
        (if c <? 65 then
           if between 48 57 c then st 122 else st 0
         else if 70 <? c then if between 97 102 c then st 115 else st 0 else st 115))
  | 122 => Some (
      switch c [(46, st 72); (58, st 111)]
        (if c <? 65 then
           if between 48 57 c then st 116 else st 0
         else if 70 <? c then if between 97 102 c then st 116 else st 0 else st 116))
  | 123 => Some (
      switch c [(46, st 72); (58, st 111)]
        (if c <? 54 then
           if between 48 53 c then st 120 else st 0
         else if 57 <? c then
           if 70 <? c then
             if between 97 102 c then st 116 else st 0
           else if 65 <=? c then st 116 else st 0
         else st 116))
  | 124 => Some (
      switch c [(46, st 72); (58, st 111)]
        (if c <? 65 then
           if between 48 57 c then st 122 else st 0
         else if 70 <? c then if between 97 102 c then st 115 else st 0 else st 115))
  | 125 => Some (
      if c =? 58 then st 111
      else
        if c <? 65 then
          if between 48 57 c then st 115 else st 0
        else if 70 <? c then if between 97 102 c then st 115 else st 0 else st 115)
  | 126 => Some (
      if c <? 65 then
        if between 48 57 c then st 127 else st 0
      else if 70 <? c then if between 97 102 c then st 127 else st 0 else st 127)
  | 127 => Some (
      if c =? 58 then st 113
      else
        if c <? 65 then
          if between 48 57 c then st 128 else st 0
        else if 70 <? c then if between 97 102 c then st 128 else st 0 else st 128)
  | 128 => Some (
      if c =? 58 then st 113
      else
        if c <? 65 then
          if between 48 57 c then st 129 else st 0
        else if 70 <? c then if between 97 102 c then st 129 else st 0 else st 129)
  | 129 => Some (
      if c =? 58 then st 113
      else
        if c <? 65 then
          if between 48 57 c then st 130 else st 0
        else if 70 <? c then if between 97 102 c then st 130 else st 0 else st 130)
  | _ => None
  end.

Definition states_22 (cs c : Z) : option target :=
  match cs with
  | 130 => Some (
      if c =? 58 then st 113 else st 0)
  | 131 => Some (
      if c <? 65 then
        if between 48 57 c then st 132 else st 0
      else if 70 <? c then if between 97 102 c then st 132 else st 0 else st 132)
  | 132 => Some (
      if c =? 58 then st 126
      else
        if c <? 65 then
          if between 48 57 c then st 133 else st 0
        else if 70 <? c then if between 97 102 c then st 133 else st 0 else st 133)
  | 133 => Some (
      if c =? 58 then st 126
      else
        if c <? 65 then
          if between 48 57 c then st 134 else st 0
        else if 70 <? c then if between 97 102 c then st 134 else st 0 else st 134)
  | 134 => Some (
      if c =? 58 then st 126
      else
        if c <? 65 then
          if between 48 57 c then st 135 else st 0
        else if 70 <? c then if between 97 102 c then st 135 else st 0 else st 135)
  | 135 => Some (
      if c =? 58 then st 126 else st 0)
  | 136 => Some (
      if c <? 65 then
        if between 48 57 c then st 137 else st 0
      else if 70 <? c then if between 97 102 c then st 137 else st 0 else st 137)
  | 137 => Some (
      if c =? 58 then st 131
      else
        if c <? 65 then
          if between 48 57 c then st 138 else st 0
        else if 70 <? c then if between 97 102 c then st 138 else st 0 else st 138)
  | 138 => Some (
      if c =? 58 then st 131
      else
        if c <? 65 then
          if between 48 57 c then st 139 else st 0
        else if 70 <? c then if between 97 102 c then st 139 else st 0 else st 139)
  | 139 => Some (
      if c =? 58 then st 131
      else
        if c <? 65 then
          if between 48 57 c then st 140 else st 0
        else if 70 <? c then if between 97 102 c then st 140 else st 0 else st 140)
  | 140 => Some (
      if c =? 58 then st 131 else st 0)
  | 141 => Some (
      if c <? 65 then
        if between 48 57 c then st 142 else st 0
      else if 70 <? c then if between 97 102 c then st 142 else st 0 else st 142)
  | _ => None
  end.

Definition states_23 (cs c : Z) : option target :=
  match cs with
  | 142 => Some (
      if c =? 58 then st 136
      else
        if c <? 65 then
          if between 48 57 c then st 143 else st 0
        else if 70 <? c then if between 97 102 c then st 143 else st 0 else st 143)
  | 143 => Some (
      if c =? 58 then st 136
      else
        if c <? 65 then
          if between 48 57 c then st 144 else st 0
        else if 70 <? c then if between 97 102 c then st 144 else st 0 else st 144)
  | 144 => Some (
      if c =? 58 then st 136
      else
        if c <? 65 then
          if between 48 57 c then st 145 else st 0
        else if 70 <? c then if between 97 102 c then st 145 else st 0 else st 145)
  | 145 => Some (
      if c =? 58 then st 136 else st 0)
  | 146 => Some (
      if c =? 58 then st 147 else st 0)
  | 147 => Some (
      switch c [(2, st 69); (48, st 148); (49, st 217); (50, st 220); (93, st 460)]
        (if c <? 65 then
           if between 51 57 c then st 223 else st 0
         else if 70 <? c then if between 97 102 c then st 224 else st 0 else st 224))
  | 148 => Some (
      switch c [(46, st 72); (58, st 152); (93, st 460)]
        (if c <? 65 then
           if between 48 57 c then st 149 else st 0
         else if 70 <? c then if between 97 102 c then st 149 else st 0 else st 149))
  | 149 => Some (
      switch c [(58, st 152); (93, st 460)]
        (if c <? 65 then
           if between 48 57 c then st 150 else st 0
         else if 70 <? c then if between 97 102 c then st 150 else st 0 else st 150))
  | 150 => Some (
      switch c [(58, st 152); (93, st 460)]
        (if c <? 65 then
           if between 48 57 c then st 151 else st 0
         else if 70 <? c then if between 97 102 c then st 151 else st 0 else st 151))
  | 151 => Some (
      switch c [(58, st 152); (93, st 460)]
        (st 0))
  | _ => None
  end.

Definition states_24 (cs c : Z) : option target :=
  match cs with
  | 152 => Some (
      switch c [(2, st 69); (48, st 153); (49, st 209); (50, st 212)]
        (if c <? 65 then
           if between 51 57 c then st 215 else st 0
         else if 70 <? c then if between 97 102 c then st 216 else st 0 else st 216))
  | 153 => Some (
      switch c [(46, st 72); (58, st 157); (93, st 460)]
        (if c <? 65 then
           if between 48 57 c then st 154 else st 0
         else if 70 <? c then if between 97 102 c then st 154 else st 0 else st 154))
  | 154 => Some (
      switch c [(58, st 157); (93, st 460)]
        (if c <? 65 then
           if between 48 57 c then st 155 else st 0
         else if 70 <? c then if between 97 102 c then st 155 else st 0 else st 155))
  | 155 => Some (
      switch c [(58, st 157); (93, st 460)]
        (if c <? 65 then
           if between 48 57 c then st 156 else st 0
         else if 70 <? c then if between 97 102 c then st 156 else st 0 else st 156))
  | 156 => Some (
      switch c [(58, st 157); (93, st 460)]
        (st 0))
  | 157 => Some (
      switch c [(2, st 69); (48, st 158); (49, st 201); (50, st 204)]
        (if c <? 65 then
           if between 51 57 c then st 207 else st 0
         else if 70 <? c then if between 97 102 c then st 208 else st 0 else st 208))
  | 158 => Some (
      switch c [(46, st 72); (58, st 162); (93, st 460)]
        (if c <? 65 then
           if between 48 57 c then st 159 else st 0
         else if 70 <? c then if between 97 102 c then st 159 else st 0 else st 159))
  | 159 => Some (
      switch c [(58, st 162); (93, st 460)]
        (if c <? 65 then
           if between 48 57 c then st 160 else st 0
         else if 70 <? c then if between 97 102 c then st 160 else st 0 else st 160))
  | 160 => Some (
      switch c [(58, st 162); (93, st 460)]
        (if c <? 65 then
           if between 48 57 c then st 161 else st 0
         else if 70 <? c then if between 97 102 c then st 161 else st 0 else st 161))
  | _ => None
  end.

Definition states_25 (cs c : Z) : option target :=
  match cs with
  | 161 => Some (
      switch c [(58, st 162); (93, st 460)]
        (st 0))
  | 162 => Some (
      switch c [(2, st 69); (48, st 163); (49, st 193); (50, st 196)]
        (if c <? 65 then
           if between 51 57 c then st 199 else st 0
         else if 70 <? c then if between 97 102 c then st 200 else st 0 else st 200))
  | 163 => Some (
      switch c [(46, st 72); (58, st 167); (93, st 460)]
        (if c <? 65 then
           if between 48 57 c then st 164 else st 0
         else if 70 <? c then if between 97 102 c then st 164 else st 0 else st 164))
  | 164 => Some (
      switch c [(58, st 167); (93, st 460)]
        (if c <? 65 then
           if between 48 57 c then st 165 else st 0
         else if 70 <? c then if between 97 102 c then st 165 else st 0 else st 165))
  | 165 => Some (
      switch c [(58, st 167); (93, st 460)]
        (if c <? 65 then
           if between 48 57 c then st 166 else st 0
         else if 70 <? c then if between 97 102 c then st 166 else st 0 else st 166))
  | 166 => Some (
      switch c [(58, st 167); (93, st 460)]
        (st 0))
  | 167 => Some (
      switch c [(2, st 69); (48, st 168); (49, st 185); (50, st 188)]
        (if c <? 65 then
           if between 51 57 c then st 191 else st 0
         else if 70 <? c then if between 97 102 c then st 192 else st 0 else st 192))
  | 168 => Some (
      switch c [(46, st 72); (58, st 172); (93, st 460)]
        (if c <? 65 then
           if between 48 57 c then st 169 else st 0
         else if 70 <? c then if between 97 102 c then st 169 else st 0 else st 169))
  | 169 => Some (
      switch c [(58, st 172); (93, st 460)]
        (if c <? 65 then
           if between 48 57 c then st 170 else st 0
         else if 70 <? c then if between 97 102 c then st 170 else st 0 else st 170))
  | _ => None
  end.

Definition states_26 (cs c : Z) : option target :=
  match cs with
  | 170 => Some (
      switch c [(58, st 172); (93, st 460)]
        (if c <? 65 then
           if between 48 57 c then st 171 else st 0
         else if 70 <? c then if between 97 102 c then st 171 else st 0 else st 171))
  | 171 => Some (
      switch c [(58, st 172); (93, st 460)]
        (st 0))
  | 172 => Some (
      switch c [(2, st 69); (48, st 173); (49, st 177); (50, st 180)]
        (if c <? 65 then
           if between 51 57 c then st 183 else st 0
         else if 70 <? c then if between 97 102 c then st 184 else st 0 else st 184))
  | 173 => Some (
      switch c [(46, st 72); (58, st 111); (93, st 460)]
        (if c <? 65 then
           if between 48 57 c then st 174 else st 0
         else if 70 <? c then if between 97 102 c then st 174 else st 0 else st 174))
  | 174 => Some (
      switch c [(58, st 111); (93, st 460)]
        (if c <? 65 then
           if between 48 57 c then st 175 else st 0
         else if 70 <? c then if between 97 102 c then st 175 else st 0 else st 175))
  | 175 => Some (
      switch c [(58, st 111); (93, st 460)]
        (if c <? 65 then
           if between 48 57 c then st 176 else st 0
         else if 70 <? c then if between 97 102 c then st 176 else st 0 else st 176))
  | 176 => Some (
      switch c [(58, st 111); (93, st 460)]
        (st 0))
  | 177 => Some (
      switch c [(46, st 72); (58, st 111); (93, st 460)]
        (if c <? 65 then
           if between 48 57 c then st 178 else st 0
         else if 70 <? c then if between 97 102 c then st 174 else st 0 else st 174))
  | 178 => Some (
      switch c [(46, st 72); (58, st 111); (93, st 460)]
        (if c <? 65 then
           if between 48 57 c then st 179 else st 0
         else if 70 <? c then if between 97 102 c then st 175 else st 0 else st 175))
  | _ => None
  end.

Definition states_27 (cs c : Z) : option target :=
  match cs with
  | 179 => Some (
      switch c [(46, st 72); (58, st 111); (93, st 460)]
        (if c <? 65 then
           if between 48 57 c then st 176 else st 0
         else if 70 <? c then if between 97 102 c then st 176 else st 0 else st 176))
  | 180 => Some (
      switch c [(46, st 72); (53, st 182); (58, st 111); (93, st 460)]
        (if c <? 65 then
           if between 48 57 c then st 181 else st 0
         else if 70 <? c then if between 97 102 c then st 174 else st 0 else st 174))
  | 181 => Some (
      switch c [(46, st 72); (58, st 111); (93, st 460)]
        (if c <? 65 then
           if between 48 57 c then st 175 else st 0
         else if 70 <? c then if between 97 102 c then st 175 else st 0 else st 175))
  | 182 => Some (
      switch c [(46, st 72); (58, st 111); (93, st 460)]
        (if c <? 54 then
           if between 48 53 c then st 179 else st 0
         else if 57 <? c then
           if 70 <? c then
             if between 97 102 c then st 175 else st 0
           else if 65 <=? c then st 175 else st 0
         else st 175))
  | 183 => Some (
      switch c [(46, st 72); (58, st 111); (93, st 460)]
        (if c <? 65 then
           if between 48 57 c then st 181 else st 0
         else if 70 <? c then if between 97 102 c then st 174 else st 0 else st 174))
  | 184 => Some (
      switch c [(58, st 111); (93, st 460)]
        (if c <? 65 then
           if between 48 57 c then st 174 else st 0
         else if 70 <? c then if between 97 102 c then st 174 else st 0 else st 174))
  | 185 => Some (
      switch c [(46, st 72); (58, st 172); (93, st 460)]
        (if c <? 65 then
           if between 48 57 c then st 186 else st 0
         else if 70 <? c then if between 97 102 c then st 169 else st 0 else st 169))
  | 186 => Some (
      switch c [(46, st 72); (58, st 172); (93, st 460)]
        (if c <? 65 then
           if between 48 57 c then st 187 else st 0
         else if 70 <? c then if between 97 102 c then st 170 else st 0 else st 170))
  | _ => None
  end.

Definition states_28 (cs c : Z) : option target :=
  match cs with
  | 187 => Some (
      switch c [(46, st 72); (58, st 172); (93, st 460)]
        (if c <? 65 then
           if between 48 57 c then st 171 else st 0
         else if 70 <? c then if between 97 102 c then st 171 else st 0 else st 171))
  | 188 => Some (
      switch c [(46, st 72); (53, st 190); (58, st 172); (93, st 460)]
        (if c <? 65 then
           if between 48 57 c then st 189 else st 0
         else if 70 <? c then if between 97 102 c then st 169 else st 0 else st 169))
  | 189 => Some (
      switch c [(46, st 72); (58, st 172); (93, st 460)]
        (if c <? 65 then
           if between 48 57 c then st 170 else st 0
         else if 70 <? c then if between 97 102 c then st 170 else st 0 else st 170))
  | 190 => Some (
      switch c [(46, st 72); (58, st 172); (93, st 460)]
        (if c <? 54 then
           if between 48 53 c then st 187 else st 0
         else if 57 <? c then
           if 70 <? c then
             if between 97 102 c then st 170 else st 0
           else if 65 <=? c then st 170 else st 0
         else st 170))
  | 191 => Some (
      switch c [(46, st 72); (58, st 172); (93, st 460)]
        (if c <? 65 then
           if between 48 57 c then st 189 else st 0
         else if 70 <? c then if between 97 102 c then st 169 else st 0 else st 169))
  | 192 => Some (
      switch c [(58, st 172); (93, st 460)]
        (if c <? 65 then
           if between 48 57 c then st 169 else st 0
         else if 70 <? c then if between 97 102 c then st 169 else st 0 else st 169))
  | 193 => Some (
      switch c [(46, st 72); (58, st 167); (93, st 460)]
        (if c <? 65 then
           if between 48 57 c then st 194 else st 0
         else if 70 <? c then if between 97 102 c then st 164 else st 0 else st 164))
  | 194 => Some (
      switch c [(46, st 72); (58, st 167); (93, st 460)]
        (if c <? 65 then
           if between 48 57 c then st 195 else st 0
         else if 70 <? c then if between 97 102 c then st 165 else st 0 else st 165))
  | _ => None
  end.

Definition states_29 (cs c : Z) : option target :=
  match cs with
  | 195 => Some (
      switch c [(46, st 72); (58, st 167); (93, st 460)]
        (if c <? 65 then
           if between 48 57 c then st 166 else st 0
         else if 70 <? c then if between 97 102 c then st 166 else st 0 else st 166))
  | 196 => Some (
      switch c [(46, st 72); (53, st 198); (58, st 167); (93, st 460)]
        (if c <? 65 then
           if between 48 57 c then st 197 else st 0
         else if 70 <? c then if between 97 102 c then st 164 else st 0 else st 164))
  | 197 => Some (
      switch c [(46, st 72); (58, st 167); (93, st 460)]
        (if c <? 65 then
           if between 48 57 c then st 165 else st 0
         else if 70 <? c then if between 97 102 c then st 165 else st 0 else st 165))
  | 198 => Some (
      switch c [(46, st 72); (58, st 167); (93, st 460)]
        (if c <? 54 then
           if between 48 53 c then st 195 else st 0
         else if 57 <? c then
           if 70 <? c then
             if between 97 102 c then st 165 else st 0
           else if 65 <=? c then st 165 else st 0
         else st 165))
  | 199 => Some (
      switch c [(46, st 72); (58, st 167); (93, st 460)]
        (if c <? 65 then
           if between 48 57 c then st 197 else st 0
         else if 70 <? c then if between 97 102 c then st 164 else st 0 else st 164))
  | 200 => Some (
      switch c [(58, st 167); (93, st 460)]
        (if c <? 65 then
           if between 48 57 c then st 164 else st 0
         else if 70 <? c then if between 97 102 c then st 164 else st 0 else st 164))
  | 201 => Some (
      switch c [(46, st 72); (58, st 162); (93, st 460)]
        (if c <? 65 then
           if between 48 57 c then st 202 else st 0
         else if 70 <? c then if between 97 102 c then st 159 else st 0 else st 159))
  | 202 => Some (
      switch c [(46, st 72); (58, st 162); (93, st 460)]
        (if c <? 65 then
           if between 48 57 c then st 203 else st 0
         else if 70 <? c then if between 97 102 c then st 160 else st 0 else st 160))
  | _ => None
  end.

Definition states_30 (cs c : Z) : option target :=
  match cs with
  | 203 => Some (
      switch c [(46, st 72); (58, st 162); (93, st 460)]
        (if c <? 65 then
           if between 48 57 c then st 161 else st 0
         else if 70 <? c then if between 97 102 c then st 161 else st 0 else st 161))
  | 204 => Some (
      switch c [(46, st 72); (53, st 206); (58, st 162); (93, st 460)]
        (if c <? 65 then
           if between 48 57 c then st 205 else st 0
         else if 70 <? c then if between 97 102 c then st 159 else st 0 else st 159))
  | 205 => Some (
      switch c [(46, st 72); (58, st 162); (93, st 460)]
        (if c <? 65 then
           if between 48 57 c then st 160 else st 0
         else if 70 <? c then if between 97 102 c then st 160 else st 0 else st 160))
  | 206 => Some (
      switch c [(46, st 72); (58, st 162); (93, st 460)]
        (if c <? 54 then
           if between 48 53 c then st 203 else st 0
         else if 57 <? c then
           if 70 <? c then
             if between 97 102 c then st 160 else st 0
           else if 65 <=? c then st 160 else st 0
         else st 160))
  | 207 => Some (
      switch c [(46, st 72); (58, st 162); (93, st 460)]
        (if c <? 65 then
           if between 48 57 c then st 205 else st 0
         else if 70 <? c then if between 97 102 c then st 159 else st 0 else st 159))
  | 208 => Some (
      switch c [(58, st 162); (93, st 460)]
        (if c <? 65 then
           if between 48 57 c then st 159 else st 0
         else if 70 <? c then if between 97 102 c then st 159 else st 0 else st 159))
  | 209 => Some (
      switch c [(46, st 72); (58, st 157); (93, st 460)]
        (if c <? 65 then
           if between 48 57 c then st 210 else st 0
         else if 70 <? c then if between 97 102 c then st 154 else st 0 else st 154))
  | 210 => Some (
      switch c [(46, st 72); (58, st 157); (93, st 460)]
        (if c <? 65 then
           if between 48 57 c then st 211 else st 0
         else if 70 <? c then if between 97 102 c then st 155 else st 0 else st 155))
  | _ => None
  end.

Definition states_31 (cs c : Z) : option target :=
  match cs with
  | 211 => Some (
      switch c [(46, st 72); (58, st 157); (93, st 460)]
        (if c <? 65 then
           if between 48 57 c then st 156 else st 0
         else if 70 <? c then if between 97 102 c then st 156 else st 0 else st 156))
  | 212 => Some (
      switch c [(46, st 72); (53, st 214); (58, st 157); (93, st 460)]
        (if c <? 65 then
           if between 48 57 c then st 213 else st 0
         else if 70 <? c then if between 97 102 c then st 154 else st 0 else st 154))
  | 213 => Some (
      switch c [(46, st 72); (58, st 157); (93, st 460)]
        (if c <? 65 then
           if between 48 57 c then st 155 else st 0
         else if 70 <? c then if between 97 102 c then st 155 else st 0 else st 155))
  | 214 => Some (
      switch c [(46, st 72); (58, st 157); (93, st 460)]
        (if c <? 54 then
           if between 48 53 c then st 211 else st 0
         else if 57 <? c then
           if 70 <? c then
             if between 97 102 c then st 155 else st 0
           else if 65 <=? c then st 155 else st 0
         else st 155))
  | 215 => Some (
      switch c [(46, st 72); (58, st 157); (93, st 460)]
        (if c <? 65 then
           if between 48 57 c then st 213 else st 0
         else if 70 <? c then if between 97 102 c then st 154 else st 0 else st 154))
  | 216 => Some (
      switch c [(58, st 157); (93, st 460)]
        (if c <? 65 then
           if between 48 57 c then st 154 else st 0
         else if 70 <? c then if between 97 102 c then st 154 else st 0 else st 154))
  | 217 => Some (
      switch c [(46, st 72); (58, st 152); (93, st 460)]
        (if c <? 65 then
           if between 48 57 c then st 218 else st 0
         else if 70 <? c then if between 97 102 c then st 149 else st 0 else st 149))
  | 218 => Some (
      switch c [(46, st 72); (58, st 152); (93, st 460)]
        (if c <? 65 then
           if between 48 57 c then st 219 else st 0
         else if 70 <? c then if between 97 102 c then st 150 else st 0 else st 150))
  | _ => None
  end.

Definition states_32 (cs c : Z) : option target :=
  match cs with
  | 219 => Some (
      switch c [(46, st 72); (58, st 152); (93, st 460)]
        (if c <? 65 then
           if between 48 57 c then st 151 else st 0
         else if 70 <? c then if between 97 102 c then st 151 else st 0 else st 151))
  | 220 => Some (
      switch c [(46, st 72); (53, st 222); (58, st 152); (93, st 460)]
        (if c <? 65 then
           if between 48 57 c then st 221 else st 0
         else if 70 <? c then if between 97 102 c then st 149 else st 0 else st 149))
  | 221 => Some (
      switch c [(46, st 72); (58, st 152); (93, st 460)]
        (if c <? 65 then
           if between 48 57 c then st 150 else st 0
         else if 70 <? c then if between 97 102 c then st 150 else st 0 else st 150))
  | 222 => Some (
      switch c [(46, st 72); (58, st 152); (93, st 460)]
        (if c <? 54 then
           if between 48 53 c then st 219 else st 0
         else if 57 <? c then
           if 70 <? c then
             if between 97 102 c then st 150 else st 0
           else if 65 <=? c then st 150 else st 0
         else st 150))
  | 223 => Some (
      switch c [(46, st 72); (58, st 152); (93, st 460)]
        (if c <? 65 then
           if between 48 57 c then st 221 else st 0
         else if 70 <? c then if between 97 102 c then st 149 else st 0 else st 149))
  | 224 => Some (
      switch c [(58, st 152); (93, st 460)]
        (if c <? 65 then
           if between 48 57 c then st 149 else st 0
         else if 70 <? c then if between 97 102 c then st 149 else st 0 else st 149))
  | 225 => Some (
      if c <? 65 then
        if between 48 57 c then st 226 else st 0
      else if 70 <? c then if between 97 102 c then st 226 else st 0 else st 226)
  | 226 => Some (
      if c =? 46 then st 227
      else
        if c <? 65 then
          if between 48 57 c then st 226 else st 0
        else if 70 <? c then if between 97 102 c then st 226 else st 0 else st 226)
  | _ => None
  end.

Definition states_33 (cs c : Z) : option target :=
  match cs with
  | 227 => Some (
      switch c [(33, st 228); (36, st 228); (61, st 228); (95, st 228);
         (126, st 228)]
        (if c <? 48 then
           if between 38 46 c then st 228 else st 0
         else if 59 <? c then
           if 90 <? c then
             if between 97 122 c then st 228 else st 0
           else if 65 <=? c then st 228 else st 0
         else st 228))
  | 228 => Some (
      switch c [(33, st 228); (36, st 228); (61, st 228); (93, st 460); (95, st 228);
         (126, st 228)]
        (if c <? 48 then
           if between 38 46 c then st 228 else st 0
         else if 59 <? c then
           if 90 <? c then
             if between 97 122 c then st 228 else st 0
           else if 65 <=? c then st 228 else st 0
         else st 228))
  | 489 => Some (
      switch c [(33, st 33); (35, tr 493); (37, st 34); (47, tr 494); (61, st 33);
         (63, tr 496); (64, tr 38); (95, st 33); (126, st 33)]
        (if c <? 58 then
           if 46 <? c then
             if between 48 57 c then st 489 else st 0
           else if 36 <=? c then st 33 else st 0
         else if 59 <? c then
           if 90 <? c then
             if between 97 122 c then st 33 else st 0
           else if 65 <=? c then st 33 else st 0
         else st 33))
  | 490 => Some (
      switch c [(33, st 467); (35, tr 485); (37, st 31); (46, st 491); (47, tr 486);
         (58, tr 499); (61, st 467); (63, tr 488); (64, tr 38); (95, st 467);
         (126, st 467)]
        (if c <? 65 then
           if between 36 59 c then st 467 else st 0
         else if 90 <? c then if between 97 122 c then st 467 else st 0 else st 467))
  | 491 => Some (
      switch c [(2, st 13); (33, st 467); (35, tr 485); (37, st 31); (47, tr 486);
         (48, st 492); (49, st 500); (50, st 502); (58, tr 499); (59, st 467);
         (61, st 467); (63, tr 488); (64, tr 38); (95, st 467); (126, st 467)]
        (if c <? 51 then
           if between 36 46 c then st 467 else st 0
         else if 57 <? c then
           if 90 <? c then
             if between 97 122 c then st 467 else st 0
           else if 65 <=? c then st 467 else st 0
         else st 501))
  | _ => None
  end.

Definition trans_33 (n : Z) : option (list action * Z) :=
  match n with
  | 500 => Some ([A_markh], 489)
  | 477 => Some ([A_markh], 490)
  | _ => None
  end.

Definition states_34 (cs c : Z) : option target :=
  match cs with
  | 492 => Some (
      switch c [(33, st 467); (35, tr 485); (37, st 31); (46, st 493); (47, tr 486);
         (58, tr 499); (61, st 467); (63, tr 488); (64, tr 38); (95, st 467);
         (126, st 467)]
        (if c <? 65 then
           if between 36 59 c then st 467 else st 0
         else if 90 <? c then if between 97 122 c then st 467 else st 0 else st 467))
  | 493 => Some (
      switch c [(2, st 17); (33, st 467); (35, tr 485); (37, st 31); (47, tr 486);
         (48, st 494); (49, st 496); (50, st 498); (58, tr 499); (59, st 467);
         (61, st 467); (63, tr 488); (64, tr 38); (95, st 467); (126, st 467)]
        (if c <? 51 then
           if between 36 46 c then st 467 else st 0
         else if 57 <? c then
           if 90 <? c then
             if between 97 122 c then st 467 else st 0
           else if 65 <=? c then st 467 else st 0
         else st 497))
  | 494 => Some (
      switch c [(33, st 467); (35, tr 485); (37, st 31); (46, st 495); (47, tr 486);
         (58, tr 499); (61, st 467); (63, tr 488); (64, tr 38); (95, st 467);
         (126, st 467)]
        (if c <? 65 then
           if between 36 59 c then st 467 else st 0
         else if 90 <? c then if between 97 122 c then st 467 else st 0 else st 467))
  | 495 => Some (
      switch c [(2, st 21); (33, st 467); (35, tr 485); (37, st 31); (47, tr 486);
         (58, tr 499); (61, st 467); (63, tr 488); (64, tr 38); (95, st 467);
         (126, st 467)]
        (if c <? 65 then
           if between 36 59 c then st 467 else st 0
         else if 90 <? c then if between 97 122 c then st 467 else st 0 else st 467))
  | 496 => Some (
      switch c [(33, st 467); (35, tr 485); (37, st 31); (46, st 495); (47, tr 486);
         (58, tr 499); (59, st 467); (61, st 467); (63, tr 488); (64, tr 38);
         (95, st 467); (126, st 467)]
        (if c <? 48 then
           if between 36 45 c then st 467 else st 0
         else if 57 <? c then
           if 90 <? c then
             if between 97 122 c then st 467 else st 0
           else if 65 <=? c then st 467 else st 0
         else st 497))
  | _ => None
  end.

Definition states_35 (cs c : Z) : option target :=
  match cs with
  | 497 => Some (
      switch c [(33, st 467); (35, tr 485); (37, st 31); (46, st 495); (47, tr 486);
         (58, tr 499); (59, st 467); (61, st 467); (63, tr 488); (64, tr 38);
         (95, st 467); (126, st 467)]
        (if c <? 48 then
           if between 36 45 c then st 467 else st 0
         else if 57 <? c then
           if 90 <? c then
             if between 97 122 c then st 467 else st 0
           else if 65 <=? c then st 467 else st 0
         else st 494))
  | 498 => Some (
      switch c [(33, st 467); (35, tr 485); (37, st 31); (46, st 495); (47, tr 486);
         (53, st 499); (58, tr 499); (59, st 467); (61, st 467); (63, tr 488);
         (64, tr 38); (95, st 467); (126, st 467)]
        (if c <? 48 then
           if between 36 45 c then st 467 else st 0
         else if 57 <? c then
           if 90 <? c then
             if between 97 122 c then st 467 else st 0
           else if 65 <=? c then st 467 else st 0
         else st 494))
  | 499 => Some (
      switch c [(33, st 467); (35, tr 485); (37, st 31); (46, st 495); (47, tr 486);
         (58, tr 499); (61, st 467); (63, tr 488); (64, tr 38); (95, st 467);
         (126, st 467)]
        (if c <? 54 then
           if 45 <? c then
             if between 48 53 c then st 494 else st 0
           else if 36 <=? c then st 467 else st 0
         else if 59 <? c then
           if 90 <? c then
             if between 97 122 c then st 467 else st 0
           else if 65 <=? c then st 467 else st 0
         else st 467))
  | 500 => Some (
      switch c [(33, st 467); (35, tr 485); (37, st 31); (46, st 493); (47, tr 486);
         (58, tr 499); (59, st 467); (61, st 467); (63, tr 488); (64, tr 38);
         (95, st 467); (126, st 467)]
        (if c <? 48 then
           if between 36 45 c then st 467 else st 0
         else if 57 <? c then
           if 90 <? c then
             if between 97 122 c then st 467 else st 0
           else if 65 <=? c then st 467 else st 0
         else st 501))
  | _ => None
  end.

Definition states_36 (cs c : Z) : option target :=
  match cs with
  | 501 => Some (
      switch c [(33, st 467); (35, tr 485); (37, st 31); (46, st 493); (47, tr 486);
         (58, tr 499); (59, st 467); (61, st 467); (63, tr 488); (64, tr 38);
         (95, st 467); (126, st 467)]
        (if c <? 48 then
           if between 36 45 c then st 467 else st 0
         else if 57 <? c then
           if 90 <? c then
             if between 97 122 c then st 467 else st 0
           else if 65 <=? c then st 467 else st 0
         else st 492))
  | 502 => Some (
      switch c [(33, st 467); (35, tr 485); (37, st 31); (46, st 493); (47, tr 486);
         (53, st 503); (58, tr 499); (59, st 467); (61, st 467); (63, tr 488);
         (64, tr 38); (95, st 467); (126, st 467)]
        (if c <? 48 then
           if between 36 45 c then st 467 else st 0
         else if 57 <? c then
           if 90 <? c then
             if between 97 122 c then st 467 else st 0
           else if 65 <=? c then st 467 else st 0
         else st 492))
  | 503 => Some (
      switch c [(33, st 467); (35, tr 485); (37, st 31); (46, st 493); (47, tr 486);
         (58, tr 499); (61, st 467); (63, tr 488); (64, tr 38); (95, st 467);
         (126, st 467)]
        (if c <? 54 then
           if 45 <? c then
             if between 48 53 c then st 492 else st 0
           else if 36 <=? c then st 467 else st 0
         else if 59 <? c then
           if 90 <? c then
             if between 97 122 c then st 467 else st 0
           else if 65 <=? c then st 467 else st 0
         else st 467))
  | 504 => Some (
      switch c [(33, st 467); (35, tr 485); (37, st 31); (46, st 491); (47, tr 486);
         (58, tr 499); (59, st 467); (61, st 467); (63, tr 488); (64, tr 38);
         (95, st 467); (126, st 467)]
        (if c <? 48 then
           if between 36 45 c then st 467 else st 0
         else if 57 <? c then
           if 90 <? c then
             if between 97 122 c then st 467 else st 0
           else if 65 <=? c then st 467 else st 0
         else st 505))
  | _ => None
  end.

Definition trans_36 (n : Z) : option (list action * Z) :=
  match n with
  | 478 => Some ([A_markh], 504)
  | 480 => Some ([A_markh], 505)
  | _ => None
  end.

Definition states_37 (cs c : Z) : option target :=
  match cs with
  | 505 => Some (
      switch c [(33, st 467); (35, tr 485); (37, st 31); (46, st 491); (47, tr 486);
         (58, tr 499); (59, st 467); (61, st 467); (63, tr 488); (64, tr 38);
         (95, st 467); (126, st 467)]
        (if c <? 48 then
           if between 36 45 c then st 467 else st 0
         else if 57 <? c then
           if 90 <? c then
             if between 97 122 c then st 467 else st 0
           else if 65 <=? c then st 467 else st 0
         else st 490))
  | 506 => Some (
      switch c [(33, st 467); (35, tr 485); (37, st 31); (46, st 491); (47, tr 486);
         (53, st 507); (58, tr 499); (59, st 467); (61, st 467); (63, tr 488);
         (64, tr 38); (95, st 467); (126, st 467)]
        (if c <? 48 then
           if between 36 45 c then st 467 else st 0
         else if 57 <? c then
           if 90 <? c then
             if between 97 122 c then st 467 else st 0
           else if 65 <=? c then st 467 else st 0
         else st 490))
  | 507 => Some (
      switch c [(33, st 467); (35, tr 485); (37, st 31); (46, st 491); (47, tr 486);
         (58, tr 499); (61, st 467); (63, tr 488); (64, tr 38); (95, st 467);
         (126, st 467)]
        (if c <? 54 then
           if 45 <? c then
             if between 48 53 c then st 490 else st 0
           else if 36 <=? c then st 467 else st 0
         else if 59 <? c then
           if 90 <? c then
             if between 97 122 c then st 467 else st 0
           else if 65 <=? c then st 467 else st 0
         else st 467))
  | 508 => Some (
      switch c [(34, st 0); (35, st 453); (37, st 3); (43, st 508); (47, st 455);
         (58, tr 543); (60, st 0); (62, st 0); (63, st 456); (96, st 0);
         (127, st 0)]
        (if c <? 65 then
           if 32 <? c then
             if between 45 57 c then st 508 else st 452
           else if 0 <=? c then st 0 else st 452
         else if 90 <? c then
           if c <? 97 then
             if between 91 94 c then st 0 else st 452
           else if 122 <? c then
             if between 123 125 c then st 0 else st 452
           else st 508
         else st 508))
  | _ => None
  end.

Definition trans_37 (n : Z) : option (list action * Z) :=
  match n with
  | 479 => Some ([A_markh], 506)
  | 461 => Some ([A_marku], 508)
  | 543 => Some ([A_save_scheme], 509)
  | _ => None
  end.

Definition states_38 (cs c : Z) : option target :=
  match cs with
  | 509 => Some (
      switch c [(34, st 0); (35, st 453); (37, st 5); (47, st 510); (60, st 0);
         (62, st 0); (63, st 456); (96, st 0); (127, st 0)]
        (if c <? 91 then if between 0 32 c then st 0 else st 455
         else if 94 <? c then if between 123 125 c then st 0 else st 455 else st 0))
  | 510 => Some (
      switch c [(34, st 0); (35, st 453); (37, st 5); (47, st 511); (60, st 0);
         (62, st 0); (63, st 456); (96, st 0); (127, st 0)]
        (if c <? 91 then if between 0 32 c then st 0 else st 455
         else if 94 <? c then if between 123 125 c then st 0 else st 455 else st 0))
  | 511 => Some (
      switch c [(2, tr 546); (33, tr 547); (35, tr 548); (37, tr 549); (47, tr 550);
         (48, tr 551); (49, tr 552); (50, tr 553); (58, tr 555); (59, tr 547);
         (61, tr 547); (63, tr 556); (64, tr 557); (91, tr 558); (95, tr 547);
         (126, tr 547)]
        (if c <? 51 then
           if between 36 46 c then tr 547 else st 0
         else if 57 <? c then
           if 90 <? c then
             if between 97 122 c then tr 547 else st 0
           else if 65 <=? c then tr 547 else st 0
         else tr 554))
  | 229 => Some (
      if between 48 52 c then st 230 else st 0)
  | 230 => Some (
      if between 48 57 c then st 231 else st 0)
  | 231 => Some (
      if c =? 46 then st 232 else st 0)
  | 232 => Some (
      switch c [(2, st 233); (48, st 235); (49, st 249); (50, st 251)]
        (if between 51 57 c then st 250 else st 0))
  | 233 => Some (
      if between 48 52 c then st 234 else st 0)
  | 234 => Some (
      if between 48 57 c then st 235 else st 0)
  | 235 => Some (
      if c =? 46 then st 236 else st 0)
  | _ => None
  end.

Definition trans_38 (n : Z) : option (list action * Z) :=
  match n with
  | 546 => Some ([A_markh], 229)
  | _ => None
  end.

Definition states_39 (cs c : Z) : option target :=
  match cs with
  | 236 => Some (
      switch c [(2, st 237); (48, st 239); (49, st 245); (50, st 247)]
        (if between 51 57 c then st 246 else st 0))
  | 237 => Some (
      if between 48 52 c then st 238 else st 0)
  | 238 => Some (
      if between 48 57 c then st 239 else st 0)
  | 239 => Some (
      if c =? 46 then st 240 else st 0)
  | 240 => Some (
      switch c [(2, st 241); (48, st 512); (49, st 516); (50, st 518)]
        (if between 51 57 c then st 517 else st 0))
  | 241 => Some (
      if between 48 52 c then st 242 else st 0)
  | 242 => Some (
      if between 48 57 c then st 512 else st 0)
  | 512 => Some (
      switch c [(35, tr 559); (47, tr 560); (58, tr 561); (63, tr 562)]
        (st 0))
  | 513 => Some (
      switch c [(34, st 0); (35, tr 563); (37, st 243); (60, st 0); (62, st 0);
         (63, tr 565); (96, st 0); (127, st 0)]
        (if c <? 91 then if between 0 32 c then st 0 else st 513
         else if 94 <? c then if between 123 125 c then st 0 else st 513 else st 0))
  | _ => None
  end.

Definition trans_39 (n : Z) : option (list action * Z) :=
  match n with
  | 550 => Some ([A_markh; A_save_host], 513)
  | 567 => Some ([A_markh; A_save_port], 513)
  | 560 => Some ([A_save_host; A_markh], 513)
  | 571 => Some ([A_save_port; A_markh], 513)
  | _ => None
  end.

Definition states_40 (cs c : Z) : option target :=
  match cs with
  | 243 => Some (
      if c <? 65 then
        if between 48 57 c then st 244 else st 0
      else if 70 <? c then if between 97 102 c then st 244 else st 0 else st 244)
  | 244 => Some (
      if c <? 65 then
        if between 48 57 c then st 513 else st 0
      else if 70 <? c then if between 97 102 c then st 513 else st 0 else st 513)
  | 514 => Some (
      switch c [(35, tr 566); (47, tr 567); (63, tr 569)]
        (if between 48 57 c then tr 568 else st 0))
  | 515 => Some (
      switch c [(35, tr 570); (47, tr 571); (63, tr 573)]
        (if between 48 57 c then st 515 else st 0))
  | 516 => Some (
      switch c [(35, tr 559); (47, tr 560); (58, tr 561); (63, tr 562)]
        (if between 48 57 c then st 517 else st 0))
  | 517 => Some (
      switch c [(35, tr 559); (47, tr 560); (58, tr 561); (63, tr 562)]
        (if between 48 57 c then st 512 else st 0))
  | 518 => Some (
      switch c [(35, tr 559); (47, tr 560); (53, st 519); (58, tr 561); (63, tr 562)]
        (if between 48 57 c then st 512 else st 0))
  | 519 => Some (
      switch c [(35, tr 559); (47, tr 560); (58, tr 561); (63, tr 562)]
        (if between 48 53 c then st 512 else st 0))
  | 245 => Some (
      if c =? 46 then st 240 else if between 48 57 c then st 246 else st 0)
  | 246 => Some (
      if c =? 46 then st 240 else if between 48 57 c then st 239 else st 0)
  | _ => None
  end.

Definition trans_40 (n : Z) : option (list action * Z) :=
  match n with
  | 584 => Some ([A_markh; A_save_host], 514)
  | 561 => Some ([A_save_host], 514)
  | 568 => Some ([A_markh], 515)
  | _ => None
  end.

Definition states_41 (cs c : Z) : option target :=
  match cs with
  | 247 => Some (
      switch c [(46, st 240); (53, st 248)]
        (if between 48 57 c then st 239 else st 0))
  | 248 => Some (
      if c =? 46 then st 240 else if between 48 53 c then st 239 else st 0)
  | 249 => Some (
      if c =? 46 then st 236 else if between 48 57 c then st 250 else st 0)
  | 250 => Some (
      if c =? 46 then st 236 else if between 48 57 c then st 235 else st 0)
  | 251 => Some (
      switch c [(46, st 236); (53, st 252)]
        (if between 48 57 c then st 235 else st 0))
  | 252 => Some (
      if c =? 46 then st 236 else if between 48 53 c then st 235 else st 0)
  | 520 => Some (
      switch c [(33, st 520); (35, tr 559); (37, st 253); (47, tr 560); (58, tr 576);
         (61, st 520); (63, tr 562); (64, tr 263); (95, st 520);
         (126, st 520)]
        (if c <? 65 then
           if between 36 59 c then st 520 else st 0
         else if 90 <? c then if between 97 122 c then st 520 else st 0 else st 520))
  | 253 => Some (
      if c <? 65 then
        if between 48 57 c then st 254 else st 0
      else if 70 <? c then if between 97 102 c then st 254 else st 0 else st 254)
  | 254 => Some (
      if c <? 65 then
        if between 48 57 c then st 520 else st 0
      else if 70 <? c then if between 97 102 c then st 520 else st 0 else st 520)
  | _ => None
  end.

Definition trans_41 (n : Z) : option (list action * Z) :=
  match n with
  | 547 => Some ([A_markh], 520)
  | 549 => Some ([A_markh], 253)
  | 555 => Some ([A_markh; A_save_host], 521)
  | 576 => Some ([A_save_host], 521)
  | _ => None
  end.

Definition states_42 (cs c : Z) : option target :=
  match cs with
  | 521 => Some (
      switch c [(33, st 255); (35, tr 566); (37, st 256); (47, tr 567); (61, st 255);
         (63, tr 569); (64, tr 263); (95, st 255); (126, st 255)]
        (if c <? 58 then
           if 46 <? c then
             if between 48 57 c then tr 577 else st 0
           else if 36 <=? c then st 255 else st 0
         else if 59 <? c then
           if 90 <? c then
             if between 97 122 c then st 255 else st 0
           else if 65 <=? c then st 255 else st 0
         else st 255))
  | 255 => Some (
      switch c [(33, st 255); (37, st 256); (61, st 255); (64, tr 263); (95, st 255);
         (126, st 255)]
        (if c <? 48 then
           if between 36 46 c then st 255 else st 0
         else if 59 <? c then
           if 90 <? c then
             if between 97 122 c then st 255 else st 0
           else if 65 <=? c then st 255 else st 0
         else st 255))
  | 256 => Some (
      if c <? 65 then
        if between 48 57 c then st 257 else st 0
      else if 70 <? c then if between 97 102 c then st 257 else st 0 else st 257)
  | 257 => Some (
      if c <? 65 then
        if between 48 57 c then st 255 else st 0
      else if 70 <? c then if between 97 102 c then st 255 else st 0 else st 255)
  | 522 => Some (
      switch c [(2, tr 546); (33, tr 578); (35, tr 548); (37, tr 579); (47, tr 550);
         (48, tr 580); (49, tr 581); (50, tr 582); (58, tr 584); (59, tr 578);
         (61, tr 578); (63, tr 556); (91, tr 558); (95, tr 578);
         (126, tr 578)]
        (if c <? 51 then
           if between 36 46 c then tr 578 else st 0
         else if 57 <? c then
           if 90 <? c then
             if between 97 122 c then tr 578 else st 0
           else if 65 <=? c then tr 578 else st 0
         else tr 583))
  | _ => None
  end.

Definition trans_42 (n : Z) : option (list action * Z) :=
  match n with
  | 263 => Some ([A_save_userinfo], 522)
  | 557 => Some ([A_markh; A_save_userinfo], 522)
  | 578 => Some ([A_markh], 523)
  | _ => None
  end.

Definition states_43 (cs c : Z) : option target :=
  match cs with
  | 523 => Some (
      switch c [(33, st 523); (35, tr 559); (37, st 258); (47, tr 560); (58, tr 561);
         (61, st 523); (63, tr 562); (95, st 523); (126, st 523)]
        (if c <? 65 then
           if between 36 59 c then st 523 else st 0
         else if 90 <? c then if between 97 122 c then st 523 else st 0 else st 523))
  | 258 => Some (
      if c <? 65 then
        if between 48 57 c then st 259 else st 0
      else if 70 <? c then if between 97 102 c then st 259 else st 0 else st 259)
  | 259 => Some (
      if c <? 65 then
        if between 48 57 c then st 523 else st 0
      else if 70 <? c then if between 97 102 c then st 523 else st 0 else st 523)
  | 524 => Some (
      switch c [(33, st 523); (35, tr 559); (37, st 258); (46, st 525); (47, tr 560);
         (58, tr 561); (61, st 523); (63, tr 562); (95, st 523);
         (126, st 523)]
        (if c <? 65 then
           if between 36 59 c then st 523 else st 0
         else if 90 <? c then if between 97 122 c then st 523 else st 0 else st 523))
  | 525 => Some (
      switch c [(2, st 233); (33, st 523); (35, tr 559); (37, st 258); (47, tr 560);
         (48, st 526); (49, st 534); (50, st 536); (58, tr 561); (59, st 523);
         (61, st 523); (63, tr 562); (95, st 523); (126, st 523)]
        (if c <? 51 then
           if between 36 46 c then st 523 else st 0
         else if 57 <? c then
           if 90 <? c then
             if between 97 122 c then st 523 else st 0
           else if 65 <=? c then st 523 else st 0
         else st 535))
  | 526 => Some (
      switch c [(33, st 523); (35, tr 559); (37, st 258); (46, st 527); (47, tr 560);
         (58, tr 561); (61, st 523); (63, tr 562); (95, st 523);
         (126, st 523)]
        (if c <? 65 then
           if between 36 59 c then st 523 else st 0
         else if 90 <? c then if between 97 122 c then st 523 else st 0 else st 523))
  | _ => None
  end.

Definition trans_43 (n : Z) : option (list action * Z) :=
  match n with
  | 579 => Some ([A_markh], 258)
  | 580 => Some ([A_markh], 524)
  | _ => None
  end.

Definition states_44 (cs c : Z) : option target :=
  match cs with
  | 527 => Some (
      switch c [(2, st 237); (33, st 523); (35, tr 559); (37, st 258); (47, tr 560);
         (48, st 528); (49, st 530); (50, st 532); (58, tr 561); (59, st 523);
         (61, st 523); (63, tr 562); (95, st 523); (126, st 523)]
        (if c <? 51 then
           if between 36 46 c then st 523 else st 0
         else if 57 <? c then
           if 90 <? c then
             if between 97 122 c then st 523 else st 0
           else if 65 <=? c then st 523 else st 0
         else st 531))
  | 528 => Some (
      switch c [(33, st 523); (35, tr 559); (37, st 258); (46, st 529); (47, tr 560);
         (58, tr 561); (61, st 523); (63, tr 562); (95, st 523);
         (126, st 523)]
        (if c <? 65 then
           if between 36 59 c then st 523 else st 0
         else if 90 <? c then if between 97 122 c then st 523 else st 0 else st 523))
  | 529 => Some (
      switch c [(2, st 241); (33, st 523); (35, tr 559); (37, st 258); (47, tr 560);
         (58, tr 561); (61, st 523); (63, tr 562); (95, st 523);
         (126, st 523)]
        (if c <? 65 then
           if between 36 59 c then st 523 else st 0
         else if 90 <? c then if between 97 122 c then st 523 else st 0 else st 523))
  | 530 => Some (
      switch c [(33, st 523); (35, tr 559); (37, st 258); (46, st 529); (47, tr 560);
         (58, tr 561); (59, st 523); (61, st 523); (63, tr 562); (95, st 523);
         (126, st 523)]
        (if c <? 48 then
           if between 36 45 c then st 523 else st 0
         else if 57 <? c then
           if 90 <? c then
             if between 97 122 c then st 523 else st 0
           else if 65 <=? c then st 523 else st 0
         else st 531))
  | 531 => Some (
      switch c [(33, st 523); (35, tr 559); (37, st 258); (46, st 529); (47, tr 560);
         (58, tr 561); (59, st 523); (61, st 523); (63, tr 562); (95, st 523);
         (126, st 523)]
        (if c <? 48 then
           if between 36 45 c then st 523 else st 0
         else if 57 <? c then
           if 90 <? c then
             if between 97 122 c then st 523 else st 0
           else if 65 <=? c then st 523 else st 0
         else st 528))
  | _ => None
  end.

Definition states_45 (cs c : Z) : option target :=
  match cs with
  | 532 => Some (
      switch c [(33, st 523); (35, tr 559); (37, st 258); (46, st 529); (47, tr 560);
         (53, st 533); (58, tr 561); (59, st 523); (61, st 523); (63, tr 562);
         (95, st 523); (126, st 523)]
        (if c <? 48 then
           if between 36 45 c then st 523 else st 0
         else if 57 <? c then
           if 90 <? c then
             if between 97 122 c then st 523 else st 0
           else if 65 <=? c then st 523 else st 0
         else st 528))
  | 533 => Some (
      switch c [(33, st 523); (35, tr 559); (37, st 258); (46, st 529); (47, tr 560);
         (58, tr 561); (61, st 523); (63, tr 562); (95, st 523);
         (126, st 523)]
        (if c <? 54 then
           if 45 <? c then
             if between 48 53 c then st 528 else st 0
           else if 36 <=? c then st 523 else st 0
         else if 59 <? c then
           if 90 <? c then
             if between 97 122 c then st 523 else st 0
           else if 65 <=? c then st 523 else st 0
         else st 523))
  | 534 => Some (
      switch c [(33, st 523); (35, tr 559); (37, st 258); (46, st 527); (47, tr 560);
         (58, tr 561); (59, st 523); (61, st 523); (63, tr 562); (95, st 523);
         (126, st 523)]
        (if c <? 48 then
           if between 36 45 c then st 523 else st 0
         else if 57 <? c then
           if 90 <? c then
             if between 97 122 c then st 523 else st 0
           else if 65 <=? c then st 523 else st 0
         else st 535))
  | 535 => Some (
      switch c [(33, st 523); (35, tr 559); (37, st 258); (46, st 527); (47, tr 560);
         (58, tr 561); (59, st 523); (61, st 523); (63, tr 562); (95, st 523);
         (126, st 523)]
        (if c <? 48 then
           if between 36 45 c then st 523 else st 0
         else if 57 <? c then
           if 90 <? c then
             if between 97 122 c then st 523 else st 0
           else if 65 <=? c then st 523 else st 0
         else st 526))
  | 536 => Some (
      switch c [(33, st 523); (35, tr 559); (37, st 258); (46, st 527); (47, tr 560);
         (53, st 537); (58, tr 561); (59, st 523); (61, st 523); (63, tr 562);
         (95, st 523); (126, st 523)]
        (if c <? 48 then
           if between 36 45 c then st 523 else st 0
         else if 57 <? c then
           if 90 <? c then
             if between 97 122 c then st 523 else st 0
           else if 65 <=? c then st 523 else st 0
         else st 526))
  | _ => None
  end.

Definition states_46 (cs c : Z) : option target :=
  match cs with
  | 537 => Some (
      switch c [(33, st 523); (35, tr 559); (37, st 258); (46, st 527); (47, tr 560);
         (58, tr 561); (61, st 523); (63, tr 562); (95, st 523);
         (126, st 523)]
        (if c <? 54 then
           if 45 <? c then
             if between 48 53 c then st 526 else st 0
           else if 36 <=? c then st 523 else st 0
         else if 59 <? c then
           if 90 <? c then
             if between 97 122 c then st 523 else st 0
           else if 65 <=? c then st 523 else st 0
         else st 523))
  | 538 => Some (
      switch c [(33, st 523); (35, tr 559); (37, st 258); (46, st 525); (47, tr 560);
         (58, tr 561); (59, st 523); (61, st 523); (63, tr 562); (95, st 523);
         (126, st 523)]
        (if c <? 48 then
           if between 36 45 c then st 523 else st 0
         else if 57 <? c then
           if 90 <? c then
             if between 97 122 c then st 523 else st 0
           else if 65 <=? c then st 523 else st 0
         else st 539))
  | 539 => Some (
      switch c [(33, st 523); (35, tr 559); (37, st 258); (46, st 525); (47, tr 560);
         (58, tr 561); (59, st 523); (61, st 523); (63, tr 562); (95, st 523);
         (126, st 523)]
        (if c <? 48 then
           if between 36 45 c then st 523 else st 0
         else if 57 <? c then
           if 90 <? c then
             if between 97 122 c then st 523 else st 0
           else if 65 <=? c then st 523 else st 0
         else st 524))
  | 540 => Some (
      switch c [(33, st 523); (35, tr 559); (37, st 258); (46, st 525); (47, tr 560);
         (53, st 541); (58, tr 561); (59, st 523); (61, st 523); (63, tr 562);
         (95, st 523); (126, st 523)]
        (if c <? 48 then
           if between 36 45 c then st 523 else st 0
         else if 57 <? c then
           if 90 <? c then
             if between 97 122 c then st 523 else st 0
           else if 65 <=? c then st 523 else st 0
         else st 524))
  | _ => None
  end.

Definition trans_46 (n : Z) : option (list action * Z) :=
  match n with
  | 581 => Some ([A_markh], 538)
  | 583 => Some ([A_markh], 539)
  | 582 => Some ([A_markh], 540)
  | _ => None
  end.

Definition states_47 (cs c : Z) : option target :=
  match cs with
  | 541 => Some (
      switch c [(33, st 523); (35, tr 559); (37, st 258); (46, st 525); (47, tr 560);
         (58, tr 561); (61, st 523); (63, tr 562); (95, st 523);
         (126, st 523)]
        (if c <? 54 then
           if 45 <? c then
             if between 48 53 c then st 524 else st 0
           else if 36 <=? c then st 523 else st 0
         else if 59 <? c then
           if 90 <? c then
             if between 97 122 c then st 523 else st 0
           else if 65 <=? c then st 523 else st 0
         else st 523))
  | 260 => Some (
      switch c [(58, st 368); (118, st 447)]
        (if c <? 65 then
           if between 48 57 c then st 261 else st 0
         else if 70 <? c then if between 97 102 c then st 261 else st 0 else st 261))
  | 261 => Some (
      if c =? 58 then st 265
      else
        if c <? 65 then
          if between 48 57 c then st 262 else st 0
        else if 70 <? c then if between 97 102 c then st 262 else st 0 else st 262)
  | 262 => Some (
      if c =? 58 then st 265
      else
        if c <? 65 then
          if between 48 57 c then st 263 else st 0
        else if 70 <? c then if between 97 102 c then st 263 else st 0 else st 263)
  | 263 => Some (
      if c =? 58 then st 265
      else
        if c <? 65 then
          if between 48 57 c then st 264 else st 0
        else if 70 <? c then if between 97 102 c then st 264 else st 0 else st 264)
  | 264 => Some (
      if c =? 58 then st 265 else st 0)
  | 265 => Some (
      if c =? 58 then st 363
      else
        if c <? 65 then
          if between 48 57 c then st 266 else st 0
        else if 70 <? c then if between 97 102 c then st 266 else st 0 else st 266)
  | 266 => Some (
      if c =? 58 then st 270
      else
        if c <? 65 then
          if between 48 57 c then st 267 else st 0
        else if 70 <? c then if between 97 102 c then st 267 else st 0 else st 267)
  | 267 => Some (
      if c =? 58 then st 270
      else
        if c <? 65 then
          if between 48 57 c then st 268 else st 0
        else if 70 <? c then if between 97 102 c then st 268 else st 0 else st 268)
  | _ => None
  end.

Definition trans_47 (n : Z) : option (list action * Z) :=
  match n with
  | 558 => Some ([A_markh], 260)
  | _ => None
  end.

Definition states_48 (cs c : Z) : option target :=
  match cs with
  | 268 => Some (
      if c =? 58 then st 270
      else
        if c <? 65 then
          if between 48 57 c then st 269 else st 0
        else if 70 <? c then if between 97 102 c then st 269 else st 0 else st 269)
  | 269 => Some (
      if c =? 58 then st 270 else st 0)
  | 270 => Some (
      if c =? 58 then st 358
      else
        if c <? 65 then
          if between 48 57 c then st 271 else st 0
        else if 70 <? c then if between 97 102 c then st 271 else st 0 else st 271)
  | 271 => Some (
      if c =? 58 then st 275
      else
        if c <? 65 then
          if between 48 57 c then st 272 else st 0
        else if 70 <? c then if between 97 102 c then st 272 else st 0 else st 272)
  | 272 => Some (
      if c =? 58 then st 275
      else
        if c <? 65 then
          if between 48 57 c then st 273 else st 0
        else if 70 <? c then if between 97 102 c then st 273 else st 0 else st 273)
  | 273 => Some (
      if c =? 58 then st 275
      else
        if c <? 65 then
          if between 48 57 c then st 274 else st 0
        else if 70 <? c then if between 97 102 c then st 274 else st 0 else st 274)
  | 274 => Some (
      if c =? 58 then st 275 else st 0)
  | 275 => Some (
      if c =? 58 then st 353
      else
        if c <? 65 then
          if between 48 57 c then st 276 else st 0
        else if 70 <? c then if between 97 102 c then st 276 else st 0 else st 276)
  | 276 => Some (
      if c =? 58 then st 280
      else
        if c <? 65 then
          if between 48 57 c then st 277 else st 0
        else if 70 <? c then if between 97 102 c then st 277 else st 0 else st 277)
  | 277 => Some (
      if c =? 58 then st 280
      else
        if c <? 65 then
          if between 48 57 c then st 278 else st 0
        else if 70 <? c then if between 97 102 c then st 278 else st 0 else st 278)
  | _ => None
  end.

Definition states_49 (cs c : Z) : option target :=
  match cs with
  | 278 => Some (
      if c =? 58 then st 280
      else
        if c <? 65 then
          if between 48 57 c then st 279 else st 0
        else if 70 <? c then if between 97 102 c then st 279 else st 0 else st 279)
  | 279 => Some (
      if c =? 58 then st 280 else st 0)
  | 280 => Some (
      if c =? 58 then st 348
      else
        if c <? 65 then
          if between 48 57 c then st 281 else st 0
        else if 70 <? c then if between 97 102 c then st 281 else st 0 else st 281)
  | 281 => Some (
      if c =? 58 then st 285
      else
        if c <? 65 then
          if between 48 57 c then st 282 else st 0
        else if 70 <? c then if between 97 102 c then st 282 else st 0 else st 282)
  | 282 => Some (
      if c =? 58 then st 285
      else
        if c <? 65 then
          if between 48 57 c then st 283 else st 0
        else if 70 <? c then if between 97 102 c then st 283 else st 0 else st 283)
  | 283 => Some (
      if c =? 58 then st 285
      else
        if c <? 65 then
          if between 48 57 c then st 284 else st 0
        else if 70 <? c then if between 97 102 c then st 284 else st 0 else st 284)
  | 284 => Some (
      if c =? 58 then st 285 else st 0)
  | 285 => Some (
      if c =? 58 then st 335
      else
        if c <? 65 then
          if between 48 57 c then st 286 else st 0
        else if 70 <? c then if between 97 102 c then st 286 else st 0 else st 286)
  | 286 => Some (
      if c =? 58 then st 290
      else
        if c <? 65 then
          if between 48 57 c then st 287 else st 0
        else if 70 <? c then if between 97 102 c then st 287 else st 0 else st 287)
  | 287 => Some (
      if c =? 58 then st 290
      else
        if c <? 65 then
          if between 48 57 c then st 288 else st 0
        else if 70 <? c then if between 97 102 c then st 288 else st 0 else st 288)
  | 288 => Some (
      if c =? 58 then st 290
      else
        if c <? 65 then
          if between 48 57 c then st 289 else st 0
        else if 70 <? c then if between 97 102 c then st 289 else st 0 else st 289)
  | _ => None
  end.

Definition states_50 (cs c : Z) : option target :=
  match cs with
  | 289 => Some (
      if c =? 58 then st 290 else st 0)
  | 290 => Some (
      switch c [(2, st 291); (48, st 318); (49, st 326); (50, st 329); (58, st 333)]
        (if c <? 65 then
           if between 51 57 c then st 332 else st 0
         else if 70 <? c then if between 97 102 c then st 334 else st 0 else st 334))
  | 291 => Some (
      if between 48 52 c then st 292 else st 0)
  | 292 => Some (
      if between 48 57 c then st 293 else st 0)
  | 293 => Some (
      if c =? 46 then st 294 else st 0)
  | 294 => Some (
      switch c [(2, st 295); (48, st 297); (49, st 314); (50, st 316)]
        (if between 51 57 c then st 315 else st 0))
  | 295 => Some (
      if between 48 52 c then st 296 else st 0)
  | 296 => Some (
      if between 48 57 c then st 297 else st 0)
  | 297 => Some (
      if c =? 46 then st 298 else st 0)
  | 298 => Some (
      switch c [(2, st 299); (48, st 301); (49, st 310); (50, st 312)]
        (if between 51 57 c then st 311 else st 0))
  | 299 => Some (
      if between 48 52 c then st 300 else st 0)
  | 300 => Some (
      if between 48 57 c then st 301 else st 0)
  | 301 => Some (
      if c =? 46 then st 302 else st 0)
  | 302 => Some (
      switch c [(2, st 303); (48, st 305); (49, st 306); (50, st 308)]
        (if between 51 57 c then st 307 else st 0))
  | 303 => Some (
      if between 48 52 c then st 304 else st 0)
  | 304 => Some (
      if between 48 57 c then st 305 else st 0)
  | _ => None
  end.

Definition states_51 (cs c : Z) : option target :=
  match cs with
  | 305 => Some (
      if c =? 93 then st 512 else st 0)
  | 306 => Some (
      if c =? 93 then st 512 else if between 48 57 c then st 307 else st 0)
  | 307 => Some (
      if c =? 93 then st 512 else if between 48 57 c then st 305 else st 0)
  | 308 => Some (
      switch c [(53, st 309); (93, st 512)]
        (if between 48 57 c then st 305 else st 0))
  | 309 => Some (
      if c =? 93 then st 512 else if between 48 53 c then st 305 else st 0)
  | 310 => Some (
      if c =? 46 then st 302 else if between 48 57 c then st 311 else st 0)
  | 311 => Some (
      if c =? 46 then st 302 else if between 48 57 c then st 301 else st 0)
  | 312 => Some (
      switch c [(46, st 302); (53, st 313)]
        (if between 48 57 c then st 301 else st 0))
  | 313 => Some (
      if c =? 46 then st 302 else if between 48 53 c then st 301 else st 0)
  | 314 => Some (
      if c =? 46 then st 298 else if between 48 57 c then st 315 else st 0)
  | 315 => Some (
      if c =? 46 then st 298 else if between 48 57 c then st 297 else st 0)
  | 316 => Some (
      switch c [(46, st 298); (53, st 317)]
        (if between 48 57 c then st 297 else st 0))
  | 317 => Some (
      if c =? 46 then st 298 else if between 48 53 c then st 297 else st 0)
  | 318 => Some (
      switch c [(46, st 294); (58, st 322)]
        (if c <? 65 then
           if between 48 57 c then st 319 else st 0
         else if 70 <? c then if between 97 102 c then st 319 else st 0 else st 319))
  | _ => None
  end.

Definition states_52 (cs c : Z) : option target :=
  match cs with
  | 319 => Some (
      if c =? 58 then st 322
      else
        if c <? 65 then
          if between 48 57 c then st 320 else st 0
        else if 70 <? c then if between 97 102 c then st 320 else st 0 else st 320)
  | 320 => Some (
      if c =? 58 then st 322
      else
        if c <? 65 then
          if between 48 57 c then st 321 else st 0
        else if 70 <? c then if between 97 102 c then st 321 else st 0 else st 321)
  | 321 => Some (
      if c =? 58 then st 322 else st 0)
  | 322 => Some (
      if c =? 58 then st 305
      else
        if c <? 65 then
          if between 48 57 c then st 323 else st 0
        else if 70 <? c then if between 97 102 c then st 323 else st 0 else st 323)
  | 323 => Some (
      if c =? 93 then st 512
      else
        if c <? 65 then
          if between 48 57 c then st 324 else st 0
        else if 70 <? c then if between 97 102 c then st 324 else st 0 else st 324)
  | 324 => Some (
      if c =? 93 then st 512
      else
        if c <? 65 then
          if between 48 57 c then st 325 else st 0
        else if 70 <? c then if between 97 102 c then st 325 else st 0 else st 325)
  | 325 => Some (
      if c =? 93 then st 512
      else
        if c <? 65 then
          if between 48 57 c then st 305 else st 0
        else if 70 <? c then if between 97 102 c then st 305 else st 0 else st 305)
  | 326 => Some (
      switch c [(46, st 294); (58, st 322)]
        (if c <? 65 then
           if between 48 57 c then st 327 else st 0
         else if 70 <? c then if between 97 102 c then st 319 else st 0 else st 319))
  | 327 => Some (
      switch c [(46, st 294); (58, st 322)]
        (if c <? 65 then
           if between 48 57 c then st 328 else st 0
         else if 70 <? c then if between 97 102 c then st 320 else st 0 else st 320))
  | 328 => Some (
      switch c [(46, st 294); (58, st 322)]
        (if c <? 65 then
           if between 48 57 c then st 321 else st 0
         else if 70 <? c then if between 97 102 c then st 321 else st 0 else st 321))
  | _ => None
  end.

Definition states_53 (cs c : Z) : option target :=
  match cs with
  | 329 => Some (
      switch c [(46, st 294); (53, st 331); (58, st 322)]
        (if c <? 65 then
           if between 48 57 c then st 330 else st 0
         else if 70 <? c then if between 97 102 c then st 319 else st 0 else st 319))
  | 330 => Some (
      switch c [(46, st 294); (58, st 322)]
        (if c <? 65 then
           if between 48 57 c then st 320 else st 0
         else if 70 <? c then if between 97 102 c then st 320 else st 0 else st 320))
  | 331 => Some (
      switch c [(46, st 294); (58, st 322)]
        (if c <? 54 then
           if between 48 53 c then st 328 else st 0
         else if 57 <? c then
           if 70 <? c then
             if between 97 102 c then st 320 else st 0
           else if 65 <=? c then st 320 else st 0
         else st 320))
  | 332 => Some (
      switch c [(46, st 294); (58, st 322)]
        (if c <? 65 then
           if between 48 57 c then st 330 else st 0
         else if 70 <? c then if between 97 102 c then st 319 else st 0 else st 319))
  | 333 => Some (
      if c <? 65 then
        if between 48 57 c then st 323 else st 0
      else if 70 <? c then if between 97 102 c then st 323 else st 0 else st 323)
  | 334 => Some (
      if c =? 58 then st 322
      else
        if c <? 65 then
          if between 48 57 c then st 319 else st 0
        else if 70 <? c then if between 97 102 c then st 319 else st 0 else st 319)
  | 335 => Some (
      switch c [(2, st 291); (48, st 336); (49, st 340); (50, st 343)]
        (if c <? 65 then
           if between 51 57 c then st 346 else st 0
         else if 70 <? c then if between 97 102 c then st 347 else st 0 else st 347))
  | 336 => Some (
      switch c [(46, st 294); (58, st 333)]
        (if c <? 65 then
           if between 48 57 c then st 337 else st 0
         else if 70 <? c then if between 97 102 c then st 337 else st 0 else st 337))
  | 337 => Some (
      if c =? 58 then st 333
      else
        if c <? 65 then
          if between 48 57 c then st 338 else st 0
        else if 70 <? c then if between 97 102 c then st 338 else st 0 else st 338)
  | _ => None
  end.

Definition states_54 (cs c : Z) : option target :=
  match cs with
  | 338 => Some (
      if c =? 58 then st 333
      else
        if c <? 65 then
          if between 48 57 c then st 339 else st 0
        else if 70 <? c then if between 97 102 c then st 339 else st 0 else st 339)
  | 339 => Some (
      if c =? 58 then st 333 else st 0)
  | 340 => Some (
      switch c [(46, st 294); (58, st 333)]
        (if c <? 65 then
           if between 48 57 c then st 341 else st 0
         else if 70 <? c then if between 97 102 c then st 337 else st 0 else st 337))
  | 341 => Some (
      switch c [(46, st 294); (58, st 333)]
        (if c <? 65 then
           if between 48 57 c then st 342 else st 0
         else if 70 <? c then if between 97 102 c then st 338 else st 0 else st 338))
  | 342 => Some (
      switch c [(46, st 294); (58, st 333)]
        (if c <? 65 then
           if between 48 57 c then st 339 else st 0
         else if 70 <? c then if between 97 102 c then st 339 else st 0 else st 339))
  | 343 => Some (
      switch c [(46, st 294); (53, st 345); (58, st 333)]
        (if c <? 65 then
           if between 48 57 c then st 344 else st 0
         else if 70 <? c then if between 97 102 c then st 337 else st 0 else st 337))
  | 344 => Some (
      switch c [(46, st 294); (58, st 333)]
        (if c <? 65 then
           if between 48 57 c then st 338 else st 0
         else if 70 <? c then if between 97 102 c then st 338 else st 0 else st 338))
  | 345 => Some (
      switch c [(46, st 294); (58, st 333)]
        (if c <? 54 then
           if between 48 53 c then st 342 else st 0
         else if 57 <? c then
           if 70 <? c then
             if between 97 102 c then st 338 else st 0
           else if 65 <=? c then st 338 else st 0
         else st 338))
  | 346 => Some (
      switch c [(46, st 294); (58, st 333)]
        (if c <? 65 then
           if between 48 57 c then st 344 else st 0
         else if 70 <? c then if between 97 102 c then st 337 else st 0 else st 337))
  | _ => None
  end.

Definition states_55 (cs c : Z) : option target :=
  match cs with
  | 347 => Some (
      if c =? 58 then st 333
      else
        if c <? 65 then
          if between 48 57 c then st 337 else st 0
        else if 70 <? c then if between 97 102 c then st 337 else st 0 else st 337)
  | 348 => Some (
      if c <? 65 then
        if between 48 57 c then st 349 else st 0
      else if 70 <? c then if between 97 102 c then st 349 else st 0 else st 349)
  | 349 => Some (
      if c =? 58 then st 335
      else
        if c <? 65 then
          if between 48 57 c then st 350 else st 0
        else if 70 <? c then if between 97 102 c then st 350 else st 0 else st 350)
  | 350 => Some (
      if c =? 58 then st 335
      else
        if c <? 65 then
          if between 48 57 c then st 351 else st 0
        else if 70 <? c then if between 97 102 c then st 351 else st 0 else st 351)
  | 351 => Some (
      if c =? 58 then st 335
      else
        if c <? 65 then
          if between 48 57 c then st 352 else st 0
        else if 70 <? c then if between 97 102 c then st 352 else st 0 else st 352)
  | 352 => Some (
      if c =? 58 then st 335 else st 0)
  | 353 => Some (
      if c <? 65 then
        if between 48 57 c then st 354 else st 0
      else if 70 <? c then if between 97 102 c then st 354 else st 0 else st 354)
  | 354 => Some (
      if c =? 58 then st 348
      else
        if c <? 65 then
          if between 48 57 c then st 355 else st 0
        else if 70 <? c then if between 97 102 c then st 355 else st 0 else st 355)
  | 355 => Some (
      if c =? 58 then st 348
      else
        if c <? 65 then
          if between 48 57 c then st 356 else st 0
        else if 70 <? c then if between 97 102 c then st 356 else st 0 else st 356)
  | 356 => Some (
      if c =? 58 then st 348
      else
        if c <? 65 then
          if between 48 57 c then st 357 else st 0
        else if 70 <? c then if between 97 102 c then st 357 else st 0 else st 357)
  | 357 => Some (
      if c =? 58 then st 348 else st 0)
  | _ => None
  end.

Definition states_56 (cs c : Z) : option target :=
  match cs with
  | 358 => Some (
      if c <? 65 then
        if between 48 57 c then st 359 else st 0
      else if 70 <? c then if between 97 102 c then st 359 else st 0 else st 359)
  | 359 => Some (
      if c =? 58 then st 353
      else
        if c <? 65 then
          if between 48 57 c then st 360 else st 0
        else if 70 <? c then if between 97 102 c then st 360 else st 0 else st 360)
  | 360 => Some (
      if c =? 58 then st 353
      else
        if c <? 65 then
          if between 48 57 c then st 361 else st 0
        else if 70 <? c then if between 97 102 c then st 361 else st 0 else st 361)
  | 361 => Some (
      if c =? 58 then st 353
      else
        if c <? 65 then
          if between 48 57 c then st 362 else st 0
        else if 70 <? c then if between 97 102 c then st 362 else st 0 else st 362)
  | 362 => Some (
      if c =? 58 then st 353 else st 0)
  | 363 => Some (
      if c <? 65 then
        if between 48 57 c then st 364 else st 0
      else if 70 <? c then if between 97 102 c then st 364 else st 0 else st 364)
  | 364 => Some (
      if c =? 58 then st 358
      else
        if c <? 65 then
          if between 48 57 c then st 365 else st 0
        else if 70 <? c then if between 97 102 c then st 365 else st 0 else st 365)
  | 365 => Some (
      if c =? 58 then st 358
      else
        if c <? 65 then
          if between 48 57 c then st 366 else st 0
        else if 70 <? c then if between 97 102 c then st 366 else st 0 else st 366)
  | 366 => Some (
      if c =? 58 then st 358
      else
        if c <? 65 then
          if between 48 57 c then st 367 else st 0
        else if 70 <? c then if between 97 102 c then st 367 else st 0 else st 367)
  | 367 => Some (
      if c =? 58 then st 358 else st 0)
  | 368 => Some (
      if c =? 58 then st 369 else st 0)
  | _ => None
  end.

Definition states_57 (cs c : Z) : option target :=
  match cs with
  | 369 => Some (
      switch c [(2, st 291); (48, st 370); (49, st 439); (50, st 442); (93, st 512)]
        (if c <? 65 then
           if between 51 57 c then st 445 else st 0
         else if 70 <? c then if between 97 102 c then st 446 else st 0 else st 446))
  | 370 => Some (
      switch c [(46, st 294); (58, st 374); (93, st 512)]
        (if c <? 65 then
           if between 48 57 c then st 371 else st 0
         else if 70 <? c then if between 97 102 c then st 371 else st 0 else st 371))
  | 371 => Some (
      switch c [(58, st 374); (93, st 512)]
        (if c <? 65 then
           if between 48 57 c then st 372 else st 0
         else if 70 <? c then if between 97 102 c then st 372 else st 0 else st 372))
  | 372 => Some (
      switch c [(58, st 374); (93, st 512)]
        (if c <? 65 then
           if between 48 57 c then st 373 else st 0
         else if 70 <? c then if between 97 102 c then st 373 else st 0 else st 373))
  | 373 => Some (
      switch c [(58, st 374); (93, st 512)]
        (st 0))
  | 374 => Some (
      switch c [(2, st 291); (48, st 375); (49, st 431); (50, st 434)]
        (if c <? 65 then
           if between 51 57 c then st 437 else st 0
         else if 70 <? c then if between 97 102 c then st 438 else st 0 else st 438))
  | 375 => Some (
      switch c [(46, st 294); (58, st 379); (93, st 512)]
        (if c <? 65 then
           if between 48 57 c then st 376 else st 0
         else if 70 <? c then if between 97 102 c then st 376 else st 0 else st 376))
  | 376 => Some (
      switch c [(58, st 379); (93, st 512)]
        (if c <? 65 then
           if between 48 57 c then st 377 else st 0
         else if 70 <? c then if between 97 102 c then st 377 else st 0 else st 377))
  | _ => None
  end.

Definition states_58 (cs c : Z) : option target :=
  match cs with
  | 377 => Some (
      switch c [(58, st 379); (93, st 512)]
        (if c <? 65 then
           if between 48 57 c then st 378 else st 0
         else if 70 <? c then if between 97 102 c then st 378 else st 0 else st 378))
  | 378 => Some (
      switch c [(58, st 379); (93, st 512)]
        (st 0))
  | 379 => Some (
      switch c [(2, st 291); (48, st 380); (49, st 423); (50, st 426)]
        (if c <? 65 then
           if between 51 57 c then st 429 else st 0
         else if 70 <? c then if between 97 102 c then st 430 else st 0 else st 430))
  | 380 => Some (
      switch c [(46, st 294); (58, st 384); (93, st 512)]
        (if c <? 65 then
           if between 48 57 c then st 381 else st 0
         else if 70 <? c then if between 97 102 c then st 381 else st 0 else st 381))
  | 381 => Some (
      switch c [(58, st 384); (93, st 512)]
        (if c <? 65 then
           if between 48 57 c then st 382 else st 0
         else if 70 <? c then if between 97 102 c then st 382 else st 0 else st 382))
  | 382 => Some (
      switch c [(58, st 384); (93, st 512)]
        (if c <? 65 then
           if between 48 57 c then st 383 else st 0
         else if 70 <? c then if between 97 102 c then st 383 else st 0 else st 383))
  | 383 => Some (
      switch c [(58, st 384); (93, st 512)]
        (st 0))
  | 384 => Some (
      switch c [(2, st 291); (48, st 385); (49, st 415); (50, st 418)]
        (if c <? 65 then
           if between 51 57 c then st 421 else st 0
         else if 70 <? c then if between 97 102 c then st 422 else st 0 else st 422))
  | 385 => Some (
      switch c [(46, st 294); (58, st 389); (93, st 512)]
        (if c <? 65 then
           if between 48 57 c then st 386 else st 0
         else if 70 <? c then if between 97 102 c then st 386 else st 0 else st 386))
  | _ => None
  end.

Definition states_59 (cs c : Z) : option target :=
  match cs with
  | 386 => Some (
      switch c [(58, st 389); (93, st 512)]
        (if c <? 65 then
           if between 48 57 c then st 387 else st 0
         else if 70 <? c then if between 97 102 c then st 387 else st 0 else st 387))
  | 387 => Some (
      switch c [(58, st 389); (93, st 512)]
        (if c <? 65 then
           if between 48 57 c then st 388 else st 0
         else if 70 <? c then if between 97 102 c then st 388 else st 0 else st 388))
  | 388 => Some (
      switch c [(58, st 389); (93, st 512)]
        (st 0))
  | 389 => Some (
      switch c [(2, st 291); (48, st 390); (49, st 407); (50, st 410)]
        (if c <? 65 then
           if between 51 57 c then st 413 else st 0
         else if 70 <? c then if between 97 102 c then st 414 else st 0 else st 414))
  | 390 => Some (
      switch c [(46, st 294); (58, st 394); (93, st 512)]
        (if c <? 65 then
           if between 48 57 c then st 391 else st 0
         else if 70 <? c then if between 97 102 c then st 391 else st 0 else st 391))
  | 391 => Some (
      switch c [(58, st 394); (93, st 512)]
        (if c <? 65 then
           if between 48 57 c then st 392 else st 0
         else if 70 <? c then if between 97 102 c then st 392 else st 0 else st 392))
  | 392 => Some (
      switch c [(58, st 394); (93, st 512)]
        (if c <? 65 then
           if between 48 57 c then st 393 else st 0
         else if 70 <? c then if between 97 102 c then st 393 else st 0 else st 393))
  | 393 => Some (
      switch c [(58, st 394); (93, st 512)]
        (st 0))
  | 394 => Some (
      switch c [(2, st 291); (48, st 395); (49, st 399); (50, st 402)]
        (if c <? 65 then
           if between 51 57 c then st 405 else st 0
         else if 70 <? c then if between 97 102 c then st 406 else st 0 else st 406))
  | _ => None
  end.

Definition states_60 (cs c : Z) : option target :=
  match cs with
  | 395 => Some (
      switch c [(46, st 294); (58, st 333); (93, st 512)]
        (if c <? 65 then
           if between 48 57 c then st 396 else st 0
         else if 70 <? c then if between 97 102 c then st 396 else st 0 else st 396))
  | 396 => Some (
      switch c [(58, st 333); (93, st 512)]
        (if c <? 65 then
           if between 48 57 c then st 397 else st 0
         else if 70 <? c then if between 97 102 c then st 397 else st 0 else st 397))
  | 397 => Some (
      switch c [(58, st 333); (93, st 512)]
        (if c <? 65 then
           if between 48 57 c then st 398 else st 0
         else if 70 <? c then if between 97 102 c then st 398 else st 0 else st 398))
  | 398 => Some (
      switch c [(58, st 333); (93, st 512)]
        (st 0))
  | 399 => Some (
      switch c [(46, st 294); (58, st 333); (93, st 512)]
        (if c <? 65 then
           if between 48 57 c then st 400 else st 0
         else if 70 <? c then if between 97 102 c then st 396 else st 0 else st 396))
  | 400 => Some (
      switch c [(46, st 294); (58, st 333); (93, st 512)]
        (if c <? 65 then
           if between 48 57 c then st 401 else st 0
         else if 70 <? c then if between 97 102 c then st 397 else st 0 else st 397))
  | 401 => Some (
      switch c [(46, st 294); (58, st 333); (93, st 512)]
        (if c <? 65 then
           if between 48 57 c then st 398 else st 0
         else if 70 <? c then if between 97 102 c then st 398 else st 0 else st 398))
  | 402 => Some (
      switch c [(46, st 294); (53, st 404); (58, st 333); (93, st 512)]
        (if c <? 65 then
           if between 48 57 c then st 403 else st 0
         else if 70 <? c then if between 97 102 c then st 396 else st 0 else st 396))
  | _ => None
  end.

Definition states_61 (cs c : Z) : option target :=
  match cs with
  | 403 => Some (
      switch c [(46, st 294); (58, st 333); (93, st 512)]
        (if c <? 65 then
           if between 48 57 c then st 397 else st 0
         else if 70 <? c then if between 97 102 c then st 397 else st 0 else st 397))
  | 404 => Some (
      switch c [(46, st 294); (58, st 333); (93, st 512)]
        (if c <? 54 then
           if between 48 53 c then st 401 else st 0
         else if 57 <? c then
           if 70 <? c then
             if between 97 102 c then st 397 else st 0
           else if 65 <=? c then st 397 else st 0
         else st 397))
  | 405 => Some (
      switch c [(46, st 294); (58, st 333); (93, st 512)]
        (if c <? 65 then
           if between 48 57 c then st 403 else st 0
         else if 70 <? c then if between 97 102 c then st 396 else st 0 else st 396))
  | 406 => Some (
      switch c [(58, st 333); (93, st 512)]
        (if c <? 65 then
           if between 48 57 c then st 396 else st 0
         else if 70 <? c then if between 97 102 c then st 396 else st 0 else st 396))
  | 407 => Some (
      switch c [(46, st 294); (58, st 394); (93, st 512)]
        (if c <? 65 then
           if between 48 57 c then st 408 else st 0
         else if 70 <? c then if between 97 102 c then st 391 else st 0 else st 391))
  | 408 => Some (
      switch c [(46, st 294); (58, st 394); (93, st 512)]
        (if c <? 65 then
           if between 48 57 c then st 409 else st 0
         else if 70 <? c then if between 97 102 c then st 392 else st 0 else st 392))
  | 409 => Some (
      switch c [(46, st 294); (58, st 394); (93, st 512)]
        (if c <? 65 then
           if between 48 57 c then st 393 else st 0
         else if 70 <? c then if between 97 102 c then st 393 else st 0 else st 393))
  | 410 => Some (
      switch c [(46, st 294); (53, st 412); (58, st 394); (93, st 512)]
        (if c <? 65 then
           if between 48 57 c then st 411 else st 0
         else if 70 <? c then if between 97 102 c then st 391 else st 0 else st 391))
  | _ => None
  end.

Definition states_62 (cs c : Z) : option target :=
  match cs with
  | 411 => Some (
      switch c [(46, st 294); (58, st 394); (93, st 512)]
        (if c <? 65 then
           if between 48 57 c then st 392 else st 0
         else if 70 <? c then if between 97 102 c then st 392 else st 0 else st 392))
  | 412 => Some (
      switch c [(46, st 294); (58, st 394); (93, st 512)]
        (if c <? 54 then
           if between 48 53 c then st 409 else st 0
         else if 57 <? c then
           if 70 <? c then
             if between 97 102 c then st 392 else st 0
           else if 65 <=? c then st 392 else st 0
         else st 392))
  | 413 => Some (
      switch c [(46, st 294); (58, st 394); (93, st 512)]
        (if c <? 65 then
           if between 48 57 c then st 411 else st 0
         else if 70 <? c then if between 97 102 c then st 391 else st 0 else st 391))
  | 414 => Some (
      switch c [(58, st 394); (93, st 512)]
        (if c <? 65 then
           if between 48 57 c then st 391 else st 0
         else if 70 <? c then if between 97 102 c then st 391 else st 0 else st 391))
  | 415 => Some (
      switch c [(46, st 294); (58, st 389); (93, st 512)]
        (if c <? 65 then
           if between 48 57 c then st 416 else st 0
         else if 70 <? c then if between 97 102 c then st 386 else st 0 else st 386))
  | 416 => Some (
      switch c [(46, st 294); (58, st 389); (93, st 512)]
        (if c <? 65 then
           if between 48 57 c then st 417 else st 0
         else if 70 <? c then if between 97 102 c then st 387 else st 0 else st 387))
  | 417 => Some (
      switch c [(46, st 294); (58, st 389); (93, st 512)]
        (if c <? 65 then
           if between 48 57 c then st 388 else st 0
         else if 70 <? c then if between 97 102 c then st 388 else st 0 else st 388))
  | 418 => Some (
      switch c [(46, st 294); (53, st 420); (58, st 389); (93, st 512)]
        (if c <? 65 then
           if between 48 57 c then st 419 else st 0
         else if 70 <? c then if between 97 102 c then st 386 else st 0 else st 386))
  | _ => None
  end.

Definition states_63 (cs c : Z) : option target :=
  match cs with
  | 419 => Some (
      switch c [(46, st 294); (58, st 389); (93, st 512)]
        (if c <? 65 then
           if between 48 57 c then st 387 else st 0
         else if 70 <? c then if between 97 102 c then st 387 else st 0 else st 387))
  | 420 => Some (
      switch c [(46, st 294); (58, st 389); (93, st 512)]
        (if c <? 54 then
           if between 48 53 c then st 417 else st 0
         else if 57 <? c then
           if 70 <? c then
             if between 97 102 c then st 387 else st 0
           else if 65 <=? c then st 387 else st 0
         else st 387))
  | 421 => Some (
      switch c [(46, st 294); (58, st 389); (93, st 512)]
        (if c <? 65 then
           if between 48 57 c then st 419 else st 0
         else if 70 <? c then if between 97 102 c then st 386 else st 0 else st 386))
  | 422 => Some (
      switch c [(58, st 389); (93, st 512)]
        (if c <? 65 then
           if between 48 57 c then st 386 else st 0
         else if 70 <? c then if between 97 102 c then st 386 else st 0 else st 386))
  | 423 => Some (
      switch c [(46, st 294); (58, st 384); (93, st 512)]
        (if c <? 65 then
           if between 48 57 c then st 424 else st 0
         else if 70 <? c then if between 97 102 c then st 381 else st 0 else st 381))
  | 424 => Some (
      switch c [(46, st 294); (58, st 384); (93, st 512)]
        (if c <? 65 then
           if between 48 57 c then st 425 else st 0
         else if 70 <? c then if between 97 102 c then st 382 else st 0 else st 382))
  | 425 => Some (
      switch c [(46, st 294); (58, st 384); (93, st 512)]
        (if c <? 65 then
           if between 48 57 c then st 383 else st 0
         else if 70 <? c then if between 97 102 c then st 383 else st 0 else st 383))
  | 426 => Some (
      switch c [(46, st 294); (53, st 428); (58, st 384); (93, st 512)]
        (if c <? 65 then
           if between 48 57 c then st 427 else st 0
         else if 70 <? c then if between 97 102 c then st 381 else st 0 else st 381))
  | _ => None
  end.

Definition states_64 (cs c : Z) : option target :=
  match cs with
  | 427 => Some (
      switch c [(46, st 294); (58, st 384); (93, st 512)]
        (if c <? 65 then
           if between 48 57 c then st 382 else st 0
         else if 70 <? c then if between 97 102 c then st 382 else st 0 else st 382))
  | 428 => Some (
      switch c [(46, st 294); (58, st 384); (93, st 512)]
        (if c <? 54 then
           if between 48 53 c then st 425 else st 0
         else if 57 <? c then
           if 70 <? c then
             if between 97 102 c then st 382 else st 0
           else if 65 <=? c then st 382 else st 0
         else st 382))
  | 429 => Some (
      switch c [(46, st 294); (58, st 384); (93, st 512)]
        (if c <? 65 then
           if between 48 57 c then st 427 else st 0
         else if 70 <? c then if between 97 102 c then st 381 else st 0 else st 381))
  | 430 => Some (
      switch c [(58, st 384); (93, st 512)]
        (if c <? 65 then
           if between 48 57 c then st 381 else st 0
         else if 70 <? c then if between 97 102 c then st 381 else st 0 else st 381))
  | 431 => Some (
      switch c [(46, st 294); (58, st 379); (93, st 512)]
        (if c <? 65 then
           if between 48 57 c then st 432 else st 0
         else if 70 <? c then if between 97 102 c then st 376 else st 0 else st 376))
  | 432 => Some (
      switch c [(46, st 294); (58, st 379); (93, st 512)]
        (if c <? 65 then
           if between 48 57 c then st 433 else st 0
         else if 70 <? c then if between 97 102 c then st 377 else st 0 else st 377))
  | 433 => Some (
      switch c [(46, st 294); (58, st 379); (93, st 512)]
        (if c <? 65 then
           if between 48 57 c then st 378 else st 0
         else if 70 <? c then if between 97 102 c then st 378 else st 0 else st 378))
  | 434 => Some (
      switch c [(46, st 294); (53, st 436); (58, st 379); (93, st 512)]
        (if c <? 65 then
           if between 48 57 c then st 435 else st 0
         else if 70 <? c then if between 97 102 c then st 376 else st 0 else st 376))
  | _ => None
  end.

Definition states_65 (cs c : Z) : option target :=
  match cs with
  | 435 => Some (
      switch c [(46, st 294); (58, st 379); (93, st 512)]
        (if c <? 65 then
           if between 48 57 c then st 377 else st 0
         else if 70 <? c then if between 97 102 c then st 377 else st 0 else st 377))
  | 436 => Some (
      switch c [(46, st 294); (58, st 379); (93, st 512)]
        (if c <? 54 then
           if between 48 53 c then st 433 else st 0
         else if 57 <? c then
           if 70 <? c then
             if between 97 102 c then st 377 else st 0
           else if 65 <=? c then st 377 else st 0
         else st 377))
  | 437 => Some (
      switch c [(46, st 294); (58, st 379); (93, st 512)]
        (if c <? 65 then
           if between 48 57 c then st 435 else st 0
         else if 70 <? c then if between 97 102 c then st 376 else st 0 else st 376))
  | 438 => Some (
      switch c [(58, st 379); (93, st 512)]
        (if c <? 65 then
           if between 48 57 c then st 376 else st 0
         else if 70 <? c then if between 97 102 c then st 376 else st 0 else st 376))
  | 439 => Some (
      switch c [(46, st 294); (58, st 374); (93, st 512)]
        (if c <? 65 then
           if between 48 57 c then st 440 else st 0
         else if 70 <? c then if between 97 102 c then st 371 else st 0 else st 371))
  | 440 => Some (
      switch c [(46, st 294); (58, st 374); (93, st 512)]
        (if c <? 65 then
           if between 48 57 c then st 441 else st 0
         else if 70 <? c then if between 97 102 c then st 372 else st 0 else st 372))
  | 441 => Some (
      switch c [(46, st 294); (58, st 374); (93, st 512)]
        (if c <? 65 then
           if between 48 57 c then st 373 else st 0
         else if 70 <? c then if between 97 102 c then st 373 else st 0 else st 373))
  | 442 => Some (
      switch c [(46, st 294); (53, st 444); (58, st 374); (93, st 512)]
        (if c <? 65 then
           if between 48 57 c then st 443 else st 0
         else if 70 <? c then if between 97 102 c then st 371 else st 0 else st 371))
  | _ => None
  end.

Definition states_66 (cs c : Z) : option target :=
  match cs with
  | 443 => Some (
      switch c [(46, st 294); (58, st 374); (93, st 512)]
        (if c <? 65 then
           if between 48 57 c then st 372 else st 0
         else if 70 <? c then if between 97 102 c then st 372 else st 0 else st 372))
  | 444 => Some (
      switch c [(46, st 294); (58, st 374); (93, st 512)]
        (if c <? 54 then
           if between 48 53 c then st 441 else st 0
         else if 57 <? c then
           if 70 <? c then
             if between 97 102 c then st 372 else st 0
           else if 65 <=? c then st 372 else st 0
         else st 372))
  | 445 => Some (
      switch c [(46, st 294); (58, st 374); (93, st 512)]
        (if c <? 65 then
           if between 48 57 c then st 443 else st 0
         else if 70 <? c then if between 97 102 c then st 371 else st 0 else st 371))
  | 446 => Some (
      switch c [(58, st 374); (93, st 512)]
        (if c <? 65 then
           if between 48 57 c then st 371 else st 0
         else if 70 <? c then if between 97 102 c then st 371 else st 0 else st 371))
  | 447 => Some (
      if c <? 65 then
        if between 48 57 c then st 448 else st 0
      else if 70 <? c then if between 97 102 c then st 448 else st 0 else st 448)
  | 448 => Some (
      if c =? 46 then st 449
      else
        if c <? 65 then
          if between 48 57 c then st 448 else st 0
        else if 70 <? c then if between 97 102 c then st 448 else st 0 else st 448)
  | 449 => Some (
      switch c [(33, st 450); (36, st 450); (61, st 450); (95, st 450);
         (126, st 450)]
        (if c <? 48 then
           if between 38 46 c then st 450 else st 0
         else if 59 <? c then
           if 90 <? c then
             if between 97 122 c then st 450 else st 0
           else if 65 <=? c then st 450 else st 0
         else st 450))
  | 450 => Some (
      switch c [(33, st 450); (36, st 450); (61, st 450); (93, st 512); (95, st 450);
         (126, st 450)]
        (if c <? 48 then
           if between 38 46 c then st 450 else st 0
         else if 59 <? c then
           if 90 <? c then
             if between 97 122 c then st 450 else st 0
           else if 65 <=? c then st 450 else st 0
         else st 450))
  | _ => None
  end.

Definition states_67 (cs c : Z) : option target :=
  match cs with
  | 542 => Some (
      switch c [(33, st 255); (35, tr 570); (37, st 256); (47, tr 571); (61, st 255);
         (63, tr 573); (64, tr 263); (95, st 255); (126, st 255)]
        (if c <? 58 then
           if 46 <? c then
             if between 48 57 c then st 542 else st 0
           else if 36 <=? c then st 255 else st 0
         else if 59 <? c then
           if 90 <? c then
             if between 97 122 c then st 255 else st 0
           else if 65 <=? c then st 255 else st 0
         else st 255))
  | 543 => Some (
      switch c [(33, st 520); (35, tr 559); (37, st 253); (46, st 544); (47, tr 560);
         (58, tr 576); (61, st 520); (63, tr 562); (64, tr 263); (95, st 520);
         (126, st 520)]
        (if c <? 65 then
           if between 36 59 c then st 520 else st 0
         else if 90 <? c then if between 97 122 c then st 520 else st 0 else st 520))
  | 544 => Some (
      switch c [(2, st 233); (33, st 520); (35, tr 559); (37, st 253); (47, tr 560);
         (48, st 545); (49, st 553); (50, st 555); (58, tr 576); (59, st 520);
         (61, st 520); (63, tr 562); (64, tr 263); (95, st 520);
         (126, st 520)]
        (if c <? 51 then
           if between 36 46 c then st 520 else st 0
         else if 57 <? c then
           if 90 <? c then
             if between 97 122 c then st 520 else st 0
           else if 65 <=? c then st 520 else st 0
         else st 554))
  | 545 => Some (
      switch c [(33, st 520); (35, tr 559); (37, st 253); (46, st 546); (47, tr 560);
         (58, tr 576); (61, st 520); (63, tr 562); (64, tr 263); (95, st 520);
         (126, st 520)]
        (if c <? 65 then
           if between 36 59 c then st 520 else st 0
         else if 90 <? c then if between 97 122 c then st 520 else st 0 else st 520))
  | _ => None
  end.

Definition trans_67 (n : Z) : option (list action * Z) :=
  match n with
  | 577 => Some ([A_markh], 542)
  | 551 => Some ([A_markh], 543)
  | _ => None
  end.

Definition states_68 (cs c : Z) : option target :=
  match cs with
  | 546 => Some (
      switch c [(2, st 237); (33, st 520); (35, tr 559); (37, st 253); (47, tr 560);
         (48, st 547); (49, st 549); (50, st 551); (58, tr 576); (59, st 520);
         (61, st 520); (63, tr 562); (64, tr 263); (95, st 520);
         (126, st 520)]
        (if c <? 51 then
           if between 36 46 c then st 520 else st 0
         else if 57 <? c then
           if 90 <? c then
             if between 97 122 c then st 520 else st 0
           else if 65 <=? c then st 520 else st 0
         else st 550))
  | 547 => Some (
      switch c [(33, st 520); (35, tr 559); (37, st 253); (46, st 548); (47, tr 560);
         (58, tr 576); (61, st 520); (63, tr 562); (64, tr 263); (95, st 520);
         (126, st 520)]
        (if c <? 65 then
           if between 36 59 c then st 520 else st 0
         else if 90 <? c then if between 97 122 c then st 520 else st 0 else st 520))
  | 548 => Some (
      switch c [(2, st 241); (33, st 520); (35, tr 559); (37, st 253); (47, tr 560);
         (58, tr 576); (61, st 520); (63, tr 562); (64, tr 263); (95, st 520);
         (126, st 520)]
        (if c <? 65 then
           if between 36 59 c then st 520 else st 0
         else if 90 <? c then if between 97 122 c then st 520 else st 0 else st 520))
  | 549 => Some (
      switch c [(33, st 520); (35, tr 559); (37, st 253); (46, st 548); (47, tr 560);
         (58, tr 576); (59, st 520); (61, st 520); (63, tr 562); (64, tr 263);
         (95, st 520); (126, st 520)]
        (if c <? 48 then
           if between 36 45 c then st 520 else st 0
         else if 57 <? c then
           if 90 <? c then
             if between 97 122 c then st 520 else st 0
           else if 65 <=? c then st 520 else st 0
         else st 550))
  | 550 => Some (
      switch c [(33, st 520); (35, tr 559); (37, st 253); (46, st 548); (47, tr 560);
         (58, tr 576); (59, st 520); (61, st 520); (63, tr 562); (64, tr 263);
         (95, st 520); (126, st 520)]
        (if c <? 48 then
           if between 36 45 c then st 520 else st 0
         else if 57 <? c then
           if 90 <? c then
             if between 97 122 c then st 520 else st 0
           else if 65 <=? c then st 520 else st 0
         else st 547))
  | _ => None
  end.

Definition states_69 (cs c : Z) : option target :=
  match cs with
  | 551 => Some (
      switch c [(33, st 520); (35, tr 559); (37, st 253); (46, st 548); (47, tr 560);
         (53, st 552); (58, tr 576); (59, st 520); (61, st 520); (63, tr 562);
         (64, tr 263); (95, st 520); (126, st 520)]
        (if c <? 48 then
           if between 36 45 c then st 520 else st 0
         else if 57 <? c then
           if 90 <? c then
             if between 97 122 c then st 520 else st 0
           else if 65 <=? c then st 520 else st 0
         else st 547))
  | 552 => Some (
      switch c [(33, st 520); (35, tr 559); (37, st 253); (46, st 548); (47, tr 560);
         (58, tr 576); (61, st 520); (63, tr 562); (64, tr 263); (95, st 520);
         (126, st 520)]
        (if c <? 54 then
           if 45 <? c then
             if between 48 53 c then st 547 else st 0
           else if 36 <=? c then st 520 else st 0
         else if 59 <? c then
           if 90 <? c then
             if between 97 122 c then st 520 else st 0
           else if 65 <=? c then st 520 else st 0
         else st 520))
  | 553 => Some (
      switch c [(33, st 520); (35, tr 559); (37, st 253); (46, st 546); (47, tr 560);
         (58, tr 576); (59, st 520); (61, st 520); (63, tr 562); (64, tr 263);
         (95, st 520); (126, st 520)]
        (if c <? 48 then
           if between 36 45 c then st 520 else st 0
         else if 57 <? c then
           if 90 <? c then
             if between 97 122 c then st 520 else st 0
           else if 65 <=? c then st 520 else st 0
         else st 554))
  | 554 => Some (
      switch c [(33, st 520); (35, tr 559); (37, st 253); (46, st 546); (47, tr 560);
         (58, tr 576); (59, st 520); (61, st 520); (63, tr 562); (64, tr 263);
         (95, st 520); (126, st 520)]
        (if c <? 48 then
           if between 36 45 c then st 520 else st 0
         else if 57 <? c then
           if 90 <? c then
             if between 97 122 c then st 520 else st 0
           else if 65 <=? c then st 520 else st 0
         else st 545))
  | _ => None
  end.

Definition states_70 (cs c : Z) : option target :=
  match cs with
  | 555 => Some (
      switch c [(33, st 520); (35, tr 559); (37, st 253); (46, st 546); (47, tr 560);
         (53, st 556); (58, tr 576); (59, st 520); (61, st 520); (63, tr 562);
         (64, tr 263); (95, st 520); (126, st 520)]
        (if c <? 48 then
           if between 36 45 c then st 520 else st 0
         else if 57 <? c then
           if 90 <? c then
             if between 97 122 c then st 520 else st 0
           else if 65 <=? c then st 520 else st 0
         else st 545))
  | 556 => Some (
      switch c [(33, st 520); (35, tr 559); (37, st 253); (46, st 546); (47, tr 560);
         (58, tr 576); (61, st 520); (63, tr 562); (64, tr 263); (95, st 520);
         (126, st 520)]
        (if c <? 54 then
           if 45 <? c then
             if between 48 53 c then st 545 else st 0
           else if 36 <=? c then st 520 else st 0
         else if 59 <? c then
           if 90 <? c then
             if between 97 122 c then st 520 else st 0
           else if 65 <=? c then st 520 else st 0
         else st 520))
  | 557 => Some (
      switch c [(33, st 520); (35, tr 559); (37, st 253); (46, st 544); (47, tr 560);
         (58, tr 576); (59, st 520); (61, st 520); (63, tr 562); (64, tr 263);
         (95, st 520); (126, st 520)]
        (if c <? 48 then
           if between 36 45 c then st 520 else st 0
         else if 57 <? c then
           if 90 <? c then
             if between 97 122 c then st 520 else st 0
           else if 65 <=? c then st 520 else st 0
         else st 558))
  | 558 => Some (
      switch c [(33, st 520); (35, tr 559); (37, st 253); (46, st 544); (47, tr 560);
         (58, tr 576); (59, st 520); (61, st 520); (63, tr 562); (64, tr 263);
         (95, st 520); (126, st 520)]
        (if c <? 48 then
           if between 36 45 c then st 520 else st 0
         else if 57 <? c then
           if 90 <? c then
             if between 97 122 c then st 520 else st 0
           else if 65 <=? c then st 520 else st 0
         else st 543))
  | _ => None
  end.

Definition trans_70 (n : Z) : option (list action * Z) :=
  match n with
  | 552 => Some ([A_markh], 557)
  | 554 => Some ([A_markh], 558)
  | 553 => Some ([A_markh], 559)
  | _ => None
  end.

Definition states_71 (cs c : Z) : option target :=
  match cs with
  | 559 => Some (
      switch c [(33, st 520); (35, tr 559); (37, st 253); (46, st 544); (47, tr 560);
         (53, st 560); (58, tr 576); (59, st 520); (61, st 520); (63, tr 562);
         (64, tr 263); (95, st 520); (126, st 520)]
        (if c <? 48 then
           if between 36 45 c then st 520 else st 0
         else if 57 <? c then
           if 90 <? c then
             if between 97 122 c then st 520 else st 0
           else if 65 <=? c then st 520 else st 0
         else st 543))
  | 560 => Some (
      switch c [(33, st 520); (35, tr 559); (37, st 253); (46, st 544); (47, tr 560);
         (58, tr 576); (61, st 520); (63, tr 562); (64, tr 263); (95, st 520);
         (126, st 520)]
        (if c <? 54 then
           if 45 <? c then
             if between 48 53 c then st 543 else st 0
           else if 36 <=? c then st 520 else st 0
         else if 59 <? c then
           if 90 <? c then
             if between 97 122 c then st 520 else st 0
           else if 65 <=? c then st 520 else st 0
         else st 520))
  | _ => None
  end.

(** The actions at the end of the string, by the state it ends in. *)
Definition eof_actions (cs : Z) : list action :=
  match cs with
  | 462 | 489 => [A_save_port]
  | 460 | 463 | 464 | 465 | 466 | 467 | 470 | 471 | 472 | 473 | 474 | 475 | 476 | 477
  | 478 | 479 | 480 | 481 | 482 | 483 | 484 | 485 | 486 | 487 | 488 | 490 | 491 | 492
  | 493 | 494 | 495 | 496 | 497 | 498 | 499 | 500 | 501 | 502 | 503 | 504 | 505 | 506
  | 507 => [A_save_host]
  | 513 => [A_save_path]
  | 457 => [A_save_query]
  | 454 => [A_save_fragment]
  | 456 => [A_marku; A_save_query]
  | 453 => [A_marku; A_save_fragment]
  | 461 | 468 => [A_markh; A_save_port]
  | 459 | 469 => [A_markh; A_save_host]
  | 514 | 521 => [A_markh; A_save_port; A_save_path]
  | 511 | 522 => [A_markh; A_save_host; A_save_path]
  | 515 | 542 => [A_save_port; A_markh; A_save_path]
  | 512 | 516 | 517 | 518 | 519 | 520 | 523 | 524 | 525 | 526 | 527 | 528 | 529 | 530
  | 531 | 532 | 533 | 534 | 535 | 536 | 537 | 538 | 539 | 540 | 541 | 543 | 544 | 545
  | 546 | 547 | 548 | 549 | 550 | 551 | 552 | 553 | 554 | 555 | 556 | 557 | 558 | 559
  | 560 => [A_save_host; A_markh; A_save_path]
  | _ => []
  end.

Definition goto_case (cs c : Z) : option target :=
  first_some [(fun cs => states_1 cs c); (fun cs => states_2 cs c); (fun cs => states_3 cs c);
    (fun cs => states_4 cs c); (fun cs => states_5 cs c); (fun cs => states_6 cs c);
    (fun cs => states_7 cs c); (fun cs => states_8 cs c); (fun cs => states_9 cs c);
    (fun cs => states_10 cs c); (fun cs => states_11 cs c); (fun cs => states_12 cs c);
    (fun cs => states_13 cs c); (fun cs => states_14 cs c); (fun cs => states_15 cs c);
    (fun cs => states_16 cs c); (fun cs => states_17 cs c); (fun cs => states_18 cs c);
    (fun cs => states_19 cs c); (fun cs => states_20 cs c); (fun cs => states_21 cs c);
    (fun cs => states_22 cs c); (fun cs => states_23 cs c); (fun cs => states_24 cs c);
    (fun cs => states_25 cs c); (fun cs => states_26 cs c); (fun cs => states_27 cs c);
    (fun cs => states_28 cs c); (fun cs => states_29 cs c); (fun cs => states_30 cs c);
    (fun cs => states_31 cs c); (fun cs => states_32 cs c); (fun cs => states_33 cs c);
    (fun cs => states_34 cs c); (fun cs => states_35 cs c); (fun cs => states_36 cs c);
    (fun cs => states_37 cs c); (fun cs => states_38 cs c); (fun cs => states_39 cs c);
    (fun cs => states_40 cs c); (fun cs => states_41 cs c); (fun cs => states_42 cs c);
    (fun cs => states_43 cs c); (fun cs => states_44 cs c); (fun cs => states_45 cs c);
    (fun cs => states_46 cs c); (fun cs => states_47 cs c); (fun cs => states_48 cs c);
    (fun cs => states_49 cs c); (fun cs => states_50 cs c); (fun cs => states_51 cs c);
    (fun cs => states_52 cs c); (fun cs => states_53 cs c); (fun cs => states_54 cs c);
    (fun cs => states_55 cs c); (fun cs => states_56 cs c); (fun cs => states_57 cs c);
    (fun cs => states_58 cs c); (fun cs => states_59 cs c); (fun cs => states_60 cs c);
    (fun cs => states_61 cs c); (fun cs => states_62 cs c); (fun cs => states_63 cs c);
    (fun cs => states_64 cs c); (fun cs => states_65 cs c); (fun cs => states_66 cs c);
    (fun cs => states_67 cs c); (fun cs => states_68 cs c); (fun cs => states_69 cs c);
    (fun cs => states_70 cs c); (fun cs => states_71 cs c)] cs.

Definition trans : Z -> option (list action * Z) :=
  first_some [trans_1; trans_2; trans_3; trans_4; trans_5; trans_6;
    trans_7; trans_8; trans_9; trans_12; trans_13; trans_33;
    trans_36; trans_37; trans_38; trans_39; trans_40; trans_41;
    trans_42; trans_43; trans_46; trans_47; trans_67; trans_70].

Definition uri_parser_start : Z := 451.
Definition uri_parser_first_final : Z := 451.
Definition uri_parser_error : Z := 0.
