(* ===== verification/Uri.v ===== *)
(** linko/uri.h, uri.rl.cc: Uri::Create and what a Uri is written as.

    [mark] is an offset into the string, [None] when it is null; [p] is the
    offset of the current character. *)
From S2P Require Import Prelude OrdMap Ragel Http UriMachine.

Record Uri := mkUri {
  m_scheme : bytes;
  m_userinfo : bytes;
  m_host : bytes;
  m_path : bytes;
  m_query : bytes;
  m_fragment : bytes;
  m_port : Z
}.
Definition Uri_new : Uri := mkUri [] [] [] [] [] [] 0.

Definition setScheme (v : bytes) (u : Uri) : Uri :=
  mkUri v (m_userinfo u) (m_host u) (m_path u) (m_query u) (m_fragment u) (m_port u).
Definition setUserinfo (v : bytes) (u : Uri) : Uri :=
  mkUri (m_scheme u) v (m_host u) (m_path u) (m_query u) (m_fragment u) (m_port u).
Definition setHost (v : bytes) (u : Uri) : Uri :=
  mkUri (m_scheme u) (m_userinfo u) v (m_path u) (m_query u) (m_fragment u) (m_port u).
Definition setPath (v : bytes) (u : Uri) : Uri :=
  mkUri (m_scheme u) (m_userinfo u) (m_host u) v (m_query u) (m_fragment u) (m_port u).
Definition setQuery (v : bytes) (u : Uri) : Uri :=
  mkUri (m_scheme u) (m_userinfo u) (m_host u) (m_path u) v (m_fragment u) (m_port u).
Definition setFragment (v : bytes) (u : Uri) : Uri :=
  mkUri (m_scheme u) (m_userinfo u) (m_host u) (m_path u) (m_query u) v (m_port u).
Definition setPort (v : Z) (u : Uri) : Uri :=
  mkUri (m_scheme u) (m_userinfo u) (m_host u) (m_path u) (m_query u) (m_fragment u) (i32 v).

(** [atoi]: white space, a sign, digits; strtol saturates and the result is cut
    to an int. *)
Definition isspace (b : byte) : bool := (ub b =? 32) || between 9 13 (ub b).
Definition isdigit (b : byte) : bool := between 48 57 (ub b).
Fixpoint digits (acc : Z) (s : bytes) : Z :=
  match s with
  | b :: s' => if isdigit b then digits (acc * 10 + (ub b - 48)) s' else acc
  | [] => acc
  end.
Fixpoint skip_spaces (s : bytes) : bytes :=
  match s with b :: s' => if isspace b then skip_spaces s' else s | [] => [] end.
Definition strtol (s : bytes) : Z :=
  match skip_spaces s with
  | b :: s' =>
    if ub b =? 45 then Z.max (- 2 ^ 63) (- digits 0 s')
    else if ub b =? 43 then Z.min (2 ^ 63 - 1) (digits 0 s')
    else Z.min (2 ^ 63 - 1) (digits 0 (b :: s'))
  | [] => 0
  end.
Definition atoi (s : bytes) : Z := i32 (strtol s).

(** ** Create *)

Record parse := mkParse { uri : Uri; mark : option Z }.
Definition UM : Type -> Type := M parse.

Section create.
(** [uristr]. *)
Context (buffer : bytes).

Definition on_uri (f : Uri -> Uri) : UM unit := modify (fun s => mkParse (f (uri s)) (mark s)).
Definition set_mark (v : option Z) : UM unit := modify (fun s => mkParse (uri s) v).

(** [std::string(mark, p - mark)]. *)
Definition marked (p : Z) : UM bytes :=
  s ← get;
  match mark s with
  | Some m =>
    if (m <=? p) && (p <=? zlen buffer) then mret (slice m (p - m) buffer) else crash_with OutOfBounds
  | None => throw (logic_error "basic_string: construction from null is not valid")
  end.

Definition run_action (a : action) (p : Z) : UM (option Z) :=
  s ← get;
  match a with
  | A_marku | A_markh => set_mark (Some p)
  | A_save_scheme => v ← marked p; on_uri (setScheme v);; set_mark None
  | A_save_port =>
    (if bool_decide (mark s = Some p) then mret tt else
     match mark s with
     | Some m => on_uri (setPort (atoi (zdrop m buffer)))
     | None => crash_with NullDeref
     end);;
    set_mark None
  | A_save_userinfo =>
    match mark s with Some _ => v ← marked p; on_uri (setUserinfo v) | None => mret tt end;;
    set_mark None
  | A_save_host => match mark s with Some _ => v ← marked p; on_uri (setHost v) | None => mret tt end
  | A_save_path => v ← marked p; on_uri (setPath v);; set_mark None
  | A_save_query => v ← marked p; on_uri (setQuery v);; set_mark None
  | A_save_fragment => v ← marked p; on_uri (setFragment v);; set_mark None
  end;;
  mret None.

(** [%% write exec]: the machine, and the actions at the end of the string,
    which an error skips.  The result is [cs]. *)
Definition exec : UM Z :=
  '(p, cs) ← exec_loop goto_case trans run_action 452 0 buffer uri_parser_start;
  if cs =? uri_parser_error then mret cs else
  run_actions run_action (eof_actions cs) p;;
  mret cs.

(** [None] is the null pointer. *)
Definition Create : outcome parse (option Uri) :=
  (cs ← exec;
   s ← get;
   mret (if cs =? uri_parser_error then None
         else if uri_parser_first_final <=? cs then Some (uri s) else None))
  (mkParse Uri_new None).
End create.

(** ** The methods *)

Definition isDefaultPort (u : Uri) : bool :=
  if m_port u =? 0 then true
  else if bool_decide (m_scheme u = bs "http" \/ m_scheme u = bs "ws") then m_port u =? 80
  else if bool_decide (m_scheme u = bs "https" \/ m_scheme u = bs "wss") then m_port u =? 443
  else false.

Definition getPath (u : Uri) : bytes := match m_path u with [] => bs "/" | v => v end.

Definition getPort (u : Uri) : Z :=
  if negb (m_port u =? 0) then m_port u
  else if bool_decide (m_scheme u = bs "http" \/ m_scheme u = bs "ws") then 80
  else if bool_decide (m_scheme u = bs "https" \/ m_scheme u = bs "wss") then 443
  else m_port u.

(** [std::to_string(int)]. *)
Definition to_string (n : Z) : bytes := if n <? 0 then bs "-" ++ show_dec (- n) else show_dec n.

Definition dump (u : Uri) : bytes :=
  m_scheme u ++ bs "://" ++ m_userinfo u ++
  (match m_userinfo u with [] => [] | _ => bs "@" end) ++
  m_host u ++
  (if isDefaultPort u then [] else bs ":" ++ to_string (m_port u)) ++
  getPath u ++
  (match m_query u with [] => [] | _ => bs "?" end) ++ m_query u ++
  (match m_fragment u with [] => [] | _ => bs "#" end) ++ m_fragment u.
Definition toString (u : Uri) : bytes := dump u.
