(* ===== verification/UriThms.v ===== *)
(** Theorems on Uri: Create fails on no string but those with an empty port. *)
From S2P Require Import Prelude OrdMap Ragel Http UriMachine Uri.
Open Scope Z_scope.

(** ** A static check of the table *)

(** The states in which [mark] may be null. *)
Definition null_states : list Z :=
  [522; 511; 510; 509; 469; 459; 458; 456; 6; 5; 455; 452; 4; 3; 453; 451].
Definition known (cs : Z) : bool := negb (existsb (Z.eqb cs) null_states).

(** An action that a non-null [mark] (or any) allows, and whether [mark] is known
    to be set after it. *)
Definition act_pre (f : bool) (a : action) : bool :=
  match a with A_save_scheme | A_save_port | A_save_path | A_save_query | A_save_fragment => f | _ => true end.
Definition act_post (f : bool) (a : action) : bool :=
  match a with A_marku | A_markh => true | A_save_host => f | _ => false end.
Fixpoint acts_ok (f : bool) (acts : list action) : option bool :=
  match acts with
  | [] => Some f
  | a :: acts => if act_pre f a then acts_ok (act_post f a) acts else None
  end.

(** The states behind the colon of a port. *)
Definition port_state (cs : Z) : bool := (cs =? 514) || (cs =? 521).
Definition ends_port (b : byte) : bool := (ub b =? 35) || (ub b =? 47) || (ub b =? 63).

(** The states a string without a colon leads to. *)
Definition early (cs : Z) : bool :=
  between 1 32 cs || between 36 42 cs || between 225 228 cs || between 451 460 cs ||
  between 463 467 cs || between 469 488 cs || between 490 508 cs.

Definition target_ok (cs : Z) (f : bool) (n : Z) (b : byte) : bool :=
  (n =? 0) ||
  (between 1 560 n && implb (known n) f && implb (port_state n) ((ub b =? 58) && negb (early cs)) &&
   implb (early cs) ((ub b =? 58) || early n)).
Definition edge_ok (cs : Z) (b : byte) : bool :=
  port_state cs && ends_port b ||
  match goto_case cs (char b) with
  | None => false
  | Some (st n) => target_ok cs (known cs) n b
  | Some (tr k) =>
    match trans k with
    | None => false
    | Some (acts, n) =>
      match acts_ok (known cs) acts with
      | Some f => target_ok cs f n b
      | None => false
      end
    end
  end.
Definition end_ok (cs : Z) : bool :=
  match acts_ok (known cs) (eof_actions cs) with Some _ => true | None => port_state cs end.

Definition states : list Z := map Z.of_nat (seq 1 560).

Lemma uri_table_checked : forallb (fun cs => end_ok cs && forallb (edge_ok cs) all_bytes) states = true.
Proof. vm_compute. reflexivity. Qed.

Lemma state_ok cs : 1 <= cs <= 560 -> end_ok cs = true /\ forall b, edge_ok cs b = true.
Proof.
  intros Hcs. pose proof uri_table_checked as H. rewrite forallb_forall in H.
  assert (Hin : In cs states).
  { apply in_map_iff. exists (Z.to_nat cs). split; [lia|]. apply in_seq. lia. }
  specialize (H cs Hin). apply andb_prop in H as [H1 H2]. split; [done|]. by apply forall_bytes.
Qed.

(** ** Create returns *)

Fixpoint after_colon (s : bytes) : bytes :=
  match s with [] => [] | b :: s => if ub b =? 58 then s else after_colon s end.
(** A colon that ends the string or is followed by a slash, a question mark or a
    number sign. *)
Fixpoint empty_port (s : bytes) : bool :=
  match s with
  | [] => false
  | b :: s => ((ub b =? 58) && match s with [] => true | c :: _ => ends_port c end) || empty_port s
  end.

Section total.
Context (B : bytes).

(** The mark lies before [p], and is set where [f]. *)
Definition mark_ok (p : Z) (f : bool) (s : parse) : Prop :=
  match mark s with Some m => 0 <= m <= p | None => f = false end.

(** An action with a mark, and without. *)
Definition eff (a : action) (p m : Z) (u : Uri) : parse :=
  let x := slice m (p - m) B in
  match a with
  | A_marku | A_markh => mkParse u (Some p)
  | A_save_scheme => mkParse (setScheme x u) None
  | A_save_port => mkParse (if m =? p then u else setPort (atoi (zdrop m B)) u) None
  | A_save_userinfo => mkParse (setUserinfo x u) None
  | A_save_host => mkParse (setHost x u) (Some m)
  | A_save_path => mkParse (setPath x u) None
  | A_save_query => mkParse (setQuery x u) None
  | A_save_fragment => mkParse (setFragment x u) None
  end.

Lemma run_some a p m u :
  0 <= m <= p -> p <= zlen B -> run_action B a p (mkParse u (Some m)) = Ret None (eff a p m u).
Proof.
  intros Hm Hp. set (s := mkParse u (Some m)).
  assert (Hmk : marked B p s = Ret (slice m (p - m) B) s).
  { unfold marked. rewrite (bind_Ret get _ s s s eq_refl). cbn [mark s].
    by rewrite (proj2 (Z.leb_le m p)), (proj2 (Z.leb_le p (zlen B))) by lia. }
  unfold run_action. rewrite (bind_Ret get _ s s s eq_refl).
  destruct a; try reflexivity; cbn [mark s]; unfold mbind at 1 2, M_bind; rewrite ?Hmk; try reflexivity.
  - unfold eff. destruct (Z.eqb_spec m p) as [-> |Hne]; [by rewrite bool_decide_true|].
    by rewrite bool_decide_false by congruence.
  - unfold mbind, M_bind. by rewrite Hmk.
Qed.

Lemma uri_action_ok p f a s :
  mark_ok p f s -> 0 <= p <= zlen B -> act_pre f a = true ->
  exists s', run_action B a p s = Ret None s' /\ mark_ok p (act_post f a) s'.
Proof.
  intros Hm Hp Ha. unfold mark_ok in Hm. destruct s as [u [m|]]; cbn [mark] in Hm.
  - exists (eff a p m u). split; [by apply run_some; lia|]. by destruct a; unfold mark_ok; cbn; try lia; try done.
  - subst f. destruct a; try done; eexists; (split; [reflexivity|]); unfold mark_ok; cbn; (lia || done).
Qed.

Lemma uri_actions_ok acts p f f' s :
  mark_ok p f s -> 0 <= p <= zlen B -> acts_ok f acts = Some f' ->
  exists s', run_actions (run_action B) acts p s = Ret None s' /\ mark_ok p f' s'.
Proof.
  revert f s. induction acts as [|a acts IH]; intros f s Hm Hp Ha; cbn [acts_ok] in Ha.
  - injection Ha as <-. by exists s.
  - destruct (act_pre f a) eqn:Hpre; [|done].
    destruct (uri_action_ok p f a s Hm Hp Hpre) as (s1 & E1 & Hm1).
    destruct (IH _ s1 Hm1 Hp Ha) as (s2 & E2 & Hm2). exists s2. split; [|done].
    by rewrite (run_actions_cons _ a acts p s s1 E1).
Qed.

Lemma mark_ok_weaken p f f' s : mark_ok p f s -> implb f' f = true -> mark_ok (p + 1) f' s.
Proof. unfold mark_ok. destruct (mark s); [lia|]. intros ->. by destruct f'. Qed.

Definition ahead (cs : Z) (rest : bytes) : Prop :=
  port_state cs = true -> match rest with [] => False | b :: _ => ends_port b = false end.

(** What is left has no empty port, its first colon aside before [cs] has seen
    one. *)
Definition port_free (cs : Z) (rest : bytes) : Prop :=
  empty_port rest = false \/ early cs = true /\ empty_port (after_colon rest) = false.

Lemma port_free_next cs f n b rest :
  (n =? 0) = false -> target_ok cs f n b = true -> port_free cs (b :: rest) -> ahead n rest /\ port_free n rest.
Proof.
  unfold target_ok, ahead, port_free. intros ->. cbn [orb empty_port after_colon]. rewrite !andb_true_iff.
  intros [[_ Hi] He] Hf. destruct (early cs).
  - cbn [negb implb] in *. rewrite andb_false_r in Hi. destruct (port_state n); [done|]. split; [done|].
    destruct Hf as [[_ Hf]%orb_false_elim|[_ Hf]]; [by left|]. destruct (ub b =? 58); [by left|]. by right.
  - rewrite andb_true_r in Hi. destruct Hf as [[Hf1 Hf]%orb_false_elim|[? _]]; [|done]. split; [|by left].
    intros Hn. rewrite Hn in Hi. cbn in Hi. rewrite Hi in Hf1. by destruct rest.
Qed.

Lemma loop_total rest p cs s :
  1 <= cs <= 560 -> 0 <= p -> p + zlen rest = zlen B -> mark_ok p (known cs) s -> ahead cs rest ->
  port_free cs rest ->
  exists p' cs' s', exec_loop goto_case trans (run_action B) 452 p rest cs s = Ret (p', cs') s' /\
    (cs' = 0 \/ p' = zlen B /\ 1 <= cs' <= 560 /\ mark_ok p' (known cs') s' /\ ahead cs' []).
Proof.
  revert p cs s. induction rest as [|b rest IH]; intros p cs s Hcs Hp Hl Hm Hah He.
  { exists p, cs, s. split; [done|]. right. rewrite zlen_nil in Hl. by replace p with (zlen B) in * by lia. }
  rewrite zlen_cons in Hl. pose proof (zlen_nonneg rest). destruct (state_ok cs Hcs) as [_ Hedge]. specialize (Hedge b).
  assert (Hno : port_state cs && ends_port b = false).
  { destruct (port_state cs) eqn:Hps; [|done]. exact (Hah Hps). }
  unfold edge_ok in Hedge. rewrite Hno in Hedge. cbn [orb] in Hedge. cbn [exec_loop].
  assert (Hgo : forall n f s1, target_ok cs f n b = true -> mark_ok p f s1 ->
    exists p' cs' s', (if n =? 0 then mret (p, 0) else exec_loop goto_case trans (run_action B) 452 (p + 1) rest n) s1 =
      Ret (p', cs') s' /\ (cs' = 0 \/ p' = zlen B /\ 1 <= cs' <= 560 /\ mark_ok p' (known cs') s' /\ ahead cs' [])).
  { intros n f s1 Ht Hm1. destruct (n =? 0) eqn:Hn; [exists p, 0, s1; split; [done|by left]|].
    destruct (port_free_next cs f n b rest Hn Ht He) as [Ha Hf].
    unfold target_ok in Ht. rewrite Hn in Ht. cbn [orb] in Ht. rewrite !andb_true_iff in Ht. destruct Ht as [[[Hb Hk] _] _].
    apply IH; try done; [unfold between in Hb; lia|lia|lia|by apply (mark_ok_weaken p f)]. }
  destruct (goto_case cs (char b)) as [[n|k]|] eqn:Eg; [|destruct (trans k) as [[acts n]|]; [|done]|done].
  - by apply (Hgo n (known cs)).
  - destruct (acts_ok (known cs) acts) as [f|] eqn:Ea; [|done].
    destruct (uri_actions_ok acts p (known cs) f s Hm ltac:(lia) Ea) as (s1 & E1 & Hm1).
    step_with E1. by apply (Hgo n f).
Qed.
End total.

(** C17: Uri::Create returns on every string in which no colon behind the first is
    followed by a slash, a question mark, a number sign or the end: no null or
    misplaced mark is ever read from.  With such a colon it can throw, because an empty port
    clears the mark the path starts at: it does on http://a:/. *)
Theorem create_total buffer :
  (empty_port (after_colon buffer) = false -> exists r s, Create buffer = Ret r s) /\
  exists e s, Create (bs "http://a:/") = Throw e s.
Proof.
  split; [intros He|by eexists _, _].
  destruct (loop_total buffer buffer 0 uri_parser_start (mkParse Uri_new None)) as (p & cs & s & E & Hcs); try done; [by right|].
  assert (Hx : exists s', exec buffer (mkParse Uri_new None) = Ret cs s').
  { unfold exec. step_with E. destruct Hcs as [-> |(-> & Hcs & Hm & Ha)]; [by exists s|].
    destruct (Z.eqb_spec cs uri_parser_error); [by exists s|]. destruct (state_ok cs Hcs) as [Hend _].
    unfold end_ok in Hend. destruct (acts_ok (known cs) (eof_actions cs)) as [f|] eqn:Ea; [|by destruct (Ha Hend)].
    destruct (uri_actions_ok buffer (eof_actions cs) (zlen buffer) (known cs) f s Hm) as (s' & E' & _); [|done|].
    - pose proof (zlen_nonneg buffer). lia.
    - exists s'. by step_with E'. }
  destruct Hx as (s' & E'). unfold Create. step_with E'. step_with (eq_refl : get s' = Ret s' s'). by eexists _, s'.
Qed.

Lemma create_total_witness :
  empty_port (after_colon (bs "http://u:p@h:8080/a?b#c")) = false /\
  (empty_port (after_colon (bs "http://u:p@h:8080/a?b#c")) = false -> exists r s, Create (bs "http://u:p@h:8080/a?b#c") = Ret r s) /\
  exists e s, Create (bs "http://a:/") = Throw e s.
Proof. split; [vm_compute; reflexivity|]. apply (create_total (bs "http://u:p@h:8080/a?b#c")). Defined.
