(* ===== verification/UriRoundtrip.v ===== *)
(** Create reads back what toString writes.

    Each part of a URI is read in a set of states that its characters do not
    leave and in which nothing happens ([stays]); every state of the set does the
    same on the character that ends the part ([ends]).  Both are checked on the
    table. *)
From S2P Require Import Prelude.
From stdpp Require Import list.
From S2P Require Import OrdMap Ragel Http HttpThms UriMachine Uri UriThms.
Open Scope Z_scope.

(** ** Classes of characters *)

Definition alpha (b : byte) : bool := between 65 90 (ub b) || between 97 122 (ub b).
Definition is_in (l : bytes) (b : byte) : bool := bool_decide (b ∈ l).
Definition scheme_char (b : byte) : bool := alpha b || isdigit b || is_in (bs "+-.") b.
(** unreserved and sub_delims of the grammar. *)
Definition name_char (b : byte) : bool := alpha b || isdigit b || is_in (bs "-._~!$&'()*+,;=") b.
Definition path_char (b : byte) : bool := name_char b || is_in (bs ":@/") b || (128 <=? ub b).
Definition query_char (b : byte) : bool := path_char b || is_in (bs "?") b.

(** ** The table *)

Definition host_states : list Z :=
  [543; 544; 545; 546; 547; 548; 549; 550; 551; 552; 553; 554; 555; 556; 557; 558; 559; 560; 520].
Definition host_states' : list Z :=
  [524; 525; 526; 527; 528; 529; 530; 531; 532; 533; 534; 535; 536; 537; 538; 539; 540; 541; 523].

(** The actions and the state that follow a character. *)
Definition reads (cs : Z) (b : byte) : option (list action * Z) :=
  match goto_case cs (char b) with
  | Some (st n) => if n =? 0 then None else Some ([], n)
  | Some (tr k) => match trans k with Some (acts, n) => if n =? 0 then None else Some (acts, n) | None => None end
  | None => None
  end.

(** From [cs], the first character of a part sets the mark and leads into [S]. *)
Definition begins (cs : Z) (f : byte -> bool) (a : action) (S : list Z) : bool :=
  forallb (fun b => implb (f b)
    match reads cs b with Some ([a'], n) => bool_decide (a' = a) && existsb (Z.eqb n) S | _ => false end) all_bytes.
Definition stays (S : list Z) (f : byte -> bool) : bool :=
  forallb (fun cs => forallb (fun b => implb (f b)
    match reads cs b with Some ([], n) => existsb (Z.eqb n) S | _ => false end) all_bytes) S.
Definition ends (S : list Z) (b : byte) (acts : list action) (n : Z) : bool :=
  forallb (fun cs => bool_decide (reads cs b = Some (acts, n))) S.
Definition finishes (S : list Z) (acts : list action) : bool :=
  forallb (fun cs => bool_decide (eof_actions cs = acts) && (451 <=? cs)) S.

Definition colon : byte := bz 58.
Definition slash : byte := bz 47.
Definition at_sign : byte := bz 64.
Definition question : byte := bz 63.
Definition number_sign : byte := bz 35.

Ltac checked := vm_compute; reflexivity.
Lemma scheme_begins : begins 451 alpha A_marku [508] = true.
Proof. checked. Qed.
Lemma scheme_stays : stays [508] scheme_char = true.
Proof. checked. Qed.
Lemma scheme_ends : ends [508] colon [A_save_scheme] 509 = true.
Proof. checked. Qed.
Lemma slash_1 : ends [509] slash [] 510 = true.
Proof. checked. Qed.
Lemma slash_2 : ends [510] slash [] 511 = true.
Proof. checked. Qed.
Lemma name_begins : begins 511 name_char A_markh host_states = true.
Proof. checked. Qed.
Lemma name_stays : stays host_states name_char = true.
Proof. checked. Qed.
Lemma name_at : ends host_states at_sign [A_save_userinfo] 522 = true.
Proof. checked. Qed.
Lemma name_colon : ends host_states colon [A_save_host] 521 = true.
Proof. checked. Qed.
Lemma name_slash : ends host_states slash [A_save_host; A_markh] 513 = true.
Proof. checked. Qed.
Lemma host_begins : begins 522 name_char A_markh host_states' = true.
Proof. checked. Qed.
Lemma host_stays : stays host_states' name_char = true.
Proof. checked. Qed.
Lemma host_colon : ends host_states' colon [A_save_host] 514 = true.
Proof. checked. Qed.
Lemma host_slash : ends host_states' slash [A_save_host; A_markh] 513 = true.
Proof. checked. Qed.
Lemma port_begins : begins 521 isdigit A_markh [542] = true.
Proof. checked. Qed.
Lemma port_stays : stays [542] isdigit = true.
Proof. checked. Qed.
Lemma port_slash : ends [542] slash [A_save_port; A_markh] 513 = true.
Proof. checked. Qed.
Lemma port_begins' : begins 514 isdigit A_markh [515] = true.
Proof. checked. Qed.
Lemma port_stays' : stays [515] isdigit = true.
Proof. checked. Qed.
Lemma port_slash' : ends [515] slash [A_save_port; A_markh] 513 = true.
Proof. checked. Qed.
Lemma path_stays : stays [513] path_char = true.
Proof. checked. Qed.
Lemma path_question : ends [513] question [A_save_path] 456 = true.
Proof. checked. Qed.
Lemma path_number : ends [513] number_sign [A_save_path] 453 = true.
Proof. checked. Qed.
Lemma path_finishes : finishes [513] [A_save_path] = true.
Proof. checked. Qed.
Lemma query_begins : begins 456 query_char A_marku [457] = true.
Proof. checked. Qed.
Lemma query_stays : stays [457] query_char = true.
Proof. checked. Qed.
Lemma query_number : ends [457] number_sign [A_save_query] 453 = true.
Proof. checked. Qed.
Lemma query_finishes : finishes [457] [A_save_query] = true.
Proof. checked. Qed.
Lemma fragment_begins : begins 453 query_char A_marku [454] = true.
Proof. checked. Qed.
Lemma fragment_stays : stays [454] query_char = true.
Proof. checked. Qed.
Lemma fragment_finishes : finishes [454] [A_save_fragment] = true.
Proof. checked. Qed.

(** ** Reading a part *)

Lemma forallb_in {A} (f : A -> bool) l x : forallb f l = true -> x ∈ l -> f x = true.
Proof. intros H Hx. apply (proj1 (forallb_forall f l) H), list_elem_of_In, Hx. Qed.

Section run.
Context (B : bytes).
Abbreviation machine := (exec_loop goto_case trans (run_action B) 452).

Lemma reads_run cs b acts n p rest s s' :
  reads cs b = Some (acts, n) -> run_actions (run_action B) acts p s = Ret None s' ->
  machine p (b :: rest) cs s = machine (p + 1) rest n s'.
Proof.
  unfold reads. intros Hr Ha. destruct (goto_case cs (char b)) as [[m|k]|] eqn:Eg; [| |done].
  - destruct (m =? 0) eqn:Hm; [done|]. injection Hr as <- <-. injection Ha as <-.
    apply exec_st; [done|by apply Z.eqb_neq].
  - destruct (trans k) as [[acts' m]|] eqn:Et; [|done]. destruct (m =? 0) eqn:Hm; [done|].
    injection Hr as <- <-. apply (exec_tr _ _ _ _ p b rest cs k acts' m); try done. by apply Z.eqb_neq.
Qed.

Lemma in_states n S : existsb (Z.eqb n) S = true -> n ∈ S.
Proof. intros (x & Hx & ->%Z.eqb_eq)%existsb_exists. by apply list_elem_of_In. Qed.

Lemma stays_run S f xs p rest cs s :
  stays S f = true -> Forall (fun b => f b = true) xs -> cs ∈ S ->
  exists cs', cs' ∈ S /\ machine p (xs ++ rest) cs s = machine (p + zlen xs) rest cs' s.
Proof.
  intros HS. revert p cs. induction xs as [|b xs IH]; intros p cs Hf Hcs.
  - exists cs. split; [done|]. by rewrite zlen_nil, Z.add_0_r.
  - apply Forall_cons in Hf as [Hb Hf]. pose proof (forallb_in _ _ cs HS Hcs) as Hst. cbv beta in Hst.
    pose proof (forall_bytes _ Hst b) as Hr. cbv beta in Hr. rewrite Hb in Hr. cbn [implb] in Hr.
    destruct (reads cs b) as [[[|] n]|] eqn:Er; try done.
    destruct (IH (p + 1) n Hf (in_states n S Hr)) as (cs' & Hcs' & E). exists cs'. split; [done|].
    cbn [app]. rewrite (reads_run cs b [] n p _ s s Er eq_refl), E, zlen_cons. f_equal. lia.
Qed.

(** A whole part: [a] sets the mark to its first character. *)
Lemma part_run_from cs f0 f a S b xs p rest u m :
  begins cs f0 a S = true -> stays S f = true -> (a = A_marku \/ a = A_markh) ->
  f0 b = true -> Forall (fun b => f b = true) xs ->
  exists cs', cs' ∈ S /\
    machine p ((b :: xs) ++ rest) cs (mkParse u m) = machine (p + zlen (b :: xs)) rest cs' (mkParse u (Some p)).
Proof.
  intros HB HS Ha Hb Hf.
  pose proof (forall_bytes _ HB b) as Hr. cbv beta in Hr. rewrite Hb in Hr. cbn [implb] in Hr.
  destruct (reads cs b) as [[[|a' [|]] n]|] eqn:Er; try done. apply andb_prop in Hr as [Hr Hn].
  apply bool_decide_eq_true in Hr as ->.
  destruct (stays_run S f xs (p + 1) rest n (mkParse u (Some p)) HS Hf (in_states n S Hn)) as (cs' & Hcs' & E).
  exists cs'. split; [done|]. cbn [app]. rewrite zlen_cons.
  rewrite (reads_run cs b [a] n p _ (mkParse u m) (mkParse u (Some p)) Er).
  - rewrite E. f_equal. lia.
  - by destruct Ha as [-> | ->].
Qed.

Lemma part_run cs f a S b xs p rest u m :
  begins cs f a S = true -> stays S f = true -> (a = A_marku \/ a = A_markh) ->
  Forall (fun b => f b = true) (b :: xs) ->
  exists cs', cs' ∈ S /\
    machine p ((b :: xs) ++ rest) cs (mkParse u m) = machine (p + zlen (b :: xs)) rest cs' (mkParse u (Some p)).
Proof. intros HB HS Ha Hf. apply Forall_cons in Hf as [Hb Hf]. by apply (part_run_from cs f f a S). Qed.

Lemma ends_run S b acts n cs p rest s s' :
  ends S b acts n = true -> cs ∈ S -> run_actions (run_action B) acts p s = Ret None s' ->
  machine p (b :: rest) cs s = machine (p + 1) rest n s'.
Proof.
  intros HE Hcs Ha. pose proof (forallb_in _ _ cs HE Hcs) as Hr. cbv beta in Hr. apply bool_decide_eq_true in Hr. by apply (reads_run cs b acts n).
Qed.

(** The text from a mark to the current character. *)
Lemma slice_at pre x post : B = pre ++ x ++ post -> slice (zlen pre) (zlen pre + zlen x - zlen pre) B = x.
Proof.
  intros ->. replace (zlen pre + zlen x - zlen pre) with (zlen x) by lia.
  rewrite <- (Z.add_0_r (zlen pre)), slice_middle by (pose proof (zlen_nonneg x); lia).
  unfold slice. rewrite zdrop_0. apply ztake_all. lia.
Qed.

Lemma eff_run a pre x post u :
  B = pre ++ x ++ post ->
  run_action B a (zlen pre + zlen x) (mkParse u (Some (zlen pre))) = Ret None (eff B a (zlen pre + zlen x) (zlen pre) u).
Proof.
  intros E. pose proof (zlen_nonneg pre). pose proof (zlen_nonneg x). pose proof (zlen_nonneg post).
  apply run_some; [lia|]. rewrite E, !zlen_app. lia.
Qed.

Lemma save_run a pre x post u u' m' :
  B = pre ++ x ++ post -> eff B a (zlen pre + zlen x) (zlen pre) u = mkParse u' m' ->
  run_actions (run_action B) [a] (zlen pre + zlen x) (mkParse u (Some (zlen pre))) = Ret None (mkParse u' m').
Proof.
  intros E Ee. rewrite <- Ee. rewrite (run_actions_cons _ a [] _ _ _ (eff_run a pre x post u E)). done.
Qed.

(** ** The end of the string *)

Definition finish (r : Z * Z) : UM Z :=
  let '(p, cs) := r in
  if cs =? uri_parser_error then mret cs else run_actions (run_action B) (eof_actions cs) p;; mret cs.

Lemma finishes_run S acts cs p s s' :
  finishes S acts = true -> cs ∈ S -> run_actions (run_action B) acts p s = Ret None s' ->
  451 <= cs /\ (machine p [] cs ≫= finish) s = Ret cs s'.
Proof.
  intros HF Hcs Ha. pose proof (forallb_in _ _ cs HF Hcs) as Hr. cbv beta in Hr.
  apply andb_prop in Hr as [Hr Hc]. apply bool_decide_eq_true in Hr. split; [lia|].
  step_with (exec_nil goto_case trans (run_action B) 452 p cs s). unfold finish. rewrite Hr.
  destruct (Z.eqb_spec cs uri_parser_error) as [He|]; [unfold uri_parser_error in He; lia|]. by step_with Ha.
Qed.

Lemma bind_eq {A} (m m' : UM A) (s s' : parse) (f : A -> UM Z) : m s = m' s' -> (m ≫= f) s = (m' ≫= f) s'.
Proof. unfold mbind, M_bind. by intros ->. Qed.

Definition with_mark (sign : byte) (x : bytes) : bytes := match x with [] => [] | _ => sign :: x end.

Lemma fragment_end pre b xs u m :
  B = pre ++ (b :: xs) -> Forall (fun b => query_char b = true) (b :: xs) ->
  exists cs s', 451 <= cs /\ (machine (zlen pre) (b :: xs) 453 ≫= finish) (mkParse u m) = Ret cs s' /\
    uri s' = setFragment (b :: xs) u.
Proof.
  intros E Hf.
  destruct (part_run 453 query_char A_marku [454] b xs (zlen pre) [] u m) as (cs & Hcs & Er);
    [apply fragment_begins|apply fragment_stays|by left|exact Hf|].
  rewrite app_nil_r in Er. set (f := b :: xs) in *.
  assert (E' : B = pre ++ f ++ []) by by rewrite app_nil_r.
  destruct (finishes_run [454] [A_save_fragment] cs (zlen pre + zlen f) (mkParse u (Some (zlen pre)))
    (mkParse (setFragment f u) None)) as [Hc Ef]; [apply fragment_finishes|exact Hcs| |].
  { apply (save_run _ pre f []); [done|]. unfold eff. by rewrite (slice_at pre f []). }
  exists cs, (mkParse (setFragment f u) None). split; [done|]. split; [|done].
  rewrite <- Ef. by apply bind_eq.
Qed.

Lemma setFragment_nil u : m_fragment u = [] -> setFragment [] u = u.
Proof. destruct u. cbn. by intros ->. Qed.
Lemma setQuery_nil u : m_query u = [] -> setQuery [] u = u.
Proof. destruct u. cbn. by intros ->. Qed.

Lemma zlen_snoc (pre : bytes) x : zlen (pre ++ [x]) = zlen pre + 1.
Proof. by rewrite zlen_app. Qed.

Lemma query_end pre b xs f u m :
  B = pre ++ (b :: xs) ++ with_mark number_sign f -> m_fragment u = [] ->
  Forall (fun b => query_char b = true) (b :: xs) -> Forall (fun b => query_char b = true) f ->
  exists cs s', 451 <= cs /\
    (machine (zlen pre) ((b :: xs) ++ with_mark number_sign f) 456 ≫= finish) (mkParse u m) = Ret cs s' /\
    uri s' = setFragment f (setQuery (b :: xs) u).
Proof.
  intros E Hu Hq Hf.
  destruct (part_run 456 query_char A_marku [457] b xs (zlen pre) (with_mark number_sign f) u m) as (cs & Hcs & Er);
    [apply query_begins|apply query_stays|by left|exact Hq|].
  set (q := b :: xs) in *.
  assert (Hsave : run_actions (run_action B) [A_save_query] (zlen pre + zlen q) (mkParse u (Some (zlen pre))) =
    Ret None (mkParse (setQuery q u) None)).
  { apply (save_run _ pre q (with_mark number_sign f)); [done|]. unfold eff. by rewrite (slice_at pre q _ E). }
  destruct f as [|c f].
  - destruct (finishes_run [457] [A_save_query] cs (zlen pre + zlen q) (mkParse u (Some (zlen pre)))
      (mkParse (setQuery q u) None)) as [Hc Ef]; [apply query_finishes|exact Hcs|exact Hsave|].
    exists cs, (mkParse (setQuery q u) None). split; [done|]. split; [rewrite <- Ef; by apply bind_eq|].
    symmetry. by apply setFragment_nil.
  - cbn [with_mark] in *.
    pose proof (ends_run [457] number_sign [A_save_query] 453 cs (zlen pre + zlen q) (c :: f)
      (mkParse u (Some (zlen pre))) (mkParse (setQuery q u) None) query_number Hcs Hsave) as En.
    destruct (fragment_end (pre ++ q ++ [number_sign]) c f (setQuery q u) None) as (cs' & s' & Hc & Ef & Hs);
      [by rewrite E, <- !app_assoc|exact Hf|].
    exists cs', s'. split; [done|]. split; [|done]. rewrite <- Ef. apply bind_eq. rewrite Er, En.
    by rewrite app_assoc, zlen_snoc, zlen_app.
Qed.

(** The path, from behind its first slash on. *)
Lemma uri_path_end pre xs q f u :
  B = pre ++ (slash :: xs) ++ with_mark question q ++ with_mark number_sign f ->
  m_query u = [] -> m_fragment u = [] -> Forall (fun b => path_char b = true) xs ->
  Forall (fun b => query_char b = true) q -> Forall (fun b => query_char b = true) f ->
  exists cs s', 451 <= cs /\
    (machine (zlen pre + 1) (xs ++ with_mark question q ++ with_mark number_sign f) 513 ≫= finish)
      (mkParse u (Some (zlen pre))) = Ret cs s' /\
    uri s' = setFragment f (setQuery q (setPath (slash :: xs) u)).
Proof.
  intros E Hq0 Hf0 Hx Hq Hf.
  destruct (stays_run [513] path_char xs (zlen pre + 1) (with_mark question q ++ with_mark number_sign f) 513
    (mkParse u (Some (zlen pre)))) as (cs & Hcs & Er); [apply path_stays|exact Hx|by left|].
  set (path := slash :: xs) in *. set (u' := setPath path u) in *.
  assert (Ep : zlen pre + 1 + zlen xs = zlen pre + zlen path) by (unfold path; rewrite zlen_cons; lia). rewrite Ep in Er.
  assert (Hsave : run_actions (run_action B) [A_save_path] (zlen pre + zlen path) (mkParse u (Some (zlen pre))) =
    Ret None (mkParse u' None)).
  { eapply (save_run _ pre path); [exact E|]. unfold eff. by rewrite (slice_at pre path _ E). }
  destruct q as [|b q]; [destruct f as [|c f]|]; cbn [with_mark app] in *.
  - destruct (finishes_run [513] [A_save_path] cs (zlen pre + zlen path) (mkParse u (Some (zlen pre)))
      (mkParse u' None)) as [Hc Ef]; [apply path_finishes|exact Hcs|exact Hsave|].
    exists cs, (mkParse u' None). split; [done|]. split; [rewrite <- Ef; by apply bind_eq|].
    rewrite setQuery_nil by done. symmetry. by apply setFragment_nil.
  - pose proof (ends_run [513] number_sign [A_save_path] 453 cs (zlen pre + zlen path) (c :: f)
      (mkParse u (Some (zlen pre))) (mkParse u' None) path_number Hcs Hsave) as En.
    destruct (fragment_end (pre ++ path ++ [number_sign]) c f u' None) as (cs' & s' & Hc & Ef & Hs);
      [by rewrite E, <- !app_assoc|exact Hf|].
    exists cs', s'. split; [done|]. split; [|by rewrite setQuery_nil]. rewrite <- Ef. apply bind_eq. rewrite Er, En.
    by rewrite app_assoc, zlen_snoc, zlen_app.
  - pose proof (ends_run [513] question [A_save_path] 456 cs (zlen pre + zlen path)
      (b :: q ++ with_mark number_sign f)
      (mkParse u (Some (zlen pre))) (mkParse u' None) path_question Hcs Hsave) as En.
    destruct (query_end (pre ++ path ++ [question]) b q f u' None) as (cs' & s' & Hc & Ef & Hs);
      [by rewrite E, <- !app_assoc|done|exact Hq|exact Hf|].
    exists cs', s'. split; [done|]. split; [|done]. rewrite <- Ef. apply bind_eq. rewrite Er, En.
    by rewrite app_assoc, zlen_snoc, zlen_app.
Qed.

(** ** The authority *)

Lemma save_mark_run a pre x post u u' m' :
  B = pre ++ x ++ post -> eff B a (zlen pre + zlen x) (zlen pre) u = mkParse u' m' ->
  run_actions (run_action B) [a; A_markh] (zlen pre + zlen x) (mkParse u (Some (zlen pre))) =
    Ret None (mkParse u' (Some (zlen pre + zlen x))).
Proof.
  intros E Ee. rewrite (run_actions_cons _ a [A_markh] _ _ (mkParse u' m')); [done|].
  rewrite <- Ee. by apply (eff_run a pre x post u).
Qed.

Lemma zdrop_at (pre rest : bytes) : zdrop (zlen pre) (pre ++ rest) = rest.
Proof. unfold zdrop, zlen. rewrite Nat2Z.id. apply drop_app_length. Qed.

(** The port an authority gives; none leaves it. *)
Definition port_set (pt tail : bytes) (u : Uri) : Uri :=
  match pt with [] => u | _ => setPort (atoi (pt ++ slash :: tail)) u end.

(** The host and the port, read from [cs0], up to the slash behind them. *)
Lemma host_end cs0 S np SP pre b xs pt tail u m :
  begins cs0 name_char A_markh S = true -> stays S name_char = true ->
  ends S colon [A_save_host] np = true -> ends S slash [A_save_host; A_markh] 513 = true ->
  begins np isdigit A_markh SP = true -> stays SP isdigit = true ->
  ends SP slash [A_save_port; A_markh] 513 = true ->
  B = pre ++ (b :: xs) ++ with_mark colon pt ++ slash :: tail ->
  Forall (fun b => name_char b = true) (b :: xs) -> Forall (fun b => isdigit b = true) pt ->
  machine (zlen pre) ((b :: xs) ++ with_mark colon pt ++ slash :: tail) cs0 (mkParse u m) =
    machine (zlen (pre ++ (b :: xs) ++ with_mark colon pt) + 1) tail 513
      (mkParse (port_set pt tail (setHost (b :: xs) u)) (Some (zlen (pre ++ (b :: xs) ++ with_mark colon pt)))).
Proof.
  intros T1 T2 T3 T4 T5 T6 T7 E Hh Hp.
  destruct (part_run cs0 name_char A_markh S b xs (zlen pre) (with_mark colon pt ++ slash :: tail) u m T1 T2
    (or_intror eq_refl) Hh) as (cs & Hcs & Er). rewrite Er. clear Er. set (h := b :: xs) in *.
  assert (Ee : eff B A_save_host (zlen pre + zlen h) (zlen pre) u = mkParse (setHost h u) (Some (zlen pre)))
    by (unfold eff; by rewrite (slice_at pre h _ E)).
  destruct pt as [|d pt]; cbn [with_mark app port_set] in *.
  - rewrite (ends_run S slash [A_save_host; A_markh] 513 cs _ tail _ _ T4 Hcs (save_mark_run _ pre h _ u _ _ E Ee)).
    by rewrite app_nil_r, zlen_app.
  - rewrite (ends_run S colon [A_save_host] np cs _ _ _ _ T3 Hcs (save_run _ pre h _ u _ _ E Ee)).
    set (pre2 := pre ++ h ++ [colon]). set (u1 := setHost h u).
    assert (E2 : B = pre2 ++ (d :: pt) ++ slash :: tail) by (unfold pre2; by rewrite E, <- !app_assoc).
    assert (Ep : zlen pre + zlen h + 1 = zlen pre2) by (unfold pre2; by rewrite app_assoc, zlen_snoc, zlen_app).
    destruct (part_run np isdigit A_markh SP d pt (zlen pre2) (slash :: tail) u1 (Some (zlen pre)) T5 T6
      (or_intror eq_refl) Hp) as (cs2 & Hcs2 & Er2). rewrite Ep. cbn [app] in Er2. rewrite Er2. clear Er2.
    assert (Ee2 : eff B A_save_port (zlen pre2 + zlen (d :: pt)) (zlen pre2) u1 =
      mkParse (setPort (atoi ((d :: pt) ++ slash :: tail)) u1) None).
    { unfold eff. rewrite zlen_cons. pose proof (zlen_nonneg pt).
      rewrite (proj2 (Z.eqb_neq (zlen pre2) (zlen pre2 + (1 + zlen pt)))) by lia. by rewrite E2, zdrop_at. }
    rewrite (ends_run SP slash [A_save_port; A_markh] 513 cs2 _ tail _ _ T7 Hcs2 (save_mark_run _ pre2 (d :: pt) _ u1 _ _ E2 Ee2)).
    assert (En : zlen (pre ++ h ++ colon :: d :: pt) = zlen pre2 + zlen (d :: pt)).
    { unfold pre2. rewrite !zlen_app, !zlen_cons, zlen_nil. lia. }
    by rewrite En.
Qed.

(** An optional user info in front of it. *)
Definition user_part (ui : bytes) : bytes := match ui with [] => [] | _ => ui ++ [at_sign] end.

Lemma authority_end pre ui b xs pt tail u :
  B = pre ++ user_part ui ++ (b :: xs) ++ with_mark colon pt ++ slash :: tail ->
  m_userinfo u = [] ->
  Forall (fun b => name_char b = true) ui ->
  Forall (fun b => name_char b = true) (b :: xs) -> Forall (fun b => isdigit b = true) pt ->
  machine (zlen pre) (user_part ui ++ (b :: xs) ++ with_mark colon pt ++ slash :: tail) 511 (mkParse u None) =
    machine (zlen (pre ++ user_part ui ++ (b :: xs) ++ with_mark colon pt) + 1) tail 513
      (mkParse (port_set pt tail (setHost (b :: xs) (setUserinfo ui u)))
        (Some (zlen (pre ++ user_part ui ++ (b :: xs) ++ with_mark colon pt)))).
Proof.
  intros E Hu0 Hui Hh Hp. destruct ui as [|c ui]; cbn [user_part] in *.
  - assert (setUserinfo [] u = u) as -> by (destruct u; cbn in *; by subst).
    cbn [app] in E. apply (host_end 511 host_states 521 [542] pre b xs pt tail u None);
      [apply name_begins|apply name_stays|apply name_colon|apply name_slash|apply port_begins|apply port_stays|
       apply port_slash|exact E|exact Hh|exact Hp].
  - set (ui' := c :: ui) in *. set (auth := (b :: xs) ++ with_mark colon pt ++ slash :: tail) in *.
    destruct (part_run 511 name_char A_markh host_states c ui (zlen pre) ([at_sign] ++ auth) u None)
      as (cs & Hcs & Er); [apply name_begins|apply name_stays|by right|exact Hui|].
    fold ui' in Er. rewrite <- app_assoc. rewrite Er. clear Er.
    assert (E1 : B = pre ++ ui' ++ [at_sign] ++ auth) by (by rewrite E, <- app_assoc).
    assert (Hsave : run_actions (run_action B) [A_save_userinfo] (zlen pre + zlen ui') (mkParse u (Some (zlen pre))) =
      Ret None (mkParse (setUserinfo ui' u) None)).
    { apply (save_run _ pre ui' ([at_sign] ++ auth)); [done|]. unfold eff. by rewrite (slice_at pre ui' _ E1). }
    cbn [app].
    rewrite (ends_run host_states at_sign [A_save_userinfo] 522 cs _ auth _ _ name_at Hcs Hsave).
    assert (En : zlen pre + zlen ui' + 1 = zlen (pre ++ ui' ++ [at_sign])) by by rewrite app_assoc, zlen_snoc, zlen_app.
    rewrite En. unfold auth.
    rewrite (host_end 522 host_states' 514 [515] (pre ++ ui' ++ [at_sign]) b xs pt tail (setUserinfo ui' u) None host_begins
      host_stays host_colon host_slash port_begins' port_stays' port_slash');
      [|by rewrite E1, <- !app_assoc|exact Hh|exact Hp].
    by rewrite <- !app_assoc.
Qed.

(** ** The scheme *)

Lemma scheme_end b xs rest :
  B = (b :: xs) ++ colon :: slash :: slash :: rest -> alpha b = true -> Forall (fun b => scheme_char b = true) xs ->
  machine 0 ((b :: xs) ++ colon :: slash :: slash :: rest) 451 (mkParse Uri_new None) =
    machine (zlen ((b :: xs) ++ [colon; slash; slash])) rest 511 (mkParse (setScheme (b :: xs) Uri_new) None).
Proof.
  intros E Hb Hx.
  destruct (part_run_from 451 alpha scheme_char A_marku [508] b xs 0 (colon :: slash :: slash :: rest) Uri_new None)
    as (cs & Hcs & Er); [apply scheme_begins|apply scheme_stays|by left|exact Hb|exact Hx|].
  rewrite Er. clear Er. set (sc := b :: xs) in *. set (u := setScheme sc Uri_new).
  pose proof (save_run A_save_scheme [] sc (colon :: slash :: slash :: rest) Uri_new u None E) as Hsave.
  rewrite (ends_run [508] colon [A_save_scheme] 509 cs _ _ _ (mkParse u None) scheme_ends Hcs).
  - rewrite (ends_run [509] slash [] 510 509 _ _ _ (mkParse u None) slash_1); [|by left|done].
    rewrite (ends_run [510] slash [] 511 510 _ _ _ (mkParse u None) slash_2); [|by left|done].
    f_equal. rewrite zlen_app. change (zlen [colon; slash; slash]) with 3. lia.
  - apply Hsave. unfold eff. pose proof (slice_at [] sc _ E) as Hs. by rewrite Hs.
Qed.
End run.

(** ** The port as text *)

Lemma digits_until ds c rest : forall a, Forall (fun b => isdigit b = true) ds -> isdigit c = false -> digits a (ds ++ c :: rest) = dec_value a ds.
Proof.
  induction ds as [|b ds IH]; intros a Hd Hc; cbn [app digits]; [by rewrite Hc|].
  apply Forall_cons in Hd as [-> Hd]. by apply IH.
Qed.

Lemma show_dec_uri n :
  0 <= n -> exists b ds, show_dec n = b :: ds /\ Forall (fun b => isdigit b = true) (b :: ds) /\
    forall c rest, isdigit c = false -> digits 0 ((b :: ds) ++ c :: rest) = n.
Proof.
  intros Hn. destruct (show_dec_spec n Hn) as (Hne & Hd & Hv). destruct (show_dec n) as [|b ds]; [done|].
  assert (Hf : Forall (fun b => isdigit b = true) (b :: ds)).
  { apply Forall_forall. rewrite forallb_forall in Hd. intros x Hx. apply Hd. by apply list_elem_of_In. }
  exists b, ds. split; [done|]. split; [done|]. intros c rest Hc. by rewrite digits_until.
Qed.

Lemma atoi_show n tail : 0 <= n < 2 ^ 31 -> atoi (show_dec n ++ slash :: tail) = n.
Proof.
  intros Hn. destruct (show_dec_uri n ltac:(lia)) as (b & ds & -> & Hd & Hv).
  assert (Hb : isdigit b = true) by by apply Forall_cons in Hd as [? _].
  unfold atoi, strtol. unfold isdigit, between in Hb. cbn [app skip_spaces].
  assert (isspace b = false) as -> by (unfold isspace, between; lia).
  assert ((ub b =? 45) = false) as -> by lia. assert ((ub b =? 43) = false) as -> by lia.
  change (b :: ds ++ slash :: tail) with ((b :: ds) ++ slash :: tail). rewrite Hv by done.
  rewrite Z.min_r by lia. apply swrap_small; [lia|]. unfold in_s. lia.
Qed.

(** ** The whole *)

(** A URI whose parts the grammar allows without escapes. *)
Record uri_wf (u : Uri) : Prop := mkUriWf {
  wf_scheme : match m_scheme u with
    | [] => False
    | b :: xs => alpha b = true /\ Forall (fun b => scheme_char b = true) xs
    end;
  wf_userinfo : Forall (fun b => name_char b = true) (m_userinfo u);
  wf_host : m_host u <> [] /\ Forall (fun b => name_char b = true) (m_host u);
  wf_path : match m_path u with [] => True | b :: xs => b = slash /\ Forall (fun b => path_char b = true) xs end;
  wf_query : Forall (fun b => query_char b = true) (m_query u);
  wf_fragment : Forall (fun b => query_char b = true) (m_fragment u);
  wf_port : 0 <= m_port u < 2 ^ 31
}.

(** What toString keeps of a URI: a default port is not written, an empty path is
    a slash. *)
Definition written (u : Uri) : Uri := setPort (if isDefaultPort u then 0 else m_port u) (setPath (getPath u) u).

Definition port_text (u : Uri) : bytes := if isDefaultPort u then [] else show_dec (m_port u).

Lemma port_text_digits u : uri_wf u -> Forall (fun b => isdigit b = true) (port_text u).
Proof.
  intros W. unfold port_text. destruct (isDefaultPort u); [by constructor|].
  destruct (show_dec_uri (m_port u)) as (b & ds & -> & Hd & _); [apply W|done].
Qed.

Lemma port_set_written u v tail :
  uri_wf u -> m_port v = 0 -> port_set (port_text u) tail v = setPort (if isDefaultPort u then 0 else m_port u) v.
Proof.
  intros W Hv. unfold port_text. destruct (isDefaultPort u).
  - destruct v. cbn in *. by subst.
  - unfold port_set. pose proof (atoi_show (m_port u) tail (wf_port u W)) as Ha.
    destruct (show_dec_uri (m_port u)) as (b & ds & Es & _); [apply W|]. rewrite Es in *. by rewrite Ha.
Qed.

Lemma toString_parts u :
  uri_wf u -> exists xs, getPath u = slash :: xs /\ Forall (fun b => path_char b = true) xs /\
    toString u = m_scheme u ++ [colon; slash; slash] ++ user_part (m_userinfo u) ++ m_host u ++
      with_mark colon (port_text u) ++ (slash :: xs) ++ with_mark question (m_query u) ++
      with_mark number_sign (m_fragment u).
Proof.
  intros W. assert (exists xs, getPath u = slash :: xs /\ Forall (fun b => path_char b = true) xs) as (xs & Ep & Hx).
  { unfold getPath. pose proof (wf_path u W) as Hp. destruct (m_path u) as [|b xs]; [by exists []|].
    destruct Hp as [-> Hx]. by exists xs. }
  exists xs. split; [done|]. split; [done|]. unfold toString, dump. rewrite Ep.
  assert (E1 : m_userinfo u ++ (match m_userinfo u with [] => [] | _ => bs "@" end) = user_part (m_userinfo u))
    by (by destruct (m_userinfo u)).
  assert (E2 : (if isDefaultPort u then [] else bs ":" ++ to_string (m_port u)) = with_mark colon (port_text u)).
  { unfold port_text. destruct (isDefaultPort u); [done|]. unfold to_string.
    pose proof (wf_port u W). destruct (Z.ltb_spec (m_port u) 0); [lia|].
    by destruct (show_dec_uri (m_port u)) as (b & ds & -> & _); [lia|]. }
  assert (E3 : forall x, (match x with [] => [] | _ => bs "?" end) ++ x = with_mark question x) by (by intros []).
  assert (E4 : forall x, (match x with [] => [] | _ => bs "#" end) ++ x = with_mark number_sign x) by (by intros []).
  rewrite E2. rewrite (app_assoc (m_userinfo u)), E1. rewrite E4.
  by rewrite (app_assoc (match m_query u with [] => [] | _ => bs "?" end)), E3.
Qed.

(** C18: Uri::Create reads back what toString writes: for every URI with a scheme,
    a host and parts of the grammar's characters (without escapes and without a
    colon in the user info), with or without user info, port, query and
    fragment, the string is accepted and gives the same URI, a default port and
    an empty path being replaced by what getPort and getPath return for them. *)
Theorem uri_roundtrip u :
  uri_wf u -> exists s, Create (toString u) = Ret (Some (written u)) s /\
    getPort (written u) = getPort u /\ getPath (written u) = getPath u.
Proof.
  intros W. destruct (toString_parts u W) as (xs & Ep & Hx & Es). set (B := toString u) in *.
  pose proof (wf_scheme u W) as Hsc. destruct (m_scheme u) as [|sb sx] eqn:Esc; [done|]. destruct Hsc as [Hb Hsx].
  destruct (wf_host u W) as [Hne Hh]. destruct (m_host u) as [|hb hx] eqn:Eh; [done|]. clear Hne.
  set (tail := xs ++ with_mark question (m_query u) ++ with_mark number_sign (m_fragment u)).
  set (auth := user_part (m_userinfo u) ++ (hb :: hx) ++ with_mark colon (port_text u) ++ slash :: tail) in *.
  assert (E1 : B = (sb :: sx) ++ colon :: slash :: slash :: auth) by exact Es.
  set (pre := (sb :: sx) ++ [colon; slash; slash]).
  assert (E2 : B = pre ++ auth) by (by rewrite E1; unfold pre; rewrite <- app_assoc).
  pose proof (scheme_end B sb sx auth E1 Hb Hsx) as R1. fold pre in R1. set (u0 := setScheme (sb :: sx) Uri_new) in *.
  pose proof (authority_end B pre (m_userinfo u) hb hx (port_text u) tail u0 E2 eq_refl (wf_userinfo u W) Hh
    (port_text_digits u W)) as R2.
  set (pre2 := pre ++ user_part (m_userinfo u) ++ (hb :: hx) ++ with_mark colon (port_text u)) in *.
  assert (E3 : B = pre2 ++ (slash :: xs) ++ with_mark question (m_query u) ++ with_mark number_sign (m_fragment u)).
  { rewrite E2. unfold pre2, auth, tail. by rewrite <- !app_assoc. }
  set (u1 := port_set (port_text u) tail (setHost (hb :: hx) (setUserinfo (m_userinfo u) u0))) in *.
  assert (Eu1 : u1 = setPort (if isDefaultPort u then 0 else m_port u) (setHost (hb :: hx) (setUserinfo (m_userinfo u) u0)))
    by (by apply port_set_written).
  destruct (uri_path_end B pre2 xs (m_query u) (m_fragment u) u1 E3) as (cs & s' & Hcs & R3 & Hu);
    [by rewrite Eu1|by rewrite Eu1|exact Hx|apply W|apply W|].
  exists s'. split; [|split].
  - assert (Ex : exec B (mkParse Uri_new None) = Ret cs s').
    { rewrite <- R3. unfold exec. apply (bind_eq _ _ _ _ (finish B)). fold auth in R2.
      transitivity (exec_loop goto_case trans (run_action B) 452 0 ((sb :: sx) ++ colon :: slash :: slash :: auth) 451
        (mkParse Uri_new None)); [|by rewrite R1].
      exact (f_equal (fun l => exec_loop goto_case trans (run_action B) 452 0 l 451 (mkParse Uri_new None)) E1). }
    unfold Create. step_with Ex. step_with (eq_refl : get s' = Ret s' s').
    destruct (Z.eqb_spec cs uri_parser_error) as [He|]; [unfold uri_parser_error in He; lia|].
    rewrite (proj2 (Z.leb_le uri_parser_first_final cs)) by exact Hcs. unfold mret, M_ret. do 2 f_equal.
    rewrite Hu, Eu1, <- Ep. unfold written, u0. rewrite <- Esc, <- Eh. by destruct u.
  - unfold getPort, written. cbn [m_port m_scheme setPort setPath]. pose proof (wf_port u W) as Hp.
    unfold isDefaultPort. destruct (Z.eqb_spec (m_port u) 0) as [-> |Hn]; [done|].
    assert (i32 (m_port u) = m_port u) as Hi by (apply swrap_small; [lia|unfold in_s; lia]).
    case_bool_decide; [destruct (Z.eqb_spec (m_port u) 80) as [-> |]; [done|]|
      case_bool_decide; [destruct (Z.eqb_spec (m_port u) 443) as [-> |]; [done|]|]];
      rewrite Hi; by destruct (Z.eqb_spec (m_port u) 0).
  - unfold written, getPath. cbn [m_path setPort setPath]. by destruct (m_path u).
Qed.

Definition demo_uri : Uri :=
  mkUri (bs "ws") (bs "me") (bs "example.org") (bs "/chat") (bs "room=1") (bs "top") 8080.

Lemma demo_uri_wf : uri_wf demo_uri.
Proof. constructor; cbn; repeat split; try (repeat constructor); try lia; done. Qed.

Lemma uri_roundtrip_witness :
  uri_wf demo_uri /\ toString demo_uri = bs "ws://me@example.org:8080/chat?room=1#top" /\
  exists s, Create (toString demo_uri) = Ret (Some (written demo_uri)) s /\
    getPort (written demo_uri) = getPort demo_uri /\ getPath (written demo_uri) = getPath demo_uri.
Proof.
  split; [apply demo_uri_wf|]. split; [vm_compute; reflexivity|]. apply (uri_roundtrip demo_uri demo_uri_wf).
Defined.
