(* ===== verification/HttpConnection.v ===== *)
(** linko/http/http_connection.{h,cc}: the client's end of a connection, and the
    pool of connections to one host. *)
From S2P Require Import Prelude.
From stdpp Require Import gmap.
From S2P Require Import Endian ByteArray Address Http HttpParser HttpClient Socket Stream HttpSession Uri.
Import HttpParser.Response Http.Response.
Open Scope Z_scope.

(** What the client asks the system: the clock, names, the last error. *)
Class ClientApi (N : Type) := {
  GetCurrentMS : N -> Z;
  getaddrinfo : N -> resolver;
  errno : N -> Z;
  strerror : Z -> bytes
}.

(** ** HttpResult *)

Definition result_OK : Z := 0.
Definition INVALID_URL : Z := 1.
Definition INVALID_HOST : Z := 2.
Definition CONNECT_FAIL : Z := 3.
Definition SEND_CLOSE_BY_PEER : Z := 4.
Definition SEND_SOCKET_ERROR : Z := 5.
Definition TIMEOUT : Z := 6.
Definition CREATE_SOCKET_ERROR : Z := 7.
Definition POOL_GET_CONNECTION_FAIL : Z := 8.
Definition POOL_INVALIDE_CONNECTION : Z := 9.

Record HttpResult := mkResult { result : Z; response : option HttpResponse; error : bytes }.
Definition HttpResult_toString (r : HttpResult) : bytes :=
  bs "[HttpResult result=" ++ Uri.to_string (result r) ++ bs " error=" ++ error r ++ bs " response="
  ++ (match response r with Some rsp => Http.Response.toString rsp | None => bs "nullptr" end) ++ bs "]".

(** ** Receiving a response *)

Section connection.
Context {un : Uninit} {N : Type} `{SocketApi N} {env : HttpEnv}.
Abbreviation ST := (M (SocketStream * N)).

(** [data[len] = '\0']. *)
Definition put_nul (len : Z) (data : bytes) : ST bytes :=
  if (len <? 0) || (zlen data <=? len) then crash_with OutOfBounds else mret (<[Z.to_nat len := bz 0]> data).

(** One call of [execute] on the first [len] bytes, which a NUL follows: the
    array and [len] without the parsed bytes; [None] when the session was closed. *)
Definition parse_step (buff_size : Z) (parser : HttpResponseParser) (data : bytes) (len : Z) (chunck : bool)
    : ST (option (HttpResponseParser * bytes * Z)) :=
  data ← put_nul len data;
  '((nparse, moved), parser) ← on_local (execute (ztake len data) (bz 0) chunck) parser;
  let data := moved ++ zdrop len data in
  if hasError parser then Stream.close;; mret None else
  let len := i32 (u64 (len - nparse)) in
  if len =? i32 buff_size then Stream.close;; mret None else mret (Some (parser, data, len)).

(** The loops that read until the parser is finished: the head, then the head of
    each chunk. *)
Fixpoint recv_until (fuel : nat) (chunck : bool) (buff_size : Z) (parser : HttpResponseParser) (data : bytes) (offset : Z)
    : ST (option (HttpResponseParser * bytes * Z)) :=
  match fuel with
  | O => crash_with OutOfFuel
  | S fuel =>
    '(rt, data) ← read_at data offset (buff_size - offset);
    if rt <=? 0 then Stream.close;; mret None else
    r ← parse_step buff_size parser data (offset + rt) chunck;
    match r with
    | None => mret None
    | Some (parser, data, offset) =>
      if negb (isFinished parser =? 0) then mret (Some (parser, data, offset))
      else recv_until fuel chunck buff_size parser data offset
    end
  end.

(** The loop that reads the rest of a chunk. *)
Fixpoint recv_left (fuel : nat) (buff_size : Z) (body data : bytes) (left_ : Z) : ST (option (bytes * bytes)) :=
  match fuel with
  | O => crash_with OutOfFuel
  | S fuel =>
    if 0 <? left_ then
      '(rt, data) ← read_at data 0 (if i32 buff_size <? left_ then buff_size else left_);
      if rt <=? 0 then Stream.close;; mret None else
      body ← str_append body data rt;
      recv_left fuel buff_size body data (left_ - rt)
    else mret (Some (body, data))
  end.

(** The loop over the chunks. *)
Fixpoint recv_chunks (fuel : nat) (buff_size : Z) (parser : HttpResponseParser) (data : bytes) (len : Z) (body : bytes)
    : ST (option (HttpResponseParser * bytes)) :=
  match fuel with
  | O => crash_with OutOfFuel
  | S fuel =>
    r ← recv_until fuel true buff_size parser data len;
    match r with
    | None => mret None
    | Some (parser, data, len) =>
      let len := len - 2 in
      let content_len := HttpClient.content_len (m_parser parser) in
      r ← (if content_len <=? len then
             body ← str_append body data (u64 content_len);
             mret (Some (body, overwrite 0 (slice content_len (len - content_len) data) data, len - content_len))
           else
             body ← str_append body data (u64 len);
             r ← recv_left fuel buff_size body data (content_len - len);
             mret (option_map (fun bd => (bd, 0)) r));
      match r with
      | None => mret None
      | Some (body, data, len) =>
        if HttpClient.chunks_done (m_parser parser) =? 0 then recv_chunks fuel buff_size parser data len body
        else mret (Some (parser, body))
      end
    end
  end.

Definition recvResponse (fuel : nat) : ST (option HttpResponse) :=
  let parser := HttpResponseParser_new raw_client_parser in
  let buff_size := GetHttpResponseBufferSize env_sizes in
  r ← recv_until fuel false buff_size parser (new_chars buff_size) 0;
  match r with
  | None => mret None
  | Some (parser, data, offset) =>
    if negb (HttpClient.chunked (m_parser parser) =? 0) then
      r ← recv_chunks fuel buff_size parser data offset [];
      mret (match r with Some (parser, body) => Some (setBody body (getData parser)) | None => None end)
    else
      let length := i64 (getContentLength lexical_cast parser) in
      body ← (if 0 <? length then recv_body fuel data offset length else mret (Some (m_body (getData parser))));
      mret (match body with Some body => Some (setBody body (getData parser)) | None => None end)
  end.

Definition sendRequest (fuel : nat) (req : HttpRequest) : ST Z := send_text fuel (Http.dump req).
End connection.

(** ** Requests *)

Definition is_text (lit : bytes) (s : bytes) : bool := strcasecmp (c_str s) lit =? 0.

(** The loop over the headers the caller passes: the request, and whether it has
    a host.  A connection header is not copied, it only sets the flag. *)
Fixpoint add_headers (headers : list (bytes * bytes)) (has_host : bool) (req : HttpRequest) : bool * HttpRequest :=
  match headers with
  | [] => (has_host, req)
  | (k, v) :: headers =>
    if is_text (bs "connection") k then
      add_headers headers has_host (if is_text (bs "keep-alive") v then Http.setClose false req else req)
    else
      let has_host := if negb has_host && is_text (bs "host") k then negb (bool_decide (v = [])) else has_host in
      add_headers headers has_host (Http.setHeader k v req)
  end.

Section requests.
Context {env : HttpEnv}.
(** The request DoRequest makes for a URI. *)
Definition uri_request (method : HttpMethod) (uri : Uri) (headers : list (bytes * bytes)) (body : bytes) : HttpRequest :=
  let req := HttpRequest_new raw_status 0x11 true in
  let req := Http.setMethod method (Http.setFragment (m_fragment uri) (Http.setQuery (m_query uri) (Http.setPath (getPath uri) req))) in
  let '(has_host, req) := add_headers headers false req in
  let req := if has_host then req else Http.setHeader (bs "Host") (m_host uri) req in
  Http.setBody body req.
(** The request the pool makes for a path. *)
Definition pool_request (host vhost : bytes) (method : HttpMethod) (url : bytes) (headers : list (bytes * bytes)) (body : bytes) : HttpRequest :=
  let req := Http.setClose false (Http.setMethod method (Http.setPath url (HttpRequest_new raw_status 0x11 true))) in
  let '(has_host, req) := add_headers headers false req in
  let req := if has_host then req
             else if bool_decide (vhost = []) then Http.setHeader (bs "Host") host req
             else Http.setHeader (bs "Host") vhost req in
  Http.setBody body req.
End requests.

Section requests.
Context {un : Uninit} {host : Host} {N : Type} `{SocketApi N} `{ClientApi N} {env : HttpEnv}.
Abbreviation ST := (M (SocketStream * N)).

Definition ask_outside {S A} (f : N -> A) : M (S * N) A := s ← get; mret (f s.2).

(** Uri::createAddress. *)
Definition createAddress (n : N) (u : Uri) : option Address :=
  match LookupAnyIPAddress (getaddrinfo n) (m_host u) AF_INET 0 0 with
  | Some addr => Some (Address.setPort (getPort u) addr)
  | None => None
  end.

(** [std::to_string(errno)] and [strerror(errno)] in a message. *)
Definition errno_text {S} : M (S * N) bytes :=
  e ← ask_outside errno;
  mret (bs "errno=" ++ Uri.to_string e ++ bs " errstr=" ++ strerror e).

(** Sending the request and receiving the response on a connected socket;
    [peer] is the address the messages name. *)
Definition exchange_on (fuel : nat) (req : HttpRequest) (timeout_ms : Z) (peer : ST Address) : ST HttpResult :=
  on_socket (Socket.setRecvTimeout timeout_ms);;
  rt ← sendRequest fuel req;
  if rt =? 0 then
    a ← peer; text ← Address.toString a;
    mret (mkResult SEND_CLOSE_BY_PEER None (bs "send request closed by peer: " ++ text))
  else if rt <? 0 then
    text ← errno_text;
    mret (mkResult SEND_SOCKET_ERROR None (bs "send request socket error " ++ text))
  else
    rsp ← recvResponse fuel;
    match rsp with
    | None =>
      a ← peer; text ← Address.toString a;
      mret (mkResult TIMEOUT None (bs "recv response timeout: " ++ text ++ bs " timeout_ms:" ++ show_dec timeout_ms))
    | Some rsp => mret (mkResult result_OK (Some rsp) (bs "ok"))
    end.

Definition DoRequest_req (fuel : nat) (req : HttpRequest) (uri : Uri) (timeout_ms : Z) : M N HttpResult :=
  n ← get;
  match createAddress n uri with
  | None => mret (mkResult INVALID_HOST None (bs "invalide host: " ++ m_host uri))
  | Some addr =>
    with_session (CreateTCP addr) (
      ok ← on_socket (connect addr (u64 (-1)));
      if (ok : bool) then exchange_on fuel req timeout_ms (mret addr)
      else text ← Address.toString addr; mret (mkResult CONNECT_FAIL None (bs "connect fail: " ++ text)))
  end.
Definition DoRequest (fuel : nat) (method : HttpMethod) (uri : Uri) (timeout_ms : Z) (headers : list (bytes * bytes)) (body : bytes) : M N HttpResult :=
  DoRequest_req fuel (uri_request method uri headers body) uri timeout_ms.

(** Uri::Create of a string the caller passes. *)
Definition create_uri (url : bytes) : M N (option Uri) := fun n =>
  match Uri.Create url with
  | Ret u _ => Ret u n
  | Throw e _ => Throw e n
  | Crash c => Crash c
  end.
(** The forms that take a string; [what] begins the message. *)
Definition do_url (what : string) (fuel : nat) (method : HttpMethod) (url : bytes) (timeout_ms : Z) (headers : list (bytes * bytes)) (body : bytes) : M N HttpResult :=
  uri ← create_uri url;
  match uri with
  | None => mret (mkResult INVALID_URL None (bs what ++ url))
  | Some uri => DoRequest fuel method uri timeout_ms headers body
  end.
Definition DoRequest_url := do_url "invalide url: ".
Definition DoGet_url (fuel : nat) := do_url "invalide url:" fuel GET.
Definition DoPost_url (fuel : nat) := do_url "invalide url: " fuel POST.
Definition DoGet (fuel : nat) := DoRequest fuel GET.
Definition DoPost (fuel : nat) := DoRequest fuel POST.

(** ** The pool *)

Record HttpConnection := mkConnection { c_stream : SocketStream; m_createTime : Z; m_request : Z }.

(** Connections are objects the pool and its users point to. *)
Record Pool := mkPool {
  p_host : bytes;
  p_vhost : bytes;
  p_port : Z;
  p_maxSize : Z;
  p_maxAliveTime : Z;
  p_maxRequest : Z;
  p_heap : gmap nat HttpConnection;
  p_next : nat;
  p_conns : list nat;
  p_total : Z
}.
Definition HttpConnectionPool_new (host_ vhost : bytes) (port max_size max_alive_time max_request : Z) : Pool :=
  mkPool host_ vhost (u32 port) (u32 max_size) (u32 max_alive_time) (u32 max_request) ∅ 0 [] 0.
Definition set_pool (h : gmap nat HttpConnection) (nx : nat) (l : list nat) (t : Z) (p : Pool) : Pool :=
  mkPool (p_host p) (p_vhost p) (p_port p) (p_maxSize p) (p_maxAliveTime p) (p_maxRequest p) h nx l t.
Definition set_heap (h : gmap nat HttpConnection) (p : Pool) : Pool := set_pool h (p_next p) (p_conns p) (p_total p) p.
Definition set_conns (l : list nat) (p : Pool) : Pool := set_pool (p_heap p) (p_next p) l (p_total p) p.
(** [m_total += d]. *)
Definition add_total (d : Z) (p : Pool) : Pool := set_pool (p_heap p) (p_next p) (p_conns p) (i32 (p_total p + d)) p.

Abbreviation PM := (M (Pool * N)).
Definition pool : PM Pool := s ← get; mret s.1.
Definition on_pool (f : Pool -> Pool) : PM unit := modify (fun s => (f s.1, s.2)).

(** A method of a connection. *)
Definition on_conn {A} (i : nat) (m : ST A) : PM A := fun st =>
  match p_heap st.1 !! i with
  | None => Crash NullDeref
  | Some c =>
    match m (c_stream c, st.2) with
    | Ret a (t, n) => Ret a (set_heap (<[i := mkConnection t (m_createTime c) (m_request c)]> (p_heap st.1)) st.1, n)
    | Throw e (t, n) => Throw e (set_heap (<[i := mkConnection t (m_createTime c) (m_request c)]> (p_heap st.1)) st.1, n)
    | Crash c => Crash c
    end
  end.
(** [delete ptr]. *)
Definition delete_conn (i : nat) : PM unit :=
  on_conn i SocketStream_delete;; on_pool (fun p => set_heap (delete i (p_heap p)) p).
Fixpoint delete_conns (l : list nat) : PM unit :=
  match l with [] => mret tt | i :: l => delete_conn i;; delete_conns l end.

(** The loop under the lock: the connection found, the invalid ones before it,
    and what is left in the list. *)
Fixpoint scan (h : gmap nat HttpConnection) (max_alive now : Z) (conns : list nat) : option (option nat * list nat * list nat) :=
  match conns with
  | [] => Some (None, [], [])
  | i :: conns =>
    match h !! i with
    | None => None
    | Some c =>
      if negb (Stream.isConnected (c_stream c)) || (u64 (m_createTime c + max_alive) <? now) then
        match scan h max_alive now conns with
        | Some (ptr, invalid, rest) => Some (ptr, i :: invalid, rest)
        | None => None
        end
      else Some (Some i, [], conns)
    end
  end.
Definition take_conn (now : Z) : PM (option nat * list nat) :=
  p ← pool;
  match scan (p_heap p) (p_maxAliveTime p) now (p_conns p) with
  | None => crash_with NullDeref
  | Some (ptr, invalid, rest) => on_pool (set_conns rest);; mret (ptr, invalid)
  end.
(** The invalid ones are deleted and subtracted. *)
Definition discard (invalid : list nat) : PM unit :=
  delete_conns invalid;; on_pool (add_total (- Z.of_nat (length invalid))).
(** A new connection. *)
Definition open_conn : PM (option nat) := fun st =>
  match LookupAnyIPAddress (getaddrinfo st.2) (p_host st.1) AF_INET 0 0 with
  | None => Ret None st
  | Some addr =>
    let addr := Address.setPort (p_port st.1) addr in
    match connect addr (u64 (-1)) (CreateTCP addr, st.2) with
    | Ret true (sock, n) =>
      let p := st.1 in
      let c := mkConnection (SocketStream_new (Some sock) true) (GetCurrentMS n) 0 in
      Ret (Some (p_next p)) (add_total 1 (set_pool (<[p_next p := c]> (p_heap p)) (S (p_next p)) (p_conns p) (p_total p) p), n)
    | Ret false st' =>
      match Socket_delete st' with
      | Ret _ (_, n) => Ret None (st.1, n)
      | Throw e (_, n) => Throw e (st.1, n)
      | Crash c => Crash c
      end
    | Throw e (_, n) => Throw e (st.1, n)
    | Crash c => Crash c
    end
  end.
Definition getConnection : PM (option nat) :=
  now ← ask_outside GetCurrentMS;
  '(ptr, invalid) ← take_conn now;
  discard invalid;;
  match ptr with
  | Some i => mret (Some i)
  | None => open_conn
  end.

(** What the deleter of the pointer getConnection returns does. *)
Definition ReleasePtr (i : nat) : PM unit :=
  p ← pool;
  match p_heap p !! i with
  | None => crash_with NullDeref
  | Some c =>
    let c := mkConnection (c_stream c) (m_createTime c) (u64 (m_request c + 1)) in
    on_pool (fun p => set_heap (<[i := c]> (p_heap p)) p);;
    now ← ask_outside GetCurrentMS;
    if negb (Stream.isConnected (c_stream c)) || (u64 (m_createTime c + p_maxAliveTime p) <=? now) || (p_maxRequest p <=? m_request c) then
      delete_conn i;; on_pool (add_total (-1))
    else on_pool (fun p => set_conns (p_conns p ++ [i]) p)
  end.

Definition pool_where {S} (p : Pool) : M S bytes := mret (bs "pool host: " ++ p_host p ++ bs " port:" ++ show_dec (p_port p)).
(** [conn] goes out of scope at the end of the function. *)
Definition releasing {A} (i : nat) (m : PM A) : PM A := fun st =>
  match m st with
  | Ret r st => match ReleasePtr i st with Ret _ st => Ret r st | Throw e st => Throw e st | Crash c => Crash c end
  | Throw e st => match ReleasePtr i st with Ret _ st | Throw _ st => Throw e st | Crash c => Crash c end
  | Crash c => Crash c
  end.
Definition has_socket (i : nat) (p : Pool) : bool :=
  match p_heap p !! i with Some c => match Stream.m_socket (c_stream c) with Some _ => true | None => false end | None => false end.
Definition pool_doRequest_req (fuel : nat) (req : HttpRequest) (timeout_ms : Z) : PM HttpResult :=
  conn ← getConnection;
  p ← pool;
  match conn with
  | None => text ← pool_where p; mret (mkResult POOL_GET_CONNECTION_FAIL None text)
  | Some i =>
    releasing i (
      if has_socket i p then on_conn i (exchange_on fuel req timeout_ms (on_socket getRemoteAddress))
      else text ← pool_where p; mret (mkResult POOL_INVALIDE_CONNECTION None text))
  end.
Definition pool_doRequest (fuel : nat) (method : HttpMethod) (url : bytes) (timeout_ms : Z) (headers : list (bytes * bytes)) (body : bytes) : PM HttpResult :=
  p ← pool; pool_doRequest_req fuel (pool_request (p_host p) (p_vhost p) method url headers body) timeout_ms.
(** The text of path, query and fragment. *)
Definition uri_text (u : Uri) : bytes :=
  getPath u ++ (match m_query u with [] => [] | _ => bs "?" end) ++ m_query u
  ++ (match m_fragment u with [] => [] | _ => bs "#" end) ++ m_fragment u.
Definition pool_doRequest_uri (fuel : nat) (method : HttpMethod) (uri : Uri) := pool_doRequest fuel method (uri_text uri).
Definition pool_doGet (fuel : nat) := pool_doRequest fuel GET.
Definition pool_doPost (fuel : nat) := pool_doRequest fuel POST.
Definition pool_doGet_uri (fuel : nat) (uri : Uri) := pool_doGet fuel (uri_text uri).
Definition pool_doPost_uri (fuel : nat) (uri : Uri) := pool_doPost fuel (uri_text uri).
End requests.
