(* ===== verification/HttpReceive.v ===== *)
(** Receiving responses: how the parser reads the head of a chunk, what
    recvResponse makes of chunks, and of what the program's own server sends. *)
From S2P Require Import Prelude Endian ByteArray Ragel Http HttpThms HttpClientMachine HttpClient HttpParser Http11Safe HttpRoundtrip HttpLimits.
From S2P Require Import Address Socket Stream StreamThms HttpSession HttpSessionThms HttpConnection.
Import HttpParser.Response Http.Response.
Open Scope Z_scope.

(** ** The size of a chunk *)

(** The text of a chunk size: hexadecimal digits with the value [n]. *)
Definition hex_text (h : bytes) (n : Z) : Prop :=
  h <> [] /\ forallb xdigit h = true /\ digits 16 0 h = n.

Lemma digit_of_xdigit b : xdigit b = true -> exists d, digit_of 16 (ub b) = Some d /\ 0 <= d < 16.
Proof.
  assert (H : forall b, implb (xdigit b) (match digit_of 16 (ub b) with Some d => (0 <=? d) && (d <? 16) | None => false end) = true)
    by (apply forall_bytes; vm_compute; reflexivity).
  intros Hb. specialize (H b). rewrite Hb in H. cbn [implb] in H. destruct (digit_of 16 (ub b)) as [d|]; [|done]. exists d. split; [done|lia].
Qed.
Lemma xdigit_plain b : xdigit b = true -> isspace (ub b) = false /\ ub b <> 45 /\ ub b <> 43 /\ ub b <> 120 /\ ub b <> 88.
Proof.
  assert (H : forall b, implb (xdigit b) (negb (isspace (ub b)) && negb (ub b =? 45) && negb (ub b =? 43) && negb (ub b =? 120) && negb (ub b =? 88)) = true)
    by (apply forall_bytes; vm_compute; reflexivity).
  intros Hb. specialize (H b). rewrite Hb in H. cbn [implb] in H. rewrite !andb_true_iff, !negb_true_iff, !Z.eqb_neq in H. naive_solver.
Qed.

Lemma digits_hex h c rest : digit_of 16 (ub c) = None -> forallb xdigit h = true ->
  forall acc, digits 16 acc (h ++ c :: rest) = digits 16 acc h.
Proof.
  intros Hc. induction h as [|b h IH]; intros Hh acc; cbn [app digits]; [by rewrite Hc|].
  cbn [forallb] in Hh. apply andb_prop in Hh as [Hb Hh]. destruct (digit_of_xdigit b Hb) as (d & -> & _). by apply IH.
Qed.

Lemma strtol_hex h n rest : hex_text h n -> n < 2 ^ 63 -> strtol (h ++ crlf ++ rest) 16 = n.
Proof.
  intros (Hne & Hh & Hv) Hn. destruct h as [|b h]; [done|]. pose proof Hh as Hh0. cbn [forallb] in Hh. apply andb_prop in Hh as [Hb Hh].
  destruct (xdigit_plain b Hb) as (H1 & H2 & H3 & _ & _). unfold strtol. cbn [app skip_space]. rewrite H1.
  destruct (Z.eqb_spec (ub b) 45); [done|]. destruct (Z.eqb_spec (ub b) 43); [done|].
  assert (E : skip_0x 16 (b :: h ++ crlf ++ rest) = (b :: h) ++ bz 13 :: bz 10 :: rest).
  { destruct h as [|x h]; [cbn; by rewrite andb_false_r|]. cbn [forallb] in Hh. apply andb_prop in Hh as [Hx _].
    destruct (xdigit_plain x Hx) as (_ & _ & _ & X1 & X2). cbn [app skip_0x].
    destruct (Z.eqb_spec (ub x) 120); [done|]. destruct (Z.eqb_spec (ub x) 88); [done|]. rewrite andb_false_r.
    by destruct h. }
  rewrite E, (digits_hex (b :: h) (bz 13) _ eq_refl Hh0), Hv. lia.
Qed.

(** ** The machine on the head of a chunk *)

Lemma class_hex_first : class_target goto_case xdigit 1 (tr 0) = true. Proof. vm_compute. reflexivity. Qed.
Lemma class_hex_loop : class_target goto_case xdigit 2 (st 2) = true. Proof. vm_compute. reflexivity. Qed.

Lemma chunk_exec h n rest q d :
  hex_text h n -> in_s 32 n ->
  exists q', HttpClient.exec response_callbacks (h ++ crlf ++ rest) 0 (h ++ crlf ++ rest) 1 (set_mark 0 q, d) = Ret (zlen h + 2, 120) (q', d) /\
    content_len q' = n /\ chunks_done q' = (if n <=? 0 then 1 else 0) /\ body_start q' = u64 (zlen h + 2) /\
    mark q' = 0 /\ field_len q' = field_len q /\ field_start q' = field_start q /\ nread q' = nread q.
Proof.
  intros Hex Hn. pose proof Hex as (Hne & Hh & _). set (buffer := h ++ crlf ++ rest).
  assert (Hs : strtol buffer 16 = n) by (apply strtol_hex; [done|unfold in_s in Hn; lia]).
  destruct h as [|b h]; [done|]. cbn [forallb] in Hh. apply andb_prop in Hh as [Hb Hh].
  unfold HttpClient.exec. unfold buffer at 2. cbn [app].
  rewrite (exec_tr goto_case trans _ _ 0 b _ 1 0 [A_mark] 2 _ (set_mark 0 q, d));
    [|by apply (class_target_at goto_case xdigit); [apply class_hex_first|]|done|done|done].
  rewrite (exec_quiet goto_case trans _ _ h _ _ 2 2) by (apply quiet_loop; [done|]; intros c Hc;
    apply (class_target_at goto_case xdigit); [apply class_hex_loop|]; rewrite forallb_forall in Hh; by apply Hh, list_elem_of_In).
  change (crlf ++ rest) with (bz 13 :: bz 10 :: rest). set (p := 0 + 1 + zlen h).
  set (q1 := set_chunks_done (if n <=? 0 then 1 else 0) (set_content_len n (set_chunked 1 (set_mark 0 q)))).
  assert (Ha : run_actions (HttpClient.run_action response_callbacks buffer) [A_chunk_size] p (set_mark 0 q, d) = Ret None (q1, d)).
  { unfold run_actions, HttpClient.run_action. unfold mbind, M_bind, get. cbn [fst set_mark mark]. rewrite zdrop_0, Hs.
    rewrite swrap_small by (done || lia). unfold q1. by destruct (n <=? 0). }
  rewrite (exec_tr goto_case trans _ _ p (bz 13) _ 2 4 [A_chunk_size] 3 _ (q1, d)); [|done..|exact Ha].
  rewrite (exec_out goto_case trans _ _ (p + 1) (bz 10) rest 3 7 [A_done 120] 120 120 _ (set_body_start (u64 (p + 1 + 1)) q1, d));
    [|done..].
  eexists. split; [f_equal; unfold p; rewrite zlen_cons; f_equal; lia|].
  unfold q1. cbn. split_and!; try done. f_equal. unfold p. rewrite zlen_cons. lia.
Qed.

(** One call of [execute]: the head is consumed, what follows it is moved to the
    front. *)
Lemma chunk_execute h n rest s :
  hex_text h n -> in_s 32 n -> let piece := h ++ crlf ++ rest in zlen piece < 2 ^ 31 ->
  exists moved q', execute piece (bz 0) true s = Ret (zlen h + 2, moved) (q', s.2) /\
    zlen moved = zlen piece /\ ztake (zlen rest) moved = rest /\
    content_len q' = n /\ chunks_done q' = (if n <=? 0 then 1 else 0) /\ cs q' = 120.
Proof.
  intros Hex Hn piece Hlen. destruct s as [q d]. cbn [snd]. pose proof (zlen_nonneg h). pose proof (zlen_nonneg rest).
  assert (Hz : zlen piece = zlen h + 2 + zlen rest) by (unfold piece; rewrite !zlen_app; change (zlen crlf) with 2; lia).
  set (q0 := httpclient_parser_init q).
  destruct (chunk_exec h n rest (set_field_start 0 (set_field_len (zlen piece) (set_nread 0 q0))) d Hex Hn)
    as (q1 & E & H1 & H2 & H3 & H4 & H5 & H6 & H7).
  fold piece in E. cbn [field_len field_start nread set_field_start set_field_len set_nread] in H5, H6, H7.
  set (q2 := set_nread (u64 (nread (set_cs 120 q1) + (zlen h + 2 - 0))) (set_cs 120 q1)).
  assert (Hu : u64 (zlen h + 2) = zlen h + 2) by (apply wrap_small; unfold in_u; lia).
  assert (Hnr : nread q2 = zlen h + 2).
  { unfold q2. cbn [nread set_nread set_cs]. rewrite H7. rewrite <- Hu at 2. f_equal. lia. }
  assert (Ee : httpclient_parser_execute response_callbacks piece (bz 0) 0 (q0, d) = Ret (zlen h + 2) (q2, d)).
  { unfold httpclient_parser_execute.
    step_with (eq_refl : on_parser _ (q0, d) = Ret tt (set_field_start 0 (set_field_len (zlen piece) (set_mark 0 (set_nread 0 q0))), d)).
    step_with (eq_refl : get _ = Ret _ _). cbv beta zeta.
    step_with (assert_run (0 <=? zlen piece) _ _ ltac:(lia)).
    step_with (assert_run (ub (bz 0) =? 0) _ _ eq_refl).
    rewrite !(swrap_small 32 (zlen piece)), (swrap_small 32 0) by (unfold in_s; lia).
    step_with (assert_run (zlen piece - 0 =? zlen piece - 0) _ _ ltac:(lia)).
    rewrite zdrop_0. cbn [fst]. step_with E. cbv beta iota.
    step_with (eq_refl : on_parser (set_cs 120) (q1, d) = Ret tt (set_cs 120 q1, d)).
    step_with (eq_refl : on_parser (fun q => set_nread (u64 (nread q + (zlen h + 2 - 0))) q) (set_cs 120 q1, d) = Ret tt (q2, d)).
    step_with (assert_run (zlen h + 2 <=? zlen piece) _ _ ltac:(lia)).
    step_with (eq_refl : get (q2, d) = Ret _ _). cbv beta zeta. cbn [fst]. rewrite Hnr.
    assert (Hb : body_start q2 = zlen h + 2) by (rewrite <- Hu; exact H3).
    assert (Hm : mark q2 = 0) by exact H4. assert (Hf : field_len q2 = zlen piece) by exact H5. assert (Hg : field_start q2 = 0) by exact H6.
    rewrite Hb, Hm, Hf, Hg.
    do 2 step_with (assert_run (zlen h + 2 <=? zlen piece) _ _ ltac:(lia)).
    destruct (Z.ltb_spec 0 (zlen piece)); [|lia]. destruct (Z.leb_spec (zlen piece) (zlen piece)); [|lia]. cbn [negb].
    unfold mret, M_ret. f_equal. apply swrap_small; [lia|unfold in_s; lia]. }
  destruct (memmove_front_spec (zlen h + 2) piece) as [Hm1 Hm2]; [lia|].
  exists (memmove_front (zlen h + 2) piece), q2. split_and!; try done.
  - unfold execute. step_with (eq_refl : on_parser httpclient_parser_init (q, d) = Ret tt (q0, d)). step_with Ee. cbv beta zeta.
    rewrite Hu. by destruct (Z.ltb_spec (zlen piece) (zlen h + 2)); [lia|].
  - replace (zlen rest) with (zlen piece - (zlen h + 2)) by lia. rewrite Hm2. unfold piece. rewrite app_assoc.
    rewrite zdrop_app_ge by (rewrite zlen_app; change (zlen crlf) with 2; lia).
    rewrite zlen_app. change (zlen crlf) with 2. by rewrite Z.sub_diag, zdrop_0.
Qed.

(** ** Receiving *)

Section client.
Context {un : Uninit} {N : Type} `{SocketApi N} {env : HttpEnv}.
Context (k : Socket) (Hk : m_isConnected k = true).
Let t := SocketStream_new (Some k) true.
Abbreviation B := (GetHttpResponseBufferSize env_sizes).
Context (HB : 0 < B < 2 ^ 31).

(** The array after one read at its front and the NUL behind it. *)
Lemma nul_behind (d data : bytes) (st : SocketStream * N) :
  zlen d < zlen data ->
  exists data', put_nul (zlen d) (overwrite 0 d data) st = Ret data' st /\ ztake (zlen d) data' = d /\ zlen data' = zlen data.
Proof.
  intros Hd. pose proof (zlen_nonneg d). destruct (overwrite_front d data ltac:(lia)) as [Hf Hz].
  unfold put_nul. rewrite Hz. destruct (Z.ltb_spec (zlen d) 0); [lia|]. destruct (Z.leb_spec (zlen data) (zlen d)); [lia|].
  eexists. split; [done|]. split.
  - etransitivity; [|exact Hf]. unfold ztake. by apply take_insert_ge.
  - unfold zlen. rewrite length_insert. exact Hz.
Qed.

(** The bytes of a chunk. *)
Definition chunk_wire (h d : bytes) : bytes := h ++ crlf ++ d ++ crlf.

(** The head of a chunk and what came with it. *)
Lemma recv_until_chunk fuel parser data h len rest (n n' : N) from :
  hex_text h len -> 0 <= len < 2 ^ 31 -> m_error parser.2 = 0 -> zlen data = B -> zlen (h ++ crlf ++ rest) < B ->
  sys_recv (m_sock k) B n = (Some (h ++ crlf ++ rest, from), n') ->
  exists q data', recv_until (S fuel) true B parser data 0 (t, n) = Ret (Some ((q, parser.2), data', zlen rest)) (t, n') /\
    ztake (zlen rest) data' = rest /\ zlen data' = B /\ HttpClient.content_len q = len /\
    HttpClient.chunks_done q = (if len <=? 0 then 1 else 0).
Proof.
  intros Hex Hn Herr Hdata Hle E. set (piece := h ++ crlf ++ rest) in *. pose proof (zlen_nonneg h). pose proof (zlen_nonneg rest).
  assert (Hz : zlen piece = zlen h + 2 + zlen rest) by (unfold piece; rewrite !zlen_app; change (zlen crlf) with 2; lia).
  destruct (chunk_execute h len rest parser Hex) as (moved & q & Ee & Hmz & Hm & Hc & Hd & Hcs); [unfold in_s; lia|fold piece; lia|].
  fold piece in Ee, Hmz. destruct (nul_behind piece data (t, n') ltac:(lia)) as (data1 & En & Ht & Hz1).
  exists q, (moved ++ zdrop (zlen piece) data1). split_and!; [| | |done|done].
  - cbn [recv_until]. step_with (read_at_front k true Hk data B n piece from n' HB Hdata ltac:(lia) E). cbv beta iota.
    destruct (Z.leb_spec (zlen piece) 0); [lia|].
    assert (Ep : parse_step B parser (overwrite 0 piece data) (0 + zlen piece) true (t, n')
      = Ret (Some ((q, parser.2), moved ++ zdrop (zlen piece) data1, zlen rest)) (t, n')).
    { unfold parse_step. rewrite Z.add_0_l. step_with En. rewrite Ht. step_with (on_local_run _ _ _ _ (t, n') Ee).
      unfold hasError, httpclient_parser_has_error, m_parser. cbn [fst snd]. rewrite Herr, Hcs.
      assert (u64 (zlen piece - (zlen h + 2)) = zlen rest) as -> by (rewrite wrap_small; unfold in_u; lia).
      assert (i32 (zlen rest) = zlen rest) as -> by (apply swrap_small; [lia|unfold in_s; lia]).
      assert (i32 B = B) as -> by (apply swrap_small; [lia|unfold in_s; lia]).
      by destruct (Z.eqb_spec (zlen rest) B); [lia|]. }
    step_with Ep. unfold isFinished, httpclient_parser_finish, httpclient_parser_has_error, httpclient_parser_is_finished, m_parser.
    cbn [fst]. by rewrite Hcs.
  - rewrite ztake_app_le by lia. exact Hm.
  - rewrite zlen_app, zlen_zdrop by lia. lia.
Qed.

(** The connection delivers the chunks, each in one piece with its line end. *)
Inductive delivers : N -> list (bytes * bytes) -> N -> Prop :=
| del_nil n : delivers n [] n
| del_cons n n1 n' h d l from :
    sys_recv (m_sock k) B n = (Some (chunk_wire h d, from), n1) -> delivers n1 l n' -> delivers n ((h, d) :: l) n'.

Definition chunk_ok (c : bytes * bytes) : Prop := hex_text c.1 (zlen c.2) /\ zlen (chunk_wire c.1 c.2) < B.

(** One round of the loop over the chunks. *)
Lemma recv_chunk_round fuel parser data h d body (n n' : N) from :
  chunk_ok (h, d) -> m_error parser.2 = 0 -> zlen data = B -> zlen body + zlen d <= max_string -> zlen body + zlen d < 2 ^ 63 ->
  sys_recv (m_sock k) B n = (Some (chunk_wire h d, from), n') ->
  exists q data', zlen data' = B /\
    recv_chunks (S (S fuel)) B parser data 0 body (t, n) =
      (if zlen d <=? 0 then mret (Some ((q, parser.2), body ++ d)) else recv_chunks (S fuel) B (q, parser.2) data' 0 (body ++ d)) (t, n').
Proof.
  intros [Hex Hle] Herr Hdata Hm1 Hm2 E. cbn [fst snd] in *. unfold chunk_wire in *. pose proof (zlen_nonneg d). pose proof (zlen_nonneg h).
  assert (Hz : zlen (h ++ crlf ++ d ++ crlf) = zlen h + 2 + zlen d + 2) by (rewrite !zlen_app; change (zlen crlf) with 2; lia).
  destruct (recv_until_chunk fuel parser data h (zlen d) (d ++ crlf) n n' from Hex ltac:(lia) Herr Hdata Hle E)
    as (q & data1 & Eu & Ht & Hz1 & Hc & Hd).
  assert (Hr : zlen (d ++ crlf) = zlen d + 2) by (rewrite zlen_app; done). rewrite Hr in *.
  assert (Htd : ztake (zlen d) data1 = d).
  { rewrite <- (ztake_ztake (zlen d) (zlen d + 2)), Ht by lia. rewrite ztake_app_le by lia. by apply ztake_all. }
  assert (Hu : u64 (zlen d) = zlen d) by (apply wrap_small; unfold in_u; lia).
  exists q, (overwrite 0 (slice (zlen d) (zlen d + 2 - 2 - zlen d) data1) data1). split.
  { rewrite overwrite_zlen; [done|lia|]. rewrite slice_zlen; lia. }
  change (recv_chunks (S (S fuel)) B parser data 0 body) with (fun st => recv_chunks (S (S fuel)) B parser data 0 body st).
  cbn [recv_chunks]. step_with Eu. cbv beta iota. cbn [m_parser fst]. rewrite Hc.
  assert (Ea : (body ← str_append body data1 (u64 (zlen d));
     mret (Some (body, overwrite 0 (slice (zlen d) (zlen d + 2 - 2 - zlen d) data1) data1, zlen d + 2 - 2 - zlen d))) (t, n')
     = Ret (Some (body ++ d, overwrite 0 (slice (zlen d) (zlen d + 2 - 2 - zlen d) data1) data1, 0)) (t, n')).
  { rewrite Hu. step_with (str_append_run body data1 (zlen d) (t, n') ltac:(lia) Hm1 Hm2). rewrite Htd.
    by replace (zlen d + 2 - 2 - zlen d) with 0 by lia. }
  replace (zlen d <=? zlen d + 2 - 2) with true by lia. step_with Ea. cbv beta iota. rewrite Hd. by destruct (zlen d <=? 0).
Qed.

Definition datas (l : list (bytes * bytes)) : bytes := concat (map snd l).

Lemma recv_chunks_run l : forall fuel parser data body h0 (n n' : N),
  delivers n (l ++ [(h0, [])]) n' -> Forall (fun c => chunk_ok c /\ c.2 <> []) l -> chunk_ok (h0, []) ->
  m_error parser.2 = 0 -> zlen data = B -> zlen body + zlen (datas l) <= max_string -> zlen body + zlen (datas l) < 2 ^ 63 ->
  exists parser', recv_chunks (S (S (length l + fuel))) B parser data 0 body (t, n) = Ret (Some (parser', body ++ datas l)) (t, n') /\
    parser'.2 = parser.2.
Proof.
  induction l as [|[h d] l IH]; intros fuel parser data body h0 n n' Hd Hok H0 Herr Hdata Hm1 Hm2; inversion Hd as [|? n1 ? ? ? ? from E Hrest]; subst.
  - inversion Hrest; subst. change (zlen (datas [])) with 0 in *.
    destruct (recv_chunk_round fuel parser data h0 [] body n n' from H0 Herr Hdata Hm1 Hm2 E) as (q & data' & _ & R).
    exists (q, parser.2). split; [|done]. etransitivity; [exact R|done].
  - apply Forall_cons_1 in Hok as [[Hc Hne] Hok]. cbn [snd] in Hne. change (datas ((h, d) :: l)) with (d ++ datas l) in *. rewrite zlen_app in *.
    pose proof (zlen_nonneg (datas l)). assert (0 < zlen d) by (pose proof (zlen_nonneg d); destruct (Z.eq_dec (zlen d) 0) as [?%zlen_0|]; [done|lia]).
    destruct (recv_chunk_round (S (length l + fuel)) parser data h d body n n1 from Hc Herr Hdata ltac:(lia) ltac:(lia) E) as (q & data' & Hz & R).
    destruct (IH fuel (q, parser.2) data' (body ++ d) h0 n1 n' Hrest Hok H0 Herr Hz) as (p' & R' & Hp); [rewrite zlen_app; lia..|].
    exists p'. split; [|done]. cbn [length]. etransitivity; [exact R|]. destruct (Z.leb_spec (zlen d) 0); [lia|]. by rewrite R', <- app_assoc.
Qed.

(** C29: chunks are decoded piece by piece.  When the connection delivers every
    chunk of a response alone and whole - its size in hexadecimal, the data, both
    line ends - the loop over the chunks returns their data in order and keeps the
    parsed head.  But when only the head of a chunk has arrived, the length left
    in the array is less than the two bytes subtracted from it, and the append
    that follows throws std::length_error: nothing is returned and the session
    is not closed. *)
Theorem chunks_decoded parser data fuel (n n' : N) :
  m_error parser.2 = 0 -> zlen data = B ->
  (forall l h0, delivers n (l ++ [(h0, [])]) n' -> Forall (fun c => chunk_ok c /\ c.2 <> []) l -> chunk_ok (h0, []) ->
     zlen (datas l) <= max_string -> zlen (datas l) < 2 ^ 63 ->
     exists parser', recv_chunks (S (S (length l + fuel))) B parser data 0 [] (t, n) = Ret (Some (parser', datas l)) (t, n') /\
       getData parser' = getData parser) /\
  (forall h len from, hex_text h len -> 0 < len < 2 ^ 31 -> zlen (h ++ crlf) < B ->
     sys_recv (m_sock k) B n = (Some (h ++ crlf, from), n') ->
     recv_chunks (S (S fuel)) B parser data 0 [] (t, n) = Throw (length_error "basic_string") (t, n')).
Proof.
  intros Herr Hdata. split.
  - intros l h0 Hd Hok H0 Hm1 Hm2. destruct (recv_chunks_run l fuel parser data [] h0 n n' Hd Hok H0 Herr Hdata Hm1 Hm2) as (p' & E & Hp).
    exists p'. split; [exact E|]. unfold getData. by rewrite Hp.
  - intros h len from Hex Hlen Hle E.
    destruct (recv_until_chunk fuel parser data h len [] n n' from Hex ltac:(lia) Herr Hdata) as (q & data1 & Eu & _ & _ & Hc & _);
      [by rewrite app_nil_r|by rewrite app_nil_r|].
    change (zlen (A:=ascii) []) with 0 in Eu.
    assert (R : forall fuel', recv_chunks (S fuel') B parser data 0 [] = r ← recv_until fuel' true B parser data 0; _) by done.
    rewrite R. step_with Eu. cbv beta iota. cbn [m_parser fst]. rewrite Hc. replace (len <=? 0 - 2) with false by lia.
    apply bind_Throw, bind_Throw, bind_Throw. reflexivity.
Qed.

(** ** The program's own server *)

Context (Hfd : m_sock k <> -1).
Let t' := SocketStream_new (Some (set_sock (-1) (set_connected false k))) true.

Lemma recvResponse_own fuel rsp (n n' : N) from :
  zlen (Http.Response.dump rsp) < B -> sys_recv (m_sock k) B n = (Some (Http.Response.dump rsp, from), n') ->
  recvResponse (S fuel) (t, n) = Ret None (t', sys_close (m_sock k) n').
Proof.
  intros Hle E. set (text := Http.Response.dump rsp) in *. assert (Hz : 0 < zlen text) by (change (0 < zlen (bz 32 :: tl text)); rewrite zlen_cons; pose proof (zlen_nonneg (tl text)); lia).
  assert (Hc : zlen (new_chars B) = B) by (apply new_chars_zlen; lia). assert (Hl : zlen text < 2 ^ 31) by lia.
  destruct (Client.client_rejects raw_client_parser (bz 32) (tl text)) as (s & Ee & Hf & Hg); [done|exact Hl|].
  change (bz 32 :: tl text) with text in Ee. assert (Hlt : zlen text < zlen (new_chars B)) by lia.
  destruct (nul_behind text (new_chars B) (t, n') Hlt) as (data1 & En & Ht & Hz1).
  assert (He : hasError s = true).
  { unfold hasError. unfold isFinished, httpclient_parser_finish in Hf. destruct (httpclient_parser_has_error (m_parser s)); [apply orb_true_r|].
    by destruct (httpclient_parser_is_finished (m_parser s)). }
  assert (Ep : parse_step B (HttpResponseParser_new raw_client_parser) (overwrite 0 text (new_chars B)) (0 + zlen text) false (t, n')
    = Ret None (t', sys_close (m_sock k) n')).
  { unfold parse_step. rewrite Z.add_0_l. step_with En. rewrite Ht. step_with (on_local_run _ _ _ _ (t, n') Ee). rewrite He.
    by step_with (close_run k Hk n' Hfd). }
  unfold recvResponse.
  assert (Eu : recv_until (S fuel) false B (HttpResponseParser_new raw_client_parser) (new_chars B) 0 (t, n) = Ret None (t', sys_close (m_sock k) n')).
  { cbn [recv_until]. step_with (read_at_front k true Hk (new_chars B) B n text from n' HB Hc ltac:(lia) E).
    destruct (Z.leb_spec (zlen text) 0); [lia|]. by step_with Ep. }
  by step_with Eu.
Qed.
End client.

Section exchange.
Context {un : Uninit} {host : Host} {N : Type} `{SocketApi N} `{ClientApi N} {env : HttpEnv}.
Context (k : Socket) (Hk : m_isConnected k = true) (Hfd : m_sock k <> -1).
Let t := SocketStream_new (Some k) true.
Let t' := SocketStream_new (Some (set_sock (-1) (set_connected false k))) true.
Abbreviation B := (GetHttpResponseBufferSize env_sizes).
Context (HB : 0 < B < 2 ^ 31).

(** The program's client cannot talk to the program's server: whatever the
    request, if the answer is a text that HttpResponse::dump writes - which is
    what HttpSession::sendResponse sends - the result is TIMEOUT without a
    response, at once and although the answer has arrived, and the connection is
    closed. *)
Theorem own_server_times_out fuel req rsp timeout_ms addr text b from (n n1 n2 n3 : N) :
  0 < zlen (Http.dump req) < 2 ^ 31 -> zlen (Http.Response.dump rsp) < B ->
  (forall st : SocketStream * N, Address.toString addr st = Ret text st) ->
  sys_setsockopt (m_sock k) SOL_SOCKET SO_SNDTIMEO (timeval_of timeout_ms) n = (b, n1) ->
  sys_send (m_sock k) (Http.dump req) None n1 = (zlen (Http.dump req), n2) ->
  sys_recv (m_sock k) B n2 = (Some (Http.Response.dump rsp, from), n3) ->
  exchange_on (S (S fuel)) req timeout_ms (mret addr) (t, n) =
    Ret (mkResult TIMEOUT None (bs "recv response timeout: " ++ text ++ bs " timeout_ms:" ++ show_dec timeout_ms))
      (t', sys_close (m_sock k) n3).
Proof.
  intros Hq Hr Ht E1 E2 E3. unfold exchange_on.
  assert (R1 : on_socket (Socket.setRecvTimeout timeout_ms) (t, n) = Ret b (t, n1)).
  { unfold on_socket, Socket.setRecvTimeout, setOption, sock, syscall, get, mbind, M_bind, mret, M_ret. cbn. by rewrite E1. }
  step_with R1. unfold sendRequest, send_text. step_with (writeFixSize_once k true Hk fuel (Http.dump req) n1 n2 Hq E2).
  destruct (Z.eqb_spec (zlen (Http.dump req)) 0); [lia|]. destruct (Z.ltb_spec (zlen (Http.dump req)) 0); [lia|].
  step_with (recvResponse_own k Hk HB Hfd (S fuel) rsp n2 n3 from Hr E3).
  cbv beta iota. change (mret addr) with (fun st : SocketStream * N => Ret addr st). unfold mbind at 1, M_bind at 1. by step_with (Ht _).
Qed.
End exchange.

(** ** Concrete deliveries *)

#[export] Instance WireClient : ClientApi Wire :=
  {| GetCurrentMS _ := 0; getaddrinfo _ _ _ _ _ _ := None; errno _ := 0; strerror _ := bs "Success" |}.

Lemma hex_demo (h : string) n : forallb xdigit (bs h) = true -> bs h <> [] -> digits 16 0 (bs h) = n -> hex_text (bs h) n.
Proof. intros H1 H2 H3. split; [exact H2|]. split; [exact H1|exact H3]. Qed.

Lemma chunks_decoded_witness :
  let p := HttpResponseParser_new raw_client_parser in
  let w l := mkWire l 4096 [] false in
  let t := SocketStream_new (Some wire_socket) true in
  (exists p', recv_chunks (env := demo_env) 4 4096 p (new_chars (un := zeroed) 4096) 0 []
      (t, w [bs "5" ++ crlf ++ bs "hello" ++ crlf; bs "0B" ++ crlf ++ bs " wide world" ++ crlf; bs "0" ++ crlf ++ crlf])
    = Ret (Some (p', bs "hello wide world")) (t, w []) /\ getData p' = getData p) /\
  recv_chunks (env := demo_env) 2 4096 p (new_chars (un := zeroed) 4096) 0 [] (t, w [bs "5" ++ crlf; bs "hello" ++ crlf])
    = Throw (length_error "basic_string") (t, w [bs "hello" ++ crlf]).
Proof.
  intros p w t. assert (HB : 0 < 4096 < 2 ^ 31) by lia.
  assert (Hz : zlen (new_chars (un := zeroed) 4096) = 4096) by reflexivity. split.
  - set (c1 := (bs "5", bs "hello")). set (c2 := (bs "0B", bs " wide world")).
    destruct (chunks_decoded (env := demo_env) wire_socket eq_refl HB p (new_chars (un := zeroed) 4096) 0
      (w [chunk_wire (bs "5") (bs "hello"); chunk_wire (bs "0B") (bs " wide world"); chunk_wire (bs "0") []]) (w []) eq_refl Hz) as [D _].
    apply (D [c1; c2] (bs "0")).
    + do 3 (eapply (del_cons _ _ _ _ _ _ _ (UnknownAddress_new 0)); [reflexivity|]). constructor.
    + repeat constructor; try discriminate; vm_compute; reflexivity || discriminate.
    + split; [split; [discriminate|split; reflexivity]|vm_compute; reflexivity].
    + vm_compute; discriminate.
    + vm_compute; reflexivity.
  - destruct (chunks_decoded (env := demo_env) wire_socket eq_refl HB p (new_chars (un := zeroed) 4096) 0
      (w [bs "5" ++ crlf; bs "hello" ++ crlf]) (w [bs "hello" ++ crlf]) eq_refl Hz) as [_ D].
    apply (D (bs "5") 5 (UnknownAddress_new 0)); [split; [discriminate|split; reflexivity]|lia|vm_compute; reflexivity|reflexivity].
Defined.

Lemma own_server_times_out_witness :
  let req := HttpRequest_new 0 0x11 true in let rsp := setBody (bs "hi") (HttpResponse_new 0x11 true) in
  exchange_on (un := zeroed) (host := false) 2 req 1000 (mret (IPv4Address (IPv4Address_new (host := false) 2130706433 80)))
    (SocketStream_new (Some wire_socket) true, mkWire [Http.Response.dump rsp] 4096 [] false)
  = Ret (mkResult TIMEOUT None (bs "recv response timeout: 127.0.0.1:80 timeout_ms:1000"))
      (SocketStream_new (Some (set_sock (-1) (set_connected false wire_socket))) true, mkWire [] 4096 (Http.dump req) true).
Proof.
  intros req rsp.
  apply (own_server_times_out (env := demo_env) (un := zeroed) (host := false) wire_socket eq_refl ltac:(discriminate) ltac:(split; reflexivity) 0 req rsp 1000
    (IPv4Address (IPv4Address_new (host := false) 2130706433 80)) (bs "127.0.0.1:80") false (UnknownAddress_new 0)
    (mkWire [Http.Response.dump rsp] 4096 [] false) (mkWire [Http.Response.dump rsp] 4096 [] false)
    (mkWire [Http.Response.dump rsp] 4096 (Http.dump req) false) (mkWire [] 4096 (Http.dump req) false));
  [vm_compute; split; reflexivity|vm_compute; reflexivity|reflexivity|reflexivity|reflexivity|reflexivity].
Defined.
