(* ===== verification/HttpPool.v ===== *)
(** The pool: every connection is in one place, and m_total counts them. *)
From S2P Require Import Prelude.
From stdpp Require Import gmap relations.
From S2P Require Import Endian ByteArray Address Ragel Http HttpThms HttpParser HttpClient Socket SocketThms Stream HttpSession HttpSessionThms HttpConnection.
Import HttpParser.Response Http.Response.
Open Scope Z_scope.

(** ** The pool *)

Section pool.
Context {un : Uninit} {host : Host} {N : Type} `{SocketApi N} `{ClientApi N} {env : HttpEnv}.

(** The pool together with what its users do: the connections handed out and not
    given back; the calls of getConnection that have found none and will open
    one; the lists of invalid connections, and the single ones given back, that
    are being deleted. *)
Record usage := mkUsage { u_pool : Pool; u_out : list nat; u_waiting : nat; u_dying : list (list nat) }.

(** One atomic piece of some call, with any other pieces between: the outside
    state [n] is whatever it is at that time. *)
Inductive pool_step : usage -> usage -> Prop :=
| step_take p p' out w dy now (n : N) ptr invalid :
    take_conn now (p, n) = Ret (ptr, invalid) (p', n) ->
    pool_step (mkUsage p out w dy)
      (mkUsage p' (match ptr with Some i => i :: out | None => out end) (match ptr with Some _ => w | None => S w end) (invalid :: dy))
| step_discard p p' out w dy1 dy2 l (n n' : N) :
    discard l (p, n) = Ret tt (p', n') ->
    pool_step (mkUsage p out w (dy1 ++ l :: dy2)) (mkUsage p' out w (dy1 ++ dy2))
| step_open p p' out w dy (n n' : N) i :
    open_conn (p, n) = Ret (Some i) (p', n') -> pool_step (mkUsage p out (S w) dy) (mkUsage p' (i :: out) w dy)
| step_open_fails p p' out w dy (n n' : N) :
    open_conn (p, n) = Ret None (p', n') -> pool_step (mkUsage p out (S w) dy) (mkUsage p' out w dy)
| step_use p p' out w dy (n n' : N) i A (m : M (SocketStream * N) A) a :
    i ∈ out -> on_conn i m (p, n) = Ret a (p', n') -> pool_step (mkUsage p out w dy) (mkUsage p' out w dy)
| step_release p p' out1 out2 w dy (n n' : N) i :
    ReleasePtr i (p, n) = Ret tt (p', n') ->
    pool_step (mkUsage p (out1 ++ i :: out2) w dy) (mkUsage p' (out1 ++ out2) w dy).

(** Every connection object is in exactly one place, and m_total counts them. *)
Definition places (u : usage) : list nat := p_conns (u_pool u) ++ u_out u ++ concat (u_dying u).
Record pool_inv (u : usage) : Prop := mkPoolInv {
  pi_nodup : NoDup (places u);
  pi_heap : forall i, is_Some (p_heap (u_pool u) !! i) <-> i ∈ places u;
  pi_next : forall i, i ∈ places u -> (i < p_next (u_pool u))%nat;
  pi_total : p_total (u_pool u) = i32 (Z.of_nat (length (places u)))
}.

Lemma scan_split h ma now l ptr invalid rest :
  scan h ma now l = Some (ptr, invalid, rest) -> l = invalid ++ (match ptr with Some i => [i] | None => [] end) ++ rest /\ (ptr = None -> rest = []).
Proof.
  revert ptr invalid rest. induction l as [|i l IH]; intros ptr invalid rest; cbn [scan].
  { by intros [= <- <- <-]. }
  destruct (h !! i) as [c|]; [|done]. destruct (_ || _).
  - destruct (scan h ma now l) as [[[ptr' invalid'] rest']|]; [|done]. intros [= <- <- <-].
    destruct (IH _ _ _ eq_refl) as [E Hn]. split; [by rewrite E at 1|done].
  - intros [= <- <- <-]. by split.
Qed.

Lemma i32_add a b : i32 (i32 a + b) = i32 (a + b).
Proof.
  unfold swrap. set (h := 2 ^ (32 - 1)). replace ((a + h) mod 2 ^ 32 - h + b + h) with ((a + h) mod 2 ^ 32 + b) by lia.
  rewrite Zplus_mod_idemp_l. do 2 f_equal. lia.
Qed.

Lemma on_conn_inv {A} i (m : M (SocketStream * N) A) p (n : N) a p' n' :
  on_conn i m (p, n) = Ret a (p', n') -> is_Some (p_heap p !! i) /\ exists c, p' = set_heap (<[i := c]> (p_heap p)) p.
Proof.
  unfold on_conn. cbn. destruct (p_heap p !! i) as [c|]; [|done]. destruct (m _) as [b [t' n'']|e [t' n'']|]; [|done..].
  intros [= _ <- _]. split; [done|]. by eexists.
Qed.

Lemma delete_conn_inv i p (n : N) p' n' :
  delete_conn i (p, n) = Ret tt (p', n') -> is_Some (p_heap p !! i) /\ p' = set_heap (delete i (p_heap p)) p.
Proof.
  intros ([] & [p1 n1] & E1 & E2)%bind_Ret_inv. apply on_conn_inv in E1 as [Hi [c ->]]. injection E2 as <- _.
  split; [done|]. cbn. by rewrite delete_insert_eq.
Qed.

Lemma delete_conns_inv l : forall p (n : N) p' n',
  delete_conns l (p, n) = Ret tt (p', n') ->
  exists h, p' = set_heap h p /\ forall j, is_Some (h !! j) <-> is_Some (p_heap p !! j) /\ j ∉ l.
Proof.
  induction l as [|i l IH]; intros p n p' n'; cbn [delete_conns].
  { intros [= <- _]. exists (p_heap p). split; [by destruct p|]. intros j. set_solver. }
  intros ([] & [p1 n1] & [_ ->]%delete_conn_inv & E2)%bind_Ret_inv. apply IH in E2 as (h & -> & Hh).
  exists h. split; [done|]. intros j. rewrite Hh, not_elem_of_cons. cbn. rewrite lookup_delete_is_Some. naive_solver.
Qed.

(** Connections go: [l] are deleted and subtracted. *)
Lemma pool_inv_remove u u' l :
  pool_inv u -> places u ≡ₚ l ++ places u' ->
  (forall j, is_Some (p_heap (u_pool u') !! j) <-> is_Some (p_heap (u_pool u) !! j) /\ j ∉ l) ->
  p_next (u_pool u') = p_next (u_pool u) -> p_total (u_pool u') = i32 (p_total (u_pool u) + - Z.of_nat (length l)) ->
  pool_inv u'.
Proof.
  intros [Hd Hh Hn Ht] Hp Hh' Hn' Ht'. rewrite Hp in Hd. apply NoDup_app in Hd as (_ & Hl & Hd). split.
  - done.
  - intros j. rewrite Hh', Hh, Hp, elem_of_app. specialize (Hl j). naive_solver.
  - intros j Hj. rewrite Hn'. apply Hn. rewrite Hp, elem_of_app. by right.
  - rewrite Ht', Ht, i32_add, Hp, length_app. f_equal. lia.
Qed.
(** Connections move. *)
Lemma pool_inv_move u u' :
  pool_inv u -> places u ≡ₚ places u' -> (forall j, is_Some (p_heap (u_pool u') !! j) <-> is_Some (p_heap (u_pool u) !! j)) ->
  p_next (u_pool u') = p_next (u_pool u) -> p_total (u_pool u') = p_total (u_pool u) -> pool_inv u'.
Proof.
  intros Hi Hp Hh Hn Ht. apply (pool_inv_remove u u' []); [done|done| |done|].
  - intros j. rewrite Hh. set_solver.
  - rewrite Ht. cbn. rewrite Z.add_0_r. rewrite (pi_total u Hi) at 1. rewrite <- (Z.add_0_r (p_total _)), (pi_total u Hi), i32_add. by rewrite Z.add_0_r.
Qed.

Lemma open_inv p (n : N) p' n' r :
  open_conn (p, n) = Ret r (p', n') ->
  match r with
  | None => p' = p
  | Some i => i = p_next p /\ exists c, p' = add_total 1 (set_pool (<[i := c]> (p_heap p)) (S i) (p_conns p) (p_total p) p)
  end.
Proof.
  unfold open_conn. cbn [fst snd]. destruct (LookupAnyIPAddress _ _ _ _ _) as [a|]; [|by intros [= <- <- _]].
  destruct (connect _ _ _) as [[] [sk n1]| |]; [|destruct (Socket_delete _) as [b [sk' n2]|e [sk' n2]|]; [|done..]|by destruct s|done].
  - intros [= <- <- _]. split; [done|]. by eexists.
  - by intros [= <- <- _].
Qed.

Lemma pool_step_inv u u' : pool_step u u' -> pool_inv u -> pool_inv u'.
Proof.
  intros St Hi. destruct St as [p p' out w dy now n ptr invalid E|p p' out w dy1 dy2 l n n' E|p p' out w dy n n' i E
    |p p' out w dy n n' E|p p' out w dy n n' i A m a Ho E|p p' out1 out2 w dy n n' i E].
  - apply bind_Ret_inv in E as (p0 & [p1 n1] & [= <- <- <-] & E).
    destruct (scan (p_heap p) (p_maxAliveTime p) now (p_conns p)) as [[[ptr' invalid'] rest]|] eqn:Es; [|done].
    injection E as -> -> <-. apply scan_split in Es as [Ec _].
    apply (pool_inv_move _ _ Hi); try done. unfold places. cbn. rewrite Ec. destruct ptr; cbn; solve_Permutation.
  - apply bind_Ret_inv in E as ([] & [p1 n1] & (h & -> & Hh)%delete_conns_inv & [= <- _]).
    apply (pool_inv_remove _ _ l Hi); [|exact Hh|done|done]. unfold places. cbn. rewrite !concat_app. cbn. solve_Permutation.
  - apply open_inv in E as (-> & c & ->). destruct Hi as [Hd Hh Hn Ht]. unfold places in *. cbn in *.
    assert (Hf : p_next p ∉ p_conns p ++ out ++ concat dy) by (intros Hx%Hn; lia).
    assert (Hp : p_conns p ++ p_next p :: out ++ concat dy ≡ₚ p_next p :: p_conns p ++ out ++ concat dy) by solve_Permutation.
    split; unfold places; cbn.
    + rewrite Hp. by constructor.
    + intros j. rewrite Hp, elem_of_cons, <- Hh, lookup_insert_is_Some. destruct (decide (p_next p = j)); naive_solver.
    + intros j. rewrite Hp, elem_of_cons. intros [-> |Hj%Hn]; lia.
    + rewrite Ht, i32_add, Hp. cbn [length]. f_equal. lia.
  - apply open_inv in E as ->. by apply (pool_inv_move _ _ Hi).
  - apply on_conn_inv in E as [Hs [c ->]]. apply (pool_inv_move _ _ Hi); try done. cbn. intros j.
    rewrite lookup_insert_is_Some. destruct (decide (i = j)) as [-> |]; naive_solver.
  - apply bind_Ret_inv in E as (p0 & [p1 n1] & [= <- <- <-] & E). destruct (p_heap p !! i) as [c|] eqn:Ec; [|done].
    apply bind_Ret_inv in E as ([] & [p1 n1] & [= <- <-] & E). apply bind_Ret_inv in E as (now & [p1 n1] & [= <- <- <-] & E).
    destruct (_ || _).
    + apply bind_Ret_inv in E as ([] & [p1 n1] & [_ ->]%delete_conn_inv & [= <- _]).
      apply (pool_inv_remove _ _ [i] Hi); [|cbn|done|done].
      * unfold places. cbn. solve_Permutation.
      * intros j. rewrite lookup_delete_is_Some, lookup_insert_is_Some. set_solver.
    + injection E as <- _. apply (pool_inv_move _ _ Hi); try done.
      * unfold places. cbn. solve_Permutation.
      * cbn. intros j. rewrite lookup_insert_is_Some. destruct (decide (i = j)) as [-> |]; naive_solver.
Qed.

Definition fresh_pool (p : Pool) : usage := mkUsage p [] 0 [].

Lemma fresh_inv h v port ms ma mr : pool_inv (fresh_pool (HttpConnectionPool_new h v port ms ma mr)).
Proof.
  split; cbn; [constructor| |intros i []%not_elem_of_nil|done].
  intros i. rewrite lookup_empty. split; [by intros []|by intros []%not_elem_of_nil].
Qed.

Lemma scan_some hp ma now l : (forall i, i ∈ l -> is_Some (hp !! i)) -> is_Some (scan hp ma now l).
Proof.
  induction l as [|i l IH]; intros Hl; cbn [scan]; [by eexists|].
  destruct (Hl i ltac:(by left)) as [c ->]. destruct (_ || _); [|by eexists].
  destruct IH as [[[ptr invalid] rest] ->]; [|by eexists]. intros j Hj. apply Hl. by right.
Qed.

(** C28: the pool keeps count.  However the pieces of any number of calls of
    getConnection, of the users' calls and of the deleters interleave, and
    whatever the system answers: no connection is both in the pool's list and in
    use, or handed out twice, or deleted while someone has it; m_total is the
    number of connections there are, in the list, handed out or being deleted;
    and the search for a connection never meets a deleted one. *)
Theorem pool_counts h v port ms ma mr u :
  rtc pool_step (fresh_pool (HttpConnectionPool_new h v port ms ma mr)) u ->
  NoDup (p_conns (u_pool u) ++ u_out u ++ concat (u_dying u)) /\
  p_total (u_pool u) = i32 (Z.of_nat (length (p_conns (u_pool u)) + length (u_out u) + length (concat (u_dying u)))) /\
  (forall i, i ∈ u_out u -> is_Some (p_heap (u_pool u) !! i)) /\
  (forall now (n : N), exists r p', take_conn now (u_pool u, n) = Ret r (p', n)).
Proof.
  intros Hr. assert (Hi : pool_inv u).
  { refine (rtc_ind_r pool_inv _ (fresh_inv h v port ms ma mr) _ u Hr). intros y z _ St IH. by apply (pool_step_inv y z). }
  destruct Hi as [Hd Hh _ Ht]. unfold places in *. split_and!.
  - done.
  - rewrite Ht, !length_app. f_equal. lia.
  - intros i Hi. apply Hh. set_solver.
  - intros now n. destruct (scan_some (p_heap (u_pool u)) (p_maxAliveTime (u_pool u)) now (p_conns (u_pool u))) as [[[ptr invalid] rest] E].
    { intros i Hi. apply Hh. set_solver. }
    eexists _, _. unfold take_conn. step_with (eq_refl : pool (u_pool u, n) = Ret (u_pool u) (u_pool u, n)). rewrite E. done.
Qed.

(** The maximum size is never looked at: if connecting works, any number of
    connections can be out at once. *)
Lemma pool_exceeds_maxSize h v port ms ma mr count (now : Z) (n : N) :
  (forall p, p_host p = h -> exists i p' n', open_conn (p, n) = Ret (Some i) (p', n')) ->
  exists u, rtc pool_step (fresh_pool (HttpConnectionPool_new h v port ms ma mr)) u /\ length (u_out u) = count.
Proof.
  intros Ho. set (p0 := HttpConnectionPool_new h v port ms ma mr).
  assert (Hx : exists u, rtc pool_step (fresh_pool p0) u /\ length (u_out u) = count /\ p_conns (u_pool u) = [] /\ p_host (u_pool u) = h).
  { induction count as [|count (u & Hr & Hl & Hc & Hh)]; [by exists (fresh_pool p0)|].
    destruct u as [p out w dy]. cbn in *. destruct (Ho p Hh) as (i & p' & n' & E). pose proof (open_inv p n p' n' (Some i) E) as (-> & c & ->).
    assert (Hp : set_conns [] p = p) by (destruct p; cbn in Hc; by subst).
    assert (Et : take_conn now (p, n) = Ret (None, []) (p, n)).
    { unfold take_conn. step_with (eq_refl : pool (p, n) = Ret p (p, n)). rewrite Hc. cbn [scan]. change (Ret (None, []) (set_conns [] p, n) = Ret (None, []) (p, n) :> outcome (Pool * N) (option nat * list nat)). by rewrite Hp. }
    eexists. split.
    - eapply rtc_r; [eapply rtc_r; [exact Hr|exact (step_take p p out w dy now n None [] Et)]|].
      exact (step_open p _ out w ([] :: dy) n n' (p_next p) E).
    - cbn. by rewrite Hl. }
  destruct Hx as (u & Hr & Hl & _). by exists u.
Qed.
End pool.

(** ** A pool in use *)

#[export] Instance DemoClient : ClientApi (Z * gset Z) :=
  {| GetCurrentMS _ := 5; getaddrinfo _ _ _ _ _ _ := Some [any_in (mkSin AF_INET 80 1 (zeros 8))]; errno _ := 0; strerror _ := [] |}.

Definition demo_pool : Pool := HttpConnectionPool_new (bs "a.example") [] 80 1 30000 5.
Definition demo_fds : Z * gset Z := (7, {[0; 1; 2]}).

(** The pool after one call that opens a connection and gives it back. *)
Definition demo_used : option Pool :=
  match open_conn (host := false) (demo_pool, demo_fds) with Ret (Some _) (p, _) => Some p | _ => None end.

Lemma pool_counts_witness :
  exists p, demo_used = Some p /\
    rtc (pool_step (host := false) (N := Z * gset Z)) (fresh_pool demo_pool) (mkUsage p [0%nat] 0 [[]]) /\
    p_total p = 1 /\ NoDup ([] ++ [0%nat] ++ concat [[]]).
Proof.
  destruct demo_used as [p|] eqn:E; [|discriminate E]. exists p.
  assert (R : rtc (pool_step (host := false) (N := Z * gset Z)) (fresh_pool demo_pool) (mkUsage p [0%nat] 0 [[]])).
  { unfold demo_used in E. destruct (open_conn (host := false) (demo_pool, demo_fds)) as [[i|] [p1 n1]| |] eqn:Eo; try discriminate E.
    injection E as ->. eapply rtc_l; [|eapply rtc_l; [|apply rtc_refl]].
    - apply (step_take demo_pool demo_pool [] 0 [] 5 demo_fds None []). reflexivity.
    - pose proof (open_inv _ _ _ _ _ Eo) as [Ei _]. cbn in Ei. subst i. apply (step_open _ _ _ _ _ demo_fds n1 0%nat). exact Eo. }
  destruct (pool_counts (host := false) (bs "a.example") [] 80 1 30000 5 _ R) as (Hd & Ht & _ & _).
  split; [reflexivity|]. split; [exact R|]. cbn [u_pool u_out u_dying] in *.
  assert (Hc : p_conns p = []).
  { unfold demo_used in E. destruct (open_conn (host := false) (demo_pool, demo_fds)) as [[i|] [p1 n1]| |] eqn:Eo; try discriminate E.
    injection E as ->. pose proof (open_inv _ _ _ _ _ Eo) as (_ & c & ->). reflexivity. }
  rewrite Hc in *. split; [rewrite Ht; reflexivity|exact Hd].
Defined.
