(* ===== verification/FdManager.v ===== *)
(** linko/fd_manager.{h,cc}: what the library keeps about every file descriptor.
    FdCtx objects are shared: the table and the callers hold pointers, which are
    the numbers of the objects here. *)
From S2P Require Import Prelude.

(** The calls FdCtx::init makes to the kernel. *)
Class FdKernel (K : Type) := {
  (** [fstat(fd)]: [None] is -1, else whether [S_ISSOCK(st_mode)]. *)
  fstat : Z -> K -> option bool;
  (** [fcntl_f(fd, F_GETFL, 0)] and [fcntl_f(fd, F_SETFL, flags)]. *)
  getfl : Z -> K -> Z;
  setfl : Z -> Z -> K -> K
}.

Definition O_NONBLOCK : Z := 0x800.
Definition SO_RCVTIMEO : Z := 20.
Definition SO_SNDTIMEO : Z := 21.

Record FdCtx := mkFdCtx {
  m_isInit : bool;
  m_isSocket : bool;
  m_sysNonblock : bool;
  m_userNonblock : bool;
  m_isClosed : bool;
  m_fd : Z;
  m_recvTimeout : Z;
  m_sendTimeout : Z
}.

Definition setUserNonblock (v : bool) (c : FdCtx) : FdCtx :=
  mkFdCtx (m_isInit c) (m_isSocket c) (m_sysNonblock c) v (m_isClosed c) (m_fd c) (m_recvTimeout c) (m_sendTimeout c).
Definition setSysNonblock (v : bool) (c : FdCtx) : FdCtx :=
  mkFdCtx (m_isInit c) (m_isSocket c) v (m_userNonblock c) (m_isClosed c) (m_fd c) (m_recvTimeout c) (m_sendTimeout c).
Definition setTimeout (type v : Z) (c : FdCtx) : FdCtx :=
  if type =? SO_RCVTIMEO then
    mkFdCtx (m_isInit c) (m_isSocket c) (m_sysNonblock c) (m_userNonblock c) (m_isClosed c) (m_fd c) (u64 v) (m_sendTimeout c)
  else
    mkFdCtx (m_isInit c) (m_isSocket c) (m_sysNonblock c) (m_userNonblock c) (m_isClosed c) (m_fd c) (m_recvTimeout c) (u64 v).
Definition getTimeout (type : Z) (c : FdCtx) : Z :=
  if type =? SO_RCVTIMEO then m_recvTimeout c else m_sendTimeout c.

(** FdManager: the table, the objects made so far, and the kernel. *)
Record FdManager (K : Type) := mkFdManager {
  m_datas : list (option nat);
  ctxs : list FdCtx;
  kern : K
}.
Arguments mkFdManager {K}. Arguments m_datas {K}. Arguments ctxs {K}. Arguments kern {K}.

Section fd_manager.
Context {K : Type} `{FdKernel K}.
Abbreviation FM := (M (FdManager K)).

Definition init (c : FdCtx) (k : K) : FdCtx * K :=
  if m_isInit c then (c, k) else
  let '(isInit, isSocket) := match fstat (m_fd c) k with
    | None => (false, false)
    | Some s => (true, s)
    end in
  let k' :=
    if isSocket then
      let flags := getfl (m_fd c) k in
      if Z.land flags O_NONBLOCK =? 0 then setfl (m_fd c) (Z.lor flags O_NONBLOCK) k else k
    else k in
  (mkFdCtx isInit isSocket isSocket false false (m_fd c) (u64 (-1)) (u64 (-1)), k').

Definition FdCtx_new (fd : Z) (k : K) : FdCtx * K :=
  init (mkFdCtx false false false false false fd (u64 (-1)) (u64 (-1))) k.

Definition FdManager_new (k : K) : FdManager K := mkFdManager (replicate 64 None) [] k.

(** [m_datas.resize(n)]. *)
Definition vector_resize (n : Z) (l : list (option nat)) : list (option nat) :=
  resize (Z.to_nat n) None l.

(** [m_datas[fd]]. *)
Definition data_at (fd : Z) : FM (option nat) :=
  s ← get;
  if (0 <=? fd) && (fd <? zlen (m_datas s)) then mret (m_datas s !!! Z.to_nat fd) else crash_with OutOfBounds.
Definition set_data (fd : Z) (v : option nat) : FM unit :=
  s ← get;
  if (0 <=? fd) && (fd <? zlen (m_datas s)) then
    put (mkFdManager (<[Z.to_nat fd := v]> (m_datas s)) (ctxs s) (kern s))
  else crash_with OutOfBounds.

(** [get] up to the release of the read lock: [Some r] is a return. *)
Definition get_read (fd : Z) (auto_create : bool) : FM (option (option nat)) :=
  if fd =? -1 then mret (Some None) else
  s ← get;
  if zlen (m_datas s) <=? fd then
    if auto_create then mret None else mret (Some None)
  else
    d ← data_at fd;
    if bool_decide (d <> None) || negb auto_create then mret (Some d) else mret None.

(** ... and under the write lock. *)
Definition get_write (fd : Z) : FM (option nat) :=
  s ← get;
  let '(c, k) := FdCtx_new fd (kern s) in
  let ctx := length (ctxs s) in
  let datas := if zlen (m_datas s) <=? fd then vector_resize (fd * 3 / 2) (m_datas s) else m_datas s in
  put (mkFdManager datas (ctxs s ++ [c]) k);;
  set_data fd (Some ctx);;
  mret (Some ctx).

Definition get_fd (fd : Z) (auto_create : bool) : FM (option nat) :=
  r ← get_read fd auto_create;
  match r with Some ctx => mret ctx | None => get_write fd end.

Definition del (fd : Z) : FM unit :=
  s ← get;
  if zlen (m_datas s) <=? fd then mret tt else set_data fd None.
End fd_manager.
