(* ===== verification/FdThms.v ===== *)
(** FdManager refines a finite map from descriptors to contexts. *)
From S2P Require Import Prelude FdManager.
From stdpp Require Import list gmap.
Open Scope Z_scope.

(** ** The specification *)

(** The critical sections of the class: [OGet] is [get], [ORead] and [OWrite] its
    two halves, between which another thread may run. *)
Inductive fd_op :=
| OGet (fd : Z) (auto_create : bool)
| ORead (fd : Z) (auto_create : bool)
| OWrite (fd : Z)
| ODel (fd : Z).

(** What is known about the descriptors: the context of each, and how many
    contexts were made. *)
Definition fd_map : Type := gmap Z nat * nat.

Definition spec_read (fd : Z) (auto_create : bool) (a : fd_map) : option (option nat) :=
  if fd =? -1 then Some None else
  match a.1 !! fd with
  | Some c => Some (Some c)
  | None => if auto_create then None else Some None
  end.
Definition spec_write (fd : Z) (a : fd_map) : option nat * fd_map := (Some a.2, (<[fd := a.2]> a.1, S a.2)).
Definition spec_op (o : fd_op) (a : fd_map) : option (option nat) * fd_map :=
  match o with
  | OGet fd auto =>
    match spec_read fd auto a with
    | Some c => (Some c, a)
    | None => let '(c, a') := spec_write fd a in (Some c, a')
    end
  | ORead fd auto => (spec_read fd auto a, a)
  | OWrite fd => let '(c, a') := spec_write fd a in (Some c, a')
  | ODel fd => (None, (delete fd a.1, a.2))
  end.
Fixpoint spec_ops (ops : list fd_op) (a : fd_map) : list (option (option nat)) * fd_map :=
  match ops with
  | [] => ([], a)
  | o :: ops =>
    let '(r, a') := spec_op o a in
    let '(rs, a'') := spec_ops ops a' in (r :: rs, a'')
  end.

(** Descriptors are not negative; [get] also takes the -1 of a failed call. *)
Definition fd_op_ok (o : fd_op) : Prop :=
  match o with
  | OGet fd _ | ORead fd _ => -1 <= fd
  | OWrite fd | ODel fd => 0 <= fd
  end.

Section fd_refines.
Context {K : Type} `{FdKernel K}.
Implicit Type s : FdManager K.

Definition run_fd_op (o : fd_op) : M (FdManager K) (option (option nat)) :=
  match o with
  | OGet fd auto => r ← get_fd fd auto; mret (Some r)
  | ORead fd auto => get_read fd auto
  | OWrite fd => r ← get_write fd; mret (Some r)
  | ODel fd => del fd;; mret None
  end.
Fixpoint run_fd_ops (ops : list fd_op) : M (FdManager K) (list (option (option nat))) :=
  match ops with
  | [] => mret []
  | o :: ops => r ← run_fd_op o; rs ← run_fd_ops ops; mret (r :: rs)
  end.

(** ** The refinement *)

Record fd_rel (s : FdManager K) (a : fd_map) : Prop := mkFdRel {
  rel_size : 64 <= zlen (m_datas s);
  rel_table : forall i : nat, mjoin (m_datas s !! i) = a.1 !! Z.of_nat i;
  rel_neg : forall fd, fd < 0 -> a.1 !! fd = None;
  rel_count : a.2 = length (ctxs s);
  rel_own : forall fd c, a.1 !! fd = Some c -> exists x, ctxs s !! c = Some x /\ m_fd x = fd
}.

Lemma fd_rel_new k : fd_rel (FdManager_new k) (∅, O).
Proof.
  constructor; [done| |done|done|done].
  intros i. cbn [FdManager_new m_datas fst]. rewrite lookup_empty. destruct (replicate 64 (@None nat) !! i) as [x|] eqn:E; [|done].
  by apply lookup_replicate in E as [-> _].
Qed.

Lemma data_at_run s a fd :
  fd_rel s a -> 0 <= fd < zlen (m_datas s) -> data_at fd s = Ret (a.1 !! fd) s.
Proof.
  intros R Hfd. unfold data_at. step_with (eq_refl : get s = Ret s s).
  assert ((0 <=? fd) && (fd <? zlen (m_datas s)) = true) as -> by lia. unfold mret, M_ret. f_equal.
  pose proof (rel_table s a R (Z.to_nat fd)) as Ht. rewrite Z2Nat.id in Ht by lia. rewrite <- Ht.
  destruct (lookup_lt_is_Some_2 (m_datas s) (Z.to_nat fd)) as [x Hx]; [unfold zlen in Hfd; lia|].
  by rewrite (list_lookup_total_correct _ _ _ Hx), Hx.
Qed.

Lemma set_data_run s fd v :
  0 <= fd < zlen (m_datas s) ->
  set_data fd v s = Ret tt (mkFdManager (<[Z.to_nat fd := v]> (m_datas s)) (ctxs s) (kern s)).
Proof.
  intros Hfd. unfold set_data. step_with (eq_refl : get s = Ret s s).
  by assert ((0 <=? fd) && (fd <? zlen (m_datas s)) = true) as -> by lia.
Qed.

(** A descriptor behind the end of the table has no context. *)
Lemma beyond s a fd : fd_rel s a -> zlen (m_datas s) <= fd -> a.1 !! fd = None.
Proof.
  intros R Hfd. pose proof (rel_table s a R (Z.to_nat fd)) as Ht. pose proof (rel_size s a R).
  rewrite Z2Nat.id in Ht by lia. rewrite <- Ht, lookup_ge_None_2; [done|]. unfold zlen in Hfd. lia.
Qed.

Lemma get_read_run s a fd auto :
  fd_rel s a -> -1 <= fd -> get_read fd auto s = Ret (spec_read fd auto a) s.
Proof.
  intros R Hfd. unfold get_read, spec_read. destruct (Z.eqb_spec fd (-1)) as [|Hn]; [done|].
  step_with (eq_refl : get s = Ret s s). destruct (Z.leb_spec (zlen (m_datas s)) fd) as [Hle|Hlt].
  - rewrite (beyond s a fd R Hle). by destruct auto.
  - step_with (data_at_run s a fd R ltac:(lia)). destruct (a.1 !! fd) as [c|]; [by rewrite bool_decide_true|].
    rewrite bool_decide_false by (intros []; done). by destruct auto.
Qed.

Lemma resized_lookup (l : list (option nat)) n i :
  (length l <= n)%nat -> mjoin (resize n None l !! i) = mjoin (l !! i).
Proof.
  intros Hn. destruct (decide (i < length l)%nat) as [Hi|Hi].
  - by rewrite lookup_resize by lia.
  - rewrite (lookup_ge_None_2 l) by lia. destruct (decide (i < n)%nat).
    + by rewrite lookup_resize_new by lia.
    + by rewrite lookup_resize_old by lia.
Qed.

Lemma fd_of_new fd k : m_fd (FdCtx_new fd k).1 = fd.
Proof. unfold FdCtx_new, init. cbn. by destruct (fstat fd k) as [[]|]. Qed.

Definition written (fd : Z) (a : fd_map) : fd_map := (<[fd := a.2]> a.1, S a.2).

Lemma get_write_run s a fd :
  fd_rel s a -> 0 <= fd -> exists s', get_write fd s = Ret (Some a.2) s' /\ fd_rel s' (written fd a).
Proof.
  intros R Hfd. unfold get_write. step_with (eq_refl : get s = Ret s s).
  destruct (FdCtx_new fd (kern s)) as [c k] eqn:Ec. pose proof (fd_of_new fd (kern s)) as Hc. rewrite Ec in Hc. cbn in Hc.
  set (n := length (ctxs s)). set (datas := if zlen (m_datas s) <=? fd then _ else _).
  pose proof (rel_size s a R) as Hsz.
  assert (Hd : fd < zlen datas /\ 64 <= zlen datas /\ forall i, mjoin (datas !! i) = mjoin (m_datas s !! i)).
  { unfold datas. destruct (Z.leb_spec (zlen (m_datas s)) fd); [|done].
    assert (Hn : fd < fd * 3 / 2) by (Z.to_euclidean_division_equations; lia).
    unfold vector_resize, zlen in *. rewrite length_resize, Z2Nat.id by lia. split; [lia|]. split; [lia|].
    intros i. apply resized_lookup. lia. }
  destruct Hd as (Hin & Hsz' & Hl). clearbody datas.
  step_with (eq_refl : put (mkFdManager datas (ctxs s ++ [c]) k) s = Ret tt (mkFdManager datas (ctxs s ++ [c]) k)).
  step_with (set_data_run (mkFdManager datas (ctxs s ++ [c]) k) fd (Some n) (conj Hfd Hin)).
  eexists. split; [by rewrite (rel_count s a R)|]. constructor; cbn.
  - by unfold zlen in *; rewrite length_insert.
  - intros i. destruct (decide (i = Z.to_nat fd)) as [-> |Hi].
    + rewrite list_lookup_insert_eq by (unfold zlen in Hin; lia). rewrite Z2Nat.id by lia.
      by rewrite lookup_insert_eq, (rel_count s a R).
    + rewrite list_lookup_insert_ne by done. rewrite lookup_insert_ne by lia. rewrite Hl. apply R.
  - intros x Hx. rewrite lookup_insert_ne by lia. by apply R.
  - rewrite length_app, (rel_count s a R). cbn. lia.
  - intros x i. destruct (decide (x = fd)) as [-> |Hx].
    + rewrite lookup_insert_eq. intros [= <-]. exists c. by rewrite (rel_count s a R), list_lookup_middle.
    + rewrite lookup_insert_ne by done. intros Hi. destruct (rel_own s a R x i Hi) as (y & Hy & Ey).
      exists y. split; [by apply lookup_app_l_Some|done].
Qed.

Lemma del_run s a fd :
  fd_rel s a -> 0 <= fd -> exists s', del fd s = Ret tt s' /\ fd_rel s' (delete fd a.1, a.2).
Proof.
  intros R Hfd. unfold del. step_with (eq_refl : get s = Ret s s).
  destruct (Z.leb_spec (zlen (m_datas s)) fd) as [Hle|Hlt].
  - exists s. split; [done|]. by rewrite delete_id by (by apply (beyond s)); destruct a.
  - exists (mkFdManager (<[Z.to_nat fd := None]> (m_datas s)) (ctxs s) (kern s)).
    split; [by apply set_data_run|]. destruct R as [Hs Ht Hn Hc Ho]. constructor; cbn.
    + by unfold zlen in *; rewrite length_insert.
    + intros i. destruct (decide (i = Z.to_nat fd)) as [-> |Hi].
      * rewrite list_lookup_insert_eq by (unfold zlen in Hlt; lia). by rewrite Z2Nat.id, lookup_delete_eq by lia.
      * rewrite list_lookup_insert_ne by done. by rewrite lookup_delete_ne by lia.
    + intros x Hx. apply lookup_delete_None. right. by apply Hn.
    + done.
    + intros x c. rewrite lookup_delete_Some. intros [_ Hx]. by apply Ho.
Qed.

Lemma run_fd_op_refines o s a :
  fd_rel s a -> fd_op_ok o -> exists s', run_fd_op o s = Ret (spec_op o a).1 s' /\ fd_rel s' (spec_op o a).2.
Proof.
  intros R Ho. destruct o as [fd auto|fd auto|fd|fd]; cbn in Ho; cbn [run_fd_op spec_op spec_write].
  - assert (Hg : exists s', get_fd fd auto s = Ret (match spec_read fd auto a with Some c => c | None => Some a.2 end) s' /\
      fd_rel s' (match spec_read fd auto a with Some _ => a | None => written fd a end)).
    { unfold get_fd. step_with (get_read_run s a fd auto R Ho). destruct (spec_read fd auto a) eqn:E; [by exists s|].
      apply get_write_run; [done|]. unfold spec_read in E. destruct (Z.eqb_spec fd (-1)); [done|lia]. }
    destruct Hg as (s' & Eg & R'). exists s'. step_with Eg. by destruct (spec_read fd auto a).
  - exists s. by rewrite (get_read_run s a fd auto R Ho).
  - destruct (get_write_run s a fd R Ho) as (s' & Eg & R'). exists s'. by step_with Eg.
  - destruct (del_run s a fd R Ho) as (s' & Eg & R'). exists s'. by step_with Eg.
Qed.

Lemma run_fd_ops_refines ops : forall s a,
  fd_rel s a -> Forall fd_op_ok ops -> exists s', run_fd_ops ops s = Ret (spec_ops ops a).1 s' /\ fd_rel s' (spec_ops ops a).2.
Proof.
  induction ops as [|o ops IH]; intros s a R Ho; [by exists s|]. apply Forall_cons in Ho as [Ho Hops].
  cbn [run_fd_ops spec_ops]. destruct (run_fd_op_refines o s a R Ho) as (s1 & E1 & R1).
  destruct (spec_op o a) as [r a1]. destruct (IH s1 a1 R1 Hops) as (s2 & E2 & R2).
  exists s2. step_with E1. step_with E2. by destruct (spec_ops ops a1).
Qed.

(** C19: FdManager is a finite map from descriptors to contexts, under every
    interleaving of the critical sections of its methods and for every
    descriptor that is not negative: no access leaves the table, which grows as
    needed; each call returns what the map says; a descriptor keeps its context
    until it is deleted; and no two descriptors share one. *)
Theorem fd_manager_refines (ops : list fd_op) (k : K) :
  Forall fd_op_ok ops ->
  exists s, run_fd_ops ops (FdManager_new k) = Ret (spec_ops ops (∅, O)).1 s /\
    (forall fd, 0 <= fd -> mjoin (m_datas s !! Z.to_nat fd) = (spec_ops ops (∅, O)).2.1 !! fd) /\
    (forall fd c, 0 <= fd -> mjoin (m_datas s !! Z.to_nat fd) = Some c -> exists x, ctxs s !! c = Some x /\ m_fd x = fd).
Proof.
  intros Ho. destruct (run_fd_ops_refines ops (FdManager_new k) (∅, O) (fd_rel_new k) Ho) as (s & E & R).
  assert (Ht : forall fd, 0 <= fd -> mjoin (m_datas s !! Z.to_nat fd) = (spec_ops ops (∅, O)).2.1 !! fd).
  { intros fd Hfd. rewrite (rel_table s _ R). by rewrite Z2Nat.id by lia. }
  exists s. split; [done|]. split; [done|]. intros fd c Hfd. rewrite Ht by done. apply R.
Qed.
End fd_refines.

(** ** A concrete kernel *)

(** Descriptors below 3 are no sockets, from 1000 they are not open; the state
    are the flags of each. *)
#[export] Instance DemoFds : FdKernel (gmap Z Z) := {
  fstat fd k := if 1000 <=? fd then None else Some (3 <=? fd);
  getfl fd k := default 2 (k !! fd);
  setfl fd v k := <[fd := v]> k
}.

(** Two threads ask for 70 at the same time, both read before either writes. *)
Definition demo_fd_ops : list fd_op :=
  [OGet 5 true; OGet 5 false; ORead 70 true; ORead 70 true; OWrite 70; OWrite 70; OGet 70 true; ODel 5; OGet 5 false; OGet (-1) true].

Lemma fd_manager_refines_witness :
  Forall fd_op_ok demo_fd_ops /\
  (spec_ops demo_fd_ops (∅, O)).1 =
    [Some (Some 0%nat); Some (Some 0%nat); None; None; Some (Some 1%nat); Some (Some 2%nat); Some (Some 2%nat); None; Some None; Some None] /\
  exists s, run_fd_ops demo_fd_ops (FdManager_new (∅ : gmap Z Z)) = Ret (spec_ops demo_fd_ops (∅, O)).1 s /\
    (forall fd, 0 <= fd -> mjoin (m_datas s !! Z.to_nat fd) = (spec_ops demo_fd_ops (∅, O)).2.1 !! fd) /\
    (forall fd c, 0 <= fd -> mjoin (m_datas s !! Z.to_nat fd) = Some c -> exists x, ctxs s !! c = Some x /\ m_fd x = fd).
Proof.
  assert (Ho : Forall fd_op_ok demo_fd_ops) by (repeat constructor; cbn; lia).
  split; [exact Ho|]. split; [vm_compute; reflexivity|]. exact (fd_manager_refines demo_fd_ops ∅ Ho).
Defined.
