(* ===== verification/Hook.v ===== *)
(** linko/hook.{h,cc}: the replacements of the blocking calls, which wait in the
    IOManager instead of in the kernel.

    The original functions ([read_f] and the like), the IOManager of the thread
    and its timers are an interface over the outside state [N]; errno is part
    of that state.  The timers do_io and connect arm run the lambda
    [on_io_timeout] of this file. *)
From S2P Require Import Prelude FdManager.
Open Scope Z_scope.

Definition EINTR : Z := 4.
Definition EBADF : Z := 9.
Definition EAGAIN : Z := 11.
Definition ETIMEDOUT : Z := 110.
Definition EINPROGRESS : Z := 115.
Definition READ : Z := 1.
Definition WRITE : Z := 4.
Definition SOL_SOCKET : Z := 1.
Definition SO_ERROR : Z := 4.
Definition FIONBIO : Z := 0x5421.

(** What a timer of this file does when it fires. *)
Inductive hook_timer :=
| IoTimeout (tinfo : nat) (fd event : Z)
| Wake.

Class HookApi (N : Type) := {
  errno : N -> Z;
  set_errno : Z -> N -> N;
  (** IOManager::GetThis() is not null. *)
  has_iom : N -> bool;
  iom_addTimer : Z -> hook_timer -> N -> nat * N;
  iom_addConditionTimer : Z -> hook_timer -> N -> nat * N;
  timer_cancel : nat -> N -> N;
  iom_addEvent : Z -> Z -> N -> Z * N;
  iom_cancelEvent : Z -> Z -> N -> N;
  iom_cancelAll : Z -> N -> N;
  sleep_f : Z -> N -> Z * N;
  usleep_f : Z -> N -> Z * N;
  socket_f : Z -> Z -> Z -> N -> Z * N;
  connect_f : Z -> N -> Z * N;
  close_f : Z -> N -> Z * N;
  (** fcntl with or without an argument, F_GETFL and F_SETFL excepted. *)
  fcntl_f : Z -> Z -> option Z -> N -> Z * N;
  (** The result of fcntl_f(fd, F_SETFL, arg). *)
  setfl_result : Z -> Z -> N -> Z;
  (** ioctl_f, with the int its argument points to. *)
  ioctl_f : Z -> Z -> Z -> N -> Z * N;
  (** getsockopt_f: [None] is -1, else the int it stores. *)
  getsockopt_f : Z -> Z -> Z -> N -> option Z;
  setsockopt_f : Z -> Z -> Z -> N -> Z * N
}.

(** The thread's flag, the table of descriptors with the outside state as its
    kernel, and the [cancelled] of every timer_info: [None] when it is gone. *)
Record Hook (N : Type) := mkHook {
  t_hook_enable : bool;
  h_fds : FdManager N;
  h_tinfos : list (option Z)
}.
Arguments mkHook {N}. Arguments t_hook_enable {N}. Arguments h_fds {N}. Arguments h_tinfos {N}.

Section hook.
Context {N : Type} `{FdKernel N} `{HookApi N}.
Abbreviation HM := (M (Hook N)).

Definition is_hook_enable (s : Hook N) : bool := t_hook_enable s.
Definition set_hook_enable (flag : bool) : HM unit := modify (fun s : Hook N => mkHook flag (h_fds s) (h_tinfos s)).

Definition set_fds (f : FdManager N) (s : Hook N) : Hook N := mkHook (t_hook_enable s) f (h_tinfos s).
Definition set_tinfos (l : list (option Z)) (s : Hook N) : Hook N := mkHook (t_hook_enable s) (h_fds s) l.
Definition outside (s : Hook N) : N := kern (h_fds s).
Definition set_outside (n : N) (s : Hook N) : Hook N := set_fds (mkFdManager (m_datas (h_fds s)) (ctxs (h_fds s)) n) s.

(** A call that only the outside state knows. *)
Definition call {A} (f : N -> A * N) : HM A := fun s => let '(a, n) := f (outside s) in Ret a (set_outside n s).
Definition ask {A} (f : N -> A) : HM A := fun s => Ret (f (outside s)) s.
Definition tell (f : N -> N) : HM unit := modify (fun s : Hook N => set_outside (f (outside s)) s).

(** A method of FdMgr. *)
Definition fd_mgr {A} (m : M (FdManager N) A) : HM A := fun s =>
  match m (h_fds s) with
  | Ret a f => Ret a (set_fds f s)
  | Throw e f => Throw e (set_fds f s)
  | Crash c => Crash c
  end.
(** FdMgr::get(fd): the object the pointer points to. *)
Definition get_ctx (fd : Z) : HM (option (nat * FdCtx)) :=
  c ← fd_mgr (get_fd fd false);
  match c with
  | None => mret None
  | Some i => s ← get; match ctxs (h_fds s) !! i with Some x => mret (Some (i, x)) | None => crash_with NullDeref end
  end.
Definition set_ctx (i : nat) (f : FdCtx -> FdCtx) : HM unit :=
  modify (fun s : Hook N => set_fds (mkFdManager (m_datas (h_fds s)) (alter f i (ctxs (h_fds s))) (outside s)) s).

(** IOManager::GetThis() is about to be dereferenced. *)
Definition with_iom : HM unit := b ← ask has_iom; if (b : bool) then mret tt else crash_with NullDeref.

(** What happens from YieldToHold until the fiber goes on: everything else that
    runs, the timers' functions included. *)
Context (YieldToHold : Hook N -> Hook N).

(** ** timer_info *)

Definition new_tinfo : HM nat :=
  s ← get; put (set_tinfos (h_tinfos s ++ [Some 0]) s);; mret (length (h_tinfos s)).
Definition cancelled (t : nat) : HM Z :=
  s ← get; match h_tinfos s !! t with Some (Some c) => mret c | _ => crash_with UseAfterFree end.
Definition drop_tinfo (t : nat) : HM unit := modify (fun s : Hook N => set_tinfos (<[t := None]> (h_tinfos s)) s).

(** The function of the timer. *)
Definition on_io_timeout (t : nat) (fd event : Z) : HM unit :=
  s ← get;
  match h_tinfos s !! t with
  | Some (Some c) =>
    if negb (c =? 0) then mret tt else
    put (set_tinfos (<[t := Some ETIMEDOUT]> (h_tinfos s)) s);;
    tell (iom_cancelEvent fd event)
  | _ => mret tt
  end.

(** ** do_io *)

Section io.
Context (fd : Z) (orig : N -> Z * N) (event : Z).

(** [while (n == -1 && errno == EINTR)]. *)
Fixpoint again (fuel : nat) (n : Z) : HM Z :=
  match fuel with
  | O => crash_with OutOfFuel
  | S fuel =>
    e ← ask errno;
    if (n =? -1) && (e =? EINTR) then n ← call orig; again fuel n else mret n
  end.

Definition arm (timeout : Z) (tinfo : nat) : HM (option nat) :=
  if timeout =? u64 (-1) then mret None
  else t ← call (iom_addConditionTimer timeout (IoTimeout tinfo fd event)); mret (Some t).
Definition disarm (timer : option nat) : HM unit :=
  match timer with Some t => tell (timer_cancel t) | None => mret tt end.

(** From the label [retry]. *)
Fixpoint retry (fuel : nat) (timeout : Z) (tinfo : nat) : HM Z :=
  match fuel with
  | O => crash_with OutOfFuel
  | S fuel =>
    n ← call orig;
    n ← again (S fuel) n;
    e ← ask errno;
    if (n =? -1) && (e =? EAGAIN) then
      with_iom;;
      timer ← arm timeout tinfo;
      rt ← call (iom_addEvent fd event);
      if rt =? -1 then disarm timer;; mret n
      else
        modify YieldToHold;;
        disarm timer;;
        c ← cancelled tinfo;
        if negb (c =? 0) then tell (set_errno c);; mret (-1)
        else retry fuel timeout tinfo
    else mret n
  end.

Definition do_io (fuel : nat) (timeout_so : Z) : HM Z :=
  s ← get;
  if negb (t_hook_enable s) then call orig else
  ctx ← get_ctx fd;
  match ctx with
  | None => call orig
  | Some (_, c) =>
    if m_isClosed c then tell (set_errno EBADF);; mret (-1)
    else if negb (m_isSocket c) || m_userNonblock c then call orig
    else
      tinfo ← new_tinfo;
      n ← retry fuel (getTimeout timeout_so c) tinfo;
      drop_tinfo tinfo;; mret n
  end.
End io.

(** ** The replacements *)

Section hooked.
Context (fuel : nat).

(** The sleeping calls: a timer that schedules the fiber, and a yield. *)
Definition wait_ms (ms : Z) : HM unit :=
  with_iom;; call (iom_addTimer ms Wake);; modify YieldToHold.
(** [seconds * 1000] is an unsigned int. *)
Definition sleep (seconds : Z) : HM Z :=
  s ← get;
  if negb (t_hook_enable s) then call (sleep_f seconds) else wait_ms (u32 (seconds * 1000));; mret 0.
Definition usleep (usec : Z) : HM Z :=
  s ← get;
  if negb (t_hook_enable s) then call (usleep_f usec) else wait_ms (usec / 1000);; mret 0.
(** Without the hook it calls itself. *)
Fixpoint nanosleep (depth : nat) (tv_sec tv_nsec : Z) : HM Z :=
  match depth with
  | O => crash_with OutOfFuel
  | S depth =>
    s ← get;
    if negb (t_hook_enable s) then nanosleep depth tv_sec tv_nsec
    else
      let timeout_ms := i32 (i64 (tv_sec * 1000) + Z.quot (Z.quot tv_nsec 1000) 1000) in
      wait_ms (u64 timeout_ms);; mret 0
  end.

Definition socket (domain type protocol : Z) : HM Z :=
  s ← get;
  if negb (t_hook_enable s) then call (socket_f domain type protocol) else
  fd ← call (socket_f domain type protocol);
  if fd =? -1 then mret fd else fd_mgr (get_fd fd true);; mret fd.

Definition getsockopt (fd level optname : Z) : HM (option Z) := ask (getsockopt_f fd level optname).

Definition connect_with_timeout (fd timeout_ms : Z) : HM Z :=
  s ← get;
  if negb (t_hook_enable s) then call (connect_f fd) else
  ctx ← get_ctx fd;
  match ctx with
  | None => tell (set_errno EBADF);; mret (-1)
  | Some (_, c) =>
    if m_isClosed c then tell (set_errno EBADF);; mret (-1)
    else if negb (m_isSocket c) then call (connect_f fd)
    else if m_userNonblock c then call (connect_f fd)
    else
      n ← call (connect_f fd);
      e ← ask errno;
      if n =? 0 then mret 0
      else if negb (n =? -1) || negb (e =? EINPROGRESS) then mret n
      else
        with_iom;;
        tinfo ← new_tinfo;
        timer ← arm fd WRITE timeout_ms tinfo;
        rt ← call (iom_addEvent fd WRITE);
        timed_out ← (if rt =? 0 then modify YieldToHold;; disarm timer;; cancelled tinfo
                     else disarm timer;; mret 0);
        drop_tinfo tinfo;;
        if negb (timed_out =? 0) then tell (set_errno timed_out);; mret (-1) else
        err ← getsockopt fd SOL_SOCKET SO_ERROR;
        match err with
        | None => mret (-1)
        | Some 0 => mret 0
        | Some e => tell (set_errno e);; mret (-1)
        end
  end.
(** [s_connect_timeout]: the configured value. *)
Definition connect (s_connect_timeout fd : Z) : HM Z := connect_with_timeout fd (u64 s_connect_timeout).

Definition accept (fd : Z) (accept_f : N -> Z * N) : HM Z :=
  r ← do_io fd accept_f READ fuel SO_RCVTIMEO;
  (if 0 <=? r then fd_mgr (get_fd r true);; mret tt else mret tt);;
  mret r.

(** read, readv, recv, recvfrom and recvmsg, and write, writev, send, sendto and
    sendmsg: the original with its arguments. *)
Definition hooked_read (fd : Z) (read_f : N -> Z * N) : HM Z := do_io fd read_f READ fuel SO_RCVTIMEO.
Definition hooked_write (fd : Z) (write_f : N -> Z * N) : HM Z := do_io fd write_f WRITE fuel SO_SNDTIMEO.

Definition close (fd : Z) : HM Z :=
  s ← get;
  if negb (t_hook_enable s) then call (close_f fd) else
  ctx ← get_ctx fd;
  match ctx with
  | Some _ => b ← ask has_iom; (if (b : bool) then tell (iom_cancelAll fd) else mret tt);; fd_mgr (del fd)
  | None => mret tt
  end;;
  call (close_f fd).

(** ** Flags and options *)

Definition F_DUPFD : Z := 0.
Definition F_SETFD : Z := 2.
Definition F_GETFL : Z := 3.
Definition F_SETFL : Z := 4.
Definition F_GETLK : Z := 5.
Definition F_SETLK : Z := 6.
Definition F_SETLKW : Z := 7.
Definition F_SETOWN : Z := 8.
Definition F_SETSIG : Z := 10.
Definition F_SETOWN_EX : Z := 15.
Definition F_GETOWN_EX : Z := 16.
Definition F_SETLEASE : Z := 1024.
Definition F_NOTIFY : Z := 1026.
Definition F_DUPFD_CLOEXEC : Z := 1030.
Definition F_SETPIPE_SZ : Z := 1031.
(** The commands whose argument is passed on. *)
Definition passes_arg (cmd : Z) : bool :=
  bool_decide (cmd ∈ [F_DUPFD; F_DUPFD_CLOEXEC; F_SETFD; F_SETSIG; F_SETOWN; F_SETLEASE; F_NOTIFY; F_SETPIPE_SZ;
                      F_SETLK; F_SETLKW; F_GETLK; F_GETOWN_EX; F_SETOWN_EX]).

(** The context of a socket the library looks after. *)
Definition managed (ctx : option (nat * FdCtx)) : option (nat * FdCtx) :=
  match ctx with
  | Some (i, c) => if m_isClosed c || negb (m_isSocket c) then None else Some (i, c)
  | None => None
  end.
Definition setfl_f (fd arg : Z) : HM Z := call (fun n => (setfl_result fd arg n, setfl fd arg n)).

(** [arg]: the argument behind [cmd], if the caller passes one. *)
Definition fcntl (fd cmd arg : Z) : HM Z :=
  if cmd =? F_SETFL then
    ctx ← get_ctx fd;
    match managed ctx with
    | None => setfl_f fd arg
    | Some (i, c) =>
      set_ctx i (setUserNonblock (negb (Z.land arg O_NONBLOCK =? 0)));;
      setfl_f fd (if m_sysNonblock c then Z.lor arg O_NONBLOCK else Z.land arg (Z.lnot O_NONBLOCK))
    end
  else if cmd =? F_GETFL then
    arg ← ask (getfl fd);
    ctx ← get_ctx fd;
    mret (match managed ctx with
          | None => arg
          | Some (_, c) => if m_userNonblock c then Z.lor arg O_NONBLOCK else Z.land arg (Z.lnot O_NONBLOCK)
          end)
  else call (fcntl_f fd cmd (if passes_arg cmd then Some arg else None)).

(** [arg]: the int the argument points to. *)
Definition ioctl (fd request arg : Z) : HM Z :=
  (if request =? FIONBIO then
     ctx ← get_ctx fd;
     match managed ctx with
     | None => mret tt
     | Some (i, _) => set_ctx i (setUserNonblock (negb (arg =? 0)))
     end
   else mret tt);;
  call (ioctl_f fd request arg).

(** [tv_sec], [tv_usec]: the timeval of a time-out option. *)
Definition setsockopt (fd level optname tv_sec tv_usec : Z) : HM Z :=
  s ← get;
  (if t_hook_enable s && (level =? SOL_SOCKET) && ((optname =? SO_RCVTIMEO) || (optname =? SO_SNDTIMEO)) then
     ctx ← get_ctx fd;
     match ctx with
     | Some (i, _) => set_ctx i (setTimeout optname (u64 (i64 (tv_sec * 1000) + Z.quot tv_usec 1000)))
     | None => mret tt
     end
   else mret tt);;
  call (setsockopt_f fd level optname).
End hooked.
End hook.
