(* ===== verification/HookThms.v ===== *)
(** What the replacements promise: a hooked call waits like a blocking one, and
    the program sees the non-blocking flag it has set while the kernel keeps the
    descriptor non-blocking. *)
From S2P Require Import Prelude.
From stdpp Require Import list gmap.
From S2P Require Import FdManager Hook.
Open Scope Z_scope.

(** ** do_io *)

Section io.
Context {N : Type} `{FdKernel N} `{HookApi N} (YieldToHold : Hook N -> Hook N).
Context (fd : Z) (orig : N -> Z * N) (event timeout : Z) (tinfo : nat).

(** The original is called until no signal interrupts it; [j] interruptions. *)
Inductive attempt : Hook N -> Z -> Hook N -> nat -> Prop :=
| att_last s n n1 : orig (outside s) = (n, n1) -> (n = -1 -> errno n1 <> EINTR) -> attempt s n (set_outside n1 s) 0
| att_interrupted s n1 n s' j :
    orig (outside s) = (-1, n1) -> errno n1 = EINTR -> attempt (set_outside n1 s) n s' j -> attempt s n s' (S j).

(** What is registered when the call would block: the event and, unless the
    descriptor has no time-out, which is the largest 64-bit number, a timer of that
    many milliseconds; [rt] is what addEvent says. *)
Inductive registered (s : Hook N) : option nat -> Z -> Hook N -> Prop :=
| reg_no_timeout rt n1 :
    has_iom (outside s) = true -> timeout = 2 ^ 64 - 1 ->
    iom_addEvent fd event (outside s) = (rt, n1) -> registered s None rt (set_outside n1 s)
| reg_timeout t n1 rt n2 :
    has_iom (outside s) = true -> timeout <> 2 ^ 64 - 1 ->
    iom_addConditionTimer timeout (IoTimeout tinfo fd event) (outside s) = (t, n1) ->
    iom_addEvent fd event n1 = (rt, n2) -> registered s (Some t) rt (set_outside n2 s).

(** The timer of the round is cancelled. *)
Definition timer_off (timer : option nat) (s : Hook N) : Hook N :=
  match timer with None => s | Some t => set_outside (timer_cancel t (outside s)) s end.

(** The word the call and its timer share: 0 until the timer has fired. *)
Definition word (s : Hook N) (why : Z) : Prop := h_tinfos s !! tinfo = Some (Some why).

(** How a blocking call ends. *)
Inductive ending := Done | NotRegistered | TimedOut (why : Z).

(** The specification of a blocking call with a time-out; the number bounds the
    rounds and the interruptions. *)
Inductive blocking : Hook N -> ending -> Z -> Hook N -> nat -> Prop :=
| blk_done s n s' j : attempt s n s' j -> ~ (n = -1 /\ errno (outside s') = EAGAIN) -> blocking s Done n s' j
| blk_not_registered s s1 s2 timer j :
    attempt s (-1) s1 j -> errno (outside s1) = EAGAIN -> registered s1 timer (-1) s2 ->
    blocking s NotRegistered (-1) (timer_off timer s2) j
| blk_timed_out s s1 s2 s3 timer rt why j :
    attempt s (-1) s1 j -> errno (outside s1) = EAGAIN -> registered s1 timer rt s2 -> rt <> -1 ->
    s3 = timer_off timer (YieldToHold s2) -> word s3 why -> why <> 0 ->
    blocking s (TimedOut why) (-1) (set_outside (set_errno why (outside s3)) s3) j
| blk_woken s s1 s2 s3 timer rt how n s' j j' :
    attempt s (-1) s1 j -> errno (outside s1) = EAGAIN -> registered s1 timer rt s2 -> rt <> -1 ->
    s3 = timer_off timer (YieldToHold s2) -> word s3 0 ->
    blocking s3 how n s' j' -> blocking s how n s' (Nat.max j (S j')).

Lemma outside_set n (s : Hook N) : outside (set_outside n s) = n.
Proof. done. Qed.

Lemma hook_call_run {A} (f : N -> A * N) s a n : f (outside s) = (a, n) -> call f s = Ret a (set_outside n s).
Proof. intros E. unfold call. by rewrite E. Qed.

Lemma attempt_run s n s' j : attempt s n s' j -> forall fuel, (j <= fuel)%nat ->
  (n ← call orig; again orig (S fuel) n) s = Ret n s'.
Proof.
  induction 1 as [s n n1 E Hn|s n1 n s' j E He Ha IH]; intros fuel Hf.
  - step_with (hook_call_run orig s n n1 E). cbn [again]. step_with (eq_refl : ask errno (set_outside n1 s) = Ret (errno n1) _).
    destruct (Z.eqb_spec n (-1)) as [Hm|]; [|done]. destruct (Z.eqb_spec (errno n1) EINTR) as [Hi|]; [|done]. by destruct (Hn Hm).
  - step_with (hook_call_run orig s (-1) n1 E). destruct fuel as [|fuel]; [lia|]. cbn [again].
    step_with (eq_refl : ask errno (set_outside n1 s) = Ret (errno n1) _). rewrite He. cbn [andb Z.eqb].
    change ((-1 =? -1) && (EINTR =? EINTR)) with true. cbv iota. apply IH. lia.
Qed.

Lemma retry_unfold fuel s :
  retry YieldToHold fd orig event (S fuel) timeout tinfo s =
  (n ← (n ← call orig; again orig (S fuel) n);
   e ← ask errno;
   if (n =? -1) && (e =? EAGAIN) then
     with_iom;;
     timer ← arm fd event timeout tinfo;
     rt ← call (iom_addEvent fd event);
     if rt =? -1 then disarm timer;; mret n
     else
       modify YieldToHold;;
       disarm timer;;
       c ← cancelled tinfo;
       if negb (c =? 0) then tell (set_errno c);; mret (-1)
       else retry YieldToHold fd orig event fuel timeout tinfo
   else mret n) s.
Proof. cbn [retry]. unfold mbind, M_bind. by destruct (call orig s). Qed.

Lemma registered_run {A} s timer rt s' (f : option nat -> Z -> M (Hook N) A) :
  registered s timer rt s' ->
  (with_iom;; timer ← arm fd event timeout tinfo; rt ← call (iom_addEvent fd event); f timer rt) s = f timer rt s'.
Proof.
  intros Hr. assert (Ew : with_iom s = Ret tt s).
  { unfold with_iom. step_with (eq_refl : ask has_iom s = Ret _ s). by destruct Hr as [? ? -> |? ? ? ? ->]. }
  step_with Ew. destruct Hr as [rt n1 _ Ht Ee|t n1 rt n2 _ Ht Ea Ee].
  - assert (Em : arm fd event timeout tinfo s = Ret None s) by (unfold arm; by destruct (Z.eqb_spec timeout (u64 (-1)))).
    step_with Em. by step_with (hook_call_run _ s rt n1 Ee).
  - assert (Em : arm fd event timeout tinfo s = Ret (Some t) (set_outside n1 s)).
    { unfold arm. destruct (Z.eqb_spec timeout (u64 (-1))); [done|]. by step_with (hook_call_run _ s t n1 Ea). }
    step_with Em. by step_with (hook_call_run _ (set_outside n1 s) rt n2 Ee).
Qed.

(** ... and what do_io does is such a registration. *)
Lemma registered_of {A} s (f : option nat -> Z -> M (Hook N) A) a s' :
  (with_iom;; timer ← arm fd event timeout tinfo; rt ← call (iom_addEvent fd event); f timer rt) s = Ret a s' ->
  exists timer rt s2, registered s timer rt s2 /\ f timer rt s2 = Ret a s'.
Proof.
  intros E. apply bind_Ret_inv in E as ([] & s1 & Ew & E). assert (Hi : has_iom (outside s) = true /\ s1 = s).
  { unfold with_iom in Ew. step_with (eq_refl : ask has_iom s = Ret _ s) in Ew. destruct (has_iom (outside s)); [by injection Ew as <-|done]. }
  destruct Hi as [Hi ->]. apply bind_Ret_inv in E as (timer & s1 & Em & E). apply bind_Ret_inv in E as (rt & s2 & Ee & E).
  exists timer, rt, s2. split; [|done]. unfold arm in Em. revert Em. destruct (Z.eqb_spec timeout (u64 (-1))) as [Ht|Ht]; intros Em.
  - injection Em as <- <-. unfold call in Ee. destruct (iom_addEvent fd event (outside s)) as [r n1] eqn:Ea. injection Ee as <- <-. by constructor.
  - apply bind_Ret_inv in Em as (t & s3 & Ec & Em). injection Em as <- ->. unfold call in Ec, Ee.
    destruct (iom_addConditionTimer _ _ _) as [t' n1] eqn:Ec1. injection Ec as -> <-. change (outside (set_outside n1 s)) with n1 in Ee.
    destruct (iom_addEvent fd event n1) as [r n2] eqn:Ea. injection Ee as <- <-.
    change (set_outside n2 (set_outside n1 s)) with (set_outside n2 s). by apply (reg_timeout s t n1).
Qed.

Lemma disarm_run timer s : disarm timer s = Ret tt (timer_off timer s).
Proof. by destruct timer. Qed.

Lemma cancelled_run s why : word s why -> cancelled tinfo s = Ret why s.
Proof. unfold cancelled. intros Hw. step_with (eq_refl : get s = Ret s s). by rewrite Hw. Qed.

Lemma cancelled_of s why s' : cancelled tinfo s = Ret why s' -> s' = s /\ word s why.
Proof.
  unfold cancelled, word. step_with (eq_refl : get s = Ret s s). destruct (h_tinfos s !! tinfo) as [[c|]|]; [|done..]. by intros [= -> ->].
Qed.

Lemma blocking_run s how n s' j : blocking s how n s' j -> forall fuel, (j <= fuel)%nat ->
  retry YieldToHold fd orig event (S fuel) timeout tinfo s = Ret n s'.
Proof.
  induction 1 as [s n s' j Ha Hd|s s1 s2 timer j Ha He Hr|s s1 s2 s3 timer rt why j Ha He Hr Hrt -> Hc Hw
    |s s1 s2 s3 timer rt how n s' j j' Ha He Hr Hrt -> Hc Hb IH]; intros fuel Hf; rewrite retry_unfold.
  - step_with (attempt_run s n s' j Ha fuel Hf). step_with (eq_refl : ask errno s' = Ret (errno (outside s')) s').
    destruct (Z.eqb_spec n (-1)), (Z.eqb_spec (errno (outside s')) EAGAIN); try done. by destruct Hd.
  - step_with (attempt_run s (-1) s1 j Ha fuel Hf). step_with (eq_refl : ask errno s1 = Ret (errno (outside s1)) s1). rewrite He.
    change ((-1 =? -1) && (EAGAIN =? EAGAIN)) with true. cbv iota. rewrite (registered_run s1 timer (-1) s2 _ Hr). cbn [Z.eqb Pos.eqb].
    by step_with (disarm_run timer s2).
  - step_with (attempt_run s (-1) s1 j Ha fuel Hf). step_with (eq_refl : ask errno s1 = Ret (errno (outside s1)) s1). rewrite He.
    change ((-1 =? -1) && (EAGAIN =? EAGAIN)) with true. cbv iota. rewrite (registered_run s1 timer rt s2 _ Hr).
    destruct (Z.eqb_spec rt (-1)); [done|]. step_with (eq_refl : modify YieldToHold s2 = Ret tt (YieldToHold s2)).
    step_with (disarm_run timer (YieldToHold s2)). step_with (cancelled_run _ _ Hc). by destruct (Z.eqb_spec why 0).
  - step_with (attempt_run s (-1) s1 j Ha fuel ltac:(lia)). step_with (eq_refl : ask errno s1 = Ret (errno (outside s1)) s1). rewrite He.
    change ((-1 =? -1) && (EAGAIN =? EAGAIN)) with true. cbv iota. rewrite (registered_run s1 timer rt s2 _ Hr).
    destruct (Z.eqb_spec rt (-1)); [done|]. step_with (eq_refl : modify YieldToHold s2 = Ret tt (YieldToHold s2)).
    step_with (disarm_run timer (YieldToHold s2)). step_with (cancelled_run _ _ Hc). cbn [Z.eqb negb]. destruct fuel as [|fuel]; [lia|]. apply IH. lia.
Qed.

(** What it returns is the end of a blocking call. *)
Lemma attempt_of fuel : forall s n s', (n ← call orig; again orig fuel n) s = Ret n s' -> exists j, attempt s n s' j /\ (j < fuel)%nat.
Proof.
  induction fuel as [|fuel IH]; intros s n s' E.
  - apply bind_Ret_inv in E as (m & s1 & _ & [=]).
  - apply bind_Ret_inv in E as (m & s1 & Ec & E). unfold call in Ec. destruct (orig (outside s)) as [m' n1] eqn:Eo.
    injection Ec as -> <-. cbn [again] in E. step_with (eq_refl : ask errno (set_outside n1 s) = Ret (errno n1) _) in E.
    revert E. destruct (Z.eqb_spec m (-1)) as [Hm|Hm], (Z.eqb_spec (errno n1) EINTR) as [He|He]; cbn [andb]; intros E; try subst m.
    1: destruct (IH _ _ _ E) as (j & Ha & Hj); exists (S j); split; [by eapply att_interrupted|lia].
    all: injection E as <- <-; exists O; split; [by constructor|lia].
Qed.

Lemma retry_inv fuel : forall s n s',
  retry YieldToHold fd orig event fuel timeout tinfo s = Ret n s' -> exists how j, blocking s how n s' j /\ (j < fuel)%nat.
Proof.
  induction fuel as [|fuel IH]; intros s n s' E; [done|]. rewrite retry_unfold in E.
  apply bind_Ret_inv in E as (m & s1 & E1 & E). apply attempt_of in E1 as (j & Ha & Hj).
  step_with (eq_refl : ask errno s1 = Ret (errno (outside s1)) s1) in E.
  revert E. destruct (Z.eqb_spec m (-1)) as [Hm|Hm], (Z.eqb_spec (errno (outside s1)) EAGAIN) as [He|He]; cbn [andb]; intros E; try subst m.
  2-4: injection E as <- <-; exists Done, j; split; [constructor; naive_solver|lia].
  apply registered_of in E as (timer & rt & s2 & Hr & E). revert E. destruct (Z.eqb_spec rt (-1)) as [-> |Hrt]; intros E.
  - step_with (disarm_run timer s2) in E. injection E as <- <-. exists NotRegistered, j. split; [by eapply blk_not_registered|lia].
  - step_with (eq_refl : modify YieldToHold s2 = Ret tt (YieldToHold s2)) in E. step_with (disarm_run timer (YieldToHold s2)) in E.
    apply bind_Ret_inv in E as (why & s5 & Ew & E). apply cancelled_of in Ew as [-> Hc].
    revert E. destruct (Z.eqb_spec why 0) as [-> |Hw]; cbn [negb]; intros E.
    + apply IH in E as (how & j' & Hb & Hj'). exists how, (Nat.max j (S j')). split; [by eapply blk_woken|lia].
    + injection E as <- <-. exists (TimedOut why), j. split; [by eapply blk_timed_out|lia].
Qed.

(** A round that ends in the timer's function. *)
Lemma word_outside n s why : word s why -> word (set_outside n s) why.
Proof. done. Qed.

Lemma word_attempt s n s' j why : attempt s n s' j -> word s why -> word s' why.
Proof. induction 1; auto. Qed.

Lemma word_registered s timer rt s' why : registered s timer rt s' -> word s why -> word s' why.
Proof. by destruct 1. Qed.

Lemma on_io_timeout_fires s : word s 0 ->
  on_io_timeout tinfo fd event s =
  Ret tt (set_outside (iom_cancelEvent fd event (outside s)) (set_tinfos (<[tinfo := Some ETIMEDOUT]> (h_tinfos s)) s)).
Proof. intros Hw. unfold on_io_timeout. step_with (eq_refl : get s = Ret s s). by rewrite Hw. Qed.

Lemma blocking_fired s s1 s2 t rt j :
  word s 0 -> attempt s (-1) s1 j -> errno (outside s1) = EAGAIN -> registered s1 (Some t) rt s2 -> rt <> -1 ->
  on_io_timeout tinfo fd event s2 = Ret tt (YieldToHold s2) ->
  exists s', blocking s (TimedOut ETIMEDOUT) (-1) s' j /\
    outside s' = set_errno ETIMEDOUT (timer_cancel t (iom_cancelEvent fd event (outside s2))).
Proof.
  intros Hw Ha He Hr Hrt Hy. assert (Hw2 : word s2 0) by (by eapply word_registered, word_attempt).
  rewrite (on_io_timeout_fires s2 Hw2) in Hy. injection Hy as Hy. eexists. split.
  - eapply blk_timed_out; [exact Ha|exact He|exact Hr|exact Hrt|reflexivity| |done].
    rewrite <- Hy. unfold word. cbn. apply list_lookup_insert_eq. by eapply lookup_lt_Some.
  - by rewrite <- Hy.
Qed.

(** What the caller sees is never that the call would block or was interrupted. *)
Lemma blocking_done s how n s' j : blocking s how n s' j -> how = Done -> n = -1 -> errno (outside s') <> EINTR /\ errno (outside s') <> EAGAIN.
Proof.
  induction 1 as [s n s' j Ha Hd| | |? ? ? ? ? ? ? ? ? ? ? ? ? ? ? ? ? ? IH]; intros Eh En; [|done..|by apply IH].
  split; [|by intros Ee; apply Hd]. clear Hd. induction Ha as [s n n1 E Hn|]; auto.
Qed.
End io.

(** ** The property *)

Class HookLaws (N : Type) `{FdKernel N} `{HookApi N} := {
  errno_set e (n : N) : errno (set_errno e n) = e
}.

Section do_io_blocks.
Context {N : Type} `{HL : HookLaws N} (YieldToHold : Hook N -> Hook N).

(** The call has a timer_info of its own, alone in the list of the others. *)
Definition with_tinfo (s : Hook N) : Hook N := set_tinfos (h_tinfos s ++ [Some 0]) s.
Definition without_tinfo (t : nat) (s : Hook N) : Hook N := set_tinfos (<[t := None]> (h_tinfos s)) s.

Lemma do_io_managed fd orig event fuel timeout_so (s : Hook N) i c :
  t_hook_enable s = true -> get_ctx fd s = Ret (Some (i, c)) s -> m_isClosed c = false -> m_isSocket c = true -> m_userNonblock c = false ->
  do_io YieldToHold fd orig event fuel timeout_so s =
  (n ← retry YieldToHold fd orig event fuel (getTimeout timeout_so c) (length (h_tinfos s));
   drop_tinfo (length (h_tinfos s));; mret n) (with_tinfo s).
Proof.
  intros He Hg Hc Hs Hu. unfold do_io. step_with (eq_refl : get s = Ret s s). rewrite He. cbn [negb]. step_with Hg.
  rewrite Hc, Hs, Hu. cbn [negb orb]. by step_with (eq_refl : new_tinfo s = Ret (length (h_tinfos s)) (with_tinfo s)).
Qed.

(** C30: do_io implements a blocking call with the time-out of the descriptor:
    on a socket the program has not made non-blocking, it returns exactly when
    the specification [blocking] ends, with its result and state, given fuel for
    the rounds and the interruptions.  The caller never sees EINTR or EAGAIN from
    a call that was done, and after a time-out it sees -1 with the error the
    timer has set.  When what runs while it waits is the function of its timer, it
    returns -1 with ETIMEDOUT, the event and the timer cancelled. *)
Theorem do_io_blocks fd orig event timeout_so (s : Hook N) i c :
  t_hook_enable s = true -> get_ctx fd s = Ret (Some (i, c)) s -> m_isClosed c = false -> m_isSocket c = true -> m_userNonblock c = false ->
  (forall how n s1 j,
    blocking YieldToHold fd orig event (getTimeout timeout_so c) (length (h_tinfos s)) (with_tinfo s) how n s1 j ->
    forall fuel, (j < fuel)%nat ->
    do_io YieldToHold fd orig event fuel timeout_so s = Ret n (without_tinfo (length (h_tinfos s)) s1)) /\
  (forall fuel n s', do_io YieldToHold fd orig event fuel timeout_so s = Ret n s' ->
    exists how s1 j,
      blocking YieldToHold fd orig event (getTimeout timeout_so c) (length (h_tinfos s)) (with_tinfo s) how n s1 j /\
      s' = without_tinfo (length (h_tinfos s)) s1 /\
      match how with
      | Done => n = -1 -> errno (outside s') <> EINTR /\ errno (outside s') <> EAGAIN
      | NotRegistered => n = -1
      | TimedOut why => n = -1 /\ why <> 0 /\ errno (outside s') = why
      end) /\
  (forall s1 s2 t rt j,
    attempt orig (with_tinfo s) (-1) s1 j -> errno (outside s1) = EAGAIN ->
    registered fd event (getTimeout timeout_so c) (length (h_tinfos s)) s1 (Some t) rt s2 -> rt <> -1 ->
    on_io_timeout (length (h_tinfos s)) fd event s2 = Ret tt (YieldToHold s2) ->
    exists s', (forall fuel, (j < fuel)%nat -> do_io YieldToHold fd orig event fuel timeout_so s = Ret (-1) s') /\
      errno (outside s') = ETIMEDOUT /\
      outside s' = set_errno ETIMEDOUT (timer_cancel t (iom_cancelEvent fd event (outside s2)))).
Proof.
  intros He Hg Hc Hs Hu.
  assert (Hrun : forall how n s1 j,
    blocking YieldToHold fd orig event (getTimeout timeout_so c) (length (h_tinfos s)) (with_tinfo s) how n s1 j ->
    forall fuel, (j < fuel)%nat -> do_io YieldToHold fd orig event fuel timeout_so s = Ret n (without_tinfo (length (h_tinfos s)) s1)).
  { intros how n s1 j Hb fuel Hf. rewrite (do_io_managed _ _ _ _ _ s i c He Hg Hc Hs Hu). destruct fuel as [|fuel]; [lia|].
    by step_with (blocking_run _ _ _ _ _ _ _ _ _ _ _ Hb fuel ltac:(lia)). }
  split; [exact Hrun|split].
  - intros fuel n s' E. rewrite (do_io_managed _ _ _ _ _ s i c He Hg Hc Hs Hu) in E.
    apply bind_Ret_inv in E as (m & s1 & E & E'). injection E' as <- <-. apply retry_inv in E as (how & j & Hb & _).
    exists how, s1, j. split; [done|]. split; [done|]. change (outside _) with (outside s1).
    pose proof (blocking_done _ _ _ _ _ _ _ _ _ _ _ Hb) as Hd.
    assert (Ht : match how with Done => True | NotRegistered => m = -1 | TimedOut why => m = -1 /\ why <> 0 /\ errno (outside s1) = why end).
    { clear -Hb HL. induction Hb; [done..| |done]. split; [done|]. split; [done|]. cbn. apply errno_set. }
    destruct how; [|done..]. by apply Hd.
  - intros s1 s2 t rt j Ha Ee Hr Hrt Hy. assert (Hw : word (length (h_tinfos s)) (with_tinfo s) 0) by (by apply list_lookup_middle).
    destruct (blocking_fired YieldToHold fd orig event _ _ _ _ _ _ _ _ Hw Ha Ee Hr Hrt Hy) as (s' & Hb & Eo).
    exists (without_tinfo (length (h_tinfos s)) s'). split; [by apply (Hrun _ _ _ _ Hb)|]. change (outside (without_tinfo _ s')) with (outside s').
    split; [|done]. rewrite Eo. apply errno_set.
Qed.
End do_io_blocks.

(** ** A concrete outside *)

(** The open file description of each descriptor, the flags of the descriptions,
    errno, what the next calls on a descriptor answer, with the errno they leave,
    and the timers, with their milliseconds. *)
Record demo_net := mkDemoNet {
  dn_fds : gmap Z Z;
  dn_flags : gmap Z Z;
  dn_errno : Z;
  dn_script : list (Z * Z);
  dn_timers : list (option (Z * hook_timer))
}.
Definition dn_open (fd d : Z) (n : demo_net) : demo_net := mkDemoNet (<[fd := d]> (dn_fds n)) (dn_flags n) (dn_errno n) (dn_script n) (dn_timers n).
Definition dn_set_flags (d v : Z) (n : demo_net) : demo_net :=
  mkDemoNet (dn_fds n) (<[d := v]> (dn_flags n)) (dn_errno n) (dn_script n) (dn_timers n).
Definition dn_set_errno (e : Z) (n : demo_net) : demo_net := mkDemoNet (dn_fds n) (dn_flags n) e (dn_script n) (dn_timers n).
Definition dn_set_timers (l : list (option (Z * hook_timer))) (n : demo_net) : demo_net :=
  mkDemoNet (dn_fds n) (dn_flags n) (dn_errno n) (dn_script n) l.

Definition dn_getfl (fd : Z) (n : demo_net) : Z :=
  match dn_fds n !! fd with Some d => default 0 (dn_flags n !! d) | None => -1 end.
Definition dn_setfl (fd v : Z) (n : demo_net) : demo_net :=
  match dn_fds n !! fd with Some d => dn_set_flags d v n | None => n end.
#[export] Instance DemoNetFds : FdKernel demo_net := {
  fstat fd n := (fun _ => true) <$> dn_fds n !! fd;
  getfl := dn_getfl;
  setfl := dn_setfl
}.

(** The first number above those in use, for descriptors and for descriptions. *)
Definition next_fd (f : gmap Z Z) : Z := 1 + map_fold (fun fd _ m => Z.max fd m) 2 f.
Definition next_ofd (f : gmap Z Z) : Z := 1 + map_fold (fun _ d m => Z.max d m) 0 f.
Definition scripted (n : demo_net) : Z * demo_net :=
  match dn_script n with
  | [] => (-1, dn_set_errno EBADF n)
  | (r, e) :: l => (r, mkDemoNet (dn_fds n) (dn_flags n) e l (dn_timers n))
  end.
Definition dn_socket (n : demo_net) : Z * demo_net :=
  let fd := next_fd (dn_fds n) in
  let d := next_ofd (dn_fds n) in
  (fd, dn_set_flags d 2 (dn_open fd d n)).
Definition dn_dup (fd : Z) (n : demo_net) : Z * demo_net :=
  match dn_fds n !! fd with
  | Some d => (next_fd (dn_fds n), dn_open (next_fd (dn_fds n)) d n)
  | None => (-1, dn_set_errno EBADF n)
  end.
Definition dn_fionbio (fd arg : Z) (n : demo_net) : demo_net :=
  dn_setfl fd (if arg =? 0 then Z.land (dn_getfl fd n) (Z.lnot O_NONBLOCK) else Z.lor (dn_getfl fd n) O_NONBLOCK) n.
Definition dn_timer (ms : Z) (f : hook_timer) (n : demo_net) : nat * demo_net :=
  (length (dn_timers n), dn_set_timers (dn_timers n ++ [Some (ms, f)]) n).

#[export] Instance DemoNetApi : HookApi demo_net := {
  errno := dn_errno;
  set_errno := dn_set_errno;
  has_iom _ := true;
  iom_addTimer := dn_timer;
  iom_addConditionTimer := dn_timer;
  timer_cancel t n := dn_set_timers (<[t := None]> (dn_timers n)) n;
  iom_addEvent _ _ n := (0, n);
  iom_cancelEvent _ _ n := n;
  iom_cancelAll _ n := n;
  sleep_f _ n := (0, n);
  usleep_f _ n := (0, n);
  socket_f _ _ _ := dn_socket;
  connect_f _ := scripted;
  close_f fd n := (0, mkDemoNet (delete fd (dn_fds n)) (dn_flags n) (dn_errno n) (dn_script n) (dn_timers n));
  fcntl_f fd cmd _ n := if (cmd =? F_DUPFD) || (cmd =? F_DUPFD_CLOEXEC) then dn_dup fd n else (0, n);
  setfl_result _ _ _ := 0;
  ioctl_f fd request arg n := (0, if request =? FIONBIO then dn_fionbio fd arg n else n);
  getsockopt_f _ _ _ _ := Some 0;
  setsockopt_f _ _ _ n := (0, n)
}.
#[export] Instance DemoNetLaws : HookLaws demo_net.
Proof. by constructor. Qed.

(** A thread with hooks and one socket, with the time-out of its reads. *)
Definition demo_hook (timeout : Z) (script : list (Z * Z)) : Hook demo_net :=
  mkHook true (mkFdManager (<[3%nat := Some 0%nat]> (replicate 64 None)) [mkFdCtx true true true false false 3 timeout (u64 (-1))]
    (mkDemoNet {[3 := 1]} {[1 := 0x802]} 0 script [])) [].
(** While the fiber waits its first timer, if any, fires. *)
Definition demo_yield (s : Hook demo_net) : Hook demo_net :=
  match dn_timers (outside s) with
  | Some (_, IoTimeout t fd event) :: _ => match on_io_timeout t fd event s with Ret _ s' => s' | _ => s end
  | _ => s
  end.

(** Reads that are interrupted, would block and then give five bytes; and one that
    would block, with a time-out of half a second. *)
Lemma do_io_blocks_witness :
  (exists s, do_io demo_yield 3 scripted READ 2 SO_RCVTIMEO (demo_hook (u64 (-1)) [(-1, EINTR); (-1, EAGAIN); (5, EAGAIN)]) = Ret 5 s) /\
  (exists s, do_io demo_yield 3 scripted READ 1 SO_RCVTIMEO (demo_hook 500 [(-1, EAGAIN); (5, EAGAIN)]) = Ret (-1) s /\
    errno (outside s) = ETIMEDOUT /\ dn_timers (outside s) = [None]).
Proof.
  split.
  - eexists.
    destruct (do_io_blocks demo_yield 3 scripted READ SO_RCVTIMEO (demo_hook (u64 (-1)) [(-1, EINTR); (-1, EAGAIN); (5, EAGAIN)])
      0 (mkFdCtx true true true false false 3 (u64 (-1)) (u64 (-1))) eq_refl eq_refl eq_refl eq_refl eq_refl) as [Hd _].
    eapply (Hd Done 5 _ 1%nat); [|lia].
    eapply (blk_woken _ _ _ _ _ _ _ _ _ _ None 0 Done 5 _ 1 0).
    { eapply att_interrupted; [reflexivity..|]. by apply att_last. }
    1: reflexivity.
    { by apply reg_no_timeout. }
    1: done.
    1-2: reflexivity.
    apply blk_done; [by apply att_last|]. by intros [].
  - destruct (do_io_blocks demo_yield 3 scripted READ SO_RCVTIMEO (demo_hook 500 [(-1, EAGAIN); (5, EAGAIN)])
      0 (mkFdCtx true true true false false 3 500 (u64 (-1))) eq_refl eq_refl eq_refl eq_refl eq_refl) as (_ & _ & Ht).
    set (s0 := demo_hook 500 [(-1, EAGAIN); (5, EAGAIN)]) in *. set (s1 := set_outside (scripted (outside s0)).2 (with_tinfo s0)).
    set (s2 := set_outside (dn_timer 500 (IoTimeout 0 3 READ) (outside s1)).2 s1).
    assert (Ha : attempt scripted (with_tinfo s0) (-1) s1 0) by (by apply att_last).
    assert (Hr : registered 3 READ 500 0 s1 (Some O) 0 s2) by (by eapply reg_timeout).
    assert (Hy : on_io_timeout 0 3 READ s2 = Ret tt (demo_yield s2)) by (vm_compute; reflexivity).
    destruct (Ht s1 s2 O 0 O Ha eq_refl Hr ltac:(done) Hy) as (s' & Hs & He & Ho).
    exists s'. split; [apply Hs; lia|]. split; [exact He|]. rewrite Ho. reflexivity.
Defined.
