(* ===== verification/HookFlags.v ===== *)
(** The non-blocking flag of the descriptors: what the program sees and what the
    kernel holds, under every sequence of hooked calls that touch it.  The kernel
    keeps the flag with the open file description, which the copies of a
    descriptor share. *)
From S2P Require Import Prelude.
From stdpp Require Import list gmap.
From S2P Require Import FdManager FdThms Hook HookThms.
Open Scope Z_scope.

(** ** The flag *)

Definition nonblock (flags : Z) : bool := negb (Z.land flags O_NONBLOCK =? 0).

Lemma nonblock_bit v : nonblock v = Z.testbit v 11.
Proof.
  unfold nonblock. change O_NONBLOCK with (2 ^ 11). destruct (Z.testbit v 11) eqn:Ev.
  - apply negb_true_iff, Z.eqb_neq. intros E0. assert (Et : Z.testbit (Z.land v (2 ^ 11)) 11 = false) by (rewrite E0; done).
    rewrite Z.land_spec, Ev in Et. done.
  - apply negb_false_iff, Z.eqb_eq, Z.bits_inj'. intros k Hk. rewrite Z.land_spec, Z.pow2_bits_eqb, Z.bits_0 by lia.
    destruct (Z.eqb_spec 11 k) as [<-|]; [by rewrite Ev|by rewrite andb_false_r].
Qed.

Lemma nonblock_lor v : nonblock (Z.lor v O_NONBLOCK) = true.
Proof. rewrite nonblock_bit, Z.lor_spec. apply orb_true_r. Qed.

Lemma nonblock_clear v : nonblock (Z.land v (Z.lnot O_NONBLOCK)) = false.
Proof. rewrite nonblock_bit, Z.land_spec. apply andb_false_r. Qed.

(** ** The kernel *)

(** [ofd fd n]: the open file description behind a descriptor. *)
Class Descriptions (N : Type) := ofd : Z -> N -> option Z.

Section laws.
Context {N : Type} `{FdKernel N} `{Descriptions N}.

(** A call leaves the descriptor alone. *)
Definition untouched (fd : Z) (n n' : N) : Prop :=
  getfl fd n' = getfl fd n /\ fstat fd n' = fstat fd n /\ ofd fd n' = ofd fd n.
(** A call changes at most the flags of the description behind [fd]. *)
Definition flags_only (fd : Z) (n n' : N) : Prop :=
  forall fd', fstat fd' n' = fstat fd' n /\ ofd fd' n' = ofd fd' n /\ (ofd fd' n <> ofd fd n -> getfl fd' n' = getfl fd' n).
(** ... to [b], if it is a socket. *)
Definition sets_flag (fd : Z) (b : bool) (n n' : N) : Prop :=
  flags_only fd n n' /\ (fstat fd n = Some true -> forall fd', ofd fd' n = ofd fd n -> nonblock (getfl fd' n') = b).
(** A call makes [r], and leaves the others alone. *)
Definition makes (r : Z) (n n' : N) : Prop :=
  0 <= r /\ fstat r n = None /\ forall fd, fd <> r -> untouched fd n n'.
End laws.

Class FlagLaws (N : Type) `{FdKernel N} `{HookApi N} `{Descriptions N} := {
  ofd_open fd (n : N) : fstat fd n <> None -> ofd fd n <> None;
  setfl_law fd v (n : N) : sets_flag fd (nonblock v) n (setfl fd v n);
  fionbio_law fd arg (n : N) : sets_flag fd (negb (arg =? 0)) n (ioctl_f fd FIONBIO arg n).2;
  socket_law d t p (n : N) r n' : socket_f d t p n = (r, n') ->
    r = -1 /\ (forall fd, untouched fd n n') \/
    makes r n n' /\ fstat r n' = Some true /\ forall fd, fd <> r -> ofd fd n' <> ofd r n';
  dup_law fd cmd arg (n : N) r n' : cmd = F_DUPFD \/ cmd = F_DUPFD_CLOEXEC -> fcntl_f fd cmd arg n = (r, n') ->
    r = -1 /\ (forall fd', untouched fd' n n') \/
    makes r n n' /\ fstat r n' = fstat fd n /\ ofd r n' = ofd fd n /\ getfl r n' = getfl fd n;
  close_law fd (n : N) : ofd fd (close_f fd n).2 = None /\ forall fd', fd' <> fd -> untouched fd' n (close_f fd n).2;
  cancelAll_law fd (n : N) fd' : untouched fd' n (iom_cancelAll fd n)
}.

(** ** The calls *)

Inductive flag_op :=
| OSocket (domain type protocol : Z)
| ODup (fd : Z) (cloexec : bool) (arg : Z)
| OSetfl (fd arg : Z)
| OGetfl (fd : Z)
| OFionbio (fd arg : Z)
| OClose (fd : Z).
Definition dup_cmd (cloexec : bool) : Z := if cloexec then F_DUPFD_CLOEXEC else F_DUPFD.


(** What the calls amount to: the sockets and their copies, in groups that share a
    description, the flag the program has asked for on each socket, and the
    kernel's flag of each group. *)
Record flags_view := mkView {
  fv_group : gmap Z nat;
  fv_user : gmap Z bool;
  fv_kernel : gmap nat bool;
  fv_next : nat
}.
Definition view_start : flags_view := mkView ∅ ∅ ∅ O.
Definition set_kernel (fd : Z) (b : bool) (v : flags_view) : flags_view :=
  match fv_group v !! fd with
  | Some g => mkView (fv_group v) (fv_user v) (<[g := b]> (fv_kernel v)) (fv_next v)
  | None => v
  end.
Definition set_user (fd : Z) (b : bool) (v : flags_view) : flags_view :=
  mkView (fv_group v) (alter (fun _ => b) fd (fv_user v)) (fv_kernel v) (fv_next v).
Definition add_socket (fd : Z) (b : bool) (v : flags_view) : flags_view :=
  mkView (<[fd := fv_next v]> (fv_group v)) (<[fd := false]> (fv_user v)) (<[fv_next v := b]> (fv_kernel v)) (S (fv_next v)).

(** A hooked F_SETFL on a socket only changes what the program sees; on a copy,
    which the library does not know, it reaches the kernel.  FIONBIO always does. *)
Definition view_op (o : flag_op) (r : Z) (v : flags_view) : flags_view :=
  match o with
  | OSocket _ _ _ => if r =? -1 then v else add_socket r true v
  | ODup fd _ _ =>
    if r =? -1 then v else
    match fv_group v !! fd with
    | Some g => mkView (<[r := g]> (fv_group v)) (fv_user v) (fv_kernel v) (fv_next v)
    | None => v
    end
  | OSetfl fd arg =>
    match fv_user v !! fd with
    | Some _ => set_user fd (nonblock arg) (set_kernel fd true v)
    | None => set_kernel fd (nonblock arg) v
    end
  | OGetfl _ => v
  | OFionbio fd arg => set_user fd (negb (arg =? 0)) (set_kernel fd (negb (arg =? 0)) v)
  | OClose fd => mkView (delete fd (fv_group v)) (delete fd (fv_user v)) (fv_kernel v) (fv_next v)
  end.

(** The call does not clear a flag behind the library's back: neither FIONBIO with
    0, nor F_SETFL without O_NONBLOCK on a copy of a socket. *)
Definition careful_op (o : flag_op) (v : flags_view) : Prop :=
  match o with
  | OFionbio _ arg => arg <> 0
  | OSetfl fd arg => is_Some (fv_user v !! fd) \/ fv_group v !! fd = None \/ nonblock arg = true
  | _ => True
  end.
Fixpoint careful (ops : list flag_op) (rs : list Z) (v : flags_view) : Prop :=
  match ops, rs with
  | o :: ops, r :: rs => careful_op o v /\ careful ops rs (view_op o r v)
  | _, _ => True
  end.




(** ** What the kernel holds *)

Section kernel.
Context {N : Type} `{FL : FlagLaws N}.








End kernel.

(** ** What the table holds *)

Section flags.
Context {N : Type} `{FL : FlagLaws N}.

Definition run_flag_op (o : flag_op) : M (Hook N) Z :=
  match o with
  | OSocket d t p => socket d t p
  | ODup fd cloexec arg => fcntl fd (dup_cmd cloexec) arg
  | OSetfl fd arg => fcntl fd F_SETFL arg
  | OGetfl fd => fcntl fd F_GETFL 0
  | OFionbio fd arg => ioctl fd FIONBIO arg
  | OClose fd => close fd
  end.
Fixpoint run_flag_ops (ops : list flag_op) : M (Hook N) (list Z) :=
  match ops with
  | [] => mret []
  | o :: ops => r ← run_flag_op o; rs ← run_flag_ops ops; mret (r :: rs)
  end.














(** ** The calls keep the invariant *)












End flags.

(** ** A concrete kernel *)

#[export] Instance demo_ofd : Descriptions demo_net := fun fd n => dn_fds n !! fd.

Lemma next_fd_above (f : gmap Z Z) : forall fd, is_Some (f !! fd) -> fd < next_fd f.
Proof.
  unfold next_fd. apply (map_fold_weak_ind (fun m f => forall fd, is_Some (f !! fd) -> fd < 1 + m)).
  - intros fd [x Hx]. by rewrite lookup_empty in Hx.
  - intros i x m r Hi IH fd Hfd. destruct (decide (fd = i)) as [-> |Hne]; [lia|]. rewrite lookup_insert_ne in Hfd by done.
    specialize (IH fd Hfd). lia.
Qed.

Lemma next_ofd_above (f : gmap Z Z) : forall fd d, f !! fd = Some d -> d < next_ofd f.
Proof.
  unfold next_ofd. apply (map_fold_weak_ind (fun m f => forall fd d, f !! fd = Some d -> d < 1 + m)).
  - intros fd d Hx. by rewrite lookup_empty in Hx.
  - intros i x m r Hi IH fd d. rewrite lookup_insert_Some. intros [[_ <-]|[_ Hd]]; [lia|]. specialize (IH fd d Hd). lia.
Qed.

Lemma next_fd_pos (f : gmap Z Z) : 3 <= next_fd f.
Proof. unfold next_fd. apply (map_fold_weak_ind (fun m _ => 3 <= 1 + m)); [lia|]. intros. lia. Qed.

Lemma next_fd_new (f : gmap Z Z) : f !! next_fd f = None.
Proof. destruct (f !! next_fd f) as [x|] eqn:E; [|done]. pose proof (next_fd_above f (next_fd f) (mk_is_Some _ _ E)). lia. Qed.

Lemma dn_setfl_sets fd v b (n : demo_net) : nonblock v = b -> sets_flag fd b n (dn_setfl fd v n).
Proof.
  intros <-. unfold dn_setfl. destruct (dn_fds n !! fd) as [d|] eqn:Ed.
  - split.
    + intros fd'. split; [done|]. split; [done|]. unfold ofd, demo_ofd. cbn. unfold dn_getfl. cbn. rewrite Ed. intros Hne.
      destruct (dn_fds n !! fd') as [d'|] eqn:Ed'; [|done]. rewrite lookup_insert_ne; [done|congruence].
    + intros _ fd'. unfold ofd, demo_ofd. cbn. unfold dn_getfl. cbn. rewrite Ed. intros ->. by rewrite lookup_insert_eq.
  - split; [done|]. cbn. by rewrite Ed.
Qed.

Lemma dn_open_makes fd d (n : demo_net) n' : dn_fds n !! fd = None -> 0 <= fd ->
  dn_fds n' = <[fd := d]> (dn_fds n) -> (forall x d', x <> fd -> dn_fds n !! x = Some d' -> dn_flags n' !! d' = dn_flags n !! d') -> makes fd n n'.
Proof.
  intros Hn Hfd Ef Hfl. split; [done|]. split; [cbn; by rewrite Hn|]. intros x Hx. unfold untouched, ofd, demo_ofd. cbn. unfold dn_getfl.
  rewrite Ef, lookup_insert_ne by done. split; [|done]. destruct (dn_fds n !! x) as [d'|] eqn:E; [|done]. by rewrite (Hfl x d').
Qed.

#[export] Instance DemoNetFlags : FlagLaws demo_net.
Proof.
  constructor.
  - intros fd n. unfold ofd, demo_ofd. cbn. by destruct (dn_fds n !! fd).
  - intros fd v n. by apply dn_setfl_sets.
  - intros fd arg n. cbn. unfold dn_fionbio. apply dn_setfl_sets. destruct (arg =? 0); [apply nonblock_clear|apply nonblock_lor].
  - intros d t p n r n' [= <- <-]. right. pose proof (next_fd_pos (dn_fds n)). split; [|split].
    + apply (dn_open_makes _ (next_ofd (dn_fds n))); [apply next_fd_new|lia|done|]. intros x d' Hx Hd. cbn.
      pose proof (next_ofd_above _ _ _ Hd). by rewrite lookup_insert_ne by lia.
    + cbn. by rewrite lookup_insert_eq.
    + intros fd Hne. unfold ofd, demo_ofd. cbn. rewrite lookup_insert_eq, lookup_insert_ne by done. intros E.
      pose proof (next_ofd_above _ _ _ E). lia.
  - intros fd cmd arg n r n' Hcmd E. assert (E' : dn_dup fd n = (r, n')) by (by destruct Hcmd as [-> | ->]). clear E Hcmd. revert E'.
    unfold dn_dup. destruct (dn_fds n !! fd) as [d|] eqn:Ed; intros [= <- <-]; [right|by left].
    pose proof (next_fd_pos (dn_fds n)). split; [apply (dn_open_makes _ d); [apply next_fd_new|lia|done|done]|].
    unfold ofd, demo_ofd. cbn. unfold dn_getfl. cbn. by rewrite lookup_insert_eq, Ed.
  - intros fd n. unfold ofd, demo_ofd. cbn. split; [apply lookup_delete_eq|]. intros fd' Hne. unfold untouched, ofd, demo_ofd. cbn. unfold dn_getfl. cbn.
    by rewrite lookup_delete_ne by done.
  - done.
Qed.

(** Two sockets; the first is made non-blocking and blocking again, the second
    non-blocking, copied and closed, and its number used again. *)
Definition demo_flag_ops : list flag_op :=
  [OSocket 2 1 0; OSocket 2 1 0; OSetfl 3 0x802; OFionbio 4 1; OSetfl 3 2; OGetfl 3; ODup 4 false 0; OSetfl 5 0x802; OClose 4;
   OSocket 2 1 0; OGetfl 6; OSetfl 3 0x800; OGetfl 3].
Definition demo_flags : M (Hook demo_net) (list Z) := run_flag_ops demo_flag_ops.
Definition demo_start : Hook demo_net := mkHook true (FdManager_new (mkDemoNet ∅ ∅ 0 [] [])) [].

(** What its calls answer. *)
Example demo_flags_seen : match demo_flags demo_start with Ret rs _ => rs | _ => [] end = [3; 4; 0; 0; 0; 2; 5; 0; 0; 6; 2; 0; 2048].
Proof. vm_compute. reflexivity. Qed.


(** ... and its sequence is a careful one. *)
Example demo_careful : careful demo_flag_ops [3; 4; 0; 0; 0; 2; 5; 0; 0; 6; 2; 0; 2048] view_start.
Proof. cbn. repeat split; try (left; vm_compute; by eexists); try (right; right; reflexivity); done. Qed.

(** The two ways to a blocking socket: FIONBIO with 0, and a copy. *)
Definition kernel_flag_after (ops : list flag_op) (fd : Z) : option bool :=
  match run_flag_ops ops demo_start with Ret _ s => Some (nonblock (getfl fd (outside s))) | _ => None end.
Example fionbio_blocks : kernel_flag_after [OSocket 2 1 0; OFionbio 3 0] 3 = Some false.
Proof. vm_compute. reflexivity. Qed.
Example copy_blocks : kernel_flag_after [OSocket 2 1 0; ODup 3 false 0; OSetfl 4 2] 3 = Some false.
Proof. vm_compute. reflexivity. Qed.
Example socket_keeps : kernel_flag_after [OSocket 2 1 0; ODup 3 false 0; OSetfl 3 2] 4 = Some true.
Proof. vm_compute. reflexivity. Qed.
