(* ===== verification/Config.v ===== *)
(** linko/config.{h,cc}: variables with listeners, their registry, the conversions
    from and to text, and loading from YAML.

    yaml-cpp and boost::lexical_cast are interfaces; a node is a tree of YAML's
    data model.  A conversion that throws is [None]: every exception there is a
    std::exception, and the callers catch those. *)
From S2P Require Import Prelude OrdSet OrdMap.
From stdpp Require Import list.
Open Scope Z_scope.

(** ** YAML *)

Unset Elimination Schemes.
Inductive node :=
| Null
| Scalar (s : bytes)
| Sequence (l : list node)
| Map (l : list (node * node)).
Set Elimination Schemes.

Class Yaml := {
  (** YAML::Load. *)
  Load : bytes -> option node;
  (** [ss << node]. *)
  emit : node -> bytes;
  (** [node[i]] of a node that is no sequence. *)
  index_other : node -> nat -> option node;
  (** The iteration over a sequence, as if it were a map. *)
  sequence_pairs : list node -> option (list (node * node))
}.

Section yaml.
Context `{Yaml}.

Definition IsMap (n : node) : bool := match n with Map _ => true | _ => false end.
Definition IsScalar (n : node) : bool := match n with Scalar _ => true | _ => false end.
(** [node.Scalar()]: the empty string, if it is none. *)
Definition scalar_of (n : node) : bytes := match n with Scalar s => s | _ => [] end.
Definition size (n : node) : nat := match n with Sequence l => length l | Map l => length l | _ => O end.
Definition index (n : node) (i : nat) : option node := match n with Sequence l => l !! i | _ => index_other n i end.
(** From [begin()] to [end()]. *)
Definition pairs (n : node) : option (list (node * node)) :=
  match n with Map l => Some l | Sequence l => sequence_pairs l | _ => Some [] end.
End yaml.

(** ** LexicalCast *)

(** The conversion in both directions that a type has: boost's, or one of the
    specialisations below. *)
Class LexicalCast (T : Type) := {
  of_string : bytes -> option T;
  to_string : T -> option bytes
}.

Section casts.
Context `{Yaml} {T : Type} `{LexicalCast T}.

(** The loop of the sequences: from the element [i] on, with the insertion of the
    container. *)
Fixpoint from_elements {C} (insert : T -> C -> C) (n : node) (fuel : nat) (i : nat) (vec : C) : option C :=
  match fuel with
  | O => Some vec
  | S fuel =>
    e ← index n i; x ← of_string (emit e); from_elements insert n fuel (S i) (insert x vec)
  end.
Definition from_sequence {C} (insert : T -> C -> C) (empty : C) (v : bytes) : option C :=
  n ← Load v; from_elements insert n (size n) O empty.
(** [node.push_back] of the text of every element. *)
Definition to_sequence (l : list T) : option bytes :=
  texts ← mapM to_string l; mret (emit (Sequence (map Scalar texts))).

(** The loop of the maps. *)
Fixpoint from_pairs {C} (insert : bytes * T -> C -> C) (ps : list (node * node)) (vec : C) : option C :=
  match ps with
  | [] => Some vec
  | (k, v) :: ps => x ← of_string (emit v); from_pairs insert ps (insert (scalar_of k, x) vec)
  end.
Definition from_map {C} (insert : bytes * T -> C -> C) (empty : C) (v : bytes) : option C :=
  n ← Load v; ps ← pairs n; from_pairs insert ps empty.
(** [node[i.first] = ...]: the keys of a container are different. *)
Fixpoint to_pairs (l : list (bytes * T)) (m : list (node * node)) : option (list (node * node)) :=
  match l with
  | [] => Some m
  | (k, x) :: l => t ← to_string x; n ← Load t; to_pairs l (m ++ [(Scalar k, n)])
  end.
Definition to_map (l : list (bytes * T)) : option bytes := m ← to_pairs l []; mret (emit (Map m)).
End casts.

(** ** The containers *)

(** [operator<] of the elements, and where an unordered container puts a new one. *)
Class Less (T : Type) := less : T -> T -> bool.
Class Hashed (T : Type) := bucket_insert : T -> list T -> list T.

Record std_set (T : Type) := StdSet { set_elems : list T }.
Arguments StdSet {T}. Arguments set_elems {T}.
Record unordered_set (T : Type) := UnorderedSet { uset_elems : list T }.
Arguments UnorderedSet {T}. Arguments uset_elems {T}.
Record std_map (T : Type) := StdMap { map_entries : list (bytes * T) }.
Arguments StdMap {T}. Arguments map_entries {T}.
Record unordered_map (T : Type) := UnorderedMap { umap_entries : list (bytes * T) }.
Arguments UnorderedMap {T}. Arguments umap_entries {T}.

(** [std::string::operator<]: bytes as unsigned characters. *)
Fixpoint bytes_less (a b : bytes) : bool :=
  match a, b with
  | _, [] => false
  | [], _ :: _ => true
  | x :: a, y :: b => if ub x <? ub y then true else if ub y <? ub x then false else bytes_less a b
  end.

Section containers.
Context `{Yaml} {T : Type} `{LexicalCast T}.

(** std::vector and std::list: [push_back]. *)
#[export] Instance sequence_cast : LexicalCast (list T) := {
  of_string := from_sequence (fun x l => l ++ [x]) [];
  to_string := to_sequence
}.
(** [insert] keeps an element that is there. *)
#[export] Instance set_cast `{Less T} : LexicalCast (std_set T) := {
  of_string := from_sequence (fun x s => StdSet (set_insert less x (set_elems s)).1.1) (StdSet []);
  to_string s := to_sequence (set_elems s)
}.
#[export] Instance unordered_set_cast `{Hashed T} : LexicalCast (unordered_set T) := {
  of_string := from_sequence (fun x s => UnorderedSet (bucket_insert x (uset_elems s))) (UnorderedSet []);
  to_string s := to_sequence (uset_elems s)
}.
#[export] Instance map_cast : LexicalCast (std_map T) := {
  of_string := from_map (fun kx m => match map_find bytes_less kx.1 (map_entries m) with
                                     | Some _ => m
                                     | None => StdMap (map_set bytes_less kx.1 kx.2 (map_entries m))
                                     end) (StdMap []);
  to_string m := to_map (map_entries m)
}.
#[export] Instance unordered_map_cast `{Hashed (bytes * T)} : LexicalCast (unordered_map T) := {
  of_string := from_map (fun kx m => UnorderedMap (bucket_insert kx (umap_entries m))) (UnorderedMap []);
  to_string m := to_map (umap_entries m)
}.
End containers.

(** ** ConfigVar *)

Section var.
Context {T W : Type} `{LexicalCast T} `{!EqDecision T}.

(** A listener acts on the rest of the program. *)
Definition on_change_cb : Type := T -> T -> M W unit.

Record ConfigVar := mkConfigVar {
  m_name : bytes;
  m_description : bytes;
  m_val : T;
  m_cbs : list (Z * on_change_cb)
}.

(** A variable, [s_fun_id] of this instance of the template, and the rest of the
    program. *)
Record VarState := mkVarState { the_var : ConfigVar; s_fun_id : Z; the_world : W }.
Abbreviation VM := (M VarState).

Definition ConfigVar_new (name : bytes) (default_value : T) (description : bytes) : ConfigVar :=
  mkConfigVar (map tolower name) description default_value [].

Definition set_val (v : T) (s : VarState) : VarState :=
  mkVarState (mkConfigVar (m_name (the_var s)) (m_description (the_var s)) v (m_cbs (the_var s))) (s_fun_id s) (the_world s).
Definition set_cbs (l : list (Z * on_change_cb)) (s : VarState) : VarState :=
  mkVarState (mkConfigVar (m_name (the_var s)) (m_description (the_var s)) (m_val (the_var s)) l) (s_fun_id s) (the_world s).
Definition on_world {A} (m : M W A) : VM A := fun s =>
  match m (the_world s) with
  | Ret a w => Ret a (mkVarState (the_var s) (s_fun_id s) w)
  | Throw e w => Throw e (mkVarState (the_var s) (s_fun_id s) w)
  | Crash k => Crash k
  end.

Definition getName : VM bytes := s ← get; mret (m_name (the_var s)).
Definition getDescription : VM bytes := s ← get; mret (m_description (the_var s)).
(** What the conversion throws is caught. *)
Definition toString : VM bytes := s ← get; mret (default [] (to_string (m_val (the_var s)))).
Definition getValue : VM T := s ← get; mret (m_val (the_var s)).

Fixpoint notify (cbs : list (Z * on_change_cb)) (old new : T) : VM unit :=
  match cbs with
  | [] => mret tt
  | (_, cb) :: cbs => on_world (cb old new);; notify cbs old new
  end.
(** [setValue] under the read lock; [true] is the early return.  The write lock
    is taken after the read lock is released. *)
Definition setValue_read (val : T) : VM bool :=
  s ← get;
  if bool_decide (val = m_val (the_var s)) then mret true
  else notify (m_cbs (the_var s)) (m_val (the_var s)) val;; mret false.
Definition setValue_write (val : T) : VM unit := modify (set_val val).
Definition setValue (val : T) : VM unit :=
  done ← setValue_read val; if (done : bool) then mret tt else setValue_write val.

(** The exceptions of the conversion and of the listeners are caught; the result
    is false in any case. *)
Definition fromString (val : bytes) : VM bool := fun s =>
  match of_string val with
  | None => Ret false s
  | Some v =>
    match setValue v s with
    | Ret _ s' | Throw _ s' => Ret false s'
    | Crash c => Crash c
    end
  end.

Definition addListener (cb : on_change_cb) : VM Z :=
  s ← get;
  let id := u64 (s_fun_id s + 1) in
  put (mkVarState (the_var s) id (the_world s));;
  modify (set_cbs (map_set Z.ltb id cb (m_cbs (the_var s))));;
  mret id.
Definition delListener (key : Z) : VM unit := modify (fun s => set_cbs (map_erase Z.ltb key (m_cbs (the_var s))) s).
Definition clearListener : VM unit := modify (set_cbs []).
End var.
Arguments ConfigVar : clear implicits. Arguments VarState : clear implicits. Arguments on_change_cb : clear implicits.

(** ** The registry *)

(** The types of the variables of a program. *)
Class ConfigTypes (Ty : Type) := {
  value : Ty -> Type;
  ty_eq_dec :: EqDecision Ty;
  value_eq_dec (t : Ty) :: EqDecision (value t);
  value_cast (t : Ty) :: LexicalCast (value t)
}.

(** The characters of a name. *)
Definition valid_chars : bytes := bs "abcdefghijklmnopqrstuvwxyz._0123456789".
Definition valid_name (name : bytes) : bool := forallb (fun c => bool_decide (c ∈ valid_chars)) name.

Section config.
Context `{Yaml} {Ty : Type} `{ConfigTypes Ty} {W : Type}.

(** ConfigVarBase: a variable of some type. *)
Record any_var := AnyVar { var_type : Ty; var : ConfigVar (value var_type) W }.

(** The map of the names, the variables it points to, [s_fun_id] of every
    instance of the template, and the rest of the program. *)
Record Config := mkConfig {
  s_datas : list (bytes * nat);
  c_vars : list any_var;
  c_fun_id : Ty -> Z;
  c_world : W
}.
Definition Config_new (w : W) : Config := mkConfig [] [] (fun _ => 0) w.
Abbreviation CM := (M Config).

Definition set_fun_id (t : Ty) (n : Z) (f : Ty -> Z) : Ty -> Z := fun t' => if decide (t' = t) then n else f t'.
Definition stored (i : nat) {t} (s : VarState (value t) W) (c : Config) : Config :=
  mkConfig (s_datas c) (<[i := AnyVar t (the_var s)]> (c_vars c)) (set_fun_id t (s_fun_id s) (c_fun_id c)) (the_world s).

(** A method of the variable a pointer points to, which is of the type [t] for
    [on_var_of]. *)
Definition run_var {A} (i : nat) (t : Ty) (x : ConfigVar (value t) W) (m : M (VarState (value t) W) A) : CM A := fun c =>
  match m (mkVarState x (c_fun_id c t) (c_world c)) with
  | Ret a s => Ret a (stored i s c)
  | Throw e s => Throw e (stored i s c)
  | Crash k => Crash k
  end.
Definition on_var {A} (i : nat) (m : forall t, M (VarState (value t) W) A) : CM A :=
  c ← get; match c_vars c !! i with Some (AnyVar t x) => run_var i t x (m t) | None => crash_with NullDeref end.
Definition on_var_of {A} (i : nat) (t : Ty) (m : M (VarState (value t) W) A) : CM A :=
  c ← get;
  match c_vars c !! i with
  | Some (AnyVar t' x) =>
    match decide (t' = t) with
    | left E => run_var i t (eq_rect t' (fun t => ConfigVar (value t) W) x t E) m
    | right _ => crash_with NullDeref
    end
  | None => crash_with NullDeref
  end.

(** [dynamic_pointer_cast<ConfigVar<T>>]. *)
Definition cast_ptr (t : Ty) (i : nat) : CM (option nat) :=
  c ← get;
  mret (match c_vars c !! i with
        | Some (AnyVar t' _) => if decide (t' = t) then Some i else None
        | None => None
        end).

(** [Lookup] with a default value, and without one. *)
Definition Lookup_new (t : Ty) (name : bytes) (default_value : value t) (description : bytes) : CM (option nat) :=
  c ← get;
  match map_find bytes_less name (s_datas c) with
  | Some i => cast_ptr t i
  | None =>
    if negb (valid_name name) then throw (invalid_argument (string_of_list_ascii name)) else
    let v := length (c_vars c) in
    put (mkConfig (map_set bytes_less name v (s_datas c)) (c_vars c ++ [AnyVar t (ConfigVar_new name default_value description)])
           (c_fun_id c) (c_world c));;
    mret (Some v)
  end.
Definition Lookup (t : Ty) (name : bytes) : CM (option nat) :=
  c ← get;
  match map_find bytes_less name (s_datas c) with Some i => cast_ptr t i | None => mret None end.
Definition LookupBase (name : bytes) : CM (option nat) := c ← get; mret (map_find bytes_less name (s_datas c)).

Fixpoint visit_all (m : list (bytes * nat)) (cb : nat -> CM unit) : CM unit :=
  match m with [] => mret tt | (_, i) :: m => cb i;; visit_all m cb end.
Definition Visit (cb : nat -> CM unit) : CM unit := c ← get; visit_all (s_datas c) cb.

(** ** Loading *)

Definition join (prefix key : bytes) : bytes := match prefix with [] => key | _ => prefix ++ bs "." ++ key end.

(** The nodes that [ListAllMember] appends to its output. *)
Fixpoint ListAllMember (prefix : bytes) (n : node) : list (bytes * node) :=
  if negb (valid_name prefix) then [] else
  (prefix, n) ::
  match n with
  | Map l =>
    (fix members (l : list (node * node)) :=
       match l with [] => [] | (k, v) :: l => ListAllMember (join prefix (scalar_of k)) v ++ members l end) l
  | _ => []
  end.

Fixpoint load_nodes (all_nodes : list (bytes * node)) : CM unit :=
  match all_nodes with
  | [] => mret tt
  | (key, n) :: all_nodes =>
    (match key with
     | [] => mret tt
     | _ =>
       var ← LookupBase (map tolower key);
       match var with
       | Some i => on_var i (fun t => fromString (if IsScalar n then scalar_of n else emit n));; mret tt
       | None => mret tt
       end
     end);;
    load_nodes all_nodes
  end.
Definition LoadFromYaml (root : node) : CM unit := load_nodes (ListAllMember [] root).
End config.
