(* ===== verification/ConfigCasts.v ===== *)
(** What the conversions of configuration values keep and lose. *)
From S2P Require Import Prelude OrdSet OrdMap.
From stdpp Require Import list countable strings.
From S2P Require Import Config.
Open Scope Z_scope.

(** What the library writes, it reads as the same tree. *)
Class YamlLaws `{Yaml} := { load_emit n : Load (emit n) = Some n }.

Section casts.
Context `{YL : YamlLaws} {T : Type} `{LexicalCast T}.

(** The text of an element is one that YAML writes as it is, and is read back:
    numbers, and words without special characters. *)
Definition plain (x : T) : Prop := exists t, to_string x = Some t /\ emit (Scalar t) = t /\ of_string t = Some x.
(** The text of an element is YAML that is read back. *)
Definition readable (x : T) : Prop := exists t n, to_string x = Some t /\ Load t = Some n /\ of_string (emit n) = Some x.

(** ** The loops *)

Lemma from_elements_all {C} (insert : T -> C -> C) n (ts : list node) (xs : list T) : forall vec i,
  (forall j, index n (i + j) = ts !! j) -> Forall2 (fun t x => of_string (emit t) = Some x) ts xs ->
  from_elements insert n (length ts) i vec = Some (foldl (fun v x => insert x v) vec xs).
Proof.
  intros vec i Hi HF. revert vec i Hi. induction HF as [|t x ts xs Ht HF IH]; intros vec i Hi; [done|].
  cbn [length from_elements foldl]. rewrite <- (Nat.add_0_r i) at 1. rewrite (Hi O). cbn. rewrite Ht. cbn.
  apply IH. intros j. specialize (Hi (S j)). rewrite <- plus_n_Sm in Hi. exact Hi.
Qed.

(** What is read back of a sequence that was written. *)
Lemma sequence_back {C} (insert : T -> C -> C) empty (texts : list bytes) (xs : list T) :
  Forall2 (fun t x => of_string (emit (Scalar t)) = Some x) texts xs ->
  from_sequence insert empty (emit (Sequence (map Scalar texts))) = Some (foldl (fun v x => insert x v) empty xs).
Proof.
  intros HF. unfold from_sequence. rewrite load_emit. cbn [mbind option_bind size].
  apply from_elements_all; [done|]. by apply Forall2_fmap_l.
Qed.

Lemma texts_of (l : list T) (R : bytes -> T -> Prop) :
  Forall (fun x => exists t, to_string x = Some t /\ R t x) l -> exists texts, mapM to_string l = Some texts /\ Forall2 R texts l.
Proof.
  induction 1 as [|x l (t & Et & Ht) _ (texts & Em & HF)]; [by exists []|].
  exists (t :: texts). cbn [mapM]. rewrite Et. cbn. rewrite Em. cbn. split; [done|]. by constructor.
Qed.

Lemma push_back_all (l : list T) : forall vec, foldl (fun v x => v ++ [x]) vec l = vec ++ l.
Proof. induction l as [|x l IH]; intros vec; cbn; [by rewrite app_nil_r|]. rewrite IH. by rewrite <- app_assoc. Qed.

Lemma plain_back (l : list T) : Forall plain l -> exists texts, to_sequence l = Some (emit (Sequence (map Scalar texts))) /\
  Forall2 (fun t x => of_string (emit (Scalar t)) = Some x) texts l.
Proof.
  intros Hl. destruct (texts_of l (fun t x => of_string (emit (Scalar t)) = Some x)) as (texts & Em & HF).
  { eapply Forall_impl; [exact Hl|]. intros x (t & Et & Ep & Eo). exists t. by rewrite Ep. }
  exists texts. unfold to_sequence. by rewrite Em.
Qed.
End casts.

(** ** Sequences and sets *)

Section containers.
Context `{YL : YamlLaws} {T : Type} `{LexicalCast T}.

Lemma vector_back (l : list T) : Forall plain l -> exists s, to_string l = Some s /\ of_string s = Some l.
Proof.
  intros Hl. destruct (plain_back l Hl) as (texts & Et & HF). eexists. split; [exact Et|]. cbn [of_string sequence_cast].
  rewrite (sequence_back _ _ _ _ HF). by rewrite push_back_all.
Qed.

Lemma set_insert_last `{HL : Less T} `{!StrictTotal (less : T -> T -> bool)} (l : list T) x :
  Forall (fun y => less y x = true) l -> (set_insert less x l).1.1 = l ++ [x].
Proof.
  intros Hl. assert (Hlb : lower_bound less x l = length l) by (induction Hl as [|y l Hy Hl IH]; cbn; [done|by rewrite Hy, IH]).
  unfold set_insert, set_find. rewrite Hlb, lookup_ge_None_2 by done. cbn. by rewrite take_ge, drop_ge.
Qed.

Lemma set_back `{HL : Less T} `{!StrictTotal (less : T -> T -> bool)} (s : std_set T) :
  set_sorted less (set_elems s) -> Forall plain (set_elems s) -> exists t, to_string s = Some t /\ of_string t = Some s.
Proof.
  destruct s as [l]. cbn [set_elems]. intros Hs Hl. destruct (plain_back l Hl) as (texts & Et & HF).
  eexists. split; [exact Et|]. cbn [of_string set_cast]. rewrite (sequence_back _ _ _ _ HF). f_equal. clear Et HF Hl texts.
  assert (Hg : forall pre, set_sorted less (pre ++ l) -> foldl (fun v x => StdSet (set_insert less x (set_elems v)).1.1) (StdSet pre) l = StdSet (pre ++ l)).
  { clear Hs. induction l as [|x l IH]; intros pre Hs; cbn [foldl set_elems]; [by rewrite app_nil_r|].
    pose proof Hs as Hs'. apply set_sorted_app in Hs' as (_ & _ & Hlt).
    rewrite set_insert_last by (apply Forall_forall; intros y Hy; apply Hlt; set_solver).
    rewrite IH by (by rewrite <- app_assoc). by rewrite <- app_assoc. }
  by apply (Hg []).
Qed.

(** C33: a std::vector, std::list or std::set of values whose texts YAML writes as
    they are is what its text is read as; but a sequence of sequences is not:
    every element is written as one string, which is not a sequence when it is
    read, so that as many elements come back as there were, all of them empty. *)
Theorem sequence_conversions `{HL : Less T} `{!StrictTotal (less : T -> T -> bool)} :
  (forall l : list T, Forall plain l -> exists s, to_string l = Some s /\ of_string s = Some l) /\
  (forall x : std_set T, set_sorted less (set_elems x) -> Forall plain (set_elems x) ->
    exists s, to_string x = Some s /\ of_string s = Some x) /\
  (forall ll : list (list T), Forall (Forall plain) ll ->
    exists s, to_string ll = Some s /\ of_string s = Some (map (fun _ => [] : list T) ll)).
Proof.
  split; [exact vector_back|]. split; [exact set_back|]. intros ll Hll.
  assert (Hin : exists texts, mapM to_string ll = Some texts /\ length texts = length ll).
  { destruct (texts_of ll (fun _ _ => True)) as (texts & Em & HF); [|by exists texts; eapply Forall2_length in HF].
    eapply Forall_impl; [exact Hll|]. intros l Hl. destruct (vector_back l Hl) as (t & Et & _). by exists t. }
  destruct Hin as (texts & Em & El). eexists. split; [change (to_string ll) with (to_sequence ll); unfold to_sequence; rewrite Em; reflexivity|]. cbn [of_string sequence_cast].
  rewrite (sequence_back _ _ texts (map (fun _ => []) texts)).
  - rewrite push_back_all. f_equal. clear -El. revert ll El. induction texts as [|t texts IH]; intros [|l ll] [=]; [done|]. cbn. f_equal. by apply IH.
  - apply Forall2_fmap_r, Forall_Forall2_diag, Forall_true. intros t. cbn [of_string sequence_cast]. unfold from_sequence. by rewrite load_emit.
Qed.
End containers.

(** ** Maps *)

Lemma bytes_less_irrefl a : bytes_less a a = false.
Proof. induction a as [|x a IH]; [done|]. cbn. by rewrite Z.ltb_irrefl. Qed.

Lemma bytes_less_trans : forall a b c, bytes_less a b = true -> bytes_less b c = true -> bytes_less a c = true.
Proof.
  induction a as [|x a IH]; intros [|y b] [|z c] Hab Hbc; cbn in *; try done.
  destruct (Z.ltb_spec (ub x) (ub y)), (Z.ltb_spec (ub y) (ub x)), (Z.ltb_spec (ub y) (ub z)), (Z.ltb_spec (ub z) (ub y)),
    (Z.ltb_spec (ub x) (ub z)), (Z.ltb_spec (ub z) (ub x)); try done; try lia. by eapply IH.
Qed.

Lemma bytes_less_total : forall a b, bytes_less a b = false -> bytes_less b a = false -> a = b.
Proof.
  induction a as [|x a IH]; intros [|y b] Hab Hba; cbn in *; try done.
  destruct (Z.ltb_spec (ub x) (ub y)), (Z.ltb_spec (ub y) (ub x)); try done.
  f_equal; [apply ub_inj; lia|by apply IH].
Qed.

#[export] Instance bytes_StrictTotal : StrictTotal bytes_less.
Proof. constructor; [apply bytes_less_irrefl|apply bytes_less_trans|apply bytes_less_total]. Qed.

Lemma map_last {V} k (v : V) m : Forall (fun kv => bytes_less kv.1 k = true) m ->
  map_find bytes_less k m = None /\ map_set bytes_less k v m = m ++ [(k, v)].
Proof. induction 1 as [|[k' v'] m Hk _ [Ef Es]]; [done|]. cbn in *. by rewrite Hk, Ef, Es. Qed.

Section maps.
Context `{YL : YamlLaws} {T : Type} `{LexicalCast T}.

Lemma to_pairs_all (l : list (bytes * T)) (ns : list node) : forall m,
  Forall2 (fun n kx => exists t, to_string kx.2 = Some t /\ Load t = Some n) ns l ->
  to_pairs l m = Some (m ++ zip_with (fun kx n => (Scalar kx.1, n)) l ns).
Proof.
  intros m HF. revert m. induction HF as [|n [k x] ns l (t & Et & El) HF IH]; intros m; [by rewrite app_nil_r|].
  cbn in Et, El |- *. rewrite Et. cbn. rewrite El. cbn. by rewrite IH, <- app_assoc.
Qed.

Lemma from_pairs_all (l : list (bytes * T)) (ns : list node) : forall pre,
  map_sorted bytes_less (pre ++ l) ->
  Forall2 (fun n kx => of_string (emit n) = Some kx.2) ns l ->
  from_pairs (fun kx m => match map_find bytes_less kx.1 (map_entries m) with
                          | Some _ => m
                          | None => StdMap (map_set bytes_less kx.1 kx.2 (map_entries m))
                          end) (zip_with (fun kx n => (Scalar kx.1, n)) l ns) (StdMap pre) = Some (StdMap (pre ++ l)).
Proof.
  intros pre Hs HF. revert pre Hs. induction HF as [|n [k x] ns l En HF IH]; intros pre Hs; [by rewrite app_nil_r|].
  cbn in En. cbn [zip_with from_pairs scalar_of fst]. rewrite En. cbn [mbind option_bind fst snd map_entries].
  assert (Hpre : Forall (fun kv => bytes_less kv.1 k = true) pre).
  { clear -Hs. induction pre as [|a pre IH]; constructor.
    - cbn in Hs. apply map_sorted_cons in Hs as [Hf _]. rewrite Forall_app, Forall_cons in Hf. tauto.
    - apply IH. cbn in Hs. by apply map_sorted_cons in Hs as [_ Hs]. }
  destruct (map_last k x pre Hpre) as [-> ->]. rewrite IH by (by rewrite <- app_assoc). by rewrite <- app_assoc.
Qed.

Lemma map_back (m : std_map T) : map_sorted bytes_less (map_entries m) -> Forall (fun kx => readable kx.2) (map_entries m) ->
  exists t, to_string m = Some t /\ of_string t = Some m.
Proof.
  destruct m as [l]. cbn [map_entries]. intros Hs Hl.
  assert (Hns : exists ns, Forall2 (fun n (kx : bytes * T) => exists t, to_string kx.2 = Some t /\ Load t = Some n) ns l /\
    Forall2 (fun n kx => of_string (emit n) = Some kx.2) ns l).
  { clear Hs. induction Hl as [|kx l (t & n & Et & El & Eo) _ (ns & H1 & H2)]; [by exists []|].
    exists (n :: ns). split; constructor; [by exists t|done..]. }
  destruct Hns as (ns & H1 & H2). exists (emit (Map (zip_with (fun kx n => (Scalar kx.1, n)) l ns))).
  cbn [to_string of_string map_cast map_entries]. unfold to_map, from_map. rewrite (to_pairs_all l ns [] H1). split; [done|].
  rewrite load_emit. cbn [mbind option_bind pairs]. by apply (from_pairs_all l ns []).
Qed.

Lemma plain_sequence_readable (l : list T) : Forall plain l -> readable l.
Proof.
  intros Hl. destruct (plain_back l Hl) as (texts & Et & HF). destruct (vector_back l Hl) as (s & Es & Eo).
  assert (s = emit (Sequence (map Scalar texts))) as ->.
  { assert (E : Some s = Some (emit (Sequence (map Scalar texts)))) by (rewrite <- Es; exact Et). by injection E. }
  exists (emit (Sequence (map Scalar texts))), (Sequence (map Scalar texts)). split; [done|]. split; [apply load_emit|done].
Qed.

(** A std::map is what its text is read as, for values whose own text YAML
    reads: sequences of plain values among them, unlike in a sequence. *)
Theorem map_conversions :
  (forall m : std_map T, map_sorted bytes_less (map_entries m) -> Forall (fun kx => readable kx.2) (map_entries m) ->
    exists t, to_string m = Some t /\ of_string t = Some m) /\
  (forall m : std_map (list T), map_sorted bytes_less (map_entries m) -> Forall (fun kx => Forall plain kx.2) (map_entries m) ->
    Forall (fun kx => readable kx.2) (map_entries m)).
Proof.
  split; [exact map_back|]. intros m _ Hl. eapply Forall_impl; [exact Hl|]. intros kx. apply plain_sequence_readable.
Qed.
End maps.

(** ** A concrete library *)

(** Words are written as they are, other nodes as the digits of a code behind a
    question mark. *)
Fixpoint node_tree (n : node) : gen_tree bytes :=
  match n with
  | Null => GenNode 0 []
  | Scalar s => GenLeaf s
  | Sequence l => GenNode 1 (map node_tree l)
  | Map l => GenNode 2 (map (fun kv => GenNode 3 [node_tree kv.1; node_tree kv.2]) l)
  end.
Fixpoint tree_node (t : gen_tree bytes) : node :=
  match t with
  | GenLeaf s => Scalar s
  | GenNode 1 l => Sequence (map tree_node l)
  | GenNode 2 l => Map (map (fun kv => match kv with GenNode 3 [k; v] => (tree_node k, tree_node v) | _ => (Null, Null) end) l)
  | _ => Null
  end.

(** Induction over the trees. *)
Lemma node_ind' (P : node -> Prop) :
  P Null -> (forall s, P (Scalar s)) -> (forall l, Forall P l -> P (Sequence l)) ->
  (forall l, Forall (fun kv => P kv.1 /\ P kv.2) l -> P (Map l)) -> forall n, P n.
Proof.
  intros Hn Hs Hq Hm. fix IH 1. intros [|s|l|l]; [done|done| |].
  - apply Hq. induction l as [|n l IHl]; constructor; [apply IH|done].
  - apply Hm. induction l as [|[k v] l IHl]; constructor; [split; apply IH|done].
Qed.

Lemma tree_node_tree n : tree_node (node_tree n) = n.
Proof.
  induction n as [|s|l Hl|l Hl] using node_ind'; [done|done| |]; cbn; f_equal; rewrite map_map.
  - induction Hl as [|n l Hn _ IH]; [done|]. cbn. by rewrite Hn, IH.
  - induction Hl as [|[k v] l [Hk Hv] _ IH]; [done|]. cbn in *. by rewrite Hk, Hv, IH.
Qed.

#[export] Instance node_eq_dec : EqDecision node.
Proof.
  intros a b. destruct (decide (node_tree a = node_tree b)) as [E|E]; [left|right].
  - by rewrite <- (tree_node_tree a), E, tree_node_tree.
  - by intros ->.
Defined.
#[export] Instance node_countable : Countable node := inj_countable' node_tree tree_node tree_node_tree.

Fixpoint bits (p : positive) : bytes :=
  match p with xH => [] | xO p => bz 48 :: bits p | xI p => bz 49 :: bits p end.
Fixpoint unbits (s : bytes) : positive :=
  match s with [] => xH | c :: s => if ub c =? 48 then xO (unbits s) else xI (unbits s) end.
Lemma unbits_bits p : unbits (bits p) = p.
Proof. induction p as [p IH|p IH|]; cbn; by rewrite ?IH. Qed.

Definition word (s : bytes) : bool :=
  bool_decide (s <> []) && forallb (fun c => ((48 <=? ub c) && (ub c <=? 57)) || ((97 <=? ub c) && (ub c <=? 122))) s.
Definition question : byte := bz 63.
Definition write_node (n : node) : bytes :=
  match n with
  | Scalar s => if word s then s else question :: bits (encode n)
  | _ => question :: bits (encode n)
  end.
Definition read_node (s : bytes) : option node :=
  match s with
  | [] => None
  | c :: s' => if ub c =? 63 then decode (unbits s') else if word s then Some (Scalar s) else None
  end.

#[export] Instance DemoYaml : Yaml := {
  Load := read_node;
  emit := write_node;
  index_other _ _ := None;
  sequence_pairs _ := None
}.

Lemma read_coded n : read_node (question :: bits (encode n)) = Some n.
Proof. cbn. by rewrite unbits_bits, decode_encode. Qed.

#[export] Instance DemoYamlLaws : YamlLaws.
Proof.
  constructor. intros n. cbn [Load emit DemoYaml]. destruct n as [|s|l|l]; try apply read_coded.
  unfold write_node. destruct (word s) eqn:Ew; [|apply read_coded]. destruct s as [|c s]; [done|]. unfold read_node.
  rewrite Ew. destruct (Z.eqb_spec (ub c) 63) as [E|]; [|done]. unfold word in Ew. cbn in Ew. by rewrite E in Ew.
Qed.

(** boost::lexical_cast between strings copies. *)
#[export] Instance string_cast : LexicalCast bytes := { of_string := Some; to_string := Some }.
#[export] Instance string_less : Less bytes := bytes_less.
#[export] Instance string_StrictTotal : StrictTotal (less : bytes -> bytes -> bool) := bytes_StrictTotal.

Lemma word_plain s : word s = true -> plain s.
Proof. intros Hw. exists s. cbn. by rewrite Hw. Qed.

Definition demo_ports : list bytes := [bs "8020"; bs "8021"].

Lemma sequence_conversions_witness :
  (exists s, to_string demo_ports = Some s /\ of_string s = Some demo_ports) /\
  (exists s, to_string (StdSet demo_ports) = Some s /\ of_string s = Some (StdSet demo_ports)) /\
  (exists s, to_string [demo_ports; [bs "80"]] = Some s /\ of_string s = Some ([[]; []] : list (list bytes))).
Proof.
  assert (Hp : Forall plain demo_ports) by (repeat constructor; by apply word_plain).
  destruct (sequence_conversions (T := bytes)) as (H1 & H2 & H3). split; [exact (H1 _ Hp)|]. split.
  - apply H2; [|exact Hp]. repeat constructor.
  - apply H3. repeat constructor; by apply word_plain.
Defined.

Lemma map_conversions_witness :
  exists t, to_string (StdMap [(bs "http", demo_ports); (bs "ws", [])]) = Some t /\
    of_string t = Some (StdMap [(bs "http", demo_ports); (bs "ws", [])]).
Proof.
  destruct (map_conversions (T := list bytes)) as (H1 & _). destruct (map_conversions (T := bytes)) as (_ & H2).
  apply H1; [repeat constructor|]. apply H2; repeat constructor; by apply word_plain.
Defined.
