(* ===== verification/ConfigThms.v ===== *)
(** Loading a configuration by the paths of its nodes, and what listeners can
    rely on. *)
From S2P Require Import Prelude OrdSet OrdMap.
From stdpp Require Import list.
From S2P Require Import Config ConfigCasts.
Open Scope Z_scope.

(** ** The nodes of a tree *)

(** The keys that lead to every node of a tree, in the order of the document. *)
Definition key_of (k : node) : bytes := match k with Scalar s => s | _ => [] end.
Fixpoint nodes_of (n : node) : list (list bytes * node) :=
  ([], n) ::
  match n with
  | Map l =>
    (fix members (l : list (node * node)) :=
       match l with [] => [] | (k, v) :: l => map (fun kn => (key_of k :: kn.1, kn.2)) (nodes_of v) ++ members l end) l
  | _ => []
  end.

(** The path of a node: its keys with dots between them; empty keys at the
    beginning do not count. *)
Fixpoint dotted (keys : list bytes) : bytes :=
  match keys with [] => [] | [k] => k | k :: keys => k ++ bs "." ++ dotted keys end.
Fixpoint path_of (keys : list bytes) : bytes :=
  match keys with [] :: keys => path_of keys | _ => dotted keys end.

Lemma dotted_snoc keys k : keys <> [] -> dotted (keys ++ [k]) = dotted keys ++ bs "." ++ k.
Proof.
  induction keys as [|a keys IH]; [done|]. intros _. destruct keys as [|b keys]; [done|].
  change (dotted ((a :: b :: keys) ++ [k])) with (a ++ bs "." ++ dotted ((b :: keys) ++ [k])). rewrite IH by done.
  change (dotted (a :: b :: keys)) with (a ++ bs "." ++ dotted (b :: keys)). by rewrite <- !app_assoc.
Qed.

Lemma path_snoc keys k : path_of (keys ++ [k]) = join (path_of keys) k.
Proof.
  induction keys as [|a keys IH]; [by destruct k|]. destruct a as [|c a]; [exact IH|].
  change (path_of ((c :: a) :: keys)) with (dotted ((c :: a) :: keys)).
  change (path_of (((c :: a) :: keys) ++ [k])) with (dotted (((c :: a) :: keys) ++ [k])). rewrite dotted_snoc by done.
  unfold join. destruct (dotted ((c :: a) :: keys)) eqn:E; [by destruct keys|done].
Qed.

(** Every node below [n] with its path, as the loader builds it. *)
Fixpoint all_paths (prefix : bytes) (n : node) : list (bytes * node) :=
  (prefix, n) ::
  match n with
  | Map l =>
    (fix members (l : list (node * node)) :=
       match l with [] => [] | (k, v) :: l => all_paths (join prefix (scalar_of k)) v ++ members l end) l
  | _ => []
  end.

Lemma all_paths_keys n : forall keys, all_paths (path_of keys) n = map (fun kn => (path_of (keys ++ kn.1), kn.2)) (nodes_of n).
Proof.
  induction n as [|s|l|l Hl] using node_ind'; intros keys; cbn [all_paths nodes_of map fst snd]; rewrite app_nil_r; try done.
  f_equal. induction Hl as [|[k v] l [_ Hv] _ IH]; [done|]. rewrite map_app, map_map, <- IH. f_equal.
  change (scalar_of k) with (key_of k). rewrite <- path_snoc, Hv. apply map_ext. intros [ks m]. cbn. by rewrite <- app_assoc.
Qed.

Lemma valid_join prefix key : valid_name prefix = false -> valid_name (join prefix key) = false.
Proof.
  intros Hp. destruct prefix as [|c prefix]; [done|]. unfold join, valid_name in *.
  by rewrite forallb_app, Hp.
Qed.

(** Below an invalid name no name is valid. *)
Lemma invalid_below n : forall prefix, valid_name prefix = false -> Forall (fun pn => valid_name pn.1 = false) (all_paths prefix n).
Proof.
  induction n as [|s|l|l Hl] using node_ind'; intros prefix Hp; cbn; repeat constructor; try done.
  induction Hl as [|[k v] l [_ Hv] _ IH]; [done|]. apply Forall_app. split; [|done]. apply Hv. by apply valid_join.
Qed.

Lemma filter_none {A} (P : A -> Prop) `{forall x, Decision (P x)} l : Forall (fun x => ~ P x) l -> filter P l = [].
Proof. induction 1 as [|x l Hx _ IH]; [done|]. by rewrite filter_cons_False. Qed.

(** Leaving a subtree out at its first invalid name keeps exactly the nodes with a
    valid path. *)
Lemma members_valid n : forall prefix, ListAllMember prefix n = filter (fun pn => valid_name pn.1 = true) (all_paths prefix n).
Proof.
  induction n as [|s|l|l Hl] using node_ind'; intros prefix; cbn [ListAllMember all_paths];
    (destruct (valid_name prefix) eqn:Ep;
     [rewrite filter_cons_True by done; cbn [negb]; f_equal|rewrite filter_cons_False by (cbn [fst]; by rewrite Ep)]); try done.
  - induction Hl as [|[k v] l [_ Hv] _ IH]; [done|]. rewrite filter_app. cbn in Hv. by rewrite <- Hv, <- IH.
  - symmetry. apply filter_none. induction l as [|[k v] l IH]; [done|]. apply Forall_app. split.
    + eapply Forall_impl; [apply invalid_below; by apply valid_join|]. intros pn E. cbn. by rewrite E.
    + apply IH. by apply Forall_cons in Hl as [_ Hl].
Qed.

Lemma valid_lower name : valid_name name = true -> map tolower name = name.
Proof.
  unfold valid_name. induction name as [|c name IH]; [done|]. cbn. intros [Hc Hn]%andb_true_iff. rewrite (IH Hn). f_equal.
  apply bool_decide_eq_true in Hc. unfold tolower. destruct (_ && _) eqn:E; [|done]. exfalso. revert c Hc E.
  assert (Hall : forallb (fun c => negb ((65 <=? ub c) && (ub c <=? 90))) valid_chars = true) by (vm_compute; reflexivity).
  intros c Hc E. rewrite forallb_forall in Hall. specialize (Hall c (proj1 (list_elem_of_In _ _) Hc)). by rewrite E in Hall.
Qed.

(** ** One variable *)

(** The listeners of a variable return. *)
Definition calm {T W} (x : ConfigVar T W) : Prop :=
  Forall (fun kc : Z * on_change_cb T W => forall old new w, exists w', kc.2 old new w = Ret tt w') (m_cbs x).
Definition valued {T W} (x : ConfigVar T W) (v : T) : ConfigVar T W := mkConfigVar (m_name x) (m_description x) v (m_cbs x).

Section var.
Context {T W : Type} `{LexicalCast T} `{!EqDecision T}.

(** A text that does not convert leaves the value. *)
Definition final_value (v : T) (texts : list bytes) : T := foldl (fun v t => default v (of_string t)) v texts.

Lemma notify_run cbs (old new : T) (x : ConfigVar T W) id w :
  Forall (fun kc : Z * on_change_cb T W => forall old new w, exists w', kc.2 old new w = Ret tt w') cbs ->
  exists w', notify cbs old new (mkVarState x id w) = Ret tt (mkVarState x id w').
Proof.
  intros HF. revert w. induction HF as [|[k cb] cbs Hcb _ IH]; intros w; [by exists w|].
  destruct (Hcb old new w) as [w1 E1]. destruct (IH w1) as [w2 E2]. exists w2. cbn [notify].
  assert (E : on_world (cb old new) (mkVarState x id w) = Ret tt (mkVarState x id w1)) by (unfold on_world; cbn in *; by rewrite E1).
  by step_with E.
Qed.

Lemma setValue_run (x : ConfigVar T W) id w v : calm x ->
  exists w', setValue v (mkVarState x id w) = Ret tt (mkVarState (valued x v) id w').
Proof.
  intros Hx. unfold setValue, setValue_read. destruct (decide (v = m_val x)) as [-> |Hne].
  - exists w. unfold mbind at 1, M_bind at 1. step_with (eq_refl : get (mkVarState x id w) = Ret _ _). cbn [the_var].
    rewrite bool_decide_true by done. cbn. by destruct x.
  - destruct (notify_run (m_cbs x) (m_val x) v x id w Hx) as [w' En]. exists w'. unfold mbind at 1, M_bind at 1.
    step_with (eq_refl : get (mkVarState x id w) = Ret _ _). cbn [the_var]. rewrite bool_decide_false by done. by step_with En.
Qed.

Lemma fromString_run (x : ConfigVar T W) id w text : calm x ->
  exists w', fromString text (mkVarState x id w) = Ret false (mkVarState (valued x (final_value (m_val x) [text])) id w').
Proof.
  intros Hx. unfold fromString, final_value. cbn [foldl]. destruct (of_string text) as [v|]; [|exists w; by destruct x].
  destruct (setValue_run x id w v Hx) as [w' E]. exists w'. by rewrite E.
Qed.
End var.

(** ** The registry *)

#[export] Instance bytes_weak : WeakOrder bytes_less (fun s => s).
Proof.
  constructor; [|apply bytes_less_trans|apply bytes_less_total|by intros a ? b ? -> ->].
  intros a b ->. apply bytes_less_irrefl.
Qed.

Section registry.
Context `{Yaml} {Ty : Type} `{ConfigTypes Ty} {W : Type}.
Implicit Type c : Config (Ty := Ty) (W := W).

(** Every name is valid and is the name of one variable of its own. *)
Record reg_ok c : Prop := mkRegOk {
  reg_sorted : map_sorted bytes_less (s_datas c);
  reg_valid name i : map_find bytes_less name (s_datas c) = Some i -> valid_name name = true;
  reg_bound name i : map_find bytes_less name (s_datas c) = Some i -> (i < length (c_vars c))%nat;
  reg_inj name name' i : map_find bytes_less name (s_datas c) = Some i -> map_find bytes_less name' (s_datas c) = Some i -> name = name'
}.

Lemma reg_ok_new (w : W) : reg_ok (Config_new w).
Proof. constructor; [constructor|done..]. Qed.

Lemma reg_ok_Lookup c t name v description r c' : reg_ok c -> Lookup_new t name v description c = Ret r c' -> reg_ok c'.
Proof.
  intros [Hs Hv Hb Hi]. unfold Lookup_new. step_with (eq_refl : get c = Ret c c).
  destruct (map_find bytes_less name (s_datas c)) as [i|] eqn:Ef; [by intros [= _ <-]|].
  destruct (valid_name name) eqn:Ev; [|done]. cbn [negb]. intros ([] & c1 & [= <-] & [= _ <-])%bind_Ret_inv.
  assert (Hset : forall k, map_find bytes_less k (map_set bytes_less name (length (c_vars c)) (s_datas c)) =
    if decide (k = name) then Some (length (c_vars c)) else map_find bytes_less k (s_datas c)).
  { intros k. by apply (map_find_set bytes_less (fun s => s)). }
  constructor; cbn.
  - by apply (map_set_sorted bytes_less (fun s => s)).
  - intros k i. rewrite Hset. case_decide as Hk; [by subst k|by apply Hv].
  - intros k i. rewrite Hset, length_app. cbn. case_decide; [intros [= <-]; lia|]. intros Hk. specialize (Hb k i Hk). lia.
  - intros k k' i. rewrite !Hset. repeat case_decide; [congruence|..|by apply Hi].
    + intros [= <-] Hk. specialize (Hb k' _ Hk). lia.
    + intros Hk [= <-]. specialize (Hb k _ Hk). lia.
Qed.

(** ** Loading *)

Definition node_text (n : node) : bytes := match n with Scalar s => s | _ => emit n end.
(** The texts at a path, in the order of the document. *)
Definition texts_at (name : bytes) (nodes : list (bytes * node)) : list bytes :=
  map (fun pn => node_text pn.2) (filter (fun pn => pn.1 = name) nodes).

(** ... of a tree. *)
Definition texts_of (name : bytes) (root : node) : list bytes :=
  map (fun kn => node_text kn.2) (filter (fun kn => path_of kn.1 = name) (nodes_of root)).

Lemma texts_of_paths name root : texts_at name (all_paths [] root) = texts_of name root.
Proof.
  unfold texts_at, texts_of. rewrite (all_paths_keys root [] : all_paths [] root = _). induction (nodes_of root) as [|[ks m] l IH]; [done|].
  cbn [map fst snd]. destruct (decide (path_of ks = name)); [rewrite !filter_cons_True by done|rewrite !filter_cons_False by done; done].
  cbn [map snd]. by rewrite IH.
Qed.

Definition assigned (texts : list bytes) (x : any_var (Ty := Ty) (W := W)) : any_var :=
  match x with AnyVar t x => AnyVar t (valued x (final_value (m_val x) texts)) end.
Definition all_calm c : Prop := Forall (fun x : any_var => match x with AnyVar _ x => calm x end) (c_vars c).

Lemma assigned_calm texts (x : any_var (Ty := Ty) (W := W)) :
  match x with AnyVar _ x => calm x end -> match assigned texts x with AnyVar _ x => calm x end.
Proof. by destruct x. Qed.

Lemma assigned_app texts texts' x : assigned (texts ++ texts') x = assigned texts' (assigned texts x).
Proof. destruct x as [t x]. cbn. unfold final_value. by rewrite foldl_app. Qed.

Lemma assigned_nil x : assigned [] x = x.
Proof. by destruct x as [t []]. Qed.

Lemma on_var_fromString c i x text : all_calm c -> c_vars c !! i = Some x ->
  exists c', on_var i (fun t => fromString text) c = Ret false c' /\
    s_datas c' = s_datas c /\ c_vars c' = <[i := assigned [text] x]> (c_vars c).
Proof.
  intros Hc Hx. unfold on_var. step_with (eq_refl : get c = Ret c c). rewrite Hx. destruct x as [t x].
  assert (Hcalm : calm x) by exact (Forall_lookup_1 _ _ _ _ Hc Hx).
  destruct (fromString_run x (c_fun_id c t) (c_world c) text Hcalm) as [w' E]. unfold run_var. rewrite E. by eexists.
Qed.

Definition load_spec (nodes : list (bytes * node)) c c' : Prop :=
  s_datas c' = s_datas c /\ forall name i, map_find bytes_less name (s_datas c) = Some i ->
    c_vars c' !! i = assigned (if decide (name = []) then [] else texts_at name nodes) <$> c_vars c !! i.

Lemma load_nodes_run nodes : forall c, reg_ok c -> all_calm c -> Forall (fun pn => valid_name pn.1 = true) nodes ->
  exists c', load_nodes nodes c = Ret tt c' /\ load_spec nodes c c'.
Proof.
  induction nodes as [|[key n] nodes IH]; intros c R Hc Hn.
  { exists c. split; [done|]. split; [done|]. intros name i _.
    assert (E : (if decide (name = []) then [] else texts_at name []) = []) by (by case_decide). rewrite E.
    destruct (c_vars c !! i) as [x|]; [|done]. cbn. by rewrite assigned_nil. }
  apply Forall_cons in Hn as [Hk Hn]. cbn in Hk. cbn [load_nodes].
  assert (Et : (if IsScalar n then scalar_of n else emit n) = node_text n) by (by destruct n). rewrite Et.
  assert (Hone : exists c1, (match key with [] => mret tt | _ =>
       var ← LookupBase (map tolower key);
       match var with Some i => on_var i (fun t => fromString (node_text n));; mret tt | None => mret tt end end) c = Ret tt c1 /\
     all_calm c1 /\ load_spec [(key, n)] c c1).
  { assert (Hskip : forall name, (name = key -> name = []) -> (if decide (name = []) then [] else texts_at name [(key, n)]) = []).
    { intros name Hne. case_decide; [done|]. unfold texts_at. rewrite filter_cons_False; [done|]. cbn. intros E. by destruct Hne. }
    assert (Hsame : forall name i, (if decide (name = []) then [] else texts_at name [(key, n)]) = [] ->
      c_vars c !! i = assigned (if decide (name = []) then [] else texts_at name [(key, n)]) <$> c_vars c !! i).
    { intros name i E. rewrite E. destruct (c_vars c !! i) as [x|]; [|done]. cbn. by rewrite assigned_nil. }
    destruct (decide (key = [])) as [-> |Hk0]; [exists c; split; [done|]; split; [done|]; split; [done|]; intros; by apply Hsame, Hskip|].
    assert (Em : forall A (a b : A), match key with [] => a | _ => b end = b) by (by destruct key). rewrite Em.
    rewrite valid_lower by done. step_with (eq_refl : LookupBase key c = Ret (map_find bytes_less key (s_datas c)) c).
    destruct (map_find bytes_less key (s_datas c)) as [i|] eqn:Ef.
    - destruct (lookup_lt_is_Some_2 (c_vars c) i (reg_bound c R key i Ef)) as [x Hx].
      destruct (on_var_fromString c i x (node_text n) Hc Hx) as (c1 & E & Ed & Ev). exists c1. step_with E. split; [done|]. split.
      + unfold all_calm. rewrite Ev. apply Forall_insert; [done|]. by apply assigned_calm, (Forall_lookup_1 _ _ _ _ Hc Hx).
      + split; [done|]. intros name j Hj. rewrite Ev. destruct (decide (j = i)) as [-> |Hne].
        * assert (name = key) as -> by (by eapply reg_inj). rewrite list_lookup_insert_eq by (by eapply lookup_lt_Some).
          rewrite Hx, decide_False by done. unfold texts_at. by rewrite filter_cons_True.
        * rewrite list_lookup_insert_ne by done. apply Hsame, Hskip. intros ->. congruence.
    - exists c. split; [done|]. split; [done|]. split; [done|]. intros name i Hi. apply Hsame, Hskip. intros ->. congruence. }
  destruct Hone as (c1 & E1 & Hc1 & Ed1 & Hs1). step_with E1.
  assert (R1 : reg_ok c1).
  { destruct R as [Rs Rv Rb Ri]. constructor; rewrite Ed1; try done. intros name i Hi.
    pose proof (Rb name i Hi) as Hlt. specialize (Hs1 name i Hi). destruct (lookup_lt_is_Some_2 _ _ Hlt) as [x Hx].
    rewrite Hx in Hs1. by eapply lookup_lt_Some. }
  destruct (IH c1 R1 Hc1 Hn) as (c2 & E2 & Ed2 & Hs2). exists c2. split; [done|]. split; [congruence|]. intros name i Hi.
  rewrite (Hs2 name i) by (by rewrite Ed1). rewrite (Hs1 name i Hi). destruct (c_vars c !! i) as [x|]; [|done]. cbn [fmap option_fmap option_map].
  rewrite <- assigned_app. do 2 f_equal. case_decide; [done|]. unfold texts_at. rewrite <- map_app, <- filter_app. done.
Qed.

Lemma texts_valid name nodes : valid_name name = true ->
  texts_at name (filter (fun pn => valid_name pn.1 = true) nodes) = texts_at name nodes.
Proof.
  intros Hv. unfold texts_at. f_equal. induction nodes as [|[k n] nodes IH]; [done|].
  destruct (decide (k = name)) as [-> |Hne].
  - rewrite filter_cons_True by done. rewrite !filter_cons_True by done. by rewrite IH.
  - rewrite (filter_cons_False (fun pn => pn.1 = name)) by done. destruct (valid_name k) eqn:Ek.
    + rewrite filter_cons_True by done. by rewrite filter_cons_False.
    + rewrite filter_cons_False by (cbn [fst]; by rewrite Ek). done.
Qed.

(** C32: after LoadFromYaml, when the listeners return, every variable with a name
    that is not empty has the value of the last node whose path is its name and
    whose text its type converts, or its old value if there is none; a variable
    registered under the empty name keeps its value.  Nothing else in the tree
    matters: not the other paths, not a text that does not convert, and not where
    the name of a path stops being valid. *)
Theorem LoadFromYaml_by_path c (root : node) :
  reg_ok c -> all_calm c ->
  exists c', LoadFromYaml root c = Ret tt c' /\ s_datas c' = s_datas c /\
    forall name i x, map_find bytes_less name (s_datas c) = Some i -> c_vars c !! i = Some x ->
      c_vars c' !! i = Some (assigned (if decide (name = []) then [] else texts_of name root) x).
Proof.
  intros R Hc. unfold LoadFromYaml. rewrite members_valid.
  destruct (load_nodes_run (filter (fun pn => valid_name pn.1 = true) (all_paths [] root)) c R Hc) as (c' & E & Ed & Hs).
  { apply Forall_forall. intros pn Hpn. by apply list_elem_of_filter in Hpn as [Hv _]. }
  exists c'. split; [done|]. split; [done|]. intros name i x Hi Hx. rewrite (Hs name i Hi), Hx. cbn [fmap option_fmap option_map].
  by rewrite texts_valid, texts_of_paths by (by eapply reg_valid).
Qed.
End registry.

(** ** A concrete program *)

(** Strings and vectors of strings. *)
#[export] Instance DemoTypes : ConfigTypes bool := {
  value b := if b return Type then list bytes else bytes;
  value_eq_dec b := if b return EqDecision (if b return Type then list bytes else bytes) then _ else _;
  value_cast b := if b return LexicalCast (if b return Type then list bytes else bytes) then _ else _
}.

Definition define (t : bool) (name : bytes) (v : value t) (c : Config (Ty := bool) (W := unit)) : Config :=
  match Lookup_new t name v [] c with Ret _ c => c | _ => c end.
Definition demo_config : Config (Ty := bool) (W := unit) :=
  define true (bs "server.ports") [] (define false (bs "server.name") (bs "link") (Config_new tt)).
(** A key with a capital letter hides what is below it. *)
Definition demo_root : node :=
  Map [(Scalar (bs "server"), Map [(Scalar (bs "name"), Scalar (bs "a")); (Scalar (bs "ports"), Sequence [Scalar (bs "80")]); (Scalar (bs "name"), Scalar (bs "b"))]);
       (Scalar (bs "Server"), Map [(Scalar (bs "name"), Scalar (bs "c"))])].

Lemma demo_config_ok : reg_ok demo_config.
Proof.
  assert (Hd : forall t name v c, reg_ok c -> reg_ok (define t name v c)).
  { intros t name v c R. unfold define. destruct (Lookup_new t name v [] c) as [r c'| |] eqn:E; [by eapply reg_ok_Lookup|done..]. }
  by apply (Hd true), (Hd false), reg_ok_new.
Qed.

Lemma demo_config_calm : all_calm demo_config.
Proof. repeat constructor. Qed.

Lemma LoadFromYaml_by_path_witness :
  exists c', LoadFromYaml demo_root demo_config = Ret tt c' /\ s_datas c' = s_datas demo_config /\
    forall name i x, map_find bytes_less name (s_datas demo_config) = Some i -> c_vars demo_config !! i = Some x ->
      c_vars c' !! i = Some (assigned (if decide (name = []) then [] else texts_of name demo_root) x).
Proof. exact (LoadFromYaml_by_path demo_config demo_root demo_config_ok demo_config_calm). Defined.

(** The texts of the two variables then. *)
Example demo_loaded :
  match LoadFromYaml demo_root demo_config with
  | Ret _ c =>
    match on_var 0 (fun t => toString) c, on_var 1 (fun t => toString) c with
    | Ret a _, Ret b _ => (a, b)
    | _, _ => ([], [])
    end
  | _ => ([], [])
  end = (bs "b", emit (Sequence [Scalar (bs "80")])).
Proof. vm_compute. reflexivity. Qed.

(** ** Listeners *)

Section mirror.
Context {T : Type} `{LexicalCast T} `{!EqDecision T}.

(** A listener that keeps a copy of the value, as [s_connect_timeout] of
    linko/hook.cc is kept. *)
Definition mirror : on_change_cb T T := fun _ new _ => Ret tt new.
Definition mirrored (v : T) : VarState T T := mkVarState (mkConfigVar [] [] v [(1, mirror)]) 1 v.

(** The two critical sections of [setValue] in several threads: a thread that has
    notified the listeners writes its value next. *)
Inductive set_step := Notify (thread : nat) (v : T) | Store (thread : nat).
Fixpoint run_steps (steps : list set_step) (pending : list (nat * T)) : M (VarState T T) unit :=
  match steps with
  | [] => mret tt
  | Notify t v :: steps => done ← setValue_read v; run_steps steps (if (done : bool) then pending else (t, v) :: pending)
  | Store t :: steps =>
    match list_find (fun tv : nat * T => tv.1 = t) pending with
    | Some (i, (_, v)) => setValue_write v;; run_steps steps (delete i pending)
    | None => run_steps steps pending
    end
  end.

Lemma setValue_mirrored v v' : setValue v' (mirrored v) = Ret tt (mirrored v').
Proof.
  unfold setValue, setValue_read. unfold mbind at 1, M_bind at 1. step_with (eq_refl : get (mirrored v) = Ret _ _).
  cbn [mirrored the_var m_val]. destruct (decide (v' = v)) as [-> |]; [by rewrite bool_decide_true|]. by rewrite bool_decide_false.
Qed.

Lemma setValue_read_mirror (v v' w : T) : v' <> v ->
  setValue_read v' (mkVarState (mkConfigVar [] [] v [(1, mirror)]) 1 w) = Ret false (mkVarState (mkConfigVar [] [] v [(1, mirror)]) 1 v').
Proof. intros Hne. unfold setValue_read. step_with (eq_refl : get (mkVarState _ 1 w) = Ret _ _). cbn [the_var m_val]. by rewrite bool_decide_false. Qed.

(** A listener that keeps a copy of the value has the value after any
    sequence of setValue calls; but the listeners are called before the value is
    stored and under a lock that two threads may hold at once, so that two calls
    can leave the copy with the one value and the variable with the other. *)
Theorem listeners_out_of_step :
  (forall (vs : list T) v, exists w, mapM setValue vs (mirrored v) = Ret w (mirrored (default v (last vs)))) /\
  (forall a b c : T, a <> b -> a <> c ->
    exists s, run_steps [Notify 1 b; Notify 2 c; Store 2; Store 1] [] (mirrored a) = Ret tt s /\
      m_val (the_var s) = b /\ the_world s = c).
Proof.
  split.
  - induction vs as [|v' vs IH]; intros v; [by exists []|]. cbn [mapM]. destruct (IH v') as [w E]. exists (tt :: w).
    step_with (setValue_mirrored v v'). step_with E. by destruct vs as [|x vs]; [|cbn; destruct (last (x :: vs)) eqn:El; [|by apply last_None in El]].
  - intros a b c Hb Hc. eexists. split.
    { cbn [run_steps]. step_with (setValue_read_mirror a b a (not_eq_sym Hb)). step_with (setValue_read_mirror a c b (not_eq_sym Hc)). reflexivity. }
    split; reflexivity.
Qed.
End mirror.

Lemma listeners_out_of_step_witness :
  exists s, run_steps [Notify 1 (bs "b"); Notify 2 (bs "c"); Store 2; Store 1] [] (mirrored (bs "a")) = Ret tt s /\
    m_val (the_var s) = bs "b" /\ the_world s = bs "c".
Proof. destruct (listeners_out_of_step (T := bytes)) as [_ H]. apply H; by vm_compute. Defined.
