(* ===== verification/Log.v ===== *)
(** linko/log.{h,cc}: levels, events, format patterns, appenders, loggers and
    their manager.  The configuration of the loggers is in LogConfig.v.

    Loggers and appenders are shared: a pointer is the number of the object.  A
    formatter is not changed after it is made, and is a value here.  The locks
    are left out. *)
From S2P Require Import Prelude OrdMap Config.
Open Scope Z_scope.

(** ** Levels *)

Inductive Level := UNKNOW | DEBUG | INFO | WARN | ERROR | FATAL.
#[export] Instance Level_eq_dec : EqDecision Level.
Proof. solve_decision. Defined.

Definition level_num (l : Level) : Z :=
  match l with UNKNOW => 0 | DEBUG => 1 | INFO => 2 | WARN => 3 | ERROR => 4 | FATAL => 5 end.
(** [a >= b]. *)
Definition at_least (a b : Level) : bool := level_num b <=? level_num a.

Definition ToString (l : Level) : bytes :=
  match l with
  | DEBUG => bs "DEBUG" | INFO => bs "INFO" | WARN => bs "WARN" | ERROR => bs "ERROR" | FATAL => bs "FATAL"
  | UNKNOW => bs "UNKNOW"
  end.

(** The environment: boost::iequals, whether a file can be opened to append, and
    [strftime] of the local time into 64 bytes, which is [None] when the text does
    not fit and the array keeps what it had. *)
Class LogEnv := {
  iequals : bytes -> bytes -> bool;
  can_open : bytes -> bool;
  strftime64 : bytes -> Z -> option bytes
}.

Section log.
Context `{LogEnv}.

Definition FromString (str : bytes) : Level :=
  if iequals str (bs "debug") then DEBUG
  else if iequals str (bs "info") then INFO
  else if iequals str (bs "warn") then WARN
  else if iequals str (bs "error") then ERROR
  else if iequals str (bs "fatal") then FATAL
  else UNKNOW.

(** ** Events *)

Record LogEvent := mkLogEvent {
  e_file : bytes;
  e_line : Z;
  e_elapse : Z;
  e_threadId : Z;
  e_fiberId : Z;
  e_time : Z;
  e_threadName : bytes;
  e_content : bytes;
  e_logger : nat;
  e_level : Level
}.

(** ** Patterns *)

Inductive FormatItem :=
| Message | LevelItem | Elapse | Name | ThreadId | NewLine | DataTime (format : bytes)
| Filename | Line | Tab | FiberId | ThreadName | Str (s : bytes).

Record LogFormatter := mkLogFormatter { m_pattern : bytes; m_items : list FormatItem; m_error : bool }.
(** The tuples of [vec]; the number tells directives from text. *)
Definition token : Type := bytes * bytes * bool.

Definition isalnum (c : byte) : bool :=
  let z := ub c in
  ((48 <=? z) && (z <=? 57)) || ((65 <=? z) && (z <=? 90)) || ((97 <=? z) && (z <=? 122)).
Definition percent : byte := bz 37.
Definition lbrace : byte := bz 123.
Definition rbrace : byte := bz 125.
Definition byte_eqb (a b : byte) : bool := ub a =? ub b.

Section pattern.
Context (m_pattern : bytes).
Definition char_at (i : nat) : byte := default (bz 0) (m_pattern !! i).
Definition substr (pos n : nat) : bytes := take n (drop pos m_pattern).
Abbreviation len := (length m_pattern).

(** The inner loop of [init], for the directive at [i]: [n], [fmt_status],
    [str] and [fmt] at its end. *)
Fixpoint directive (fuel : nat) (i n fmt_status fmt_begin : nat) (str fmt : bytes) : option (nat * nat * bytes * bytes) :=
  match fuel with
  | O => None
  | S fuel =>
    if (n <? len)%nat then
      let c := char_at n in
      if (fmt_status =? 0)%nat && (negb (isalnum c) && negb (byte_eqb c lbrace) && negb (byte_eqb c rbrace)) then
        Some (n, fmt_status, substr (i + 1) (n - i - 1), fmt)
      else if (fmt_status =? 0)%nat && byte_eqb c lbrace then
        directive fuel i (n + 1) 1 n (substr (i + 1) (n - i - 1)) fmt
      else if (fmt_status =? 1)%nat && byte_eqb c rbrace then
        Some (n + 1, 0, str, substr (fmt_begin + 1) (n - fmt_begin - 1))%nat
      else
        let n := (n + 1)%nat in
        let str := if (n =? len)%nat && bool_decide (str = []) then substr (i + 1) len else str in
        directive fuel i n fmt_status fmt_begin str fmt
    else Some (n, fmt_status, str, fmt)
  end.

Definition flush (nstr : bytes) (vec : list token) : list token :=
  match nstr with [] => vec | _ => vec ++ [(nstr, [], false)] end.

(** The outer loop: [vec], and [m_error]. *)
Fixpoint scan (fuel : nat) (i : nat) (nstr : bytes) (vec : list token) (error : bool) : option (list token * bool) :=
  match fuel with
  | O => None
  | S fuel =>
    if (i <? len)%nat then
      if negb (byte_eqb (char_at i) percent) then scan fuel (i + 1) (nstr ++ [char_at i]) vec error
      else if (i + 1 <? len)%nat && byte_eqb (char_at (i + 1)) percent then scan fuel (i + 1) (nstr ++ [percent]) vec error
      else
        match directive (S len) i (i + 1) 0 0 [] [] with
        | None => None
        | Some (n, fmt_status, str, fmt) =>
          if (fmt_status =? 0)%nat then scan fuel n [] (flush nstr vec ++ [(str, fmt, true)]) error
          else scan fuel (i + 1) nstr (vec ++ [(bs "<<pattern_error>>", fmt, false)]) true
        end
    else Some (flush nstr vec, error)
  end.
End pattern.

(** The constructor of an item. *)
Definition DataTime_new (format : bytes) : FormatItem :=
  DataTime (match format with [] => bs "%Y-%m-%d %H:%M:%S" | _ => format end).
Definition s_format_items : list (bytes * (bytes -> FormatItem)) :=
  [ (bs "m", fun _ => Message); (bs "p", fun _ => LevelItem); (bs "r", fun _ => Elapse); (bs "c", fun _ => Name);
    (bs "t", fun _ => ThreadId); (bs "n", fun _ => NewLine); (bs "d", DataTime_new); (bs "f", fun _ => Filename);
    (bs "l", fun _ => Line); (bs "T", fun _ => Tab); (bs "F", fun _ => FiberId); (bs "N", fun _ => ThreadName) ].
Definition find_item (str : bytes) : option (bytes -> FormatItem) :=
  (fun x : nat * (bytes * (bytes -> FormatItem)) => x.2.2) <$> list_find (fun kv => kv.1 = str) s_format_items.

(** The loop over [vec]. *)
Fixpoint make_items (vec : list token) : list FormatItem * bool :=
  match vec with
  | [] => ([], false)
  | (str, fmt, is_directive) :: vec =>
    let '(items, error) := make_items vec in
    if (is_directive : bool) then
      match find_item str with
      | None => (Str (bs "<<error_format %" ++ str ++ bs ">>") :: items, true)
      | Some make => (make fmt :: items, error)
      end
    else (Str str :: items, error)
  end.

Definition init (pattern : bytes) : option LogFormatter :=
  match scan pattern (S (length pattern)) 0 [] [] false with
  | None => None
  | Some (vec, error) => let '(items, error') := make_items vec in Some (mkLogFormatter pattern items (error || error'))
  end.

(** ** Loggers and appenders *)

Inductive sink := Stdout | File (filename : bytes).
#[export] Instance sink_eq_dec : EqDecision sink.
Proof. solve_decision. Defined.

(** [a_open]: the stream of a FileLogAppender is good. *)
Record Appender := mkAppender {
  a_sink : sink;
  a_open : bool;
  a_level : Level;
  a_hasFormatter : bool;
  a_formatter : option LogFormatter
}.

Record Logger := mkLogger {
  l_name : bytes;
  l_level : Level;
  l_appenders : list nat;
  l_formatter : option LogFormatter;
  l_root : option nat
}.

(** The objects, the manager, and what has been written. *)
Record Log := mkLog {
  loggers : list Logger;
  appenders : list Appender;
  m_loggers : list (bytes * nat);
  m_root : nat;
  output : list (sink * bytes)
}.
Abbreviation LM := (M Log).

Definition set_loggers (l : list Logger) (s : Log) : Log := mkLog l (appenders s) (m_loggers s) (m_root s) (output s).
Definition set_appenders (l : list Appender) (s : Log) : Log := mkLog (loggers s) l (m_loggers s) (m_root s) (output s).
Definition set_names (l : list (bytes * nat)) (s : Log) : Log := mkLog (loggers s) (appenders s) l (m_root s) (output s).
Definition write (to : sink) (text : bytes) : LM unit :=
  modify (fun s => mkLog (loggers s) (appenders s) (m_loggers s) (m_root s) (output s ++ [(to, text)])).

Definition logger_at (i : nat) : LM Logger :=
  s ← get; match loggers s !! i with Some l => mret l | None => crash_with NullDeref end.
Definition appender_at (i : nat) : LM Appender :=
  s ← get; match appenders s !! i with Some a => mret a | None => crash_with NullDeref end.
Definition set_logger (i : nat) (l : Logger) : LM unit := modify (fun s => set_loggers (<[i := l]> (loggers s)) s).
Definition set_appender (i : nat) (a : Appender) : LM unit := modify (fun s => set_appenders (<[i := a]> (appenders s)) s).

Definition with_level (v : Level) (l : Logger) : Logger := mkLogger (l_name l) v (l_appenders l) (l_formatter l) (l_root l).
Definition with_appenders (v : list nat) (l : Logger) : Logger := mkLogger (l_name l) (l_level l) v (l_formatter l) (l_root l).
Definition with_formatter (v : option LogFormatter) (l : Logger) : Logger := mkLogger (l_name l) (l_level l) (l_appenders l) v (l_root l).
Definition with_root (v : option nat) (l : Logger) : Logger := mkLogger (l_name l) (l_level l) (l_appenders l) (l_formatter l) v.
Definition a_with_level (v : Level) (a : Appender) : Appender := mkAppender (a_sink a) (a_open a) v (a_hasFormatter a) (a_formatter a).
Definition a_with_open (v : bool) (a : Appender) : Appender := mkAppender (a_sink a) v (a_level a) (a_hasFormatter a) (a_formatter a).
Definition a_with_formatter (has : bool) (v : option LogFormatter) (a : Appender) : Appender :=
  mkAppender (a_sink a) (a_open a) (a_level a) has v.

(** ** Formatting *)

(** FormatItem::format. *)
Definition format_item (item : FormatItem) (level : Level) (event : LogEvent) : LM bytes :=
  match item with
  | Message => mret (e_content event)
  | LevelItem => mret (ToString level)
  | Elapse => mret (show_dec (e_elapse event))
  | Name => l ← logger_at (e_logger event); mret (l_name l)
  | ThreadId => mret (show_dec (e_threadId event))
  | NewLine => mret [bz 10]
  | DataTime fmt =>
    match strftime64 (c_str fmt) (e_time event) with
    | Some text => mret (c_str text)
    | None => crash_with Uninitialised
    end
  | Filename => mret (c_str (e_file event))
  | Line => mret (show_int (e_line event))
  | Tab => mret [bz 9]
  | FiberId => mret (show_dec (e_fiberId event))
  | ThreadName => mret (e_threadName event)
  | Str s => mret s
  end.
Fixpoint format_items (items : list FormatItem) (level : Level) (event : LogEvent) : LM bytes :=
  match items with
  | [] => mret []
  | i :: items => a ← format_item i level event; b ← format_items items level event; mret (a ++ b)
  end.
Definition format (f : LogFormatter) (level : Level) (event : LogEvent) : LM bytes := format_items (m_items f) level event.

(** ** Appenders *)

(** [log] of the two appenders; a stream that is not good takes nothing. *)
Definition appender_log (i : nat) (level : Level) (event : LogEvent) : LM unit :=
  a ← appender_at i;
  if at_least level (a_level a) then
    match a_formatter a with
    | None => crash_with NullDeref
    | Some f => text ← format f level event; if a_open a then write (a_sink a) text else mret tt
    end
  else mret tt.
Definition reopen (i : nat) : LM bool :=
  a ← appender_at i;
  match a_sink a with
  | File name => set_appender i (a_with_open (can_open name) a);; mret (can_open name)
  | Stdout => mret true
  end.
Definition new_appender (a : Appender) : LM nat :=
  s ← get; put (set_appenders (appenders s ++ [a]) s);; mret (length (appenders s)).
Definition StdoutLogAppender_new : LM nat := new_appender (mkAppender Stdout true DEBUG false None).
Definition FileLogAppender_new (filename : bytes) : LM nat :=
  i ← new_appender (mkAppender (File filename) true DEBUG false None); reopen i;; mret i.

Definition appender_setFormatter (i : nat) (val : option LogFormatter) : LM unit :=
  a ← appender_at i; set_appender i (a_with_formatter (bool_decide (is_Some val)) val a).
Definition appender_getFormatter (i : nat) : LM (option LogFormatter) := a ← appender_at i; mret (a_formatter a).
Definition appender_setLevel (i : nat) (level : Level) : LM unit := a ← appender_at i; set_appender i (a_with_level level a).

(** ** Loggers *)

(** The constructor: the pattern of every new logger. *)
Definition default_pattern : bytes := bs "%d{%Y-%m-%d %H:%M:%S}%T%t%T%N%T%F%T[%p]%T[%c]%T%f:%l%T%m%n".
Definition LogFormatter_new (pattern : bytes) : LM LogFormatter :=
  match init pattern with Some f => mret f | None => crash_with OutOfFuel end.
Definition Logger_new (name : bytes) : LM nat :=
  f ← LogFormatter_new default_pattern;
  s ← get;
  put (set_loggers (loggers s ++ [mkLogger name DEBUG [] (Some f) None]) s);;
  mret (length (loggers s)).

Fixpoint log_appenders (l : list nat) (level : Level) (event : LogEvent) : LM unit :=
  match l with [] => mret tt | i :: l => appender_log i level event;; log_appenders l level event end.
(** [log]; the fuel bounds the chain of roots. *)
Fixpoint log (fuel : nat) (i : nat) (level : Level) (event : LogEvent) : LM unit :=
  match fuel with
  | O => crash_with OutOfFuel
  | S fuel =>
    l ← logger_at i;
    if at_least level (l_level l) then
      match l_appenders l with
      | [] => match l_root l with Some root => log fuel root level event | None => mret tt end
      | _ => log_appenders (l_appenders l) level event
      end
    else mret tt
  end.
Definition debug (fuel i : nat) (event : LogEvent) : LM unit := log fuel i DEBUG event.
Definition info (fuel i : nat) (event : LogEvent) : LM unit := log fuel i INFO event.
Definition warn (fuel i : nat) (event : LogEvent) : LM unit := log fuel i WARN event.
Definition error (fuel i : nat) (event : LogEvent) : LM unit := log fuel i ERROR event.
Definition fatal (fuel i : nat) (event : LogEvent) : LM unit := log fuel i FATAL event.

(** The end of a LogEventWrap, and LINKO_LOG_LEVEL with the text of the statement. *)
Definition LogEventWrap_delete (fuel : nat) (event : LogEvent) : LM unit := log fuel (e_logger event) (e_level event) event.
Definition LINKO_LOG_LEVEL (fuel : nat) (event : LogEvent) : LM unit :=
  l ← logger_at (e_logger event);
  if at_least (e_level event) (l_level l) then LogEventWrap_delete fuel event else mret tt.

Definition addAppender (i appender : nat) : LM unit :=
  f ← appender_getFormatter appender;
  l ← logger_at i;
  match f with
  | None => a ← appender_at appender; set_appender appender (a_with_formatter (a_hasFormatter a) (l_formatter l) a)
  | Some _ => mret tt
  end;;
  l ← logger_at i; set_logger i (with_appenders (l_appenders l ++ [appender]) l).
Fixpoint erase_first (x : nat) (l : list nat) : list nat :=
  match l with [] => [] | y :: l => if (y =? x)%nat then l else y :: erase_first x l end.
Definition delAppender (i appender : nat) : LM unit :=
  l ← logger_at i; set_logger i (with_appenders (erase_first appender (l_appenders l)) l).
Definition clearAppenders (i : nat) : LM unit := l ← logger_at i; set_logger i (with_appenders [] l).
Definition getLevel (i : nat) : LM Level := l ← logger_at i; mret (l_level l).
Definition setLevel (i : nat) (val : Level) : LM unit := l ← logger_at i; set_logger i (with_level val l).
Definition getName (i : nat) : LM bytes := l ← logger_at i; mret (l_name l).

Fixpoint inherit (l : list nat) (val : option LogFormatter) : LM unit :=
  match l with
  | [] => mret tt
  | i :: l =>
    a ← appender_at i;
    (if a_hasFormatter a then mret tt else set_appender i (a_with_formatter false val a));;
    inherit l val
  end.
Definition setFormatter (i : nat) (val : option LogFormatter) : LM unit :=
  l ← logger_at i;
  set_logger i (with_formatter val l);;
  inherit (l_appenders l) val.
Definition setFormatter_pattern (i : nat) (val : bytes) : LM unit :=
  f ← LogFormatter_new val;
  if m_error f then mret tt else setFormatter i (Some f).

(** ** LoggerManager *)

Definition Log_new : Log := mkLog [] [] [] 0 [].
Definition LoggerManager_new : LM unit :=
  root ← Logger_new (bs "root");
  modify (fun s => mkLog (loggers s) (appenders s) (m_loggers s) root (output s));;
  a ← StdoutLogAppender_new;
  addAppender root a;;
  modify (fun s => set_names (map_set bytes_less (bs "root") root (m_loggers s)) s).
Definition getLogger (name : bytes) : LM nat :=
  s ← get;
  match map_find bytes_less name (m_loggers s) with
  | Some i => mret i
  | None =>
    i ← Logger_new name;
    l ← logger_at i;
    set_logger i (with_root (Some (m_root s)) l);;
    modify (fun s => set_names (map_set bytes_less name i (m_loggers s)) s);;
    mret i
  end.
Definition getRoot : LM nat := s ← get; mret (m_root s).

(** ** The configuration as YAML *)

Section yaml.
Context `{Yaml}.

(** [node[key] = value] of a key that is not there. *)
Definition entry (key : bytes) (v : node) : list (node * node) := [(Scalar key, v)].
Definition level_entry (l : Level) : list (node * node) := if decide (l = UNKNOW) then [] else entry (bs "level") (Scalar (ToString l)).
Definition formatter_entry (f : option LogFormatter) : list (node * node) :=
  match f with Some f => entry (bs "formatter") (Scalar (m_pattern f)) | None => [] end.

Definition appender_toYamlString (i : nat) : LM bytes :=
  a ← appender_at i;
  mret (emit (Map (
    match a_sink a with
    | File name => entry (bs "type") (Scalar (bs "FileLogAppender")) ++ entry (bs "file") (Scalar name)
    | Stdout => entry (bs "type") (Scalar (bs "StdoutLogAppender"))
    end ++ level_entry (a_level a) ++ (if a_hasFormatter a then formatter_entry (a_formatter a) else [])))).

(** YAML::Load throws. *)
Definition load (text : bytes) : LM node :=
  match Load text with Some n => mret n | None => throw (logic_error "YAML") end.
Fixpoint appender_nodes (l : list nat) : LM (list node) :=
  match l with
  | [] => mret []
  | i :: l => text ← appender_toYamlString i; n ← load text; ns ← appender_nodes l; mret (n :: ns)
  end.
Definition logger_toYamlString (i : nat) : LM bytes :=
  l ← logger_at i;
  ns ← appender_nodes (l_appenders l);
  mret (emit (Map (entry (bs "root") (Scalar (l_name l)) ++ level_entry (l_level l) ++ formatter_entry (l_formatter l)
    ++ match ns with [] => [] | _ => entry (bs "appenders") (Sequence ns) end))).
Fixpoint logger_nodes (l : list (bytes * nat)) : LM (list node) :=
  match l with
  | [] => mret []
  | (_, i) :: l => text ← logger_toYamlString i; n ← load text; ns ← logger_nodes l; mret (n :: ns)
  end.
Definition manager_toYamlString : LM bytes :=
  s ← get; ns ← logger_nodes (m_loggers s); mret (emit (match ns with [] => Null | _ => Sequence ns end)).
End yaml.
End log.
