(* ===== verification/LogFormat.v ===== *)
(** The patterns of log lines: LogFormatter::init reads every pattern, and reads
    one that is put together from text and directives as these. *)
From S2P Require Import Prelude.
From stdpp Require Import list.
From S2P Require Import Log.
Open Scope Z_scope.

(** ** The reader *)

Lemma char_at_mid pre c post : char_at (pre ++ c :: post) (length pre) = c.
Proof. unfold char_at. by rewrite list_lookup_middle. Qed.

Lemma substr_mid pre s post : substr (pre ++ s ++ post) (length pre) (length s) = s.
Proof. unfold substr. by rewrite drop_app_length, take_app_length. Qed.

Lemma lt_len pre c (post : bytes) : (length pre <? length (pre ++ c :: post))%nat = true.
Proof. rewrite length_app. cbn. apply Nat.ltb_lt. lia. Qed.

(** A character that goes on with the name of a directive. *)
Lemma isalnum_brace c : isalnum c = true -> byte_eqb c lbrace = false /\ byte_eqb c rbrace = false.
Proof. unfold isalnum, byte_eqb. change (ub lbrace) with 123. change (ub rbrace) with 125. lia. Qed.

(** The name of a directive and what ends it. *)
Lemma directive_end p i n fb str fmt fuel : n = length p -> directive p (S fuel) i n 0 fb str fmt = Some (n, O, str, fmt).
Proof. intros ->. cbn [directive]. by rewrite Nat.ltb_irrefl. Qed.

Lemma directive_name name : forall pre post fuel i fmt,
  forallb isalnum name = true -> post <> [] ->
  directive (pre ++ name ++ post) (length name + fuel) i (length pre) 0 0 [] fmt =
  directive (pre ++ name ++ post) fuel i (length (pre ++ name)) 0 0 [] fmt.
Proof.
  induction name as [|c name IH]; intros pre post fuel i fmt Hn Hp; [by rewrite app_nil_r|].
  cbn [forallb] in Hn. apply andb_true_iff in Hn as [Hc Hn]. cbn [length plus directive].
  rewrite <- app_comm_cons, lt_len, char_at_mid. destruct (isalnum_brace c Hc) as [H1 H2]. rewrite Hc, H1, H2. cbn [negb andb Nat.eqb].
  assert (E : (length pre + 1 =? length (pre ++ c :: name ++ post))%nat = false).
  { apply Nat.eqb_neq. rewrite length_app. cbn. rewrite length_app. destruct post; [done|]. cbn. lia. }
  rewrite E. cbn [andb].
  replace (length pre + 1)%nat with (length (pre ++ [c])) by (rewrite length_app; cbn; lia).
  replace (pre ++ c :: name ++ post) with ((pre ++ [c]) ++ name ++ post) by (by rewrite <- app_assoc).
  rewrite IH by done. by rewrite <- !app_assoc.
Qed.

(** A format in braces. *)
Lemma directive_braces f : forall pre post fuel i fb str fmt,
  Forall (fun c => byte_eqb c rbrace = false) f -> str <> [] ->
  directive (pre ++ f ++ rbrace :: post) (length f + S fuel) i (length pre) 1 fb str fmt =
  Some (length (pre ++ f) + 1, O, str, substr (pre ++ f ++ rbrace :: post) (fb + 1) (length (pre ++ f) - fb - 1))%nat.
Proof.
  induction f as [|c f IH]; intros pre post fuel i fb str fmt Hf Hs.
  - rewrite app_nil_r. cbn [length plus directive app]. rewrite lt_len, char_at_mid. done.
  - apply Forall_cons in Hf as [Hc Hf]. cbn [length plus directive]. rewrite <- app_comm_cons, lt_len, char_at_mid, Hc.
    rewrite (bool_decide_false (str = [])) by done. rewrite !andb_false_r. cbn [Nat.eqb andb].
    replace (length pre + 1)%nat with (length (pre ++ [c])) by (rewrite length_app; cbn; lia).
    replace (pre ++ c :: f ++ rbrace :: post) with ((pre ++ [c]) ++ f ++ rbrace :: post) by (by rewrite <- app_assoc).
    rewrite IH by done. by rewrite <- !app_assoc.
Qed.

(** ** Directives *)

Definition stops (post : bytes) : Prop :=
  match post with [] => True | c :: _ => isalnum c = false /\ byte_eqb c lbrace = false /\ byte_eqb c rbrace = false end.

(** A directive without a format: [pre] ends with its percent sign. *)
Lemma directive_plain pre name post fuel i :
  forallb isalnum name = true -> name <> [] -> stops post -> (length (name ++ post) <= fuel)%nat -> (i + 1 = length pre)%nat ->
  directive (pre ++ name ++ post) (S fuel) i (i + 1) 0 0 [] [] = Some (length (pre ++ name), O, name, []).
Proof.
  intros Hn Hne Hst Hf Hi. rewrite Hi. destruct post as [|c post].
  - destruct name as [|c name _] using rev_ind; [done|]. clear Hne Hst. rewrite forallb_app in Hn. apply andb_true_iff in Hn as [Hn Hc].
    rewrite app_nil_r in *. rewrite length_app in Hf. cbn in Hf, Hc.
    replace (S fuel) with (length name + (S (S (fuel - S (length name)))))%nat by lia.
    rewrite directive_name by done. rewrite app_assoc. cbn [directive]. rewrite lt_len, char_at_mid.
    rewrite andb_true_r in Hc. destruct (isalnum_brace c Hc) as [H1 H2]. rewrite Hc, H1, H2. cbn [negb andb Nat.eqb].
    assert (El : (length (pre ++ name) + 1 = length ((pre ++ name) ++ [c]))%nat) by (rewrite (length_app _ [c]); done).
    rewrite El, Nat.eqb_refl, (bool_decide_true ([] = [])) by done. cbn [andb]. rewrite Nat.ltb_irrefl. do 3 f_equal.
    rewrite Hi. unfold substr. rewrite <- app_assoc, drop_app_length, take_ge; [done|]. rewrite !length_app. lia.
  - destruct Hst as (H0 & H1 & H2). rewrite length_app in Hf. cbn in Hf.
    replace (S fuel) with (length name + S (fuel - length name))%nat by lia. rewrite directive_name by done.
    rewrite app_assoc. cbn [directive]. rewrite lt_len, char_at_mid, H0, H1, H2. cbn [negb andb Nat.eqb]. do 3 f_equal.
    rewrite Hi, <- app_assoc. replace (length (pre ++ name) - i - 1)%nat with (length name) by (rewrite length_app; lia). apply substr_mid.
Qed.

(** A directive with a format. *)
Lemma directive_format pre name f post fuel i :
  forallb isalnum name = true -> name <> [] -> Forall (fun c => byte_eqb c rbrace = false) f ->
  (length (name ++ lbrace :: f ++ rbrace :: post) <= fuel)%nat -> (i + 1 = length pre)%nat ->
  directive (pre ++ name ++ lbrace :: f ++ rbrace :: post) (S fuel) i (i + 1) 0 0 [] [] =
  Some (length (pre ++ name ++ lbrace :: f ++ [rbrace]), O, name, f).
Proof.
  intros Hn Hne Hf Hl Hi. rewrite Hi. rewrite length_app in Hl. cbn in Hl. rewrite length_app in Hl. cbn in Hl.
  replace (S fuel) with (length name + S (length f + S (fuel - length name - length f - 1)))%nat by lia. rewrite directive_name by done.
  rewrite app_assoc. cbn [directive]. rewrite lt_len, char_at_mid.
  change (isalnum lbrace) with false. change (byte_eqb lbrace lbrace) with true. change (byte_eqb lbrace rbrace) with false. cbn [negb andb Nat.eqb].
  replace (length (pre ++ name) + 1)%nat with (length ((pre ++ name) ++ [lbrace])) by (rewrite (length_app (pre ++ name)); cbn; lia).
  assert (En : substr ((pre ++ name) ++ lbrace :: f ++ rbrace :: post) (i + 1) (length (pre ++ name) - i - 1) = name).
  { rewrite Hi, <- app_assoc. replace (length (pre ++ name) - i - 1)%nat with (length name) by (rewrite length_app; lia). apply substr_mid. }
  rewrite En. replace ((pre ++ name) ++ lbrace :: f ++ rbrace :: post) with (((pre ++ name) ++ [lbrace]) ++ f ++ rbrace :: post) by (by rewrite <- !app_assoc).
  rewrite directive_braces by done.
  assert (E1 : (length (((pre ++ name) ++ [lbrace]) ++ f) + 1)%nat = length (pre ++ name ++ lbrace :: f ++ [rbrace])).
  { rewrite !length_app. cbn. rewrite length_app. cbn. lia. }
  replace (length (pre ++ name) + 1)%nat with (length ((pre ++ name) ++ [lbrace])) by (rewrite (length_app (pre ++ name)); cbn; lia).
  replace (length (((pre ++ name) ++ [lbrace]) ++ f) - length (pre ++ name) - 1)%nat with (length f)
    by (rewrite (length_app _ f), (length_app _ [lbrace]); cbn; lia).
  by rewrite E1, substr_mid.
Qed.

(** ** Patterns put together *)

Inductive piece := Text (s : bytes) | Dir (name : bytes) (fmt : option bytes).
Definition show_piece (p : piece) : bytes :=
  match p with
  | Text s => s
  | Dir name None => percent :: name
  | Dir name (Some f) => percent :: name ++ lbrace :: f ++ [rbrace]
  end.
Definition show_pieces (ps : list piece) : bytes := concat (map show_piece ps).
Definition piece_item (p : piece) : FormatItem :=
  match p with
  | Text s => Str s
  | Dir name fmt => match find_item name with Some make => make (default [] fmt) | None => Str [] end
  end.

Definition piece_ok (p : piece) : Prop :=
  match p with
  | Text s => s <> [] /\ Forall (fun c => byte_eqb c percent = false) s
  | Dir name fmt => is_Some (find_item name) /\ Forall (fun c => byte_eqb c rbrace = false) (default [] fmt)
  end.
(** Text ends at the next directive, and a directive without a format at a
    character that is no letter, digit or brace. *)
Fixpoint pieces_ok (ps : list piece) : Prop :=
  match ps with
  | [] => True
  | p :: ps =>
    piece_ok p /\
    match p, ps with
    | Text _, Text _ :: _ => False
    | Dir _ None, Text s :: _ => stops s
    | _, _ => True
    end /\ pieces_ok ps
  end.

Lemma find_item_name name : is_Some (find_item name) -> exists c, name = [c] /\ isalnum c = true /\ byte_eqb c percent = false.
Proof.
  intros [make E]. unfold find_item in E. destruct (list_find (fun kv => kv.1 = name) s_format_items) as [[i [k v]]|] eqn:El; [|done].
  apply list_find_Some in El as (Hl & Hk & _). cbn in Hk. subst k. apply list_elem_of_lookup_2 in Hl. unfold s_format_items in Hl.
  repeat (apply elem_of_cons in Hl as [[= -> _]|Hl]; [eexists; repeat split|]). by apply elem_of_nil in Hl.
Qed.

Lemma show_cons p ps : show_pieces (p :: ps) = show_piece p ++ show_pieces ps.
Proof. done. Qed.

Lemma show_stops ps : match ps with Text s :: _ => stops s | _ => True end -> pieces_ok ps -> stops (show_pieces ps).
Proof.
  destruct ps as [|[s|name [f|]] ps]; [done| |done..]. intros Hs [[Hne _] _]. rewrite show_cons. cbn. by destruct s.
Qed.

Section scan.
Definition tok (p : piece) : token :=
  match p with Text s => (s, [], false) | Dir name fmt => (name, default [] fmt, true) end.

Lemma scan_text s : forall pre post nstr vec fuel,
  Forall (fun c => byte_eqb c percent = false) s ->
  scan (pre ++ s ++ post) (length s + fuel) (length pre) nstr vec false =
  scan (pre ++ s ++ post) fuel (length (pre ++ s)) (nstr ++ s) vec false.
Proof.
  induction s as [|c s IH]; intros pre post nstr vec fuel Hs; [by rewrite !app_nil_r|].
  apply Forall_cons in Hs as [Hc Hs]. cbn [length plus scan]. rewrite <- app_comm_cons, lt_len, char_at_mid, Hc. cbn [negb].
  replace (length pre + 1)%nat with (length (pre ++ [c])) by (rewrite length_app; cbn; lia).
  replace (pre ++ c :: s ++ post) with ((pre ++ [c]) ++ s ++ post) by (by rewrite <- app_assoc).
  rewrite IH by done. by rewrite <- !app_assoc.
Qed.

Lemma braces_app name f rest : (percent :: name ++ lbrace :: f ++ [rbrace]) ++ rest = percent :: name ++ lbrace :: f ++ rbrace :: rest.
Proof. cbn. rewrite <- app_assoc. cbn. by rewrite <- app_assoc. Qed.

(** One turn of the loop at a directive. *)
Lemma scan_directive pre name rest nstr vec fuel n fmt :
  is_Some (find_item name) ->
  directive (pre ++ percent :: name ++ rest) (S (length (pre ++ percent :: name ++ rest))) (length pre) (length pre + 1) 0 0 [] [] =
    Some (n, O, name, fmt) ->
  scan (pre ++ percent :: name ++ rest) (S fuel) (length pre) nstr vec false =
  scan (pre ++ percent :: name ++ rest) fuel n [] (flush nstr vec ++ [(name, fmt, true)]) false.
Proof.
  intros Hf Hd. cbn [scan]. rewrite Hd, lt_len, char_at_mid. change (byte_eqb percent percent) with true. cbn [negb].
  destruct (find_item_name name Hf) as (c & -> & _ & Hc).
  assert (Ec : char_at (pre ++ percent :: [c] ++ rest) (length pre + 1) = c).
  { replace (length pre + 1)%nat with (length (pre ++ [percent])) by (rewrite length_app; cbn; lia).
    replace (pre ++ percent :: [c] ++ rest) with ((pre ++ [percent]) ++ c :: rest) by (by rewrite <- app_assoc). apply char_at_mid. }
  rewrite Ec, Hc, andb_false_r. done.
Qed.

Lemma scan_pieces ps : forall pre nstr vec fuel, pieces_ok ps ->
  match ps with Text _ :: _ => nstr = [] | _ => True end -> (length (show_pieces ps) < fuel)%nat ->
  scan (pre ++ show_pieces ps) fuel (length pre) nstr vec false = Some (flush nstr vec ++ map tok ps, false).
Proof.
  induction ps as [|p ps IH]; intros pre nstr vec fuel Hok Hn Hf.
  { destruct fuel as [|fuel]; [by cbn in Hf; lia|]. cbn [show_pieces map concat scan]. rewrite !app_nil_r, Nat.ltb_irrefl. done. }
  destruct Hok as (Hp & Hadj & Hok). rewrite show_cons in Hf |- *. rewrite length_app in Hf. destruct p as [s|name fmt].
  - subst nstr. destruct Hp as [Hne Hs]. cbn [show_piece] in *. replace fuel with (length s + (fuel - length s))%nat by lia.
    rewrite scan_text by done. rewrite app_assoc. rewrite (IH (pre ++ s) ([] ++ s) vec (fuel - length s)%nat Hok); [|by destruct ps as [|[]]|lia].
    cbn [app flush map tok]. destruct s; [done|]. cbn [flush]. by rewrite <- app_assoc.
  - destruct Hp as [Hname Hfmt]. destruct (find_item_name name Hname) as (c & En & Ha & _).
    assert (Hall : forallb isalnum name = true) by (subst name; cbn; by rewrite Ha). assert (Hne : name <> []) by (by subst name).
    destruct fuel as [|fuel]; [lia|]. assert (Hi : (length pre + 1)%nat = length (pre ++ [percent])) by (rewrite length_app; cbn; lia).
    destruct fmt as [f|]; cbn [show_piece] in *.
    + cbn in Hfmt. rewrite braces_app.
      erewrite scan_directive; [|done|].
      2:{ replace (pre ++ percent :: name ++ lbrace :: f ++ rbrace :: show_pieces ps)
            with ((pre ++ [percent]) ++ name ++ lbrace :: f ++ rbrace :: show_pieces ps) by (by rewrite <- app_assoc).
          apply directive_format; try done. rewrite !length_app. lia. }
      rewrite <- (braces_app name), app_assoc.
      replace (pre ++ percent :: name ++ lbrace :: f ++ [rbrace]) with ((pre ++ [percent]) ++ name ++ lbrace :: f ++ [rbrace]) by (by rewrite <- app_assoc).
      rewrite IH; [|done|by destruct ps as [|[]]|cbn in Hf; rewrite length_app in Hf; lia]. cbn [flush map tok default]. by rewrite <- app_assoc.
    + replace (pre ++ (percent :: name) ++ show_pieces ps) with (pre ++ percent :: name ++ show_pieces ps) by done.
      erewrite scan_directive; [|done|].
      2:{ replace (pre ++ percent :: name ++ show_pieces ps) with ((pre ++ [percent]) ++ name ++ show_pieces ps) by (by rewrite <- app_assoc).
          apply directive_plain; try done; [|rewrite !length_app; lia]. apply show_stops; [by destruct ps as [|[]]|done]. }
      replace (pre ++ percent :: name ++ show_pieces ps) with (((pre ++ [percent]) ++ name) ++ show_pieces ps) by (by rewrite <- !app_assoc).
      rewrite IH; [|done|by destruct ps as [|[]]|cbn in Hf; lia]. cbn [flush map tok default]. by rewrite <- app_assoc.
Qed.

Lemma make_items_pieces ps : pieces_ok ps -> make_items (map tok ps) = (map piece_item ps, false).
Proof.
  induction ps as [|p ps IH]; [done|]. intros (Hp & _ & Hok). cbn [map make_items]. rewrite (IH Hok). destruct p as [s|name fmt]; [done|].
  destruct Hp as [[make E] _]. cbn [tok piece_item]. by rewrite E.
Qed.

(** ** Totality *)

Lemma directive_total p i fuel : forall n st fb str fmt, (length p - n < fuel)%nat ->
  exists n' st' str' fmt', directive p fuel i n st fb str fmt = Some (n', st', str', fmt') /\ (n <= n')%nat.
Proof.
  induction fuel as [|fuel IH]; intros n st fb str fmt Hf; [lia|]. cbn [directive].
  destruct (Nat.ltb_spec n (length p)); [|by eexists _, _, _, _].
  repeat match goal with |- context [if ?b then _ else _] => lazymatch b with context [bool_decide] => fail | _ => destruct b end end;
    try (by eexists _, _, _, _; split; [done|lia]).
  all: edestruct (IH (n + 1)%nat) as (n' & st' & str' & fmt' & E & Hn'); [lia|]; rewrite E; eexists _, _, _, _; split; [done|lia].
Qed.

Lemma scan_total p fuel : forall i nstr vec error, (length p - i < fuel)%nat -> is_Some (scan p fuel i nstr vec error).
Proof.
  induction fuel as [|fuel IH]; intros i nstr vec error Hf; [lia|]. cbn [scan].
  destruct (Nat.ltb_spec i (length p)); [|by eexists]. destruct (negb _); [apply IH; lia|]. destruct (_ && _); [apply IH; lia|].
  destruct (directive_total p i (S (length p)) (i + 1) 0 0 [] []) as (n & st & str & fmt & E & Hn); [lia|]. rewrite E.
  destruct (st =? 0)%nat; apply IH; lia.
Qed.
Lemma init_total pattern : is_Some (init pattern).
Proof.
  unfold init. destruct (scan_total pattern (S (length pattern)) 0 [] [] false) as [[vec e] ->]; [lia|].
  destruct (make_items vec). by eexists.
Qed.
End scan.

(** C36: LogFormatter::init terminates on every pattern, and a pattern that is put
    together from text and directives with or without a format is read as
    exactly these items, without an error: text without percent signs that does
    not go on with a letter, a digit or a brace behind a directive, and formats
    without a closing brace. *)
Theorem pattern_roundtrip (ps : list piece) :
  (forall pattern, is_Some (init pattern)) /\
  (pieces_ok ps -> init (show_pieces ps) = Some (mkLogFormatter (show_pieces ps) (map piece_item ps) false)).
Proof.
  split; [exact init_total|].
  intros Hok. unfold init. pose proof (scan_pieces ps [] [] [] (S (length (show_pieces ps))) Hok) as E. cbn [app length] in E.
  rewrite E by (lia || by destruct ps as [|[]]). cbn [flush app]. by rewrite make_items_pieces.
Qed.

(** The pattern of every new logger, and one with a percent sign twice, which is
    not read as a percent sign. *)
Definition default_pieces : list piece :=
  [Dir (bs "d") (Some (bs "%Y-%m-%d %H:%M:%S")); Dir (bs "T") None; Dir (bs "t") None; Dir (bs "T") None; Dir (bs "N") None; Dir (bs "T") None;
   Dir (bs "F") None; Dir (bs "T") None; Text (bs "["); Dir (bs "p") None; Text (bs "]"); Dir (bs "T") None; Text (bs "["); Dir (bs "c") None;
   Text (bs "]"); Dir (bs "T") None; Dir (bs "f") None; Text (bs ":"); Dir (bs "l") None; Dir (bs "T") None; Dir (bs "m") None; Dir (bs "n") None].

Lemma pattern_roundtrip_witness :
  show_pieces default_pieces = default_pattern /\
  init default_pattern = Some (mkLogFormatter default_pattern (map piece_item default_pieces) false).
Proof.
  assert (Hok : pieces_ok default_pieces).
  { cbn -[find_item]. repeat (split || done || (eexists; reflexivity) || (repeat constructor; fail)); repeat constructor. }
  split; [reflexivity|]. apply (pattern_roundtrip default_pieces). exact Hok.
Defined.

Example percent_twice :
  init (bs "%%") = Some (mkLogFormatter (bs "%%") [Str (bs "%"); Str (bs "<<error_format %>>")] true) /\
  init (bs "100%%d") = Some (mkLogFormatter (bs "100%%d") [Str (bs "100%"); DataTime_new []] false).
Proof. split; vm_compute; reflexivity. Qed.
