(* ===== verification/LogThms.v ===== *)
(** Who writes a log line, and what makes a log statement fail. *)
From S2P Require Import Prelude OrdMap.
From stdpp Require Import list.
From S2P Require Import Config Log LogFormat.
Open Scope Z_scope.

(** Tactics do not read patterns by the way. *)
#[local] Opaque init.

Section log.
Context `{LogEnv}.
Implicit Type s : Log.

(** ** The invariant *)

(** A formatter that is not null, unless the program sets null ones. *)
Definition has (nulls : bool) (f : option LogFormatter) : Prop := nulls = false -> is_Some f.

(** The root has no root, every other logger at most the root; every logger has a
    formatter, and so has every appender of a logger. *)
Record log_ok (nulls : bool) s : Prop := mkLogOk {
  ok_root : exists r, loggers s !! m_root s = Some r /\ l_root r = None;
  ok_formatter i l : loggers s !! i = Some l -> has nulls (l_formatter l);
  ok_chain i l r : loggers s !! i = Some l -> l_root l = Some r -> r = m_root s;
  ok_appenders i l a : loggers s !! i = Some l -> a ∈ l_appenders l -> exists ap, appenders s !! a = Some ap /\ has nulls (a_formatter ap)
}.

Lemma has_Some nulls f : has nulls (Some f).
Proof. by eexists. Qed.

Lemma has_weaken nulls nulls' f : has nulls f -> has (nulls || nulls') f.
Proof. intros Hf [-> _]%orb_false_iff. by apply Hf. Qed.

Lemma ok_weaken nulls nulls' s : log_ok nulls s -> log_ok (nulls || nulls') s.
Proof.
  intros [Hr Hf Hc Ha]. constructor; [done| |done|].
  - intros i l Hl. by eapply has_weaken, Hf.
  - intros i l a Hl Hin. destruct (Ha i l a Hl Hin) as (ap & Eap & Hap). exists ap. split; [done|]. by apply has_weaken.
Qed.

Lemma logger_at_inv i s l s' : logger_at i s = Ret l s' -> s' = s /\ loggers s !! i = Some l.
Proof. unfold logger_at. step_with (eq_refl : get s = Ret s s). destruct (loggers s !! i); [by intros [= -> ->]|done]. Qed.

Lemma appender_at_inv i s a s' : appender_at i s = Ret a s' -> s' = s /\ appenders s !! i = Some a.
Proof. unfold appender_at. step_with (eq_refl : get s = Ret s s). destruct (appenders s !! i); [by intros [= -> ->]|done]. Qed.

Lemma logger_at_run i s l : loggers s !! i = Some l -> logger_at i s = Ret l s.
Proof. intros E. unfold logger_at. step_with (eq_refl : get s = Ret s s). by rewrite E. Qed.

Lemma appender_at_run i s a : appenders s !! i = Some a -> appender_at i s = Ret a s.
Proof. intros E. unfold appender_at. step_with (eq_refl : get s = Ret s s). by rewrite E. Qed.

(** ** Changes of one object *)

Lemma ok_set_appender n s i a a' :
  log_ok n s -> appenders s !! i = Some a -> (has n (a_formatter a) -> has n (a_formatter a')) ->
  log_ok n (set_appenders (<[i := a']> (appenders s)) s).
Proof.
  intros [Hr Hf Hc Ha] Hi Hk. constructor; [done..|]. intros j l b Hj Hb. destruct (Ha j l b Hj Hb) as (ap & Eap & Hap). cbn.
  destruct (decide (b = i)) as [-> |Hne]; [|rewrite list_lookup_insert_ne by done; by exists ap].
  exists a'. rewrite list_lookup_insert_eq by (by eapply lookup_lt_Some). split; [done|]. apply Hk. by rewrite Hi in Eap; injection Eap as ->.
Qed.

Lemma ok_new_appender n s a : log_ok n s -> log_ok n (set_appenders (appenders s ++ [a]) s).
Proof.
  intros [Hr Hf Hc Ha]. constructor; [done..|]. intros j l b Hj Hb. destruct (Ha j l b Hj Hb) as (ap & Eap & Hap).
  exists ap. split; [by apply lookup_app_l_Some|done].
Qed.

Lemma ok_set_logger n s i l l' :
  log_ok n s -> loggers s !! i = Some l -> has n (l_formatter l') -> (l_root l' = l_root l \/ i <> m_root s /\ l_root l' = Some (m_root s)) ->
  (forall a, a ∈ l_appenders l' -> exists ap, appenders s !! a = Some ap /\ has n (a_formatter ap)) ->
  log_ok n (set_loggers (<[i := l']> (loggers s)) s).
Proof.
  intros [(r & Er & Hr) Hf Hc Ha] Hi Hf' Hroot Ha'. pose proof (lookup_lt_Some _ _ _ Hi) as Hlt.
  assert (Hl : forall j x, <[i := l']> (loggers s) !! j = Some x -> (j = i /\ x = l') \/ (j <> i /\ loggers s !! j = Some x)).
  { intros j x Hj. destruct (decide (j = i)) as [-> |Hne].
    - rewrite list_lookup_insert_eq in Hj by done. injection Hj as <-. by left.
    - rewrite list_lookup_insert_ne in Hj by done. by right. }
  constructor; cbn.
  - destruct (decide (m_root s = i)) as [E|Hne].
    + exists l'. subst i. rewrite list_lookup_insert_eq by done. split; [done|]. destruct Hroot as [-> |[]]; [|done]. congruence.
    + exists r. by rewrite list_lookup_insert_ne by done.
  - intros j x Hj. destruct (Hl j x Hj) as [[_ ->]|[_ Hj']]; [done|by eapply Hf].
  - intros j x r' Hj E. destruct (Hl j x Hj) as [[_ ->]|[_ Hj']]; [|by eapply Hc]. destruct Hroot as [Eq|[_ Eq]]; [|congruence].
    rewrite Eq in E. by eapply Hc.
  - intros j x a Hj Hx. destruct (Hl j x Hj) as [[_ ->]|[_ Hj']]; [by apply Ha'|by eapply Ha].
Qed.

Lemma ok_new_logger n s l : log_ok n s -> has n (l_formatter l) -> l_root l = None -> l_appenders l = [] ->
  log_ok n (set_loggers (loggers s ++ [l]) s).
Proof.
  intros [(r & Er & Hr) Hf Hc Ha] Hl Hroot Hap.
  assert (Hj : forall j x, (loggers s ++ [l]) !! j = Some x -> x = l \/ loggers s !! j = Some x).
  { intros j x Hx. apply lookup_app_Some in Hx as [Hx|[_ Hx]]; [by right|left]. by apply list_lookup_singleton_Some in Hx as [_ ->]. }
  constructor; cbn.
  - exists r. split; [by apply lookup_app_l_Some|done].
  - intros j x Hx. destruct (Hj j x Hx) as [-> |Hx']; [done|by eapply Hf].
  - intros j x r' Hx E. destruct (Hj j x Hx) as [-> |Hx']; [congruence|by eapply Hc].
  - intros j x a Hx Hin. destruct (Hj j x Hx) as [-> |Hx']; [rewrite Hap in Hin; by apply elem_of_nil in Hin|by eapply Ha].
Qed.

Lemma ok_names n s names : log_ok n s -> log_ok n (set_names names s).
Proof. by intros []. Qed.

(** ** The lines of an event *)

(** An appender or a logger lets a level through. *)
Definition admits (threshold level : Level) : bool := level_num threshold <=? level_num level.

Definition item_text s (item : FormatItem) (level : Level) (event : LogEvent) : bytes :=
  match item with
  | Message => e_content event
  | LevelItem => ToString level
  | Elapse => show_dec (e_elapse event)
  | Name => match loggers s !! e_logger event with Some l => l_name l | None => [] end
  | ThreadId => show_dec (e_threadId event)
  | NewLine => [bz 10]
  | DataTime fmt => c_str (default [] (strftime64 (c_str fmt) (e_time event)))
  | Filename => c_str (e_file event)
  | Line => show_int (e_line event)
  | Tab => [bz 9]
  | FiberId => show_dec (e_fiberId event)
  | ThreadName => e_threadName event
  | Str str => str
  end.
Definition render s (f : LogFormatter) (level : Level) (event : LogEvent) : bytes :=
  concat (map (fun i => item_text s i level event) (m_items f)).

(** What an appender writes, if it writes. *)
Definition line s (level : Level) (event : LogEvent) (i : nat) : option (sink * bytes) :=
  a ← appenders s !! i;
  f ← a_formatter a;
  if admits (a_level a) level && a_open a then Some (a_sink a, render s f level event) else None.

(** The appenders an event goes to: those of the logger, or those of the root if
    it has none; each logger on the way lets the level through. *)
Definition receivers s (i : nat) (level : Level) : list nat :=
  match loggers s !! i with
  | Some l =>
    if negb (admits (l_level l) level) then [] else
    match l_appenders l, l_root l with
    | [], Some r =>
      match loggers s !! r with Some root => if admits (l_level root) level then l_appenders root else [] | None => [] end
    | l, _ => l
    end
  | None => []
  end.
Definition lines s (event : LogEvent) : list (sink * bytes) :=
  omap (line s (e_level event) event) (receivers s (e_logger event) (e_level event)).

(** What makes an appender that lets the level through fail: its formatter is
    null, or it writes a time that does not fit in the array, whose contents are
    undefined then. *)
Inductive obstacle s (level : Level) (event : LogEvent) (i : nat) : crash -> Prop :=
| ob_null a : appenders s !! i = Some a -> admits (a_level a) level = true -> a_formatter a = None -> obstacle s level event i NullDeref
| ob_long a f fmt : appenders s !! i = Some a -> admits (a_level a) level = true -> a_formatter a = Some f ->
    DataTime fmt ∈ m_items f -> strftime64 (c_str fmt) (e_time event) = None -> obstacle s level event i Uninitialised.
Definition clear s (level : Level) (event : LogEvent) (i : nat) : Prop := forall c, ~ obstacle s level event i c.

Definition written s (w : list (sink * bytes)) : Log := mkLog (loggers s) (appenders s) (m_loggers s) (m_root s) (output s ++ w).

Lemma written_nil s : written s [] = s.
Proof. destruct s. unfold written. cbn. by rewrite app_nil_r. Qed.

Lemma written_app s w w' : written (written s w) w' = written s (w ++ w').
Proof. unfold written. cbn. by rewrite app_assoc. Qed.

Lemma obstacle_written s w level event i c : obstacle (written s w) level event i c -> obstacle s level event i c.
Proof. destruct 1; [by eapply ob_null|by eapply ob_long]. Qed.

Lemma written_obstacle s w level event i c : obstacle s level event i c -> obstacle (written s w) level event i c.
Proof. destruct 1; [by eapply ob_null|by eapply ob_long]. Qed.

(** *** Formatting *)

Definition fits (event : LogEvent) (item : FormatItem) : Prop :=
  match item with DataTime fmt => is_Some (strftime64 (c_str fmt) (e_time event)) | _ => True end.
#[local] Instance fits_dec event item : Decision (fits event item).
Proof. destruct item; apply _. Defined.

Lemma format_item_run s item level event : is_Some (loggers s !! e_logger event) ->
  format_item item level event s = if decide (fits event item) then Ret (item_text s item level event) s else Crash Uninitialised.
Proof.
  intros [l El]. destruct item; try (rewrite decide_True by done; done); cbn [format_item item_text].
  - rewrite decide_True by done. step_with (logger_at_run _ _ _ El). by rewrite El.
  - case_decide as Hf; cbn [fits] in Hf; [destruct Hf as [x Ex]; by rewrite Ex|].
    destruct (strftime64 _ _) eqn:E; [by destruct Hf|done].
Qed.

Lemma format_run s f level event : is_Some (loggers s !! e_logger event) ->
  Log.format f level event s = if decide (Forall (fits event) (m_items f)) then Ret (render s f level event) s else Crash Uninitialised.
Proof.
  intros El. unfold Log.format, render. induction (m_items f) as [|i items IH]; [by rewrite decide_True|]. cbn [format_items map concat].
  pose proof (format_item_run s i level event El) as Ei. destruct (decide (fits event i)) as [Hi|Hi].
  - step_with Ei. destruct (decide (Forall (fits event) items)) as [Ha|Ha].
    + step_with IH. by rewrite decide_True by by constructor.
    + rewrite decide_False by (by intros [_ ?]%list.Forall_cons). unfold mbind, M_bind. by rewrite IH.
  - rewrite decide_False by (by intros [? _]%list.Forall_cons). unfold mbind at 1, M_bind at 1. by rewrite Ei.
Qed.

(** *** The appenders *)

Lemma appender_log_run s level event i : is_Some (loggers s !! e_logger event) -> is_Some (appenders s !! i) -> clear s level event i ->
  appender_log i level event s = Ret tt (written s (option_list (line s level event i))).
Proof.
  intros El [a Ei] Hc. unfold appender_log, line. step_with (appender_at_run _ _ _ Ei). rewrite Ei. cbn [mbind option_bind].
  change (at_least level (a_level a)) with (admits (a_level a) level).
  destruct (admits (a_level a) level) eqn:Ev; cbn [andb]; [|destruct (a_formatter a); by rewrite written_nil].
  destruct (a_formatter a) as [f|] eqn:Ef; [|by destruct (Hc NullDeref); eapply ob_null].
  pose proof (format_run s f level event El) as E. rewrite decide_True in E.
  - step_with E. destruct (a_open a); [done|by rewrite written_nil].
  - apply list.Forall_forall. intros item Hi. destruct item as [| | | | | |fmt| | | | | |]; try done. cbn.
    destruct (strftime64 _ _) eqn:Es; [by eexists|]. by destruct (Hc Uninitialised); eapply ob_long.
Qed.

Lemma appender_log_fails s level event i c : is_Some (loggers s !! e_logger event) -> obstacle s level event i c ->
  appender_log i level event s = Crash c.
Proof.
  intros El Ho. unfold appender_log. destruct Ho as [a Ei Ev Ef|a f fmt Ei Ev Ef Hin Es]; step_with (appender_at_run _ _ _ Ei);
    change (at_least level (a_level a)) with (admits (a_level a) level); rewrite Ev, Ef; [done|].
  pose proof (format_run s f level event El) as E. rewrite decide_False in E; [unfold mbind, M_bind; by rewrite E|].
  intros Hall. assert (Hf : fits event (DataTime fmt)) by (by eapply list.Forall_forall). cbn in Hf. rewrite Es in Hf. by destruct Hf.
Qed.

Lemma log_appenders_run l level event : forall s,
  is_Some (loggers s !! e_logger event) -> (forall a, a ∈ l -> is_Some (appenders s !! a)) -> (forall a, a ∈ l -> clear s level event a) ->
  log_appenders l level event s = Ret tt (written s (omap (line s level event) l)).
Proof.
  induction l as [|i l IH]; intros s El Ha Hc; [by cbn; rewrite written_nil|]. cbn [log_appenders].
  step_with (appender_log_run s level event i El (Ha i (list_elem_of_here _ _)) (Hc i (list_elem_of_here _ _))).
  rewrite IH; [|done|intros a Hin; apply Ha; by right|].
  - rewrite written_app. do 2 f_equal.
    change (line (written s _) level event) with (line s level event). cbn. by destruct (line s level event i).
  - intros a Hin c Ho. eapply (Hc a); [by right|by eapply obstacle_written].
Qed.

Lemma log_appenders_fails l1 a l2 level event c : forall s,
  is_Some (loggers s !! e_logger event) -> (forall b, b ∈ l1 -> is_Some (appenders s !! b)) -> (forall b, b ∈ l1 -> clear s level event b) ->
  obstacle s level event a c -> log_appenders (l1 ++ a :: l2) level event s = Crash c.
Proof.
  induction l1 as [|i l1 IH]; intros s El Ha Hc Ho; cbn [app log_appenders].
  - unfold mbind, M_bind. by rewrite (appender_log_fails s level event a c El Ho).
  - step_with (appender_log_run s level event i El (Ha i (list_elem_of_here _ _)) (Hc i (list_elem_of_here _ _))).
    apply IH; [done|intros b Hb; apply Ha; by right| |by apply written_obstacle].
    intros b Hb c' Hb'. eapply (Hc b); [by right|by eapply obstacle_written].
Qed.

(** *** The loggers *)

Lemma receivers_bound n s i level a : log_ok n s -> a ∈ receivers s i level ->
  exists ap, appenders s !! a = Some ap /\ has n (a_formatter ap).
Proof.
  intros Hok. unfold receivers. destruct (loggers s !! i) as [l|] eqn:Ei; [|by intros ?%elem_of_nil].
  destruct (admits _ _); cbn [negb]; [|by intros ?%elem_of_nil].
  destruct (l_appenders l) as [|b bs'] eqn:Ea; [|intros Ha; eapply (ok_appenders n s Hok i l a Ei); by rewrite Ea].
  destruct (l_root l) as [r|]; [|by intros ?%elem_of_nil]. destruct (loggers s !! r) as [root|] eqn:Er; [|by intros ?%elem_of_nil].
  destruct (admits _ _); [|by intros ?%elem_of_nil]. by apply (ok_appenders n s Hok r root a Er).
Qed.

Lemma log_receivers n s i level event : log_ok n s -> is_Some (loggers s !! i) ->
  log 2 i level event s = log_appenders (receivers s i level) level event s.
Proof.
  intros Hok [l Ei]. cbn [log]. step_with (logger_at_run _ _ _ Ei). unfold receivers. rewrite Ei.
  change (at_least level (l_level l)) with (admits (l_level l) level). destruct (admits (l_level l) level); cbn [negb]; [|done].
  destruct (l_appenders l) as [|a las] eqn:Ea; [|done].
  destruct (l_root l) as [r|] eqn:Er; [|done]. assert (r = m_root s) as -> by (by eapply ok_chain).
  destruct (ok_root n s Hok) as (root & Eroot & Hnone). step_with (logger_at_run _ _ _ Eroot). rewrite Eroot.
  change (at_least level (l_level root)) with (admits (l_level root) level).
  destruct (admits (l_level root) level); [|done]. destruct (l_appenders root) as [|b bs'] eqn:Eb; [by rewrite Hnone|done].
Qed.

Lemma LINKO_LOG_LEVEL_receivers n s event : log_ok n s -> is_Some (loggers s !! e_logger event) ->
  LINKO_LOG_LEVEL 2 event s = log_appenders (receivers s (e_logger event) (e_level event)) (e_level event) event s.
Proof.
  intros Hok El. pose proof El as [l Ei]. unfold LINKO_LOG_LEVEL. step_with (logger_at_run _ _ _ Ei).
  destruct (at_least (e_level event) (l_level l)) eqn:E; [by apply (log_receivers n)|].
  change (at_least (e_level event) (l_level l)) with (admits (l_level l) (e_level event)) in E. unfold receivers. by rewrite Ei, E.
Qed.

Definition all_clear s (event : LogEvent) : Prop :=
  forall a, a ∈ receivers s (e_logger event) (e_level event) -> clear s (e_level event) event a.

Lemma LINKO_LOG_LEVEL_run n s event : log_ok n s -> is_Some (loggers s !! e_logger event) -> all_clear s event ->
  LINKO_LOG_LEVEL 2 event s = Ret tt (written s (lines s event)).
Proof.
  intros Hok El Hc. rewrite (LINKO_LOG_LEVEL_receivers n s event Hok El). apply log_appenders_run; [done| |done].
  intros a Ha. destruct (receivers_bound n s _ _ a Hok Ha) as (ap & Eap & _). by exists ap.
Qed.

Lemma obstacle_dec s level event i : is_Some (appenders s !! i) -> clear s level event i \/ exists c, obstacle s level event i c.
Proof.
  intros [a Ei]. destruct (admits (a_level a) level) eqn:Ev; [|left; intros c []; congruence].
  destruct (a_formatter a) as [f|] eqn:Ef; [|right; exists NullDeref; by eapply ob_null].
  destruct (decide (Forall (fits event) (m_items f))) as [Hf|Hf].
  - left. intros c []; [congruence|]. assert (f0 = f) as -> by congruence.
    assert (Hx : fits event (DataTime fmt)) by (by eapply list.Forall_forall). cbn in Hx. by destruct Hx; congruence.
  - right. apply not_Forall_Exists in Hf; [|apply _]. apply list.Exists_exists in Hf as (item & Hin & Hn).
    destruct item as [| | | | | |fmt| | | | | |]; try (by destruct Hn). cbn in Hn. exists Uninitialised. eapply ob_long; [done..|].
    destruct (strftime64 _ _); [by destruct Hn|done].
Qed.

Lemma first_obstacle s level event l : (forall a, a ∈ l -> is_Some (appenders s !! a)) ->
  (forall a, a ∈ l -> clear s level event a) \/
  exists l1 a l2 c, l = l1 ++ a :: l2 /\ (forall b, b ∈ l1 -> clear s level event b) /\ obstacle s level event a c.
Proof.
  induction l as [|a l IH]; intros Hb; [left; by intros ? ?%elem_of_nil|].
  destruct (obstacle_dec s level event a (Hb a (list_elem_of_here _ _))) as [Ha|[c Ha]].
  - destruct IH as [Hl|(l1 & b & l2 & c & -> & Hl1 & Ho)]; [intros x Hx; apply Hb; by right| |].
    + left. intros x [-> |Hx]%elem_of_cons; [done|by apply Hl].
    + right. exists (a :: l1), b, l2, c. split; [done|]. split; [|done]. intros x [-> |Hx]%elem_of_cons; [done|by apply Hl1].
  - right. exists [], a, l, c. split; [done|]. split; [|done]. by intros ? ?%elem_of_nil.
Qed.

Lemma LINKO_LOG_LEVEL_fails n s event l1 a l2 c : log_ok n s -> is_Some (loggers s !! e_logger event) ->
  receivers s (e_logger event) (e_level event) = l1 ++ a :: l2 -> (forall b, b ∈ l1 -> clear s (e_level event) event b) ->
  obstacle s (e_level event) event a c -> LINKO_LOG_LEVEL 2 event s = Crash c.
Proof.
  intros Hok El Er Hc Ho. rewrite (LINKO_LOG_LEVEL_receivers n s event Hok El), Er. apply log_appenders_fails; [done| |done..].
  intros b Hb. destruct (receivers_bound n s (e_logger event) (e_level event) b Hok) as (ap & Eap & _); [|by exists ap].
  rewrite Er. apply elem_of_app. by left.
Qed.

(** A log statement that returns has written its lines. *)
Lemma LINKO_LOG_LEVEL_inv n s event s' : log_ok n s -> LINKO_LOG_LEVEL 2 event s = Ret tt s' -> s' = written s (lines s event).
Proof.
  intros Hok E. assert (El : is_Some (loggers s !! e_logger event)).
  { apply bind_Ret_inv in E as (l & s2 & [_ Hl]%logger_at_inv & _). by exists l. }
  destruct (first_obstacle s (e_level event) event (receivers s (e_logger event) (e_level event))) as [Hc|(l1 & a & l2 & c & Er & Hc & Ho)].
  - intros a Ha. destruct (receivers_bound n s _ _ a Hok Ha) as (ap & Eap & _). by exists ap.
  - rewrite (LINKO_LOG_LEVEL_run n s event Hok El Hc) in E. by injection E as <-.
  - by rewrite (LINKO_LOG_LEVEL_fails n s event l1 a l2 c Hok El Er Hc Ho) in E.
Qed.

(** ** What the program does with loggers *)

(** The calls; a formatter that is set may be null. *)
Inductive log_op :=
| OGetLogger (name : bytes)
| OStdout
| OFile (filename : bytes)
| OAdd (i appender : nat)
| ODel (i appender : nat)
| OClear (i : nat)
| OLevel (i : nat) (val : Level)
| OFormatter (i : nat) (f : option LogFormatter)
| OPattern (i : nat) (val : bytes)
| OAppenderFormatter (i : nat) (f : option LogFormatter)
| OAppenderLevel (i : nat) (val : Level)
| OReopen (i : nat)
| OLog (event : LogEvent).

Definition run_log_op (o : log_op) : M Log unit :=
  match o with
  | OGetLogger name => getLogger name;; mret tt
  | OStdout => StdoutLogAppender_new;; mret tt
  | OFile filename => FileLogAppender_new filename;; mret tt
  | OAdd i a => addAppender i a
  | ODel i a => delAppender i a
  | OClear i => clearAppenders i
  | OLevel i v => setLevel i v
  | OFormatter i f => setFormatter i f
  | OPattern i v => setFormatter_pattern i v
  | OAppenderFormatter i f => appender_setFormatter i f
  | OAppenderLevel i v => appender_setLevel i v
  | OReopen i => reopen i;; mret tt
  | OLog event => LINKO_LOG_LEVEL 2 event
  end.

Definition sets_null (o : log_op) : bool :=
  match o with OFormatter _ None | OAppenderFormatter _ None => true | _ => false end.

(** The states of a program that calls these with pointers it has, and whether it
    has set a null formatter. *)
Inductive reachable : bool -> Log -> Prop :=
| reach_new s : LoggerManager_new Log_new = Ret tt s -> reachable false s
| reach_step n s o s' : reachable n s -> run_log_op o s = Ret tt s' -> reachable (n || sets_null o) s'.

Lemma LogFormatter_new_run pattern s : exists f, LogFormatter_new pattern s = Ret f s.
Proof. unfold LogFormatter_new. destruct (init_total pattern) as [f ->]. by exists f. Qed.

Lemma Logger_new_run name s : exists f,
  Logger_new name s = Ret (length (loggers s)) (set_loggers (loggers s ++ [mkLogger name DEBUG [] (Some f) None]) s).
Proof.
  destruct (LogFormatter_new_run default_pattern s) as [f E]. exists f. unfold Logger_new. by step_with E.
Qed.

Lemma LoggerManager_new_run : exists f, LoggerManager_new Log_new =
  Ret tt (mkLog [mkLogger (bs "root") DEBUG [0%nat] (Some f) None] [mkAppender Stdout true DEBUG false (Some f)] [(bs "root", 0%nat)] 0 []).
Proof. destruct (Logger_new_run (bs "root") Log_new) as [f E]. exists f. unfold LoggerManager_new. by step_with E. Qed.

Lemma ok_of_new s : LoggerManager_new Log_new = Ret tt s -> log_ok false s.
Proof.
  destruct LoggerManager_new_run as [f ->]. intros [= <-]. constructor; cbn.
  - by eexists.
  - intros [|i] l; [intros [= <-]; apply has_Some|done].
  - intros [|i] l r; [intros [= <-]; done|done].
  - intros [|i] l a; [intros [= <-]|done]. cbn. intros ->%list_elem_of_singleton. eexists. split; [done|apply has_Some].
Qed.

Lemma inherit_ok n l f : has n f -> forall s s', log_ok n s -> inherit l f s = Ret tt s' ->
  log_ok n s' /\ loggers s' = loggers s /\ m_root s' = m_root s.
Proof.
  intros Hf. induction l as [|i l IH]; intros s s' Hok E; [by injection E as <-|]. cbn [inherit] in E.
  apply bind_Ret_inv in E as (a & s1 & [-> Ha]%appender_at_inv & E). apply bind_Ret_inv in E as ([] & s2 & E1 & E).
  assert (H2 : log_ok n s2 /\ loggers s2 = loggers s /\ m_root s2 = m_root s).
  { destruct (a_hasFormatter a); injection E1 as <-; [done|]. split; [|done]. by eapply ok_set_appender. }
  destruct H2 as (Hok2 & <- & <-). by apply IH.
Qed.

Lemma setFormatter_ok n i f s s' : has n f -> log_ok n s -> setFormatter i f s = Ret tt s' -> log_ok n s'.
Proof.
  intros Hf Hok (l & s1 & [-> Hl]%logger_at_inv & E)%bind_Ret_inv. apply bind_Ret_inv in E as ([] & s2 & [= <-] & E).
  apply (inherit_ok n) in E as [Hok' _]; [done..|]. eapply ok_set_logger; [done|exact Hl|done|by left|].
  intros a Ha. by eapply ok_appenders.
Qed.

Lemma elem_of_erase_first x y l : y ∈ erase_first x l -> y ∈ l.
Proof.
  induction l as [|z l IH]; [done|]. cbn. destruct (z =? x)%nat; [by right|]. intros [->|Hy]%elem_of_cons; [left|right; by apply IH].
Qed.

(** A call keeps the invariant, if it may set what it sets. *)
Lemma run_log_op_ok n o s s' : (sets_null o = true -> n = true) -> log_ok n s -> run_log_op o s = Ret tt s' -> log_ok n s'.
Proof.
  intros Hnull Hok E. assert (Hset : forall f, (f = None -> n = true) -> has n f).
  { intros [f|] Hf; [intros _; by eexists|]. by rewrite Hf. }
  destruct o as [name| |name|i a|i a|i|i v|i f|i v|i f|i v|i|event]; cbn [run_log_op] in E.
  - apply bind_Ret_inv in E as (j & s1 & E & [= <-]). unfold getLogger in E. step_with (eq_refl : get s = Ret s s) in E.
    destruct (map_find _ _ _); [by injection E as _ <-|]. destruct (Logger_new_run name s) as [f En]. step_with En in E. clear En.
    set (l0 := mkLogger name DEBUG [] (Some f) None) in *. set (s1' := set_loggers (loggers s ++ [l0]) s) in *.
    assert (Hok1 : log_ok n s1') by (apply ok_new_logger; [done|apply has_Some|done|done]).
    assert (Hl : loggers s1' !! length (loggers s) = Some l0) by (by apply list_lookup_middle).
    step_with (logger_at_run _ _ _ Hl) in E. injection E as _ <-. apply ok_names.
    apply (ok_set_logger n s1' (length (loggers s)) l0); [done|done|apply has_Some| |].
    + right. split; [|done]. destruct (ok_root n s Hok) as (r & Er & _). apply lookup_lt_Some in Er. cbn. lia.
    + cbn [l_appenders with_root l0]. intros a Ha. by apply elem_of_nil in Ha.
  - injection E as <-. by apply ok_new_appender.
  - apply bind_Ret_inv in E as (j & s1 & E & [= <-]). apply bind_Ret_inv in E as (j' & s2 & [= <- <-] & E).
    apply bind_Ret_inv in E as (b & s3 & E & [= _ <-]). apply bind_Ret_inv in E as (a & s4 & [-> Ha]%appender_at_inv & E).
    assert (Hn := ok_new_appender n s (mkAppender (File name) true DEBUG false None) Hok).
    destruct (a_sink a); injection E as _ <-; [done|]. by eapply ok_set_appender.
  - apply bind_Ret_inv in E as (f & s1 & E1 & E). apply bind_Ret_inv in E1 as (ap & s2 & [-> Hap]%appender_at_inv & [= <- <-]).
    apply bind_Ret_inv in E as (l & s2 & [-> Hl]%logger_at_inv & E). apply bind_Ret_inv in E as ([] & s2 & E1 & E).
    assert (H2 : log_ok n s2 /\ loggers s2 = loggers s /\ exists ap', appenders s2 !! a = Some ap' /\ has n (a_formatter ap')).
    { destruct (a_formatter ap) as [f|] eqn:Ef; [injection E1 as <-; split; [done|]; split; [done|]; exists ap; rewrite Ef; split; [done|apply has_Some]|].
      apply bind_Ret_inv in E1 as (ap2 & s3 & [-> Hap2]%appender_at_inv & [= <-]). pose proof (ok_formatter n s Hok i l Hl) as Hg.
      split; [by eapply ok_set_appender|]. split; [done|]. eexists. cbn.
      by rewrite list_lookup_insert_eq by (by eapply lookup_lt_Some). }
    destruct H2 as (Hok2 & El2 & ap' & Eap' & Hf'). apply bind_Ret_inv in E as (l2 & s3 & [-> Hl2]%logger_at_inv & [= <-]).
    eapply ok_set_logger; [done|exact Hl2|by eapply (ok_formatter n s2 Hok2 i l2)|by left|]. cbn. intros x [Hx|Hx]%elem_of_app.
    + by eapply (ok_appenders n s2 Hok2 i l2).
    + apply list_elem_of_singleton in Hx as ->. by exists ap'.
  - apply bind_Ret_inv in E as (l & s2 & [-> Hl]%logger_at_inv & [= <-]).
    eapply ok_set_logger; [done|exact Hl|by eapply (ok_formatter n s Hok i l)|by left|]. cbn. intros x Hx%elem_of_erase_first. by eapply ok_appenders.
  - apply bind_Ret_inv in E as (l & s2 & [-> Hl]%logger_at_inv & [= <-]).
    eapply ok_set_logger; [done|exact Hl|by eapply (ok_formatter n s Hok i l)|by left|]. cbn. intros x Hx. by apply elem_of_nil in Hx.
  - apply bind_Ret_inv in E as (l & s2 & [-> Hl]%logger_at_inv & [= <-]).
    eapply ok_set_logger; [done|exact Hl|by eapply (ok_formatter n s Hok i l)|by left|]. intros x Hx. by eapply (ok_appenders n s Hok i l).
  - eapply setFormatter_ok; [|done..]. apply Hset. intros ->. by apply Hnull.
  - unfold setFormatter_pattern in E. destruct (LogFormatter_new_run v s) as [f Ef]. step_with Ef in E.
    destruct (m_error f); [by injection E as <-|]. eapply setFormatter_ok; [apply has_Some|done..].
  - apply bind_Ret_inv in E as (a & s2 & [-> Ha]%appender_at_inv & [= <-]). eapply ok_set_appender; [done|exact Ha|]. intros _. cbn. apply Hset. intros ->. by apply Hnull.
  - apply bind_Ret_inv in E as (a & s2 & [-> Ha]%appender_at_inv & [= <-]). by eapply ok_set_appender.
  - apply bind_Ret_inv in E as (b & s3 & E & [= <-]). apply bind_Ret_inv in E as (a & s4 & [-> Ha]%appender_at_inv & E).
    destruct (a_sink a); injection E as _ <-; [done|]. by eapply ok_set_appender.
  - apply (LINKO_LOG_LEVEL_inv n) in E as ->; [|done]. by destruct Hok.
Qed.

Lemma reachable_ok n s : reachable n s -> log_ok n s.
Proof.
  induction 1 as [s E|n s o s' _ IH E]; [by apply ok_of_new|]. apply (run_log_op_ok _ o s); [|by apply ok_weaken|done].
  intros ->. apply orb_true_r.
Qed.

(** C34: in every state a program can bring the loggers to, a log statement with a
    logger it has returns, if no appender the event goes to has an obstacle; it
    changes nothing but the output then, and writes exactly one line, in order, to
    every such appender whose level lets it through and whose file is open.  The
    event goes to the appenders of the logger, or to those of the root if it has
    none.  Otherwise the statement fails as the first obstacle says: a null
    pointer, or a time that does not fit in the array of 64 bytes.  There is no
    null formatter in the way as long as the program has set none. *)
Theorem log_lines n s (event : LogEvent) :
  reachable n s -> is_Some (loggers s !! e_logger event) ->
  (all_clear s event -> LINKO_LOG_LEVEL 2 event s = Ret tt (written s (lines s event))) /\
  (~ all_clear s event -> exists l1 a l2 c,
    receivers s (e_logger event) (e_level event) = l1 ++ a :: l2 /\ (forall b, b ∈ l1 -> clear s (e_level event) event b) /\
    obstacle s (e_level event) event a c /\ LINKO_LOG_LEVEL 2 event s = Crash c) /\
  (n = false -> forall a, a ∈ receivers s (e_logger event) (e_level event) -> ~ obstacle s (e_level event) event a NullDeref).
Proof.
  intros R El. pose proof (reachable_ok n s R) as Hok. split; [by eapply LINKO_LOG_LEVEL_run|split].
  - intros Hn. destruct (first_obstacle s (e_level event) event (receivers s (e_logger event) (e_level event))) as [Hc|(l1 & a & l2 & c & Er & Hc & Ho)].
    + intros a Ha. destruct (receivers_bound n s _ _ a Hok Ha) as (ap & Eap & _). by exists ap.
    + by destruct Hn.
    + exists l1, a, l2, c. split_and!; try done. by eapply LINKO_LOG_LEVEL_fails.
  - intros -> a Ha Ho. destruct (receivers_bound false s _ _ a Hok Ha) as (ap & Eap & Hf). destruct (Hf eq_refl) as [f Ef].
    inversion Ho; congruence.
Qed.
End log.

(** ** A concrete environment *)

#[export] Instance DemoLogEnv : LogEnv := {
  iequals a b := bool_decide (map tolower a = map tolower b);
  can_open name := bool_decide (name <> bs "/root.log");
  strftime64 _ t := Some (show_dec t)
}.

Fixpoint run_log_ops (ops : list log_op) : M Log unit :=
  match ops with [] => mret tt | o :: ops => run_log_op o;; run_log_ops ops end.
Lemma reachable_run ops : forall n s s', reachable n s -> run_log_ops ops s = Ret tt s' -> reachable (n || existsb sets_null ops) s'.
Proof.
  induction ops as [|o ops IH]; intros n s s' R E; [injection E as <-; by rewrite orb_false_r|].
  apply bind_Ret_inv in E as ([] & s1 & E1 & E). cbn [existsb]. rewrite orb_assoc. by eapply IH; [eapply reach_step|].
Qed.

(** A logger with a file for warnings and the standard output, one without
    appenders, and a file that cannot be opened; then the formatter of the file is
    taken away. *)
Definition demo_log_ops : list log_op :=
  [OGetLogger (bs "http"); OGetLogger (bs "db"); OFile (bs "a.log"); OStdout; OFile (bs "/root.log");
   OAppenderLevel 1 WARN; OAdd 1 1; OAdd 1 2; OAdd 1 3; OPattern 1 (bs "[%p] %c: %m")].
Definition final_log (m : M Log unit) : Log := match m Log_new with Ret _ s => s | _ => Log_new end.
Definition demo_log : Log := final_log (LoggerManager_new;; run_log_ops demo_log_ops).
Definition demo_null : Log := final_log (LoggerManager_new;; run_log_ops (demo_log_ops ++ [OAppenderFormatter 1 None])).
Definition demo_event (i : nat) (level : Level) : LogEvent :=
  mkLogEvent (bs "http.cc") 42 0 7 3 1700000000 (bs "main") (bs "ready") i level.

Lemma demo_reachable ops s s' : LoggerManager_new Log_new = Ret tt s -> run_log_ops ops s = Ret tt s' ->
  reachable (existsb sets_null ops) (final_log (LoggerManager_new;; run_log_ops ops)).
Proof.
  intros E E1. unfold final_log. rewrite (bind_Ret _ _ _ _ _ E), E1. exact (reachable_run ops false s s' (reach_new s E) E1).
Qed.

Lemma demo_log_reachable : reachable false demo_log.
Proof.
  destruct LoggerManager_new_run as [f E]. match type of E with _ = Ret tt ?s => set (s0 := s) in E end.
  assert (Hr : exists s', run_log_ops demo_log_ops s0 = Ret tt s') by (clear E; vm_compute; eexists; reflexivity).
  destruct Hr as [s' E1]. exact (demo_reachable demo_log_ops s0 s' E E1).
Qed.

Lemma demo_null_reachable : reachable true demo_null.
Proof.
  destruct LoggerManager_new_run as [f E]. match type of E with _ = Ret tt ?s => set (s0 := s) in E end.
  assert (Hr : exists s', run_log_ops (demo_log_ops ++ [OAppenderFormatter 1 None]) s0 = Ret tt s') by (clear E; vm_compute; eexists; reflexivity).
  destruct Hr as [s' E1]. exact (demo_reachable _ s0 s' E E1).
Qed.

Lemma demo_clear s event : (forall fmt t, is_Some (strftime64 fmt t)) ->
  forallb (fun a => match appenders s !! a with
                    | Some ap => negb (admits (a_level ap) (e_level event)) || bool_decide (is_Some (a_formatter ap))
                    | None => true
                    end) (receivers s (e_logger event) (e_level event)) = true -> all_clear s event.
Proof.
  intros Hfit Hall a Ha c Ho. rewrite forallb_forall in Hall. specialize (Hall a (proj1 (list_elem_of_In _ _) Ha)).
  destruct Ho as [ap Eap Ev Ef|ap f fmt _ _ _ _ Es]; [by rewrite Eap, Ev, Ef in Hall|]. destruct (Hfit (c_str fmt) (e_time event)). congruence.
Qed.

(** Both outcomes: the lines of an event, and the failure of one that goes to the
    appender without a formatter; another does not come so far. *)
Lemma log_lines_witness :
  LINKO_LOG_LEVEL 2 (demo_event 1 INFO) demo_log = Ret tt (written demo_log (lines demo_log (demo_event 1 INFO))) /\
  LINKO_LOG_LEVEL 2 (demo_event 1 INFO) demo_null = Ret tt (written demo_null (lines demo_null (demo_event 1 INFO))) /\
  exists c, LINKO_LOG_LEVEL 2 (demo_event 1 WARN) demo_null = Crash c.
Proof.
  assert (El : is_Some (loggers demo_log !! e_logger (demo_event 1 INFO))) by (vm_compute; eexists; reflexivity).
  assert (En : is_Some (loggers demo_null !! e_logger (demo_event 1 INFO))) by (vm_compute; eexists; reflexivity).
  assert (Hfit : forall fmt t, is_Some (strftime64 fmt t)) by (intros; eexists; reflexivity).
  split; [|split].
  - destruct (log_lines false demo_log (demo_event 1 INFO) demo_log_reachable El) as [Hr _]. apply Hr.
    apply (demo_clear _ _ Hfit). vm_compute. reflexivity.
  - destruct (log_lines true demo_null (demo_event 1 INFO) demo_null_reachable En) as [Hr _]. apply Hr.
    apply (demo_clear _ _ Hfit). vm_compute. reflexivity.
  - destruct (log_lines true demo_null (demo_event 1 WARN) demo_null_reachable En) as (_ & Hf & _).
    destruct Hf as (l1 & a & l2 & c & _ & _ & _ & E); [|exists c; exact E]. intros Hc.
    assert (Hin : 1%nat ∈ receivers demo_null 1 WARN) by (vm_compute; apply list_elem_of_here).
    refine (Hc 1%nat Hin NullDeref _). eapply ob_null; vm_compute; reflexivity.
Defined.

Example demo_lines :
  lines demo_log (demo_event 1 INFO) = [(Stdout, bs "[INFO] http: ready")] /\
  lines demo_log (demo_event 1 ERROR) = [(File (bs "a.log"), bs "[ERROR] http: ready"); (Stdout, bs "[ERROR] http: ready")] /\
  map fst (lines demo_log (demo_event 2 DEBUG)) = [Stdout].
Proof. vm_compute. done. Qed.
