(* ===== verification/LogConfig.v ===== *)
(** linko/log.cc: the definition of the loggers in the configuration, its
    conversions, and the listener that applies it. *)
From S2P Require Import Prelude OrdSet OrdMap.
From stdpp Require Import list.
From S2P Require Import Config Log.
Open Scope Z_scope.

Record LogAppnderDefine := mkAppenderDefine {
  d_type : Z;
  d_level : Level;
  d_formatter : bytes;
  d_file : bytes
}.
#[export] Instance LogAppnderDefine_eq_dec : EqDecision LogAppnderDefine.
Proof. solve_decision. Defined.

Record LogDefine := mkLogDefine {
  ld_name : bytes;
  ld_level : Level;
  ld_formatter : bytes;
  ld_appenders : list LogAppnderDefine
}.
#[export] Instance LogDefine_eq_dec : EqDecision LogDefine.
Proof. solve_decision. Defined.
(** [operator<]. *)
#[export] Instance LogDefine_less : Less LogDefine := fun a b => bytes_less (ld_name a) (ld_name b).

(** ** Conversions *)

(** [node[key]] of a node that is no map, [None] inside if nothing is there, and
    [as<std::string>()] of a node that is no scalar. *)
Class YamlAccess := {
  key_other : node -> bytes -> option (option node);
  as_other : node -> option bytes
}.

Section conversions.
Context `{LogEnv} `{Yaml} `{YamlAccess}.

Definition is_key (k : bytes) (kv : node * node) : bool := match kv.1 with Scalar s => bool_decide (s = k) | _ => false end.
Definition key (n : node) (k : bytes) : option (option node) :=
  match n with
  | Map l => Some ((fun x : nat * (node * node) => x.2.2) <$> list_find (fun kv => is_key k kv) l)
  | _ => key_other n k
  end.
Definition as_string (n : node) : option bytes := match n with Scalar s => Some s | _ => as_other n end.
(** The string at a key, or the default. *)
Definition string_at (n : node) (k : bytes) (otherwise : bytes) : option bytes :=
  v ← key n k; match v with Some v => as_string v | None => Some otherwise end.

(** One appender; the inner [None] is [continue]. *)
Definition appender_of (a : node) : option (option LogAppnderDefine) :=
  type ← key a (bs "type");
  match type with
  | None => Some None
  | Some type =>
    type ← as_string type;
    if decide (type = bs "FileLogAppender") then
      file ← key a (bs "file");
      match file with
      | None => Some None
      | Some file =>
        file ← as_string file;
        formatter ← string_at a (bs "formatter") [];
        Some (Some (mkAppenderDefine 1 UNKNOW formatter file))
      end
    else if decide (type = bs "StdoutLogAppender") then
      formatter ← string_at a (bs "formatter") [];
      Some (Some (mkAppenderDefine 2 UNKNOW formatter []))
    else Some None
  end.
Fixpoint appenders_of (n : node) (fuel x : nat) : option (list LogAppnderDefine) :=
  match fuel with
  | O => Some []
  | S fuel =>
    a ← index n x; d ← appender_of a; l ← appenders_of n fuel (S x);
    Some (match d with Some d => d :: l | None => l end)
  end.
Definition define_of (n : node) : option LogDefine :=
  name ← key n (bs "name");
  match name with
  | None => None
  | Some name =>
    name ← as_string name;
    level ← string_at n (bs "level") [];
    formatter ← string_at n (bs "formatter") [];
    appenders ← key n (bs "appenders");
    l ← match appenders with Some a => appenders_of a (size a) 0 | None => Some [] end;
    Some (mkLogDefine name (FromString level) formatter l)
  end.

Definition text_entry (k s : bytes) : list (node * node) := match s with [] => [] | _ => entry k (Scalar s) end.
Definition appender_node (a : LogAppnderDefine) : node :=
  match (if d_type a =? 1 then entry (bs "type") (Scalar (bs "FileLogAppender")) ++ entry (bs "file") (Scalar (d_file a))
         else if d_type a =? 2 then entry (bs "typd") (Scalar (bs "StdoutLogAppender"))
         else []) ++ text_entry (bs "formatter") (d_formatter a) ++ level_entry (d_level a)
  with [] => Null | l => Map l end.
Definition define_node (i : LogDefine) : node :=
  Map (entry (bs "name") (Scalar (ld_name i)) ++ level_entry (ld_level i) ++ text_entry (bs "formatter") (ld_formatter i)
    ++ match ld_appenders i with [] => [] | l => entry (bs "appenders") (Sequence (map appender_node l)) end).

#[export] Instance LogDefine_cast : LexicalCast LogDefine := {
  of_string v := n ← Load v; define_of n;
  to_string i := Some (emit (define_node i))
}.
End conversions.

(** ** The listener *)

Section listener.
(** The event of a log statement: its place, thread and time. *)
Context `{LogEnv} (event_here : nat -> Level -> bytes -> LogEvent).
Abbreviation LM := (M Log).

Definition configure_appender (logger : nat) (a : LogAppnderDefine) : LM unit :=
  ap ← (if d_type a =? 1 then FileLogAppender_new (d_file a)
        else if d_type a =? 2 then StdoutLogAppender_new
        else crash_with NullDeref);
  appender_setLevel ap (d_level a);;
  match d_formatter a with
  | [] => mret tt
  | _ => fmt ← LogFormatter_new (d_formatter a); if m_error fmt then mret tt else appender_setFormatter ap (Some fmt)
  end;;
  addAppender logger ap.
Fixpoint configure_appenders (logger : nat) (l : list LogAppnderDefine) : LM unit :=
  match l with [] => mret tt | a :: l => configure_appender logger a;; configure_appenders logger l end.

Definition configure (i : LogDefine) : LM unit :=
  logger ← getLogger (ld_name i);
  setLevel logger (ld_level i);;
  match ld_formatter i with [] => mret tt | _ => setFormatter_pattern logger (ld_formatter i) end;;
  clearAppenders logger;;
  configure_appenders logger (ld_appenders i).

(** The element [old_value.find(i)] points to. *)
Definition found (i : LogDefine) (l : list LogDefine) : option LogDefine := set_find less i l ≫= fun j => l !! j.
Fixpoint configure_new (old l : list LogDefine) : LM unit :=
  match l with
  | [] => mret tt
  | i :: l =>
    match found i old with
    | None => configure i
    | Some it => if bool_decide (i = it) then mret tt else configure i
    end;;
    configure_new old l
  end.
Fixpoint delete_old (new l : list LogDefine) : LM unit :=
  match l with
  | [] => mret tt
  | i :: l =>
    match found i new with
    | None => logger ← getLogger (ld_name i); setLevel logger UNKNOW;; clearAppenders logger
    | Some _ => mret tt
    end;;
    delete_old new l
  end.
Definition on_logger_conf_changed (old_value new_value : std_set LogDefine) : LM unit :=
  root ← getRoot;
  LINKO_LOG_LEVEL 2 (event_here root INFO (bs "on_logger_conf_changed"));;
  configure_new (set_elems old_value) (set_elems new_value);;
  delete_old (set_elems new_value) (set_elems old_value).
End listener.
