(* ===== verification/LogConfigThms.v ===== *)
(** What the text of a logger's definition keeps, and what a change of the
    definitions does to the loggers. *)
From S2P Require Import Prelude OrdSet OrdMap.
From stdpp Require Import list.
From S2P Require Import Config ConfigCasts Log LogFormat LogThms LogConfig.
Open Scope Z_scope.

(** Tactics do not read patterns by the way. *)
#[local] Opaque init.

(** ** Writing and reading a definition *)

(** boost::iequals ignores the case; a scalar has nothing at a key. *)
Class LogConfigLaws `{LogEnv} `{YamlAccess} := {
  iequals_case a b : iequals a b = bool_decide (map tolower a = map tolower b);
  scalar_key s k : key_other (Scalar s) k = None \/ key_other (Scalar s) k = Some None
}.

Section reload.
Context `{LogEnv} `{YamlLaws} `{YamlAccess} `{!LogConfigLaws}.

Definition value_at (k : bytes) (l : list (node * node)) : option node :=
  (fun x : nat * (node * node) => x.2.2) <$> list_find (fun kv => is_key k kv) l.

Lemma value_cons k k' v l : value_at k ((Scalar k', v) :: l) = if decide (k' = k) then Some v else value_at k l.
Proof.
  unfold value_at. cbn [list_find]. destruct (decide (k' = k)) as [-> |Hne].
  - rewrite decide_True; [done|]. by apply bool_decide_pack.
  - rewrite decide_False; [|by intros ?%bool_decide_unpack]. by destruct (list_find _ l) as [[? [? ?]]|].
Qed.

Lemma value_eq k v l : value_at k ((Scalar k, v) :: l) = Some v.
Proof. by rewrite value_cons, decide_True. Qed.
Lemma value_ne k k' v l : k' <> k -> value_at k ((Scalar k', v) :: l) = value_at k l.
Proof. intros Hne. by rewrite value_cons, decide_False. Qed.

Lemma value_entry k k' v l : value_at k (entry k' v ++ l) = if decide (k' = k) then Some v else value_at k l.
Proof. apply value_cons. Qed.

Lemma entry_eq k v l : value_at k (entry k v ++ l) = Some v.
Proof. apply value_eq. Qed.
Lemma entry_ne k k' v l : k' <> k -> value_at k (entry k' v ++ l) = value_at k l.
Proof. apply value_ne. Qed.

Lemma value_text k k' s l : k' <> k -> value_at k (text_entry k' s ++ l) = value_at k l.
Proof. intros Hne. destruct s; [done|]. unfold text_entry. by rewrite value_entry, decide_False. Qed.

Lemma value_level k lv l : bs "level" <> k -> value_at k (level_entry lv ++ l) = value_at k l.
Proof. intros Hne. unfold level_entry. destruct (decide (lv = UNKNOW)); [done|]. by rewrite value_entry, decide_False. Qed.

Lemma FromString_ToString l : FromString (ToString l) = l.
Proof. unfold FromString. rewrite !iequals_case. by destruct l; vm_compute. Qed.

(** What is left of a definition: the level of an appender is never read, and an
    appender for the standard output is written without a type. *)
Definition reloaded_appender (a : LogAppnderDefine) : LogAppnderDefine := mkAppenderDefine 1 UNKNOW (d_formatter a) (d_file a).
Definition reloaded (i : LogDefine) : LogDefine :=
  mkLogDefine (ld_name i) (ld_level i) (ld_formatter i) (map reloaded_appender (filter (fun a => d_type a = 1) (ld_appenders i))).

Lemma key_Map k l : key (Map l) k = Some (value_at k l).
Proof. done. Qed.

Lemma string_at_Map k l otherwise :
  string_at (Map l) k otherwise = match value_at k l with Some v => as_string v | None => Some otherwise end.
Proof. done. Qed.

Lemma value_text_same k s l : value_at k l = None ->
  match value_at k (text_entry k s ++ l) with Some v => as_string v | None => Some [] end = Some s.
Proof. intros Hl. destruct s as [|c s]; cbn [text_entry app]; [by rewrite Hl|]. by rewrite value_entry, decide_True. Qed.

Lemma value_level_end k lv : bs "level" <> k -> value_at k (level_entry lv) = None.
Proof. intros Hne. rewrite <- (app_nil_r (level_entry lv)). by rewrite value_level. Qed.

Lemma appender_back a : d_type a = 1 \/ d_type a = 2 ->
  appender_of (appender_node a) = Some (if decide (d_type a = 1) then Some (reloaded_appender a) else None).
Proof.
  intros [E|E]; unfold appender_node; rewrite E.
  - rewrite decide_True by done. change (1 =? 1) with true. cbv iota. rewrite <- app_assoc. cbn [entry app]. unfold appender_of.
    rewrite !key_Map, !string_at_Map, (value_eq (bs "type")), (value_ne (bs "file")), (value_eq (bs "file")), !(value_ne (bs "formatter")) by done.
    cbn [mbind option_bind as_string]. rewrite decide_True by done. by rewrite value_text_same by (by apply value_level_end).
  - rewrite decide_False by done. change (2 =? 1) with false. change (2 =? 2) with true. cbv iota. cbn [entry app]. unfold appender_of.
    rewrite !key_Map, (value_ne (bs "type")), value_text, value_level_end by done. done.
Qed.

Lemma appenders_back l : Forall (fun a => d_type a = 1 \/ d_type a = 2) l -> forall pre n x,
  n = Sequence (pre ++ map appender_node l) -> x = length pre ->
  appenders_of n (length l) x = Some (map reloaded_appender (filter (fun a => d_type a = 1) l)).
Proof.
  induction 1 as [|a l Ha Hl IH]; intros pre n x -> ->; [done|]. cbn [length appenders_of map index].
  rewrite list_lookup_middle by done. cbn [mbind option_bind]. rewrite (appender_back a Ha). cbn [mbind option_bind].
  rewrite (IH (pre ++ [appender_node a]) _ _) by (by rewrite <- ?app_assoc, ?length_app, ?Nat.add_1_r). cbn [mbind option_bind].
  destruct (decide (d_type a = 1)); [by rewrite filter_cons_True|by rewrite filter_cons_False].
Qed.

Lemma define_back i : Forall (fun a => d_type a = 1 \/ d_type a = 2) (ld_appenders i) -> define_of (define_node i) = Some (reloaded i).
Proof.
  intros Ha. unfold define_node, define_of.
  rewrite !key_Map, !string_at_Map, entry_eq, (entry_ne (bs "level")), (entry_ne (bs "formatter")), (entry_ne (bs "appenders")) by done.
  cbn [mbind option_bind as_string].
  set (tail := match ld_appenders i with [] => [] | l => entry (bs "appenders") (Sequence (map appender_node l)) end).
  assert (Ht : forall k, k <> bs "appenders" -> value_at k tail = None).
  { intros k Hk. unfold tail. destruct (ld_appenders i) as [|a l]; [done|]. unfold entry. by rewrite value_cons, decide_False. }
  rewrite !(value_level (bs "formatter")), !(value_level (bs "appenders")), (value_text (bs "appenders")) by done.
  rewrite value_text_same by (by apply Ht). cbn [mbind option_bind].
  assert (El : match value_at (bs "level") (level_entry (ld_level i) ++ text_entry (bs "formatter") (ld_formatter i) ++ tail) with
    | Some v => as_string v | None => Some [] end = Some (if decide (ld_level i = UNKNOW) then [] else ToString (ld_level i))).
  { unfold level_entry. destruct (decide (ld_level i = UNKNOW)); [cbn [app]; by rewrite value_text, Ht|]. by rewrite value_entry, decide_True. }
  rewrite El. cbn [mbind option_bind].
  assert (Ea : match value_at (bs "appenders") tail with Some a => appenders_of a (size a) 0 | None => Some [] end =
    Some (map reloaded_appender (filter (fun a => d_type a = 1) (ld_appenders i)))).
  { unfold tail. destruct (ld_appenders i) as [|a l]; [done|]. rewrite <- (app_nil_r (entry _ _)), value_entry, decide_True by done.
    cbn [size]. rewrite length_map. by apply (appenders_back (a :: l) Ha []). }
  rewrite Ea. cbn [mbind option_bind]. unfold reloaded. do 2 f_equal.
  destruct (decide (ld_level i = UNKNOW)) as [-> |]; [|apply FromString_ToString]. unfold FromString. rewrite !iequals_case. by vm_compute.
Qed.

(** C37: the definition of a logger whose text is read back has lost the levels of
    its appenders, which are never read, and its appenders for the standard
    output, which are written without a type; the rest is as it was.  A set of
    definitions, as the variable holds, is not read back at all. *)
Theorem define_reload :
  (forall i, Forall (fun a => d_type a = 1 \/ d_type a = 2) (ld_appenders i) ->
    exists t, to_string i = Some t /\ of_string t = Some (reloaded i)) /\
  (forall s : std_set LogDefine, set_elems s <> [] -> exists t, to_string s = Some t /\ of_string t = (None : option (std_set LogDefine))).
Proof.
  split.
  - intros i Hi. exists (emit (define_node i)). split; [done|]. cbn [of_string LogDefine_cast]. rewrite load_emit. by apply define_back.
  - intros [[|i l]]; [done|]. intros _. destruct (texts_of (i :: l) (fun _ _ => True)) as (texts & Em & HF).
    { apply Forall_true. intros x. by eexists. }
    exists (emit (Sequence (map Scalar texts))). split.
    + change (to_string (StdSet (i :: l))) with (to_sequence (i :: l)). unfold to_sequence. by rewrite Em.
    + inversion HF as [|t ? texts' ? _ _ Et]. subst. cbn [of_string set_cast]. unfold from_sequence. rewrite load_emit.
      cbn [mbind option_bind map size length from_elements index lookup list_lookup]. cbn [of_string LogDefine_cast]. rewrite load_emit.
      cbn [mbind option_bind define_of key]. by destruct (scalar_key t (bs "name")) as [-> | ->].
Qed.
End reload.

(** ** Sets of definitions *)

Lemma less_names a b : less a b = bytes_less (ld_name a) (ld_name b).
Proof. done. Qed.

Lemma lower_bound_split i (l : list LogDefine) : exists l1 l2, l = l1 ++ l2 /\ lower_bound less i l = length l1 /\
  match l2 with [] => True | y :: _ => less y i = false end.
Proof.
  induction l as [|y l (l1 & l2 & -> & E & Hy)]; [by exists [], []|]. cbn. destruct (less y i) eqn:Ei.
  - exists (y :: l1), l2. by rewrite E.
  - by exists [], (y :: l1 ++ l2).
Qed.

Lemma found_Some i l it : found i l = Some it -> it ∈ l /\ ld_name it = ld_name i.
Proof.
  unfold found, set_find. destruct (lower_bound_split i l) as (l1 & l2 & -> & -> & Hy). destruct l2 as [|y l2].
  { rewrite app_nil_r, lookup_ge_None_2 by done. done. }
  rewrite list_lookup_middle by done. destruct (less i y) eqn:Ei; [done|]. cbn [mbind option_bind]. rewrite list_lookup_middle by done.
  intros [= <-]. split; [apply elem_of_app; right; left|]. rewrite less_names in Hy, Ei. by apply bytes_less_total.
Qed.

Lemma found_None i l : set_sorted less l -> found i l = None -> forall k, k ∈ l -> ld_name k <> ld_name i.
Proof.
  intros Hs Hf k Hk En. unfold found, set_find in Hf. destruct (lower_bound_split i l) as (l1 & l2 & -> & E & Hy). rewrite E in Hf.
  apply set_sorted_app in Hs as (_ & Hs2 & _).
  assert (Hl1 : Forall (fun y => less y i = true) l1).
  { clear -E. revert l2 E. induction l1 as [|y l1 IH]; intros l2; cbn; [by constructor|]. destruct (less y i) eqn:Ei; [|done]. intros [= E]. constructor; [done|by apply (IH l2)]. }
  destruct l2 as [|y l2].
  { rewrite app_nil_r in Hk. rewrite Forall_forall in Hl1. specialize (Hl1 k Hk). by rewrite less_names, En, bytes_less_irrefl in Hl1. }
  rewrite list_lookup_middle in Hf by done. destruct (less i y) eqn:Ei; [|cbn [mbind option_bind] in Hf; by rewrite list_lookup_middle in Hf].
  apply elem_of_app in Hk as [Hk|Hk].
  - rewrite Forall_forall in Hl1. specialize (Hl1 k Hk). by rewrite less_names, En, bytes_less_irrefl in Hl1.
  - apply elem_of_cons in Hk as [-> |Hk]; [by rewrite less_names, En, bytes_less_irrefl in Ei|].
    apply set_sorted_cons in Hs2 as [Hf2 _]. rewrite Forall_forall in Hf2. specialize (Hf2 k Hk). cbn in Hf2. rewrite less_names in Ei, Hf2.
    pose proof (bytes_less_trans _ _ _ Ei Hf2) as Hc. by rewrite En, bytes_less_irrefl in Hc.
Qed.

Lemma sorted_names_NoDup l : set_sorted less l -> NoDup (map ld_name l).
Proof.
  induction l as [|i l IH]; [constructor|]. intros [Hf Hs]%set_sorted_cons. constructor; [|by apply IH].
  intros (k & En & Hk)%list_elem_of_fmap. rewrite Forall_forall in Hf. specialize (Hf k Hk). cbn in Hf. by rewrite less_names, En, bytes_less_irrefl in Hf.
Qed.

(** ** A concrete library *)

#[export] Instance DemoYamlAccess : YamlAccess := { key_other _ _ := Some None; as_other _ := None }.
#[export] Instance DemoLogConfigLaws : LogConfigLaws.
Proof. constructor; [done|by right]. Qed.

Definition demo_define : LogDefine :=
  mkLogDefine (bs "http") WARN (bs "%m%n") [mkAppenderDefine 1 ERROR (bs "%d %m") (bs "b.log"); mkAppenderDefine 2 INFO [] []].

Lemma define_reload_witness :
  exists t, to_string demo_define = Some t /\
    of_string t = Some (mkLogDefine (bs "http") WARN (bs "%m%n") [mkAppenderDefine 1 UNKNOW (bs "%d %m") (bs "b.log")]).
Proof. destruct define_reload as [Hr _]. apply (Hr demo_define). constructor; [by left|]. constructor; [by right|constructor]. Defined.
