(* ===== verification/LogConfigApply.v ===== *)
(** A change of the definitions of the loggers, applied: the loggers that are
    defined are as their definitions say, and no other logger changes. *)
From S2P Require Import Prelude OrdSet OrdMap.
From stdpp Require Import list.
From S2P Require Import Config ConfigCasts ConfigThms Log LogFormat LogThms LogConfig LogConfigThms.
Open Scope Z_scope.

(** Tactics do not read patterns by the way. *)
#[local] Opaque init.

Section conf.
Context `{LogEnv}.
Implicit Type s : Log.

(** ** The names *)

Record names_ok s : Prop := mkNamesOk {
  names_sorted : map_sorted bytes_less (m_loggers s);
  names_logger n j : map_find bytes_less n (m_loggers s) = Some j -> exists l, loggers s !! j = Some l /\ l_name l = n
}.

(** The operations other than getLogger keep the names. *)
Definition same_names s s' : Prop :=
  m_loggers s' = m_loggers s /\ forall i l, loggers s !! i = Some l -> exists l', loggers s' !! i = Some l' /\ l_name l' = l_name l.

Lemma same_names_ok s s' : names_ok s -> same_names s s' -> names_ok s'.
Proof.
  intros [Hs Hl] [Em Hn]. constructor; rewrite Em; [done|]. intros n j Hj. destruct (Hl n j Hj) as (l & El & <-). by apply (Hn j l).
Qed.

Lemma same_refl s : same_names s s.
Proof. split; [done|]. intros i l. by exists l. Qed.

Lemma same_trans s s1 s2 : same_names s s1 -> same_names s1 s2 -> same_names s s2.
Proof.
  intros [E1 H1] [E2 H2]. split; [congruence|]. intros i l Hl. destruct (H1 i l Hl) as (l1 & Hl1 & <-). by apply H2.
Qed.

Lemma same_set_logger s i l l' : loggers s !! i = Some l -> l_name l' = l_name l -> same_names s (set_loggers (<[i := l']> (loggers s)) s).
Proof.
  intros Hi Hn. split; [done|]. intros j x Hx. cbn. destruct (decide (j = i)) as [-> |Hne].
  - exists l'. rewrite list_lookup_insert_eq by (by eapply lookup_lt_Some). split; [done|]. congruence.
  - exists x. by rewrite list_lookup_insert_ne.
Qed.

Lemma same_set_appenders s l : same_names s (set_appenders l s).
Proof. split; [done|]. intros i x. by exists x. Qed.

Lemma inherit_same l f : forall s s', inherit l f s = Ret tt s' -> same_names s s'.
Proof.
  induction l as [|i l IH]; intros s s' E; [injection E as <-; apply same_refl|]. cbn [inherit] in E.
  apply bind_Ret_inv in E as (a & s1 & [-> Ha]%appender_at_inv & E). apply bind_Ret_inv in E as ([] & s2 & E1 & E).
  eapply same_trans; [|by apply IH]. destruct (a_hasFormatter a); injection E1 as <-; [apply same_refl|apply same_set_appenders].
Qed.

(** ** Making the appenders of a definition *)

(** The formatter a pattern of the configuration stands for, if it is a valid one. *)
Definition parsed (pattern : bytes) : option LogFormatter :=
  match pattern with
  | [] => None
  | p => match init p with Some f => if m_error f then None else Some f | None => None end
  end.
Definition own_formatter (d : LogAppnderDefine) : option LogFormatter := parsed (d_formatter d).
Definition sink_of (d : LogAppnderDefine) : sink := if d_type d =? 1 then File (d_file d) else Stdout.
Definition open_of (d : LogAppnderDefine) : bool := if d_type d =? 1 then can_open (d_file d) else true.
Definition made (d : LogAppnderDefine) (inherited : option LogFormatter) : Appender :=
  mkAppender (sink_of d) (open_of d) (d_level d) (bool_decide (is_Some (own_formatter d)))
    (match own_formatter d with Some f => Some f | None => inherited end).
Definition type_ok (d : LogAppnderDefine) : Prop := d_type d = 1 \/ d_type d = 2.

Lemma LogFormatter_new_init pattern s f : init pattern = Some f -> LogFormatter_new pattern s = Ret f s.
Proof. unfold LogFormatter_new. by intros ->. Qed.

(** The state with one appender more, on its way. *)
Lemma last_appender s a : appenders (set_appenders (appenders s ++ [a]) s) !! length (appenders s) = Some a.
Proof. by apply list_lookup_middle. Qed.

Lemma set_last_appender s a a' :
  set_appender (length (appenders s)) a' (set_appenders (appenders s ++ [a]) s) = Ret tt (set_appenders (appenders s ++ [a']) s).
Proof.
  assert (E : <[length (appenders s) := a']> (appenders s ++ [a]) = appenders s ++ [a']) by (by rewrite insert_app_r_alt, Nat.sub_diag).
  unfold set_appender, modify. cbn [appenders set_appenders]. by rewrite E.
Qed.

Lemma new_appender_run d s : type_ok d ->
  (if d_type d =? 1 then FileLogAppender_new (d_file d) else if d_type d =? 2 then StdoutLogAppender_new else crash_with NullDeref) s =
  Ret (length (appenders s)) (set_appenders (appenders s ++ [mkAppender (sink_of d) (open_of d) DEBUG false None]) s).
Proof.
  intros [E|E]; unfold sink_of, open_of; rewrite E; [|done]. change (1 =? 1) with true. cbv iota.
  set (a0 := mkAppender (File (d_file d)) true DEBUG false None). unfold FileLogAppender_new.
  rewrite (bind_Ret _ _ _ _ _ (eq_refl : new_appender a0 s = Ret (length (appenders s)) (set_appenders (appenders s ++ [a0]) s))).
  assert (Er : reopen (length (appenders s)) (set_appenders (appenders s ++ [a0]) s) =
    Ret (can_open (d_file d)) (set_appenders (appenders s ++ [a_with_open (can_open (d_file d)) a0]) s)).
  { unfold reopen. step_with (appender_at_run _ _ _ (last_appender s a0)). cbn [a0 a_sink]. by step_with (set_last_appender s a0 (a_with_open (can_open (d_file d)) a0)). }
  by step_with Er.
Qed.

Lemma configure_appender_run j d s l : type_ok d -> loggers s !! j = Some l ->
  configure_appender j d s =
  Ret tt (set_loggers (<[j := with_appenders (l_appenders l ++ [length (appenders s)]) l]> (loggers s))
    (set_appenders (appenders s ++ [made d (l_formatter l)]) s)).
Proof.
  intros Hd Hl. unfold configure_appender. step_with (new_appender_run d s Hd).
  set (a0 := mkAppender (sink_of d) (open_of d) DEBUG false None). set (a1 := a_with_level (d_level d) a0).
  assert (E1 : appender_setLevel (length (appenders s)) (d_level d) (set_appenders (appenders s ++ [a0]) s) = Ret tt (set_appenders (appenders s ++ [a1]) s)).
  { unfold appender_setLevel. step_with (appender_at_run _ _ _ (last_appender s a0)). apply set_last_appender. }
  step_with E1. set (a2 := a_with_formatter (bool_decide (is_Some (own_formatter d))) (own_formatter d) a1).
  assert (E2 : (match d_formatter d with [] => mret tt | _ => fmt ← LogFormatter_new (d_formatter d);
      if m_error fmt then mret tt else appender_setFormatter (length (appenders s)) (Some fmt) end)
    (set_appenders (appenders s ++ [a1]) s) = Ret tt (set_appenders (appenders s ++ [a2]) s)).
  { unfold a2, own_formatter, parsed. destruct (d_formatter d) as [|c p]; [done|]. destruct (init_total (c :: p)) as [f Ef]. rewrite Ef.
    step_with (LogFormatter_new_init (c :: p) (set_appenders (appenders s ++ [a1]) s) f Ef). destruct (m_error f); [done|].
    unfold appender_setFormatter. step_with (appender_at_run _ _ _ (last_appender s a1)). apply set_last_appender. }
  step_with E2. unfold addAppender, appender_getFormatter.
  set (s2 := set_appenders (appenders s ++ [a2]) s).
  assert (Ha2 : appender_at (length (appenders s)) s2 = Ret a2 s2) by (apply appender_at_run, last_appender).
  assert (Eg : (a ← appender_at (length (appenders s)); mret (a_formatter a)) s2 = Ret (own_formatter d) s2) by (by step_with Ha2).
  step_with Eg. assert (Hl2 : logger_at j s2 = Ret l s2) by (by apply logger_at_run). step_with Hl2.
  set (s3 := set_appenders (appenders s ++ [made d (l_formatter l)]) s).
  assert (E3 : (match own_formatter d with None => a ← appender_at (length (appenders s));
      set_appender (length (appenders s)) (a_with_formatter (a_hasFormatter a) (l_formatter l) a) | Some _ => mret tt end) s2 = Ret tt s3).
  { unfold s3, made. destruct (own_formatter d) as [f|] eqn:Eo; [done|]. step_with Ha2.
    by rewrite (set_last_appender s a2). }
  step_with E3. assert (Hl3 : logger_at j s3 = Ret l s3) by (by apply logger_at_run). by step_with Hl3.
Qed.

Lemma configure_appenders_run j ds : forall s l, Forall type_ok ds -> loggers s !! j = Some l ->
  configure_appenders j ds s =
  Ret tt (set_loggers (<[j := with_appenders (l_appenders l ++ seq (length (appenders s)) (length ds)) l]> (loggers s))
    (set_appenders (appenders s ++ map (fun d => made d (l_formatter l)) ds) s)).
Proof.
  induction ds as [|d ds IH]; intros s l Hd Hl; cbn [configure_appenders].
  - cbn [length seq map]. rewrite !app_nil_r. assert (E : with_appenders (l_appenders l) l = l) by by destruct l.
    rewrite E, list_insert_id by done. by destruct s.
  - apply Forall_cons in Hd as [Hd Hds]. step_with (configure_appender_run j d s l Hd Hl).
    set (s1 := set_loggers _ _). set (l1 := with_appenders (l_appenders l ++ [length (appenders s)]) l).
    assert (Hl1 : loggers s1 !! j = Some l1) by (cbn; apply list_lookup_insert_eq; by eapply lookup_lt_Some).
    rewrite (IH s1 l1 Hds Hl1). unfold s1, l1. cbn [loggers appenders set_loggers set_appenders with_appenders l_appenders l_formatter].
    rewrite list_insert_insert_eq, <- !app_assoc, length_app, Nat.add_1_r. done.
Qed.

(** ** The other steps *)

(** Setting a logger's formatter changes no appenders but its own. *)
Lemma inherit_run l f : forall s, (forall a, a ∈ l -> is_Some (appenders s !! a)) ->
  exists apps', inherit l f s = Ret tt (set_appenders apps' s) /\ length apps' = length (appenders s) /\
    forall b, b ∉ l -> apps' !! b = appenders s !! b.
Proof.
  induction l as [|i l IH]; intros s Ha; [exists (appenders s); split; [by destruct s|done]|]. cbn [inherit].
  destruct (Ha i) as [a Ea]; [left|]. step_with (appender_at_run _ _ _ Ea).
  assert (H1 : exists apps1, (if a_hasFormatter a then mret tt else set_appender i (a_with_formatter false f a)) s = Ret tt (set_appenders apps1 s) /\
    length apps1 = length (appenders s) /\ forall b, b <> i -> apps1 !! b = appenders s !! b).
  { destruct (a_hasFormatter a); [exists (appenders s); split; [by destruct s|done]|].
    exists (<[i := a_with_formatter false f a]> (appenders s)). split; [done|]. split; [apply length_insert|].
    intros b Hb. by apply list_lookup_insert_ne. }
  destruct H1 as (apps1 & E1 & L1 & K1). step_with E1. destruct (IH (set_appenders apps1 s)) as (apps2 & E2 & L2 & K2).
  { intros x Hx. cbn. apply lookup_lt_is_Some_2. rewrite L1. apply lookup_lt_is_Some_1, Ha. by right. }
  exists apps2. split; [done|]. cbn in L2, K2. split; [congruence|]. intros b [Hb Hl]%not_elem_of_cons. by rewrite (K2 b Hl), (K1 b Hb).
Qed.

Definition formatter_of (i : LogDefine) (before : option LogFormatter) : option LogFormatter :=
  match parsed (ld_formatter i) with Some f => Some f | None => before end.

Lemma pattern_run n i j l s : log_ok n s -> loggers s !! j = Some l ->
  exists apps', (match ld_formatter i with [] => mret tt | _ => setFormatter_pattern j (ld_formatter i) end) s =
      Ret tt (set_loggers (<[j := with_formatter (formatter_of i (l_formatter l)) l]> (loggers s)) (set_appenders apps' s)) /\
    length apps' = length (appenders s) /\ forall b, b ∉ l_appenders l -> apps' !! b = appenders s !! b.
Proof.
  intros Hok Hl. unfold formatter_of, parsed. assert (E0 : set_loggers (<[j := with_formatter (l_formatter l) l]> (loggers s)) (set_appenders (appenders s) s) = s).
  { assert (E : with_formatter (l_formatter l) l = l) by by destruct l. rewrite E, list_insert_id by done. by destruct s. }
  destruct (ld_formatter i) as [|c v]; [exists (appenders s); by rewrite E0|]. unfold setFormatter_pattern.
  destruct (init_total (c :: v)) as [f Ef]. rewrite Ef. step_with (LogFormatter_new_init (c :: v) s f Ef).
  destruct (m_error f); [exists (appenders s); by rewrite E0|].
  unfold setFormatter. step_with (logger_at_run _ _ _ Hl).
  destruct (inherit_run (l_appenders l) (Some f) (set_loggers (<[j := with_formatter (Some f) l]> (loggers s)) s)) as (apps' & E & L & K).
  { intros a Ha. destruct (ok_appenders n s Hok j l a Hl Ha) as (ap & Eap & _). by exists ap. }
  exists apps'. split; [|done].
  by step_with (eq_refl : set_logger j (with_formatter (Some f) l) s = Ret tt (set_loggers (<[j := with_formatter (Some f) l]> (loggers s)) s)).
Qed.

(** The formatter of the logger of a name; the pattern of a new one is the
    library's. *)
Definition formatter_before s (name : bytes) : option LogFormatter :=
  match map_find bytes_less name (m_loggers s) with Some j => loggers s !! j ≫= l_formatter | None => init default_pattern end.

Lemma Logger_new_formatter name s : exists f,
  Logger_new name s = Ret (length (loggers s)) (set_loggers (loggers s ++ [mkLogger name DEBUG [] (Some f) None]) s) /\ init default_pattern = Some f.
Proof.
  destruct (init_total default_pattern) as [f Ef]. exists f. split; [|done]. unfold Logger_new.
  by step_with (LogFormatter_new_init default_pattern s f Ef).
Qed.

Lemma getLogger_run name s : names_ok s ->
  exists j l s1, getLogger name s = Ret j s1 /\ names_ok s1 /\ map_find bytes_less name (m_loggers s1) = Some j /\
    loggers s1 !! j = Some l /\ l_name l = name /\
    (forall n, n <> name -> map_find bytes_less n (m_loggers s1) = map_find bytes_less n (m_loggers s)) /\
    (forall i x, loggers s !! i = Some x -> loggers s1 !! i = Some x) /\ appenders s1 = appenders s /\
    l_formatter l = formatter_before s name /\ (forall i x, i <> j -> loggers s1 !! i = Some x -> loggers s !! i = Some x) /\
    (forall a, a ∈ l_appenders l -> map_find bytes_less name (m_loggers s) = Some j /\ loggers s !! j = Some l).
Proof.
  intros [Hs Hn]. unfold getLogger, formatter_before. step_with (eq_refl : get s = Ret s s).
  destruct (map_find bytes_less name (m_loggers s)) as [j|] eqn:Ef.
  - destruct (Hn name j Ef) as (l & El & En). exists j, l, s. split; [done|]. repeat (split; [done|]). by rewrite El.
  - destruct (Logger_new_formatter name s) as (f & Enew & Edef). step_with Enew. clear Enew.
    revert Edef. generalize (init default_pattern). intros default Edef. set (l0 := mkLogger name DEBUG [] (Some f) None).
    set (s1 := set_loggers (loggers s ++ [l0]) s). assert (E1 : logger_at (length (loggers s)) s1 = Ret l0 s1) by (by apply logger_at_run, list_lookup_middle).
    step_with E1. eexists _, (with_root (Some (m_root s)) l0), _. split; [reflexivity|].
    assert (Eins : <[length (loggers s) := with_root (Some (m_root s)) l0]> (loggers s ++ [l0]) = loggers s ++ [with_root (Some (m_root s)) l0])
      by (by rewrite insert_app_r_alt, Nat.sub_diag).
    cbn. rewrite Eins. assert (Hset : forall k, map_find bytes_less k (map_set bytes_less name (length (loggers s)) (m_loggers s)) =
      if decide (k = name) then Some (length (loggers s)) else map_find bytes_less k (m_loggers s)).
    { intros k. by apply (map_find_set bytes_less (fun x => x)). }
    split; [constructor; cbn|].
    + by apply (map_set_sorted bytes_less (fun x => x)).
    + intros n j. rewrite Hset. case_decide as Hne; [intros [= <-]; subst n; rewrite list_lookup_middle by done; by eexists|].
      intros Hj. destruct (Hn n j Hj) as (l & El & Eln). exists l. split; [by apply lookup_app_l_Some|done].
    + rewrite Hset, decide_True by done. split; [done|]. rewrite list_lookup_middle by done. split; [done|]. split; [done|].
      split; [intros n Hne; by rewrite Hset, decide_False|]. split; [intros i x Hx; by apply lookup_app_l_Some|].
      split; [done|]. split; [by rewrite Edef|]. split; [|intros a Ha; by apply elem_of_nil in Ha].
      intros i x Hi Hx. apply lookup_app_Some in Hx as [Hx|[Hlt Hx]]; [done|].
      apply list_lookup_singleton_Some in Hx as [E0 _]. destruct Hi. lia.
Qed.

Lemma Ret_inj {A} {a b : A} {s s'} : (Ret a s : outcome Log A) = Ret b s' -> s = s'.
Proof. by intros [=]. Qed.

(** ** One definition *)

(** Everything that is true of the state after [i] was applied to [s]. *)
Record applied (n : bool) (i : LogDefine) s s' : Prop := mkApplied {
  ap_ok : log_ok n s';
  ap_names : names_ok s';
  ap_logger : exists j l,
    map_find bytes_less (ld_name i) (m_loggers s') = Some j /\ loggers s' !! j = Some l /\
    l_level l = ld_level i /\ l_formatter l = formatter_of i (formatter_before s (ld_name i)) /\
    l_appenders l = seq (length (appenders s)) (length (ld_appenders i)) /\
    (forall k d, ld_appenders i !! k = Some d -> appenders s' !! (length (appenders s) + k)%nat = Some (made d (l_formatter l))) /\
    (forall k x, k <> j -> loggers s !! k = Some x -> loggers s' !! k = Some x) /\
    (forall k x, k <> j -> loggers s' !! k = Some x -> loggers s !! k = Some x) /\
    (forall b a, appenders s !! b = Some a ->
      (forall j0 l0, map_find bytes_less (ld_name i) (m_loggers s) = Some j0 -> loggers s !! j0 = Some l0 -> b ∉ l_appenders l0) ->
      appenders s' !! b = Some a);
  ap_others m : m <> ld_name i -> map_find bytes_less m (m_loggers s') = map_find bytes_less m (m_loggers s)
}.

Lemma ok_append n s l : log_ok n s -> log_ok n (set_appenders (appenders s ++ l) s).
Proof.
  intros [Hr Hf Hc Ha]. constructor; [done..|]. intros j x b Hj Hb. destruct (Ha j x b Hj Hb) as (ap & Eap & Hap).
  exists ap. split; [by apply lookup_app_l_Some|done].
Qed.

(** The appenders of a definition, when the logger has none. *)
Lemma appenders_applied n j ds s l : log_ok n s -> Forall type_ok ds -> loggers s !! j = Some l -> l_appenders l = [] ->
  exists s' l', configure_appenders j ds s = Ret tt s' /\ log_ok n s' /\ m_loggers s' = m_loggers s /\ loggers s' = <[j := l']> (loggers s) /\
    l_name l' = l_name l /\ l_level l' = l_level l /\ l_appenders l' = seq (length (appenders s)) (length ds) /\ l_formatter l' = l_formatter l /\
    appenders s' = appenders s ++ map (fun d => made d (l_formatter l)) ds.
Proof.
  intros Hok Hds Hl Hn. rewrite (configure_appenders_run j ds s l Hds Hl), Hn. cbn [app].
  set (apps := appenders s ++ map (fun d => made d (l_formatter l)) ds). eexists _, _. split; [reflexivity|]. split; [|by repeat (split; [done|])].
  pose proof (ok_formatter n s Hok j l Hl) as Hg.
  apply (ok_set_logger n (set_appenders apps s) j l); [by apply ok_append|done|done|by left|]. cbn. intros a Ha.
  apply elem_of_seq in Ha. destruct (lookup_lt_is_Some_2 apps a) as [ap Eap]; [unfold apps; rewrite length_app, length_map; lia|].
  exists ap. split; [done|]. unfold apps in Eap. rewrite lookup_app_r in Eap by lia. apply list_lookup_fmap_Some in Eap as (d & -> & _).
  unfold made. cbn. by destruct (own_formatter d); [apply has_Some|].
Qed.

Lemma configure_applied n i s : log_ok n s -> names_ok s -> Forall type_ok (ld_appenders i) -> exists s', configure i s = Ret tt s' /\ applied n i s s'.
Proof.
  intros Hok Hn Hds. destruct (getLogger_run (ld_name i) s Hn) as (j & l & s1 & E1 & Hn1 & Hf & Hl1 & Enm & Ho & Hkeep & Eapp & Efm & Hback & Hown).
  assert (Hok1 : log_ok n s1). { apply (run_log_op_ok n (OGetLogger (ld_name i)) s s1); [done..|]. cbn [run_log_op]. by step_with E1. }
  unfold configure. step_with E1. clear E1. set (l2 := with_level (ld_level i) l). set (s2 := set_loggers (<[j := l2]> (loggers s1)) s1).
  assert (E2 : setLevel j (ld_level i) s1 = Ret tt s2) by (unfold setLevel; by step_with (logger_at_run _ _ _ Hl1)). step_with E2.
  assert (Hok2 : log_ok n s2) by (by apply (run_log_op_ok n (OLevel j (ld_level i)) s1 s2)).
  assert (Hl2 : loggers s2 !! j = Some l2) by (cbn; apply list_lookup_insert_eq; by eapply lookup_lt_Some).
  destruct (pattern_run n i j l2 s2 Hok2 Hl2) as (apps & E3 & L3 & K3). set (l3 := with_formatter (formatter_of i (l_formatter l2)) l2) in E3.
  set (s3 := set_loggers (<[j := l3]> (loggers s2)) (set_appenders apps s2)) in E3.
  assert (Hok3 : log_ok n s3).
  { destruct (ld_formatter i) as [|c p].
    - exact (eq_ind s2 (log_ok n) Hok2 s3 (Ret_inj E3)).
    - apply (run_log_op_ok n (OPattern j (c :: p)) s2 s3); done. }
  step_with E3. assert (Hl3 : loggers s3 !! j = Some l3) by (cbn [s3 loggers set_loggers]; apply list_lookup_insert_eq; by eapply lookup_lt_Some).
  set (l4 := with_appenders [] l3). set (s4 := set_loggers (<[j := l4]> (loggers s3)) s3).
  assert (E4 : clearAppenders j s3 = Ret tt s4) by (unfold clearAppenders; by step_with (logger_at_run _ _ _ Hl3)). step_with E4.
  assert (Hok4 : log_ok n s4) by (by apply (run_log_op_ok n (OClear j) s3 s4)).
  assert (Hl4 : loggers s4 !! j = Some l4) by (cbn [s4 loggers set_loggers]; apply list_lookup_insert_eq; by eapply lookup_lt_Some).
  destruct (appenders_applied n j (ld_appenders i) s4 l4 Hok4 Hds Hl4 eq_refl) as (s5 & l5 & E5 & Hok5 & Em5 & El5 & N5 & V5 & A5 & F5 & P5).
  exists s5. split; [exact E5|]. assert (Elg : loggers s5 = <[j := l5]> (loggers s1)).
  { rewrite El5. change (loggers s4) with (<[j := l4]> (<[j := l3]> (<[j := l2]> (loggers s1)))). by do 3 rewrite list_insert_insert_eq. }
  assert (Hl5 : loggers s5 !! j = Some l5) by (rewrite Elg; apply list_lookup_insert_eq; by eapply lookup_lt_Some).
  assert (Hothers : forall k x, k <> j -> loggers s1 !! k = Some x -> loggers s5 !! k = Some x).
  { intros k x Hk Hx. by rewrite Elg, list_lookup_insert_ne. }
  assert (Elen : length (appenders s4) = length (appenders s)).
  { change (appenders s4) with apps. rewrite L3. change (appenders s2) with (appenders s1). by rewrite Eapp. }
  constructor; [done| | |].
  - apply (same_names_ok s1); [done|]. split; [done|]. intros k x Hx. destruct (decide (k = j)) as [-> |Hk]; [|exists x; by rewrite (Hothers k x)].
    exists l5. split; [done|]. rewrite N5. rewrite Hl1 in Hx. by injection Hx as <-.
  - exists j, l5. rewrite Em5. split; [done|]. split; [done|]. split; [by rewrite V5|].
    split; [rewrite F5; change (l_formatter l4) with (formatter_of i (l_formatter l)); by rewrite Efm|]. split; [by rewrite A5, Elen|]. split; [|split; [|split]].
    + intros k d Hd. rewrite P5, <- Elen, lookup_app_r, Nat.add_sub', list_lookup_fmap, Hd, F5 by lia. done.
    + intros k x Hk Hx. by apply Hothers, Hkeep.
    + intros k x Hk Hx. apply Hback; [done|]. by rewrite Elg, list_lookup_insert_ne in Hx.
    + intros b a Hb Hnot. rewrite P5. apply lookup_app_l_Some. change (appenders s4) with apps. rewrite K3; [change (appenders s2) with (appenders s1); by rewrite Eapp|].
      intros Hin. destruct (Hown b Hin) as [H1 H2]. by apply (Hnot j l H1 H2).
  - intros m Hne. rewrite Em5. by apply Ho.
Qed.

(** ** All of them *)

(** The logger of the definition is as it says: its level, its formatter, and an
    appender for each appender of the definition, which no other logger has. *)
Definition holds (formatter : option LogFormatter) (i : LogDefine) s : Prop :=
  exists j l, map_find bytes_less (ld_name i) (m_loggers s) = Some j /\ loggers s !! j = Some l /\ l_level l = ld_level i /\ l_formatter l = formatter /\
    Forall2 (fun d a => appenders s !! a = Some (made d formatter)) (ld_appenders i) (l_appenders l) /\
    (forall j' l' a, j' <> j -> loggers s !! j' = Some l' -> a ∈ l_appenders l -> a ∉ l_appenders l').

Lemma applied_holds n i s s' : log_ok n s -> applied n i s s' -> holds (formatter_of i (formatter_before s (ld_name i))) i s'.
Proof.
  intros Hok [_ _ (j & l & Hf & Hl & Hv & Hfm & Ha & Hds & _ & Hback & _) _]. exists j, l. repeat (split; [done|]). rewrite <- Hfm, Ha. split.
  - apply Forall2_same_length_lookup_2; [by rewrite length_seq|]. intros k d a Hd Hk.
    apply lookup_seq in Hk as [-> _]. by apply Hds.
  - intros j' l' a Hj' Hl' Hin Hin'. apply elem_of_seq in Hin. apply (Hback j' l' Hj') in Hl'.
    destruct (ok_appenders n s Hok j' l' a Hl' Hin') as (ap & Eap & _). apply lookup_lt_Some in Eap. lia.
Qed.

Lemma applied_apart n i s s' name j j' : names_ok s -> applied n i s s' -> name <> ld_name i ->
  map_find bytes_less name (m_loggers s) = Some j' -> map_find bytes_less (ld_name i) (m_loggers s') = Some j -> j' <> j.
Proof.
  intros Hn Ha Hne Hj' Hj ->. rewrite <- (ap_others n i s s' Ha name Hne) in Hj'.
  destruct (names_logger s' (ap_names n i s s' Ha) name j Hj') as (l & El & <-).
  destruct (names_logger s' (ap_names n i s s' Ha) (ld_name i) j Hj) as (l' & El' & E'). congruence.
Qed.

Lemma applied_untouched n i s s' name j : names_ok s -> applied n i s s' -> name <> ld_name i ->
  map_find bytes_less name (m_loggers s) = Some j ->
  map_find bytes_less name (m_loggers s') = Some j /\ loggers s' !! j = loggers s !! j.
Proof.
  intros Hn Ha Hne Hj. split; [by rewrite (ap_others n i s s' Ha)|]. destruct (names_logger s Hn name j Hj) as (l & El & _).
  pose proof Ha as [_ _ (j0 & l0 & Hf & _ & _ & _ & _ & _ & Hk & _) _]. rewrite El. apply Hk; [|done]. by eapply applied_apart.
Qed.

Lemma applied_before n i s s' name : names_ok s -> applied n i s s' -> name <> ld_name i -> formatter_before s' name = formatter_before s name.
Proof.
  intros Hn Ha Hne. unfold formatter_before. destruct (map_find bytes_less name (m_loggers s)) as [j|] eqn:Ej.
  - destruct (applied_untouched n i s s' name j Hn Ha Hne Ej) as [-> ->]. done.
  - by rewrite (ap_others n i s s' Ha name Hne), Ej.
Qed.

Lemma applied_keeps n f k i s s' : names_ok s -> applied n i s s' -> ld_name k <> ld_name i -> holds f k s -> holds f k s'.
Proof.
  intros Hn Ha Hne (j & l & Hj & Hl & Hv & Hf & Hds & Hpriv). destruct (applied_untouched n i s s' _ j Hn Ha Hne Hj) as [Hj' El].
  pose proof Ha as [_ Hn' (ji & li & Hji & Hli & _ & _ & Hseq & _ & _ & Hback & Hkeep) Ho].
  assert (Hjj : j <> ji) by (by apply (applied_apart n i s s' (ld_name k) ji j Hn Ha Hne Hj Hji)).
  assert (Hap : forall a, a ∈ l_appenders l -> is_Some (appenders s !! a)).
  { intros a [m Hm]%list_elem_of_lookup. destruct (Forall2_lookup_r _ _ _ _ _ Hds Hm) as (d & _ & Ed). by eexists. }
  exists j, l. rewrite El. repeat (split; [done|]). split.
  - apply Forall2_same_length_lookup_2; [by eapply Forall2_length|]. intros m d a Hd Hm.
    assert (Ed : appenders s !! a = Some (made d f)) by exact (Forall2_lookup_lr _ _ _ _ _ _ Hds Hd Hm).
    apply Hkeep; [done|]. intros j0 l0 Hj0 Hl0. assert (Hin : a ∈ l_appenders l) by by eapply list_elem_of_lookup_2. apply (Hpriv j0 l0 a); [|done..].
    intros ->. destruct (names_logger s Hn _ _ Hj) as (x & Ex & Enx). destruct (names_logger s Hn _ _ Hj0) as (y & Ey & Eny). congruence.
  - intros j' l' a Hj'' Hl' Hin. destruct (decide (j' = ji)) as [-> |Hi].
    + assert (l' = li) as -> by congruence. rewrite Hseq. intros [Hge _]%elem_of_seq. destruct (Hap a Hin) as [ap Eap]. apply lookup_lt_Some in Eap. lia.
    + apply (Hpriv j' l' a); [done|by apply Hback|done].
Qed.

Fixpoint apply_all (ts : list LogDefine) : M Log unit :=
  match ts with [] => mret tt | i :: ts => configure i;; apply_all ts end.

Lemma apply_all_run n ts : forall s, log_ok n s -> names_ok s -> Forall (fun i => Forall type_ok (ld_appenders i)) ts -> NoDup (map ld_name ts) ->
  exists s', apply_all ts s = Ret tt s' /\ (forall i, i ∈ ts -> holds (formatter_of i (formatter_before s (ld_name i))) i s') /\
    (forall f k, holds f k s -> ld_name k ∉ map ld_name ts -> holds f k s') /\
    (forall name j, map_find bytes_less name (m_loggers s) = Some j -> name ∉ map ld_name ts ->
      map_find bytes_less name (m_loggers s') = Some j /\ loggers s' !! j = loggers s !! j) /\
    (forall b a, appenders s !! b = Some a ->
      (forall i j l, i ∈ ts -> map_find bytes_less (ld_name i) (m_loggers s) = Some j -> loggers s !! j = Some l -> b ∉ l_appenders l) ->
      appenders s' !! b = Some a).
Proof.
  induction ts as [|i ts IH]; intros s Hok Hn Ht Hd.
  { exists s. split_and!; try done. by intros i Hi%elem_of_nil. }
  apply Forall_cons in Ht as [Hi Ht]. cbn [map] in Hd. apply NoDup_cons in Hd as [Hi' Hd].
  destruct (configure_applied n i s Hok Hn Hi) as (s1 & E1 & Ha).
  destruct (IH s1 (ap_ok _ _ _ _ Ha) (ap_names _ _ _ _ Ha) Ht Hd) as (s2 & E2 & Hin & Hk & Hu & Hb).
  assert (Hne : forall k, k ∈ ts -> ld_name k <> ld_name i).
  { intros k Hks Ek. apply Hi'. rewrite <- Ek. apply list_elem_of_fmap. by exists k. }
  exists s2. cbn [apply_all]. step_with E1. split; [done|]. split; [|split; [|split]].
  - intros k [-> |Hin']%elem_of_cons; [apply Hk; [by eapply applied_holds|done]|].
    rewrite <- (applied_before n i s s1 (ld_name k) Hn Ha (Hne k Hin')). by apply Hin.
  - intros f k Hk0 [Hnk Hnin]%not_elem_of_cons. apply Hk; [|done]. by apply (applied_keeps n f k i s s1).
  - intros name j Hj [Hnm Hnin]%not_elem_of_cons. destruct (applied_untouched n i s s1 name j Hn Ha Hnm Hj) as [Hj1 El1].
    destruct (Hu name j Hj1 Hnin) as [Hj2 El2]. split; [done|]. congruence.
  - intros b a Hba Hnot. pose proof Ha as [_ _ (ji & li & _ & _ & _ & _ & _ & _ & _ & _ & Hkeep) Ho]. apply Hb.
    + apply Hkeep; [done|]. intros j0 l0. apply Hnot. left.
    + intros k j l Hks Hj Hl. rewrite (Ho (ld_name k) (Hne k Hks)) in Hj.
      destruct (applied_untouched n i s s1 (ld_name k) j Hn Ha (Hne k Hks) Hj) as [_ El]. rewrite El in Hl. eapply Hnot; [by right|done..].
Qed.

(** ** The listener *)

(** A definition that is gone is applied as this one. *)
Definition gone (i : LogDefine) : LogDefine := mkLogDefine (ld_name i) UNKNOW [] [].

Definition delete_one (i : LogDefine) : M Log unit := logger ← getLogger (ld_name i); setLevel logger UNKNOW;; clearAppenders logger.
Lemma configure_gone i s : configure (gone i) s = delete_one i s.
Proof.
  unfold configure, delete_one, mbind, M_bind. cbn. destruct (getLogger _ s) as [j s1| |]; [|done..].
  destruct (setLevel j UNKNOW s1) as [? s2| |]; [|done..]. by destruct (clearAppenders j s2) as [[] s3| |].
Qed.

Lemma bind_cong {A B} (m m' : M Log A) (f f' : A -> M Log B) s :
  m s = m' s -> (forall a s', f a s' = f' a s') -> (m ≫= f) s = (m' ≫= f') s.
Proof. intros Em Ef. unfold mbind, M_bind. rewrite Em. by destruct (m' s). Qed.

Lemma found_in i l : set_sorted less l -> i ∈ l -> found i l = Some i.
Proof.
  intros Hs Hi. destruct (found i l) as [it|] eqn:Ef; [|by destruct (found_None i l Hs Ef i Hi)].
  apply found_Some in Ef as [Hit En]. f_equal. pose proof (sorted_names_NoDup l Hs) as Hd.
  apply list_elem_of_lookup in Hit as [a Ha]. apply list_elem_of_lookup in Hi as [b Hb].
  assert (a = b) as ->; [|congruence]. eapply (NoDup_lookup _ a b (ld_name i) Hd); rewrite list_lookup_fmap; [by rewrite Ha, <- En|by rewrite Hb].
Qed.

Lemma configure_new_all old l : set_sorted less old -> forall s, configure_new old l s = apply_all (filter (fun i => i ∉ old) l) s.
Proof.
  intros Hs. induction l as [|i l IH]; intros s; [done|]. cbn [configure_new]. destruct (decide (i ∈ old)) as [Hi|Hi].
  - rewrite filter_cons_False by (by intros ?). rewrite (found_in i old Hs Hi), bool_decide_true by done. rewrite <- IH. done.
  - rewrite filter_cons_True by done. cbn [apply_all]. apply bind_cong; [|intros _; exact IH].
    destruct (found i old) as [it|] eqn:Ef; [|done]. rewrite bool_decide_false; [done|]. intros ->. by apply found_Some in Ef as [Hit _].
Qed.

Definition removed (new : list LogDefine) (i : LogDefine) : Prop := found i new = None.

Lemma delete_old_all new l : forall s, delete_old new l s = apply_all (map gone (filter (removed new) l)) s.
Proof.
  induction l as [|i l IH]; intros s; [done|]. cbn [delete_old]. destruct (found i new) as [it|] eqn:Ef.
  - rewrite filter_cons_False by (unfold removed; by rewrite Ef). by rewrite <- IH.
  - rewrite filter_cons_True by done. cbn [map apply_all]. apply bind_cong; [|intros _; exact IH]. symmetry. apply configure_gone.
Qed.

Lemma apply_all_app l1 l2 : forall s, apply_all (l1 ++ l2) s = (apply_all l1;; apply_all l2) s.
Proof.
  induction l1 as [|i l1 IH]; intros s; [done|]. cbn [app apply_all]. unfold mbind, M_bind in *.
  destruct (configure i s) as [[] s1| |]; [|done..]. apply IH.
Qed.

Lemma removed_gone new i : set_sorted less new -> (removed new i <-> forall k, k ∈ new -> ld_name k <> ld_name i).
Proof.
  intros Hs. split; [intros Hr; by apply found_None|]. intros Hk. unfold removed. destruct (found i new) as [it|] eqn:Ef; [|done].
  apply found_Some in Ef as [Hit En]. by destruct (Hk it Hit).
Qed.

(** The names that change. *)
Definition changing (old new : list LogDefine) (name : bytes) : Prop :=
  (exists i, (i ∈ new) /\ (i ∉ old) /\ ld_name i = name) \/ (exists i, i ∈ old /\ ld_name i = name /\ (forall k, k ∈ new -> ld_name k <> name)).

(** ... are those of the definitions that are applied. *)
Lemma changing_targets old new : set_sorted less old -> set_sorted less new ->
  let ts := filter (fun i => i ∉ old) new ++ map gone (filter (removed new) old) in
  NoDup (map ld_name ts) /\ forall name, name ∈ map ld_name ts -> changing old new name.
Proof.
  intros Hold Hnew. cbv zeta. split.
  - rewrite map_app. apply NoDup_app. split; [|split].
    + eapply sublist_NoDup; [exact (sorted_names_NoDup new Hnew)|]. apply fmap_sublist, sublist_filter.
    + intros n (i & -> & Hi)%list_elem_of_fmap (x & En & (k & -> & Hk)%list_elem_of_fmap)%list_elem_of_fmap.
      apply list_elem_of_filter in Hi as [_ Hi]. apply list_elem_of_filter in Hk as [Hr' _]. cbn in En. by apply (proj1 (removed_gone new k Hnew) Hr' i).
    + rewrite map_map. eapply sublist_NoDup; [exact (sorted_names_NoDup old Hold)|]. apply fmap_sublist, sublist_filter.
  - intros name (i & -> & Hi)%list_elem_of_fmap. apply elem_of_app in Hi as [Hi|Hi].
    + apply list_elem_of_filter in Hi as [Ho Hi]. left. by exists i.
    + apply list_elem_of_fmap in Hi as (k & -> & Hk). apply list_elem_of_filter in Hk as [Hr' Hk]. right. exists k. split; [done|]. split; [done|].
      exact (proj1 (removed_gone new k Hnew) Hr').
Qed.

(** ** Reachable states have their names *)

Lemma run_log_op_names n o s s' : log_ok n s -> names_ok s -> run_log_op o s = Ret tt s' -> names_ok s'.
Proof.
  intros Hok Hn E. assert (Hset : forall i l l', loggers s !! i = Some l -> l_name l' = l_name l -> names_ok (set_loggers (<[i := l']> (loggers s)) s))
    by (intros i l l' Hl Enm; eapply same_names_ok, same_set_logger; done).
  assert (Happ : forall l, names_ok (set_appenders l s)) by (intros l; by eapply same_names_ok, same_set_appenders).
  destruct o as [name| |name|i a|i a|i|i v|i f|i v|i f|i v|i|event]; cbn [run_log_op] in E.
  - apply bind_Ret_inv in E as (j & s1 & E & [= <-]). destruct (getLogger_run name s Hn) as (j' & l & s2 & E2 & Hn2 & _). rewrite E2 in E. by injection E as _ <-.
  - injection E as <-. apply Happ.
  - apply bind_Ret_inv in E as (j & s1 & E & [= <-]). apply bind_Ret_inv in E as (j' & s2 & [= <- <-] & E).
    apply bind_Ret_inv in E as (b & s3 & E & [= _ <-]). apply bind_Ret_inv in E as (a & s4 & [-> Ha]%appender_at_inv & E).
    destruct (a_sink a); injection E as _ <-; apply Happ.
  - apply bind_Ret_inv in E as (f & s1 & E1 & E). apply bind_Ret_inv in E1 as (ap & s2 & [-> Hap]%appender_at_inv & [= <- <-]).
    apply bind_Ret_inv in E as (l & s2 & [-> Hl]%logger_at_inv & E). apply bind_Ret_inv in E as ([] & s2 & E1 & E).
    assert (H2 : exists apps, s2 = set_appenders apps s).
    { destruct (a_formatter ap); [injection E1 as <-; exists (appenders s); by destruct s|].
      apply bind_Ret_inv in E1 as (ap2 & s3 & [-> _]%appender_at_inv & [= <-]). by eexists. }
    destruct H2 as [apps ->]. apply bind_Ret_inv in E as (l2 & s3 & [-> Hl2]%logger_at_inv & [= <-]).
    exact (same_names_ok _ _ (Happ apps) (same_set_logger (set_appenders apps s) i l2 (with_appenders (l_appenders l2 ++ [a]) l2) Hl2 eq_refl)).
  - apply bind_Ret_inv in E as (l & s2 & [-> Hl]%logger_at_inv & [= <-]). by eapply Hset.
  - apply bind_Ret_inv in E as (l & s2 & [-> Hl]%logger_at_inv & [= <-]). by eapply Hset.
  - apply bind_Ret_inv in E as (l & s2 & [-> Hl]%logger_at_inv & [= <-]). by eapply Hset.
  - apply bind_Ret_inv in E as (l & s2 & [-> Hl]%logger_at_inv & E). apply bind_Ret_inv in E as ([] & s2 & [= <-] & E).
    apply inherit_same in E. eapply same_names_ok; [|exact E]. by eapply Hset.
  - destruct (LogFormatter_new_run v s) as [f Ef]. unfold setFormatter_pattern in E. step_with Ef in E. destruct (m_error f); [by injection E as <-|].
    apply bind_Ret_inv in E as (l & s2 & [-> Hl]%logger_at_inv & E). apply bind_Ret_inv in E as ([] & s2 & [= <-] & E).
    apply inherit_same in E. eapply same_names_ok; [|exact E]. by eapply Hset.
  - apply bind_Ret_inv in E as (a & s2 & [-> Ha]%appender_at_inv & [= <-]). apply Happ.
  - apply bind_Ret_inv in E as (a & s2 & [-> Ha]%appender_at_inv & [= <-]). apply Happ.
  - apply bind_Ret_inv in E as (b & s3 & E & [= <-]). apply bind_Ret_inv in E as (a & s4 & [-> Ha]%appender_at_inv & E).
    destruct (a_sink a); injection E as _ <-; [done|apply Happ].
  - apply (LINKO_LOG_LEVEL_inv n) in E as ->; [|done]. by destruct Hn.
Qed.

Lemma reachable_names n s : reachable n s -> names_ok s.
Proof.
  induction 1 as [s E|n s o s' R IH E].
  - destruct LoggerManager_new_run as [f Ef]. rewrite Ef in E. apply Ret_inj in E as <-. clear. constructor; [repeat constructor|].
    intros n j. cbn [m_loggers loggers map_find]. destruct (bytes_less (bs "root") n) eqn:E1; [done|]. destruct (bytes_less n (bs "root")) eqn:E2; [done|].
    intros [= <-]. eexists. split; [reflexivity|]. exact (bytes_less_total _ _ E1 E2).
  - exact (run_log_op_names n o s s' (reachable_ok n s R) IH E).
Qed.
End conf.

(** C35: when the definitions of the loggers change, the listener brings every
    logger whose definition is new or different to what it says: its level; the
    formatter of its pattern, or the formatter it had if there is no valid pattern;
    and one appender of its own for each of the definition, to its file or the
    standard output, with its level, and with its formatter if that is a valid one,
    else with the logger's.  A logger whose definition is gone gets the lowest level
    and no appenders, so that what is logged with it goes to the root.  No other
    logger changes, and no appender that is not one of a logger that changes.  This
    holds for every reachable state and every pair of sets whose appenders have one
    of the two types, when the listener's own log line has no obstacle; another type
    is a null pointer. *)
Theorem conf_changed `{LogEnv} (event_here : nat -> Level -> bytes -> LogEvent) (n : bool) (s : Log) (old new : std_set LogDefine) :
  (forall i l c, e_logger (event_here i l c) = i) ->
  reachable n s -> all_clear s (event_here (m_root s) INFO (bs "on_logger_conf_changed")) ->
  set_sorted less (set_elems old) -> set_sorted less (set_elems new) ->
  Forall (fun i => Forall type_ok (ld_appenders i)) (set_elems new) ->
  exists s', on_logger_conf_changed event_here old new s = Ret tt s' /\
    (forall i, i ∈ set_elems new -> i ∉ set_elems old -> holds (formatter_of i (formatter_before s (ld_name i))) i s') /\
    (forall i, i ∈ set_elems old -> (forall k, k ∈ set_elems new -> ld_name k <> ld_name i) -> holds (formatter_before s (ld_name i)) (gone i) s') /\
    (forall name j, map_find bytes_less name (m_loggers s) = Some j -> ~ changing (set_elems old) (set_elems new) name ->
      map_find bytes_less name (m_loggers s') = Some j /\ loggers s' !! j = loggers s !! j) /\
    (forall b a, appenders s !! b = Some a ->
      (forall name j l, changing (set_elems old) (set_elems new) name -> map_find bytes_less name (m_loggers s) = Some j -> loggers s !! j = Some l ->
        b ∉ l_appenders l) -> appenders s' !! b = Some a).
Proof.
  intros Hev R Hclear Hold Hnew Ht. pose proof (reachable_ok n s R) as Hok. pose proof (reachable_names n s R) as Hn.
  destruct old as [old], new as [new]. cbn [set_elems] in *. unfold on_logger_conf_changed. cbn [set_elems].
  step_with (eq_refl : getRoot s = Ret (m_root s) s). set (ev := event_here (m_root s) INFO (bs "on_logger_conf_changed")) in *.
  assert (Hr : is_Some (loggers s !! e_logger ev)) by (unfold ev; rewrite Hev; destruct (ok_root n s Hok) as (r & Er & _); by exists r).
  step_with (LINKO_LOG_LEVEL_run n s ev Hok Hr Hclear). set (s0 := written s (lines s ev)). destruct (changing_targets old new Hold Hnew) as (Hd & Hch).
  set (ts := filter (fun i => i ∉ old) new ++ map gone (filter (removed new) old)) in *.
  assert (Hts : Forall (fun i => Forall type_ok (ld_appenders i)) ts).
  { apply Forall_app. split.
    - apply Forall_forall. intros i [_ Hi]%list_elem_of_filter. by apply (proj1 (Forall_forall _ _) Ht).
    - apply Forall_forall. intros i (k & -> & _)%list_elem_of_fmap. constructor. }
  destruct (apply_all_run n ts s0) as (s' & E & Hin & _ & Hu & Hb); [by destruct Hok|by destruct Hn|done|done|].
  exists s'. split; [|split; [|split; [|split]]].
  - rewrite <- E. unfold ts. rewrite apply_all_app. apply bind_cong; [by apply configure_new_all|]. intros []. by apply delete_old_all.
  - intros i Hi Ho. apply (Hin i), elem_of_app. left. by apply list_elem_of_filter.
  - intros i Hi Hk. apply (Hin (gone i)), elem_of_app. right. apply list_elem_of_fmap. exists i. split; [done|]. apply list_elem_of_filter. split; [by apply removed_gone|done].
  - intros name j Hj Hc. apply (Hu name j Hj). intros Hi. by apply Hc, Hch.
  - intros b a Ha Hnot. apply Hb; [done|]. intros i j l Hi. apply Hnot, Hch, list_elem_of_fmap. by exists i.
Qed.

(** ** A concrete change *)

Definition demo_here (i : nat) (level : Level) (content : bytes) : LogEvent := mkLogEvent (bs "log.cc") 680 0 7 3 1700000000 (bs "main") content i level.
Definition demo_old : std_set LogDefine := StdSet [mkLogDefine (bs "db") DEBUG [] []].
Definition demo_new : std_set LogDefine :=
  StdSet [mkLogDefine (bs "http") WARN (bs "%m") [mkAppenderDefine 1 ERROR [] (bs "b.log"); mkAppenderDefine 2 UNKNOW (bs "%p %m") []]].

Lemma conf_changed_witness :
  exists s', on_logger_conf_changed demo_here demo_old demo_new demo_log = Ret tt s' /\
    (forall i, i ∈ set_elems demo_new -> i ∉ set_elems demo_old -> holds (formatter_of i (formatter_before demo_log (ld_name i))) i s') /\
    (forall i, i ∈ set_elems demo_old -> (forall k, k ∈ set_elems demo_new -> ld_name k <> ld_name i) ->
      holds (formatter_before demo_log (ld_name i)) (gone i) s').
Proof.
  assert (Hc : all_clear demo_log (demo_here (m_root demo_log) INFO (bs "on_logger_conf_changed"))).
  { apply demo_clear; [intros; eexists; reflexivity|]. vm_compute. reflexivity. }
  destruct (conf_changed demo_here false demo_log demo_old demo_new) as (s' & E & Hnew & Hgone & _).
  - done.
  - exact demo_log_reachable.
  - exact Hc.
  - repeat constructor.
  - repeat constructor.
  - constructor; [|constructor]. constructor; [by left|]. constructor; [by right|constructor].
  - exists s'. split; [exact E|]. split; [exact Hnew|exact Hgone].
Defined.

(** What is written then. *)
Example demo_changed :
  match on_logger_conf_changed demo_here demo_old demo_new demo_log with
  | Ret _ s => (lines s (demo_here 1 WARN (bs "w")), lines s (demo_here 1 ERROR (bs "e")), map fst (lines s (demo_here 2 UNKNOW (bs "d"))))
  | _ => ([], [], [])
  end = ([(Stdout, bs "WARN w")], [(File (bs "b.log"), bs "e"); (Stdout, bs "ERROR e")], []).
Proof. vm_compute. reflexivity. Qed.
