(* ===== verification/Locks.v ===== *)
(** linko/mutex.{h,cc}: the locks, the guards that take them, and clients that share
    data under a lock, interleaved.

    A lock is a state [T]; an attempt to take it answers whether it was taken, and
    the caller of [lock] makes attempts until one is successful: that is the loop of
    CASLock, and what waiting in pthread amounts to.  What pthread's locks do is a
    parameter ([Pthread]). *)
From S2P Require Import Prelude.

(** ** The locks *)

(** Which of the two ways of taking a lock a guard uses: [lock] and [wrlock], or
    [rdlock]. *)
Inductive Kind := Exclusive | Shared.

(** What a guard calls: an attempt of [lock], [wrlock] or [rdlock], and [unlock]. *)
Class Lockable (T : Type) := {
  supported : Kind -> bool;
  acquire : Kind -> M T bool;
  release : M T unit
}.

(** CASLock: an atomic flag. *)
Module CASLock.
Definition test_and_set : M bool bool := flag ← get; put true;; mret flag.
Definition clear : M bool unit := put false.
Definition new : bool := false.
(** One round of the loop of [lock]. *)
Definition lock : M bool bool := flag ← test_and_set; mret (negb flag).
Definition unlock : M bool unit := clear.
End CASLock.

#[export] Instance CASLock_Lockable : Lockable bool := {
  supported k := match k with Exclusive => true | Shared => false end;
  acquire _ := CASLock.lock;
  release := CASLock.unlock
}.

(** The locks of pthread. *)
Class Pthread := {
  mutex_t : Type; pthread_mutex_lock : M mutex_t bool; pthread_mutex_unlock : M mutex_t unit;
  rwlock_t : Type; pthread_rwlock_rdlock : M rwlock_t bool; pthread_rwlock_wrlock : M rwlock_t bool;
  pthread_rwlock_unlock : M rwlock_t unit;
  spinlock_t : Type; pthread_spin_lock : M spinlock_t bool; pthread_spin_unlock : M spinlock_t unit
}.

Module Mutex.
Section mutex.
Context `{Pthread}.
Definition lock : M mutex_t bool := pthread_mutex_lock.
Definition unlock : M mutex_t unit := pthread_mutex_unlock.
End mutex.
End Mutex.

Module RWMutex.
Section rwmutex.
Context `{Pthread}.
Definition rdlock : M rwlock_t bool := pthread_rwlock_rdlock.
Definition wrlock : M rwlock_t bool := pthread_rwlock_wrlock.
Definition unlock : M rwlock_t unit := pthread_rwlock_unlock.
End rwmutex.
End RWMutex.

Module SpinLock.
Section spinlock.
Context `{Pthread}.
Definition lock : M spinlock_t bool := pthread_spin_lock.
Definition unlock : M spinlock_t unit := pthread_spin_unlock.
End spinlock.
End SpinLock.

Section pthread.
Context `{Pthread}.
Definition Mutex_Lockable : Lockable mutex_t := {|
  supported k := match k with Exclusive => true | Shared => false end;
  acquire _ := Mutex.lock; release := Mutex.unlock
|}.
Definition SpinLock_Lockable : Lockable spinlock_t := {|
  supported k := match k with Exclusive => true | Shared => false end;
  acquire _ := SpinLock.lock; release := SpinLock.unlock
|}.
Definition RWMutex_Lockable : Lockable rwlock_t := {|
  supported _ := true;
  acquire k := match k with Exclusive => RWMutex.wrlock | Shared => RWMutex.rdlock end;
  release := RWMutex.unlock
|}.
End pthread.

(** ** The guards: ScopedLockImpl and WriteScopedLockImpl take the lock
    exclusively, ReadScopedLockImpl shared.  What is kept is [m_locked]. *)
Section guards.
Context `{Lockable T}.

(** The constructor: it returns, and the guard exists, after an attempt that was
    successful. *)
Definition ScopedLock_new (k : Kind) : M T bool := acquire k.
(** [lock]: the answer is the new [m_locked]; without it the caller is still
    waiting. *)
Definition ScopedLock_lock (k : Kind) (m_locked : bool) : M T bool :=
  if negb m_locked then acquire k else mret m_locked.
Definition ScopedLock_unlock (m_locked : bool) : M T bool :=
  if m_locked then release;; mret false else mret m_locked.
Definition ScopedLock_delete (m_locked : bool) : M T unit := ScopedLock_unlock m_locked;; mret tt.

(** ** Clients

    A client is a thread that goes through scopes: each makes a guard, calls its
    methods and accesses the shared data [D] and variables [V] of its own, and
    destroys the guard.  Which scope is next depends on its variables.  A step is
    what lies between two accesses to the lock or to the shared data. *)
Context {D V : Type}.

Inductive call := GuardLock | GuardUnlock | Access (f : D -> V -> D * V).
Record scope := mkScope { s_kind : Kind; s_calls : list call }.
Record Client := mkClient {
  t_guard : option (Kind * bool);
  t_calls : list call;
  t_next : V -> option scope;
  t_local : V
}.

Definition on_lock {A} (m : M T A) : M (T * D) A := fun s =>
  match m (fst s) with
  | Ret a t => Ret a (t, snd s)
  | Throw e t => Throw e (t, snd s)
  | Crash c => Crash c
  end.

Definition client_step (c : Client) : M (T * D) Client :=
  match t_guard c with
  | None =>
    match t_next c (t_local c) with
    | None => mret c
    | Some sc =>
      b ← on_lock (ScopedLock_new (s_kind sc));
      mret (if b : bool then mkClient (Some (s_kind sc, true)) (s_calls sc) (t_next c) (t_local c) else c)
    end
  | Some (k, m_locked) =>
    match t_calls c with
    | [] => on_lock (ScopedLock_delete m_locked);; mret (mkClient None [] (t_next c) (t_local c))
    | GuardLock :: cs =>
      b ← on_lock (ScopedLock_lock k m_locked);
      mret (if b : bool then mkClient (Some (k, true)) cs (t_next c) (t_local c) else c)
    | GuardUnlock :: cs =>
      b ← on_lock (ScopedLock_unlock m_locked);
      mret (mkClient (Some (k, b)) cs (t_next c) (t_local c))
    | Access f :: cs =>
      s ← get;
      let r := f (snd s) (t_local c) in
      put (fst s, fst r);; mret (mkClient (t_guard c) cs (t_next c) (snd r))
    end
  end.

Record Sys := mkSys { s_lock : T; s_data : D; s_clients : list Client }.

(** A step of client [i]. *)
Definition step (i : nat) : M Sys unit := fun s =>
  match s_clients s !! i with
  | None => Ret tt s
  | Some c =>
    match client_step c (s_lock s, s_data s) with
    | Ret c' (t, d) => Ret tt (mkSys t d (<[i := c']> (s_clients s)))
    | Throw e (t, d) => Throw e (mkSys t d (s_clients s))
    | Crash x => Crash x
    end
  end.
Fixpoint run (sched : list nat) : M Sys unit :=
  match sched with [] => mret tt | i :: sched => step i;; run sched end.

(** ** Specification: the same clients without a lock; what a client does between
    taking the lock and giving it up is one step. *)
Fixpoint finish (d : D) (v : V) (cs : list call) : D * V * list call :=
  match cs with
  | Access f :: cs => finish (fst (f d v)) (snd (f d v)) cs
  | GuardLock :: cs => finish d v cs
  | _ => (d, v, cs)
  end.
Definition finish_data (d : D) (c : Client) : D := fst (fst (finish d (t_local c) (t_calls c))).
Definition finish_client (d : D) (c : Client) : Client :=
  let r := finish d (t_local c) (t_calls c) in
  mkClient (t_guard c) (snd r) (t_next c) (snd (fst r)).

(** The client once it has the lock, if it is about to take it. *)
Definition entered (c : Client) : option Client :=
  match t_guard c, t_calls c with
  | None, _ =>
    match t_next c (t_local c) with
    | Some sc => Some (mkClient (Some (s_kind sc, true)) (s_calls sc) (t_next c) (t_local c))
    | None => None
    end
  | Some (k, false), GuardLock :: cs => Some (mkClient (Some (k, true)) cs (t_next c) (t_local c))
  | _, _ => None
  end.
Definition left (c : Client) : Client :=
  match t_guard c, t_calls c with
  | Some (k, _), GuardUnlock :: cs => mkClient (Some (k, false)) cs (t_next c) (t_local c)
  | Some _, [] => mkClient None [] (t_next c) (t_local c)
  | _, _ => c
  end.
Definition atomic_step (i : nat) (a : D * list Client) : D * list Client :=
  match snd a !! i with
  | None => a
  | Some c =>
    match entered c with
    | Some c' => (finish_data (fst a) c', <[i := finish_client (fst a) c']> (snd a))
    | None => (fst a, <[i := left c]> (snd a))
    end
  end.
Fixpoint atomic_run (sched : list nat) (a : D * list Client) : D * list Client :=
  match sched with [] => a | i :: sched => atomic_run sched (atomic_step i a) end.
End guards.
Arguments call : clear implicits.
Arguments scope : clear implicits.
Arguments Client : clear implicits.
Arguments Sys : clear implicits.
