(* ===== verification/LocksThms.v ===== *)
(** Sections under a lock do not overlap: what clients do between taking a lock and
    giving it up happens as if in one step. *)
From S2P Require Import Prelude Locks.
Open Scope nat_scope.

(** What a lock promises: [holds r w t] says that [r] shared and [w] exclusive
    holders are in state [t]. *)
Class LockLaws (T : Type) `{Lockable T} := {
  holds : nat -> nat -> T -> Prop;
  acquire_taken k r w t : supported k = true -> holds r w t -> exists b t', acquire k t = Ret b t' /\
    match k, b with
    | Exclusive, true => r = 0 /\ w = 0 /\ holds 0 1 t'
    | Shared, true => w = 0 /\ holds (S r) 0 t'
    | _, false => holds r w t'
    end;
  acquire_free k t : supported k = true -> holds 0 0 t -> exists t', acquire k t = Ret true t';
  release_shared r t : holds (S r) 0 t -> exists t', release t = Ret tt t' /\ holds r 0 t';
  release_exclusive t : holds 0 1 t -> exists t', release t = Ret tt t' /\ holds 0 0 t'
}.

#[export] Program Instance CASLock_laws : LockLaws bool := {
  holds r w flag := r = 0 /\ w = Nat.b2n flag
}.
Next Obligation. intros k r w t Hk [-> ->]. destruct k; [|done]. destruct t; eexists _, _; (split; [reflexivity|done]). Qed.
Next Obligation. intros k t _ [_ Ht]. destruct t; [done|]. by eexists. Qed.
Next Obligation. by intros r t [? _]. Qed.
Next Obligation. intros t [_ Ht]. by eexists. Qed.

(** ** Sums over the clients *)
Section sums.
Context {A : Type} (f : A -> nat).

Lemma sum_insert (l : list A) i x y :
  l !! i = Some x -> sum_list_with f (<[i := y]> l) + f x = sum_list_with f l + f y.
Proof.
  revert i. induction l as [|z l IH]; intros [|i] E; try done; simpl in *; [injection E as ->; lia|].
  specialize (IH _ E). lia.
Qed.
Lemma sum_one (l : list A) i x : l !! i = Some x -> f x <= sum_list_with f l.
Proof.
  revert i. induction l as [|z l IH]; intros [|i] E; try done; simpl in *; [injection E as ->; lia|].
  specialize (IH _ E). lia.
Qed.
Lemma sum_two (l : list A) i j x y :
  i <> j -> l !! i = Some x -> l !! j = Some y -> f x + f y <= sum_list_with f l.
Proof.
  revert i j. induction l as [|z l IH]; intros [|i] [|j] Hij Ei Ej; try done; simpl in *.
  - injection Ei as ->. pose proof (sum_one _ _ _ Ej). lia.
  - injection Ej as ->. pose proof (sum_one _ _ _ Ei). lia.
  - pose proof (IH i j ltac:(lia) Ei Ej). lia.
Qed.
Lemma sum_zero (l : list A) : (forall x, x ∈ l -> f x = 0) -> sum_list_with f l = 0.
Proof.
  induction l as [|z l IH]; intros Hl; [done|]. simpl. rewrite (Hl z), IH; [done| |set_solver..]. set_solver.
Qed.
End sums.

Section clients.
Context {T : Type} `{LockLaws T} {D V : Type}.
Abbreviation Client := (Client D V).
Abbreviation Sys := (Sys T D V).

(** Shared data is accessed under the guard, and not changed under a shared one. *)
Fixpoint disciplined (k : Kind) (m_locked : bool) (cs : list (call D V)) : Prop :=
  match cs with
  | [] => True
  | GuardLock :: cs => disciplined k true cs
  | GuardUnlock :: cs => disciplined k false cs
  | Access f :: cs => m_locked = true /\ (k = Shared -> forall d v, fst (f d v) = d) /\ disciplined k m_locked cs
  end.
Definition scope_ok (sc : scope D V) : Prop := supported (s_kind sc) = true /\ disciplined (s_kind sc) true (s_calls sc).
Definition client_ok (c : Client) : Prop :=
  match t_guard c with
  | None => True
  | Some (k, m_locked) => supported k = true /\ disciplined k m_locked (t_calls c)
  end /\ forall v sc, t_next c v = Some sc -> scope_ok sc.

Definition shared (c : Client) : nat := match t_guard c with Some (Shared, true) => 1 | _ => 0 end.
Definition exclusive (c : Client) : nat := match t_guard c with Some (Exclusive, true) => 1 | _ => 0 end.
Definition holding (c : Client) : bool := match t_guard c with Some (_, b) => b | None => false end.

(** The client as the specification has it: past what it does under the lock it holds. *)
Definition committed (d : D) (c : Client) : Client := if holding c then finish_client d c else c.

(** The invariant of the system and its relation to the specification. *)
Record related (s : Sys) (a : D * list Client) : Prop := {
  rel_ok : Forall client_ok (s_clients s);
  rel_lock : holds (sum_list_with shared (s_clients s)) (sum_list_with exclusive (s_clients s)) (s_lock s);
  rel_excl : sum_list_with exclusive (s_clients s) = 0 \/
    (sum_list_with exclusive (s_clients s) = 1 /\ sum_list_with shared (s_clients s) = 0);
  rel_clients : snd a = map (committed (s_data s)) (s_clients s);
  rel_free : sum_list_with exclusive (s_clients s) = 0 -> fst a = s_data s;
  rel_writer i c : s_clients s !! i = Some c -> exclusive c = 1 -> fst a = finish_data (s_data s) c
}.

Lemma finish_shared k : forall cs d v, k = Shared -> disciplined k true cs -> fst (fst (finish d v cs)) = d.
Proof.
  intros cs d v ->. revert d v. induction cs as [|[| |f] cs IH]; intros d v Hd; cbn in *; [done|by apply IH|done|].
  destruct Hd as (_ & Hf & Hd). rewrite Hf by done. by apply IH.
Qed.

Lemma finish_holding d c : shared (finish_client d c) = shared c /\ exclusive (finish_client d c) = exclusive c.
Proof. done. Qed.

Lemma holding_count c : holding c = true -> shared c + exclusive c = 1.
Proof. unfold holding, shared, exclusive. destruct (t_guard c) as [[[] b]|]; [intros ->; done..|done]. Qed.
Lemma not_holding c : holding c = false -> shared c = 0 /\ exclusive c = 0.
Proof. unfold holding, shared, exclusive. destruct (t_guard c) as [[[] b]|]; [intros ->; done..|done]. Qed.

Lemma others_free s a i c j c' :
  related s a -> s_clients s !! i = Some c -> exclusive c = 1 -> j <> i -> s_clients s !! j = Some c' -> holding c' = false.
Proof.
  intros R Ei Ex Hij Ej. destruct (holding c') eqn:Hh; [|done]. apply holding_count in Hh.
  pose proof (sum_two exclusive _ _ _ _ _ Hij Ej Ei). pose proof (sum_one shared _ _ _ Ej).
  destruct (rel_excl s a R) as [|[? ?]]; lia.
Qed.

(** A client takes a step and leaves the lock, the data and the specification in new
    states. *)
Lemma related_update s a i c c' t d a' :
  related s a -> s_clients s !! i = Some c -> client_ok c' ->
  d = s_data s \/ exclusive c = 1 ->
  let cs := <[i := c']> (s_clients s) in
  holds (sum_list_with shared cs) (sum_list_with exclusive cs) t ->
  sum_list_with exclusive cs = 0 \/ (sum_list_with exclusive cs = 1 /\ sum_list_with shared cs = 0) ->
  snd a' = <[i := committed d c']> (snd a) ->
  (sum_list_with exclusive cs = 0 -> fst a' = d) ->
  (exclusive c' = 1 -> fst a' = finish_data d c') ->
  (exclusive c' = 0 -> exclusive c = 0 -> fst a' = fst a \/ sum_list_with exclusive cs = 0) ->
  related (mkSys t d cs) a'.
Proof.
  intros R Ei Hok Hd cs Hl Hx Hc Hfree Hw Ho. constructor; cbn; try done.
  - apply Forall_insert; [apply (rel_ok s a R)|done].
  - rewrite Hc, (rel_clients s a R). apply list_eq. intros j. unfold cs. rewrite list_lookup_fmap.
    assert (i < length (s_clients s)) by by eapply lookup_lt_Some.
    destruct (decide (j = i)) as [->|Hij].
    + rewrite !list_lookup_insert_eq; [done|done|by rewrite length_map].
    + rewrite !list_lookup_insert_ne, list_lookup_fmap by done. destruct (s_clients s !! j) as [x|] eqn:Ej; [|done].
      cbn. f_equal. destruct Hd as [->|Hex]; [done|]. unfold committed. by rewrite (others_free s a i c j x R Ei Hex Hij Ej).
  - intros j x Ej Hex. destruct (decide (j = i)) as [->|Hij].
    + unfold cs in Ej. rewrite list_lookup_insert_eq in Ej by by eapply lookup_lt_Some. injection Ej as <-. by apply Hw.
    + assert (Ej' : s_clients s !! j = Some x) by (unfold cs in Ej; by rewrite list_lookup_insert_ne in Ej).
      pose proof (sum_one exclusive cs j x Ej). 
      assert (Eci : cs !! i = Some c') by (apply list_lookup_insert_eq; by eapply lookup_lt_Some).
      pose proof (sum_two exclusive cs i j c' x ltac:(done) Eci Ej).
      pose proof (sum_two exclusive _ i j c x ltac:(done) Ei Ej').
      assert (exclusive c = 0) by (destruct (rel_excl s a R) as [|[? ?]]; lia).
      destruct Hd as [->|?]; [|lia].
      destruct Ho as [->|?]; [lia|lia| |lia]. by apply (rel_writer s a R j x).
Qed.

Lemma looked_up s a i c : related s a -> s_clients s !! i = Some c -> snd a !! i = Some (committed (s_data s) c).
Proof. intros R Ei. by rewrite (rel_clients s a R), list_lookup_fmap, Ei. Qed.

(** An attempt that was not successful. *)
Lemma related_wait s a i c t :
  related s a -> s_clients s !! i = Some c ->
  holds (sum_list_with shared (s_clients s)) (sum_list_with exclusive (s_clients s)) t ->
  related (mkSys t (s_data s) (<[i := c]> (s_clients s))) a.
Proof. intros R Ei Hl. rewrite list_insert_id by done. by destruct R. Qed.

Lemma entered_ok c c' : client_ok c -> entered c = Some c' ->
  holding c = false /\ client_ok c' /\ exists k, t_guard c' = Some (k, true) /\ supported k = true /\
  match t_guard c with None => True | Some (k', _) => k' = k end.
Proof.
  destruct c as [[[k b]|] cs next v]; unfold client_ok, entered; cbn; intros [Hg Hr] E.
  - assert (exists cs', b = false /\ cs = GuardLock :: cs' /\ c' = mkClient (Some (k, true)) cs' next v) as (cs' & -> & -> & ->).
    { destruct b, cs as [|[] cs]; try done; injection E as <-; by exists cs. }
    split; [done|]. split; [done|]. exists k. by destruct Hg.
  - destruct (next v) as [sc|] eqn:En; [|done]. injection E as <-. destruct (Hr v sc En) as [Hs Hd].
    split; [done|]. split; [done|]. by exists (s_kind sc).
Qed.

(** The lock is taken. *)
Lemma related_enter s a i c c' k t :
  related s a -> s_clients s !! i = Some c -> entered c = Some c' -> t_guard c' = Some (k, true) ->
  match k with
  | Exclusive => sum_list_with shared (s_clients s) = 0 /\ sum_list_with exclusive (s_clients s) = 0 /\ holds 0 1 t
  | Shared => sum_list_with exclusive (s_clients s) = 0 /\ holds (S (sum_list_with shared (s_clients s))) 0 t
  end ->
  related (mkSys t (s_data s) (<[i := c']> (s_clients s))) (atomic_step i a).
Proof.
  intros R Ei Hen Hk Ht. assert (Hc : client_ok c) by (eapply Forall_lookup_1; [apply (rel_ok s a R)|done]).
  destruct (entered_ok c c' Hc Hen) as (Hh & Hok & _). destruct (not_holding c Hh) as [Hsc Hec].
  assert (Ew : sum_list_with exclusive (s_clients s) = 0) by (destruct k; tauto).
  assert (Ed : fst a = s_data s) by by apply (rel_free s a R).
  assert (Ea : atomic_step i a = (finish_data (s_data s) c', <[i := finish_client (s_data s) c']> (snd a))).
  { unfold atomic_step. rewrite (looked_up s a i c R Ei). unfold committed. by rewrite Hh, Hen, Ed. }
  pose proof (sum_insert shared _ i c c' Ei). pose proof (sum_insert exclusive _ i c c' Ei).
  assert (Hs' : shared c' = match k with Shared => 1 | _ => 0 end) by (unfold shared; by rewrite Hk; destruct k).
  assert (Hx' : exclusive c' = match k with Exclusive => 1 | _ => 0 end) by (unfold exclusive; by rewrite Hk; destruct k).
  assert (Hcm : committed (s_data s) c' = finish_client (s_data s) c') by (unfold committed, holding; by rewrite Hk).
  eapply related_update; [done..| | | | | | |]; rewrite ?Ea; cbn.
  - by left.
  - destruct k; [destruct Ht as (? & ? & Ht); replace (sum_list_with _ _) with 0 by lia; by replace (sum_list_with _ _) with 1 by lia|].
    destruct Ht as (? & Ht). replace (sum_list_with exclusive _) with 0 by lia. by replace (sum_list_with shared _) with (S (sum_list_with shared (s_clients s))) by lia.
  - destruct k; [right|left]; lia.
  - by rewrite Hcm.
  - intros Hz. assert (k = Shared) as -> by (destruct k; [lia|done]).
    unfold finish_data. eapply finish_shared; [done|]. unfold client_ok in Hok. rewrite Hk in Hok. by destruct Hok as [[_ ?] _].
  - done.
  - intros. right. lia.
Qed.

(** The guard's lock is released, or nothing was locked. *)
Lemma related_leave s a i c t :
  related s a -> s_clients s !! i = Some c -> client_ok (left c) -> entered c = None ->
  shared (left c) = 0 -> exclusive (left c) = 0 -> finish_data (s_data s) c = s_data s -> committed (s_data s) c = c ->
  holding (left c) = false ->
  holds (sum_list_with shared (s_clients s) - shared c) (sum_list_with exclusive (s_clients s) - exclusive c) t ->
  related (mkSys t (s_data s) (<[i := left c]> (s_clients s))) (atomic_step i a).
Proof.
  intros R Ei Hok Hen Hs Hx Hf Hc Hh Ht.
  assert (Ea : atomic_step i a = (fst a, <[i := left c]> (snd a))).
  { unfold atomic_step. by rewrite (looked_up s a i c R Ei), Hc, Hen. }
  pose proof (sum_insert shared _ i c (left c) Ei). pose proof (sum_insert exclusive _ i c (left c) Ei).
  pose proof (rel_excl s a R).
  eapply related_update; [done..| | | | | | |]; rewrite ?Ea; cbn.
  - by left.
  - replace (sum_list_with shared (<[_:=_]> _)) with (sum_list_with shared (s_clients s) - shared c) by lia.
    by replace (sum_list_with exclusive (<[_:=_]> _)) with (sum_list_with exclusive (s_clients s) - exclusive c) by lia.
  - destruct (rel_excl s a R); [left|]; lia.
  - unfold committed. by rewrite Hh.
  - intros Hz. destruct (decide (exclusive c = 1)) as [He|He]; [by rewrite (rel_writer s a R i c)|].
    apply (rel_free s a R). pose proof (sum_one exclusive _ _ _ Ei). unfold exclusive in *. destruct (t_guard c) as [[[] []]|]; lia.
  - lia.
  - by left.
Qed.

(** What happens under the lock is not seen. *)
Lemma related_silent s a i c c' d :
  related s a -> s_clients s !! i = Some c -> client_ok c' -> t_guard c' = t_guard c -> holding c = true ->
  finish d (t_local c') (t_calls c') = finish (s_data s) (t_local c) (t_calls c) -> t_next c' = t_next c ->
  d = s_data s \/ exclusive c = 1 ->
  related (mkSys (s_lock s) d (<[i := c']> (s_clients s))) a.
Proof.
  intros R Ei Hok Hg Hh Hf Hr Hd.
  assert (Hs : shared c' = shared c) by (unfold shared; by rewrite Hg).
  assert (Hx : exclusive c' = exclusive c) by (unfold exclusive; by rewrite Hg).
  pose proof (sum_insert shared _ i c c' Ei). pose proof (sum_insert exclusive _ i c c' Ei).
  assert (Es : sum_list_with shared (<[i:=c']> (s_clients s)) = sum_list_with shared (s_clients s)) by lia.
  assert (Ee : sum_list_with exclusive (<[i:=c']> (s_clients s)) = sum_list_with exclusive (s_clients s)) by lia.
  pose proof (sum_one exclusive _ _ _ Ei).
  eapply related_update; [done..| | | | | | |]; rewrite ?Es, ?Ee.
  - done.
  - apply (rel_lock s a R).
  - apply (rel_excl s a R).
  - assert (committed d c' = committed (s_data s) c) as ->.
    { unfold committed, finish_client, holding in *. by rewrite Hg, Hh, Hf, Hr. }
    by rewrite list_insert_id by by apply looked_up.
  - intros Hz. destruct Hd as [->|]; [by apply (rel_free s a R)|lia].
  - rewrite Hx. intros He. rewrite (rel_writer s a R i c Ei He). unfold finish_data. by rewrite Hf.
  - by left.
Qed.

(** ** One step *)

Definition done_ (c : Client) : Prop := t_guard c = None /\ t_next c (t_local c) = None.
Definition unlocked (s : Sys) : Prop := Forall (fun c => holding c = false) (s_clients s).

(** A step of client [i] that was not a failed attempt to take the lock. *)
Definition proceeds (i : nat) (c : Client) (s' : Sys) : Prop :=
  forall c', entered c = Some c' -> s_clients s' !! i = Some c'.
Definition moves (s : Sys) (i : nat) (c : Client) (s' : Sys) : Prop :=
  proceeds i c s' \/ (holding c = false /\ ~ unlocked s) \/ done_ c.

Lemma unlocked_sums s :
  unlocked s -> sum_list_with shared (s_clients s) = 0 /\ sum_list_with exclusive (s_clients s) = 0.
Proof.
  intros Hu. split; apply sum_zero; intros c Hc; apply not_holding; unfold unlocked in Hu; rewrite list.Forall_forall in Hu; by apply Hu.
Qed.

Lemma try_enter s a i c c' k :
  related s a -> s_clients s !! i = Some c -> entered c = Some c' -> t_guard c' = Some (k, true) ->
  exists b t sched, acquire k (s_lock s) = Ret b t /\
  let s' := mkSys t (s_data s) (<[i := if b : bool then c' else c]> (s_clients s)) in
  related s' (atomic_run sched a) /\ moves s i c s'.
Proof.
  intros R Ei Hen Hk. assert (Hc : client_ok c) by (eapply Forall_lookup_1; [apply (rel_ok s a R)|done]).
  destruct (entered_ok c c' Hc Hen) as (Hh & _ & k' & Hk' & Hs & _). assert (k' = k) as -> by congruence.
  destruct (acquire_taken k _ _ _ Hs (rel_lock s a R)) as (b & t & E & Ht). exists b, t.
  destruct b.
  - exists [i]. split; [done|]. split; [|left; intros x Hent; cbn; rewrite list_lookup_insert_eq by (by eapply lookup_lt_Some); congruence].
    change (atomic_run [i] a) with (atomic_step i a). by eapply related_enter.
  - exists []. split; [done|]. split; [by apply related_wait; [..|destruct k]|]. right. left. split; [done|]. intros Hu.
    destruct (unlocked_sums s Hu) as [Es Ex]. pose proof (rel_lock s a R) as Hl. rewrite Es, Ex in Hl.
    destruct (acquire_free k _ Hs Hl) as [? ?]. congruence.
Qed.

Lemma release_held s a i c :
  related s a -> s_clients s !! i = Some c -> holding c = true ->
  exists t, release (s_lock s) = Ret tt t /\
  holds (sum_list_with shared (s_clients s) - shared c) (sum_list_with exclusive (s_clients s) - exclusive c) t.
Proof.
  intros R Ei Hh. apply holding_count in Hh. pose proof (rel_lock s a R) as Hl.
  pose proof (sum_one shared _ _ _ Ei). pose proof (sum_one exclusive _ _ _ Ei).
  destruct (decide (exclusive c = 1)) as [He|He].
  - assert (sum_list_with shared (s_clients s) = 0 /\ sum_list_with exclusive (s_clients s) = 1) as [Es Ex] by (destruct (rel_excl s a R) as [|[]]; lia).
    rewrite Es, Ex in Hl |- *. destruct (release_exclusive _ Hl) as (t & E & Ht). exists t. by rewrite He.
  - assert (sum_list_with exclusive (s_clients s) = 0) as Ex by (destruct (rel_excl s a R) as [|[]]; lia).
    destruct (sum_list_with shared (s_clients s)) as [|r] eqn:Es; [lia|]. rewrite Ex in Hl |- *.
    destruct (release_shared r _ Hl) as (t & E & Ht). exists t. split; [done|].
    replace (shared c) with 1 by lia. cbn. by rewrite Nat.sub_0_r.
Qed.

(** A step that gives up the lock if it is held. *)
Lemma try_leave s a i c (m_locked : bool) :
  related s a -> s_clients s !! i = Some c -> holding c = m_locked -> client_ok (left c) -> entered c = None ->
  holding (left c) = false -> (forall d, finish_client d c = c /\ finish_data d c = d) ->
  exists t, ScopedLock_unlock m_locked (s_lock s) = Ret false t /\
  let s' := mkSys t (s_data s) (<[i := left c]> (s_clients s)) in related s' (atomic_run [i] a) /\ moves s i c s'.
Proof.
  intros R Ei Hh Hok Hen Hhl Hf. destruct (not_holding _ Hhl) as [Hs Hx].
  assert (Hc : committed (s_data s) c = c) by (unfold committed; destruct (holding c); [apply Hf|done]).
  assert (exists t, ScopedLock_unlock m_locked (s_lock s) = Ret false t /\
    holds (sum_list_with shared (s_clients s) - shared c) (sum_list_with exclusive (s_clients s) - exclusive c) t) as (t & E & Ht).
  { destruct m_locked.
    - destruct (release_held s a i c R Ei Hh) as (t & E & Ht). exists t. split; [|done]. unfold ScopedLock_unlock. by step_with E.
    - exists (s_lock s). split; [done|]. destruct (not_holding _ Hh) as [-> ->]. rewrite !Nat.sub_0_r. apply (rel_lock s a R). }
  exists t. split; [done|]. split; [|left; intros x Hent; congruence]. change (atomic_run [i] a) with (atomic_step i a).
  apply related_leave; try done. apply Hf.
Qed.

Lemma step_client (s : Sys) i (c c' : Client) t (d : D) :
  s_clients s !! i = Some c -> client_step c (s_lock s, s_data s) = Ret c' (t, d) ->
  step i s = Ret tt (mkSys t d (<[i := c']> (s_clients s))).
Proof. intros Ei E. unfold step. by rewrite Ei, E. Qed.

Lemma on_lock_run {A} (m : M T A) (t : T) (d : D) x t' : m t = Ret x t' -> on_lock m (t, d) = Ret x (t', d).
Proof. intros E. unfold on_lock. cbn. by rewrite E. Qed.

Lemma step_guarded s a i k m_locked cs next v :
  related s a -> s_clients s !! i = Some (mkClient (Some (k, m_locked)) cs next v) ->
  exists s' sched, step i s = Ret tt s' /\ related s' (atomic_run sched a) /\ moves s i (mkClient (Some (k, m_locked)) cs next v) s'.
Proof.
  intros R Ei. set (c := mkClient _ _ _ _) in *.
  assert (client_ok c) as [[Hk Hd] Hr] by (eapply Forall_lookup_1; [apply (rel_ok s a R)|done]).
  destruct cs as [|[| |f] cs]; cbn in Hd.
  - destruct (try_leave s a i c m_locked) as (t & E & Hrel); try done; [by destruct m_locked|].
    eexists _, [i]. split; [|exact Hrel]. eapply step_client; [done|]. cbn.
    assert (Ed : ScopedLock_delete m_locked (s_lock s) = Ret tt t) by (unfold ScopedLock_delete; by step_with E).
    by step_with (on_lock_run _ _ (s_data s) _ _ Ed).
  - destruct m_locked.
    + eexists _, []. split; [by eapply step_client|]. split; [eapply related_silent; try done; by left|].
      by left.
    + destruct (try_enter s a i c (mkClient (Some (k, true)) cs next v) k) as (b & t & sched & E & Hrel); try done.
      eexists _, sched. split; [|exact Hrel]. eapply step_client; [done|]. cbn.
      assert (El : ScopedLock_lock k false (s_lock s) = Ret b t) by done. by step_with (on_lock_run _ _ (s_data s) _ _ El).
  - destruct (try_leave s a i c m_locked) as (t & E & Hrel); try done; [by destruct m_locked|].
    eexists _, [i]. split; [|exact Hrel]. eapply step_client; [done|]. cbn. by step_with (on_lock_run _ _ (s_data s) _ _ E).
  - destruct Hd as (-> & Hf & Hd). exists (mkSys (s_lock s) (fst (f (s_data s) v)) (<[i := mkClient (Some (k, true)) cs next (snd (f (s_data s) v))]> (s_clients s))), [].
    split; [by eapply step_client|]. split.
    + eapply related_silent; try done. cbn. destruct k; [by right|left]. by apply Hf.
    + by left.
Qed.

(** A step of the clients is some steps of the specification. *)
Lemma step_related s a i : related s a ->
  exists s' sched, step i s = Ret tt s' /\ related s' (atomic_run sched a) /\
  forall c, s_clients s !! i = Some c -> moves s i c s'.
Proof.
  intros R. destruct (s_clients s !! i) as [c|] eqn:Ei; [|exists s, []; unfold step; rewrite Ei; by split_and!].
  enough (exists s' sched, step i s = Ret tt s' /\ related s' (atomic_run sched a) /\ moves s i c s') as (s' & sched & E & Hr & Hm)
    by (exists s', sched; split_and!; [done..|]; by intros ? [= <-]).
  destruct c as [[[k m_locked]|] cs next v]; [by apply step_guarded|].
  set (c := mkClient _ _ _ _) in *.
  assert (client_ok c) as [_ Hr] by (eapply Forall_lookup_1; [apply (rel_ok s a R)|done]).
  destruct (next v) as [sc|] eqn:En.
  2: { exists (mkSys (s_lock s) (s_data s) (<[i := c]> (s_clients s))), []. split; [eapply step_client; [done|]; unfold client_step; cbn; by rewrite En|].
    split; [apply related_wait; [done..|apply (rel_lock s a R)]|]. by right; right. }
  destruct (try_enter s a i c (mkClient (Some (s_kind sc, true)) (s_calls sc) next v) (s_kind sc))
    as (b & t & sched & E & Hrel); try done; [by unfold entered; cbn; rewrite En|].
  eexists _, sched. split; [|exact Hrel]. eapply step_client; [done|]. unfold client_step. cbn. rewrite En.
  assert (El : ScopedLock_new (s_kind sc) (s_lock s) = Ret b t) by done. by step_with (on_lock_run _ _ (s_data s) _ _ El).
Qed.

Lemma atomic_run_app l1 : forall l2 (a : D * list Client), atomic_run (l1 ++ l2) a = atomic_run l2 (atomic_run l1 a).
Proof. induction l1 as [|i l1 IH]; intros l2 a; [done|apply IH]. Qed.

Lemma run_related sched : forall s a, related s a ->
  exists s' sched', run sched s = Ret tt s' /\ related s' (atomic_run sched' a).
Proof.
  induction sched as [|i sched IH]; intros s a R; [by exists s, []|].
  destruct (step_related s a i R) as (s1 & l1 & E1 & R1 & _). destruct (IH s1 _ R1) as (s2 & l2 & E2 & R2).
  exists s2, (l1 ++ l2). rewrite atomic_run_app. split; [|done]. cbn. by step_with E1.
Qed.

(** Without a locked guard the system is in the state of the specification. *)
Lemma related_unlocked s a : related s a -> unlocked s -> a = (s_data s, s_clients s).
Proof.
  intros R Hu. apply injective_projections; cbn; [apply (rel_free s a R); by apply unlocked_sums|].
  rewrite (rel_clients s a R). apply list_eq. intros j. rewrite list_lookup_fmap.
  destruct (s_clients s !! j) as [c|] eqn:Ej; [|done]. cbn. unfold committed.
  assert (holding c = false) as ->; [|done]. by eapply (Forall_lookup_1 _ _ j c Hu).
Qed.

(** Clients that have not begun. *)
Definition starting (c : Client) : Prop := t_guard c = None /\ forall v sc, t_next c v = Some sc -> scope_ok sc.

Lemma starting_related t d clients : holds 0 0 t -> Forall starting clients -> related (mkSys t d clients) (d, clients).
Proof.
  intros Ht Hs. rewrite list.Forall_forall in Hs.
  assert (Hz : forall c, c ∈ clients -> shared c = 0 /\ exclusive c = 0 /\ holding c = false).
  { intros c Hc. destruct (Hs c Hc) as [Hg _]. unfold shared, exclusive, holding. by rewrite Hg. }
  assert (sum_list_with shared clients = 0) as Es by (apply sum_zero; intros; by apply Hz).
  assert (sum_list_with exclusive clients = 0) as Ex by (apply sum_zero; intros; by apply Hz).
  constructor; cbn; rewrite ?Es, ?Ex; try done.
  - apply list.Forall_forall. intros c Hc. destruct (Hs c Hc) as [Hg Hr]. split; [by rewrite Hg|done].
  - by left.
  - symmetry. apply list_eq. intros j. rewrite list_lookup_fmap. destruct (clients !! j) as [c|] eqn:Ej; [|done]. cbn.
    unfold committed. by destruct (Hz c (list_elem_of_lookup_2 _ _ _ Ej)) as (_ & _ & ->).
  - intros j c Ej He. destruct (Hz c (list_elem_of_lookup_2 _ _ _ Ej)) as (_ & ? & _). lia.
Qed.

Lemma related_excludes s a i j c c' :
  related s a -> i <> j -> s_clients s !! i = Some c -> s_clients s !! j = Some c' -> holding c = true -> holding c' = true ->
  exclusive c = 0 /\ exclusive c' = 0.
Proof.
  intros R Hij Ei Ej Hc Hc'. apply holding_count in Hc, Hc'.
  pose proof (sum_two exclusive _ _ _ _ _ Hij Ei Ej). pose proof (sum_two shared _ _ _ _ _ Hij Ei Ej).
  destruct (rel_excl s a R) as [|[]]; lia.
Qed.

Lemma related_progress s a :
  related s a -> ~ Forall done_ (s_clients s) -> exists i c s', s_clients s !! i = Some c /\ ~ done_ c /\ step i s = Ret tt s' /\ proceeds i c s'.
Proof.
  intros R Hn.
  assert (exists i c, s_clients s !! i = Some c /\ ~ done_ c /\ (holding c = true \/ unlocked s)) as (i & c & Ei & Hd & Hu).
  { destruct (decide (unlocked s)) as [Hu|Hu].
    - apply list.not_Forall_Exists in Hn; [|intros c; unfold done_; apply _].
      apply list.Exists_exists in Hn as (c & Hc & Hd). apply list_elem_of_lookup in Hc as [i Ei]. exists i, c. auto.
    - apply list.not_Forall_Exists in Hu; [|intros c; apply _].
      apply list.Exists_exists in Hu as (c & Hc & Hh). apply list_elem_of_lookup in Hc as [i Ei]. exists i, c.
      apply not_false_is_true in Hh. split; [done|]. split; [|by left]. intros [Hg _]. unfold holding in Hh. by rewrite Hg in Hh. }
  destruct (step_related s a i R) as (s' & sched & E & _ & Hm). exists i, c, s'. split; [done|]. split; [done|]. split; [done|].
  destruct (Hm c Ei) as [?|[[Hh Hnu]|?]]; [done| |done]. destruct Hu as [Hu|Hu]; [congruence|done].
Qed.

(** C38: clients that access shared data under guards of one lock: in every
    interleaving of any number of clients that access the data only while the guard
    is locked, and change it only under a guard that is not shared, (1) no call is
    undefined, so that no guard unlocks a lock it has not taken, (2) a guard that is
    locked exclusively excludes every other, (3) whenever no guard is locked, data
    and clients are as some order of whole sections leaves them, each executed from
    taking the lock to giving it up without interruption, and (4) unless all are
    finished some client can go on. *)
Theorem sections_atomic (t : T) (d : D) (clients : list Client) (sched : list nat) :
  holds 0 0 t -> Forall starting clients ->
  exists s, run sched (mkSys t d clients) = Ret tt s /\
  (forall i j c c', i <> j -> s_clients s !! i = Some c -> s_clients s !! j = Some c' ->
     holding c = true -> holding c' = true -> exclusive c = 0 /\ exclusive c' = 0) /\
  (unlocked s -> exists order, atomic_run order (d, clients) = (s_data s, s_clients s)) /\
  (Forall done_ (s_clients s) \/
   exists i c s', s_clients s !! i = Some c /\ ~ done_ c /\ step i s = Ret tt s' /\ proceeds i c s').
Proof.
  intros Ht Hs. destruct (run_related sched _ _ (starting_related t d clients Ht Hs)) as (s & order & E & R).
  exists s. split; [done|]. split; [|split].
  - intros i j c c'. by apply (related_excludes s (atomic_run order (d, clients))).
  - intros Hu. exists order. by apply related_unlocked.
  - destruct (decide (Forall done_ (s_clients s))) as [|Hn]; [by left|right]. by eapply related_progress.
Qed.
End clients.

(** ** A counter under a CASLock, and under a read-write lock *)

(** Variables: what was read, and the number of writes. *)
Definition read_counter : call nat (nat * nat) := Access (fun d v => (d, (d, snd v))).
Definition write_counter : call nat (nat * nat) := Access (fun d v => (S (fst v), (fst v, S (snd v)))).
(** Adds one, gives up the lock and takes it again, and adds one more. *)
Definition add_twice : scope nat (nat * nat) :=
  mkScope Exclusive [read_counter; write_counter; GuardUnlock; GuardUnlock; GuardLock; GuardLock; read_counter; write_counter].
Definition once (sc : scope nat (nat * nat)) : Client nat (nat * nat) :=
  mkClient None [] (fun v => if snd v =? 0 then Some sc else None) (0, 0).
Definition demo_clients : list (Client nat (nat * nat)) := [once add_twice; once add_twice].
(** The second client attempts to take the lock while the first is between its read
    and its write, and takes it when it is given up. *)
Definition demo_sched : list nat := [0; 0; 1; 0; 1; 0; 1; 0; 0; 1; 1; 1; 0; 0; 0; 0; 0; 0; 1; 1; 1; 1; 1; 1].

Lemma demo_starting : Forall starting demo_clients.
Proof.
  assert (H : starting (once add_twice)).
  { split; [done|]. cbn. intros v sc. destruct (snd v =? 0); [|done]. intros [= <-]. split; [done|]. cbn. intuition discriminate. }
  constructor; [exact H|constructor; [exact H|constructor]].
Qed.

Lemma sections_atomic_witness :
  holds 0 0 CASLock.new /\ Forall starting demo_clients /\
  exists s, run demo_sched (mkSys CASLock.new 0 demo_clients) = Ret tt s /\
  (unlocked s -> exists order, atomic_run order (0, demo_clients) = (s_data s, s_clients s)).
Proof.
  assert (Ht : holds 0 0 CASLock.new) by done. split; [exact Ht|]. split; [exact demo_starting|].
  destruct (sections_atomic CASLock.new 0 demo_clients demo_sched Ht demo_starting) as (s & E & _ & Ha & _).
  exists s. split; [exact E|exact Ha].
Defined.

Example demo_counts :
  exists s, run demo_sched (mkSys CASLock.new 0 demo_clients) = Ret tt s /\ s_data s = 4 /\ s_lock s = false /\
  Forall done_ (s_clients s).
Proof. eexists. split; [vm_compute; reflexivity|]. split; [done|]. split; [done|]. by repeat constructor. Qed.

(** The locks of pthread as far as they decide who may go on: a flag, and the number
    of readers with a flag for the writer. *)
Definition DemoPthread : Pthread := {|
  mutex_t := bool; pthread_mutex_lock := CASLock.lock; pthread_mutex_unlock := CASLock.unlock;
  rwlock_t := nat * bool;
  pthread_rwlock_rdlock s := if snd s then Ret false s else Ret true (S (fst s), false);
  pthread_rwlock_wrlock s := if snd s || negb (fst s =? 0) then Ret false s else Ret true (0, true);
  pthread_rwlock_unlock s := if snd s then Ret tt (0, false) else Ret tt (pred (fst s), false);
  spinlock_t := bool; pthread_spin_lock := CASLock.lock; pthread_spin_unlock := CASLock.unlock
|}.
#[export] Instance DemoRW : Lockable (nat * bool) := @RWMutex_Lockable DemoPthread.
#[export] Program Instance DemoRW_laws : LockLaws (nat * bool) := {
  holds r w s := s = (r, bool_decide (w = 1)) /\ (w = 0 \/ (w = 1 /\ r = 0))
}.
Next Obligation.
  intros k r w s _ [-> [->|[-> ->]]]; [|destruct k; eexists _, _; (split; [reflexivity|repeat split; auto])].
  destruct k; [destruct r|]; eexists _, _; (split; [reflexivity|repeat split; auto]).
Qed.
Next Obligation. intros k s _ [-> _]. destruct k; by eexists. Qed.
Next Obligation. intros r s [-> _]. eexists. split; [reflexivity|split; auto]. Qed.
Next Obligation. intros s [-> _]. eexists. split; [reflexivity|split; auto]. Qed.

(** Under a shared guard both read before one writes, and one addition is lost. *)
Example shared_guards_lose :
  let c := once (mkScope Shared [read_counter; write_counter]) in
  exists s, run [0; 1; 0; 1; 0; 1] (mkSys (0, false) 0 [c; c]) = Ret tt s /\ s_data s = 1.
Proof. eexists. split; [vm_compute; reflexivity|done]. Qed.
