(* ===== verification/FdThreads.v ===== *)
(** Threads that use one FdManager: its methods under the guards of its RWMutex, as
    Locks has them, refine the calls of a map that are not interrupted. *)
From S2P Require Import Prelude.
From stdpp Require Import list gmap.
From S2P Require Import Locks LocksThms FdManager FdThms.
Open Scope Z_scope.

(** The calls of FdMgr::get and FdMgr::del. *)
Inductive fd_call := CGet (fd : Z) (auto_create : bool) | CDel (fd : Z).

(** What a thread still has to call, whether it is between the two critical sections
    of [get], the answers it had, and whether a call did not return. *)
Record Caller := mkCaller {
  todo : list fd_call;
  write_next : bool;
  answers : list (option nat);
  failed : bool
}.
Definition Caller_new (calls : list fd_call) : Caller := mkCaller calls false [] false.
Definition answer (r : option nat) (v : Caller) : Caller := mkCaller (tail (todo v)) false (answers v ++ [r]) (failed v).
Definition to_write (v : Caller) : Caller := mkCaller (todo v) true (answers v) (failed v).
Definition fail (v : Caller) : Caller := mkCaller (todo v) (write_next v) (answers v) true.

(** ** The threads with their guards *)
Section threads.
Context {T K : Type} `{LockLaws T} `{FdKernel K}.

Definition on_fds {A} (m : M (FdManager K) A) (k : A -> Caller -> Caller) : call (FdManager K) Caller :=
  Access (fun s v => match m s with Ret a s' => (s', k a v) | Throw _ s' => (s', fail v) | Crash _ => (s, fail v) end).

(** [get] takes the lock shared, and again exclusively if it has to make a context,
    when the first guard is unlocked and does nothing more; [del] takes it exclusively. *)
Definition fd_next (v : Caller) : option (scope (FdManager K) Caller) :=
  if failed v then None else
  match todo v with
  | [] => None
  | CGet fd auto :: _ =>
    if write_next v then Some (mkScope Exclusive [on_fds (get_write fd) answer])
    else Some (mkScope Shared [on_fds (get_read fd auto) (fun r => match r with Some c => answer c | None => to_write end)])
  | CDel fd :: _ => Some (mkScope Exclusive [on_fds (del fd) (fun _ => answer None)])
  end.
Definition fd_client (calls : list fd_call) : Client (FdManager K) Caller := mkClient None [] fd_next (Caller_new calls).

(** ** The specification: a map, and calls that are not interrupted *)
Definition spec_call (i : nat) (st : fd_map * list Caller) : fd_map * list Caller :=
  match st.2 !! i with
  | None => st
  | Some v =>
    match todo v with
    | [] => st
    | CGet fd auto :: _ =>
      if write_next v then ((spec_write fd st.1).2, <[i := answer (spec_write fd st.1).1 v]> st.2)
      else match spec_read fd auto st.1 with
           | Some c => (st.1, <[i := answer c v]> st.2)
           | None => (st.1, <[i := to_write v]> st.2)
           end
    | CDel fd :: _ => ((delete fd st.1.1, st.1.2), <[i := answer None v]> st.2)
    end
  end.
Fixpoint spec_calls (order : list nat) (st : fd_map * list Caller) : fd_map * list Caller :=
  match order with [] => st | i :: order => spec_calls order (spec_call i st) end.

(** ** The refinement *)

Definition fd_call_ok (c : fd_call) : Prop := match c with CGet fd _ => -1 <= fd | CDel fd => 0 <= fd end.
Definition caller_ok (v : Caller) : Prop :=
  failed v = false /\ Forall fd_call_ok (todo v) /\
  (write_next v = true -> exists fd auto l, todo v = CGet fd auto :: l /\ 0 <= fd).

Lemma get_read_keeps fd auto (s : FdManager K) : exists o, get_read fd auto s = Ret o s \/ exists c, get_read fd auto s = Crash c.
Proof.
  unfold get_read. destruct (fd =? -1); [exists (Some None); by left|]. step_with (eq_refl : get s = Ret s s).
  destruct (zlen (m_datas s) <=? fd); [destruct auto; [by exists None; left|by exists (Some None); left]|].
  unfold data_at, mbind, M_bind. cbn. destruct (_ && _); cbn; [|exists None; right; by eexists].
  destruct (bool_decide _ || negb auto); eexists; by left.
Qed.

Hypothesis Hkinds : supported (T := T) Exclusive = true /\ supported (T := T) Shared = true.

Lemma fd_next_ok v sc : fd_next v = Some sc -> scope_ok (T := T) sc.
Proof.
  destruct Hkinds as [He Hs]. unfold fd_next. destruct (failed v); [done|]. destruct (todo v) as [|[fd auto|fd] l]; [done|..].
  - destruct (write_next v); intros [= <-]; (split; [done|]); cbn; [by intuition|]. split; [done|]. split; [|done].
    intros _ d w. by destruct (get_read_keeps fd auto d) as [o [-> |[c ->]]].
  - intros [= <-]. split; [done|]. cbn. by intuition.
Qed.

(** The clients between two steps of the specification of Locks. *)
Record fd_related (st : FdManager K * list (Client (FdManager K) Caller)) (sp : fd_map * list Caller) : Prop := {
  fr_map : fd_rel st.1 sp.1;
  fr_callers : map t_local st.2 = sp.2;
  fr_shape : Forall (fun c => t_next c = fd_next /\ t_calls c = [] /\ caller_ok (t_local c)) st.2
}.

Lemma update_caller i (cs : list (Client (FdManager K) Caller)) c c' :
  cs !! i = Some c -> map t_local (<[i := c']> cs) = <[i := t_local c']> (map t_local cs).
Proof. intros _. apply list_fmap_insert. Qed.

(** One critical section, or a step outside. *)
Lemma fd_atomic i st sp : fd_related st sp -> exists order, fd_related (atomic_step i st) (spec_calls order sp).
Proof.
  intros [Rm Rc Rs]. unfold atomic_step. destruct st as [d cs], sp as [a vs]. cbn [fst snd] in *.
  destruct (cs !! i) as [c|] eqn:Ei; [|by exists []].
  pose proof (Forall_lookup_1 _ _ _ _ Rs Ei) as (Hn & Hcalls & Hok).
  assert (Ev : vs !! i = Some (t_local c)) by (rewrite <- Rc, list_lookup_fmap, Ei; done).
  assert (Hsame : forall c', t_next c' = fd_next -> t_calls c' = [] -> t_local c' = t_local c ->
    fd_related (d, <[i := c']> cs) (a, vs)).
  { intros c' Hn' Hcalls' Hl. constructor; cbn [fst snd]; [done| |].
    - rewrite (update_caller i cs c c' Ei), Hl, Rc. by apply list_insert_id.
    - apply Forall_insert; [done|]. by rewrite Hl. }
  assert (Hmove : forall d' v' c' a', fd_rel d' a' -> caller_ok v' -> t_next c' = fd_next -> t_calls c' = [] -> t_local c' = v' ->
    fd_related (d', <[i := c']> cs) (a', <[i := v']> vs)).
  { intros d' v' c' a' Hr Hv Hn' Hcalls' Hl. constructor; cbn [fst snd]; [done| |].
    - by rewrite (update_caller i cs c c' Ei), Hl, Rc.
    - apply Forall_insert; [done|]. by rewrite Hl. }
  destruct c as [g cl nx v]. cbn [t_next t_calls t_local] in *. subst nx cl.
  unfold entered. cbn [t_guard t_calls t_next t_local]. destruct g as [[k []]|]; [exists []; by apply Hsame..|].
  destruct (fd_next v) as [sc|] eqn:En; [|exists []; by apply Hsame].
  exists [i]. cbn [spec_calls]. unfold spec_call. cbn [fst snd]. rewrite Ev.
  unfold fd_next in En. destruct Hok as (Hfl & Htodo & Hw). rewrite Hfl in En.
  destruct (todo v) as [|[fd auto|fd] l] eqn:Et; [done|..]; apply list.Forall_cons in Htodo as [Hfd Htodo]; cbn in Hfd.
  - destruct (write_next v) eqn:Ew.
    + destruct (Hw eq_refl) as (fd' & auto' & l' & [= <- <- <-] & Hpos). injection En as <-.
      destruct (get_write_run d a fd Rm Hpos) as (d' & E & R'). unfold finish_data, finish_client. cbn. rewrite E. cbn.
      apply Hmove; try done. split; [done|]. cbn. by rewrite Et.
    + injection En as <-. unfold finish_data, finish_client. cbn. rewrite (get_read_run d a fd auto Rm Hfd).
      destruct (spec_read fd auto a) as [r|] eqn:Er; cbn.
      * apply Hmove; try done. split; [done|]. cbn. by rewrite Et.
      * apply Hmove; try done. split; [done|]. cbn. rewrite Et. split; [by constructor|]. intros _.
        exists fd, auto, l. split; [done|]. unfold spec_read in Er. destruct (Z.eqb_spec fd (-1)); [done|lia].
  - injection En as <-. destruct (del_run d a fd Rm Hfd) as (d' & E & R'). unfold finish_data, finish_client. cbn. rewrite E. cbn.
    apply Hmove; try done. split; [done|]. cbn. by rewrite Et.
Qed.

Lemma spec_calls_app l1 : forall l2 sp, spec_calls (l1 ++ l2) sp = spec_calls l2 (spec_calls l1 sp).
Proof. induction l1 as [|i l1 IH]; intros l2 sp; [done|apply IH]. Qed.

Lemma fd_atomic_run order : forall st sp, fd_related st sp ->
  exists order', fd_related (atomic_run order st) (spec_calls order' sp).
Proof.
  induction order as [|i order IH]; intros st sp R; [by exists []|].
  destruct (fd_atomic i st sp R) as [o1 R1]. destruct (IH _ _ R1) as [o2 R2]. exists (o1 ++ o2). by rewrite spec_calls_app.
Qed.

Lemma fd_related_new calls k :
  Forall (Forall fd_call_ok) calls ->
  fd_related (FdManager_new k, map fd_client calls) ((∅, O), map Caller_new calls).
Proof.
  intros Hc. constructor; cbn [fst snd].
  - apply fd_rel_new.
  - by rewrite map_map.
  - apply list.Forall_fmap. eapply Forall_impl; [exact Hc|]. intros l Hl. by repeat split.
Qed.

(** C40: threads that call FdMgr::get and FdMgr::del under the RWMutex of the class:
    whatever the lock and the guards interleave them to, no call is undefined or
    leaves the table, and whenever no guard is locked the table is the map, and each
    thread has the answers, of an execution in which a call is one step of a map
    from descriptors to contexts, but for a [get] that has to make a context: it
    finds in one step that there is none and makes it in another.  As long as not all
    threads are finished one can go on. *)
Theorem fd_threads (t : T) (k : K) (calls : list (list fd_call)) (sched : list nat) :
  holds 0 0 t -> Forall (Forall fd_call_ok) calls ->
  exists s, run sched (mkSys t (FdManager_new k) (map fd_client calls)) = Ret tt s /\
  (unlocked s -> exists order a vs, spec_calls order ((∅, O), map Caller_new calls) = (a, vs) /\
     map t_local (s_clients s) = vs /\ Forall (fun v => failed v = false) vs /\
     forall fd, 0 <= fd -> mjoin (m_datas (s_data s) !! Z.to_nat fd) = a.1 !! fd) /\
  (Forall done_ (s_clients s) \/
   exists i c s', s_clients s !! i = Some c /\ ~ done_ c /\ step i s = Ret tt s' /\ proceeds i c s').
Proof.
  intros Ht Hc.
  assert (Hs : Forall starting (map fd_client calls)).
  { apply list.Forall_fmap, list.Forall_true. intros l. split; [done|]. intros v sc. apply fd_next_ok. }
  destruct (run_related sched _ _ (starting_related t (FdManager_new k) _ Ht Hs)) as (s & order & E & R).
  exists s. split; [done|]. split.
  - intros Hu. destruct (fd_atomic_run order _ _ (fd_related_new calls k Hc)) as [order' R'].
    rewrite (related_unlocked s _ R Hu) in R'. destruct R' as [Rm Rc Rs]. cbn [fst snd] in *.
    destruct (spec_calls order' _) as [a vs] eqn:Es. cbn [fst snd] in *. exists order', a, vs. split_and!; [done|done| |].
    + rewrite <- Rc. apply list.Forall_fmap. eapply Forall_impl; [exact Rs|]. by intros c (_ & _ & ? & _).
    + intros fd Hfd. rewrite (rel_table _ _ Rm). by rewrite Z2Nat.id by lia.
  - destruct (decide (Forall done_ (s_clients s))) as [|Hn]; [by left|right]. by eapply related_progress.
Qed.
End threads.

(** ** Two threads that ask for the same descriptor at once *)

Definition demo_calls : list (list fd_call) := [[CGet 70 true; CGet 70 false]; [CGet 70 true; CDel 5; CGet (-1) true]].
(** Both read before either writes. *)
Definition demo_fd_sched : list nat :=
  [0; 1; 0; 1; 0; 1; 0; 1; 0; 0; 1; 1; 1; 0; 0; 0; 1; 1; 1; 1; 1; 1; 0; 0; 0]%nat.

Lemma fd_threads_witness :
  holds (T := nat * bool) 0 0 (0%nat, false) /\ Forall (Forall fd_call_ok) demo_calls /\
  exists s, run demo_fd_sched (mkSys (0%nat, false) (FdManager_new (∅ : gmap Z Z)) (map fd_client demo_calls)) = Ret tt s /\
  (unlocked s -> exists order a vs, spec_calls order ((∅, O), map Caller_new demo_calls) = (a, vs) /\ map t_local (s_clients s) = vs).
Proof.
  assert (Ht : holds (T := nat * bool) 0 0 (0%nat, false)) by (split; [done|by left]).
  assert (Hc : Forall (Forall fd_call_ok) demo_calls) by (repeat constructor; cbn; lia).
  assert (Hk : supported (T := nat * bool) Exclusive = true /\ supported (T := nat * bool) Shared = true) by done.
  split; [exact Ht|]. split; [exact Hc|].
  destruct (fd_threads Hk (0%nat, false) ∅ demo_calls demo_fd_sched Ht Hc) as (s & E & Hu & _).
  exists s. split; [exact E|]. intros Hul. destruct (Hu Hul) as (order & a & vs & Es & Ev & _).
  exists order, a, vs. exact (conj Es Ev).
Defined.

(** Each thread has a context of its own, and the table keeps the second: what is set
    in the first, as by fcntl, is lost. *)
Definition answers_of {K} `{FdKernel K} (s : outcome (Sys (nat * bool) (FdManager K) Caller) unit) : option (list (list (option nat))) :=
  match s with Ret _ s => Some (map (fun c => answers (t_local c)) (s_clients s)) | _ => None end.
Example two_contexts :
  answers_of (run demo_fd_sched (mkSys (0%nat, false) (FdManager_new (∅ : gmap Z Z)) (map fd_client demo_calls)))
    = Some [[Some 0%nat; Some 1%nat]; [Some 1%nat; None; None]].
Proof. vm_compute. reflexivity. Qed.
