(* ===== verification/Thread.v ===== *)
(** linko/thread.{h,cc}, the Semaphore of linko/mutex.{h,cc} and linko/util.cc: the
    making of a thread, interleaved with the thread that is made.

    The state is one Thread object with the thread that owns it and the one it runs.
    The owner makes the object, calls its methods and destroys it; a step of either
    thread is an access to the object or to thread-local data.  The object is [None]
    before it is made and after it is destroyed. *)
From S2P Require Import Prelude.

(** ** Semaphore: its counter *)
Definition SEM_VALUE_MAX : Z := 2 ^ 31 - 1.
Definition Semaphore_new (count : Z) : Z := count.
(** [false]: the caller waits.  A signal interrupts sem_wait. *)
Definition Semaphore_wait (interrupted : bool) : M Z bool :=
  if interrupted then throw (logic_error "sem_wait error")
  else count ← get; if 0 <? count then put (count - 1);; mret true else mret false.
Definition Semaphore_notify : M Z unit :=
  count ← get; if count <? SEM_VALUE_MAX then put (count + 1) else throw (logic_error "sem_post error").

(** ** The object *)

(** What a callback does with its thread: the static functions of Thread. *)
Inductive cb_op := CbSetName (name : bytes) | CbGetName.
Abbreviation callback := (option (list cb_op)).

Record Thread := mkThread {
  m_id : Z;
  m_thread : Z;
  m_cb : callback;
  m_name : bytes;
  m_semaphore : Z
}.

Definition t_set_id v t := mkThread v (m_thread t) (m_cb t) (m_name t) (m_semaphore t).
Definition t_set_thread v t := mkThread (m_id t) v (m_cb t) (m_name t) (m_semaphore t).
Definition t_set_cb v t := mkThread (m_id t) (m_thread t) v (m_name t) (m_semaphore t).
Definition t_set_name v t := mkThread (m_id t) (m_thread t) (m_cb t) v (m_semaphore t).
Definition t_set_semaphore v t := mkThread (m_id t) (m_thread t) (m_cb t) (m_name t) v.

Definition Thread_init (cb : callback) (name : bytes) : Thread :=
  mkThread (-1) 0 cb (if bool_decide (name = []) then bs "UNKNOW" else name) (Semaphore_new 0).

(** [join] with the answer of pthread_join. *)
Definition Thread_join (rt : Z) : M Thread unit :=
  t ← get;
  if negb (m_thread t =? 0) then
    if negb (rt =? 0) then throw (logic_error "pthread_join error") else put (t_set_thread 0 t)
  else mret tt.
(** The destructor: whether the thread is detached. *)
Definition Thread_delete (t : Thread) : bool := negb (m_thread t =? 0).

(** ** The two threads *)

Inductive owner_op := Join | GetId | GetName.
Inductive OwnerPc :=
| Creating
| Waiting
| Constructed (ops : list owner_op)
| Finished (e : option exn).

(** The place [Thread::run] has reached: about to execute the statement named. *)
Inductive RunPc :=
| NotStarted
| R_this | R_name | R_id | R_setname | R_swap
| R_notify (cb : callback)
| R_call (cb : callback)
| R_cb (ops : list cb_op)
| R_return.

Record World := mkWorld {
  object : option Thread;
  owner : OwnerPc;
  child : RunPc;
  t_thread : bool;
  t_thread_name : bytes;
  kernel_name : bytes;
  called : nat;
  ids : list Z;
  names : list bytes;
  is_detached : bool
}.

Definition w_object v w := mkWorld v (owner w) (child w) (t_thread w) (t_thread_name w) (kernel_name w) (called w) (ids w) (names w) (is_detached w).
Definition w_owner v w := mkWorld (object w) v (child w) (t_thread w) (t_thread_name w) (kernel_name w) (called w) (ids w) (names w) (is_detached w).
Definition w_child v w := mkWorld (object w) (owner w) v (t_thread w) (t_thread_name w) (kernel_name w) (called w) (ids w) (names w) (is_detached w).
Definition w_thread v w := mkWorld (object w) (owner w) (child w) v (t_thread_name w) (kernel_name w) (called w) (ids w) (names w) (is_detached w).
Definition w_thread_name v w := mkWorld (object w) (owner w) (child w) (t_thread w) v (kernel_name w) (called w) (ids w) (names w) (is_detached w).
Definition w_kernel_name v w := mkWorld (object w) (owner w) (child w) (t_thread w) (t_thread_name w) v (called w) (ids w) (names w) (is_detached w).
Definition w_called v w := mkWorld (object w) (owner w) (child w) (t_thread w) (t_thread_name w) (kernel_name w) v (ids w) (names w) (is_detached w).
Definition w_ids v w := mkWorld (object w) (owner w) (child w) (t_thread w) (t_thread_name w) (kernel_name w) (called w) v (names w) (is_detached w).
Definition w_names v w := mkWorld (object w) (owner w) (child w) (t_thread w) (t_thread_name w) (kernel_name w) (called w) (ids w) v (is_detached w).
Definition w_detached v w := mkWorld (object w) (owner w) (child w) (t_thread w) (t_thread_name w) (kernel_name w) (called w) (ids w) (names w) v.

(** An access to the object. *)
Definition on_object {A} (m : M Thread A) : M World A := fun w =>
  match object w with
  | None => Crash UseAfterFree
  | Some t =>
    match m t with
    | Ret a t' => Ret a (w_object (Some t') w)
    | Throw e t' => Throw e (w_object (Some t') w)
    | Crash c => Crash c
    end
  end.
Definition on_semaphore {A} (m : M Z A) : M Thread A := fun t =>
  match m (m_semaphore t) with
  | Ret a n => Ret a (t_set_semaphore n t)
  | Throw e n => Throw e (t_set_semaphore n t)
  | Crash c => Crash c
  end.

(** What the system answers: the result of pthread_create with the handle, and the id
    of the new thread. *)
Class System := { create_result : Z; handle : Z; new_tid : Z }.

Section world.
Context `{System} (cb : callback) (name : bytes) (ops : list owner_op).

(** An exception leaves the constructor: the members are destroyed. *)
Definition constructor_throws (e : exn) : M World unit :=
  modify (w_object None ∘ w_owner (Finished (Some e))).

(** The constructor up to the call of pthread_create. *)
Definition Thread_create : M World unit :=
  modify (w_object (Some (Thread_init cb name)));;
  if negb (create_result =? 0) then constructor_throws (logic_error "pthread_create error")
  else on_object (modify (t_set_thread handle));; modify (w_child R_this ∘ w_owner Waiting).
(** The end of the constructor. *)
Definition Thread_wait (interrupted : bool) : M World unit := fun w =>
  match on_object (on_semaphore (Semaphore_wait interrupted)) w with
  | Ret true w => Ret tt (w_owner (Constructed ops) w)
  | Ret false w => Ret tt w
  | Throw e w => constructor_throws e w
  | Crash c => Crash c
  end.

Definition owner_step (interrupted : bool) : M World unit :=
  w ← get;
  match owner w with
  | Creating => Thread_create
  | Waiting => Thread_wait interrupted
  | Constructed [] =>
    t ← on_object get;
    modify (w_owner (Finished None) ∘ w_object None ∘ w_detached (Thread_delete t))
  | Constructed (Join :: ops) =>
    t ← on_object get;
    match child w, m_thread t =? 0 with
    | R_return, _ | _, true => on_object (Thread_join 0);; modify (w_owner (Constructed ops))
    | _, false => mret tt
    end
  | Constructed (GetId :: ops) =>
    t ← on_object get; modify (w_owner (Constructed ops) ∘ w_ids (ids w ++ [m_id t]))
  | Constructed (GetName :: ops) =>
    t ← on_object get; modify (w_owner (Constructed ops) ∘ w_names (names w ++ [m_name t]))
  | Finished _ => mret tt
  end.

(** [Thread::SetName] and [Thread::GetName] in the new thread. *)
Definition SetName (name : bytes) : M World unit :=
  w ← get;
  (if t_thread w then on_object (modify (t_set_name name)) else mret tt);;
  modify (w_thread_name name).
Definition cb_step (op : cb_op) : M World unit :=
  match op with
  | CbSetName name => SetName name
  | CbGetName => w ← get; modify (w_names (names w ++ [t_thread_name w]))
  end.

(** [Thread::run]. *)
Definition child_step : M World unit :=
  w ← get;
  match child w with
  | NotStarted | R_return => mret tt
  | R_this => modify (w_child R_name ∘ w_thread true)
  | R_name => t ← on_object get; modify (w_child R_id ∘ w_thread_name (m_name t))
  | R_id => on_object (modify (t_set_id new_tid));; modify (w_child R_setname)
  | R_setname => t ← on_object get; modify (w_child R_swap ∘ w_kernel_name (c_str (take 15 (m_name t))))
  | R_swap => t ← on_object get; on_object (modify (t_set_cb None));; modify (w_child (R_notify (m_cb t)))
  | R_notify f => on_object (on_semaphore Semaphore_notify);; modify (w_child (R_call f))
  | R_call None => crash_with (AssertFail "std::bad_function_call")
  | R_call (Some l) => modify (w_child (R_cb l) ∘ w_called (S (called w)))
  | R_cb [] => modify (w_child R_return)
  | R_cb (op :: l) => cb_step op;; modify (w_child (R_cb l))
  end.

Inductive turn := Owner (interrupted : bool) | Child.
Definition turn_step (x : turn) : M World unit :=
  match x with Owner interrupted => owner_step interrupted | Child => child_step end.
Fixpoint run_turns (l : list turn) : M World unit :=
  match l with [] => mret tt | x :: l => turn_step x;; run_turns l end.
End world.

Definition World_new : World := mkWorld None Creating NotStarted false (bs "UNKNOW") [] 0 [] [] false.

(** ** linko/util.cc *)

(** The two clocks, from what gettimeofday stores. *)
Definition GetCurrentMS (tv_sec tv_usec : Z) : Z := u64 (u64 (tv_sec * 1000) + Z.quot tv_usec 1000).
Definition GetCurrentUS (tv_sec tv_usec : Z) : Z := u64 (u64 (tv_sec * 1000 * 1000) + tv_usec).

(** [Backtrace]: the texts backtrace_symbols has for the frames, from [skip] on. *)
Definition Backtrace (bt : list bytes) (strings : option (list bytes)) (skip : Z) : list bytes :=
  match strings with
  | None => bt
  | Some l => bt ++ drop (Z.to_nat (u64 skip)) l
  end.
Definition BacktraceToString (strings : option (list bytes)) (skip : Z) (prefix : bytes) : bytes :=
  concat (map (fun s => prefix ++ s ++ bs "
") (Backtrace [] strings skip)).
