(* ===== verification/ThreadThms.v ===== *)
(** When the constructor of Thread has returned, the new thread is ready: its id is
    known and it needs the object no more. *)
From S2P Require Import Prelude Thread.

Section threads.
Context `{System} (l : list cb_op) (name : bytes) (ops : list owner_op).

Definition sets_name (l : list cb_op) : bool := existsb (fun o => match o with CbSetName _ => true | _ => false end) l.
Definition joins (l : list owner_op) : bool := existsb (fun o => match o with Join => true | _ => false end) l.

(** The new thread has notified the constructor. *)
Definition notified (c : RunPc) : bool := match c with R_call _ | R_cb _ | R_return => true | _ => false end.

(** What the new thread has done to the object. *)
Definition prepared (t : Thread) (c : RunPc) : Prop :=
  match c with
  | NotStarted => False
  | R_this | R_name | R_id => m_cb t = Some l
  | R_setname | R_swap => m_cb t = Some l /\ m_id t = new_tid
  | R_notify f => f = Some l /\ m_cb t = None /\ m_id t = new_tid
  | _ => m_cb t = None /\ m_id t = new_tid
  end.

Definition child_ok (w : World) : Prop :=
  match child w with
  | R_call f => f = Some l /\ called w = 0%nat
  | R_cb l' => (sets_name l = false -> sets_name l' = false) /\ called w = 1%nat
  | R_return => called w = 1%nat
  | _ => called w = 0%nat
  end.

Definition owner_ok (w : World) : Prop :=
  match owner w with
  | Creating => w = World_new
  | Waiting => exists t, object w = Some t /\ m_thread t = handle /\ prepared t (child w) /\
      m_semaphore t = (if notified (child w) then 1 else 0)
  | Constructed o => exists t, object w = Some t /\ prepared t (child w) /\ notified (child w) = true /\ m_semaphore t = 0 /\
      (m_thread t = 0 -> child w = R_return) /\ (joins ops = true -> joins o = false -> child w = R_return)
  | Finished None => object w = None /\ notified (child w) = true /\ (joins ops = true -> child w = R_return)
  | Finished (Some e) => object w = None /\ child w = NotStarted /\ create_result <> 0
  end.

Record ok (w : World) : Prop := {
  ok_child : child_ok w;
  ok_owner : owner_ok w;
  ok_ids : Forall (eq new_tid) (ids w)
}.

(** The steps left. *)
Definition child_left (c : RunPc) : nat :=
  match c with
  | NotStarted => 10 + length l
  | R_this => 9 + length l | R_name => 8 + length l | R_id => 7 + length l | R_setname => 6 + length l
  | R_swap => 5 + length l | R_notify _ => 4 + length l | R_call _ => 3 + length l
  | R_cb l' => 1 + length l' | R_return => 0
  end%nat.
Definition owner_left (o : OwnerPc) : nat :=
  match o with Creating => 3 + length ops | Waiting => 2 + length ops | Constructed o => 1 + length o | Finished _ => 0 end%nat.
Definition steps_left (w : World) : nat := (child_left (child w) + owner_left (owner w))%nat.
Definition all_done (w : World) : Prop :=
  exists e, owner w = Finished e /\ (child w = R_return \/ child w = NotStarted).

Hypothesis Hname : joins ops = true \/ sets_name l = false.

(** An access of the new thread to the object, which is there as long as it has not
    notified the constructor. *)
Lemma object_there w : ok w -> child w <> NotStarted -> notified (child w) = false ->
  exists t, object w = Some t /\ owner w = Waiting /\ m_thread t = handle /\ prepared t (child w) /\ m_semaphore t = 0.
Proof.
  intros [_ Ho _] Hc Hn. unfold owner_ok in Ho. destruct (owner w) as [| |o|[e|]].
  - by rewrite Ho in Hc.
  - destruct Ho as (t & ? & ? & ? & E). exists t. by rewrite Hn in E.
  - destruct Ho as (t & _ & _ & E & _). congruence.
  - by destruct Ho as (_ & E & _).
  - destruct Ho as (_ & E & _). congruence.
Qed.

(** The object is there when the callback sets the name. *)
Lemma object_at_name w n l' : ok w -> child w = R_cb (CbSetName n :: l') ->
  exists t, object w = Some t /\ m_cb t = None /\ m_id t = new_tid.
Proof.
  intros [Hc Ho _] E. unfold owner_ok in Ho. unfold child_ok in Hc. rewrite E in *. destruct Hc as [Hl _].
  destruct (owner w) as [| |o|[e|]].
  - by rewrite Ho in E.
  - destruct Ho as (t & ? & _ & Hp & _). by exists t.
  - destruct Ho as (t & ? & Hp & _). by exists t.
  - by destruct Ho as (_ & ? & _).
  - destruct Ho as (_ & _ & Hj). destruct Hname as [Hn|Hn]; [by specialize (Hj Hn)|by specialize (Hl Hn)].
Qed.

(** Before the notification a step of the new thread changes the object, what is local
    to it, and its place. *)
Lemma early_step w w' t t' :
  ok w -> object w = Some t -> owner w = Waiting -> m_thread t = handle ->
  object w' = Some t' -> owner w' = Waiting -> ids w' = ids w -> m_thread t' = m_thread t ->
  m_semaphore t' = (if notified (child w') then 1 else 0) -> prepared t' (child w') -> child_ok w' -> ok w'.
Proof.
  intros R Et Eo Eh Et' Eo' Ei Eh' Es Hp Hc. constructor; [done| |rewrite Ei; apply (ok_ids w R)].
  unfold owner_ok. rewrite Eo'. exists t'. by rewrite Eh'.
Qed.

(** After it, only what is local and the name. *)
Lemma late_step w w' :
  ok w -> notified (child w) = true -> notified (child w') = true -> child w <> R_return ->
  owner w' = owner w -> ids w' = ids w -> child_ok w' ->
  match object w, object w' with
  | Some t, Some t' => m_cb t' = m_cb t /\ m_id t' = m_id t /\ m_semaphore t' = m_semaphore t /\ m_thread t' = m_thread t
  | None, None => True
  | _, _ => False
  end -> ok w'.
Proof.
  intros [Hc Ho Hi] Hn Hn' Hr Eo Ei Hc' Hobj. constructor; [done| |by rewrite Ei].
  unfold owner_ok in *. rewrite Eo. destruct (owner w) as [| |o|[e|]].
  - by rewrite Ho in Hn.
  - destruct Ho as (t & Et & Eh & Hp & Es). rewrite Et in Hobj. destruct (object w') as [t'|]; [|done].
    destruct Hobj as (Ec & Ed & Es' & Eh'). exists t'. rewrite Es', Es, Hn, Hn', Eh'. split_and!; try done.
    destruct (child w), (child w'); try done; cbn in *; by rewrite Ec, Ed.
  - destruct Ho as (t & Et & Hp & _ & Es & Hz & Hj). rewrite Et in Hobj. destruct (object w') as [t'|]; [|done].
    destruct Hobj as (Ec & Ed & Es' & Eh'). exists t'. rewrite Es', Es, Eh'. split_and!; try done.
    + destruct (child w), (child w'); try done; cbn in *; by rewrite Ec, Ed.
    + intros Ez. by specialize (Hz Ez).
    + intros H1 H2. by specialize (Hj H1 H2).
  - by destruct Ho as (_ & E & _); rewrite E in Hn.
  - destruct Ho as (Et & _ & Hj). rewrite Et in Hobj. destruct (object w'); [done|]. split_and!; [done..|].
    intros H1. by specialize (Hj H1).
Qed.

Lemma on_object_run {A} (m : M Thread A) w t x t' :
  object w = Some t -> m t = Ret x t' -> on_object m w = Ret x (w_object (Some t') w).
Proof. intros Et E. unfold on_object. by rewrite Et, E. Qed.

(** A step of the new thread. *)
Definition advances (m : M World unit) (w : World) : Prop :=
  exists w', m w = Ret tt w' /\ ok w' /\ (steps_left w' < steps_left w)%nat.

Lemma early_child w : ok w -> child w <> NotStarted -> notified (child w) = false -> advances child_step w.
Proof.
  intros R Hc Hn. destruct (object_there w R Hc Hn) as (t & Et & Eo & Eh & Hp & Es).
  pose proof (ok_child w R) as Hk. unfold child_ok in Hk. unfold advances, child_step, steps_left. step_with (eq_refl : get w = Ret w w).
  destruct (child w) eqn:Ec; try done; cbn in Hp; try (step_with (on_object_run get w t t t Et eq_refl)).
  - eexists. split; [reflexivity|]. split; [|cbn; lia]. by eapply early_step.
  - eexists. split; [reflexivity|]. split; [|cbn; lia]. by eapply early_step.
  - step_with (on_object_run (modify (t_set_id new_tid)) w t _ _ Et eq_refl).
    eexists. split; [reflexivity|]. split; [|cbn; lia]. by eapply early_step.
  - eexists. split; [reflexivity|]. split; [|cbn; lia]. by eapply early_step.
  - assert (Et' : object (w_object (Some t) w) = Some t) by done.
    step_with (on_object_run (modify (t_set_cb None)) _ t _ _ Et' eq_refl). destruct Hp as [Hl Hi].
    eexists. split; [reflexivity|]. split; [|cbn; lia]. by eapply early_step.
  - assert (E : on_semaphore Semaphore_notify t = Ret tt (t_set_semaphore 1 t)) by (unfold on_semaphore, Semaphore_notify; by rewrite Es).
    step_with (on_object_run _ w t _ _ Et E). destruct Hp as (-> & Hcb & Hi).
    eexists. split; [reflexivity|]. split; [|cbn; lia]. by eapply early_step.
Qed.

#[local] Ltac same_object w := cbn; by destruct (object w).
Lemma late_child w : ok w -> notified (child w) = true -> child w <> R_return -> advances child_step w.
Proof.
  intros R Hn Hr. pose proof (ok_child w R) as Hk. unfold child_ok in Hk.
  unfold advances, child_step, steps_left. step_with (eq_refl : get w = Ret w w).
  destruct (child w) as [| | | | | | |f|l'|] eqn:Ec; try done.
  - destruct Hk as [-> Hz]. eexists. split; [reflexivity|]. split; [|cbn; lia].
    apply (late_step w); rewrite ?Ec; try done; [split; [done|cbn; by rewrite Hz]|same_object w].
  - destruct Hk as [Hl Hz]. destruct l' as [|[n|] l'].
    + eexists. split; [reflexivity|]. split; [|cbn; lia]. apply (late_step w); rewrite ?Ec; try done. same_object w.
    + destruct (object_at_name w n l' R Ec) as (t & Et & _). cbn [cb_step].
      assert (E : exists w1, SetName n w = Ret tt w1 /\ object w1 = Some (if t_thread w then t_set_name n t else t) /\
        owner w1 = owner w /\ ids w1 = ids w /\ called w1 = called w).
      { unfold SetName. step_with (eq_refl : get w = Ret w w). destruct (t_thread w); [|by eexists].
        step_with (on_object_run (modify (t_set_name n)) w t _ _ Et eq_refl). by eexists. }
      destruct E as (w1 & E & Et1 & Eo1 & Ei1 & Ec1). step_with E.
      eexists. split; [reflexivity|]. split; [|cbn; rewrite Eo1; cbn; lia].
      apply (late_step w); rewrite ?Ec; try done.
      * split; cbn; [intros Hs; by specialize (Hl Hs)|by rewrite Ec1].
      * rewrite Et. cbn. rewrite Et1. by destruct (t_thread w).
    + eexists. split; [reflexivity|]. split; [|cbn; lia].
      apply (late_step w); rewrite ?Ec; try done. same_object w.
Qed.

Lemma child_turn w : ok w -> child w <> NotStarted -> child w <> R_return -> advances child_step w.
Proof. intros R Hc Hr. destruct (notified (child w)) eqn:Hn; [by apply late_child|by apply early_child]. Qed.
Lemma child_idle w : child w = NotStarted \/ child w = R_return -> child_step w = Ret tt w.
Proof. intros Hc. unfold child_step. step_with (eq_refl : get w = Ret w w). by destruct Hc as [-> | ->]. Qed.

(** A step of the owner. *)
Hypothesis Hhandle : handle <> 0.

Lemma owner_waits w : ok w -> owner w = Waiting ->
  advances (owner_step (Some l) name ops false) w \/
  (owner_step (Some l) name ops false w = Ret tt w /\ child w <> NotStarted /\ child w <> R_return).
Proof.
  intros R Eo. pose proof (ok_owner w R) as Ho. unfold owner_ok in Ho. rewrite Eo in Ho.
  destruct Ho as (t & Et & Eh & Hp & Es).
  unfold advances, owner_step. step_with (eq_refl : get w = Ret w w). rewrite Eo. cbv beta iota. unfold Thread_wait.
  destruct (notified (child w)) eqn:Hn.
  - left. assert (E : on_semaphore (Semaphore_wait false) t = Ret true (t_set_semaphore 0 t)) by (unfold on_semaphore, Semaphore_wait; by rewrite Es).
    rewrite (on_object_run _ w t _ _ Et E). eexists. split; [reflexivity|]. split; [|unfold steps_left; cbn; rewrite Eo; cbn; lia].
    constructor; [apply (ok_child w R)| |apply (ok_ids w R)]. unfold owner_ok. cbn.
    eexists. split; [done|]. split_and!; try done; cbn; intros; congruence.
  - right. assert (E : on_semaphore (Semaphore_wait false) t = Ret false t) by (unfold on_semaphore, Semaphore_wait; rewrite Es; destruct t; cbn in *; by subst).
    rewrite (on_object_run _ w t _ _ Et E). split; [destruct w; cbn in *; by subst|]. split; [intros Ec; by rewrite Ec in Hp|intros Ec; by rewrite Ec in Hn].
Qed.

Lemma owner_creates w : ok w -> owner w = Creating -> advances (owner_step (Some l) name ops false) w.
Proof.
  intros R Eo. pose proof (ok_owner w R) as Ho. unfold owner_ok in Ho. rewrite Eo in Ho. subst w. clear Eo R.
  unfold advances, owner_step, Thread_create, constructor_throws. cbn.
  destruct (create_result =? 0) eqn:Er; cbn.
  - eexists. split; [reflexivity|]. split; [|unfold steps_left; cbn; lia]. constructor; [done| |constructor].
    eexists. split; [reflexivity|]. by split_and!.
  - apply Z.eqb_neq in Er. eexists. split; [reflexivity|]. split; [|unfold steps_left; cbn; lia]. by constructor; [..|constructor].
Qed.

(** The object after the constructor. *)
Lemma object_ready t c : prepared t c -> notified c = true -> m_cb t = None /\ m_id t = new_tid.
Proof. by destruct c. Qed.

Lemma owner_runs w o : ok w -> owner w = Constructed o ->
  advances (owner_step (Some l) name ops false) w \/
  (owner_step (Some l) name ops false w = Ret tt w /\ child w <> NotStarted /\ child w <> R_return).
Proof.
  intros R Eo. pose proof (ok_owner w R) as Ho. unfold owner_ok in Ho. rewrite Eo in Ho.
  destruct Ho as (t & Et & Hp & Hn & Es & Hz & Hj). destruct (object_ready t _ Hp Hn) as [Hcb Hid].
  assert (Ew : w_object (Some t) w = w) by (destruct w; cbn in *; by subst).
  pose proof (on_object_run get w t t t Et eq_refl) as Eg. rewrite Ew in Eg.
  unfold advances, owner_step. step_with (eq_refl : get w = Ret w w). rewrite Eo. cbv beta iota.
  destruct o as [|[| |] o]; step_with Eg.
  - left. eexists. split; [reflexivity|]. split; [|unfold steps_left; cbn; rewrite Eo; cbn; lia].
    constructor; [apply (ok_child w R)| |apply (ok_ids w R)]. unfold owner_ok. cbn. split_and!; try done. intros H1. by apply Hj.
  - assert (Hwait : child w = R_return \/ (child w <> R_return /\ (m_thread t =? 0) = false)).
    { destruct (m_thread t =? 0) eqn:E; [left; apply Hz; by apply Z.eqb_eq|]. destruct (child w); auto; right; done. }
    destruct Hwait as [Ec|[Ec Ez]].
    + left. rewrite Ec.
      assert (E : exists t', Thread_join 0 t = Ret tt t' /\ m_cb t' = m_cb t /\ m_id t' = m_id t /\ m_semaphore t' = m_semaphore t).
      { unfold Thread_join. step_with (eq_refl : get t = Ret t t). destruct (negb _); by eexists. }
      destruct E as (t' & E & Ecb & Eid & Esm). step_with (on_object_run _ w t _ _ Et E).
      eexists. split; [reflexivity|]. split; [|unfold steps_left; cbn; rewrite Eo; cbn; lia].
      constructor; [apply (ok_child w R)| |apply (ok_ids w R)]. unfold owner_ok. cbn. exists t'. rewrite Esm, Ec.
      split_and!; try done. cbn. by rewrite Ecb, Eid.
    + right. rewrite Ez. split; [by destruct (child w)|]. split; [|done]. by intros E; rewrite E in Hn.
  - left. eexists. split; [reflexivity|]. split; [|unfold steps_left; cbn; rewrite Eo; cbn; lia].
    constructor; [apply (ok_child w R)| |]; cbn.
    + unfold owner_ok. cbn. exists t. by split_and!.
    + rewrite Forall_app. split; [apply (ok_ids w R)|]. by constructor.
  - left. eexists. split; [reflexivity|]. split; [|unfold steps_left; cbn; rewrite Eo; cbn; lia].
    constructor; [apply (ok_child w R)| |apply (ok_ids w R)]. unfold owner_ok. cbn. exists t. by split_and!.
Qed.

Lemma owner_turn w : ok w ->
  advances (owner_step (Some l) name ops false) w \/
  (owner_step (Some l) name ops false w = Ret tt w /\ ((exists e, owner w = Finished e) \/ (child w <> NotStarted /\ child w <> R_return))).
Proof.
  intros R. destruct (owner w) as [| |o|e] eqn:Eo.
  - left. by apply owner_creates.
  - destruct (owner_waits w R Eo) as [|[? ?]]; [by left|]. right. auto.
  - destruct (owner_runs w o R Eo) as [|[? ?]]; [by left|]. right. auto.
  - right. split; [|left; by exists e]. unfold owner_step. step_with (eq_refl : get w = Ret w w). by rewrite Eo.
Qed.

Lemma turn_ok x w : x <> Owner true -> ok w -> exists w', turn_step (Some l) name ops x w = Ret tt w' /\ ok w'.
Proof.
  intros Hx R. destruct x as [[]|]; [done| |]; cbn.
  - destruct (owner_turn w R) as [(w' & ? & ? & _)|[? _]]; [by exists w'|by exists w].
  - destruct (child w) eqn:Ec; try (destruct (child_turn w R) as (w' & ? & ? & _); [by rewrite Ec..|by exists w']);
      exists w; (split; [apply child_idle; auto|done]).
Qed.
Lemma turns_ok xs : forall w, Forall (fun x => x <> Owner true) xs -> ok w ->
  exists w', run_turns (Some l) name ops xs w = Ret tt w' /\ ok w'.
Proof.
  induction xs as [|x xs IH]; intros w Hxs R; [by exists w|]. apply list.Forall_cons in Hxs as [Hx Hxs].
  destruct (turn_ok x w Hx R) as (w1 & E & R1). destruct (IH w1 Hxs R1) as (w' & E' & R'). exists w'. split; [|done]. cbn. by step_with E.
Qed.

Lemma turns_progress w : ok w -> ~ all_done w ->
  exists x w', x <> Owner true /\ turn_step (Some l) name ops x w = Ret tt w' /\ (steps_left w' < steps_left w)%nat.
Proof.
  intros R Hd. destruct (owner_turn w R) as [(w' & E & _ & Hl)|[_ Ho]]; [by exists (Owner false), w'|].
  assert (child w <> NotStarted /\ child w <> R_return) as [Hc Hr].
  { destruct Ho as [[e Ho]|]; [|done]. split; intros Ec; apply Hd; exists e; auto. }
  destruct (child_turn w R Hc Hr) as (w' & E & _ & Hl). by exists Child, w'.
Qed.

Lemma done_dec w : all_done w \/ ~ all_done w.
Proof.
  unfold all_done. destruct (owner w) as [| |o|e]; [right; by intros (? & ? & _)..|].
  destruct (child w); first [left; exists e; by auto|right; by intros (? & _ & [|])].
Qed.

Lemma ok_new : ok World_new.
Proof. by constructor. Qed.

(** The constructor has returned. *)
Definition returned (w : World) : Prop := match owner w with Constructed _ | Finished None => True | _ => False end.

(** C39: making a thread.  The owner constructs a Thread, calls its methods and
    destroys it, the new thread goes through [Thread::run]; in every interleaving of
    the two in which no signal interrupts sem_wait, and in which the object is joined
    or the callback does not call SetName, (1) neither thread uses the object before
    it is constructed or after it is destroyed, nothing is thrown but by
    pthread_create, and the callback is called at most once, and once when the thread
    returns; (2) from the moment the constructor has returned the object holds the id
    of the new thread, and its callback has been taken out of it, so that getId gives
    the id; (3) when the object was joined and is destroyed the thread has returned;
    (4) as long as not both are finished one of them can go on, and there are at most
    [steps_left] such steps. *)
Theorem thread_starts (turns : list turn) :
  Forall (fun x => x <> Owner true) turns ->
  exists w, run_turns (Some l) name ops turns World_new = Ret tt w /\
  (called w <= 1 /\ (child w = R_return -> called w = 1))%nat /\
  (returned w -> notified (child w) = true /\ forall t, object w = Some t -> m_id t = new_tid /\ m_cb t = None) /\
  Forall (eq new_tid) (ids w) /\
  (owner w = Finished None -> joins ops = true -> child w = R_return) /\
  (all_done w \/ exists x w', x <> Owner true /\ turn_step (Some l) name ops x w = Ret tt w' /\ (steps_left w' < steps_left w)%nat).
Proof.
  intros Hxs. destruct (turns_ok turns World_new Hxs ok_new) as (w & E & R). exists w. split; [done|].
  pose proof (ok_child w R) as Hc. pose proof (ok_owner w R) as Ho. unfold child_ok in Hc. unfold owner_ok in Ho.
  assert (Hk : called w = match child w with R_cb _ | R_return => 1%nat | _ => 0%nat end)
    by (destruct (child w); try done; by destruct Hc).
  split; [rewrite Hk; destruct (child w); split; (done || lia)|]. split; [|split; [apply (ok_ids w R)|split]].
  - unfold returned. destruct (owner w) as [| |o|[e|]]; try done; intros _.
    + destruct Ho as (t & Et & Hp & Hn & _). split; [done|]. intros t' Et'. assert (t' = t) as -> by congruence.
      by destruct (object_ready t _ Hp Hn).
    + destruct Ho as (Et & Hn & _). split; [done|]. intros t' Et'. congruence.
  - intros Eo. rewrite Eo in Ho. by destruct Ho as (_ & _ & ?).
  - destruct (done_dec w) as [|Hd]; [by left|right]. by apply turns_progress.
Qed.
End threads.

(** ** A thread that is joined, and the ways to lose the object *)
#[export] Instance DemoSystem : System := { create_result := 0; handle := 140; new_tid := 4711 }.

Definition demo_cb : list cb_op := [CbGetName; CbSetName (bs "worker"); CbGetName].
Definition demo_ops : list owner_op := [GetId; Join; GetName].
Definition demo_turns : list turn :=
  [Owner false; Child; Owner false; Child; Child; Child; Child; Child; Owner false; Owner false; Owner false;
   Child; Child; Child; Child; Child; Owner false; Owner false; Owner false].

Lemma thread_starts_witness :
  Forall (fun x => x <> Owner true) demo_turns /\
  exists w, run_turns (Some demo_cb) (bs "io") demo_ops demo_turns World_new = Ret tt w /\
  Forall (eq new_tid) (ids w) /\ (owner w = Finished None -> joins demo_ops = true -> child w = R_return).
Proof.
  assert (H : Forall (fun x => x <> Owner true) demo_turns) by (by repeat constructor).
  assert (Hh : handle <> 0) by done. split; [exact H|].
  destruct (thread_starts demo_cb (bs "io") demo_ops (or_introl eq_refl) Hh demo_turns H) as (w & E & _ & _ & Hi & Hj & _).
  exists w. auto.
Defined.

Example demo_thread :
  exists w, run_turns (Some demo_cb) (bs "io") demo_ops demo_turns World_new = Ret tt w /\
  owner w = Finished None /\ child w = R_return /\ ids w = [4711] /\ names w = [bs "io"; bs "worker"; bs "worker"] /\
  kernel_name w = bs "io" /\ is_detached w = false.
Proof. eexists. split; [vm_compute; reflexivity|]. by vm_compute. Qed.

(** An owner that does not join: SetName stores into the object that is gone. *)
Example set_name_after_destruction :
  run_turns (Some demo_cb) (bs "io") [GetId] ([Owner false] ++ repeat Child 6 ++ [Owner false; Owner false; Owner false] ++ repeat Child 3) World_new
    = Crash UseAfterFree.
Proof. by vm_compute. Qed.

(** A signal that interrupts sem_wait: the constructor throws, and the new thread
    goes on with the object. *)
Example interrupted_wait :
  run_turns (Some demo_cb) (bs "io") demo_ops [Owner false; Owner true; Child; Child] World_new = Crash UseAfterFree.
Proof. by vm_compute. Qed.
